(* ===== verification/_CoqProject ===== *)
-Q . S2P
Prelude.v
Ring.v
BitSet.v
Bytes.v
NetQueue.v
NetPump.v
BlkQueue.v
BlkPump.v
SerialQueue.v
VirtAuthority.v
Input.v
X86Apic.v
X86Ioapic.v
X86Irq.v
X86Rtc.v
X86Config.v
X86Memory.v
X86String.v
SerialService.v
SerialFrontend.v
Kernel.v
GuestRam.v
UtAlloc.v
EpAlloc.v
BootManifest.v
CapLease.v
Text.v
Authority.v
Endowment.v
ChildSpawn.v
Sha256.v
Ipc.v
Nameserver.v
PixelMem.v
Framebuffer.v
FbObserver.v
Display.v
Fdt.v
EventBus.v
AgentFs.v
