(* ===== verification/Prelude.v ===== *)
(** * agentOS: a verification library

    agentOS is a set of protection domains on the seL4 microkernel. A root
    task turns the boot information into objects and endpoints and starts the
    domains. Virtualizer domains move packets, disk requests, console bytes,
    input events and pixels between guests that do not trust each other,
    through queues in shared memory. Virtual machine monitors back the memory
    of a guest with capabilities and emulate its devices. A domain can lend a
    capability or create a child domain, and inspection code counts who was
    granted what. A name server answers who serves what. This library
    translates those parts into executable definitions and proves what they
    promise. Paths below are under src/.

    ** How C is modelled

    A w-bit unsigned integer is a [Z] that every operation reduces explicitly
    ([u8] to [u64]). A struct is a record. An array is a list; an index outside
    it has no result ([aget], [aset]). An object of megabytes is sparse
    ([smem]), and an access outside it has no result either. Code with state
    is a function in the monad [prog]: state in, result and state out, or
    [None] for an access the C code must never make; the emulated x86 devices
    and the graphics services return an option of the result and the new
    state, with [None] for the same. Theorems about such code say that it
    returns, with [wp] or by exhibiting the result. Shared memory is a
    map from addresses, and its contents are arbitrary wherever a peer can
    write it. The kernel is never modelled: Kernel.v has an arbitrary function
    from invocations to answers (class [Kernel]) and the log of what was asked,
    so theorems hold for every kernel. Callbacks and devices are arguments of
    the definitions that use them; what is relied on is a named class or
    hypothesis, and each is shown to be satisfiable by a concrete instance.

    ** Files

    - Prelude.v: integers, arrays, the monad with its calculus, tactics and
      hints. Ring.v: the theory of rings with free-running indices, shared by
      all queues. BitSet.v: flag words and bit maps. Bytes.v: payload memory
      and little-endian words. Text.v: string literals. PixelMem.v: large
      sparse objects, what they hold where, and the row copies of rectangles.
    - NetQueue.v, NetPump.v: platform/net-virt/net_virt_pump.c and its headers.
      A queue is a FIFO. The hub touches only the memory of its clients,
      delivers each frame to the other clients, returns each transmit buffer
      to its owner, and removes exactly the given client.
    - BlkQueue.v, BlkPump.v: platform/blk-virt/blk_virt_pump.c. The pump never
      leaves the windows of its clients, answers requests in order with the
      status of the device or of the RAM disk, and what is written to the
      RAM disk is read back. The device is a parameter with
      a contract ([blk_backend_ok]), which the RAM disk meets.
    - SerialQueue.v, VirtAuthority.v, SerialService.v, SerialFrontend.v:
      platform/serial-virt/{pump,service,endpoint,uart}.c, the admission gate
      of serial_frontend.h and the badge rules of the contracts. The service is
      a step relation with hostile peers: it stays safe, detachment is final,
      and rebinding starts clean.
    - Input.v: platform/input-virt/{service,rebind_service}.c. The keys that
      the service holds are the keys that the guest sees as down, and a
      release drains.
    - X86Apic.v, X86Ioapic.v, X86Irq.v, X86Rtc.v, X86Config.v, X86Memory.v,
      X86String.v: the files x86_*.c of those names in platform/guest-vmm,
      with the interrupt delivery of x86_firmware.c. The timer counts ticks
      exactly, a level interrupt is not lost between the two controllers, the
      clock keeps the Gregorian calendar, firmware files read the same by
      port and by DMA, page walks stay in guest memory, and string input is byte by byte.
    - Fdt.v: platform/guest-vmm/fdt_builder.c and the tree that guest_vmm.c
      builds with it. A blob parses to the calls that made it, its size may
      pass an unaligned capacity by the padding, and a build fails exactly
      when its tokens or names do not fit.
    - Framebuffer.v, FbObserver.v, Display.v: platform/framebuffer/{service,
      rebind,observer}.c, platform/display/{service,producer}.c and
      [display_exchange] of framebuffer_pd.c. The pump of the service refines
      a map from handles to pictures with pixel coordinates, and lets go of
      a client that detaches; an observer sees
      exactly what a client selected, and packed reads decode; a forwarded
      frame is on the screen pixel for pixel, or what was shown stays whole,
      for every schedule of the display driver.
    - Kernel.v: the kernel interface. GuestRam.v: platform/guest-ram and
      libvmm/src/virtio/gpa.c. Translations are backed by frames that are
      mapped, invocations stay on the monitor's own capabilities, copies in
      both directions succeed exactly inside the guest's window, and rings
      stay in it.
    - UtAlloc.v, EpAlloc.v, BootManifest.v: ut_alloc.c, ep_alloc.c and
      boot_manifest.c of kernel/agentos-root-task/src. Slots are never handed
      out twice, [ut_alloc_device_cap] and [ut_alloc_device_cap_typed] place
      frames at the address asked for, endpoints of a service are stable, and
      the parser of the untrusted manifest reports the first defect of each
      blob without reading outside it. The watermark of an untyped is
      documented kernel behaviour and is the class [UntypedKernel], used only
      for physical placement.
    - CapLease.v, Authority.v, Endowment.v, ChildSpawn.v: cap_lease.c,
      cap_lend.c, endowment.c and child_spawn.c of libs/pd-support, with
      authority.c and endow_ledger.c of platform/inspect. The lease table and
      lending follow a specification of the open loans, the snapshot counts
      exactly and prints within its buffer, an endowment never exceeds what
      the parent declares, and a spawn is all or nothing and confined, for
      every kernel.
    - Sha256.v: libs/pd-support/sha256_mini.c equals the hash of FIPS 180-4.
    - Ipc.v: sel4_msg_types.h, sel4_ipc.h and sel4_server.h of
      kernel/agentos-root-task/include. Messages survive the registers.
      Nameserver.v: services/nameserver/nameserver.c, whose service loop
      refines a finite map from names to services.
    - EventBus.v: services/event-bus/event_bus.c. From boot, for every
      sequence of messages, the bus is a bounded log with numbered
      subscribers, and its registration is understood by the name server.
    - AgentFs.v: services/agentfs/agentfs.c. The blobs of the store stay
      disjoint for sizes that do not wrap; two lemmas exhibit what the code
      does otherwise, and that objects are not found again.

    ** Bounds and fuel

    A loop with a bound in C runs with that bound. A loop without one is given
    fuel, and the theorem about it shows that the fuel is enough: the
    removal scan of the network registry uses the number of clients; the block
    loop of [sha256_mini] needs one unit more than there are blocks; the
    decimal printer uses the twenty digits of a 64-bit number; the year loop
    of the clock uses days / 365 + 1 and its month loop twelve; the scan of a
    string instruction uses its count and one; a packed read uses 507 runs,
    the most that fit a payload, and as many steps as pixels within a run; a
    forward uses 49 for its chunks and 1027 for the parts of rows in one
    chunk; the loops that align use four, and the search of a string table
    one more than its bytes. Lengths and addresses keep the width of the code, so wrap-around
    is part of every statement.

    ** What is not modelled

    The kernel, hardware and compilers. The message loops and virtio register
    files of the virtualizer domains around the pumps, the run loop and boot
    of the guest monitor, the transport of the display device, the guest GPU,
    the operator services, the remaining services, the boot sequence of the
    root task and the loader, signature verification, and the vendored and
    Rust code. Concurrency on shared memory is a sequence of whole operations
    interleaved with arbitrary writes by peers; weaker memory orders are not
    considered. Debug output is left out. *)

From stdpp Require Export base gmap list numbers list_numbers relations.
From stdpp Require Import options.

#[global] Open Scope Z_scope.

(** ** Machine integers *)

(** C's unsigned integers of width 8, 16, 32 and 64 are integers in
    [0, 2^w); every arithmetic result that C reduces is reduced explicitly
    with one of these. *)
Definition u8 (x : Z) : Z := x mod 2 ^ 8.
Definition u16 (x : Z) : Z := x mod 2 ^ 16.
Definition u32 (x : Z) : Z := x mod 2 ^ 32.
Definition u64 (x : Z) : Z := x mod 2 ^ 64.

Definition UINT16_MAX : Z := 2 ^ 16 - 1.
Definition UINT32_MAX : Z := 2 ^ 32 - 1.
Definition UINT64_MAX : Z := 2 ^ 64 - 1.

Definition is_u8 (x : Z) : Prop := 0 <= x < 2 ^ 8.
Definition is_u16 (x : Z) : Prop := 0 <= x < 2 ^ 16.
Definition is_u32 (x : Z) : Prop := 0 <= x < 2 ^ 32.
Definition is_u64 (x : Z) : Prop := 0 <= x < 2 ^ 64.

#[global] Instance is_u8_dec x : Decision (is_u8 x).
Proof. unfold is_u8. apply _. Defined.
#[global] Instance is_u16_dec x : Decision (is_u16 x).
Proof. unfold is_u16. apply _. Defined.
#[global] Instance is_u32_dec x : Decision (is_u32 x).
Proof. unfold is_u32. apply _. Defined.
#[global] Instance is_u64_dec x : Decision (is_u64 x).
Proof. unfold is_u64. apply _. Defined.

(** The null pointer. *)
Definition NULL : Z := 0.

(** ** Arrays indexed by C integers

    [aget] and [aset] are C's array read and write on an array of the list's
    length; an index outside it has no result. *)
Definition aget {A} (l : list A) (i : Z) : option A :=
  if 0 <=? i then l !! Z.to_nat i else None.

Definition aset {A} (l : list A) (i : Z) (x : A) : option (list A) :=
  if (0 <=? i) && (i <? Z.of_nat (length l)) then Some (<[Z.to_nat i := x]> l) else None.

(** [n] elements of [l] from index [i]. *)
Definition aslice {A} (l : list A) (i n : Z) : list A :=
  take (Z.to_nat n) (drop (Z.to_nat i) l).

(** A C string in a buffer: the bytes before the first zero. *)
Fixpoint c_string (l : list Z) : list Z :=
  match l with
  | [] => []
  | c :: l => if c =? 0 then [] else c :: c_string l
  end.

(** ** Stateful code that can fault

    [prog S A] is C code that runs in a state [S] and returns an [A]. [None]
    is an access the C code must never make: a null or unmapped pointer, or
    an index outside an array. *)
Definition prog (S A : Type) : Type := S -> option (A * S).

#[global] Instance prog_ret S : MRet (prog S) := fun A a s => Some (a, s).
#[global] Instance prog_bind S : MBind (prog S) := fun A B k m s =>
  match m s with Some (a, s') => k a s' | None => None end.

Definition fault {S A} : prog S A := fun _ => None.
Definition get_state {S} : prog S S := fun s => Some (s, s).
Definition put_state {S} (s : S) : prog S unit := fun _ => Some (tt, s).
Definition lift {S A} (o : option A) : prog S A := fun s =>
  match o with Some a => Some (a, s) | None => None end.

Definition modify {S} (f : S -> S) : prog S unit := fun s => Some (tt, f s).

(** A C loop [for (i = i0; ...; i++)] that runs at most [n] times, with the
    local variables it updates as [A]. *)
Inductive loop_ctl := Continue | Break.

Fixpoint for_loop {S A} (n : nat) (i : Z) (a : A)
    (body : Z -> A -> prog S (loop_ctl * A)) : prog S A :=
  match n with
  | O => mret a
  | Datatypes.S n =>
      '(c, a') ← body i a;
      match c with
      | Continue => for_loop n (i + 1) a' body
      | Break => mret a'
      end
  end.

(** Total correctness: [m] run in [s] does not fault, and ends with a result
    and a state that satisfy [Q]. *)
Definition wp {S A} (m : prog S A) (Q : A -> S -> Prop) (s : S) : Prop :=
  match m s with Some (a, s') => Q a s' | None => False end.

(** ** Tactics *)

(** Splits every C comparison that decides a branch of the goal. *)
Ltac case_cmp :=
  match goal with
  | |- context [if ?a =? ?b then _ else _] => destruct (Z.eqb_spec a b)
  | |- context [if ?a <? ?b then _ else _] => destruct (Z.ltb_spec a b)
  | |- context [if ?a <=? ?b then _ else _] => destruct (Z.leb_spec a b)
  | |- context [if ?b then _ else _] =>
      match type of b with bool => destruct b eqn:? end
  end.

(** Bounds on [x mod m] for every such term in sight, then [lia]. *)
Ltac mod_lia :=
  unfold u8, u16, u32, u64, is_u8, is_u16, is_u32, is_u64 in *;
  Z.div_mod_to_equations; lia.

(** Closes a decidable goal by evaluating its decision procedure. *)
Ltac by_compute := apply (bool_decide_eq_true_1 _); vm_compute; reflexivity.

(** Membership in, and absence from, a list written out with [::]. *)
Ltac in_list := repeat first [apply list_elem_of_here | apply list_elem_of_further].
Ltac not_in_list :=
  rewrite ?not_elem_of_cons; repeat split; try apply not_elem_of_nil; congruence.

(** ** The wp calculus *)

Create HintDb wpdb.

Section wp.
Context {S : Type}.

Lemma wp_ret {A} (a : A) (Q : A -> S -> Prop) s : Q a s -> wp (mret a) Q s.
Proof. done. Qed.

Lemma wp_bind {A B} (m : prog S A) (k : A -> prog S B) Q s :
  wp m (fun a => wp (k a) Q) s -> wp (m ≫= k) Q s.
Proof. unfold wp, mbind, prog_bind. by destruct (m s) as [[a s']|]. Qed.

Lemma wp_mono {A} (m : prog S A) (P Q : A -> S -> Prop) s :
  wp m P s -> (forall a s', P a s' -> Q a s') -> wp m Q s.
Proof. unfold wp. destruct (m s) as [[a s']|]; auto. Qed.

Lemma wp_and {A} (m : prog S A) (P Q : A -> S -> Prop) s :
  wp m P s -> wp m Q s -> wp m (fun a s' => P a s' /\ Q a s') s.
Proof. unfold wp. by destruct (m s) as [[a s']|]. Qed.

(** A postcondition that only matters under [H]. *)
Lemma wp_when {A} (m : prog S A) (H : Prop) (P Q : A -> S -> Prop) s :
  wp m P s -> (H -> wp m Q s) -> wp m (fun a s' => P a s' /\ (H -> Q a s')) s.
Proof. unfold wp. by destruct (m s) as [[a s']|]. Qed.

Lemma wp_lift {A} (o : option A) a (Q : A -> S -> Prop) s :
  o = Some a -> Q a s -> wp (lift o) Q s.
Proof. intros ->. done. Qed.

Lemma wp_get (Q : S -> S -> Prop) s : Q s s -> wp get_state Q s.
Proof. done. Qed.

Lemma wp_put (s' : S) (Q : unit -> S -> Prop) s : Q tt s' -> wp (put_state s') Q s.
Proof. done. Qed.

Lemma wp_modify (f : S -> S) (Q : unit -> S -> Prop) s : Q tt (f s) -> wp (modify f) Q s.
Proof. done. Qed.

Lemma wp_if {A} (b : bool) (m1 m2 : prog S A) Q s :
  (b = true -> wp m1 Q s) -> (b = false -> wp m2 Q s) ->
  wp (if b then m1 else m2) Q s.
Proof. destruct b; auto. Qed.

Lemma wp_run {A} (m : prog S A) Q s :
  wp m Q s -> exists a s', m s = Some (a, s') /\ Q a s'.
Proof. unfold wp. destruct (m s) as [[a s']|]; [eauto|done]. Qed.

Lemma wp_result {A} (m : prog S A) Q s a s' : wp m Q s -> m s = Some (a, s') -> Q a s'.
Proof. unfold wp. intros HQ Hm. by rewrite Hm in HQ. Qed.

(** Running a sequence one statement at a time. *)
Lemma run_bind {A B} (m : prog S A) (k : A -> prog S B) s a s' :
  m s = Some (a, s') -> (m ≫= k) s = k a s'.
Proof. unfold mbind, prog_bind. by intros ->. Qed.

Lemma run_get {B} (k : S -> prog S B) s : (get_state ≫= k) s = k s s.
Proof. done. Qed.

Lemma run_put {B} (t : S) (k : unit -> prog S B) s : (put_state t ≫= k) s = k tt t.
Proof. done. Qed.

Lemma run_lift {A B} (o : option A) (k : A -> prog S B) s a :
  o = Some a -> (lift o ≫= k) s = k a s.
Proof. by intros ->. Qed.

(** Loops: [Inv i a s] before the iteration with counter [i]. *)
Lemma wp_for {A} (Inv : Z -> A -> S -> Prop) (Q : A -> S -> Prop)
    (body : Z -> A -> prog S (loop_ctl * A)) n i0 a0 s0 :
  Inv i0 a0 s0 ->
  (forall i a s, i0 <= i < i0 + Z.of_nat n -> Inv i a s ->
     wp (body i a) (fun r s' =>
       match r.1 with Continue => Inv (i + 1) r.2 s' | Break => Q r.2 s' end) s) ->
  (forall a s, Inv (i0 + Z.of_nat n) a s -> Q a s) ->
  wp (for_loop n i0 a0 body) Q s0.
Proof.
  revert i0 a0 s0. induction n as [|n IH]; intros i0 a0 s0 HI Hstep Hend; simpl.
  - apply wp_ret, Hend. by rewrite Z.add_0_r.
  - apply wp_bind. eapply wp_mono; [apply Hstep; [lia|done]|].
    intros [[] a] s' HQ; simpl in *; [|by apply wp_ret].
    apply IH; [done| |].
    + intros i b t Hi. apply Hstep. lia.
    + intros b t Hb. apply Hend. by replace (i0 + Z.of_nat (Datatypes.S n))
        with (i0 + 1 + Z.of_nat n) by lia.
Qed.
End wp.

(** One syntax-directed step of the calculus. *)
Ltac wp_step :=
  lazymatch goal with
  | |- wp (mret _) _ _ => apply wp_ret
  | |- wp (_ ≫= _) _ _ => apply wp_bind
  | |- wp get_state _ _ => apply wp_get
  | |- wp (put_state _) _ _ => apply wp_put
  | |- wp (modify _) _ _ => apply wp_modify
  | |- wp (if _ then _ else _) _ _ => apply wp_if; intros ?
  end.

(** ** Generic lemmas *)

Lemma aget_Some {A} (l : list A) i x :
  aget l i = Some x <-> 0 <= i /\ l !! Z.to_nat i = Some x.
Proof. unfold aget. destruct (Z.leb_spec 0 i); intuition (congruence || lia). Qed.

Lemma aget_lt {A} (l : list A) i :
  0 <= i < Z.of_nat (length l) -> exists x, aget l i = Some x.
Proof.
  intros. destruct (lookup_lt_is_Some_2 l (Z.to_nat i)) as [x Hx]; [lia|].
  exists x. apply aget_Some. split; [lia|done].
Qed.

Lemma aget_bound {A} (l : list A) i x :
  aget l i = Some x -> 0 <= i < Z.of_nat (length l).
Proof. intros [? ?%lookup_lt_Some]%aget_Some. lia. Qed.

Lemma aget_total `{Inhabited A} (l : list A) i :
  0 <= i < Z.of_nat (length l) -> aget l i = Some (l !!! Z.to_nat i).
Proof.
  intros. apply aget_Some. split; [lia|].
  apply list_lookup_lookup_total_lt. lia.
Qed.

Lemma aset_Some {A} (l : list A) i x :
  0 <= i < Z.of_nat (length l) -> aset l i x = Some (<[Z.to_nat i := x]> l).
Proof.
  intros. unfold aset. destruct (Z.leb_spec 0 i), (Z.ltb_spec i (Z.of_nat (length l)));
    simpl; [done|lia..].
Qed.

Lemma length_aslice {A} (l : list A) i n :
  0 <= i -> 0 <= n -> i + n <= Z.of_nat (length l) ->
  length (aslice l i n) = Z.to_nat n.
Proof. intros. unfold aslice. rewrite length_take, length_drop. lia. Qed.

Lemma aslice_replicate {A} (x : A) N i n :
  0 <= i -> 0 <= n -> i + n <= N ->
  aslice (replicate (Z.to_nat N) x) i n = replicate (Z.to_nat n) x.
Proof.
  intros. unfold aslice. rewrite drop_replicate, take_replicate. f_equal. lia.
Qed.

(** *** Lists as sets *)

Lemma elem_delete {A} (l : list A) i j x : l !! j = Some x -> j <> i -> x ∈ delete i l.
Proof.
  intros Hj Hne. destruct (decide (j < i)%nat).
  - eapply (list_elem_of_lookup_2 _ j). by rewrite list_lookup_delete_lt.
  - eapply (list_elem_of_lookup_2 _ (j - 1)). rewrite list_lookup_delete_ge by lia.
    by replace (Datatypes.S (j - 1)) with j by lia.
Qed.

Lemma size_list_to_set_le (l : list Z) : (size (list_to_set l : gset Z) <= length l)%nat.
Proof.
  induction l as [|x l IH]; simpl; [done|].
  rewrite size_union_alt, size_singleton.
  assert (size ((list_to_set l : gset Z) ∖ {[x]}) <= size (list_to_set l : gset Z))%nat
    by (apply subseteq_size; set_solver). lia.
Qed.

(** *** Integers in range *)

Lemma u8_range x : is_u8 (u8 x).
Proof. by apply Z.mod_pos_bound. Qed.
Lemma u16_range x : is_u16 (u16 x).
Proof. by apply Z.mod_pos_bound. Qed.
Lemma u32_range x : is_u32 (u32 x).
Proof. by apply Z.mod_pos_bound. Qed.
Lemma u64_range x : is_u64 (u64 x).
Proof. by apply Z.mod_pos_bound. Qed.

Lemma u8_small x : is_u8 x -> u8 x = x.
Proof. apply Z.mod_small. Qed.
Lemma u16_small x : is_u16 x -> u16 x = x.
Proof. apply Z.mod_small. Qed.
Lemma u32_small x : is_u32 x -> u32 x = x.
Proof. apply Z.mod_small. Qed.
Lemma u64_small x : is_u64 x -> u64 x = x.
Proof. apply Z.mod_small. Qed.

Create HintDb cint.
#[export] Hint Resolve u8_range u16_range u32_range u64_range : cint.

#[export] Hint Resolve wp_ret wp_get wp_put : wpdb.
