(* ===== verification/Ring.v ===== *)
(** * Ring buffers with free-running indices

    The sDDF-shaped queues of agentOS all keep two indices that only count
    up, modulo the width [M] of their C type, and place the element with
    index [i] in slot [i mod cap] of a shared array. This file is the theory
    of that representation, independent of the element type and of the
    queue: the number of pending elements, the list of them in order, and
    what publishing and consuming an element do to that list. The network,
    block and serial queues instantiate it. *)

From S2P Require Import Prelude.

Section ring.
Context {A : Type} `{!Inhabited A}.
Context (M cap : Z).

(** Number of elements between the two indices. *)
Definition ring_len (head tail : Z) : Z := (tail - head) mod M.

(** The pending elements, oldest first. *)
Definition ring_contents (buf : list A) (head tail : Z) : list A :=
  (fun k => buf !!! Z.to_nat ((head + k) mod cap)) <$> seqZ 0 (ring_len head tail).

(** [xs] placed in consecutive slots from index [tail]. *)
Fixpoint ring_store (buf : list A) (tail : Z) (xs : list A) : list A :=
  match xs with
  | [] => buf
  | x :: xs => ring_store (<[Z.to_nat (tail mod cap) := x]> buf) (tail + 1) xs
  end.

(** A capacity for which the representation is sound: it divides the index
    width, so that the slot of an index survives the wrap-around. *)
Definition ring_cap_ok : Prop := 0 < cap /\ cap < M /\ (cap | M).

Context (Hcap : ring_cap_ok).

Lemma ring_len_bound head tail : 0 <= ring_len head tail < M.
Proof using Hcap. destruct Hcap as (?&?&?). apply Z.mod_pos_bound. lia. Qed.

Lemma ring_slot_bound i : 0 <= i mod cap < cap.
Proof using Hcap. destruct Hcap as (?&?&?). by apply Z.mod_pos_bound. Qed.

Lemma ring_slot_mod i : (i mod M) mod cap = i mod cap.
Proof using Hcap. destruct Hcap as (?&?&?). apply Z.mod_mod_divide. done. Qed.

Lemma ring_contents_mod_head buf head tail :
  ring_contents buf (head mod M) tail = ring_contents buf head tail.
Proof using Hcap.
  destruct Hcap as (?&?&?). unfold ring_contents, ring_len.
  rewrite Zminus_mod_idemp_r. apply list_fmap_ext. intros i k _.
  rewrite <- (ring_slot_mod (head mod M + k)), Zplus_mod_idemp_l.
  by rewrite ring_slot_mod.
Qed.

Lemma ring_contents_mod_tail buf head tail :
  ring_contents buf head (tail mod M) = ring_contents buf head tail.
Proof. unfold ring_contents, ring_len. by rewrite Zminus_mod_idemp_l. Qed.

Lemma length_ring_contents buf head tail :
  length (ring_contents buf head tail) = Z.to_nat (ring_len head tail).
Proof. unfold ring_contents. by rewrite length_fmap, length_seqZ. Qed.

(** The slot of index [tail] is the one after the last pending element. *)
Lemma ring_tail_slot head tail :
  tail mod cap = (head + ring_len head tail) mod cap.
Proof using Hcap.
  rewrite <- (ring_slot_mod tail), <- (ring_slot_mod (head + _)). f_equal.
  unfold ring_len. rewrite Zplus_mod_idemp_r. f_equal. lia.
Qed.

Lemma ring_slot_ne i j : 0 < j - i < cap -> i mod cap <> j mod cap.
Proof using Hcap.
  destruct Hcap as (Hc&_&_). intros Hij Heq.
  assert ((j - i) mod cap = 0) as Hz.
  { rewrite Zminus_mod, Heq, Z.sub_diag. by rewrite Zmod_0_l. }
  rewrite Z.mod_small in Hz; lia.
Qed.

Lemma ring_len_grow head tail n :
  0 <= n -> ring_len head tail + n < M ->
  ring_len head (tail + n) = ring_len head tail + n.
Proof using Hcap.
  intros Hn Hlt. unfold ring_len in *. replace (tail + n - head) with ((tail - head) + n) by lia.
  rewrite <- Zplus_mod_idemp_l. apply Z.mod_small.
  pose proof (ring_len_bound head tail) as Hb. unfold ring_len in Hb. lia.
Qed.

Lemma ring_len_shrink head tail n :
  0 <= n <= ring_len head tail -> ring_len (head + n) tail = ring_len head tail - n.
Proof using Hcap.
  intros Hn. unfold ring_len in *. replace (tail - (head + n)) with ((tail - head) - n) by lia.
  rewrite <- Zminus_mod_idemp_l. apply Z.mod_small.
  pose proof (ring_len_bound head tail) as Hb. unfold ring_len in Hb. lia.
Qed.

(** Publishing: store in the slot of [tail], then advance [tail]. *)
Lemma ring_contents_snoc buf head tail x :
  cap <= Z.of_nat (length buf) -> ring_len head tail < cap ->
  ring_contents (<[Z.to_nat (tail mod cap) := x]> buf) head (tail + 1) =
  ring_contents buf head tail ++ [x].
Proof using Hcap.
  intros Hlen Hfree. pose proof (ring_len_bound head tail) as Hb.
  pose proof (ring_slot_bound tail). destruct Hcap as (?&?&?).
  unfold ring_contents. rewrite ring_len_grow, seqZ_app, fmap_app by lia.
  rewrite (ring_tail_slot head tail). f_equal.
  - apply list_fmap_ext. intros i k [-> Hk]%lookup_seqZ.
    rewrite list_lookup_total_insert_ne; [done|].
    pose proof (ring_slot_bound (head + (0 + Z.of_nat i))).
    pose proof (ring_slot_bound (head + ring_len head tail)).
    intros Heq%Z2Nat.inj; [|lia..]. symmetry in Heq.
    revert Heq. apply ring_slot_ne. lia.
  - rewrite seqZ_cons, seqZ_nil by lia. simpl. f_equal.
    rewrite list_lookup_total_insert_eq; [done|].
    pose proof (ring_slot_bound (head + ring_len head tail)). lia.
Qed.

(** Consuming: the element in the slot of [head] is the oldest one. *)
Lemma ring_contents_cons buf head tail :
  0 < ring_len head tail ->
  ring_contents buf head tail =
  buf !!! Z.to_nat (head mod cap) :: ring_contents buf (head + 1) tail.
Proof using Hcap.
  intros Hlen. unfold ring_contents. rewrite ring_len_shrink by lia.
  rewrite seqZ_cons by lia. simpl. rewrite Z.add_0_r. f_equal.
  replace (Z.pred (ring_len head tail)) with (ring_len head tail - 1) by lia.
  rewrite <- (fmap_add_seqZ 1 0), <- list_fmap_compose.
  apply list_fmap_ext. intros i k _. simpl. do 3 f_equal. lia.
Qed.

Lemma ring_contents_nil buf head tail :
  ring_len head tail = 0 -> ring_contents buf head tail = [].
Proof. intros Hz. unfold ring_contents. by rewrite Hz. Qed.

Lemma length_ring_store xs : forall buf tail,
  length (ring_store buf tail xs) = length buf.
Proof. induction xs as [|x xs IH]; intros; simpl; [done|]. by rewrite IH, length_insert. Qed.

Lemma ring_store_snoc xs : forall buf tail x,
  ring_store buf tail (xs ++ [x]) =
  <[Z.to_nat ((tail + Z.of_nat (length xs)) mod cap) := x]> (ring_store buf tail xs).
Proof.
  induction xs as [|y xs IH]; intros; simpl; [by rewrite Z.add_0_r|].
  rewrite IH. f_equal. do 2 f_equal. lia.
Qed.

(** Publishing a whole message. *)
Lemma ring_contents_store xs : forall buf head tail,
  cap <= Z.of_nat (length buf) ->
  ring_len head tail + Z.of_nat (length xs) <= cap ->
  ring_contents (ring_store buf tail xs) head (tail + Z.of_nat (length xs)) =
  ring_contents buf head tail ++ xs.
Proof using Hcap.
  induction xs as [|x xs IH]; intros buf head tail Hlen Hfree; simpl.
  - by rewrite Z.add_0_r, app_nil_r.
  - simpl in Hfree. destruct Hcap as (?&?&?).
    replace (tail + Z.of_nat (S (length xs))) with (tail + 1 + Z.of_nat (length xs)) by lia.
    rewrite IH.
    + rewrite ring_contents_snoc by lia. by rewrite <- app_assoc.
    + by rewrite length_insert.
    + rewrite ring_len_grow by lia. lia.
Qed.

(** Consuming several elements at once. *)
Lemma ring_contents_drop n : forall buf head tail,
  Z.of_nat n <= ring_len head tail ->
  ring_contents buf (head + Z.of_nat n) tail = drop n (ring_contents buf head tail).
Proof using Hcap.
  induction n as [|n IH]; intros buf head tail Hn.
  - by rewrite Z.add_0_r, drop_0.
  - rewrite (ring_contents_cons buf head tail) by lia. simpl.
    rewrite <- IH; [f_equal; lia|]. rewrite ring_len_shrink by lia. lia.
Qed.

(** Reading [n] slots from [head] gives the [n] oldest elements. *)
Lemma ring_contents_take n buf head tail :
  Z.of_nat n <= ring_len head tail ->
  take n (ring_contents buf head tail) =
  (fun k => buf !!! Z.to_nat ((head + k) mod cap)) <$> seqZ 0 (Z.of_nat n).
Proof using Hcap.
  intros Hn. unfold ring_contents.
  replace (ring_len head tail) with (Z.of_nat n + (ring_len head tail - Z.of_nat n)) by lia.
  rewrite seqZ_app, fmap_app by lia. apply take_app_length'.
  rewrite length_fmap, length_seqZ. lia.
Qed.

(** A store outside the pending slots does not change what is pending. *)
Lemma ring_contents_Forall (P : A -> Prop) buf head tail :
  cap <= Z.of_nat (length buf) -> Forall P buf -> Forall P (ring_contents buf head tail).
Proof using Hcap.
  intros Hlen HP. unfold ring_contents. apply Forall_fmap, Forall_forall.
  intros k _. simpl. pose proof (ring_slot_bound (head + k)).
  eapply Forall_lookup_1; [exact HP|]. apply list_lookup_lookup_total_lt. lia.
Qed.
End ring.

Create HintDb ringdb.
#[export] Hint Resolve ring_len_bound ring_slot_bound : ringdb.
