(* ===== verification/BitSet.v ===== *)
(** * Bits of words and of arrays of words

    The C idioms [w & (1u << i)], [w |= 1u << i] and [w &= ~(1u << i)] on
    32-bit words, and sets of small numbers kept as arrays of such words (the
    held keys of the input service, the interrupt registers of the local
    APIC), where element [v] is bit [v % 32] of word [v / 32]. *)

From S2P Require Import Prelude.
From stdpp Require Import options.

#[local] Open Scope Z_scope.

(** ** One word *)

(** [1u << i] *)
Definition bit (i : Z) : Z := u32 (Z.shiftl 1 i).
(** [w & (1u << i)], as a condition. *)
Definition has_bit (w i : Z) : bool := negb (Z.land w (bit i) =? 0).
(** [w | (1u << i)] and [w & ~(1u << i)] *)
Definition or_bit (w i : Z) : Z := Z.lor w (bit i).
Definition clear_bit (w i : Z) : Z := Z.land w (u32 (Z.lnot (bit i))).

(** [x & m], as a condition. *)
Definition flag (x m : Z) : bool := negb (Z.land x m =? 0).

Lemma flag_pow2 x i : 0 <= i -> flag x (2 ^ i) = Z.testbit x i.
Proof.
  intros Hi. unfold flag. destruct (Z.testbit x i) eqn:Ht.
  - apply negb_true_iff, Z.eqb_neq. intros H0. apply (f_equal (fun x => Z.testbit x i)) in H0.
    rewrite Z.land_spec, Ht, Z.pow2_bits_true, Z.bits_0 in H0 by lia. done.
  - apply negb_false_iff, Z.eqb_eq, Z.bits_inj'. intros j Hj. rewrite Z.land_spec, Z.bits_0.
    destruct (Z.eq_dec i j) as [<-|]; [by rewrite Ht|]. by rewrite Z.pow2_bits_false, andb_false_r.
Qed.

Lemma bit_pow i : 0 <= i < 32 -> bit i = 2 ^ i.
Proof.
  intros Hi. unfold bit. rewrite Z.shiftl_1_l. apply u32_small. unfold is_u32. split.
  - apply Z.pow_nonneg. lia.
  - apply Z.pow_lt_mono_r; lia.
Qed.

Lemma testbit_u32 x i : Z.testbit (u32 x) i = (i <? 32) && Z.testbit x i.
Proof.
  unfold u32. destruct (Z.ltb_spec i 32).
  - destruct (Z.leb_spec 0 i); [by rewrite Z.mod_pow2_bits_low|by rewrite !Z.testbit_neg_r by lia].
  - by rewrite Z.mod_pow2_bits_high by lia.
Qed.

(** A word in range is one that has no bit from 32 on. *)
Lemma u32_testbit w : is_u32 w <-> 0 <= w /\ forall i, 32 <= i -> Z.testbit w i = false.
Proof.
  split.
  - intros Hw. split; [apply Hw|]. intros i Hi. rewrite <- (u32_small w Hw), testbit_u32.
    by destruct (Z.ltb_spec i 32); [lia|].
  - intros [Hw Hb]. replace w with (u32 w); [apply u32_range|]. apply Z.bits_inj'. intros i Hi.
    rewrite testbit_u32. destruct (Z.ltb_spec i 32); [done|by rewrite Hb].
Qed.

Lemma testbit_u64 x i : Z.testbit (u64 x) i = (i <? 64) && Z.testbit x i.
Proof.
  unfold u64. destruct (Z.ltb_spec i 64).
  - destruct (Z.leb_spec 0 i); [by rewrite Z.mod_pow2_bits_low|by rewrite !Z.testbit_neg_r by lia].
  - by rewrite Z.mod_pow2_bits_high by lia.
Qed.

Lemma u64_testbit w : is_u64 w <-> 0 <= w /\ forall i, 64 <= i -> Z.testbit w i = false.
Proof.
  split.
  - intros Hw. split; [apply Hw|]. intros i Hi. rewrite <- (u64_small w Hw), testbit_u64.
    by destruct (Z.ltb_spec i 64); [lia|].
  - intros [Hw Hb]. replace w with (u64 w); [apply u64_range|]. apply Z.bits_inj'. intros i Hi.
    rewrite testbit_u64. destruct (Z.ltb_spec i 64); [done|by rewrite Hb].
Qed.

Lemma has_bit_testbit w i : 0 <= i < 32 -> has_bit w i = Z.testbit w i.
Proof.
  intros Hi. unfold has_bit. rewrite bit_pow by done. apply flag_pow2. lia.
Qed.

Lemma is_u32_lor a b : is_u32 a -> is_u32 b -> is_u32 (Z.lor a b).
Proof.
  rewrite !u32_testbit. intros [? Ha] [? Hb]. split; [by apply Z.lor_nonneg|].
  intros i Hi. by rewrite Z.lor_spec, Ha, Hb.
Qed.

Lemma is_u32_land a b : is_u32 a -> 0 <= b -> is_u32 (Z.land a b).
Proof.
  rewrite !u32_testbit. intros [? Ha] ?. split; [apply Z.land_nonneg; by left|].
  intros i Hi. by rewrite Z.land_spec, Ha.
Qed.

Lemma ldiff_land_split a b : Z.ldiff b a + Z.land a b = b.
Proof.
  rewrite Z.add_nocarry_lxor; apply Z.bits_inj_iff; intros i; rewrite ?Z.lxor_spec, ?Z.land_spec, ?Z.ldiff_spec, ?Z.land_spec, ?Z.bits_0;
    by destruct (Z.testbit a i), (Z.testbit b i).
Qed.

Lemma land_le_r a b : 0 <= b -> 0 <= Z.land a b <= b.
Proof.
  intros Hb. pose proof (ldiff_land_split a b). assert (0 <= Z.ldiff b a) by (apply Z.ldiff_nonneg; auto).
  assert (0 <= Z.land a b) by (apply Z.land_nonneg; auto). lia.
Qed.

Lemma ldiff_le a b : 0 <= b -> 0 <= Z.ldiff b a <= b.
Proof.
  intros Hb. pose proof (ldiff_land_split a b). pose proof (land_le_r a b Hb). lia.
Qed.

Lemma or_bit_u32 w i : is_u32 w -> is_u32 (or_bit w i).
Proof. intros. apply is_u32_lor; [done|apply u32_range]. Qed.

Lemma clear_bit_u32 w i : is_u32 w -> is_u32 (clear_bit w i).
Proof. intros. apply is_u32_land; [done|apply u32_range]. Qed.

Lemma has_or_bit w i j : 0 <= i < 32 -> 0 <= j < 32 -> has_bit (or_bit w i) j = (i =? j) || has_bit w j.
Proof.
  intros Hi Hj. rewrite !has_bit_testbit by done. unfold or_bit. rewrite bit_pow, Z.lor_spec, orb_comm by done.
  f_equal. apply Z.pow2_bits_eqb. lia.
Qed.

Lemma has_clear_bit w i j :
  0 <= i < 32 -> 0 <= j < 32 -> has_bit (clear_bit w i) j = negb (i =? j) && has_bit w j.
Proof.
  intros Hi Hj. rewrite !has_bit_testbit by done. unfold clear_bit.
  rewrite bit_pow, Z.land_spec, testbit_u32, Z.lnot_spec, Z.pow2_bits_eqb by lia.
  destruct (Z.ltb_spec j 32); [|lia]. apply andb_comm.
Qed.

Lemma has_bit_0 i : has_bit 0 i = false.
Proof. done. Qed.

(** ** Arrays of words *)

(** [words[v / 32] & (1u << (v % 32))], and the two updates. *)
Definition wget (l : list Z) (v : Z) : option bool :=
  w ← aget l (v / 32); Some (has_bit w (v mod 32)).
Definition wset (l : list Z) (v : Z) : option (list Z) :=
  w ← aget l (v / 32); aset l (v / 32) (or_bit w (v mod 32)).
Definition wclear (l : list Z) (v : Z) : option (list Z) :=
  w ← aget l (v / 32); aset l (v / 32) (clear_bit w (v mod 32)).

(** Membership; numbers outside the array are not members. *)
Definition wmem (l : list Z) (v : Z) : bool :=
  match wget l v with Some b => b | None => false end.

Definition words_ok (n : nat) (l : list Z) : Prop := length l = n /\ Forall is_u32 l.

Definition wempty (n : nat) : list Z := replicate n 0.

Lemma wempty_ok n : words_ok n (wempty n).
Proof. split; [apply length_replicate|]. by apply Forall_replicate. Qed.

Lemma wmem_empty n v : wmem (wempty n) v = false.
Proof.
  unfold wmem, wget, aget. destruct (Z.leb_spec 0 (v / 32)); [|done]. cbn.
  destruct (wempty n !! _) as [w|] eqn:Hw; [|done]. apply lookup_replicate in Hw as [-> _]. done.
Qed.

Section words.
Context (n : nat) (l : list Z) (Hl : words_ok n l).

Lemma word_index v : 0 <= v < 32 * Z.of_nat n -> 0 <= v / 32 < Z.of_nat (length l).
Proof using Hl. destruct Hl as [-> _]. intros. Z.div_mod_to_equations. lia. Qed.

Lemma wget_mem v : 0 <= v < 32 * Z.of_nat n -> wget l v = Some (wmem l v).
Proof using Hl.
  intros Hv. unfold wmem, wget. destruct (aget_lt l (v / 32)) as [w ->]; [by apply word_index|]. done.
Qed.

(** Updating word [v / 32] by [f]. *)
Lemma wupdate (f : Z -> Z -> Z) v :
  0 <= v < 32 * Z.of_nat n -> (forall w, is_u32 w -> is_u32 (f w (v mod 32))) ->
  exists l', (w ← aget l (v / 32); aset l (v / 32) (f w (v mod 32))) = Some l' /\ words_ok n l' /\
    forall u, 0 <= u < 32 * Z.of_nat n ->
      exists w, is_u32 w /\ wmem l u = has_bit w (u mod 32) /\
        wmem l' u = has_bit (if u / 32 =? v / 32 then f w (v mod 32) else w) (u mod 32).
Proof using Hl.
  intros Hv Hf. pose proof (word_index v Hv) as Hi. destruct (aget_lt l (v / 32) Hi) as [w Hw].
  rewrite Hw. cbn [mbind option_bind]. rewrite aset_Some by done. eexists. split; [done|].
  destruct (proj1 (aget_Some _ _ _) Hw) as [_ Hw']. pose proof (Forall_lookup_1 _ _ _ _ (proj2 Hl) Hw') as Hwu.
  split; [split; [rewrite length_insert; apply Hl|apply Forall_insert; [apply Hl|by apply Hf]]|].
  intros u Hu. pose proof (word_index u Hu) as Hj. destruct (aget_lt l (u / 32) Hj) as [x Hx].
  destruct (proj1 (aget_Some _ _ _) Hx) as [_ Hx'].
  exists x. split; [by eapply Forall_lookup_1; [apply Hl|]|].
  unfold wmem, wget. rewrite Hx. split; [done|]. unfold aget. rewrite (proj2 (Z.leb_le 0 (u / 32))) by lia.
  destruct (Z.eqb_spec (u / 32) (v / 32)) as [Heq|Hne].
  - rewrite Heq in *. rewrite list_lookup_insert_eq by lia. cbn. by simplify_eq.
  - rewrite list_lookup_insert_ne by lia. by rewrite Hx'.
Qed.

Lemma wset_spec v :
  0 <= v < 32 * Z.of_nat n ->
  exists l', wset l v = Some l' /\ words_ok n l' /\
    forall u, 0 <= u < 32 * Z.of_nat n -> wmem l' u = (v =? u) || wmem l u.
Proof using Hl.
  intros Hv. destruct (wupdate or_bit v Hv) as (l' & Hs & Hok & Hu); [intros; by apply or_bit_u32|].
  exists l'. split; [done|]. split; [done|]. intros u Hru. destruct (Hu u Hru) as (w & _ & -> & ->).
  pose proof (Z.mod_pos_bound u 32). pose proof (Z.mod_pos_bound v 32).
  pose proof (Z.div_mod u 32). pose proof (Z.div_mod v 32).
  destruct (Z.eqb_spec (u / 32) (v / 32)) as [Hq|Hq].
  - rewrite has_or_bit by lia. f_equal. destruct (Z.eqb_spec (v mod 32) (u mod 32)), (Z.eqb_spec v u); lia || done.
  - destruct (Z.eqb_spec v u); [congruence|done].
Qed.

Lemma wclear_spec v :
  0 <= v < 32 * Z.of_nat n ->
  exists l', wclear l v = Some l' /\ words_ok n l' /\
    forall u, 0 <= u < 32 * Z.of_nat n -> wmem l' u = negb (v =? u) && wmem l u.
Proof using Hl.
  intros Hv. destruct (wupdate clear_bit v Hv) as (l' & Hs & Hok & Hu); [intros; by apply clear_bit_u32|].
  exists l'. split; [done|]. split; [done|]. intros u Hru. destruct (Hu u Hru) as (w & _ & -> & ->).
  pose proof (Z.mod_pos_bound u 32). pose proof (Z.mod_pos_bound v 32).
  pose proof (Z.div_mod u 32). pose proof (Z.div_mod v 32).
  destruct (Z.eqb_spec (u / 32) (v / 32)) as [Hq|Hq].
  - rewrite has_clear_bit by lia. do 2 f_equal.
    destruct (Z.eqb_spec (v mod 32) (u mod 32)), (Z.eqb_spec v u); lia || done.
  - destruct (Z.eqb_spec v u); [congruence|done].
Qed.

Lemma wmem_range v : wmem l v = true -> 0 <= v < 32 * Z.of_nat n.
Proof using Hl.
  unfold wmem, wget. destruct (aget l (v / 32)) as [w|] eqn:Hw; [|done].
  apply aget_bound in Hw. destruct Hl as [Hn _]. rewrite Hn in Hw. intros _. Z.div_mod_to_equations. lia.
Qed.
End words.

Create HintDb bitdb.
#[export] Hint Resolve or_bit_u32 clear_bit_u32 wempty_ok : bitdb.
