(* ===== verification/Bytes.v ===== *)
(** * Byte regions

    Payload memory is a set of byte arrays, each known by the address of its
    first byte; a C pointer into one is the array's address and an offset.
    [ByteStore] is the interface between this file and a component: the
    component's memory contains such a set. [aos_copy] is the pumps' byte
    loop over it. The last section relates words and their little-endian
    bytes. *)

From S2P Require Import Prelude.

Class ByteStore (S : Type) := {
  bytes_of : S -> gmap Z (list Z);
  set_bytes : gmap Z (list Z) -> S -> S;
  bytes_of_set b s : bytes_of (set_bytes b s) = b;
  set_bytes_set b b' s : set_bytes b (set_bytes b' s) = set_bytes b s;
  set_bytes_of s : set_bytes (bytes_of s) s = s;
}.

Section copy.
Context {St : Type} `{!ByteStore St}.

(** [base\[off\]]. *)
Definition load_byte (base off : Z) : prog St Z :=
  s ← get_state;
  arr ← lift (bytes_of s !! base);
  lift (aget arr off).

(** [base\[off\] = b]. *)
Definition store_byte (base off b : Z) : prog St unit :=
  s ← get_state;
  arr ← lift (bytes_of s !! base);
  arr' ← lift (aset arr off b);
  put_state (set_bytes (<[base := arr']> (bytes_of s)) s).

(** [while (n-- > 0u) *d++ = *s++;] *)
Definition aos_copy (dbase doff sbase soff n : Z) : prog St unit :=
  for_loop (Z.to_nat n) 0 tt (fun i _ =>
    b ← load_byte sbase (soff + i);
    store_byte dbase (doff + i) b;;
    mret (Continue, tt)).

Lemma load_byte_run s base off arr b :
  bytes_of s !! base = Some arr -> aget arr off = Some b ->
  load_byte base off s = Some (b, s).
Proof.
  intros Ha Hb. unfold load_byte, mbind, prog_bind, get_state, lift.
  by rewrite Ha, Hb.
Qed.

Lemma store_byte_run s base off arr b :
  bytes_of s !! base = Some arr -> 0 <= off < Z.of_nat (length arr) ->
  store_byte base off b s =
  Some (tt, set_bytes (<[base := <[Z.to_nat off := b]> arr]> (bytes_of s)) s).
Proof.
  intros Ha Hb. unfold store_byte, mbind, prog_bind, get_state, put_state, lift.
  by rewrite Ha, aset_Some.
Qed.

Lemma aslice_cons {A} (l : list A) i n x :
  0 <= i -> 0 <= n -> aget l i = Some x ->
  aslice l i (n + 1) = x :: aslice l (i + 1) n.
Proof.
  intros Hi Hn [_ Hx]%aget_Some. unfold aslice.
  rewrite !Z2Nat.inj_add, !Nat.add_1_r by lia.
  by rewrite (drop_S _ _ _ Hx).
Qed.

(** [m] iterations of the loop of [aos_copy] from iteration [i]. *)
Lemma aos_copy_loop dbase doff sbase soff n src : dbase <> sbase ->
  0 <= soff -> 0 <= doff -> soff + n <= Z.of_nat (length src) ->
  forall m i dst s, Z.of_nat m = n - i -> 0 <= i ->
  bytes_of s !! sbase = Some src -> bytes_of s !! dbase = Some dst ->
  doff + n <= Z.of_nat (length dst) ->
  for_loop m i tt (fun i _ => b ← load_byte sbase (soff + i);
    store_byte dbase (doff + i) b;; mret (Continue, tt)) s =
  Some (tt, set_bytes (<[dbase := list_inserts (Z.to_nat (doff + i))
    (aslice src (soff + i) (n - i)) dst]> (bytes_of s)) s).
Proof.
  intros Hne Hso Hdo Hsl.
  induction m as [|m IH]; intros i dst s Hm Hi Hs Hd Hdl; simpl.
  - replace (n - i) with 0 by lia. unfold aslice. simpl.
    rewrite insert_id by done. by rewrite set_bytes_of.
  - destruct (aget_lt src (soff + i)) as [b Hb]; [lia|].
    unfold mbind, prog_bind. rewrite (load_byte_run _ _ _ src b) by done.
    rewrite (store_byte_run _ _ _ dst) by (done || lia). simpl.
    rewrite (IH _ (<[Z.to_nat (doff + i) := b]> dst)); [|lia..| | |by rewrite length_insert].
    + rewrite bytes_of_set, set_bytes_set, insert_insert_eq.
      replace (n - i) with (n - (i + 1) + 1) by lia.
      rewrite (aslice_cons _ _ _ b) by (done || lia). simpl.
      rewrite list_insert_inserts_lt by lia.
      replace (Z.to_nat (doff + (i + 1))) with (S (Z.to_nat (doff + i))) by lia.
      by rewrite Z.add_assoc.
    + by rewrite bytes_of_set, lookup_insert_ne.
    + by rewrite bytes_of_set, lookup_insert_eq.
Qed.

(** A copy between different arrays moves exactly the source slice. *)
Lemma aos_copy_run s dbase doff sbase soff n src dst :
  dbase <> sbase ->
  bytes_of s !! sbase = Some src -> bytes_of s !! dbase = Some dst ->
  0 <= soff -> 0 <= doff -> 0 <= n ->
  soff + n <= Z.of_nat (length src) -> doff + n <= Z.of_nat (length dst) ->
  aos_copy dbase doff sbase soff n s =
  Some (tt, set_bytes (<[dbase := list_inserts (Z.to_nat doff) (aslice src soff n) dst]>
                         (bytes_of s)) s).
Proof.
  intros. unfold aos_copy. rewrite (aos_copy_loop _ _ _ _ n src) with (dst := dst);
    rewrite ?Z.add_0_r, ?Z.sub_0_r; done || lia.
Qed.
End copy.

(** Reading back what [list_inserts] wrote, and what it did not touch. *)
Lemma lookup_aslice {A} (l : list A) i n j :
  0 <= i -> aslice l i n !! j = if Z.of_nat j <? n then l !! (Z.to_nat i + j)%nat else None.
Proof.
  intros Hi. unfold aslice. case_cmp.
  - rewrite lookup_take_lt by lia. by rewrite lookup_drop.
  - by rewrite lookup_take_ge by lia.
Qed.

Lemma aslice_inserts {A} (l k : list A) i n :
  0 <= i -> Z.of_nat (length l) = n -> i + n <= Z.of_nat (length k) ->
  aslice (list_inserts (Z.to_nat i) l k) i n = l.
Proof.
  intros Hi Hl Hk. apply list_eq. intros j. rewrite lookup_aslice by done. case_cmp.
  - rewrite list_lookup_inserts by lia. by f_equal; lia.
  - symmetry. apply lookup_ge_None. lia.
Qed.

Lemma aslice_inserts_ne {A} (l k : list A) i j n :
  0 <= i -> 0 <= j -> j + n <= i \/ i + Z.of_nat (length l) <= j ->
  aslice (list_inserts (Z.to_nat i) l k) j n = aslice k j n.
Proof.
  intros Hi Hj Hd. apply list_eq. intros x. rewrite !lookup_aslice by done. case_cmp; [|done].
  destruct Hd; [rewrite list_lookup_inserts_lt by lia|rewrite list_lookup_inserts_ge by lia]; done.
Qed.

(** ** Little-endian words *)

(** The little-endian value of some bytes, and the bytes of a value. *)
Fixpoint le_val (bs : list Z) : Z :=
  match bs with [] => 0 | b :: bs => b + 256 * le_val bs end.

Fixpoint le_bytes (n : nat) (v : Z) : list Z :=
  match n with O => [] | S n => v mod 256 :: le_bytes n (v / 256) end.

Lemma length_le_bytes n v : length (le_bytes n v) = n.
Proof. revert v. induction n as [|n IH]; intros v; simpl; [done|by rewrite IH]. Qed.

Lemma le_bytes_u8 n v : Forall is_u8 (le_bytes n v).
Proof. revert v. induction n as [|n IH]; intros v; simpl; constructor; [apply u8_range|apply IH]. Qed.

Lemma le_val_bytes n v : le_val (le_bytes n v) = v mod 256 ^ Z.of_nat n.
Proof.
  revert v. induction n as [|n IH]; intros v; [by rewrite Z.mod_1_r|]. cbn [le_bytes le_val]. rewrite IH.
  rewrite Nat2Z.inj_succ, Z.pow_succ_r by lia.
  rewrite Z.rem_mul_r by (try apply Z.pow_pos_nonneg; lia). done.
Qed.

Lemma le_val_bound bs : Forall is_u8 bs -> 0 <= le_val bs < 256 ^ Z.of_nat (length bs).
Proof.
  induction 1 as [|b bs Hb _ IH]; [done|]. cbn [le_val length].
  rewrite Nat2Z.inj_succ, Z.pow_succ_r by lia. unfold is_u8 in Hb. lia.
Qed.

Lemma le_bytes_val bs : Forall is_u8 bs -> le_bytes (length bs) (le_val bs) = bs.
Proof.
  induction 1 as [|b bs Hb _ IH]; [done|]. cbn [le_val length le_bytes]. unfold is_u8 in Hb.
  rewrite (Z.mul_comm 256), Z.mod_add, Z.div_add, Z.mod_small, Z.div_small by lia. by rewrite Z.add_0_l, IH.
Qed.
