(* ===== verification/NetQueue.v ===== *)
(** * Network queues

    The sDDF-compatible network queue of [platform/include/platform/net_layout.h]
    and the raw ring operations of [platform/net-virt/net_virt_pump.c], with
    the header-only client helpers of [net_virt_pump.h]. The queues live in a
    memory shared with mutually distrusting clients, so their contents are
    arbitrary; only the capacity and the pointers of a client record are
    private to the virtualizer. *)

From S2P Require Import Prelude Ring Bytes.

(** ** Layout (net_layout.h) *)

Definition AOS_NET_BUFFER_SIZE : Z := 2048.
Definition AOS_NET_CAPACITY : Z := 32.
Definition AOS_NET_MAX_CLIENTS : Z := 4.
Definition AOS_NET_CLIENT_STRIDE : Z := 0x200000.
Definition AOS_NET_RX_FREE_OFF : Z := 0x0000.
Definition AOS_NET_RX_ACTIVE_OFF : Z := 0x1000.
Definition AOS_NET_TX_FREE_OFF : Z := 0x2000.
Definition AOS_NET_TX_ACTIVE_OFF : Z := 0x3000.
Definition AOS_NET_RX_DATA_OFF : Z := 0x4000.
Definition AOS_NET_RX_DATA_BYTES : Z := AOS_NET_CAPACITY * AOS_NET_BUFFER_SIZE.
Definition AOS_NET_TX_DATA_OFF : Z := AOS_NET_RX_DATA_OFF + AOS_NET_RX_DATA_BYTES.
Definition AOS_NET_TX_DATA_BYTES : Z := AOS_NET_CAPACITY * AOS_NET_BUFFER_SIZE.

(** [aos_net_buff_desc_t]; the two padding words travel with the struct. *)
Record aos_net_buff_desc := {
  nbd_io_or_offset : Z;
  nbd_len : Z;
  nbd_pad0 : Z;
  nbd_pad1 : Z;
}.

Definition net_desc_zero : aos_net_buff_desc :=
  {| nbd_io_or_offset := 0; nbd_len := 0; nbd_pad0 := 0; nbd_pad1 := 0 |}.

Definition net_desc_with_len (d : aos_net_buff_desc) (n : Z) : aos_net_buff_desc :=
  {| nbd_io_or_offset := nbd_io_or_offset d; nbd_len := n;
     nbd_pad0 := nbd_pad0 d; nbd_pad1 := nbd_pad1 d |}.

#[global] Instance net_desc_inhabited : Inhabited aos_net_buff_desc := populate net_desc_zero.
#[global] Instance net_desc_eq_dec : EqDecision aos_net_buff_desc.
Proof. solve_decision. Defined.

(** [aos_net_queue_t]. *)
Record aos_net_queue := {
  nq_tail : Z;
  nq_head : Z;
  nq_consumer_signalled : Z;
  nq_buffers : list aos_net_buff_desc;
}.

(** [aos_net_virt_client_t]: addresses of the client's queues and data. *)
Record aos_net_virt_client := {
  nvc_rx_free : Z;
  nvc_rx_active : Z;
  nvc_tx_free : Z;
  nvc_tx_active : Z;
  nvc_rx_data : Z;
  nvc_tx_data : Z;
  nvc_capacity : Z;
}.

Definition net_client_zero : aos_net_virt_client :=
  {| nvc_rx_free := NULL; nvc_rx_active := NULL; nvc_tx_free := NULL; nvc_tx_active := NULL;
     nvc_rx_data := NULL; nvc_tx_data := NULL; nvc_capacity := 0 |}.

#[global] Instance net_client_eq_dec : EqDecision aos_net_virt_client.
Proof. solve_decision. Defined.

(** The memory the virtualizer maps: queue pages and payload regions. *)
Record net_mem := {
  nm_queues : gmap Z aos_net_queue;
  nm_bytes : gmap Z (list Z);
}.

#[global, program] Instance net_mem_bytes : ByteStore net_mem := {|
  bytes_of := nm_bytes;
  set_bytes b m := {| nm_queues := nm_queues m; nm_bytes := b |};
|}.
Solve Obligations with by intros; repeat match goal with m : net_mem |- _ => destruct m end.

Definition set_queue (p : Z) (q : aos_net_queue) (m : net_mem) : net_mem :=
  {| nm_queues := <[p := q]> (nm_queues m); nm_bytes := nm_bytes m |}.

Definition load_queue (p : Z) : prog net_mem aos_net_queue :=
  m ← get_state; lift (nm_queues m !! p).

Definition store_queue (p : Z) (q : aos_net_queue) : prog net_mem unit :=
  m ← get_state; put_state (set_queue p q m).

(** ** Queue operations (net_virt_pump.c, net_virt_pump.h) *)

Definition aos_net_queue_length (q : aos_net_queue) : Z := u16 (nq_tail q - nq_head q).

Definition aos_net_buffer_valid (offset length : Z) : bool :=
  (offset <? AOS_NET_RX_DATA_BYTES) &&
  (offset mod AOS_NET_BUFFER_SIZE =? 0) &&
  (length <=? AOS_NET_BUFFER_SIZE).

(** [None] is the source's [-1], [Some d] is [0] with [*out = d]. *)
Definition aos_net_queue_dequeue (p capacity : Z) : prog net_mem (option aos_net_buff_desc) :=
  if (p =? NULL) || (capacity =? 0) || (AOS_NET_CAPACITY <? capacity) then mret None
  else
    q ← load_queue p;
    let tail := nq_tail q in
    let head := nq_head q in
    let length := u16 (tail - head) in
    if (length =? 0) || (capacity <? length) then mret None
    else
      out ← lift (aget (nq_buffers q) (head mod capacity));
      store_queue p {| nq_tail := tail; nq_head := u16 (head + 1);
                       nq_consumer_signalled := nq_consumer_signalled q;
                       nq_buffers := nq_buffers q |};;
      mret (Some out).

Definition aos_net_queue_enqueue (p capacity : Z) (buf : aos_net_buff_desc) : prog net_mem Z :=
  if (p =? NULL) || (capacity =? 0) || (AOS_NET_CAPACITY <? capacity) then mret (-1)
  else
    q ← load_queue p;
    let tail := nq_tail q in
    let head := nq_head q in
    if capacity <=? u16 (tail - head) then mret (-1)
    else
      buffers ← lift (aset (nq_buffers q) (tail mod capacity) buf);
      store_queue p {| nq_tail := u16 (tail + 1); nq_head := head;
                       nq_consumer_signalled := nq_consumer_signalled q;
                       nq_buffers := buffers |};;
      mret 0.

(** Binds client [client_index]'s stride of [region]. *)
Definition aos_net_client_bind (region client_index : Z) (out : aos_net_virt_client)
    : aos_net_virt_client :=
  if (region =? NULL) || (AOS_NET_MAX_CLIENTS <=? client_index) then out
  else
    let base := region + client_index * AOS_NET_CLIENT_STRIDE in
    {| nvc_rx_free := base + AOS_NET_RX_FREE_OFF;
       nvc_rx_active := base + AOS_NET_RX_ACTIVE_OFF;
       nvc_tx_free := base + AOS_NET_TX_FREE_OFF;
       nvc_tx_active := base + AOS_NET_TX_ACTIVE_OFF;
       nvc_rx_data := base + AOS_NET_RX_DATA_OFF;
       nvc_tx_data := base + AOS_NET_TX_DATA_OFF;
       nvc_capacity := AOS_NET_CAPACITY |}.

(** All bytes of the queue page at [p] set to zero. *)
Definition zero_queue (p : Z) : prog net_mem unit :=
  q ← load_queue p;
  store_queue p {| nq_tail := 0; nq_head := 0; nq_consumer_signalled := 0;
                   nq_buffers := replicate (length (nq_buffers q)) net_desc_zero |}.

(** [q->buffers\[i\] = d] without publishing it. *)
Definition store_buffer (p i : Z) (d : aos_net_buff_desc) : prog net_mem unit :=
  q ← load_queue p;
  buffers ← lift (aset (nq_buffers q) i d);
  store_queue p {| nq_tail := nq_tail q; nq_head := nq_head q;
                   nq_consumer_signalled := nq_consumer_signalled q; nq_buffers := buffers |}.

Definition store_tail (p t : Z) : prog net_mem unit :=
  q ← load_queue p;
  store_queue p {| nq_tail := t; nq_head := nq_head q;
                   nq_consumer_signalled := nq_consumer_signalled q;
                   nq_buffers := nq_buffers q |}.

Definition aos_net_client_init_buffers (c : aos_net_virt_client) : prog net_mem unit :=
  if (nvc_rx_free c =? NULL) || (nvc_tx_free c =? NULL) then mret tt
  else
    zero_queue (nvc_rx_free c);;
    zero_queue (nvc_rx_active c);;
    zero_queue (nvc_tx_free c);;
    zero_queue (nvc_tx_active c);;
    for_loop (Z.to_nat (nvc_capacity c)) 0 tt (fun i _ =>
      let buf := {| nbd_io_or_offset := u64 (i * AOS_NET_BUFFER_SIZE); nbd_len := 0;
                    nbd_pad0 := 0; nbd_pad1 := 0 |} in
      store_buffer (nvc_rx_free c) i buf;;
      store_buffer (nvc_tx_free c) i buf;;
      mret (Continue, tt));;
    store_tail (nvc_rx_free c) (u16 (nvc_capacity c));;
    store_tail (nvc_tx_free c) (u16 (nvc_capacity c)).

(** ** Specification-level definitions *)

(** A descriptor and a queue whose fields have the widths of their C types;
    the queue page has room for the largest capacity. *)
Definition net_desc_ok (d : aos_net_buff_desc) : Prop :=
  is_u64 (nbd_io_or_offset d) /\ is_u16 (nbd_len d).

Definition net_queue_ok (q : aos_net_queue) : Prop :=
  is_u16 (nq_tail q) /\ is_u16 (nq_head q) /\
  AOS_NET_CAPACITY <= Z.of_nat (length (nq_buffers q)) /\
  Forall net_desc_ok (nq_buffers q).

(** Well-formed shared memory; says nothing about what clients wrote. *)
Definition net_mem_ok (m : net_mem) : Prop :=
  map_Forall (fun _ q => net_queue_ok q) (nm_queues m) /\
  map_Forall (fun _ d => Z.of_nat (length d) = AOS_NET_RX_DATA_BYTES) (nm_bytes m).

#[global] Instance net_desc_ok_dec d : Decision (net_desc_ok d).
Proof. unfold net_desc_ok. apply _. Defined.
#[global] Instance net_queue_ok_dec q : Decision (net_queue_ok q).
Proof. unfold net_queue_ok. apply _. Defined.
#[global] Instance net_mem_ok_dec m : Decision (net_mem_ok m).
Proof. unfold net_mem_ok. apply _. Defined.

(** Pending descriptors of a queue used with [cap] slots, oldest first. *)
Definition net_contents (cap : Z) (q : aos_net_queue) : list aos_net_buff_desc :=
  ring_contents (2 ^ 16) cap (nq_buffers q) (nq_head q) (nq_tail q).

(** A queue whose occupancy is possible for [cap] slots. *)
Definition net_queue_valid (cap : Z) (q : aos_net_queue) : Prop :=
  net_queue_ok q /\ aos_net_queue_length q <= cap.

(** ** Lemmas *)

Create HintDb netdb.

Lemma net_ring_cap cap :
  0 < cap <= AOS_NET_CAPACITY -> (cap | 2 ^ 16) -> ring_cap_ok (2 ^ 16) cap.
Proof. unfold AOS_NET_CAPACITY, ring_cap_ok. intros ??. split_and!; [lia..|done]. Qed.

Lemma set_queue_same p q q' m : set_queue p q (set_queue p q' m) = set_queue p q m.
Proof. unfold set_queue. simpl. by rewrite insert_insert_eq. Qed.

Lemma load_queue_run p q m : nm_queues m !! p = Some q -> load_queue p m = Some (q, m).
Proof. intros Hq. unfold load_queue, mbind, prog_bind, get_state, lift. by rewrite Hq. Qed.

Lemma net_slot_in_page cap i q :
  0 < cap <= AOS_NET_CAPACITY -> net_queue_ok q ->
  0 <= i mod cap < Z.of_nat (length (nq_buffers q)).
Proof. intros Hc (_&_&Hl&_). pose proof (Z.mod_pos_bound i cap). lia. Qed.

(** The exact effect of a dequeue attempt on a mapped queue. *)
Lemma dequeue_run p cap m q :
  p <> NULL -> 0 < cap <= AOS_NET_CAPACITY -> nm_queues m !! p = Some q -> net_queue_ok q ->
  aos_net_queue_dequeue p cap m =
  if (aos_net_queue_length q =? 0) || (cap <? aos_net_queue_length q) then Some (None, m)
  else Some (Some (nq_buffers q !!! Z.to_nat (nq_head q mod cap)),
             set_queue p {| nq_tail := nq_tail q; nq_head := u16 (nq_head q + 1);
                            nq_consumer_signalled := nq_consumer_signalled q;
                            nq_buffers := nq_buffers q |} m).
Proof.
  intros Hp Hc Hq Hok. unfold aos_net_queue_dequeue.
  assert ((p =? NULL) || (cap =? 0) || (AOS_NET_CAPACITY <? cap) = false) as -> by lia.
  unfold mbind, prog_bind. rewrite (load_queue_run p q m Hq).
  fold (aos_net_queue_length q).
  destruct ((aos_net_queue_length q =? 0) || (cap <? aos_net_queue_length q)); [done|].
  rewrite aget_total by (by apply net_slot_in_page). done.
Qed.

(** The exact effect of an enqueue attempt on a mapped queue. *)
Lemma enqueue_run p cap d m q :
  p <> NULL -> 0 < cap <= AOS_NET_CAPACITY -> nm_queues m !! p = Some q -> net_queue_ok q ->
  aos_net_queue_enqueue p cap d m =
  if cap <=? aos_net_queue_length q then Some (-1, m)
  else Some (0, set_queue p {| nq_tail := u16 (nq_tail q + 1); nq_head := nq_head q;
                               nq_consumer_signalled := nq_consumer_signalled q;
                               nq_buffers := <[Z.to_nat (nq_tail q mod cap) := d]> (nq_buffers q) |} m).
Proof.
  intros Hp Hc Hq Hok. unfold aos_net_queue_enqueue.
  assert ((p =? NULL) || (cap =? 0) || (AOS_NET_CAPACITY <? cap) = false) as -> by lia.
  unfold mbind, prog_bind. rewrite (load_queue_run p q m Hq).
  fold (aos_net_queue_length q). destruct (cap <=? aos_net_queue_length q); [done|].
  rewrite aset_Some by (by apply net_slot_in_page). done.
Qed.

Lemma net_queue_ok_deq q :
  net_queue_ok q ->
  net_queue_ok {| nq_tail := nq_tail q; nq_head := u16 (nq_head q + 1);
                  nq_consumer_signalled := nq_consumer_signalled q; nq_buffers := nq_buffers q |}.
Proof.
  intros (?&?&?&?). unfold net_queue_ok; simpl; split_and?; auto with cint.
Qed.

Lemma net_queue_ok_enq q i d :
  net_queue_ok q -> net_desc_ok d ->
  net_queue_ok {| nq_tail := u16 (nq_tail q + 1); nq_head := nq_head q;
                  nq_consumer_signalled := nq_consumer_signalled q;
                  nq_buffers := <[i := d]> (nq_buffers q) |}.
Proof.
  intros (?&?&?&?) Hd. unfold net_queue_ok; simpl; split_and?; auto with cint.
  - by rewrite length_insert.
  - by apply Forall_insert.
Qed.

Lemma net_desc_ok_len d n : net_desc_ok d -> is_u16 n -> net_desc_ok (net_desc_with_len d n).
Proof. by intros [] ?. Qed.

Lemma net_desc_ok_slot q i :
  net_queue_ok q -> 0 <= i < Z.of_nat (length (nq_buffers q)) ->
  net_desc_ok (nq_buffers q !!! Z.to_nat i).
Proof.
  intros (_&_&_&Hf) Hi. eapply Forall_lookup_1; [exact Hf|].
  apply list_lookup_lookup_total_lt. lia.
Qed.

#[export] Hint Resolve net_queue_ok_deq net_queue_ok_enq net_desc_ok_len net_slot_in_page : netdb.

Lemma length_net_contents cap q :
  Z.of_nat (length (net_contents cap q)) = aos_net_queue_length q.
Proof.
  unfold net_contents, aos_net_queue_length. rewrite length_ring_contents.
  unfold ring_len, u16. pose proof (Z.mod_pos_bound (nq_tail q - nq_head q) (2 ^ 16)). lia.
Qed.

Lemma net_contents_deq cap q :
  0 < cap <= AOS_NET_CAPACITY -> (cap | 2 ^ 16) -> 0 < aos_net_queue_length q ->
  net_contents cap q =
  nq_buffers q !!! Z.to_nat (nq_head q mod cap) ::
  net_contents cap {| nq_tail := nq_tail q; nq_head := u16 (nq_head q + 1);
                      nq_consumer_signalled := nq_consumer_signalled q;
                      nq_buffers := nq_buffers q |}.
Proof.
  intros Hc Hd Hl. pose proof (net_ring_cap cap Hc Hd) as Hr. unfold net_contents, u16. simpl.
  rewrite (ring_contents_mod_head _ _ Hr). by apply ring_contents_cons.
Qed.

Lemma net_contents_enq cap q d :
  0 < cap <= AOS_NET_CAPACITY -> (cap | 2 ^ 16) -> net_queue_ok q ->
  aos_net_queue_length q < cap ->
  net_contents cap {| nq_tail := u16 (nq_tail q + 1); nq_head := nq_head q;
                      nq_consumer_signalled := nq_consumer_signalled q;
                      nq_buffers := <[Z.to_nat (nq_tail q mod cap) := d]> (nq_buffers q) |} =
  net_contents cap q ++ [d].
Proof.
  intros Hc Hd (_&_&Hlen&_) Hl. pose proof (net_ring_cap cap Hc Hd) as Hr.
  unfold net_contents, u16. simpl. rewrite ring_contents_mod_tail.
  apply ring_contents_snoc; [done|lia|done].
Qed.

Lemma net_valid_of_contents cap q :
  net_queue_ok q -> Z.of_nat (length (net_contents cap q)) <= cap -> net_queue_valid cap q.
Proof. rewrite length_net_contents. by split. Qed.

(** ** Properties *)

(** A queue of 32 slots holding descriptors of buffers 5 and 6, with its
    indices about to wrap. *)
Definition net_demo_queue : aos_net_queue :=
  {| nq_tail := 1; nq_head := 65535; nq_consumer_signalled := 0;
     nq_buffers := {| nbd_io_or_offset := 6 * 2048; nbd_len := 60; nbd_pad0 := 0; nbd_pad1 := 0 |} ::
       replicate 30 net_desc_zero ++
       [{| nbd_io_or_offset := 5 * 2048; nbd_len := 60; nbd_pad0 := 0; nbd_pad1 := 0 |}] |}.

(** C1. The ring of descriptors refines a bounded FIFO. On a queue whose
    indices are consistent with its capacity, a dequeue returns the oldest
    pending descriptor and leaves the others in order, or reports an empty
    queue and changes nothing; an enqueue appends its descriptor behind the
    pending ones, or reports a full queue and changes nothing. The capacity
    divides the 16-bit index width, as the layout's 32 does. *)
Theorem net_queue_refines_fifo cap p m q d :
  p <> NULL -> 0 < cap <= AOS_NET_CAPACITY -> (cap | 2 ^ 16) ->
  nm_queues m !! p = Some q -> net_queue_valid cap q -> net_desc_ok d ->
  match net_contents cap q with
  | [] => aos_net_queue_dequeue p cap m = Some (None, m)
  | d0 :: rest => exists q', aos_net_queue_dequeue p cap m = Some (Some d0, set_queue p q' m) /\
      net_contents cap q' = rest /\ net_queue_valid cap q'
  end /\
  (if Z.of_nat (length (net_contents cap q)) <? cap
   then exists q', aos_net_queue_enqueue p cap d m = Some (0, set_queue p q' m) /\
      net_contents cap q' = net_contents cap q ++ [d] /\ net_queue_valid cap q'
   else aos_net_queue_enqueue p cap d m = Some (-1, m)).
Proof.
  intros Hp Hc Hdiv Hq [Hok Hlen] Hd.
  pose proof (length_net_contents cap q) as HL.
  rewrite (dequeue_run p cap m q), (enqueue_run p cap d m q) by done. split.
  - destruct (Z.eqb_spec (aos_net_queue_length q) 0) as [Hz|Hz]; simpl.
    + rewrite Hz in HL. by destruct (net_contents cap q).
    + assert ((cap <? aos_net_queue_length q) = false) as -> by lia.
      rewrite (net_contents_deq cap q) in HL |- * by (done || lia).
      eexists. split_and?; [done..|].
      apply net_valid_of_contents; [by apply net_queue_ok_deq|]. simpl in HL. lia.
  - rewrite HL. destruct (Z.ltb_spec (aos_net_queue_length q) cap) as [Hf|Hf].
    + assert ((cap <=? aos_net_queue_length q) = false) as -> by lia.
      eexists. split_and?; [done|by apply net_contents_enq|].
      apply net_valid_of_contents; [by apply net_queue_ok_enq|].
      rewrite net_contents_enq, length_app by done. simpl. lia.
    + by assert ((cap <=? aos_net_queue_length q) = true) as -> by lia.
Qed.

Lemma net_queue_refines_fifo_witness :
  exists q1 q2, aos_net_queue_dequeue 4096 32 {| nm_queues := {[4096 := net_demo_queue]}; nm_bytes := ∅ |} =
      Some (Some (nq_buffers net_demo_queue !!! 31%nat),
            set_queue 4096 q1 {| nm_queues := {[4096 := net_demo_queue]}; nm_bytes := ∅ |}) /\
    nbd_io_or_offset <$> net_contents 32 q1 = [6 * 2048] /\
    aos_net_queue_enqueue 4096 32 net_desc_zero
        {| nm_queues := {[4096 := net_demo_queue]}; nm_bytes := ∅ |} =
      Some (0, set_queue 4096 q2 {| nm_queues := {[4096 := net_demo_queue]}; nm_bytes := ∅ |}) /\
    nbd_io_or_offset <$> net_contents 32 q2 = [5 * 2048; 6 * 2048; 0].
Proof.
  assert (net_queue_valid 32 net_demo_queue) as Hv by (split; [by_compute|vm_compute; discriminate]).
  destruct (net_queue_refines_fifo 32 4096
    {| nm_queues := {[4096 := net_demo_queue]}; nm_bytes := ∅ |} net_demo_queue net_desc_zero)
    as [(q1&Hd&Hc1&_) (q2&He&Hc2&_)].
  - done.
  - done.
  - by exists 2048.
  - apply lookup_singleton_eq.
  - exact Hv.
  - by_compute.
  - exists q1, q2. split_and!; [exact Hd|by rewrite Hc1|exact He|by rewrite Hc2].
Defined.
