(* ===== verification/NetPump.v ===== *)
(** * Network virtualizer pump

    [platform/net-virt/net_virt_pump.c]: the registry of attached clients and
    the hub that moves every pending transmit buffer to the receive queues of
    the other clients (or back to the sender when it is alone). *)

From S2P Require Import Prelude Ring Bytes NetQueue.

(** ** State and operations *)

(** [aos_net_virt_t]. *)
Record aos_net_virt := {
  nv_clients : list aos_net_virt_client;
  nv_num_clients : Z;
}.

Definition aos_net_virt_reset (v : aos_net_virt) : aos_net_virt :=
  {| nv_clients := replicate (length (nv_clients v)) net_client_zero; nv_num_clients := 0 |}.

Definition aos_net_virt_add_client (c : aos_net_virt_client) : prog aos_net_virt Z :=
  v ← get_state;
  if (AOS_NET_MAX_CLIENTS <=? nv_num_clients v) ||
     (nvc_rx_free c =? NULL) || (nvc_rx_active c =? NULL) ||
     (nvc_tx_free c =? NULL) || (nvc_tx_active c =? NULL) ||
     (nvc_rx_data c =? NULL) || (nvc_tx_data c =? NULL) ||
     (nvc_capacity c =? 0) || (AOS_NET_CAPACITY <? nvc_capacity c)
  then mret (-1)
  else
    clients ← lift (aset (nv_clients v) (nv_num_clients v) c);
    put_state {| nv_clients := clients; nv_num_clients := u32 (nv_num_clients v + 1) |};;
    mret 0.

Definition virt_store_client (i : Z) (c : aos_net_virt_client) : prog aos_net_virt unit :=
  v ← get_state;
  clients ← lift (aset (nv_clients v) i c);
  put_state {| nv_clients := clients; nv_num_clients := nv_num_clients v |}.

(** One removal: shift the later clients down, shrink, clear the freed slot. *)
Definition virt_drop_client (i : Z) : prog aos_net_virt unit :=
  v0 ← get_state;
  for_loop (Z.to_nat (nv_num_clients v0 - (i + 1))) (i + 1) tt (fun j _ =>
    v ← get_state;
    c ← lift (aget (nv_clients v) j);
    virt_store_client (j - 1) c;;
    mret (Continue, tt));;
  v1 ← get_state;
  put_state {| nv_clients := nv_clients v1; nv_num_clients := nv_num_clients v1 - 1 |};;
  virt_store_client (nv_num_clients v1 - 1) net_client_zero.

(** The scan of [aos_net_virt_remove_client]; every round removes a client or
    advances [i], so [num_clients] rounds are enough fuel. *)
Fixpoint virt_remove_scan (fuel : nat) (tx_active i : Z) : prog aos_net_virt unit :=
  match fuel with
  | O => mret tt
  | S fuel =>
      v ← get_state;
      if i <? nv_num_clients v then
        ci ← lift (aget (nv_clients v) i);
        if negb (nvc_tx_active ci =? tx_active) then virt_remove_scan fuel tx_active (i + 1)
        else virt_drop_client i;; virt_remove_scan fuel tx_active i
      else mret tt
  end.

Definition aos_net_virt_remove_client (c : aos_net_virt_client) : prog aos_net_virt Z :=
  v ← get_state;
  if (nvc_tx_active c =? NULL) || (AOS_NET_MAX_CLIENTS <? nv_num_clients v) then mret (-1)
  else
    virt_remove_scan (Z.to_nat (nv_num_clients v)) (nvc_tx_active c) 0;;
    mret 0.

(** Copies one frame, [len] bytes at [sbase + soff], into a free buffer of
    [dst]. *)
Definition deliver_one (dst : aos_net_virt_client) (sbase soff len : Z) : prog net_mem Z :=
  orx ← aos_net_queue_dequeue (nvc_rx_free dst) (nvc_capacity dst);
  match orx with
  | None => mret (-1)
  | Some rx =>
      if negb (aos_net_buffer_valid (nbd_io_or_offset rx) len) || (len =? 0) then mret (-1)
      else
        aos_copy (nvc_rx_data dst) (u32 (nbd_io_or_offset rx)) sbase soff len;;
        let rx := net_desc_with_len rx (u16 len) in
        r ← aos_net_queue_enqueue (nvc_rx_active dst) (nvc_capacity dst) rx;
        if negb (r =? 0) then
          aos_net_queue_enqueue (nvc_rx_free dst) (nvc_capacity dst) (net_desc_with_len rx 0);;
          mret (-1)
        else mret 0
  end.

(** Delivers one frame of client [src_i] to its destinations; [true] when at
    least one of them accepted it. *)
Definition deliver_all (v : aos_net_virt) (src_i : Z) (src : aos_net_virt_client)
    (soff len : Z) : prog net_mem bool :=
  if nv_num_clients v =? 1 then
    r ← deliver_one src (nvc_tx_data src) soff len;
    mret (r =? 0)
  else
    for_loop (Z.to_nat (nv_num_clients v)) 0 false (fun dst_i delivered =>
      if dst_i =? src_i then mret (Continue, delivered)
      else
        dst ← lift (aget (nv_clients v) dst_i);
        r ← deliver_one dst (nvc_tx_data src) soff len;
        mret (Continue, if r =? 0 then true else delivered)).

(** One round of the inner loop of [aos_net_virt_pump] for client [src_i]. *)
Definition pump_one (v : aos_net_virt) (src_i : Z) (src : aos_net_virt_client)
    (forwarded : Z) : prog net_mem (loop_ctl * Z) :=
  otx ← aos_net_queue_dequeue (nvc_tx_active src) (nvc_capacity src);
  match otx with
  | None => mret (Break, forwarded)
  | Some tx =>
      if negb (aos_net_buffer_valid (nbd_io_or_offset tx) (nbd_len tx)) || (nbd_len tx =? 0)
      then mret (Continue, forwarded)
      else
        delivered ← deliver_all v src_i src (u32 (nbd_io_or_offset tx)) (nbd_len tx);
        aos_net_queue_enqueue (nvc_tx_free src) (nvc_capacity src) (net_desc_with_len tx 0);;
        mret (Continue, if (delivered : bool) then u32 (forwarded + 1) else forwarded)
  end.

Definition aos_net_virt_pump (v : aos_net_virt) : prog net_mem Z :=
  if nv_num_clients v =? 0 then mret 0
  else
    for_loop (Z.to_nat (nv_num_clients v)) 0 0 (fun src_i forwarded =>
      src ← lift (aget (nv_clients v) src_i);
      forwarded ← for_loop (Z.to_nat (nvc_capacity src)) 0 forwarded
                    (fun _ forwarded => pump_one v src_i src forwarded);
      mret (Continue, forwarded)).

(** ** Specification-level definitions *)

(** The clients in use. *)
Definition net_attached (v : aos_net_virt) : list aos_net_virt_client :=
  take (Z.to_nat (nv_num_clients v)) (nv_clients v).

(** What the virtualizer checked or the root task laid out for a client. *)
Definition net_client_ok (m : net_mem) (c : aos_net_virt_client) : Prop :=
  0 < nvc_capacity c <= AOS_NET_CAPACITY /\
  Forall (fun p => p <> NULL /\ is_Some (nm_queues m !! p))
    [nvc_rx_free c; nvc_rx_active c; nvc_tx_free c; nvc_tx_active c] /\
  is_Some (nm_bytes m !! nvc_rx_data c) /\ is_Some (nm_bytes m !! nvc_tx_data c).

Definition net_virt_ok (m : net_mem) (v : aos_net_virt) : Prop :=
  0 <= nv_num_clients v <= AOS_NET_MAX_CLIENTS /\
  Z.of_nat (length (nv_clients v)) = AOS_NET_MAX_CLIENTS /\
  (forall c, c ∈ net_attached v -> net_client_ok m c) /\
  (forall c c', c ∈ net_attached v -> c' ∈ net_attached v -> nvc_rx_data c <> nvc_tx_data c').

(** [m'] is well formed, has every region of [m], and differs from [m] at
    most in the queues [Q] and the byte regions [B]. *)
Definition net_touch (Q B : list Z) (m m' : net_mem) : Prop :=
  net_mem_ok m' /\
  (forall p, is_Some (nm_queues m !! p) -> is_Some (nm_queues m' !! p)) /\
  (forall p, p ∉ Q -> nm_queues m' !! p = nm_queues m !! p) /\
  (forall p, is_Some (nm_bytes m !! p) -> is_Some (nm_bytes m' !! p)) /\
  (forall p, p ∉ B -> nm_bytes m' !! p = nm_bytes m !! p).

Definition net_queues_of (c : aos_net_virt_client) : list Z :=
  [nvc_rx_free c; nvc_rx_active c; nvc_tx_free c; nvc_tx_active c].
Definition net_rx_queues_of (c : aos_net_virt_client) : list Z :=
  [nvc_rx_free c; nvc_rx_active c].
Definition net_tx_queues_of (c : aos_net_virt_client) : list Z :=
  [nvc_tx_active c; nvc_tx_free c].

(** Queues and receive regions the pump may change. *)
Definition net_pump_queues (v : aos_net_virt) : list Z := net_attached v ≫= net_queues_of.
Definition net_pump_rx_queues (v : aos_net_virt) : list Z := net_attached v ≫= net_rx_queues_of.
Definition net_pump_regions (v : aos_net_virt) : list Z := nvc_rx_data <$> net_attached v.

(** Total transmit attempts one pump may make. *)
Definition net_pump_budget (v : aos_net_virt) : Z :=
  AOS_NET_CAPACITY * nv_num_clients v.

(** The queue at [p] is consistent and its pending descriptors are [l]. *)
Definition net_list (cap : Z) (m : net_mem) (p : Z) (l : list aos_net_buff_desc) : Prop :=
  exists q, nm_queues m !! p = Some q /\ net_queue_valid cap q /\ net_contents cap q = l.

(** A frame is deliverable into the free descriptor [rx]. *)
Definition net_rx_usable (rx : aos_net_buff_desc) (len : Z) : bool :=
  aos_net_buffer_valid (nbd_io_or_offset rx) len && negb (len =? 0).

(** The outcome of [deliver_one] on each of its branches. *)
Definition deliver_outcome (dst : aos_net_virt_client) (lf la : list aos_net_buff_desc)
    (rd payload : list Z) (len r : Z) (m m' : net_mem) : Prop :=
  let cap := nvc_capacity dst in
  match lf with
  | [] => r = -1 /\ m' = m
  | rx :: lf' =>
      if net_rx_usable rx len then
        nm_bytes m' !! nvc_rx_data dst =
          Some (list_inserts (Z.to_nat (nbd_io_or_offset rx)) payload rd) /\
        if Z.of_nat (length la) <? cap then
          r = 0 /\ net_list cap m' (nvc_rx_free dst) lf' /\
          net_list cap m' (nvc_rx_active dst) (la ++ [net_desc_with_len rx len])
        else
          r = -1 /\ net_list cap m' (nvc_rx_active dst) la /\
          net_list cap m' (nvc_rx_free dst) (lf' ++ [net_desc_with_len rx 0])
      else
        r = -1 /\ net_list cap m' (nvc_rx_free dst) lf' /\
        net_list cap m' (nvc_rx_active dst) la /\ nm_bytes m' = nm_bytes m
  end.

(** The layout the root task gives attached clients: no queue or receive
    region of one client is a queue or receive region of another, and a
    client's own four queues are different pages. *)
Definition net_layout_disjoint (v : aos_net_virt) : Prop :=
  (forall i j ci cj, i <> j -> 0 <= i < nv_num_clients v -> 0 <= j < nv_num_clients v ->
     aget (nv_clients v) i = Some ci -> aget (nv_clients v) j = Some cj ->
     (forall p, p ∈ net_queues_of ci -> p ∉ net_queues_of cj) /\ nvc_rx_data ci <> nvc_rx_data cj) /\
  (forall c, c ∈ net_attached v -> NoDup (net_queues_of c)).

(** [dst] has a usable free descriptor for a frame of [len] bytes and room to
    publish it. *)
Definition net_can_receive (m : net_mem) (dst : aos_net_virt_client) (len : Z) : Prop :=
  (nvc_capacity dst | 2 ^ 16) /\
  exists rx lf la, net_list (nvc_capacity dst) m (nvc_rx_free dst) (rx :: lf) /\
    net_list (nvc_capacity dst) m (nvc_rx_active dst) la /\
    net_rx_usable rx len = true /\ Z.of_nat (length la) < nvc_capacity dst.

(** [dst] received [payload]: its oldest free descriptor now stands at the
    end of its receive queue with the frame's length, and its buffer, and no
    other byte of the region, holds the frame. *)
Definition net_received (m m' : net_mem) (dst : aos_net_virt_client) (payload : list Z) (len : Z)
    : Prop :=
  exists rx lf la rd, net_list (nvc_capacity dst) m (nvc_rx_free dst) (rx :: lf) /\
    net_list (nvc_capacity dst) m (nvc_rx_active dst) la /\
    nm_bytes m !! nvc_rx_data dst = Some rd /\
    net_list (nvc_capacity dst) m' (nvc_rx_free dst) lf /\
    net_list (nvc_capacity dst) m' (nvc_rx_active dst) (la ++ [net_desc_with_len rx len]) /\
    nm_bytes m' !! nvc_rx_data dst =
      Some (list_inserts (Z.to_nat (nbd_io_or_offset rx)) payload rd).

(** Nothing of client [c] differs between the two memories. *)
Definition net_same_client (m m' : net_mem) (c : aos_net_virt_client) : Prop :=
  (forall p, p ∈ net_queues_of c -> nm_queues m' !! p = nm_queues m !! p) /\
  nm_bytes m' !! nvc_rx_data c = nm_bytes m !! nvc_rx_data c /\
  nm_bytes m' !! nvc_tx_data c = nm_bytes m !! nvc_tx_data c.

(** A transmit descriptor the pump accepts, and the descriptors it hands back
    to the client after consuming [la]. *)
Definition net_tx_wf (tx : aos_net_buff_desc) : bool :=
  aos_net_buffer_valid (nbd_io_or_offset tx) (nbd_len tx) && negb (nbd_len tx =? 0).
Definition net_recycled (la : list aos_net_buff_desc) : list aos_net_buff_desc :=
  la ≫= (fun tx => if net_tx_wf tx then [net_desc_with_len tx 0] else []).

(** ** Lemmas: frames *)

Lemma net_touch_refl Q B m : net_mem_ok m -> net_touch Q B m m.
Proof. unfold net_touch. auto. Qed.

Lemma net_touch_trans Q B m1 m2 m3 :
  net_touch Q B m1 m2 -> net_touch Q B m2 m3 -> net_touch Q B m1 m3.
Proof.
  intros (?&?&HQ1&?&HB1) (?&?&HQ2&?&HB2). unfold net_touch. split_and?; auto.
  - intros p Hp. by rewrite HQ2, HQ1.
  - intros p Hp. by rewrite HB2, HB1.
Qed.

Lemma net_touch_mono Q B Q' B' m m' :
  Q ⊆ Q' -> B ⊆ B' -> net_touch Q B m m' -> net_touch Q' B' m m'.
Proof. intros HQ HB (?&?&?&?&?). unfold net_touch. split_and?; set_solver. Qed.

Lemma net_touch_client Q B m m' c :
  net_touch Q B m m' -> net_client_ok m c -> net_client_ok m' c.
Proof.
  intros (_&HQ&_&HB&_) (?&Hf&?&?). unfold net_client_ok. split_and?; auto; [lia..|].
  eapply Forall_impl; [exact Hf|]. intros p []. auto.
Qed.

Lemma net_touch_virt Q B m m' v :
  net_touch Q B m m' -> net_virt_ok m v -> net_virt_ok m' v.
Proof. intros Ht (?&?&Hc&?). unfold net_virt_ok. split_and?; auto; [lia..|]. intros c Hin. eapply net_touch_client; eauto. Qed.

Lemma net_touch_queue Q B m p q :
  net_mem_ok m -> p ∈ Q -> net_queue_ok q -> net_touch Q B m (set_queue p q m).
Proof.
  intros [Hq Hb] Hp Hok. unfold net_touch, set_queue. simpl. split_and?; auto.
  - split; [|done]. simpl. by apply map_Forall_insert_2.
  - intros p' [q' Hp']. destruct (decide (p = p')) as [->|].
    + rewrite lookup_insert_eq. eauto.
    + rewrite lookup_insert_ne by done. eauto.
  - intros p' Hp'. rewrite lookup_insert_ne; [done|]. by intros ->.
Qed.

Lemma net_touch_bytes Q B m b d :
  net_mem_ok m -> b ∈ B -> Z.of_nat (length d) = AOS_NET_RX_DATA_BYTES ->
  net_touch Q B m (set_bytes (<[b := d]> (bytes_of m)) m).
Proof.
  intros [Hq Hb] Hin Hd. unfold net_touch. simpl. split_and?; auto.
  - split; [done|]. simpl. by apply map_Forall_insert_2.
  - intros p' [d' Hp']. destruct (decide (b = p')) as [->|].
    + rewrite lookup_insert_eq. eauto.
    + rewrite lookup_insert_ne by done. eauto.
  - intros p' Hp'. rewrite lookup_insert_ne; [done|]. by intros ->.
Qed.

(** ** Lemmas: the pump never faults *)

Lemma wp_dequeue Q B m p cap :
  net_mem_ok m -> p <> NULL -> is_Some (nm_queues m !! p) ->
  0 < cap <= AOS_NET_CAPACITY -> p ∈ Q ->
  wp (aos_net_queue_dequeue p cap)
     (fun r m' => net_touch Q B m m' /\ forall d, r = Some d -> net_desc_ok d) m.
Proof.
  intros Hm Hp [q Hq] Hc Hin. pose proof (proj1 Hm _ _ Hq) as Hok. simpl in Hok. unfold wp.
  rewrite (dequeue_run p cap m q) by done. case_cmp.
  - split; [by apply net_touch_refl|done].
  - split; [apply net_touch_queue; auto with netdb|].
    intros d [= <-]. apply net_desc_ok_slot; auto with netdb.
Qed.

Lemma wp_enqueue Q B m p cap d :
  net_mem_ok m -> p <> NULL -> is_Some (nm_queues m !! p) ->
  0 < cap <= AOS_NET_CAPACITY -> p ∈ Q -> net_desc_ok d ->
  wp (aos_net_queue_enqueue p cap d) (fun _ m' => net_touch Q B m m') m.
Proof.
  intros Hm Hp [q Hq] Hc Hin Hd. pose proof (proj1 Hm _ _ Hq) as Hok. simpl in Hok. unfold wp.
  rewrite (enqueue_run p cap d m q) by done. case_cmp.
  - by apply net_touch_refl.
  - apply net_touch_queue; auto with netdb.
Qed.

(** A descriptor accepted by [aos_net_buffer_valid] names bytes inside the
    data region, and the C cast of its offset to 32 bits is exact. *)
Lemma buffer_valid_bounds off len :
  is_u64 off -> is_u16 len -> aos_net_buffer_valid off len = true ->
  u32 off = off /\ 0 <= off /\ off + len <= AOS_NET_RX_DATA_BYTES /\
  len <= AOS_NET_BUFFER_SIZE /\ (AOS_NET_BUFFER_SIZE | off).
Proof.
  unfold aos_net_buffer_valid, is_u64, is_u16. intros Ho Hl Hv.
  assert (off < AOS_NET_RX_DATA_BYTES /\ off mod AOS_NET_BUFFER_SIZE = 0 /\
          len <= AOS_NET_BUFFER_SIZE) as (Hr & Hmod & Hlen) by lia.
  unfold AOS_NET_RX_DATA_BYTES, AOS_NET_CAPACITY, AOS_NET_BUFFER_SIZE in *.
  apply Z.mod_divide in Hmod; [|lia]. destruct Hmod as [k ->].
  rewrite u32_small by (unfold is_u32; lia).
  split_and?; [done|lia..|]. by exists k.
Qed.

Lemma net_client_queue m c p :
  net_client_ok m c -> p ∈ net_queues_of c -> p <> NULL /\ is_Some (nm_queues m !! p).
Proof. intros (_&Hq&_) Hp. by eapply (proj1 (Forall_forall _ _)) in Hq. Qed.

Lemma net_bytes_len m b d :
  net_mem_ok m -> nm_bytes m !! b = Some d -> Z.of_nat (length d) = AOS_NET_RX_DATA_BYTES.
Proof. intros [_ Hb] Hd. exact (Hb _ _ Hd). Qed.

Lemma wp_client_dequeue Q B m c p :
  net_mem_ok m -> net_client_ok m c -> p ∈ net_queues_of c -> p ∈ Q ->
  wp (aos_net_queue_dequeue p (nvc_capacity c))
     (fun r m' => net_touch Q B m m' /\ forall d, r = Some d -> net_desc_ok d) m.
Proof.
  intros Hm Hc Hp HQ. destruct (net_client_queue m c p) as []; [done..|].
  apply wp_dequeue; try done. by destruct Hc.
Qed.

Lemma wp_client_enqueue Q B m c p d :
  net_mem_ok m -> net_client_ok m c -> p ∈ net_queues_of c -> p ∈ Q -> net_desc_ok d ->
  wp (aos_net_queue_enqueue p (nvc_capacity c) d) (fun _ m' => net_touch Q B m m') m.
Proof.
  intros Hm Hc Hp HQ Hd. destruct (net_client_queue m c p) as []; [done..|].
  apply wp_enqueue; try done. by destruct Hc.
Qed.

(** The copy of [deliver_one]: any accepted descriptor, any source slice. *)
Lemma wp_deliver_copy Q m dst sbase soff off len :
  net_mem_ok m -> is_Some (nm_bytes m !! nvc_rx_data dst) -> is_Some (nm_bytes m !! sbase) ->
  sbase <> nvc_rx_data dst -> 0 <= soff -> is_u16 len -> soff + len <= AOS_NET_RX_DATA_BYTES ->
  is_u64 off -> aos_net_buffer_valid off len = true ->
  wp (aos_copy (nvc_rx_data dst) (u32 off) sbase soff len)
     (fun _ m' => net_touch Q [nvc_rx_data dst] m m') m.
Proof.
  intros Hm [rd Hrd] [sd Hsd] Hne Hso Hlen Hin Hoff Hv.
  destruct (buffer_valid_bounds off len) as (Hcast&?&?&?&?); [done..|].
  pose proof (net_bytes_len _ _ _ Hm Hrd). pose proof (net_bytes_len _ _ _ Hm Hsd).
  unfold wp. rewrite (aos_copy_run m _ _ _ _ _ sd rd) by (done || unfold is_u16 in *; lia).
  apply net_touch_bytes; [done|in_list|]. by rewrite length_inserts.
Qed.

Lemma wp_deliver_one m dst sbase soff len :
  net_mem_ok m -> net_client_ok m dst -> is_Some (nm_bytes m !! sbase) ->
  sbase <> nvc_rx_data dst -> 0 <= soff -> is_u16 len -> soff + len <= AOS_NET_RX_DATA_BYTES ->
  wp (deliver_one dst sbase soff len)
     (fun _ m' => net_touch (net_rx_queues_of dst) [nvc_rx_data dst] m m') m.
Proof.
  intros Hm Hc Hs Hne Hso Hlen Hin. unfold deliver_one. wp_step.
  eapply wp_mono; [apply (wp_client_dequeue (net_rx_queues_of dst) [nvc_rx_data dst]); [done..|in_list|in_list]|].
  intros [rx|] m1 [Ht1 Hrx]; [|by wp_step].
  specialize (Hrx rx eq_refl). destruct Hrx as [Hoff Hl].
  pose proof (net_touch_client _ _ _ _ _ Ht1 Hc) as Hc1.
  pose proof Ht1 as (Hm1&_&_&Hb1&_).
  wp_step; [by wp_step|]. wp_step.
  eapply wp_mono.
  { apply (wp_deliver_copy (net_rx_queues_of dst)); try done; [|by auto|].
    - by destruct Hc1 as (_&_&?&_).
    - by destruct (aos_net_buffer_valid _ len). }
  intros ? m2 Ht2. pose proof (net_touch_client _ _ _ _ _ Ht2 Hc1) as Hc2.
  pose proof (net_touch_trans _ _ _ _ _ Ht1 Ht2) as Ht12. wp_step.
  eapply wp_mono; [apply (wp_client_enqueue (net_rx_queues_of dst) [nvc_rx_data dst]); [apply Ht2|done|in_list|in_list|]|].
  { by apply net_desc_ok_len; [|apply u16_range]. }
  intros r m3 Ht3. pose proof (net_touch_trans _ _ _ _ _ Ht12 Ht3) as Ht.
  wp_step; [|by wp_step]. wp_step.
  eapply wp_mono; [apply (wp_client_enqueue (net_rx_queues_of dst) [nvc_rx_data dst]); [apply Ht3| |in_list|in_list|]|].
  - by eapply net_touch_client.
  - apply net_desc_ok_len; [by apply net_desc_ok_len; [|apply u16_range]|done].
  - intros ? m4 Ht4. wp_step. by eapply net_touch_trans.
Qed.

Lemma net_attached_get m v i c :
  net_virt_ok m v -> 0 <= i < nv_num_clients v -> aget (nv_clients v) i = Some c ->
  c ∈ net_attached v /\ net_client_ok m c.
Proof.
  intros (?&?&Hc&_) Hi [_ Hg]%aget_Some.
  assert (c ∈ net_attached v) as Hin.
  { apply (list_elem_of_lookup_2 _ (Z.to_nat i)). unfold net_attached.
    rewrite lookup_take_lt by lia. done. }
  split; [done|by apply Hc].
Qed.

Lemma net_attached_touch v c m m' :
  c ∈ net_attached v -> net_touch (net_queues_of c) [nvc_rx_data c] m m' ->
  net_touch (net_pump_queues v) (net_pump_regions v) m m'.
Proof.
  intros Hc. apply net_touch_mono.
  - unfold net_pump_queues. intros p Hp. apply list_elem_of_bind. eauto.
  - unfold net_pump_regions. intros b ->%list_elem_of_singleton. by apply list_elem_of_fmap_2.
Qed.

Lemma net_attached_touch_rx v c m m' :
  c ∈ net_attached v -> net_touch (net_rx_queues_of c) [nvc_rx_data c] m m' ->
  net_touch (net_pump_rx_queues v) (net_pump_regions v) m m'.
Proof.
  intros Hc. apply net_touch_mono.
  - unfold net_pump_rx_queues. intros p Hp. apply list_elem_of_bind. eauto.
  - unfold net_pump_regions. intros b ->%list_elem_of_singleton. by apply list_elem_of_fmap_2.
Qed.

Lemma net_touch_rx_all v m m' :
  net_touch (net_pump_rx_queues v) (net_pump_regions v) m m' ->
  net_touch (net_pump_queues v) (net_pump_regions v) m m'.
Proof.
  apply net_touch_mono; [|done]. unfold net_pump_rx_queues, net_pump_queues.
  intros p (c&Hp&Hc)%list_elem_of_bind. apply list_elem_of_bind. exists c. split; [|done].
  revert Hp. unfold net_rx_queues_of, net_queues_of. rewrite !elem_of_cons. tauto.
Qed.

Lemma wp_deliver_all m v src_i src soff len :
  net_mem_ok m -> net_virt_ok m v -> src ∈ net_attached v ->
  0 <= soff -> is_u16 len -> soff + len <= AOS_NET_RX_DATA_BYTES ->
  wp (deliver_all v src_i src soff len)
     (fun _ m' => net_touch (net_pump_rx_queues v) (net_pump_regions v) m m') m.
Proof.
  intros Hm Hv Hsrc Hso Hlen Hin. pose proof Hv as (Hn&Hl&Hcs&Hne).
  assert (is_Some (nm_bytes m !! nvc_tx_data src)) as Htx by (by destruct (Hcs src Hsrc) as (_&_&_&?)).
  unfold deliver_all. wp_step.
  - wp_step. eapply wp_mono; [apply wp_deliver_one; auto using not_eq_sym|].
    intros r m' Ht. wp_step. by eapply net_attached_touch_rx.
  - apply wp_for with (Inv := fun _ _ m' => net_touch (net_pump_rx_queues v) (net_pump_regions v) m m').
    + by apply net_touch_refl.
    + intros i b m1 Hi Ht1. wp_step; [by wp_step|].
      destruct (aget_lt (nv_clients v) i) as [dst Hdst]; [lia|].
      destruct (net_attached_get m v i dst) as [Hd Hdok]; [done|lia|done|].
      wp_step. eapply wp_lift; [done|]. wp_step.
      eapply wp_mono; [apply wp_deliver_one; try done|].
      * apply Ht1.
      * by eapply net_touch_client.
      * apply Ht1. done.
      * apply not_eq_sym. by apply Hne.
      * intros r m2 Ht2. wp_step. eapply net_touch_trans; [exact Ht1|].
        by eapply net_attached_touch_rx.
    + done.
Qed.

(** One client's round touches its own transmit queues, and receive queues. *)
Lemma wp_pump_one m v src_i src fwd :
  net_mem_ok m -> net_virt_ok m v -> src ∈ net_attached v ->
  wp (pump_one v src_i src fwd)
     (fun r m' => net_touch (net_tx_queues_of src ++ net_pump_rx_queues v) (net_pump_regions v) m m' /\
                  (r.2 = fwd \/ r.2 = u32 (fwd + 1))) m.
Proof.
  intros Hm Hv Hsrc. pose proof Hv as (_&_&Hcs&_). unfold pump_one. wp_step.
  set (Q := net_tx_queues_of src ++ net_pump_rx_queues v).
  eapply wp_mono.
  { apply (wp_client_dequeue Q (net_pump_regions v)); [done|by apply Hcs|in_list|in_list]. }
  intros [tx|] m1 [Ht1 Hd]; [|by wp_step; auto].
  destruct (Hd tx eq_refl) as [Ho Hl]. wp_step; [by wp_step; auto|].
  destruct (buffer_valid_bounds (nbd_io_or_offset tx) (nbd_len tx)) as (Hc&?&?&?&?); [done..| |].
  { by destruct (aos_net_buffer_valid _ _). }
  rewrite Hc. wp_step.
  eapply wp_mono; [apply wp_deliver_all; try done; [apply Ht1|by eapply net_touch_virt]|].
  intros delivered m2 Ht2. assert (net_touch Q (net_pump_regions v) m m2) as Ht12.
  { eapply net_touch_trans; [exact Ht1|].
    eapply net_touch_mono; [|done|exact Ht2]. apply list_subseteq_app_r. done. }
  pose proof (net_touch_virt _ _ _ _ _ Ht12 Hv) as (_&_&Hcs2&_). wp_step.
  eapply wp_mono.
  { apply (wp_client_enqueue Q (net_pump_regions v));
      [apply Ht2|by apply Hcs2|in_list|in_list|]. by apply net_desc_ok_len. }
  intros ? m3 Ht3. wp_step. split; [|destruct delivered; auto].
  by eapply net_touch_trans.
Qed.

Lemma net_touch_round v c m m' :
  c ∈ net_attached v ->
  net_touch (net_tx_queues_of c ++ net_pump_rx_queues v) (net_pump_regions v) m m' ->
  net_touch (net_pump_queues v) (net_pump_regions v) m m'.
Proof.
  intros Hc. apply net_touch_mono; [|done]. unfold net_pump_queues, net_pump_rx_queues.
  intros p [Hp|(c'&Hp&Hc')%list_elem_of_bind]%elem_of_app; apply list_elem_of_bind.
  - exists c. split; [|done]. revert Hp. unfold net_tx_queues_of, net_queues_of.
    rewrite !elem_of_cons. tauto.
  - exists c'. split; [|done]. revert Hp. unfold net_rx_queues_of, net_queues_of.
    rewrite !elem_of_cons. tauto.
Qed.

Lemma wp_pump m v :
  net_mem_ok m -> net_virt_ok m v ->
  wp (aos_net_virt_pump v)
     (fun n m' => net_touch (net_pump_queues v) (net_pump_regions v) m m' /\
                  0 <= n <= net_pump_budget v) m.
Proof.
  intros Hm Hv. pose proof Hv as (Hn&Hl&Hcs&_). unfold aos_net_virt_pump, net_pump_budget.
  unfold AOS_NET_MAX_CLIENTS, AOS_NET_CAPACITY in *.
  wp_step; [wp_step; split; [by apply net_touch_refl|lia]|].
  apply wp_for with (Inv := fun i n m' =>
    net_touch (net_pump_queues v) (net_pump_regions v) m m' /\ 0 <= n <= 32 * i).
  - split; [by apply net_touch_refl|lia].
  - intros i n m1 Hi [Ht1 Hn1].
    destruct (aget_lt (nv_clients v) i) as [src Hsrc]; [lia|].
    destruct (net_attached_get m v i src) as [Hs [Hcap _]]; [done|lia|done|].
    unfold AOS_NET_CAPACITY in Hcap.
    wp_step. eapply wp_lift; [done|]. wp_step.
    apply wp_for with (Inv := fun k n' m' =>
      net_touch (net_pump_queues v) (net_pump_regions v) m m' /\ 0 <= n' <= n + k).
    + split; [done|lia].
    + intros k n' m2 Hk [Ht2 Hn2]. eapply wp_mono; [apply wp_pump_one; [apply Ht2| |done]|].
      { by eapply net_touch_virt. }
      intros [c r] m3 [Ht3%(net_touch_round v src _ _ Hs) Hr]. simpl in *.
      assert (0 <= r <= n + (k + 1)) as Hb.
      { destruct Hr as [->| ->]; [lia|]. rewrite u32_small by (unfold is_u32; lia). lia. }
      pose proof (net_touch_trans _ _ _ _ _ Ht2 Ht3).
      destruct c; simpl; [by split|]. wp_step. simpl. split; [done|lia].
    + intros n' m2 [Ht2 Hn2]. wp_step. simpl. split; [done|lia].
  - intros n m' [? ?]. split; [done|lia].
Qed.

(** ** Lemmas: what a queue holds *)

Lemma net_list_frame cap Q B m m' p l :
  net_touch Q B m m' -> p ∉ Q -> net_list cap m p l -> net_list cap m' p l.
Proof. intros (_&_&HQ&_) Hp (q&Hq&?). exists q. by rewrite HQ. Qed.

Lemma net_list_set cap m p q l :
  net_queue_ok q -> net_contents cap q = l -> Z.of_nat (length l) <= cap ->
  net_list cap (set_queue p q m) p l.
Proof.
  intros Hok <- Hl. exists q. split_and?; [apply lookup_insert_eq| |done].
  by apply net_valid_of_contents.
Qed.

Lemma wp_dequeue_list cap m p l :
  net_mem_ok m -> p <> NULL -> 0 < cap <= AOS_NET_CAPACITY -> (cap | 2 ^ 16) ->
  net_list cap m p l ->
  wp (aos_net_queue_dequeue p cap) (fun r m' => net_touch [p] [] m m' /\
    match l with
    | [] => r = None /\ m' = m
    | d :: l' => r = Some d /\ net_desc_ok d /\ net_list cap m' p l'
    end) m.
Proof.
  intros Hm Hp Hc Hdiv (q&Hq&[Hok Hlen]&<-). pose proof (length_net_contents cap q) as HL.
  unfold wp. rewrite (dequeue_run p cap m q) by done.
  destruct (Z.eqb_spec (aos_net_queue_length q) 0) as [Hz|Hz]; simpl.
  - rewrite Hz in HL. destruct (net_contents cap q); [|done].
    split; [by apply net_touch_refl|done].
  - assert ((cap <? aos_net_queue_length q) = false) as -> by lia.
    rewrite (net_contents_deq cap q) in HL |- * by (done || lia). simpl in HL.
    split_and?; [apply net_touch_queue; [done|in_list|by apply net_queue_ok_deq]|done| |].
    + apply net_desc_ok_slot; auto with netdb.
    + apply net_list_set; [by apply net_queue_ok_deq|done|lia].
Qed.

Lemma wp_enqueue_list cap m p l d :
  net_mem_ok m -> p <> NULL -> 0 < cap <= AOS_NET_CAPACITY -> (cap | 2 ^ 16) ->
  net_desc_ok d -> net_list cap m p l ->
  wp (aos_net_queue_enqueue p cap d) (fun r m' => net_touch [p] [] m m' /\
    if Z.of_nat (length l) <? cap then r = 0 /\ net_list cap m' p (l ++ [d])
    else r = -1 /\ m' = m) m.
Proof.
  intros Hm Hp Hc Hdiv Hd (q&Hq&[Hok Hlen]&<-). rewrite length_net_contents.
  unfold wp. rewrite (enqueue_run p cap d m q) by done.
  destruct (Z.ltb_spec (aos_net_queue_length q) cap) as [Hf|Hf].
  - assert ((cap <=? aos_net_queue_length q) = false) as -> by lia.
    split_and?; [apply net_touch_queue; [done|in_list|by apply net_queue_ok_enq]|done|].
    apply net_list_set; [by apply net_queue_ok_enq|by apply net_contents_enq|].
    rewrite length_app. simpl. pose proof (length_net_contents cap q). lia.
  - assert ((cap <=? aos_net_queue_length q) = true) as -> by lia.
    split; [by apply net_touch_refl|done].
Qed.

Lemma net_touch_bytes_eq Q m m' : net_touch Q [] m m' -> nm_bytes m' = nm_bytes m.
Proof. intros (_&_&_&_&HB). apply map_eq. intros b. apply HB. set_solver. Qed.

Lemma wp_deliver_one_spec m dst sbase soff len lf la rd sd :
  net_mem_ok m -> net_client_ok m dst -> (nvc_capacity dst | 2 ^ 16) ->
  nvc_rx_free dst <> nvc_rx_active dst ->
  net_list (nvc_capacity dst) m (nvc_rx_free dst) lf ->
  net_list (nvc_capacity dst) m (nvc_rx_active dst) la ->
  nm_bytes m !! nvc_rx_data dst = Some rd -> nm_bytes m !! sbase = Some sd ->
  sbase <> nvc_rx_data dst -> 0 <= soff -> is_u16 len -> soff + len <= AOS_NET_RX_DATA_BYTES ->
  wp (deliver_one dst sbase soff len)
     (fun r m' => deliver_outcome dst lf la rd (aslice sd soff len) len r m m') m.
Proof.
  intros Hm Hc Hdiv Hne Hlf Hla Hrd Hsd Hnes Hso Hlen Hin.
  destruct (net_client_queue m dst (nvc_rx_free dst)) as [Hpf _]; [done|in_list|].
  destruct (net_client_queue m dst (nvc_rx_active dst)) as [Hpa _]; [done|in_list|].
  pose proof Hc as (Hcap&_). unfold deliver_one, deliver_outcome. wp_step.
  eapply wp_mono; [by apply (wp_dequeue_list _ m _ lf)|].
  intros r m1 [Ht1 Hr]. pose proof (net_touch_bytes_eq _ _ _ Ht1) as Hb1.
  assert (net_list (nvc_capacity dst) m1 (nvc_rx_active dst) la) as Hla1
    by (eapply net_list_frame; [exact Ht1|not_in_list|done]).
  destruct lf as [|rx lf]; [destruct Hr as [-> ->]; by wp_step|].
  destruct Hr as (->&[Hoff Hl]&Hlf1). fold (net_rx_usable rx len).
  assert (negb (aos_net_buffer_valid (nbd_io_or_offset rx) len) || (len =? 0) =
          negb (net_rx_usable rx len)) as ->.
  { unfold net_rx_usable. by destruct (aos_net_buffer_valid _ len), (len =? 0). }
  destruct (net_rx_usable rx len) eqn:Hu; simpl; [|by wp_step].
  destruct (buffer_valid_bounds (nbd_io_or_offset rx) len) as (Hcast&?&?&?&?); [done..| |].
  { unfold net_rx_usable in Hu. by destruct (aos_net_buffer_valid _ len). }
  pose proof (net_bytes_len _ _ _ Hm Hrd). pose proof (net_bytes_len _ _ _ Hm Hsd).
  rewrite Hcast, (u16_small len) by done. wp_step. unfold wp at 1.
  rewrite (aos_copy_run m1 _ _ _ _ _ sd rd); [|by auto|by simpl; rewrite Hb1..|done|done| | |];
    [|unfold is_u16 in *; lia..].
  cbn [bytes_of set_bytes net_mem_bytes]. rewrite Hb1. set (rd' := list_inserts _ _ rd).
  set (m2 := {| nm_queues := nm_queues m1; nm_bytes := _ |}).
  assert (net_mem_ok m2) as Hm2.
  { destruct Ht1 as [[??] _]. split; [done|]. simpl. destruct Hm.
    apply map_Forall_insert_2; [|done]. subst rd'. by rewrite length_inserts. }
  wp_step. eapply wp_mono.
  { apply (wp_enqueue_list _ m2 _ la); auto. by apply net_desc_ok_len. }
  intros r m3 [Ht3 Hr]. pose proof (net_touch_bytes_eq _ _ _ Ht3) as Hb3.
  assert (net_list (nvc_capacity dst) m3 (nvc_rx_free dst) lf) as Hlf3
    by (eapply net_list_frame; [exact Ht3|not_in_list|exact Hlf1]).
  assert (nm_bytes m3 !! nvc_rx_data dst = Some rd') as Hd3
    by (rewrite Hb3; apply lookup_insert_eq).
  destruct (Z.of_nat (length la) <? nvc_capacity dst).
  - destruct Hr as [-> Hla3]. simpl. by wp_step.
  - destruct Hr as [-> ->]. simpl. wp_step. eapply wp_mono.
    { apply (wp_enqueue_list _ m2 _ lf); auto. by apply net_desc_ok_len; [apply net_desc_ok_len|]. }
    intros r m4 [Ht4 Hr]. pose proof (net_touch_bytes_eq _ _ _ Ht4) as Hb4. wp_step.
    destruct Hlf as (qf&?&[_ Hvl]&Hcf). rewrite <- (length_net_contents (nvc_capacity dst)), Hcf in Hvl.
    simpl in Hvl. assert ((Z.of_nat (length lf) <? nvc_capacity dst) = true) as Htrue by lia.
    rewrite Htrue in Hr. destruct Hr as [_ Hlf4]. split; [by rewrite Hb4|]. split_and?; auto.
    eapply net_list_frame; [exact Ht4|not_in_list|done].
Qed.

(** ** Lemmas: the hub *)

Lemma net_list_same cap m m' p l :
  nm_queues m' !! p = nm_queues m !! p -> net_list cap m p l -> net_list cap m' p l.
Proof. intros Hs (q&?&?). exists q. by rewrite Hs. Qed.

Lemma net_same_trans m1 m2 m3 c :
  net_same_client m1 m2 c -> net_same_client m2 m3 c -> net_same_client m1 m3 c.
Proof.
  intros (HQ&HR&HT) (HQ'&HR'&HT'). unfold net_same_client. split_and?; [|congruence..].
  intros p Hp. by rewrite HQ', HQ.
Qed.

(** Delivery to one attached client leaves another one alone. *)
Lemma deliver_same v m m1 m2 i j dst c :
  net_virt_ok m v -> net_layout_disjoint v -> i <> j ->
  0 <= i < nv_num_clients v -> 0 <= j < nv_num_clients v ->
  aget (nv_clients v) i = Some dst -> aget (nv_clients v) j = Some c ->
  net_touch (net_rx_queues_of dst) [nvc_rx_data dst] m1 m2 -> net_same_client m1 m2 c.
Proof.
  intros Hv [Hd _] Hij Hi Hj Hgi Hgj (_&_&HQ&_&HB).
  destruct (Hd i j dst c) as [HQd HRd]; [done..|].
  pose proof (net_attached_get m v i dst Hv Hi Hgi) as [Hai _].
  pose proof (net_attached_get m v j c Hv Hj Hgj) as [Haj _].
  destruct Hv as (_&_&_&Hne). unfold net_same_client. split_and?.
  - intros p Hp. apply HQ. intros Hin. apply (HQd p); [|done].
    revert Hin. unfold net_rx_queues_of, net_queues_of. rewrite !elem_of_cons. tauto.
  - apply HB. not_in_list.
  - apply HB. specialize (Hne dst c Hai Haj). not_in_list.
Qed.

Lemma net_received_later m m1 m2 c payload len :
  net_received m m1 c payload len -> net_same_client m1 m2 c -> net_received m m2 c payload len.
Proof.
  intros (rx&lf&la&rd&?&?&?&?&?&?) (HQ&HR&_). exists rx, lf, la, rd. split_and?; try done.
  - eapply net_list_same; [apply HQ; in_list|done].
  - eapply net_list_same; [apply HQ; in_list|done].
  - by rewrite HR.
Qed.

(** What the delivery loop has done before client [i] is considered. *)
Definition hub_inv (v : aos_net_virt) (src_i len : Z) (payload : list Z) (m : net_mem)
    (i : Z) (b : bool) (m' : net_mem) : Prop :=
  net_touch (net_pump_queues v) (net_pump_regions v) m m' /\
  forall j c, 0 <= j < nv_num_clients v -> aget (nv_clients v) j = Some c ->
    if (j <? i) && negb (j =? src_i) then
      net_can_receive m c len -> net_received m m' c payload len /\ b = true
    else net_same_client m m' c.

(** Delivery to [dst] in [m1], where nothing of [dst] changed since [m]. *)
Lemma wp_deliver_waiting m m1 dst sbase soff len sd :
  net_mem_ok m1 -> net_client_ok m1 dst -> NoDup (net_queues_of dst) ->
  net_same_client m m1 dst -> nm_bytes m1 !! sbase = Some sd -> sbase <> nvc_rx_data dst ->
  0 <= soff -> is_u16 len -> soff + len <= AOS_NET_RX_DATA_BYTES ->
  wp (deliver_one dst sbase soff len) (fun r m2 =>
    net_touch (net_rx_queues_of dst) [nvc_rx_data dst] m1 m2 /\
    (net_can_receive m dst len -> net_received m m2 dst (aslice sd soff len) len /\ r = 0)) m1.
Proof.
  intros Hm Hok Hnd (HQ&HR&_) Hsd Hne Hso Hlen Hin. apply wp_when.
  { by apply wp_deliver_one. }
  intros (Hdiv&rx&lf&la&Hlf&Hla&Hu&Hroom). pose proof Hok as (_&_&[rd Hrd]&_).
  eapply wp_mono.
  { apply (wp_deliver_one_spec m1 dst sbase soff len (rx :: lf) la rd sd); try done.
    - apply NoDup_cons in Hnd as [Hnd _]. apply not_elem_of_cons in Hnd. tauto.
    - eapply net_list_same; [apply HQ; in_list|done].
    - eapply net_list_same; [apply HQ; in_list|done]. }
  intros r m2. unfold deliver_outcome. rewrite Hu.
  assert ((Z.of_nat (length la) <? nvc_capacity dst) = true) as -> by lia.
  intros (?&->&?&?). split; [|done]. exists rx, lf, la, rd. split_and?; try done. congruence.
Qed.

Lemma hub_step v src_i src soff len m sd i b m1 :
  net_virt_ok m v -> net_layout_disjoint v ->
  0 <= src_i < nv_num_clients v -> aget (nv_clients v) src_i = Some src ->
  nm_bytes m !! nvc_tx_data src = Some sd ->
  0 <= soff -> is_u16 len -> soff + len <= AOS_NET_RX_DATA_BYTES ->
  0 <= i < nv_num_clients v -> i <> src_i ->
  hub_inv v src_i len (aslice sd soff len) m i b m1 ->
  wp (dst ← lift (aget (nv_clients v) i);
      r ← deliver_one dst (nvc_tx_data src) soff len;
      mret (Continue, if r =? 0 then true else b))
     (fun r m2 => r.1 = Continue /\
                  hub_inv v src_i len (aslice sd soff len) m (i + 1) r.2 m2) m1.
Proof.
  intros Hv Hdisj Hsi Hsrc Hsd Hso Hlen Hin Hi Hne [Ht1 Hinv].
  pose proof Hv as (Hnum&Hl&_&Hrt).
  destruct (aget_lt (nv_clients v) i) as [dst Hdst]; [lia|].
  destruct (net_attached_get m v i dst) as [Hda Hdok]; [done|lia|done|].
  destruct (net_attached_get m v src_i src) as [Hsa _]; [done..|].
  pose proof (Hinv src_i src Hsi Hsrc) as Hsame. rewrite Z.eqb_refl, andb_false_r in Hsame.
  pose proof (Hinv i dst Hi Hdst) as Hsd1.
  assert ((i <? i) = false) as Hii by lia. rewrite Hii in Hsd1. simpl in Hsd1.
  destruct Hsame as (_&_&Hsdeq). rewrite Hsd in Hsdeq.
  wp_step. eapply wp_lift; [done|]. wp_step. eapply wp_mono.
  { apply (wp_deliver_waiting m m1); try done; [apply Ht1|by eapply net_touch_client|..].
    - by apply Hdisj.
    - by apply not_eq_sym, Hrt. }
  intros r m2 [Ht2 Hrcv]. wp_step. simpl. split; [done|]. split.
  { eapply net_touch_trans; [exact Ht1|]. by apply net_touch_rx_all, (net_attached_touch_rx v dst). }
  intros j c Hj Hc. specialize (Hinv j c Hj Hc).
  destruct (decide (j = i)) as [->|Hji].
  - rewrite Hdst in Hc. injection Hc as <-.
    assert ((i <? i + 1) && negb (i =? src_i) = true) as -> by lia.
    intros Hcan. by destruct (Hrcv Hcan) as [? ->].
  - assert (net_same_client m1 m2 c) as Hsc by (by eapply (deliver_same v m m1 m2 i j)).
    assert ((j <? i + 1) = (j <? i)) as -> by lia.
    destruct ((j <? i) && negb (j =? src_i)); [|by eapply net_same_trans].
    intros Hcan. destruct (Hinv Hcan) as [? ->].
    split; [by eapply net_received_later|by destruct (r =? 0)].
Qed.

(** ** Lemmas: draining a client's transmit queue *)

Lemma net_tx_not_rx m v i src p :
  net_virt_ok m v -> net_layout_disjoint v ->
  0 <= i < nv_num_clients v -> aget (nv_clients v) i = Some src ->
  p = nvc_tx_active src \/ p = nvc_tx_free src -> p ∉ net_pump_rx_queues v.
Proof.
  intros (Hn&Hl&_&_) [Hd Hnd] Hi Hsrc Hp (c&Hpc&Hc)%list_elem_of_bind.
  assert (p ∈ net_queues_of c) as Hpc'
    by (revert Hpc; unfold net_rx_queues_of, net_queues_of; rewrite !elem_of_cons; tauto).
  assert (p ∈ net_queues_of src) as Hps by (destruct Hp; subst p; in_list).
  specialize (Hnd c Hc). apply list_elem_of_lookup in Hc as [j Hj].
  apply lookup_take_Some in Hj as [Hj Hjn].
  destruct (decide (Z.of_nat j = i)) as [<-|Hij].
  - apply aget_Some in Hsrc as [_ Hsrc]. rewrite Nat2Z.id, Hj in Hsrc. injection Hsrc as ->.
    revert Hpc Hnd. unfold net_rx_queues_of, net_queues_of.
    rewrite !NoDup_cons, !not_elem_of_cons, !elem_of_cons, elem_of_nil. intuition congruence.
  - destruct (Hd i (Z.of_nat j) src c) as [HQ _]; try done; [lia| |by eapply HQ].
    apply aget_Some. rewrite Nat2Z.id. split; [lia|done].
Qed.

Lemma wp_pump_one_drain m v src_i src fwd la lf :
  net_mem_ok m -> net_virt_ok m v -> net_layout_disjoint v ->
  0 <= src_i < nv_num_clients v -> aget (nv_clients v) src_i = Some src ->
  (nvc_capacity src | 2 ^ 16) ->
  net_list (nvc_capacity src) m (nvc_tx_active src) la ->
  net_list (nvc_capacity src) m (nvc_tx_free src) lf ->
  Z.of_nat (length lf) < nvc_capacity src \/ la = [] ->
  wp (pump_one v src_i src fwd) (fun r m' =>
    match la with
    | [] => r.1 = Break /\ m' = m
    | tx :: la' => r.1 = Continue /\ net_list (nvc_capacity src) m' (nvc_tx_active src) la' /\
        net_list (nvc_capacity src) m' (nvc_tx_free src)
          (lf ++ if net_tx_wf tx then [net_desc_with_len tx 0] else [])
    end) m.
Proof.
  intros Hm Hv Hdisj Hi Hsrc Hdiv Hla Hlf Hroom.
  destruct (net_attached_get m v src_i src) as [Hin Hok]; [done..|]. pose proof Hok as (Hcap&_).
  pose proof (proj2 Hdisj src Hin) as Hnd.
  destruct (net_client_queue m src (nvc_tx_active src)) as [Hpa _]; [done|in_list|].
  destruct (net_client_queue m src (nvc_tx_free src)) as [Hpf _]; [done|in_list|].
  assert (nvc_tx_active src <> nvc_tx_free src) as Hne.
  { revert Hnd. unfold net_queues_of. rewrite !NoDup_cons, !not_elem_of_cons. intuition congruence. }
  unfold pump_one. wp_step. eapply wp_mono; [by apply (wp_dequeue_list _ m _ la)|].
  intros r m1 [Ht1 Hr].
  assert (net_list (nvc_capacity src) m1 (nvc_tx_free src) lf) as Hlf1
    by (eapply net_list_frame; [exact Ht1|not_in_list|done]).
  destruct la as [|tx la]; [destruct Hr as [-> ->]; by wp_step|].
  destruct Hr as (->&[Hoff Hl]&Hla1).
  destruct Hroom as [Hroom|]; [|done].
  assert (negb (aos_net_buffer_valid (nbd_io_or_offset tx) (nbd_len tx)) || (nbd_len tx =? 0) =
          negb (net_tx_wf tx)) as ->.
  { unfold net_tx_wf. by destruct (aos_net_buffer_valid _ _), (nbd_len tx =? 0). }
  destruct (net_tx_wf tx) eqn:Hwf; simpl; [|wp_step; rewrite app_nil_r; by split_and?].
  destruct (buffer_valid_bounds (nbd_io_or_offset tx) (nbd_len tx)) as (Hc&?&?&?&?); [done..| |].
  { unfold net_tx_wf in Hwf. by destruct (aos_net_buffer_valid _ _). }
  rewrite Hc. wp_step. eapply wp_mono.
  { apply wp_deliver_all; try done; [apply Ht1|by eapply net_touch_virt]. }
  intros delivered m2 Ht2. wp_step.
  assert (forall p l, p = nvc_tx_active src \/ p = nvc_tx_free src ->
    net_list (nvc_capacity src) m1 p l -> net_list (nvc_capacity src) m2 p l) as Hkeep.
  { intros p l Hp. eapply net_list_frame; [exact Ht2|]. by eapply net_tx_not_rx. }
  eapply wp_mono.
  { apply (wp_enqueue_list _ m2 _ lf); auto; [apply Ht2|]. by apply net_desc_ok_len. }
  intros r m3 [Ht3 Hr]. wp_step. simpl.
  assert ((Z.of_nat (length lf) <? nvc_capacity src) = true) as Htrue by lia.
  rewrite Htrue in Hr. destruct Hr as [_ Hlf3]. split_and?; [done| |done].
  eapply net_list_frame; [exact Ht3|not_in_list|]. by apply Hkeep; [left|].
Qed.

Lemma net_recycled_snoc la j tx :
  la !! j = Some tx ->
  net_recycled (take (S j) la) =
  net_recycled (take j la) ++ (if net_tx_wf tx then [net_desc_with_len tx 0] else []).
Proof.
  intros Hj. unfold net_recycled. rewrite (take_S_r _ _ tx) by done.
  rewrite bind_app. simpl. by rewrite app_nil_r.
Qed.

Lemma length_net_recycled la : (length (net_recycled la) <= length la)%nat.
Proof.
  unfold net_recycled. induction la as [|tx la IH]; csimpl; [done|].
  rewrite length_app. destruct (net_tx_wf tx); simpl; lia.
Qed.

(** The transmit queues of client [k] while another client's round runs. *)
Lemma net_list_round v m m' i k c src cap p l :
  net_virt_ok m v -> net_layout_disjoint v -> i <> k ->
  0 <= i < nv_num_clients v -> 0 <= k < nv_num_clients v ->
  aget (nv_clients v) i = Some c -> aget (nv_clients v) k = Some src ->
  p = nvc_tx_active src \/ p = nvc_tx_free src ->
  net_touch (net_tx_queues_of c ++ net_pump_rx_queues v) (net_pump_regions v) m m' ->
  net_list cap m p l -> net_list cap m' p l.
Proof.
  intros Hv Hd Hik Hi Hk Hc Hsrc Hp Ht. eapply net_list_frame; [exact Ht|].
  rewrite not_elem_of_app. split; [|by eapply net_tx_not_rx].
  destruct Hd as [Hd _]. destruct (Hd k i src c) as [HQ _]; try done. intros Hin.
  apply (HQ p); [destruct Hp; subst p; in_list|].
  revert Hin. unfold net_tx_queues_of, net_queues_of. rewrite !elem_of_cons. tauto.
Qed.

(** All rounds of the client that owns the queues. *)
Lemma wp_pump_client_drain m v k src fwd la lf :
  net_mem_ok m -> net_virt_ok m v -> net_layout_disjoint v ->
  0 <= k < nv_num_clients v -> aget (nv_clients v) k = Some src ->
  (nvc_capacity src | 2 ^ 16) ->
  net_list (nvc_capacity src) m (nvc_tx_active src) la ->
  net_list (nvc_capacity src) m (nvc_tx_free src) lf ->
  Z.of_nat (length la + length lf) <= nvc_capacity src ->
  wp (for_loop (Z.to_nat (nvc_capacity src)) 0 fwd (fun _ fwd => pump_one v k src fwd))
     (fun _ m' => net_list (nvc_capacity src) m' (nvc_tx_active src) [] /\
        net_list (nvc_capacity src) m' (nvc_tx_free src) (lf ++ net_recycled la)) m.
Proof.
  intros Hm Hv Hd Hk Hsrc Hdiv Hla Hlf Hroom.
  destruct (net_attached_get m v k src) as [Hin [Hcap _]]; [done..|].
  apply wp_for with (Inv := fun j _ m' =>
    net_touch (net_pump_queues v) (net_pump_regions v) m m' /\
    net_list (nvc_capacity src) m' (nvc_tx_active src) (drop (Z.to_nat j) la) /\
    net_list (nvc_capacity src) m' (nvc_tx_free src) (lf ++ net_recycled (take (Z.to_nat j) la))).
  - split; [by apply net_touch_refl|]. rewrite drop_0, take_0, app_nil_r. done.
  - intros j f m1 Hj (Ht1&Ha1&Hf1). pose proof (net_touch_virt _ _ _ _ _ Ht1 Hv) as Hv1.
    eapply wp_mono.
    { apply wp_and; [apply wp_pump_one; [apply Ht1|done|done]|].
      apply (wp_pump_one_drain m1 v k src f (drop (Z.to_nat j) la)); try done; [apply Ht1|].
      destruct (decide (drop (Z.to_nat j) la = [])) as [|Hne]; [by right|left].
      pose proof (length_net_recycled (take (Z.to_nat j) la)) as Hrl.
      assert (length (drop (Z.to_nat j) la) <> 0%nat) by (by rewrite length_zero_iff_nil).
      rewrite length_take in Hrl. rewrite length_drop in *. rewrite length_app. lia. }
    intros [c f'] m2 [[Ht2%(net_touch_round v src _ _ Hin) _] Hout]. simpl in *.
    destruct (drop (Z.to_nat j) la) as [|tx la'] eqn:Hdr.
    + destruct Hout as [-> ->]. assert (take (Z.to_nat j) la = la) as Htk.
      { apply take_ge. apply (f_equal length) in Hdr. rewrite length_drop in Hdr. simpl in Hdr. lia. }
      by rewrite Htk in Hf1.
    + destruct Hout as (->&Ha2&Hf2).
      assert (la !! Z.to_nat j = Some tx) as Hlk by (by rewrite <- (Nat.add_0_r (Z.to_nat j)), <- lookup_drop, Hdr).
      replace (Z.to_nat (j + 1)) with (S (Z.to_nat j)) by lia.
      split_and?; [by eapply net_touch_trans| |].
      * by rewrite (drop_S _ _ _ Hlk) in Hdr; injection Hdr as ->.
      * by rewrite (net_recycled_snoc la _ tx), app_assoc.
  - intros f m1 (_&Ha1&Hf1). rewrite drop_ge in Ha1 by lia. rewrite take_ge in Hf1 by lia. done.
Qed.

Lemma wp_pump_client_touch m v k src fwd :
  net_mem_ok m -> net_virt_ok m v -> src ∈ net_attached v ->
  wp (for_loop (Z.to_nat (nvc_capacity src)) 0 fwd (fun _ fwd => pump_one v k src fwd))
     (fun _ m' => net_touch (net_tx_queues_of src ++ net_pump_rx_queues v) (net_pump_regions v) m m') m.
Proof.
  intros Hm Hv Hin. apply wp_for with (Inv := fun _ _ m' =>
    net_touch (net_tx_queues_of src ++ net_pump_rx_queues v) (net_pump_regions v) m m');
    [by apply net_touch_refl| |done].
  intros j f m1 _ Ht1. eapply wp_mono.
  { apply wp_pump_one; [apply Ht1|by eapply net_touch_virt|done]. }
  intros [[] f'] m2 [Ht2 _]; by eapply net_touch_trans.
Qed.

Lemma wp_pump_drain m v k src la lf :
  net_mem_ok m -> net_virt_ok m v -> net_layout_disjoint v ->
  0 <= k < nv_num_clients v -> aget (nv_clients v) k = Some src ->
  (nvc_capacity src | 2 ^ 16) ->
  net_list (nvc_capacity src) m (nvc_tx_active src) la ->
  net_list (nvc_capacity src) m (nvc_tx_free src) lf ->
  Z.of_nat (length la + length lf) <= nvc_capacity src ->
  wp (aos_net_virt_pump v) (fun _ m' =>
    net_list (nvc_capacity src) m' (nvc_tx_active src) [] /\
    net_list (nvc_capacity src) m' (nvc_tx_free src) (lf ++ net_recycled la)) m.
Proof.
  intros Hm Hv Hd Hk Hsrc Hdiv Hla Hlf Hroom. pose proof Hv as (Hn&Hl&_).
  unfold aos_net_virt_pump. assert ((nv_num_clients v =? 0) = false) as -> by lia.
  apply wp_for with (Inv := fun i _ m' =>
    net_touch (net_pump_queues v) (net_pump_regions v) m m' /\
    net_list (nvc_capacity src) m' (nvc_tx_active src) (if i <=? k then la else []) /\
    net_list (nvc_capacity src) m' (nvc_tx_free src) (if i <=? k then lf else lf ++ net_recycled la)).
  - assert ((0 <=? k) = true) as -> by lia. split; [by apply net_touch_refl|done].
  - intros i f m1 Hi (Ht1&Ha1&Hf1). pose proof (net_touch_virt _ _ _ _ _ Ht1 Hv) as Hv1.
    destruct (aget_lt (nv_clients v) i) as [c Hc]; [lia|].
    destruct (net_attached_get m v i c) as [Hcin _]; [done|lia|done|].
    wp_step. eapply wp_lift; [done|]. wp_step.
    destruct (decide (i = k)) as [->|Hik].
    + rewrite Hsrc in Hc. injection Hc as <-. rewrite Z.leb_refl in Ha1, Hf1.
      eapply wp_mono.
      { apply wp_and; [by apply wp_pump_client_touch; [apply Ht1|done|done]|].
        apply (wp_pump_client_drain m1 v k src f la lf); try done. apply Ht1. }
      intros f' m2 [Ht2%(net_touch_round v src _ _ Hcin) [??]]. wp_step. simpl.
      assert ((k + 1 <=? k) = false) as -> by lia. split; [by eapply net_touch_trans|done].
    + eapply wp_mono; [by apply wp_pump_client_touch; [apply Ht1|done|done]|].
      intros f' m2 Ht2. wp_step. simpl.
      assert ((i + 1 <=? k) = (i <=? k)) as -> by lia.
      split_and?.
      * eapply net_touch_trans; [exact Ht1|]. by apply (net_touch_round v c).
      * eapply (net_list_round v m1 m2 i k c src); eauto. lia.
      * eapply (net_list_round v m1 m2 i k c src); eauto. lia.
  - intros f m1 (_&Ha1&Hf1).
    assert ((0 + Z.of_nat (Z.to_nat (nv_num_clients v)) <=? k) = false) as Hfalse
      by (apply Z.leb_gt; lia).
    by rewrite Hfalse in Ha1, Hf1.
Qed.

(** ** Lemmas: the registry *)

Lemma aget_app_length {A} (l1 l2 : list A) x i :
  i = Z.of_nat (length l1) -> aget (l1 ++ x :: l2) i = Some x.
Proof.
  intros ->. apply aget_Some. rewrite Nat2Z.id. split; [lia|]. by apply list_lookup_middle.
Qed.

Lemma aset_app_length {A} (l1 l2 : list A) x y i :
  i = Z.of_nat (length l1) -> aset (l1 ++ x :: l2) i y = Some (l1 ++ y :: l2).
Proof.
  intros ->. rewrite aset_Some by (rewrite length_app; simpl; lia).
  rewrite Nat2Z.id. f_equal. rewrite insert_app_r_alt by lia. by rewrite Nat.sub_diag.
Qed.

Lemma virt_store_run l1 l2 x y i n :
  i = Z.of_nat (length l1) ->
  virt_store_client i y {| nv_clients := l1 ++ x :: l2; nv_num_clients := n |} =
  Some (tt, {| nv_clients := l1 ++ y :: l2; nv_num_clients := n |}).
Proof.
  intros Hi. unfold virt_store_client, mbind, prog_bind, get_state, lift. simpl.
  by rewrite aset_app_length.
Qed.

(** The shifting loop moves [todo] one slot down. *)
Lemma virt_shift_run todo : forall pre x post n,
  exists z, for_loop (length todo) (Z.of_nat (length pre) + 1) tt (fun j _ =>
      v ← get_state; c ← lift (aget (nv_clients v) j);
      virt_store_client (j - 1) c;; mret (Continue, tt))
    {| nv_clients := pre ++ x :: todo ++ post; nv_num_clients := n |} =
  Some (tt, {| nv_clients := pre ++ todo ++ z :: post; nv_num_clients := n |}).
Proof.
  induction todo as [|y todo IH]; intros pre x post n; [by exists x|].
  destruct (IH (pre ++ [y]) y post n) as [z Hz]. exists z.
  rewrite length_app, Nat2Z.inj_add in Hz. simpl in Hz. rewrite <- !app_assoc in Hz. simpl in Hz.
  assert (aget (pre ++ x :: (y :: todo) ++ post) (Z.of_nat (length pre) + 1) = Some y) as Hy.
  { replace (pre ++ x :: (y :: todo) ++ post) with ((pre ++ [x]) ++ y :: (todo ++ post))
      by (by rewrite <- app_assoc).
    apply aget_app_length. rewrite length_app. simpl. lia. }
  cbn [length for_loop].
  rewrite (run_bind _ _ _ (Continue, tt)
    {| nv_clients := pre ++ y :: y :: todo ++ post; nv_num_clients := n |}); [exact Hz|].
  rewrite run_get, (run_lift _ _ _ y) by done.
  erewrite run_bind; [done|]. apply virt_store_run. lia.
Qed.

Lemma virt_drop_run pre x todo post :
  virt_drop_client (Z.of_nat (length pre))
    {| nv_clients := pre ++ x :: todo ++ post;
       nv_num_clients := Z.of_nat (length pre + S (length todo)) |} =
  Some (tt, {| nv_clients := pre ++ todo ++ net_client_zero :: post;
               nv_num_clients := Z.of_nat (length pre + length todo) |}).
Proof.
  set (n := Z.of_nat (length pre + S (length todo))).
  destruct (virt_shift_run todo pre x post n) as [z Hz].
  unfold virt_drop_client. rewrite run_get. cbn [nv_num_clients].
  replace (Z.to_nat (n - (Z.of_nat (length pre) + 1))) with (length todo) by lia.
  rewrite (run_bind _ _ _ _ _ Hz), run_get, run_put. cbn [nv_num_clients nv_clients].
  rewrite app_assoc, virt_store_run by (rewrite length_app; lia).
  by replace (n - 1) with (Z.of_nat (length pre + length todo)) by lia; rewrite <- app_assoc.
Qed.

(** The scan: [pre] was kept, [todo] is still to be looked at. *)
Lemma virt_scan_run key todo : forall pre z rest fuel,
  (length todo <= fuel)%nat ->
  virt_remove_scan fuel key (Z.of_nat (length pre))
    {| nv_clients := pre ++ todo ++ replicate z net_client_zero ++ rest;
       nv_num_clients := Z.of_nat (length pre + length todo) |} =
  let kept := filter (fun c => nvc_tx_active c <> key) todo in
  Some (tt, {| nv_clients := pre ++ kept ++
                 replicate (length todo - length kept + z) net_client_zero ++ rest;
               nv_num_clients := Z.of_nat (length pre + length kept) |}).
Proof.
  induction todo as [|x todo IH]; intros pre z rest fuel Hf.
  - destruct fuel; [done|]. cbn [virt_remove_scan]. rewrite run_get. simpl.
    rewrite Nat.add_0_r, Z.ltb_irrefl. done.
  - destruct fuel as [|fuel]; [simpl in Hf; lia|]. simpl in Hf. cbn [virt_remove_scan].
    rewrite run_get. cbn [nv_num_clients nv_clients].
    assert ((Z.of_nat (length pre) <? Z.of_nat (length pre + length (x :: todo))) = true) as ->
      by (apply Z.ltb_lt; cbn [length]; lia).
    rewrite (run_lift _ _ _ x) by (by apply aget_app_length). rewrite filter_cons.
    destruct (Z.eqb_spec (nvc_tx_active x) key) as [Hk|Hk]; simpl.
    + rewrite decide_False by (intros Hne; by apply Hne).
      erewrite run_bind; [|apply virt_drop_run].
      replace (net_client_zero :: replicate z net_client_zero ++ rest)
        with (replicate (S z) net_client_zero ++ rest) by done.
      rewrite IH by lia. cbn zeta. do 5 f_equal.
      pose proof (length_filter (fun c => nvc_tx_active c <> key) todo). do 2 f_equal. lia.
    + rewrite decide_True by done.
      replace (Z.of_nat (length pre) + 1) with (Z.of_nat (length (pre ++ [x])))
        by (rewrite length_app; simpl; lia).
      replace (pre ++ x :: todo ++ replicate z net_client_zero ++ rest)
        with ((pre ++ [x]) ++ todo ++ replicate z net_client_zero ++ rest)
        by (by rewrite <- app_assoc).
      replace (length pre + S (length todo))%nat with (length (pre ++ [x]) + length todo)%nat
        by (rewrite length_app; simpl; lia).
      rewrite IH by lia. cbn zeta. rewrite <- app_assoc, length_app. simpl.
      do 3 f_equal. lia.
Qed.

(** ** Lemmas: the root task's layout *)

(** Client [i] of [v] is bound to stride [i] of the shared region. *)
Definition net_bound_at (region : Z) (v : aos_net_virt) : Prop :=
  forall i c, 0 <= i < nv_num_clients v -> aget (nv_clients v) i = Some c ->
    c = aos_net_client_bind region i net_client_zero.

Lemma net_bind_eq region i :
  0 < region -> 0 <= i < AOS_NET_MAX_CLIENTS ->
  aos_net_client_bind region i net_client_zero =
  {| nvc_rx_free := region + i * 0x200000;
     nvc_rx_active := region + i * 0x200000 + 0x1000;
     nvc_tx_free := region + i * 0x200000 + 0x2000;
     nvc_tx_active := region + i * 0x200000 + 0x3000;
     nvc_rx_data := region + i * 0x200000 + 0x4000;
     nvc_tx_data := region + i * 0x200000 + 0x14000;
     nvc_capacity := 32 |}.
Proof.
  intros Hr Hi. unfold aos_net_client_bind.
  assert ((region =? NULL) || (AOS_NET_MAX_CLIENTS <=? i) = false) as -> by (unfold NULL; lia).
  unfold AOS_NET_CLIENT_STRIDE, AOS_NET_RX_FREE_OFF. by rewrite Z.add_0_r.
Qed.

Lemma net_attached_index v c :
  c ∈ net_attached v -> exists i, 0 <= i < nv_num_clients v /\ aget (nv_clients v) i = Some c.
Proof.
  intros [i [Hi Hn]%lookup_take_Some]%list_elem_of_lookup. exists (Z.of_nat i).
  rewrite aget_Some, Nat2Z.id. split; [lia|]. split; [lia|done].
Qed.

(** Strides of [aos_net_client_bind] overlap in nothing. *)
Lemma net_bound_disjoint region v :
  0 < region -> nv_num_clients v <= AOS_NET_MAX_CLIENTS -> net_bound_at region v ->
  net_layout_disjoint v /\
  forall c c', c ∈ net_attached v -> c' ∈ net_attached v -> nvc_rx_data c <> nvc_tx_data c'.
Proof.
  intros Hr Hn Hb. split; [split|].
  - intros i j ci cj Hij Hi Hj Hci Hcj. apply Hb in Hci, Hcj; [|done..]. subst ci cj.
    rewrite !net_bind_eq by lia. unfold net_queues_of. simpl. split; [|lia].
    intros p. rewrite !elem_of_cons, !elem_of_nil. lia.
  - intros c (i&Hi&Hc)%net_attached_index. apply Hb in Hc; [|done]. subst c.
    rewrite net_bind_eq by lia. unfold net_queues_of. simpl.
    rewrite !NoDup_cons, !not_elem_of_cons.
    split_and?; try lia; apply not_elem_of_nil || apply NoDup_nil_2.
  - intros c c' (i&Hi&Hc)%net_attached_index (j&Hj&Hc')%net_attached_index.
    apply Hb in Hc, Hc'; [|done..]. subst c c'. rewrite !net_bind_eq by lia. simpl. lia.
Qed.

(** ** Two clients, one of them with a frame to send *)

Definition net_demo_region : Z := 0x26000000.
Definition net_demo_client (i : Z) : aos_net_virt_client :=
  aos_net_client_bind net_demo_region i net_client_zero.
Definition net_demo_virt : aos_net_virt :=
  {| nv_clients := [net_demo_client 0; net_demo_client 1; net_client_zero; net_client_zero];
     nv_num_clients := 2 |}.
Definition net_demo_frame : aos_net_buff_desc :=
  {| nbd_io_or_offset := 2048; nbd_len := 3; nbd_pad0 := 0; nbd_pad1 := 0 |}.
Definition net_demo_holding (l : list aos_net_buff_desc) : aos_net_queue :=
  {| nq_tail := Z.of_nat (length l); nq_head := 0; nq_consumer_signalled := 0;
     nq_buffers := l ++ replicate (32 - length l) net_desc_zero |}.

(** Both clients offer receive buffer 0; client 0 has queued a 3-byte frame
    in its transmit buffer 1 and a malformed descriptor behind it. *)
Definition net_demo_mem : net_mem :=
  {| nm_queues := list_to_map
       [(nvc_rx_free (net_demo_client 0), net_demo_holding [net_desc_zero]);
        (nvc_rx_active (net_demo_client 0), net_demo_holding []);
        (nvc_tx_free (net_demo_client 0), net_demo_holding [net_desc_zero]);
        (nvc_tx_active (net_demo_client 0),
          net_demo_holding [net_demo_frame; net_desc_with_len net_demo_frame 4000]);
        (nvc_rx_free (net_demo_client 1), net_demo_holding [net_desc_zero]);
        (nvc_rx_active (net_demo_client 1), net_demo_holding []);
        (nvc_tx_free (net_demo_client 1), net_demo_holding []);
        (nvc_tx_active (net_demo_client 1), net_demo_holding [])];
     nm_bytes :=
       <[nvc_rx_data (net_demo_client 0) := replicate (Z.to_nat 65536) 0]>
       (<[nvc_tx_data (net_demo_client 0) := replicate (Z.to_nat 65536) 7]>
       (<[nvc_rx_data (net_demo_client 1) := replicate (Z.to_nat 65536) 0]>
       {[nvc_tx_data (net_demo_client 1) := replicate (Z.to_nat 65536) 0]})) |}.

Lemma net_demo_mem_ok : net_mem_ok net_demo_mem.
Proof.
  split; [by_compute|].
  unfold net_demo_mem. cbn [nm_bytes].
  repeat (apply map_Forall_insert_2; [by rewrite length_replicate, Z2Nat.id|]).
  apply map_Forall_empty.
Qed.

Lemma net_demo_tx_data :
  nm_bytes net_demo_mem !! nvc_tx_data (net_demo_client 0) = Some (replicate (Z.to_nat 65536) 7).
Proof. unfold net_demo_mem. cbn [nm_bytes]. by rewrite lookup_insert_ne, lookup_insert_eq. Qed.

Lemma net_demo_bound : net_bound_at net_demo_region net_demo_virt.
Proof.
  intros i c Hi [_ Hc]%aget_Some. simpl in Hi.
  assert (i = 0 \/ i = 1) as [-> | ->] by lia; by injection Hc as <-.
Qed.

Lemma net_demo_disjoint : net_layout_disjoint net_demo_virt.
Proof. by eapply net_bound_disjoint, net_demo_bound. Qed.

Lemma net_demo_virt_ok : net_virt_ok net_demo_mem net_demo_virt.
Proof.
  split_and!; try done; [|by eapply net_bound_disjoint, net_demo_bound].
  intros c (i&Hi&[_ Hc]%aget_Some)%net_attached_index. simpl in Hi.
  assert (i = 0 \/ i = 1) as [-> | ->] by lia; injection Hc as <-; split_and!; try done.
  all: try by repeat constructor.
  all: unfold net_demo_mem; cbn [nm_bytes]; rewrite ?lookup_insert_is_Some', ?lookup_singleton_is_Some; tauto.
Qed.

(** ** Properties *)

(** The demonstration queues hold what they were built with. *)
Ltac net_demo_list :=
  eexists; split; [vm_compute; reflexivity|];
  split; [split; [by_compute|vm_compute; discriminate]|vm_compute; reflexivity].

Lemma net_demo_can_receive : net_can_receive net_demo_mem (net_demo_client 1) 3.
Proof.
  split; [by exists 2048|]. exists net_desc_zero, [], [].
  split_and!; [net_demo_list|net_demo_list|reflexivity|vm_compute; reflexivity].
Qed.

(** C2. Whatever the clients wrote into their queues, one pump returns: no
    index, descriptor or length they supply makes it read or write outside
    the mapped queue pages and data regions. It changes only queues of the
    attached clients and their receive regions (never a transmit region),
    keeps the shared memory well formed, and reports at most one forwarded
    frame per transmit slot. *)
Theorem net_pump_confined m v :
  net_mem_ok m -> net_virt_ok m v ->
  exists n m', aos_net_virt_pump v m = Some (n, m') /\
    net_mem_ok m' /\ net_virt_ok m' v /\ 0 <= n <= net_pump_budget v /\
    (forall p, p ∉ net_pump_queues v -> nm_queues m' !! p = nm_queues m !! p) /\
    (forall b, b ∉ net_pump_regions v -> nm_bytes m' !! b = nm_bytes m !! b) /\
    (forall c, c ∈ net_attached v ->
       nm_bytes m' !! nvc_tx_data c = nm_bytes m !! nvc_tx_data c).
Proof.
  intros Hm Hv. destruct (wp_run _ _ _ (wp_pump m v Hm Hv)) as (n&m'&Hrun&Ht&Hn).
  pose proof Ht as (Hm'&_&HQ&_&HB). exists n, m'. split_and?; try done; [|lia..|].
  - by eapply net_touch_virt.
  - intros c Hc. apply HB. intros (c'&Heq&Hc')%list_elem_of_fmap.
    destruct Hv as (_&_&_&Hne). by apply (Hne c' c).
Qed.

Lemma net_pump_confined_witness :
  exists n m', aos_net_virt_pump net_demo_virt net_demo_mem = Some (n, m') /\
    net_mem_ok m' /\ 0 <= n <= 64 /\
    nm_bytes m' !! nvc_tx_data (net_demo_client 0) =
    nm_bytes net_demo_mem !! nvc_tx_data (net_demo_client 0).
Proof.
  destruct (net_pump_confined net_demo_mem net_demo_virt net_demo_mem_ok net_demo_virt_ok)
    as (n&m'&Hrun&Hm&_&Hn&_&_&Htx).
  exists n, m'. split_and!; [exact Hrun|exact Hm|apply Hn|apply Hn|].
  apply Htx. apply list_elem_of_here.
Defined.

(** C3. The hub reaches everyone else. With two or more attached clients, the
    delivery of a frame succeeds for every other client that has a usable
    free buffer and a free receive slot: that client's oldest free buffer
    holds the frame's bytes (and no other byte of its region changed), stands
    at the end of its receive queue with the frame's length, and left its
    free queue. The sender's own queues and regions are not touched, and the
    frame counts as forwarded as soon as one client received it. *)
Theorem net_hub_delivers m v src_i src soff len sd :
  net_mem_ok m -> net_virt_ok m v -> net_layout_disjoint v -> 2 <= nv_num_clients v ->
  0 <= src_i < nv_num_clients v -> aget (nv_clients v) src_i = Some src ->
  nm_bytes m !! nvc_tx_data src = Some sd ->
  0 <= soff -> is_u16 len -> soff + len <= AOS_NET_RX_DATA_BYTES ->
  exists b m', deliver_all v src_i src soff len m = Some (b, m') /\
    net_same_client m m' src /\
    forall j dst, 0 <= j < nv_num_clients v -> j <> src_i -> aget (nv_clients v) j = Some dst ->
      net_can_receive m dst len ->
      net_received m m' dst (aslice sd soff len) len /\ b = true.
Proof.
  intros Hm Hv Hd Hn Hi Hsrc Hsd Hso Hlen Hin. apply wp_run.
  unfold deliver_all. assert ((nv_num_clients v =? 1) = false) as -> by lia.
  apply wp_for with (Inv := hub_inv v src_i len (aslice sd soff len) m).
  - split; [by apply net_touch_refl|]. intros j c Hj Hc.
    assert ((j <? 0) = false) as -> by lia. by split_and!.
  - intros i b m1 Hi1 Hinv. wp_step.
    + wp_step. simpl. assert (i = src_i) as -> by lia. destruct Hinv as [Ht Hinv]. split; [done|].
      intros j c Hj Hc. specialize (Hinv j c Hj Hc).
      replace ((j <? src_i + 1) && negb (j =? src_i)) with ((j <? src_i) && negb (j =? src_i)) by lia.
      done.
    + eapply wp_mono; [eapply hub_step; try done; lia|].
      intros [c b'] m2 [-> Hinv']. done.
  - intros b m1 [_ Hinv]. rewrite Z.add_0_l, Z2Nat.id in Hinv by lia. split.
    + specialize (Hinv src_i src Hi Hsrc). by rewrite Z.eqb_refl, andb_false_r in Hinv.
    + intros j dst Hj Hne Hdst. specialize (Hinv j dst Hj Hdst).
      assert ((j <? nv_num_clients v) && negb (j =? src_i) = true) as Htrue by lia.
      by rewrite Htrue in Hinv.
Qed.

Lemma net_hub_delivers_witness :
  exists b m', deliver_all net_demo_virt 0 (net_demo_client 0) 2048 3 net_demo_mem = Some (b, m') /\
    net_same_client net_demo_mem m' (net_demo_client 0) /\
    net_received net_demo_mem m' (net_demo_client 1) [7; 7; 7] 3 /\ b = true.
Proof.
  destruct (net_hub_delivers net_demo_mem net_demo_virt 0 (net_demo_client 0) 2048 3
    (replicate (Z.to_nat 65536) 7)) as (b&m'&Hrun&Hsame&Hrcv).
  - exact net_demo_mem_ok.
  - exact net_demo_virt_ok.
  - exact net_demo_disjoint.
  - done.
  - done.
  - done.
  - exact net_demo_tx_data.
  - done.
  - by_compute.
  - done.
  - destruct (Hrcv 1 (net_demo_client 1)) as [Hr Hb];
      [split; by_compute|discriminate|reflexivity|exact net_demo_can_receive|].
    exists b, m'. split_and?; [exact Hrun|exact Hsame| |exact Hb].
    rewrite aslice_replicate in Hr by lia. exact Hr.
Defined.

(** C4. Transmit buffers come back. One pump empties an attached client's
    transmit queue and appends every well-formed descriptor it held to the
    client's free queue, in order and with length zero, whatever happens to
    the frames themselves; only malformed descriptors are withheld. It holds
    for every client whose buffers fit its free queue, as the 32 buffers of
    the layout do. *)
Theorem net_pump_recycles_tx m v k src la lf :
  net_mem_ok m -> net_virt_ok m v -> net_layout_disjoint v ->
  0 <= k < nv_num_clients v -> aget (nv_clients v) k = Some src ->
  (nvc_capacity src | 2 ^ 16) ->
  net_list (nvc_capacity src) m (nvc_tx_active src) la ->
  net_list (nvc_capacity src) m (nvc_tx_free src) lf ->
  Z.of_nat (length la + length lf) <= nvc_capacity src ->
  exists n m', aos_net_virt_pump v m = Some (n, m') /\
    net_list (nvc_capacity src) m' (nvc_tx_active src) [] /\
    net_list (nvc_capacity src) m' (nvc_tx_free src) (lf ++ net_recycled la).
Proof. intros. by eapply wp_run, wp_pump_drain. Qed.

Lemma net_pump_recycles_tx_witness :
  exists n m', aos_net_virt_pump net_demo_virt net_demo_mem = Some (n, m') /\
    net_list 32 m' (nvc_tx_active (net_demo_client 0)) [] /\
    net_list 32 m' (nvc_tx_free (net_demo_client 0))
      [net_desc_zero; net_desc_with_len net_demo_frame 0].
Proof.
  apply (net_pump_recycles_tx net_demo_mem net_demo_virt 0 (net_demo_client 0)
    [net_demo_frame; net_desc_with_len net_demo_frame 4000] [net_desc_zero]).
  - exact net_demo_mem_ok.
  - exact net_demo_virt_ok.
  - exact net_demo_disjoint.
  - done.
  - done.
  - by exists 2048.
  - net_demo_list.
  - net_demo_list.
  - vm_compute. discriminate.
Defined.

(** Detaching a client forgets it completely and nothing else: every
    registry entry with its transmit queue is gone, the other clients keep
    their order, the vacated entries are cleared, and the count is exact. *)
Theorem net_remove_client_exact v c :
  nvc_tx_active c <> NULL -> 0 <= nv_num_clients v <= AOS_NET_MAX_CLIENTS ->
  Z.of_nat (length (nv_clients v)) = AOS_NET_MAX_CLIENTS ->
  let live := take (Z.to_nat (nv_num_clients v)) (nv_clients v) in
  let kept := filter (fun x => nvc_tx_active x <> nvc_tx_active c) live in
  aos_net_virt_remove_client c v =
  Some (0, {| nv_clients := kept ++ replicate (length live - length kept) net_client_zero ++
                drop (Z.to_nat (nv_num_clients v)) (nv_clients v);
              nv_num_clients := Z.of_nat (length kept) |}).
Proof.
  intros Hc Hn Hl live kept. unfold aos_net_virt_remove_client. rewrite run_get.
  assert ((nvc_tx_active c =? NULL) || (AOS_NET_MAX_CLIENTS <? nv_num_clients v) = false) as -> by lia.
  assert (length live = Z.to_nat (nv_num_clients v)) as Hlive
    by (subst live; rewrite length_take; lia).
  pose proof (virt_scan_run (nvc_tx_active c) live [] 0
    (drop (Z.to_nat (nv_num_clients v)) (nv_clients v)) (Z.to_nat (nv_num_clients v))
    ltac:(lia)) as Hscan.
  simpl in Hscan. rewrite Nat.add_0_r in Hscan.
  assert ({| nv_clients := live ++ drop (Z.to_nat (nv_num_clients v)) (nv_clients v);
             nv_num_clients := Z.of_nat (length live) |} = v) as Hv.
  { destruct v as [cl n]. simpl in *. subst live. rewrite take_drop. f_equal. lia. }
  rewrite Hv in Hscan. by rewrite (run_bind _ _ _ _ _ Hscan).
Qed.

Lemma net_remove_client_exact_witness :
  aos_net_virt_remove_client (net_demo_client 0) net_demo_virt =
  Some (0, {| nv_clients := [net_demo_client 1; net_client_zero; net_client_zero; net_client_zero];
              nv_num_clients := 1 |}).
Proof.
  rewrite (net_remove_client_exact net_demo_virt (net_demo_client 0)) by (vm_compute; (done || split; discriminate)).
  reflexivity.
Defined.
