(* ===== verification/BlkQueue.v ===== *)
(** * Block queues and clients

    The block virtualizer's shared-memory ABI (platform/blk_layout.h), its
    ring operations and its client-side helpers (blk-virt/blk_virt_pump.c,
    platform/blk_virt_pump.h). A pointer is an address; the objects a client
    shares with the virtualizer are maps from addresses, one per C type. The
    rings instantiate the theory of [Ring] with 32-bit indices. *)

From S2P Require Import Prelude Ring Bytes.

(** ** Layout (blk_layout.h) *)

Definition AOS_BLK_TRANSFER_SIZE : Z := 4096.
Definition AOS_BLK_SECTOR_SIZE : Z := 512.
Definition AOS_BLK_QUEUE_CAPACITY : Z := 128.
Definition AOS_BLK_MAX_CLIENTS : Z := 2.
Definition AOS_BLK_GUEST_MAX_SEGMENT_SIZE : Z := 0x100000.
Definition AOS_BLK_DATA_CELLS : Z := AOS_BLK_GUEST_MAX_SEGMENT_SIZE / AOS_BLK_TRANSFER_SIZE + 1.
Definition AOS_BLK_DATA_BYTES : Z := AOS_BLK_DATA_CELLS * AOS_BLK_TRANSFER_SIZE.
Definition AOS_BLK_CLIENT_STRIDE : Z := 0x200000.
Definition AOS_BLK_CLIENT_BASE : Z := Z.shiftl 1 21.
Definition AOS_BLK_STORAGE_INFO_OFF : Z := 0x0000.
Definition AOS_BLK_SIGNAL_OFF : Z := 0x0800.
Definition AOS_BLK_REQ_QUEUE_OFF : Z := 0x1000.
Definition AOS_BLK_RESP_QUEUE_OFF : Z := 0x3000.
Definition AOS_BLK_DATA_OFF : Z := 0x5000.
Definition AOS_BLK_MAX_SERIAL : Z := 63.

(** Request codes; a client can put any other 32-bit value in their place. *)
Definition AOS_BLK_REQ_READ : Z := 0.
Definition AOS_BLK_REQ_WRITE : Z := 1.
Definition AOS_BLK_REQ_FLUSH : Z := 2.
Definition AOS_BLK_REQ_BARRIER : Z := 3.

Definition AOS_BLK_RESP_OK : Z := 0.
Definition AOS_BLK_RESP_ERR_UNSPEC : Z := 1.
Definition AOS_BLK_RESP_ERR_INVALID_PARAM : Z := 2.
Definition AOS_BLK_RESP_ERR_IO : Z := 3.
Definition AOS_BLK_RESP_ERR_NO_DEVICE : Z := 4.

Record aos_blk_req := {
  br_code : Z;
  br_io_or_offset : Z;
  br_block_number : Z;
  br_count : Z;
  br_id : Z;
}.

Record aos_blk_resp := {
  bp_status : Z;
  bp_success_count : Z;
  bp_id : Z;
}.

Definition blk_req_zero : aos_blk_req :=
  {| br_code := 0; br_io_or_offset := 0; br_block_number := 0; br_count := 0; br_id := 0 |}.
Definition blk_resp_zero : aos_blk_resp := {| bp_status := 0; bp_success_count := 0; bp_id := 0 |}.
#[global] Instance blk_req_inhabited : Inhabited aos_blk_req := populate blk_req_zero.
#[global] Instance blk_resp_inhabited : Inhabited aos_blk_resp := populate blk_resp_zero.

Record aos_blk_req_queue := {
  brq_head : Z;
  brq_tail : Z;
  brq_plugged : bool;
  brq_buffers : list aos_blk_req;
}.

Record aos_blk_resp_queue := {
  bpq_head : Z;
  bpq_tail : Z;
  bpq_buffers : list aos_blk_resp;
}.

Record aos_blk_storage_info := {
  bsi_serial_number : list Z;
  bsi_read_only : bool;
  bsi_ready : bool;
  bsi_sector_size : Z;
  bsi_block_size : Z;
  bsi_queue_depth : Z;
  bsi_cylinders : Z;
  bsi_heads : Z;
  bsi_blocks : Z;
  bsi_capacity : Z;
}.

Record aos_blk_signal := {
  bsg_req_consumer_signalled : Z;
  bsg_reserved : Z;
}.

Record aos_blk_virt_client := {
  bvc_info : Z;
  bvc_signal : Z;
  bvc_req : Z;
  bvc_resp : Z;
  bvc_data : Z;
  bvc_capacity : Z;
  bvc_disk : Z;
  bvc_disk_blocks : Z;
  bvc_media_blocks : Z;
}.

Definition blk_client_zero : aos_blk_virt_client :=
  {| bvc_info := 0; bvc_signal := 0; bvc_req := 0; bvc_resp := 0; bvc_data := 0;
     bvc_capacity := 0; bvc_disk := 0; bvc_disk_blocks := 0; bvc_media_blocks := 0 |}.

(** ** Memory *)

Record blk_mem := {
  bm_info : gmap Z aos_blk_storage_info;
  bm_signal : gmap Z aos_blk_signal;
  bm_req : gmap Z aos_blk_req_queue;
  bm_resp : gmap Z aos_blk_resp_queue;
  bm_bytes : gmap Z (list Z);
}.

#[global, program] Instance blk_mem_bytes : ByteStore blk_mem := {|
  bytes_of := bm_bytes;
  set_bytes b m := {| bm_info := bm_info m; bm_signal := bm_signal m; bm_req := bm_req m;
                      bm_resp := bm_resp m; bm_bytes := b |};
|}.
Solve Obligations with by intros; repeat match goal with m : blk_mem |- _ => destruct m end.

Definition set_info (p : Z) (i : aos_blk_storage_info) (m : blk_mem) : blk_mem :=
  {| bm_info := <[p := i]> (bm_info m); bm_signal := bm_signal m; bm_req := bm_req m;
     bm_resp := bm_resp m; bm_bytes := bm_bytes m |}.
Definition set_signal (p : Z) (g : aos_blk_signal) (m : blk_mem) : blk_mem :=
  {| bm_info := bm_info m; bm_signal := <[p := g]> (bm_signal m); bm_req := bm_req m;
     bm_resp := bm_resp m; bm_bytes := bm_bytes m |}.
Definition set_req (p : Z) (q : aos_blk_req_queue) (m : blk_mem) : blk_mem :=
  {| bm_info := bm_info m; bm_signal := bm_signal m; bm_req := <[p := q]> (bm_req m);
     bm_resp := bm_resp m; bm_bytes := bm_bytes m |}.
Definition set_resp (p : Z) (q : aos_blk_resp_queue) (m : blk_mem) : blk_mem :=
  {| bm_info := bm_info m; bm_signal := bm_signal m; bm_req := bm_req m;
     bm_resp := <[p := q]> (bm_resp m); bm_bytes := bm_bytes m |}.

(** Access through a pointer: a fault when nothing of the type is there. *)
Definition load_info (p : Z) : prog blk_mem aos_blk_storage_info :=
  m ← get_state; lift (bm_info m !! p).
Definition load_signal (p : Z) : prog blk_mem aos_blk_signal :=
  m ← get_state; lift (bm_signal m !! p).
Definition load_req (p : Z) : prog blk_mem aos_blk_req_queue :=
  m ← get_state; lift (bm_req m !! p).
Definition load_resp (p : Z) : prog blk_mem aos_blk_resp_queue :=
  m ← get_state; lift (bm_resp m !! p).

(** ** Ring operations (blk_virt_pump.c) *)

Definition req_len (q : aos_blk_req_queue) : Z := u32 (brq_tail q - brq_head q).
Definition resp_len (q : aos_blk_resp_queue) : Z := u32 (bpq_tail q - bpq_head q).

Definition aos_blk_queue_req_length (p : Z) : prog blk_mem Z :=
  if p =? NULL then mret 0 else q ← load_req p; mret (req_len q).
Definition aos_blk_queue_resp_length (p : Z) : prog blk_mem Z :=
  if p =? NULL then mret 0 else q ← load_resp p; mret (resp_len q).

Definition aos_blk_queue_req_valid (p capacity : Z) : prog blk_mem bool :=
  if (p =? NULL) || (capacity =? 0) || (AOS_BLK_QUEUE_CAPACITY <? capacity) then mret false
  else q ← load_req p; mret (req_len q <=? capacity).
Definition aos_blk_queue_resp_valid (p capacity : Z) : prog blk_mem bool :=
  if (p =? NULL) || (capacity =? 0) || (AOS_BLK_QUEUE_CAPACITY <? capacity) then mret false
  else q ← load_resp p; mret (resp_len q <=? capacity).

Definition req_set_head (q : aos_blk_req_queue) (h : Z) : aos_blk_req_queue :=
  {| brq_head := h; brq_tail := brq_tail q; brq_plugged := brq_plugged q;
     brq_buffers := brq_buffers q |}.
Definition resp_set_head (q : aos_blk_resp_queue) (h : Z) : aos_blk_resp_queue :=
  {| bpq_head := h; bpq_tail := bpq_tail q; bpq_buffers := bpq_buffers q |}.

Definition reset_req_queue (p : Z) : prog blk_mem unit :=
  q ← load_req p; modify (set_req p (req_set_head q (brq_tail q))).
Definition reset_resp_queue (p : Z) : prog blk_mem unit :=
  q ← load_resp p; modify (set_resp p (resp_set_head q (bpq_tail q))).

Definition req_empty (p : Z) : prog blk_mem bool :=
  q ← load_req p; mret (req_len q =? 0).
Definition resp_full (p capacity : Z) : prog blk_mem bool :=
  q ← load_resp p; mret (capacity <=? resp_len q).

(** [None] is the source's [-1], [Some r] is [0] with [*out = r]. *)
Definition dequeue_req (p capacity : Z) : prog blk_mem (option aos_blk_req) :=
  valid ← aos_blk_queue_req_valid p capacity;
  if negb valid then mret None
  else
    empty ← req_empty p;
    if (empty : bool) then mret None
    else
      q ← load_req p;
      out ← lift (aget (brq_buffers q) (brq_head q mod capacity));
      modify (set_req p (req_set_head q (u32 (brq_head q + 1))));;
      mret (Some out).

Definition resp_push (q : aos_blk_resp_queue) (bufs : list aos_blk_resp) : aos_blk_resp_queue :=
  {| bpq_head := bpq_head q; bpq_tail := u32 (bpq_tail q + 1); bpq_buffers := bufs |}.

Definition enqueue_resp (p capacity : Z) (r : aos_blk_resp) : prog blk_mem Z :=
  valid ← aos_blk_queue_resp_valid p capacity;
  if negb valid then mret (-1)
  else
    full ← resp_full p capacity;
    if (full : bool) then mret (-1)
    else
      q ← load_resp p;
      bufs ← lift (aset (bpq_buffers q) (bpq_tail q mod capacity) r);
      modify (set_resp p (resp_push q bufs));;
      mret 0.

(** ** Client-side helpers *)

(** [out] after the call; the client is unchanged when an argument is bad. *)
Definition aos_blk_client_bind (region client_index : Z) (out : aos_blk_virt_client)
    : aos_blk_virt_client :=
  if (region =? NULL) || (AOS_BLK_MAX_CLIENTS <=? client_index) then out
  else
    let base := region + AOS_BLK_CLIENT_BASE + client_index * AOS_BLK_CLIENT_STRIDE in
    {| bvc_info := base + AOS_BLK_STORAGE_INFO_OFF;
       bvc_signal := base + AOS_BLK_SIGNAL_OFF;
       bvc_req := base + AOS_BLK_REQ_QUEUE_OFF;
       bvc_resp := base + AOS_BLK_RESP_QUEUE_OFF;
       bvc_data := base + AOS_BLK_DATA_OFF;
       bvc_capacity := AOS_BLK_QUEUE_CAPACITY;
       bvc_disk := bvc_disk out;
       bvc_disk_blocks := bvc_disk_blocks out;
       bvc_media_blocks := bvc_media_blocks out |}.

(** Every byte of the two queue pages and of the signal word becomes 0. *)
Definition aos_blk_client_init_queues (c : aos_blk_virt_client) : prog blk_mem unit :=
  if (bvc_req c =? NULL) || (bvc_resp c =? NULL) then mret tt
  else
    rq ← load_req (bvc_req c);
    modify (set_req (bvc_req c)
      {| brq_head := 0; brq_tail := 0; brq_plugged := false;
         brq_buffers := (fun _ => blk_req_zero) <$> brq_buffers rq |});;
    pq ← load_resp (bvc_resp c);
    modify (set_resp (bvc_resp c)
      {| bpq_head := 0; bpq_tail := 0;
         bpq_buffers := (fun _ => blk_resp_zero) <$> bpq_buffers pq |});;
    if bvc_signal c =? NULL then mret tt
    else
      load_signal (bvc_signal c);;
      modify (set_signal (bvc_signal c)
        {| bsg_req_consumer_signalled := 0; bsg_reserved := 0 |}).

(** ** Storage information *)

(** The characters of [aos-ram0] and its terminator. *)
Definition aos_blk_serial : list Z := [97; 111; 115; 45; 114; 97; 109; 48; 0].

Definition storage_serial : prog (list Z) unit :=
  for_loop (Z.to_nat AOS_BLK_MAX_SERIAL) 0 tt (fun i _ =>
    ch ← lift (aget aos_blk_serial i);
    if ch =? 0 then mret (Break, tt)
    else
      s ← get_state;
      s' ← lift (aset s i ch);
      put_state s';;
      mret (Continue, tt)).

Definition aos_blk_storage_init (p disk_blocks : Z) : prog blk_mem unit :=
  if p =? NULL then mret tt
  else
    load_info p;;
    serial ← lift (storage_serial (replicate (Z.to_nat (AOS_BLK_MAX_SERIAL + 1)) 0));
    modify (set_info p
      {| bsi_serial_number := snd serial; bsi_read_only := false; bsi_ready := true;
         bsi_sector_size := u16 AOS_BLK_SECTOR_SIZE; bsi_block_size := 1;
         bsi_queue_depth := u16 AOS_BLK_QUEUE_CAPACITY;
         bsi_cylinders := 0; bsi_heads := 0; bsi_blocks := 0; bsi_capacity := disk_blocks |}).

(** ** Well-formed memory

    Widths and array sizes; nothing is assumed of the values clients wrote. *)

Definition blk_req_ok (r : aos_blk_req) : Prop :=
  is_u32 (br_code r) /\ is_u64 (br_io_or_offset r) /\ is_u64 (br_block_number r) /\
  is_u16 (br_count r) /\ is_u32 (br_id r).
Definition blk_req_queue_ok (q : aos_blk_req_queue) : Prop :=
  is_u32 (brq_head q) /\ is_u32 (brq_tail q) /\
  AOS_BLK_QUEUE_CAPACITY <= Z.of_nat (length (brq_buffers q)) /\ Forall blk_req_ok (brq_buffers q).
Definition blk_resp_queue_ok (q : aos_blk_resp_queue) : Prop :=
  is_u32 (bpq_head q) /\ is_u32 (bpq_tail q) /\
  AOS_BLK_QUEUE_CAPACITY <= Z.of_nat (length (bpq_buffers q)).
Definition blk_mem_ok (m : blk_mem) : Prop :=
  map_Forall (fun _ q => blk_req_queue_ok q) (bm_req m) /\
  map_Forall (fun _ q => blk_resp_queue_ok q) (bm_resp m).

#[global] Instance blk_req_ok_dec r : Decision (blk_req_ok r).
Proof. unfold blk_req_ok. apply _. Defined.
#[global] Instance blk_req_queue_ok_dec q : Decision (blk_req_queue_ok q).
Proof. unfold blk_req_queue_ok. apply _. Defined.
#[global] Instance blk_resp_queue_ok_dec q : Decision (blk_resp_queue_ok q).
Proof. unfold blk_resp_queue_ok. apply _. Defined.

(** Pending entries of a queue used with [cap] slots, oldest first. *)
Definition req_contents (cap : Z) (q : aos_blk_req_queue) : list aos_blk_req :=
  ring_contents (2 ^ 32) cap (brq_buffers q) (brq_head q) (brq_tail q).
Definition resp_contents (cap : Z) (q : aos_blk_resp_queue) : list aos_blk_resp :=
  ring_contents (2 ^ 32) cap (bpq_buffers q) (bpq_head q) (bpq_tail q).

(** The queue at [p] has a possible occupancy and holds exactly [l]. *)
Definition req_list (cap : Z) (m : blk_mem) (p : Z) (l : list aos_blk_req) : Prop :=
  exists q, bm_req m !! p = Some q /\ req_len q <= cap /\ req_contents cap q = l.
Definition resp_list (cap : Z) (m : blk_mem) (p : Z) (l : list aos_blk_resp) : Prop :=
  exists q, bm_resp m !! p = Some q /\ resp_len q <= cap /\ resp_contents cap q = l.

(** ** Lemmas *)

Create HintDb blkdb.

Lemma blk_ring_cap cap :
  0 < cap <= AOS_BLK_QUEUE_CAPACITY -> (cap | 2 ^ 32) -> ring_cap_ok (2 ^ 32) cap.
Proof. unfold AOS_BLK_QUEUE_CAPACITY, ring_cap_ok. intros ??. split_and!; [lia..|done]. Qed.

Lemma req_len_bound q : is_u32 (req_len q).
Proof. apply u32_range. Qed.
Lemma resp_len_bound q : is_u32 (resp_len q).
Proof. apply u32_range. Qed.

Lemma length_req_contents cap q : Z.of_nat (length (req_contents cap q)) = req_len q.
Proof.
  unfold req_contents. rewrite length_ring_contents. pose proof (req_len_bound q) as [? _].
  unfold req_len, u32, ring_len in *. lia.
Qed.
Lemma length_resp_contents cap q : Z.of_nat (length (resp_contents cap q)) = resp_len q.
Proof.
  unfold resp_contents. rewrite length_ring_contents. pose proof (resp_len_bound q) as [? _].
  unfold resp_len, u32, ring_len in *. lia.
Qed.

Lemma load_req_run p m q : bm_req m !! p = Some q -> load_req p m = Some (q, m).
Proof. intros Hq. unfold load_req. by rewrite run_get, Hq. Qed.
Lemma load_resp_run p m q : bm_resp m !! p = Some q -> load_resp p m = Some (q, m).
Proof. intros Hq. unfold load_resp. by rewrite run_get, Hq. Qed.

Lemma req_valid_run p cap m q :
  p <> NULL -> 0 < cap <= AOS_BLK_QUEUE_CAPACITY -> bm_req m !! p = Some q ->
  aos_blk_queue_req_valid p cap m = Some (req_len q <=? cap, m).
Proof.
  intros Hp Hc Hq. unfold aos_blk_queue_req_valid.
  assert ((p =? NULL) || (cap =? 0) || (AOS_BLK_QUEUE_CAPACITY <? cap) = false) as -> by lia.
  by rewrite (run_bind _ _ _ _ _ (load_req_run p m q Hq)).
Qed.
Lemma resp_valid_run p cap m q :
  p <> NULL -> 0 < cap <= AOS_BLK_QUEUE_CAPACITY -> bm_resp m !! p = Some q ->
  aos_blk_queue_resp_valid p cap m = Some (resp_len q <=? cap, m).
Proof.
  intros Hp Hc Hq. unfold aos_blk_queue_resp_valid.
  assert ((p =? NULL) || (cap =? 0) || (AOS_BLK_QUEUE_CAPACITY <? cap) = false) as -> by lia.
  by rewrite (run_bind _ _ _ _ _ (load_resp_run p m q Hq)).
Qed.

Lemma req_empty_run p m q : bm_req m !! p = Some q -> req_empty p m = Some (req_len q =? 0, m).
Proof. intros Hq. unfold req_empty. by rewrite (run_bind _ _ _ _ _ (load_req_run p m q Hq)). Qed.
Lemma resp_full_run p cap m q :
  bm_resp m !! p = Some q -> resp_full p cap m = Some (cap <=? resp_len q, m).
Proof. intros Hq. unfold resp_full. by rewrite (run_bind _ _ _ _ _ (load_resp_run p m q Hq)). Qed.

Lemma blk_slot_bound cap i n :
  0 < cap <= AOS_BLK_QUEUE_CAPACITY -> AOS_BLK_QUEUE_CAPACITY <= n -> 0 <= i mod cap < n.
Proof. intros ??. pose proof (Z.mod_pos_bound i cap). lia. Qed.

(** The exact effect of [dequeue_req] on a mapped queue. *)
Lemma dequeue_req_run p cap m q :
  p <> NULL -> 0 < cap <= AOS_BLK_QUEUE_CAPACITY -> bm_req m !! p = Some q -> blk_req_queue_ok q ->
  dequeue_req p cap m =
  if negb (req_len q <=? cap) || (req_len q =? 0) then Some (None, m)
  else Some (Some (brq_buffers q !!! Z.to_nat (brq_head q mod cap)),
             set_req p (req_set_head q (u32 (brq_head q + 1))) m).
Proof.
  intros Hp Hc Hq (_&_&Hl&_). unfold dequeue_req.
  rewrite (run_bind _ _ _ _ _ (req_valid_run p cap m q Hp Hc Hq)).
  destruct (req_len q <=? cap); [|done]. simpl.
  rewrite (run_bind _ _ _ _ _ (req_empty_run p m q Hq)). destruct (req_len q =? 0); [done|].
  rewrite (run_bind _ _ _ _ _ (load_req_run p m q Hq)).
  by rewrite (run_lift _ _ _ _ (aget_total _ _ (blk_slot_bound _ _ _ Hc Hl))).
Qed.

(** The exact effect of [enqueue_resp] on a mapped queue. *)
Lemma enqueue_resp_run p cap r m q :
  p <> NULL -> 0 < cap <= AOS_BLK_QUEUE_CAPACITY -> bm_resp m !! p = Some q -> blk_resp_queue_ok q ->
  enqueue_resp p cap r m =
  if cap <=? resp_len q then Some (-1, m)
  else Some (0, set_resp p (resp_push q (<[Z.to_nat (bpq_tail q mod cap) := r]> (bpq_buffers q))) m).
Proof.
  intros Hp Hc Hq (_&_&Hl). unfold enqueue_resp.
  rewrite (run_bind _ _ _ _ _ (resp_valid_run p cap m q Hp Hc Hq)).
  destruct (Z.leb_spec (resp_len q) cap) as [Hle|Hgt]; simpl.
  - rewrite (run_bind _ _ _ _ _ (resp_full_run p cap m q Hq)). destruct (cap <=? resp_len q); [done|].
    rewrite (run_bind _ _ _ _ _ (load_resp_run p m q Hq)).
    by rewrite (run_lift _ _ _ _ (aset_Some _ _ r (blk_slot_bound _ _ _ Hc Hl))).
  - assert ((cap <=? resp_len q) = true) as -> by lia. done.
Qed.

Lemma blk_req_ok_slot q i :
  blk_req_queue_ok q -> 0 <= i < Z.of_nat (length (brq_buffers q)) ->
  blk_req_ok (brq_buffers q !!! Z.to_nat i).
Proof.
  intros (_&_&_&Hf) Hi. eapply Forall_lookup_1; [exact Hf|].
  apply list_lookup_lookup_total_lt. lia.
Qed.

Lemma blk_req_queue_ok_head q h : blk_req_queue_ok q -> is_u32 h -> blk_req_queue_ok (req_set_head q h).
Proof. by intros (?&?&?&?) ?. Qed.
Lemma blk_resp_queue_ok_head q h :
  blk_resp_queue_ok q -> is_u32 h -> blk_resp_queue_ok (resp_set_head q h).
Proof. by intros (?&?&?) ?. Qed.
Lemma blk_resp_queue_ok_push q i r :
  blk_resp_queue_ok q -> blk_resp_queue_ok (resp_push q (<[i := r]> (bpq_buffers q))).
Proof.
  intros (?&?&?). unfold blk_resp_queue_ok. simpl. rewrite length_insert.
  split_and?; auto with cint.
Qed.
#[export] Hint Resolve blk_req_queue_ok_head blk_resp_queue_ok_head blk_resp_queue_ok_push : blkdb.

(** Consuming a request removes the head of the pending list. *)
Lemma req_contents_deq cap q :
  0 < cap <= AOS_BLK_QUEUE_CAPACITY -> (cap | 2 ^ 32) -> 0 < req_len q ->
  req_contents cap q = brq_buffers q !!! Z.to_nat (brq_head q mod cap) ::
                       req_contents cap (req_set_head q (u32 (brq_head q + 1))).
Proof.
  intros Hc Hd Hl. pose proof (blk_ring_cap cap Hc Hd) as Hr. unfold req_contents, u32. simpl.
  rewrite (ring_contents_mod_head _ _ Hr). by apply ring_contents_cons.
Qed.

(** Publishing a response appends to the pending list. *)
Lemma resp_contents_enq cap q r :
  0 < cap <= AOS_BLK_QUEUE_CAPACITY -> (cap | 2 ^ 32) -> blk_resp_queue_ok q -> resp_len q < cap ->
  resp_contents cap (resp_push q (<[Z.to_nat (bpq_tail q mod cap) := r]> (bpq_buffers q))) =
  resp_contents cap q ++ [r].
Proof.
  intros Hc Hd (_&_&Hlen) Hl. pose proof (blk_ring_cap cap Hc Hd) as Hr.
  unfold resp_contents, resp_push, u32. simpl. rewrite ring_contents_mod_tail.
  apply ring_contents_snoc; [done|lia|done].
Qed.
