(* ===== verification/BlkPump.v ===== *)
(** * The block virtualizer's request pump

    blk-virt/blk_virt_pump.c: the client registry, request validation, the
    RAM disk and the pump. The device backend is a function pointer supplied
    by the virtualizer; it is an argument of the model, and [blk_backend_ok]
    states what the pump relies on. The RAM disk is shown to meet the same
    contract. *)

From S2P Require Import Prelude Ring Bytes BlkQueue.

(** ** Code *)

(** [aos_blk_backend_fn]: context, client, request; returns a status. *)
Definition aos_blk_backend_fn : Type := Z -> aos_blk_virt_client -> aos_blk_req -> prog blk_mem Z.

Record aos_blk_virt := {
  bv_clients : list aos_blk_virt_client;
  bv_num_clients : Z;
  bv_backend : option aos_blk_backend_fn;
  bv_backend_ctx : Z;
}.

Definition aos_blk_virt_reset (v : aos_blk_virt) : aos_blk_virt :=
  {| bv_clients := (fun _ => blk_client_zero) <$> bv_clients v; bv_num_clients := 0;
     bv_backend := None; bv_backend_ctx := 0 |}.

(** [true] for a client whose queues are both valid and empty. *)
Definition blk_client_idle (c : aos_blk_virt_client) : prog blk_mem bool :=
  rv ← aos_blk_queue_req_valid (bvc_req c) (bvc_capacity c);
  if negb rv then mret false
  else
    pv ← aos_blk_queue_resp_valid (bvc_resp c) (bvc_capacity c);
    if negb pv then mret false
    else
      rq ← load_req (bvc_req c);
      if negb (req_len rq =? 0) then mret false
      else
        pq ← load_resp (bvc_resp c);
        mret (resp_len pq =? 0).

(** Returns the result and the virtualizer's new state. *)
Definition aos_blk_virt_detach (v : aos_blk_virt) : prog blk_mem (bool * aos_blk_virt) :=
  if AOS_BLK_MAX_CLIENTS <? bv_num_clients v then mret (false, v)
  else
    idle ← for_loop (Z.to_nat (bv_num_clients v)) 0 true (fun i _ =>
      c ← lift (aget (bv_clients v) i);
      ok ← blk_client_idle c;
      mret (if (ok : bool) then Continue else Break, ok));
    if (idle : bool) then mret (true, aos_blk_virt_reset v) else mret (false, v).

Definition aos_blk_virt_add_client (c : aos_blk_virt_client) : prog aos_blk_virt Z :=
  v ← get_state;
  if (bvc_info c =? NULL) || (bvc_req c =? NULL) || (bvc_resp c =? NULL) ||
     (bvc_data c =? NULL) || (bvc_capacity c =? 0) ||
     (AOS_BLK_QUEUE_CAPACITY <? bvc_capacity c) || (bvc_media_blocks c =? 0) ||
     (AOS_BLK_MAX_CLIENTS <=? bv_num_clients v)
  then mret (-1)
  else
    clients ← lift (aset (bv_clients v) (bv_num_clients v) c);
    put_state {| bv_clients := clients; bv_num_clients := u32 (bv_num_clients v + 1);
                 bv_backend := bv_backend v; bv_backend_ctx := bv_backend_ctx v |};;
    mret 0.

Definition aos_blk_client_set_media (c : aos_blk_virt_client) (media_blocks : Z)
    : aos_blk_virt_client :=
  {| bvc_info := bvc_info c; bvc_signal := bvc_signal c; bvc_req := bvc_req c;
     bvc_resp := bvc_resp c; bvc_data := bvc_data c; bvc_capacity := bvc_capacity c;
     bvc_disk := bvc_disk c; bvc_disk_blocks := bvc_disk_blocks c;
     bvc_media_blocks := media_blocks |}.

Definition aos_blk_client_set_ram_disk (c : aos_blk_virt_client) (disk disk_blocks : Z)
    : aos_blk_virt_client :=
  {| bvc_info := bvc_info c; bvc_signal := bvc_signal c; bvc_req := bvc_req c;
     bvc_resp := bvc_resp c; bvc_data := bvc_data c; bvc_capacity := bvc_capacity c;
     bvc_disk := disk; bvc_disk_blocks := disk_blocks; bvc_media_blocks := disk_blocks |}.

Definition aos_blk_virt_set_backend (v : aos_blk_virt) (backend : option aos_blk_backend_fn)
    (ctx : Z) : aos_blk_virt :=
  {| bv_clients := bv_clients v; bv_num_clients := bv_num_clients v;
     bv_backend := backend; bv_backend_ctx := ctx |}.

Definition request_valid (c : aos_blk_virt_client) (req : aos_blk_req) : bool :=
  if (br_code req =? AOS_BLK_REQ_READ) || (br_code req =? AOS_BLK_REQ_WRITE) then
    if (br_count req =? 0) || (bvc_media_blocks c =? 0) ||
       (bvc_media_blocks c <? br_block_number req) ||
       (u64 (bvc_media_blocks c - br_block_number req) <? br_count req)
    then false
    else
      let nbytes := u32 (br_count req * AOS_BLK_TRANSFER_SIZE) in
      (br_io_or_offset req <=? AOS_BLK_DATA_BYTES) &&
      (nbytes <=? u64 (AOS_BLK_DATA_BYTES - br_io_or_offset req))
  else if (br_code req =? AOS_BLK_REQ_FLUSH) || (br_code req =? AOS_BLK_REQ_BARRIER) then
    (br_io_or_offset req =? 0) && (br_block_number req =? 0) && (br_count req =? 0)
  else false.

Definition serve_rw (c : aos_blk_virt_client) (req : aos_blk_req) (writing : bool)
    : prog blk_mem Z :=
  let nbytes := u32 (br_count req * AOS_BLK_TRANSFER_SIZE) in
  let disk_offset := u64 (br_block_number req * AOS_BLK_TRANSFER_SIZE) in
  if (bvc_disk c =? NULL) || (bvc_disk_blocks c <? bvc_media_blocks c)
  then mret AOS_BLK_RESP_ERR_NO_DEVICE
  else if writing then
    aos_copy (bvc_disk c) disk_offset (bvc_data c) (u32 (br_io_or_offset req)) nbytes;;
    mret AOS_BLK_RESP_OK
  else
    aos_copy (bvc_data c) (u32 (br_io_or_offset req)) (bvc_disk c) disk_offset nbytes;;
    mret AOS_BLK_RESP_OK.

(** [req.code == AOS_BLK_REQ_WRITE && c->info->read_only] *)
Definition write_refused (c : aos_blk_virt_client) (req : aos_blk_req) : prog blk_mem bool :=
  if br_code req =? AOS_BLK_REQ_WRITE
  then info ← load_info (bvc_info c); mret (bsi_read_only info)
  else mret false.

(** The response to one dequeued request. *)
Definition serve_one (v : aos_blk_virt) (c : aos_blk_virt_client) (req : aos_blk_req)
    : prog blk_mem aos_blk_resp :=
  let resp status n := {| bp_status := status; bp_success_count := n; bp_id := br_id req |} in
  if negb (request_valid c req) then mret (resp AOS_BLK_RESP_ERR_INVALID_PARAM 0)
  else
    refused ← write_refused c req;
    if (refused : bool) then mret (resp AOS_BLK_RESP_ERR_IO 0)
    else
      match bv_backend v with
      | Some backend =>
          status ← backend (bv_backend_ctx v) c req;
          mret (resp status
            (if (status =? AOS_BLK_RESP_OK) &&
                ((br_code req =? AOS_BLK_REQ_READ) || (br_code req =? AOS_BLK_REQ_WRITE))
             then br_count req else 0))
      | None =>
          if br_code req =? AOS_BLK_REQ_READ then
            status ← serve_rw c req false;
            mret (resp status (if status =? AOS_BLK_RESP_OK then br_count req else 0))
          else if br_code req =? AOS_BLK_REQ_WRITE then
            status ← serve_rw c req true;
            mret (resp status (if status =? AOS_BLK_RESP_OK then br_count req else 0))
          else if (br_code req =? AOS_BLK_REQ_FLUSH) || (br_code req =? AOS_BLK_REQ_BARRIER)
          then mret (resp AOS_BLK_RESP_OK 0)
          else mret (resp AOS_BLK_RESP_ERR_INVALID_PARAM 0)
      end.

(** One round of the inner loop of [aos_blk_virt_pump]. *)
Definition blk_pump_one (v : aos_blk_virt) (c : aos_blk_virt_client) (completed : Z)
    : prog blk_mem (loop_ctl * Z) :=
  empty ← req_empty (bvc_req c);
  if (empty : bool) then mret (Break, completed)
  else
    full ← resp_full (bvc_resp c) (bvc_capacity c);
    if (full : bool) then mret (Break, completed)
    else
      oreq ← dequeue_req (bvc_req c) (bvc_capacity c);
      match oreq with
      | None => mret (Break, completed)
      | Some req =>
          resp ← serve_one v c req;
          r ← enqueue_resp (bvc_resp c) (bvc_capacity c) resp;
          if negb (r =? 0) then mret (Break, completed)
          else mret (Continue, u32 (completed + 1))
      end.

(** The pump's work for one client. *)
Definition blk_pump_client (v : aos_blk_virt) (c : aos_blk_virt_client) (completed : Z)
    : prog blk_mem Z :=
  if (bvc_info c =? NULL) || (bvc_req c =? NULL) || (bvc_resp c =? NULL) ||
     (bvc_data c =? NULL) || (bvc_capacity c =? 0) ||
     (AOS_BLK_QUEUE_CAPACITY <? bvc_capacity c)
  then mret completed
  else
    pv ← aos_blk_queue_resp_valid (bvc_resp c) (bvc_capacity c);
    if negb pv then reset_resp_queue (bvc_resp c);; mret completed
    else
      rv ← aos_blk_queue_req_valid (bvc_req c) (bvc_capacity c);
      if negb rv then reset_req_queue (bvc_req c);; mret completed
      else
        for_loop (Z.to_nat (bvc_capacity c)) 0 completed
          (fun _ completed => blk_pump_one v c completed).

Definition aos_blk_virt_pump (v : aos_blk_virt) : prog blk_mem Z :=
  if bv_num_clients v =? 0 then mret 0
  else
    for_loop (Z.to_nat (bv_num_clients v)) 0 0 (fun i completed =>
      c ← lift (aget (bv_clients v) i);
      completed ← blk_pump_client v c completed;
      mret (Continue, completed)).

(** ** Specification-level definitions *)

Definition blk_attached (v : aos_blk_virt) : list aos_blk_virt_client :=
  take (Z.to_nat (bv_num_clients v)) (bv_clients v).

(** What the virtualizer mapped for a client: whatever is not null is there,
    the data region has the layout's size, and the RAM disk, which is no part
    of the client's page, has at least the blocks it declares. *)
Definition blk_client_ok (m : blk_mem) (c : aos_blk_virt_client) : Prop :=
  is_u32 (bvc_capacity c) /\ is_u32 (bvc_disk_blocks c) /\ is_u32 (bvc_media_blocks c) /\
  (bvc_info c <> NULL -> is_Some (bm_info m !! bvc_info c)) /\
  (bvc_req c <> NULL -> is_Some (bm_req m !! bvc_req c)) /\
  (bvc_resp c <> NULL -> is_Some (bm_resp m !! bvc_resp c)) /\
  (bvc_data c <> NULL -> exists d, bm_bytes m !! bvc_data c = Some d /\
     Z.of_nat (length d) = AOS_BLK_DATA_BYTES) /\
  (bvc_disk c <> NULL -> bvc_disk c <> bvc_data c /\
     exists d, bm_bytes m !! bvc_disk c = Some d /\
       bvc_disk_blocks c * AOS_BLK_TRANSFER_SIZE <= Z.of_nat (length d)).

Definition blk_virt_ok (m : blk_mem) (v : aos_blk_virt) : Prop :=
  0 <= bv_num_clients v <= AOS_BLK_MAX_CLIENTS /\
  Z.of_nat (length (bv_clients v)) = AOS_BLK_MAX_CLIENTS /\
  forall c, c ∈ blk_attached v -> blk_client_ok m c.

(** [m'] is well formed, has every object of [m] at its size, and differs
    from [m] at most in the request queues [R], the response queues [P] and
    the byte regions [B]. *)
Definition blk_touch (R P B : list Z) (m m' : blk_mem) : Prop :=
  blk_mem_ok m' /\ bm_info m' = bm_info m /\ bm_signal m' = bm_signal m /\
  (forall p, is_Some (bm_req m !! p) -> is_Some (bm_req m' !! p)) /\
  (forall p, p ∉ R -> bm_req m' !! p = bm_req m !! p) /\
  (forall p, is_Some (bm_resp m !! p) -> is_Some (bm_resp m' !! p)) /\
  (forall p, p ∉ P -> bm_resp m' !! p = bm_resp m !! p) /\
  (forall p d, bm_bytes m !! p = Some d ->
     exists d', bm_bytes m' !! p = Some d' /\ length d' = length d) /\
  (forall p, p ∉ B -> bm_bytes m' !! p = bm_bytes m !! p).

(** The contract of a backend: for a client whose memory is mapped and a
    request that passed [request_valid] and was not refused, it returns a
    status and changes at most the client's data region and its medium. *)
Definition blk_backend_ok (backend : aos_blk_backend_fn) (ctx : Z) : Prop :=
  forall m c req, blk_mem_ok m -> blk_client_ok m c -> bvc_data c <> NULL ->
  blk_req_ok req -> request_valid c req = true ->
  wp (backend ctx c req) (fun _ m' => blk_touch [] [] [bvc_data c; bvc_disk c] m m') m.

Definition blk_backends_ok (v : aos_blk_virt) : Prop :=
  forall backend, bv_backend v = Some backend -> blk_backend_ok backend (bv_backend_ctx v).

Definition blk_pump_reqs (v : aos_blk_virt) : list Z := bvc_req <$> blk_attached v.
Definition blk_pump_resps (v : aos_blk_virt) : list Z := bvc_resp <$> blk_attached v.
Definition blk_regions_of (c : aos_blk_virt_client) : list Z := [bvc_data c; bvc_disk c].
Definition blk_pump_regions (v : aos_blk_virt) : list Z := blk_attached v ≫= blk_regions_of.

Definition blk_transfers (req : aos_blk_req) : bool :=
  (br_code req =? AOS_BLK_REQ_READ) || (br_code req =? AOS_BLK_REQ_WRITE).

(** What the RAM disk answers to a well-formed request, and the bytes it
    leaves: without a disk that holds the whole medium there is no device;
    otherwise a transfer copies the request's blocks between the medium and
    the client's data region, and a flush or barrier is acknowledged. *)
Definition ram_ready (c : aos_blk_virt_client) : bool :=
  negb ((bvc_disk c =? NULL) || (bvc_disk_blocks c <? bvc_media_blocks c)).
Definition ram_status (c : aos_blk_virt_client) (req : aos_blk_req) : Z :=
  if blk_transfers req && negb (ram_ready c) then AOS_BLK_RESP_ERR_NO_DEVICE else AOS_BLK_RESP_OK.
Definition ram_transfer (c : aos_blk_virt_client) (req : aos_blk_req) (b : gmap Z (list Z)) : gmap Z (list Z) :=
  let n := br_count req * AOS_BLK_TRANSFER_SIZE in
  let at_data := br_io_or_offset req in
  let at_disk := br_block_number req * AOS_BLK_TRANSFER_SIZE in
  match b !! bvc_data c, b !! bvc_disk c with
  | Some d, Some k =>
      if negb (blk_transfers req && ram_ready c) then b
      else if br_code req =? AOS_BLK_REQ_WRITE
      then <[bvc_disk c := list_inserts (Z.to_nat at_disk) (aslice d at_data n) k]> b
      else <[bvc_data c := list_inserts (Z.to_nat at_data) (aslice k at_disk n) d]> b
  | _, _ => b
  end.

(** [r] answers [req] for a client whose medium is read-only or not, and the
    byte regions go from [b] to [b']. The answer carries the request's id. A
    malformed request is reported as such and a write to read-only media is
    an I/O error, with nothing transferred. Otherwise the status is the one
    the backend returned for this request, run on these bytes, or without a
    backend the RAM disk's; blocks are reported transferred exactly for a
    transfer with the success status. *)
Definition blk_answers (v : aos_blk_virt) (c : aos_blk_virt_client) (ro : bool)
    (b : gmap Z (list Z)) (req : aos_blk_req) (r : aos_blk_resp) (b' : gmap Z (list Z)) : Prop :=
  bp_id r = br_id req /\
  if negb (request_valid c req) then
    bp_status r = AOS_BLK_RESP_ERR_INVALID_PARAM /\ bp_success_count r = 0 /\ b' = b
  else if (br_code req =? AOS_BLK_REQ_WRITE) && ro then
    bp_status r = AOS_BLK_RESP_ERR_IO /\ bp_success_count r = 0 /\ b' = b
  else
    bp_success_count r = (if (bp_status r =? AOS_BLK_RESP_OK) && blk_transfers req then br_count req else 0) /\
    match bv_backend v with
    | Some backend => exists m0 m1, bm_bytes m0 = b /\ bm_bytes m1 = b' /\
        backend (bv_backend_ctx v) c req m0 = Some (bp_status r, m1)
    | None => bp_status r = ram_status c req /\ b' = ram_transfer c req b
    end.

(** The requests [lq] are answered one by one by [rs], each on the bytes the
    one before it left. *)
Inductive blk_serves (v : aos_blk_virt) (c : aos_blk_virt_client) (ro : bool) :
    gmap Z (list Z) -> list aos_blk_req -> list aos_blk_resp -> gmap Z (list Z) -> Prop :=
| blk_serves_nil b : blk_serves v c ro b [] [] b
| blk_serves_snoc b lq rs b1 req r b2 :
    blk_serves v c ro b lq rs b1 -> blk_answers v c ro b1 req r b2 ->
    blk_serves v c ro b (lq ++ [req]) (rs ++ [r]) b2.

(** Clients share no queue. *)
Definition blk_layout_disjoint (v : aos_blk_virt) : Prop :=
  forall i j ci cj, i <> j -> 0 <= i < bv_num_clients v -> 0 <= j < bv_num_clients v ->
  aget (bv_clients v) i = Some ci -> aget (bv_clients v) j = Some cj ->
  bvc_req ci <> bvc_req cj /\ bvc_resp ci <> bvc_resp cj.

(** The number of requests one pump serves for a client. *)
Definition blk_quota (cap : Z) (lq : list aos_blk_req) (lp : list aos_blk_resp) : nat :=
  Nat.min (length lq) (Z.to_nat (cap - Z.of_nat (length lp))).

(** Both queues of an accepted client, as the pump finds them. *)
Definition blk_open (m : blk_mem) (c : aos_blk_virt_client) (q : aos_blk_req_queue)
    (pq : aos_blk_resp_queue) (i : aos_blk_storage_info) : Prop :=
  bm_req m !! bvc_req c = Some q /\ bm_resp m !! bvc_resp c = Some pq /\
  bm_info m !! bvc_info c = Some i /\ req_len q <= bvc_capacity c /\ resp_len pq <= bvc_capacity c.

Definition blk_usable (c : aos_blk_virt_client) : Prop :=
  bvc_req c <> NULL /\ bvc_resp c <> NULL /\ bvc_data c <> NULL /\
  0 < bvc_capacity c <= AOS_BLK_QUEUE_CAPACITY.

(** What serving [k] requests of [lq] has produced. *)
Definition blk_served (v : aos_blk_virt) (b b' : gmap Z (list Z)) (m' : blk_mem) (c : aos_blk_virt_client)
    (ro : bool) (lq : list aos_blk_req) (lp : list aos_blk_resp) (k : nat) : Prop :=
  exists rs, blk_serves v c ro b (take k lq) rs b' /\
    req_list (bvc_capacity c) m' (bvc_req c) (drop k lq) /\
    resp_list (bvc_capacity c) m' (bvc_resp c) (lp ++ rs).

(** The regions of the clients the pump serves before and after client [k]. *)
Definition blk_regions_before (v : aos_blk_virt) (k : Z) : list Z :=
  take (Z.to_nat k) (bv_clients v) ≫= blk_regions_of.
Definition blk_regions_after (v : aos_blk_virt) (k : Z) : list Z :=
  drop (S (Z.to_nat k)) (blk_attached v) ≫= blk_regions_of.

(** The client's queues are consistent and hold nothing. *)
Definition blk_idle (m : blk_mem) (c : aos_blk_virt_client) : Prop :=
  bvc_req c <> NULL /\ bvc_resp c <> NULL /\ 0 < bvc_capacity c <= AOS_BLK_QUEUE_CAPACITY /\
  req_list (bvc_capacity c) m (bvc_req c) [] /\ resp_list (bvc_capacity c) m (bvc_resp c) [].

(** ** Lemmas: frames *)

Lemma blk_touch_refl R P B m : blk_mem_ok m -> blk_touch R P B m m.
Proof. intros. unfold blk_touch. split_and?; eauto. Qed.

Lemma blk_touch_trans R P B m1 m2 m3 :
  blk_touch R P B m1 m2 -> blk_touch R P B m2 m3 -> blk_touch R P B m1 m3.
Proof.
  intros (?&Hi1&Hs1&?&HR1&?&HP1&HL1&HB1) (?&Hi2&Hs2&?&HR2&?&HP2&HL2&HB2).
  unfold blk_touch. split_and?; [done|congruence|congruence|auto| |auto| | |].
  - intros p Hp. by rewrite HR2, HR1.
  - intros p Hp. by rewrite HP2, HP1.
  - intros p d (d1&(d2&?&?)%HL2&?)%HL1. exists d2. split; [done|congruence].
  - intros p Hp. by rewrite HB2, HB1.
Qed.

Lemma blk_touch_mono R P B R' P' B' m m' :
  R ⊆ R' -> P ⊆ P' -> B ⊆ B' -> blk_touch R P B m m' -> blk_touch R' P' B' m m'.
Proof.
  intros HR HP HB (?&?&?&?&H1&?&H2&?&H3). unfold blk_touch.
  split_and?; auto; intros p Hp; (apply H1 || apply H2 || apply H3); set_solver.
Qed.

Lemma blk_touch_client R P B m m' c :
  blk_touch R P B m m' -> blk_client_ok m c -> blk_client_ok m' c.
Proof.
  intros (_&Hi&_&HR&_&HP&_&HL&_) (?&?&?&Hinf&?&?&Hd&Hk). unfold blk_client_ok.
  rewrite Hi. split_and?; auto.
  - intros (d&(d'&?&Hl)%HL&?)%Hd. exists d'. by rewrite Hl.
  - intros (?&d&(d'&?&Hl)%HL&?)%Hk. split; [done|]. exists d'. by rewrite Hl.
Qed.

Lemma blk_touch_virt R P B m m' v : blk_touch R P B m m' -> blk_virt_ok m v -> blk_virt_ok m' v.
Proof.
  intros Ht (?&?&Hc). unfold blk_virt_ok. split_and?; auto; try lia.
  intros c Hin. eapply blk_touch_client; eauto.
Qed.

Lemma insert_is_Some_mono {A} (m : gmap Z A) k x p :
  is_Some (m !! p) -> is_Some (<[k := x]> m !! p).
Proof. rewrite lookup_insert_is_Some'. auto. Qed.

Lemma insert_notin {A} (m : gmap Z A) k x p (L : list Z) :
  k ∈ L -> p ∉ L -> <[k := x]> m !! p = m !! p.
Proof. intros ??. apply lookup_insert_ne. by intros ->. Qed.

Lemma blk_touch_req R P B m p q :
  blk_mem_ok m -> p ∈ R -> blk_req_queue_ok q -> blk_touch R P B m (set_req p q m).
Proof.
  intros [??] Hp Hq. unfold blk_touch, set_req, blk_mem_ok. simpl.
  split_and?; eauto using insert_is_Some_mono, insert_notin. by apply map_Forall_insert_2.
Qed.

Lemma blk_touch_resp R P B m p q :
  blk_mem_ok m -> p ∈ P -> blk_resp_queue_ok q -> blk_touch R P B m (set_resp p q m).
Proof.
  intros [??] Hp Hq. unfold blk_touch, set_resp, blk_mem_ok. simpl.
  split_and?; eauto using insert_is_Some_mono, insert_notin. by apply map_Forall_insert_2.
Qed.

Lemma blk_touch_bytes R P B m p d d' :
  blk_mem_ok m -> p ∈ B -> bm_bytes m !! p = Some d -> length d' = length d ->
  blk_touch R P B m (set_bytes (<[p := d']> (bytes_of m)) m).
Proof.
  intros [??] Hp Hd Hl. unfold blk_touch, blk_mem_ok. simpl. split_and?; eauto using insert_notin.
  intros p' d0 Hp'. destruct (decide (p = p')) as [->|].
  - rewrite lookup_insert_eq. exists d'. split; [done|congruence].
  - rewrite lookup_insert_ne by done. eauto.
Qed.

(** ** Lemmas: request validation *)

(** A transfer that passes [request_valid] stays inside the medium and inside
    the data region, and none of the C computations on it wraps. *)
Lemma request_valid_bounds c req :
  is_u32 (bvc_media_blocks c) -> blk_req_ok req ->
  (br_code req =? AOS_BLK_REQ_READ) || (br_code req =? AOS_BLK_REQ_WRITE) = true ->
  request_valid c req = true ->
  0 < br_count req /\ br_block_number req + br_count req <= bvc_media_blocks c /\
  u32 (br_count req * AOS_BLK_TRANSFER_SIZE) = br_count req * AOS_BLK_TRANSFER_SIZE /\
  u64 (br_block_number req * AOS_BLK_TRANSFER_SIZE) = br_block_number req * AOS_BLK_TRANSFER_SIZE /\
  u32 (br_io_or_offset req) = br_io_or_offset req /\ 0 <= br_io_or_offset req /\
  0 <= br_block_number req /\
  br_io_or_offset req + br_count req * AOS_BLK_TRANSFER_SIZE <= AOS_BLK_DATA_BYTES.
Proof.
  intros Hm (_&Ho&Hb&Hc&_) Hrw. unfold request_valid. rewrite Hrw. case_cmp; [done|].
  assert (AOS_BLK_DATA_BYTES = 1052672) as HD by reflexivity.
  unfold AOS_BLK_TRANSFER_SIZE, is_u16, is_u32, is_u64 in *. rewrite HD.
  rewrite (u64_small (bvc_media_blocks c - _)) in * by (unfold is_u64; lia).
  rewrite (u32_small (br_count req * _)) by (unfold is_u32; lia).
  intros [Hle Hlen]%andb_true_iff. rewrite (u64_small (1052672 - _)) in Hlen by (unfold is_u64; lia).
  rewrite u64_small, u32_small by (unfold is_u64, is_u32; lia). lia.
Qed.

(** ** Lemmas: the RAM disk *)

Section ram.
Context (m : blk_mem) (c : aos_blk_virt_client) (req : aos_blk_req).
Context (Hm : blk_mem_ok m) (Hc : blk_client_ok m c) (Hdata : bvc_data c <> NULL).
Context (Hreq : blk_req_ok req) (Hval : request_valid c req = true).
Context (Hrw : (br_code req =? AOS_BLK_REQ_READ) || (br_code req =? AOS_BLK_REQ_WRITE) = true).

(** The transfer of [serve_rw], exactly: the bytes of [nbytes] disk bytes and
    [nbytes] data bytes are the same afterwards, nothing else changes. *)
Lemma serve_rw_run d k writing :
  bm_bytes m !! bvc_data c = Some d -> bm_bytes m !! bvc_disk c = Some k ->
  bvc_disk c <> NULL -> bvc_media_blocks c <= bvc_disk_blocks c ->
  let n := br_count req * AOS_BLK_TRANSFER_SIZE in
  let o := br_io_or_offset req in
  let b := br_block_number req * AOS_BLK_TRANSFER_SIZE in
  serve_rw c req writing m = Some (AOS_BLK_RESP_OK,
    if writing then set_bytes (<[bvc_disk c := list_inserts (Z.to_nat b) (aslice d o n) k]> (bytes_of m)) m
    else set_bytes (<[bvc_data c := list_inserts (Z.to_nat o) (aslice k b n) d]> (bytes_of m)) m).
Proof using Hc Hdata Hreq Hval Hrw.
  intros Hd Hk Hnn Hmd n o b. destruct Hc as (_&_&Hmb&_&_&_&Hdat&Hdsk).
  destruct (request_valid_bounds c req) as (?&?&Hn&Hb&Ho&?&?&?); [done..|].
  destruct (Hdat Hdata) as (d'&Hd'&?). destruct (Hdsk Hnn) as (?&k'&Hk'&?).
  assert (d' = d) as -> by congruence. assert (k' = k) as -> by congruence.
  unfold serve_rw. cbv zeta. rewrite Hn, Hb, Ho. subst n o b. unfold AOS_BLK_TRANSFER_SIZE in *.
  assert ((bvc_disk c =? NULL) || (bvc_disk_blocks c <? bvc_media_blocks c) = false) as -> by lia.
  destruct writing.
  - by erewrite run_bind; [|apply (aos_copy_run m _ _ _ _ _ d k); done || lia].
  - by erewrite run_bind; [|apply (aos_copy_run m _ _ _ _ _ k d); auto; lia].
Qed.

Lemma wp_serve_rw writing :
  writing = (br_code req =? AOS_BLK_REQ_WRITE) ->
  wp (serve_rw c req writing) (fun st m' => blk_touch [] [] (blk_regions_of c) m m' /\
    st = ram_status c req /\ bm_bytes m' = ram_transfer c req (bm_bytes m)) m.
Proof using Hm Hc Hdata Hreq Hval Hrw.
  intros Hwr. destruct Hc as (_&_&_&_&_&_&Hdat&Hdsk). destruct (Hdat Hdata) as (d&Hd&_).
  unfold ram_status, ram_transfer, ram_ready, blk_transfers. rewrite Hrw, Hd.
  destruct (decide (bvc_disk c <> NULL /\ bvc_media_blocks c <= bvc_disk_blocks c)) as [[Hnn Hmd]|Hno].
  - destruct (Hdsk Hnn) as (_&k&Hk&_). rewrite Hk.
    assert ((bvc_disk c =? NULL) || (bvc_disk_blocks c <? bvc_media_blocks c) = false) as -> by lia.
    unfold wp. rewrite (serve_rw_run d k) by done. rewrite <- Hwr.
    destruct writing; (split; [eapply blk_touch_bytes; [done|in_list|done|apply length_inserts]|done]).
  - assert ((bvc_disk c =? NULL) || (bvc_disk_blocks c <? bvc_media_blocks c) = true) as Hnr by lia.
    unfold serve_rw. rewrite Hnr. wp_step. split; [by apply blk_touch_refl|]. split; [done|]. by destruct (bm_bytes m !! bvc_disk c).
Qed.
End ram.

(** ** Lemmas: one request *)

Lemma write_refused_run c req m i :
  bm_info m !! bvc_info c = Some i ->
  write_refused c req m = Some ((br_code req =? AOS_BLK_REQ_WRITE) && bsi_read_only i, m).
Proof.
  intros Hi. unfold write_refused. destruct (br_code req =? AOS_BLK_REQ_WRITE); [|done].
  unfold load_info. unfold mbind, prog_bind, get_state, lift. by rewrite Hi.
Qed.

Lemma wp_serve_one v m c req i :
  blk_mem_ok m -> blk_client_ok m c -> blk_backends_ok v -> bvc_data c <> NULL ->
  bm_info m !! bvc_info c = Some i -> blk_req_ok req ->
  wp (serve_one v c req) (fun r m' => blk_touch [] [] (blk_regions_of c) m m' /\
                                      blk_answers v c (bsi_read_only i) (bm_bytes m) req r (bm_bytes m')) m.
Proof.
  intros Hm Hc Hb Hd Hi Hreq. unfold serve_one, blk_answers.
  destruct (request_valid c req) eqn:Hval; simpl; [|wp_step; by split; [apply blk_touch_refl|]].
  wp_step. unfold wp at 1. rewrite (write_refused_run c req m i Hi).
  destruct ((br_code req =? AOS_BLK_REQ_WRITE) && bsi_read_only i) eqn:Href;
    [wp_step; by split; [apply blk_touch_refl|]|].
  destruct (bv_backend v) as [backend|] eqn:Hbk.
  - destruct (wp_run _ _ _ (Hb _ Hbk m c req Hm Hc Hd Hreq Hval)) as (st&m'&Hrun&Ht).
    wp_step. unfold wp at 1. rewrite Hrun. wp_step. split; [done|]. split; [done|]. split; [done|]. by exists m, m'.
  - destruct (br_code req =? AOS_BLK_REQ_READ) eqn:HR; [|destruct (br_code req =? AOS_BLK_REQ_WRITE) eqn:HW].
    + wp_step. eapply wp_mono; [apply wp_serve_rw; try done; rewrite ?HR; try done|].
      { apply Z.eqb_eq in HR. by rewrite HR. }
      intros st m' (Ht&->&Hbm). wp_step. unfold blk_transfers. rewrite HR, andb_true_r. done.
    + wp_step. eapply wp_mono; [apply wp_serve_rw; rewrite ?HR, ?HW; done|].
      intros st m' (Ht&->&Hbm). wp_step. unfold blk_transfers. rewrite HR, HW, andb_true_r. done.
    + unfold ram_status, ram_transfer, blk_transfers. rewrite HR, HW. simpl.
      assert ((br_code req =? AOS_BLK_REQ_FLUSH) || (br_code req =? AOS_BLK_REQ_BARRIER) = true) as ->.
      { unfold request_valid in Hval. rewrite HR, HW in Hval. simpl in Hval. by destruct (_ || _). }
      wp_step. split; [by apply blk_touch_refl|]. split_and?; [done..|]. by destruct (bm_bytes m !! bvc_data c), (bm_bytes m !! bvc_disk c).
Qed.

(** One round serves the oldest request, if there is one and its answer fits. *)
Lemma wp_blk_pump_one v m c q pq i n :
  blk_mem_ok m -> blk_client_ok m c -> blk_backends_ok v -> blk_usable c -> blk_open m c q pq i ->
  wp (blk_pump_one v c n) (fun r m' =>
    if (req_len q =? 0) || (bvc_capacity c <=? resp_len pq) then r = (Break, n) /\ m' = m
    else exists a,
      let req := brq_buffers q !!! Z.to_nat (brq_head q mod bvc_capacity c) in
      blk_answers v c (bsi_read_only i) (bm_bytes m) req a (bm_bytes m') /\ r = (Continue, u32 (n + 1)) /\
      blk_touch [bvc_req c] [bvc_resp c] (blk_regions_of c) m m' /\
      blk_open m' c (req_set_head q (u32 (brq_head q + 1)))
        (resp_push pq (<[Z.to_nat (bpq_tail pq mod bvc_capacity c) := a]> (bpq_buffers pq))) i) m.
Proof.
  intros Hm Hc Hb (Hrn&Hpn&Hdn&Hcap) (Hq&Hpq&Hi&Hql&Hpl).
  pose proof (proj1 Hm _ _ Hq) as Hqok. pose proof (proj2 Hm _ _ Hpq) as Hpok. simpl in Hqok, Hpok.
  unfold blk_pump_one. wp_step. unfold wp at 1. rewrite (req_empty_run _ m q Hq).
  destruct (Z.eqb_spec (req_len q) 0) as [Hz|Hz]; simpl; [by wp_step|].
  wp_step. unfold wp at 1. rewrite (resp_full_run _ _ m pq Hpq).
  destruct (Z.leb_spec (bvc_capacity c) (resp_len pq)) as [Hf|Hf]; [by wp_step|].
  wp_step. unfold wp at 1. rewrite (dequeue_req_run _ _ m q) by done.
  assert (negb (req_len q <=? bvc_capacity c) || (req_len q =? 0) = false) as -> by lia.
  set (req := brq_buffers q !!! _). set (q' := req_set_head q _). set (m1 := set_req _ q' m).
  assert (blk_req_ok req) as Hreq.
  { apply blk_req_ok_slot; [done|]. destruct Hqok as (_&_&?&_). by apply blk_slot_bound. }
  assert (blk_touch [bvc_req c] [bvc_resp c] (blk_regions_of c) m m1) as Ht1
    by (apply blk_touch_req; [done|in_list|subst q'; auto with blkdb cint]).
  wp_step. eapply wp_mono.
  { apply (wp_serve_one v m1 c req i); auto; [apply Ht1|by eapply blk_touch_client]. }
  intros a m2 [Ht2 Ha]. pose proof Ht2 as (Hm2&Hi2&_&_&HR2&_&HP2&_).
  assert (bm_resp m2 !! bvc_resp c = Some pq) as Hpq2 by (by rewrite HP2 by set_solver).
  assert (bm_req m2 !! bvc_req c = Some q') as Hq2
    by (rewrite HR2 by set_solver; apply lookup_insert_eq).
  wp_step. unfold wp at 1. rewrite (enqueue_resp_run _ _ a m2 pq) by done.
  assert ((bvc_capacity c <=? resp_len pq) = false) as -> by lia. simpl. wp_step.
  exists a. split_and?; [done..| |].
  - eapply blk_touch_trans; [exact Ht1|]. eapply blk_touch_trans.
    + eapply blk_touch_mono; [..|exact Ht2]; set_solver.
    + apply blk_touch_resp; [done|in_list|auto with blkdb].
  - unfold blk_open. simpl. rewrite lookup_insert_eq, Hi2. split_and?; auto.
    + subst q'. unfold req_len, u32 in *. simpl. mod_lia.
    + unfold resp_len, u32 in *. simpl. mod_lia.
Qed.

(** ** Lemmas: one client, the whole pump *)

Lemma blk_reset_resp R P B m p :
  blk_mem_ok m -> is_Some (bm_resp m !! p) -> p ∈ P ->
  wp (reset_resp_queue p) (fun _ m' => blk_touch R P B m m') m.
Proof.
  intros Hm [q Hq] Hp. pose proof (proj2 Hm _ _ Hq) as Hok. unfold reset_resp_queue. wp_step.
  unfold wp at 1. rewrite (load_resp_run p m q Hq). wp_step.
  apply blk_touch_resp; [done..|]. apply blk_resp_queue_ok_head; [done|]. by destruct Hok as (_&?&_).
Qed.
Lemma blk_reset_req R P B m p :
  blk_mem_ok m -> is_Some (bm_req m !! p) -> p ∈ R ->
  wp (reset_req_queue p) (fun _ m' => blk_touch R P B m m') m.
Proof.
  intros Hm [q Hq] Hp. pose proof (proj1 Hm _ _ Hq) as Hok. unfold reset_req_queue. wp_step.
  unfold wp at 1. rewrite (load_req_run p m q Hq). wp_step.
  apply blk_touch_req; [done..|]. apply blk_req_queue_ok_head; [done|]. by destruct Hok as (_&?&_).
Qed.

(** Rounds of the inner loop keep the frame and count what they complete. *)
Lemma wp_blk_rounds v m c n fuel :
  blk_mem_ok m -> blk_client_ok m c -> blk_backends_ok v -> blk_usable c ->
  (exists q pq i, blk_open m c q pq i) -> 0 <= n -> n + Z.of_nat fuel < 2 ^ 32 ->
  wp (for_loop fuel 0 n (fun _ completed => blk_pump_one v c completed))
     (fun n' m' => blk_touch [bvc_req c] [bvc_resp c] (blk_regions_of c) m m' /\
                   n <= n' <= n + Z.of_nat fuel) m.
Proof.
  intros Hm Hc Hb Hu Hopen Hn Hbig.
  apply wp_for with (Inv := fun k n' m' =>
    blk_touch [bvc_req c] [bvc_resp c] (blk_regions_of c) m m' /\ n <= n' <= n + k /\
    exists q pq i, blk_open m' c q pq i).
  - split_and?; [by apply blk_touch_refl|lia..|done].
  - intros k n' m1 Hk (Ht&Hn'&q&pq&i&Ho).
    eapply wp_mono; [apply (wp_blk_pump_one v m1 c q pq i n'); auto; [apply Ht|]|].
    { by eapply blk_touch_client. }
    intros r m2. simpl. case_cmp; [intros [-> ->]; simpl; split; [done|lia]|].
    intros (a&_&->&Ht2&Ho2). simpl. rewrite u32_small by (unfold is_u32; lia).
    split_and?; [by eapply blk_touch_trans|lia..|eauto].
  - intros n' m' (?&?&_). auto.
Qed.

Lemma wp_blk_pump_client v m c n :
  blk_mem_ok m -> blk_client_ok m c -> blk_backends_ok v -> 0 <= n ->
  n + AOS_BLK_QUEUE_CAPACITY < 2 ^ 32 ->
  wp (blk_pump_client v c n)
     (fun n' m' => blk_touch [bvc_req c] [bvc_resp c] (blk_regions_of c) m m' /\
                   n <= n' <= n + AOS_BLK_QUEUE_CAPACITY) m.
Proof.
  intros Hm Hc Hb Hn Hbig. pose proof Hc as (Hcap&_&_&Hin&Hrn&Hpn&_).
  assert (blk_touch [bvc_req c] [bvc_resp c] (blk_regions_of c) m m /\
    n <= n <= n + AOS_BLK_QUEUE_CAPACITY) as Hskip.
  { split; [by apply blk_touch_refl|unfold AOS_BLK_QUEUE_CAPACITY; lia]. }
  unfold blk_pump_client. unfold AOS_BLK_QUEUE_CAPACITY, is_u32 in *.
  wp_step; [by wp_step|].
  destruct (Hin ltac:(lia)) as [i Hi]. destruct (Hrn ltac:(lia)) as [q Hq].
  destruct (Hpn ltac:(lia)) as [pq Hpq].
  wp_step. unfold wp at 1. rewrite (resp_valid_run _ _ m pq) by (done || unfold AOS_BLK_QUEUE_CAPACITY; lia).
  destruct (Z.leb_spec (resp_len pq) (bvc_capacity c)) as [Hpl|]; simpl.
  2:{ wp_step. eapply wp_mono; [apply (blk_reset_resp [bvc_req c] [bvc_resp c] (blk_regions_of c)); [done|eauto|in_list]|].
      intros ? m' Ht. wp_step. split; [done|lia]. }
  wp_step. unfold wp at 1. rewrite (req_valid_run _ _ m q) by (done || unfold AOS_BLK_QUEUE_CAPACITY; lia).
  destruct (Z.leb_spec (req_len q) (bvc_capacity c)) as [Hql|]; simpl.
  2:{ wp_step. eapply wp_mono; [apply (blk_reset_req [bvc_req c] [bvc_resp c] (blk_regions_of c)); [done|eauto|in_list]|].
      intros ? m' Ht. wp_step. split; [done|lia]. }
  eapply wp_mono; [apply wp_blk_rounds; try done; [|by exists q, pq, i|lia]|].
  - unfold blk_usable, AOS_BLK_QUEUE_CAPACITY. lia.
  - intros n' m' [??]. split; [done|lia].
Qed.

Lemma blk_attached_get m v i c :
  blk_virt_ok m v -> 0 <= i < bv_num_clients v -> aget (bv_clients v) i = Some c ->
  c ∈ blk_attached v /\ blk_client_ok m c.
Proof.
  intros (?&?&Hc) Hi [_ Hg]%aget_Some.
  assert (c ∈ blk_attached v) as Hin.
  { apply (list_elem_of_lookup_2 _ (Z.to_nat i)). unfold blk_attached. by rewrite lookup_take_lt by lia. }
  split; [done|by apply Hc].
Qed.

Lemma blk_attached_touch v c m m' :
  c ∈ blk_attached v -> blk_touch [bvc_req c] [bvc_resp c] (blk_regions_of c) m m' ->
  blk_touch (blk_pump_reqs v) (blk_pump_resps v) (blk_pump_regions v) m m'.
Proof.
  intros Hc. apply blk_touch_mono.
  - intros p ->%list_elem_of_singleton. by apply list_elem_of_fmap_2.
  - intros p ->%list_elem_of_singleton. by apply list_elem_of_fmap_2.
  - intros p Hp. apply list_elem_of_bind. eauto.
Qed.

(** The pump, client by client: [Inv i] holds before client [i]. *)
Lemma wp_blk_pump_by (Inv : Z -> blk_mem -> Prop) v m :
  blk_mem_ok m -> blk_virt_ok m v -> blk_backends_ok v ->
  Inv 0 m ->
  (forall i c n m1, 0 <= i < bv_num_clients v -> aget (bv_clients v) i = Some c ->
     c ∈ blk_attached v -> blk_mem_ok m1 -> blk_client_ok m1 c -> 0 <= n ->
     n + AOS_BLK_QUEUE_CAPACITY < 2 ^ 32 -> Inv i m1 ->
     wp (blk_pump_client v c n) (fun _ m2 => Inv (i + 1) m2) m1) ->
  wp (aos_blk_virt_pump v) (fun n m' =>
    blk_touch (blk_pump_reqs v) (blk_pump_resps v) (blk_pump_regions v) m m' /\
    0 <= n <= AOS_BLK_QUEUE_CAPACITY * bv_num_clients v /\ Inv (bv_num_clients v) m') m.
Proof.
  intros Hm Hv Hb H0 Hstep. pose proof Hv as (Hn&Hl&_).
  unfold aos_blk_virt_pump, AOS_BLK_MAX_CLIENTS in *.
  wp_step; [wp_step; split_and?; [by apply blk_touch_refl|lia..|]|].
  { by replace (bv_num_clients v) with 0 by lia. }
  apply wp_for with (Inv := fun i n m' =>
    blk_touch (blk_pump_reqs v) (blk_pump_resps v) (blk_pump_regions v) m m' /\
    0 <= n <= AOS_BLK_QUEUE_CAPACITY * i /\ Inv i m').
  - split_and?; [by apply blk_touch_refl|lia..|done].
  - intros i n m1 Hi (Ht&Hn1&HI). unfold AOS_BLK_QUEUE_CAPACITY in *.
    destruct (aget_lt (bv_clients v) i) as [c Hc]; [lia|].
    destruct (blk_attached_get m1 v i c) as [Hin Hcok]; [by eapply blk_touch_virt|lia|done|].
    wp_step. eapply wp_lift; [done|]. wp_step.
    eapply wp_mono; [apply wp_and; [apply wp_blk_pump_client|apply (Hstep i)]; try done; try apply Ht|];
      [unfold AOS_BLK_QUEUE_CAPACITY; lia..|].
    intros n' m2 [[Ht2 Hn2] HI2]. wp_step. simpl. unfold AOS_BLK_QUEUE_CAPACITY in Hn2.
    split_and?; [|lia..|done]. eapply blk_touch_trans; [exact Ht|]. by eapply blk_attached_touch.
  - intros n m' (?&?&?). rewrite Z2Nat.id in * by lia. auto.
Qed.

Lemma blk_lists_open m c lq lp i :
  req_list (bvc_capacity c) m (bvc_req c) lq -> resp_list (bvc_capacity c) m (bvc_resp c) lp ->
  bm_info m !! bvc_info c = Some i ->
  exists q pq, blk_open m c q pq i /\ req_contents (bvc_capacity c) q = lq /\
    resp_contents (bvc_capacity c) pq = lp /\ Z.of_nat (length lq) = req_len q /\
    Z.of_nat (length lp) = resp_len pq.
Proof.
  intros (q&Hq&Hql&<-) (pq&Hpq&Hpl&<-) Hi. exists q, pq.
  rewrite length_req_contents, length_resp_contents. done.
Qed.

Lemma blk_serves_length v c ro b lq rs b' : blk_serves v c ro b lq rs b' -> length lq = length rs.
Proof. induction 1; [done|]. rewrite !length_app. simpl. lia. Qed.

Lemma blk_served_step v b m1 m2 c ro lq lp k q pq i a :
  blk_usable c -> (bvc_capacity c | 2 ^ 32) -> blk_mem_ok m1 ->
  blk_served v b (bm_bytes m1) m1 c ro lq lp k -> blk_open m1 c q pq i -> 0 < req_len q -> resp_len pq < bvc_capacity c ->
  blk_answers v c ro (bm_bytes m1) (brq_buffers q !!! Z.to_nat (brq_head q mod bvc_capacity c)) a (bm_bytes m2) ->
  blk_open m2 c (req_set_head q (u32 (brq_head q + 1)))
    (resp_push pq (<[Z.to_nat (bpq_tail pq mod bvc_capacity c) := a]> (bpq_buffers pq))) i ->
  blk_served v b (bm_bytes m2) m2 c ro lq lp (S k).
Proof.
  intros (_&_&_&Hcap) Hdiv Hm1 (rs&Hrs&(q0&Hq0&_&Hl)&(pq0&Hpq0&_&Hlp)) (Hq&Hpq&_) Hz Hf Ha (Hq2&Hpq2&_&?&?).
  assert (q0 = q) as -> by congruence. assert (pq0 = pq) as -> by congruence.
  pose proof (proj2 Hm1 _ _ Hpq) as Hpok. simpl in Hpok.
  rewrite req_contents_deq in Hl by done. symmetry in Hl.
  exists (rs ++ [a]). split_and?.
  - erewrite take_S_r; [by eapply blk_serves_snoc|].
    rewrite <- (Nat.add_0_r k), <- lookup_drop, Hl. done.
  - eexists. split_and?; [exact Hq2|done|]. rewrite <- (Nat.add_1_r k), <- drop_drop, Hl. done.
  - eexists. split_and?; [exact Hpq2|done|]. rewrite resp_contents_enq, Hlp by done. by rewrite app_assoc.
Qed.

Lemma wp_blk_serve_client v m c n lq lp i :
  blk_mem_ok m -> blk_client_ok m c -> blk_backends_ok v -> blk_usable c -> (bvc_capacity c | 2 ^ 32) ->
  bvc_info c <> NULL -> bm_info m !! bvc_info c = Some i ->
  req_list (bvc_capacity c) m (bvc_req c) lq -> resp_list (bvc_capacity c) m (bvc_resp c) lp ->
  wp (blk_pump_client v c n)
     (fun _ m' => blk_served v (bm_bytes m) (bm_bytes m') m' c (bsi_read_only i) lq lp
                    (blk_quota (bvc_capacity c) lq lp)) m.
Proof.
  intros Hm Hc Hb Hu Hdiv Hin Hi Hlq Hlp. pose proof Hu as (?&?&?&Hcap).
  destruct (blk_lists_open m c lq lp i) as (q&pq&(Hq&Hpq&_&Hql&Hpl)&_&_&Hnq&Hnp); [done..|].
  unfold blk_pump_client. wp_step; [lia|].
  wp_step. unfold wp at 1. rewrite (resp_valid_run _ _ m pq) by done.
  assert ((resp_len pq <=? bvc_capacity c) = true) as -> by lia. simpl.
  wp_step. unfold wp at 1. rewrite (req_valid_run _ _ m q) by done.
  assert ((req_len q <=? bvc_capacity c) = true) as -> by lia. simpl.
  apply wp_for with (Inv := fun k _ m' =>
    blk_touch [bvc_req c] [bvc_resp c] (blk_regions_of c) m m' /\
    blk_served v (bm_bytes m) (bm_bytes m') m' c (bsi_read_only i) lq lp (Z.to_nat k) /\
    (Z.to_nat k <= blk_quota (bvc_capacity c) lq lp)%nat).
  - split_and?; [by apply blk_touch_refl| |lia]. exists []. rewrite app_nil_r. split_and?; [constructor|done..].
  - intros k n' m1 Hk (Ht&Hserved&Hkq). pose proof Ht as (Hm1&Hi1&_).
    destruct Hserved as (rs&Hrs&Hlq1&Hlp1).
    assert (length rs = Z.to_nat k) as Hlen.
    { rewrite <- (blk_serves_length _ _ _ _ _ _ _ Hrs), length_take. unfold blk_quota in Hkq. lia. }
    destruct (blk_lists_open m1 c _ _ i Hlq1 Hlp1) as (q1&pq1&Ho1&_&_&Hnq1&Hnp1); [by rewrite Hi1|].
    rewrite length_drop in Hnq1. rewrite length_app, Hlen in Hnp1.
    eapply wp_mono; [apply (wp_blk_pump_one v m1 c q1 pq1 i n'); auto; by eapply blk_touch_client|].
    intros r m2. simpl. destruct ((req_len q1 =? 0) || (bvc_capacity c <=? resp_len pq1)) eqn:Hstop.
    + intros [-> ->]. simpl. assert (blk_quota (bvc_capacity c) lq lp = Z.to_nat k) as ->.
      { unfold blk_quota in *. lia. }
      by exists rs.
    + intros (a&Ha&->&Ht2&Ho2). simpl. split_and?; [by eapply blk_touch_trans| |unfold blk_quota; lia].
      replace (Z.to_nat (k + 1)) with (S (Z.to_nat k)) by lia.
      eapply (blk_served_step v _ m1 m2); [done|done|done|by exists rs|exact Ho1|lia|lia|exact Ha|exact Ho2].
  - intros n' m' (_&Hs&Hkq). assert (blk_quota (bvc_capacity c) lq lp = Z.to_nat (0 + Z.of_nat (Z.to_nat (bvc_capacity c)))) as ->.
    { unfold blk_quota in *. lia. }
    done.
Qed.

(** Another client's round leaves a client's queues alone. *)
Lemma blk_lists_frame R P B m m' c lq lp :
  blk_touch R P B m m' -> bvc_req c ∉ R -> bvc_resp c ∉ P ->
  req_list (bvc_capacity c) m (bvc_req c) lq -> resp_list (bvc_capacity c) m (bvc_resp c) lp ->
  req_list (bvc_capacity c) m' (bvc_req c) lq /\ resp_list (bvc_capacity c) m' (bvc_resp c) lp.
Proof.
  intros (_&_&_&_&HR&_&HP&_) ?? (q&?&?) (pq&?&?).
  split; [exists q; by rewrite HR|exists pq; by rewrite HP].
Qed.

Lemma blk_touch_bytes_ne R P B m m' p : blk_touch R P B m m' -> p ∉ B -> bm_bytes m' !! p = bm_bytes m !! p.
Proof. intros (_&_&_&_&_&_&_&_&HB). apply HB. Qed.

Lemma blk_regions_before_in v k j c p :
  0 <= j < k -> aget (bv_clients v) j = Some c -> p ∈ blk_regions_of c -> p ∈ blk_regions_before v k.
Proof.
  intros Hj [_ Hg]%aget_Some Hp. apply list_elem_of_bind. exists c. split; [done|].
  apply (list_elem_of_lookup_2 _ (Z.to_nat j)). by rewrite lookup_take_lt by lia.
Qed.
Lemma blk_regions_after_in v k j c p :
  0 <= k < j -> j < bv_num_clients v -> aget (bv_clients v) j = Some c -> p ∈ blk_regions_of c ->
  p ∈ blk_regions_after v k.
Proof.
  intros Hk Hj [_ Hg]%aget_Some Hp. apply list_elem_of_bind. exists c. split; [done|].
  apply (list_elem_of_lookup_2 _ (Z.to_nat j - S (Z.to_nat k))). unfold blk_attached.
  rewrite lookup_drop, lookup_take_lt by lia. rewrite <- Hg. f_equal. lia.
Qed.

Lemma wp_blk_serve v m k c lq lp i :
  blk_mem_ok m -> blk_virt_ok m v -> blk_backends_ok v -> blk_layout_disjoint v ->
  0 <= k < bv_num_clients v -> aget (bv_clients v) k = Some c ->
  blk_usable c -> (bvc_capacity c | 2 ^ 32) -> bvc_info c <> NULL ->
  bm_info m !! bvc_info c = Some i ->
  req_list (bvc_capacity c) m (bvc_req c) lq -> resp_list (bvc_capacity c) m (bvc_resp c) lp ->
  wp (aos_blk_virt_pump v)
     (fun _ m' => exists b b',
        (forall p, p ∉ blk_regions_before v k -> b !! p = bm_bytes m !! p) /\
        blk_served v b b' m' c (bsi_read_only i) lq lp (blk_quota (bvc_capacity c) lq lp) /\
        (forall p, p ∉ blk_regions_after v k -> bm_bytes m' !! p = b' !! p)) m.
Proof.
  intros Hm Hv Hb Hd Hk Hc Hu Hdiv Hin Hi Hlq Hlp.
  set (before := fun (b : gmap Z (list Z)) => forall p, p ∉ blk_regions_before v k -> b !! p = bm_bytes m !! p).
  set (Inv := fun j m' => bm_info m' = bm_info m /\
    if j <=? k then before (bm_bytes m') /\
      req_list (bvc_capacity c) m' (bvc_req c) lq /\ resp_list (bvc_capacity c) m' (bvc_resp c) lp
    else exists b b', before b /\ blk_served v b b' m' c (bsi_read_only i) lq lp (blk_quota (bvc_capacity c) lq lp) /\
      forall p, p ∉ blk_regions_after v k -> bm_bytes m' !! p = b' !! p).
  eapply wp_mono; [apply (wp_blk_pump_by Inv); try done|].
  - unfold Inv, before. assert ((0 <=? k) = true) as -> by lia. done.
  - intros j cj n m1 Hj Hcj Hin1 Hm1 Hcok Hn Hbig [Hinf HI].
    pose proof (wp_blk_pump_client v m1 cj n Hm1 Hcok Hb Hn Hbig) as Hsafe.
    destruct (Z.leb_spec j k) as [Hle|Hgt]; [destruct (decide (j = k)) as [->|Hjk]|].
    + assert (cj = c) as -> by congruence. destruct HI as (Hbf&Hlq1&Hlp1).
      eapply wp_mono; [apply wp_and; [exact Hsafe|apply (wp_blk_serve_client v m1 c n lq lp i); try done; by rewrite Hinf]|].
      intros n' m2 [[Ht _] Hs]. unfold Inv. assert ((k + 1 <=? k) = false) as -> by lia.
      split; [destruct Ht as (_&->&_); done|]. by exists (bm_bytes m1), (bm_bytes m2).
    + eapply wp_mono; [exact Hsafe|]. intros n' m2 [Ht _]. unfold Inv.
      assert ((j + 1 <=? k) = true) as -> by lia. destruct HI as (Hbf&Hlq1&Hlp1).
      split; [destruct Ht as (_&->&_); done|]. destruct (Hd k j c cj) as [Hr Hp]; [lia|done..|].
      split; [|eapply blk_lists_frame; [exact Ht| | |done|done]; not_in_list].
      intros p Hnp. rewrite (blk_touch_bytes_ne _ _ _ _ _ p Ht), Hbf; [done..|].
      intros Hreg. apply Hnp. apply (blk_regions_before_in v k j cj); done || lia.
    + eapply wp_mono; [exact Hsafe|]. intros n' m2 [Ht _]. unfold Inv.
      assert ((j + 1 <=? k) = false) as -> by lia.
      split; [destruct Ht as (_&->&_); done|]. destruct HI as (b&b'&Hbf&(rs&Hrs&Hlq1&Hlp1)&Haf).
      exists b, b'. destruct (Hd k j c cj) as [Hr Hp]; [lia|done..|].
      split; [done|]. split; [exists rs; split; [done|]; eapply blk_lists_frame; [exact Ht| | |done|done]; not_in_list|].
      intros p Hnp. rewrite (blk_touch_bytes_ne _ _ _ _ _ p Ht), Haf; [done..|].
      intros Hreg. apply Hnp. apply (blk_regions_after_in v k j cj); done || lia.
  - intros n m' (_&_&_&HI). assert ((bv_num_clients v <=? k) = false) as Hf by lia. by rewrite Hf in HI.
Qed.

(** ** Lemmas: detaching *)

Lemma req_list_nil cap m p q :
  bm_req m !! p = Some q -> 0 <= cap -> req_list cap m p [] <-> req_len q = 0.
Proof.
  intros Hq Hcap. pose proof (length_req_contents cap q) as Hl. split.
  - intros (q'&Hq'&_&Hnil). assert (q' = q) as -> by congruence. by rewrite Hnil in Hl.
  - intros Hz. exists q. rewrite Hz in Hl. split_and?; [done|lia|]. by destruct (req_contents cap q).
Qed.
Lemma resp_list_nil cap m p q :
  bm_resp m !! p = Some q -> 0 <= cap -> resp_list cap m p [] <-> resp_len q = 0.
Proof.
  intros Hq Hcap. pose proof (length_resp_contents cap q) as Hl. split.
  - intros (q'&Hq'&_&Hnil). assert (q' = q) as -> by congruence. by rewrite Hnil in Hl.
  - intros Hz. exists q. rewrite Hz in Hl. split_and?; [done|lia|]. by destruct (resp_contents cap q).
Qed.

Lemma blk_client_idle_run m c :
  blk_client_ok m c -> exists b, blk_client_idle c m = Some (b, m) /\ (b = true <-> blk_idle m c).
Proof.
  intros (Hcap&_&_&_&Hr&Hp&_). unfold blk_client_idle, blk_idle.
  destruct (decide (bvc_req c <> NULL /\ 0 < bvc_capacity c <= AOS_BLK_QUEUE_CAPACITY)) as [[Hrn Hc]|Hno].
  2:{ exists false. unfold aos_blk_queue_req_valid, is_u32 in *.
      assert ((bvc_req c =? NULL) || (bvc_capacity c =? 0) || (AOS_BLK_QUEUE_CAPACITY <? bvc_capacity c) = true) as -> by lia.
      split; [done|]. split; [discriminate|tauto]. }
  destruct (Hr Hrn) as [q Hq]. rewrite (run_bind _ _ _ _ _ (req_valid_run _ _ m q Hrn Hc Hq)).
  pose proof (req_list_nil (bvc_capacity c) m _ q Hq ltac:(lia)) as Hrl.
  destruct (decide (bvc_resp c = NULL)) as [Hz|Hpn].
  { exists false. split; [|split; [discriminate|tauto]]. destruct (req_len q <=? _); [simpl|done].
    unfold aos_blk_queue_resp_valid. by rewrite Hz. }
  destruct (Hp Hpn) as [pq Hpq]. pose proof (resp_list_nil (bvc_capacity c) m _ pq Hpq ltac:(lia)) as Hpl.
  exists ((req_len q =? 0) && (resp_len pq =? 0)). split; [|rewrite andb_true_iff, !Z.eqb_eq; tauto].
  destruct (Z.leb_spec (req_len q) (bvc_capacity c)); simpl; [|by destruct (Z.eqb_spec (req_len q) 0); [lia|]].
  rewrite (run_bind _ _ _ _ _ (resp_valid_run _ _ m pq Hpn Hc Hpq)).
  destruct (Z.leb_spec (resp_len pq) (bvc_capacity c)); simpl.
  - rewrite (run_bind _ _ _ _ _ (load_req_run _ m q Hq)). destruct (req_len q =? 0); [simpl|done].
    by rewrite (run_bind _ _ _ _ _ (load_resp_run _ m pq Hpq)).
  - destruct (Z.eqb_spec (resp_len pq) 0); [lia|by rewrite andb_false_r].
Qed.

(** The scan of [aos_blk_virt_detach] decides idleness of every client. *)
Lemma blk_detach_scan m cs : forall i pre,
  Z.of_nat (length pre) = i -> (forall c, c ∈ cs -> blk_client_ok m c) ->
  forall post, exists b, for_loop (length cs) i true (fun i _ =>
      c ← lift (aget (pre ++ cs ++ post) i); ok ← blk_client_idle c;
      mret (if (ok : bool) then Continue else Break, ok)) m = Some (b, m) /\
    (b = true <-> Forall (blk_idle m) cs).
Proof.
  induction cs as [|c cs IH]; intros i pre Hi Hok post; simpl; [by exists true|].
  destruct (blk_client_idle_run m c) as (b&Hb&Hiff); [apply Hok; in_list|].
  assert (aget (pre ++ c :: cs ++ post) i = Some c) as Hg.
  { apply aget_Some. split; [lia|]. rewrite lookup_app_r by lia. by replace (Z.to_nat i - length pre)%nat with 0%nat by lia. }
  unfold mbind at 1, prog_bind at 1. rewrite (run_lift _ _ _ _ Hg), (run_bind _ _ _ _ _ Hb).
  destruct b; simpl.
  2:{ exists false. split; [done|]. rewrite Forall_cons, <- Hiff. split; [discriminate|tauto]. }
  destruct (IH (i + 1) (pre ++ [c])) with (post := post) as (b&Hb'&Hiff'); [rewrite length_app; simpl; lia| |].
  { intros c' Hc'. apply Hok. by apply list_elem_of_further. }
  exists b. rewrite <- app_assoc in Hb'. simpl in Hb'. split; [done|]. rewrite Forall_cons, <- Hiff, <- Hiff'. tauto.
Qed.

(** [serve_one] on the RAM disk, for an accepted transfer. *)
Lemma serve_one_ram v m c req i d k (w := br_code req =? AOS_BLK_REQ_WRITE) :
  bv_backend v = None -> blk_client_ok m c -> bvc_data c <> NULL -> bvc_disk c <> NULL ->
  bvc_media_blocks c <= bvc_disk_blocks c -> blk_req_ok req -> request_valid c req = true ->
  (br_code req =? AOS_BLK_REQ_READ) || w = true ->
  bm_info m !! bvc_info c = Some i -> w && bsi_read_only i = false ->
  bm_bytes m !! bvc_data c = Some d -> bm_bytes m !! bvc_disk c = Some k ->
  serve_one v c req m =
  Some ({| bp_status := AOS_BLK_RESP_OK; bp_success_count := br_count req; bp_id := br_id req |},
    let n := br_count req * AOS_BLK_TRANSFER_SIZE in
    let b := br_block_number req * AOS_BLK_TRANSFER_SIZE in
    let o := br_io_or_offset req in
    set_bytes (if w then <[bvc_disk c := list_inserts (Z.to_nat b) (aslice d o n) k]> (bytes_of m)
               else <[bvc_data c := list_inserts (Z.to_nat o) (aslice k b n) d]> (bytes_of m)) m).
Proof.
  intros Hv Hc Hd Hk Hmb Hreq Hval Hrw Hi Hro Hdat Hdsk.
  pose proof (serve_rw_run m c req Hc Hd Hreq Hval Hrw d k w Hdat Hdsk Hk Hmb) as Hrun.
  cbv zeta in Hrun |- *. unfold serve_one. rewrite Hval, Hv. simpl.
  rewrite (run_bind _ _ _ _ _ (write_refused_run c req m i Hi)). fold w. rewrite Hro.
  subst w. destruct (Z.eqb_spec (br_code req) AOS_BLK_REQ_READ) as [Hr|_].
  - rewrite Hr in Hrun |- *. simpl in Hrun |- *. by rewrite (run_bind _ _ _ _ _ Hrun).
  - simpl in Hrw. rewrite Hrw in Hrun |- *. by rewrite (run_bind _ _ _ _ _ Hrun).
Qed.

(** ** Demonstration instance

    One client bound at the layout's address, served by a backend that is the
    RAM disk of 64 blocks behind the function pointer. *)
Definition blk_demo_disk : Z := 0x100000.
Definition blk_demo_client : aos_blk_virt_client :=
  aos_blk_client_set_ram_disk (aos_blk_client_bind 0x28000000 0 blk_client_zero) blk_demo_disk 64.
Definition blk_ram_backend : aos_blk_backend_fn := fun _ c req =>
  if br_code req =? AOS_BLK_REQ_READ then serve_rw c req false
  else if br_code req =? AOS_BLK_REQ_WRITE then serve_rw c req true
  else mret AOS_BLK_RESP_OK.
Definition blk_demo_virt (backend : option aos_blk_backend_fn) : aos_blk_virt :=
  {| bv_clients := [blk_demo_client; blk_client_zero]; bv_num_clients := 1;
     bv_backend := backend; bv_backend_ctx := 0 |}.
Definition blk_demo_write : aos_blk_req :=
  {| br_code := AOS_BLK_REQ_WRITE; br_io_or_offset := 8192; br_block_number := 3; br_count := 2; br_id := 7 |}.
Definition blk_demo_read : aos_blk_req :=
  {| br_code := AOS_BLK_REQ_READ; br_io_or_offset := 0; br_block_number := 3; br_count := 2; br_id := 9 |}.
Definition blk_demo_beyond : aos_blk_req :=
  {| br_code := AOS_BLK_REQ_READ; br_io_or_offset := 0; br_block_number := 63; br_count := 2; br_id := 8 |}.
Definition blk_demo_reqs : list aos_blk_req := [blk_demo_write; blk_demo_beyond; blk_demo_read].
Definition blk_demo_info : aos_blk_storage_info :=
  {| bsi_serial_number := []; bsi_read_only := false; bsi_ready := true; bsi_sector_size := 512;
     bsi_block_size := 1; bsi_queue_depth := 128; bsi_cylinders := 0; bsi_heads := 0;
     bsi_blocks := 0; bsi_capacity := 64 |}.
Definition blk_demo_mem : blk_mem :=
  {| bm_info := {[bvc_info blk_demo_client := blk_demo_info]};
     bm_signal := ∅;
     bm_req := {[bvc_req blk_demo_client :=
       {| brq_head := 0; brq_tail := 3; brq_plugged := false;
          brq_buffers := blk_demo_reqs ++ replicate 125 blk_req_zero |}]};
     bm_resp := {[bvc_resp blk_demo_client :=
       {| bpq_head := 5; bpq_tail := 5; bpq_buffers := replicate 128 blk_resp_zero |}]};
     bm_bytes := <[bvc_data blk_demo_client := replicate (Z.to_nat AOS_BLK_DATA_BYTES) 7]>
       {[blk_demo_disk := replicate (Z.to_nat 262144) 0]} |}.

Lemma blk_demo_mem_ok : blk_mem_ok blk_demo_mem.
Proof. split; apply map_Forall_singleton; by_compute. Qed.

Lemma blk_demo_data :
  bm_bytes blk_demo_mem !! bvc_data blk_demo_client = Some (replicate (Z.to_nat AOS_BLK_DATA_BYTES) 7).
Proof. apply lookup_insert_eq. Qed.

Lemma blk_demo_disk_bytes :
  bm_bytes blk_demo_mem !! bvc_disk blk_demo_client = Some (replicate (Z.to_nat 262144) 0).
Proof.
  unfold blk_demo_mem. cbn [bm_bytes]. rewrite lookup_insert_ne by discriminate.
  apply lookup_singleton_eq.
Qed.

Lemma blk_demo_client_ok : blk_client_ok blk_demo_mem blk_demo_client.
Proof.
  unfold blk_client_ok. split_and?; [by_compute..| | | | |]; intros _.
  - by eexists; apply lookup_singleton_eq.
  - by eexists; apply lookup_singleton_eq.
  - by eexists; apply lookup_singleton_eq.
  - eexists. split; [apply blk_demo_data|]. rewrite length_replicate. by_compute.
  - split; [done|]. eexists. split; [apply blk_demo_disk_bytes|]. rewrite length_replicate. by_compute.
Qed.

Lemma blk_demo_virt_ok backend : blk_virt_ok blk_demo_mem (blk_demo_virt backend).
Proof.
  unfold blk_virt_ok. split_and?; [by_compute..|]. intros c ->%list_elem_of_singleton.
  apply blk_demo_client_ok.
Qed.

Lemma blk_ram_backend_ok ctx : blk_backend_ok blk_ram_backend ctx.
Proof.
  intros m c req Hm Hc Hd Hreq Hval. unfold blk_ram_backend.
  destruct (br_code req =? AOS_BLK_REQ_READ) eqn:HR; [|destruct (br_code req =? AOS_BLK_REQ_WRITE) eqn:HW].
  - eapply wp_mono; [apply wp_serve_rw; try done; [by rewrite HR|]|by intros ?? [? _]].
    apply Z.eqb_eq in HR. by rewrite HR.
  - eapply wp_mono; [apply wp_serve_rw; rewrite ?HR, ?HW; done|by intros ?? [? _]].
  - wp_step. by apply blk_touch_refl.
Qed.

Lemma blk_demo_backends_ok : blk_backends_ok (blk_demo_virt (Some blk_ram_backend)).
Proof. intros b [= <-]. apply blk_ram_backend_ok. Qed.

(** ** Properties *)

(** C10. The block pump is safe against its clients. Whatever the shared
    queues contain, and for every backend that keeps its contract, one pump
    terminates without a forbidden access, leaves the storage information and
    everything but the attached clients' queues, data regions and media as it
    was, and completes at most one queue capacity of requests per client. *)
Theorem blk_pump_confined m v :
  blk_mem_ok m -> blk_virt_ok m v -> blk_backends_ok v ->
  exists n m', aos_blk_virt_pump v m = Some (n, m') /\
    blk_touch (blk_pump_reqs v) (blk_pump_resps v) (blk_pump_regions v) m m' /\
    0 <= n <= AOS_BLK_QUEUE_CAPACITY * bv_num_clients v.
Proof.
  intros Hm Hv Hb. apply wp_run. eapply wp_mono; [apply (wp_blk_pump_by (fun _ _ => True)); try done|].
  - intros. eapply wp_mono; [by apply wp_blk_pump_client|done].
  - intros n m' (?&?&_). done.
Qed.

Lemma blk_pump_confined_witness :
  exists n m', aos_blk_virt_pump (blk_demo_virt (Some blk_ram_backend)) blk_demo_mem = Some (n, m') /\
    blk_touch [bvc_req blk_demo_client] [bvc_resp blk_demo_client] (blk_regions_of blk_demo_client)
      blk_demo_mem m' /\ 0 <= n <= 128.
Proof.
  exact (blk_pump_confined blk_demo_mem (blk_demo_virt (Some blk_ram_backend))
    blk_demo_mem_ok (blk_demo_virt_ok _) blk_demo_backends_ok).
Defined.

(** C11. Requests are answered exactly once, in order, with the right
    status. For an attached client with consistent queues, one pump consumes
    the oldest requests, as many as there are answers the response queue can
    take, and appends for each, in the same order, one response with its id.
    Malformed requests are reported as invalid, writes to read-only media as
    an I/O error. Every other request gets the status that the backend
    returned for it, called once on the memory its predecessors left; with
    no backend it succeeds on the RAM disk with exactly its blocks copied, or
    reports that there is no device. A block count is reported exactly for
    transfers that succeeded. The requests that did not fit stay queued.
    The memory served is the caller's up to the other clients' regions. *)
Theorem blk_pump_answers_in_order m v k c lq lp i :
  blk_mem_ok m -> blk_virt_ok m v -> blk_backends_ok v -> blk_layout_disjoint v ->
  0 <= k < bv_num_clients v -> aget (bv_clients v) k = Some c ->
  blk_usable c -> (bvc_capacity c | 2 ^ 32) -> bvc_info c <> NULL ->
  bm_info m !! bvc_info c = Some i ->
  req_list (bvc_capacity c) m (bvc_req c) lq -> resp_list (bvc_capacity c) m (bvc_resp c) lp ->
  exists n m' b b' rs, aos_blk_virt_pump v m = Some (n, m') /\
    let served := blk_quota (bvc_capacity c) lq lp in
    (forall p, p ∉ blk_regions_before v k -> b !! p = bm_bytes m !! p) /\
    blk_serves v c (bsi_read_only i) b (take served lq) rs b' /\
    (forall p, p ∉ blk_regions_after v k -> bm_bytes m' !! p = b' !! p) /\
    req_list (bvc_capacity c) m' (bvc_req c) (drop served lq) /\
    resp_list (bvc_capacity c) m' (bvc_resp c) (lp ++ rs).
Proof.
  intros. destruct (wp_run _ _ _ (wp_blk_serve v m k c lq lp i ltac:(done) ltac:(done) ltac:(done)
    ltac:(done) ltac:(done) ltac:(done) ltac:(done) ltac:(done) ltac:(done) ltac:(done) ltac:(done)
    ltac:(done))) as (n&m'&Hrun&b&b'&Hbf&(rs&Hrs&?&?)&Haf).
  by exists n, m', b, b', rs.
Qed.

Lemma blk_demo_disjoint backend : blk_layout_disjoint (blk_demo_virt backend).
Proof. intros i j ci cj Hij Hi Hj. simpl in Hi, Hj. lia. Qed.

Lemma blk_demo_queues :
  req_list 128 blk_demo_mem (bvc_req blk_demo_client) blk_demo_reqs /\
  resp_list 128 blk_demo_mem (bvc_resp blk_demo_client) [].
Proof.
  split; (eexists; split; [apply lookup_singleton_eq|]; split; [discriminate|vm_compute; reflexivity]).
Qed.

(** With the backend, and with the RAM disk alone. *)
Lemma blk_pump_answers_in_order_witness :
  (exists n m' b b' rs, aos_blk_virt_pump (blk_demo_virt (Some blk_ram_backend)) blk_demo_mem = Some (n, m') /\
    blk_serves (blk_demo_virt (Some blk_ram_backend)) blk_demo_client false b blk_demo_reqs rs b' /\
    req_list 128 m' (bvc_req blk_demo_client) [] /\ resp_list 128 m' (bvc_resp blk_demo_client) rs) /\
  (exists n m' b b' rs, aos_blk_virt_pump (blk_demo_virt None) blk_demo_mem = Some (n, m') /\
    blk_serves (blk_demo_virt None) blk_demo_client false b blk_demo_reqs rs b' /\
    resp_list 128 m' (bvc_resp blk_demo_client) rs).
Proof.
  split.
  - destruct (blk_pump_answers_in_order blk_demo_mem (blk_demo_virt (Some blk_ram_backend)) 0
      blk_demo_client blk_demo_reqs [] blk_demo_info) as (n&m'&b&b'&rs&Hrun&_&Hs&_&Hq&Hr);
      [exact blk_demo_mem_ok|apply blk_demo_virt_ok|exact blk_demo_backends_ok|apply blk_demo_disjoint
      |split; by_compute|reflexivity|repeat split; by_compute|by exists (2 ^ 25)|discriminate
      |apply lookup_singleton_eq|apply blk_demo_queues..|].
    exists n, m', b, b', rs. split_and!; [exact Hrun|exact Hs|exact Hq|exact Hr].
  - destruct (blk_pump_answers_in_order blk_demo_mem (blk_demo_virt None) 0
      blk_demo_client blk_demo_reqs [] blk_demo_info) as (n&m'&b&b'&rs&Hrun&_&Hs&_&_&Hr);
      [exact blk_demo_mem_ok|apply blk_demo_virt_ok|by intros ? ?|apply blk_demo_disjoint
      |split; by_compute|reflexivity|repeat split; by_compute|by exists (2 ^ 25)|discriminate
      |apply lookup_singleton_eq|apply blk_demo_queues..|].
    exists n, m', b, b', rs. split_and!; [exact Hrun|exact Hs|exact Hr].
Defined.

(** C32. The RAM disk stores what it is given. A write accepted by the
    virtualizer succeeds; a later accepted read, whatever the client did to
    its data region in between, returns exactly the bytes written when it
    names the same blocks, and the medium's earlier content when the blocks
    are disjoint from the written ones. *)
Theorem blk_ram_disk_roundtrip m v c i w r d k :
  bv_backend v = None -> blk_client_ok m c -> bvc_data c <> NULL -> bvc_disk c <> NULL ->
  bvc_media_blocks c <= bvc_disk_blocks c ->
  bm_info m !! bvc_info c = Some i -> bsi_read_only i = false ->
  bm_bytes m !! bvc_data c = Some d -> bm_bytes m !! bvc_disk c = Some k ->
  blk_req_ok w -> request_valid c w = true -> br_code w = AOS_BLK_REQ_WRITE ->
  blk_req_ok r -> request_valid c r = true -> br_code r = AOS_BLK_REQ_READ ->
  let ok q := {| bp_status := AOS_BLK_RESP_OK; bp_success_count := br_count q; bp_id := br_id q |} in
  let bytes q := br_count q * AOS_BLK_TRANSFER_SIZE in
  exists m1, serve_one v c w m = Some (ok w, m1) /\
    forall m2, blk_client_ok m2 c -> bm_info m2 = bm_info m1 ->
      bm_bytes m2 !! bvc_disk c = bm_bytes m1 !! bvc_disk c ->
      exists m3 d3, serve_one v c r m2 = Some (ok r, m3) /\ bm_bytes m3 !! bvc_data c = Some d3 /\
        (br_block_number r = br_block_number w -> br_count r = br_count w ->
         aslice d3 (br_io_or_offset r) (bytes r) = aslice d (br_io_or_offset w) (bytes w)) /\
        (br_block_number r + br_count r <= br_block_number w \/
         br_block_number w + br_count w <= br_block_number r ->
         aslice d3 (br_io_or_offset r) (bytes r) =
         aslice k (br_block_number r * AOS_BLK_TRANSFER_SIZE) (bytes r)).
Proof.
  intros Hv Hc Hdn Hkn Hmb Hi Hro Hd Hk Hw Hwv Hww Hr Hrv Hrr ok bytes.
  pose proof Hc as (_&_&Hmu&_&_&_&Hdl&Hkl).
  destruct (Hdl Hdn) as (d'&?&Hdlen). destruct (Hkl Hkn) as (_&k'&?&Hklen).
  assert (d' = d) as -> by congruence. assert (k' = k) as -> by congruence.
  destruct (request_valid_bounds c w) as (?&?&_&_&_&?&?&?); [done..|by rewrite Hww|done|].
  destruct (request_valid_bounds c r) as (?&?&_&_&_&?&?&?); [done..|by rewrite Hrr|done|].
  eexists. split; [apply (serve_one_ram v m c w i d k); rewrite ?Hww; done|].
  rewrite Hww. simpl. rewrite lookup_insert_eq. intros m2 Hc2 Hi2 Hk2.
  pose proof Hc2 as (_&_&_&_&_&_&Hdl2&_). destruct (Hdl2 Hdn) as (d2&Hd2&Hd2len).
  eexists _, _. split_and?; [eapply (serve_one_ram v m2 c r i d2); rewrite ?Hrr, ?Hi2; done|
    rewrite Hrr; apply lookup_insert_eq|..]; unfold bytes, AOS_BLK_TRANSFER_SIZE in *.
  - intros Hb Hn. rewrite aslice_inserts by (rewrite ?length_aslice; rewrite ?length_inserts; lia).
    rewrite Hb, Hn. apply aslice_inserts; [lia|rewrite length_aslice; lia|lia].
  - intros Hdis. rewrite aslice_inserts by (rewrite ?length_aslice; rewrite ?length_inserts; lia).
    apply aslice_inserts_ne; [lia..|]. rewrite length_aslice by lia. lia.
Qed.

Lemma blk_ram_disk_roundtrip_witness :
  exists m1, serve_one (blk_demo_virt None) blk_demo_client blk_demo_write blk_demo_mem =
    Some ({| bp_status := 0; bp_success_count := 2; bp_id := 7 |}, m1).
Proof.
  destruct (blk_ram_disk_roundtrip blk_demo_mem (blk_demo_virt None) blk_demo_client blk_demo_info
    blk_demo_write blk_demo_read (replicate (Z.to_nat AOS_BLK_DATA_BYTES) 7)
    (replicate (Z.to_nat 262144) 0)) as (m1&Hrun&_).
  - reflexivity.
  - exact blk_demo_client_ok.
  - discriminate.
  - discriminate.
  - by_compute.
  - apply lookup_singleton_eq.
  - reflexivity.
  - exact blk_demo_data.
  - exact blk_demo_disk_bytes.
  - by_compute.
  - reflexivity.
  - reflexivity.
  - by_compute.
  - reflexivity.
  - reflexivity.
  - exists m1. exact Hrun.
Defined.

(** Detaching is all or nothing. It succeeds exactly when every attached
    client's request and response queues are consistent and empty, it never
    changes shared memory, a refusal leaves the virtualizer as it was, and
    after a success no client or backend reference is left: pumping again
    does nothing. *)
Theorem blk_detach_exact m v :
  blk_virt_ok m v ->
  exists b v', aos_blk_virt_detach v m = Some ((b, v'), m) /\
    (b = true <-> Forall (blk_idle m) (blk_attached v)) /\
    (b = false -> v' = v) /\
    (b = true -> bv_backend v' = None /\ bv_clients v' = replicate 2 blk_client_zero /\
                 forall m', aos_blk_virt_pump v' m' = Some (0, m')).
Proof.
  intros (Hn&Hl&Hok). unfold aos_blk_virt_detach, AOS_BLK_MAX_CLIENTS in *.
  assert ((2 <? bv_num_clients v) = false) as -> by lia.
  destruct (blk_detach_scan m (blk_attached v) 0 [] eq_refl Hok (drop (Z.to_nat (bv_num_clients v)) (bv_clients v)))
    as (b&Hrun&Hiff).
  unfold blk_attached in Hrun at 2. simpl in Hrun. rewrite take_drop in Hrun.
  replace (length (blk_attached v)) with (Z.to_nat (bv_num_clients v)) in Hrun
    by (unfold blk_attached; rewrite length_take; lia).
  rewrite (run_bind _ _ _ _ _ Hrun). destruct b.
  - eexists _, _. split; [done|]. split_and?; [done..|]. intros _. simpl. split_and?; [done| |done].
    destruct (bv_clients v) as [|? [|? [|??]]]; simpl in Hl; (lia || done).
  - exists false, v. done.
Qed.

Lemma blk_detach_exact_witness :
  exists (b : bool) (v' : aos_blk_virt), aos_blk_virt_detach (blk_demo_virt None) blk_demo_mem = Some ((b, v'), blk_demo_mem) /\
    (b = true <-> Forall (blk_idle blk_demo_mem) [blk_demo_client]).
Proof.
  destruct (blk_detach_exact blk_demo_mem (blk_demo_virt None) (blk_demo_virt_ok None))
    as (b&v'&Hrun&Hiff&_).
  exists b, v'. split; [exact Hrun|exact Hiff].
Defined.
