(* ===== verification/SerialQueue.v ===== *)
(** * Serial byte queues

    platform/serial_virt_pump.h, platform/serial_virt_layout.h and
    serial-virt/pump.c: the sDDF byte queue between two protection domains.
    The indices and the bytes are shared memory that a peer can fill with
    anything; the handle, with the capacity, is private. A handle is passed
    by value; the caller's own buffers are lists, [None] for a null pointer.
    Loads of the peer's index are single atomic snapshots, so each operation
    is one step on the shared memory. *)

From S2P Require Import Prelude Ring Bytes.

(** ** Layout *)

Definition AOS_SERIAL_RX_CAPACITY : Z := 4096.
Definition AOS_SERIAL_TX_CAPACITY : Z := 65536.
Definition AOS_SERIAL_CLIENTS : Z := 3.
Definition AOS_SERIAL_FRAME_SIZE : Z := 0x200000.
Definition AOS_SERIAL_SHMEM_VA : Z := 0x2a000000.
Definition AOS_SERIAL_FRONTEND_FRAME : Z := 3.
Definition AOS_SERIAL_FRONTEND_STRIDE : Z := 0x20000.
Definition AOS_SERIAL_META_OFF : Z := 0.
Definition AOS_SERIAL_TO_GUEST_QUEUE_OFF : Z := 0x1000.
Definition AOS_SERIAL_FROM_GUEST_QUEUE_OFF : Z := 0x2000.
Definition AOS_SERIAL_TO_GUEST_DATA_OFF : Z := 0x3000.
Definition AOS_SERIAL_FROM_GUEST_DATA_OFF : Z := 0x4000.
Definition AOS_SERIAL_FRONTEND_CLOSED : Z := 1.
Definition AOS_SERIAL_FRONTEND_BUSY : Z := 2.

Record aos_serial_queue := {
  sq_tail : Z;
  sq_head : Z;
  sq_producer_signalled : Z;
}.

Record aos_serial_queue_handle := {
  sqh_queue : Z;
  sqh_data : Z;
  sqh_capacity : Z;
}.

Record aos_serial_channel_meta := {
  scm_guest_state : Z;
  scm_attached : Z;
  scm_frontend_gate : Z;
}.

Record aos_serial_channel := {
  sch_to_guest : aos_serial_queue_handle;
  sch_from_guest : aos_serial_queue_handle;
  sch_meta : Z;
}.

Definition serial_queue_zero : aos_serial_queue :=
  {| sq_tail := 0; sq_head := 0; sq_producer_signalled := 0 |}.
Definition serial_handle_zero : aos_serial_queue_handle :=
  {| sqh_queue := 0; sqh_data := 0; sqh_capacity := 0 |}.
Definition serial_channel_zero : aos_serial_channel :=
  {| sch_to_guest := serial_handle_zero; sch_from_guest := serial_handle_zero; sch_meta := 0 |}.

Definition aos_serial_channel_at (base : Z) : aos_serial_channel :=
  {| sch_to_guest :=
       {| sqh_queue := base + AOS_SERIAL_TO_GUEST_QUEUE_OFF;
          sqh_data := base + AOS_SERIAL_TO_GUEST_DATA_OFF;
          sqh_capacity := AOS_SERIAL_RX_CAPACITY |};
     sch_from_guest :=
       {| sqh_queue := base + AOS_SERIAL_FROM_GUEST_QUEUE_OFF;
          sqh_data := base + AOS_SERIAL_FROM_GUEST_DATA_OFF;
          sqh_capacity := AOS_SERIAL_TX_CAPACITY |};
     sch_meta := base + AOS_SERIAL_META_OFF |}.

(** ** Memory *)

Record serial_mem := {
  sm_queues : gmap Z aos_serial_queue;
  sm_metas : gmap Z aos_serial_channel_meta;
  sm_bytes : gmap Z (list Z);
}.

#[global, program] Instance serial_mem_bytes : ByteStore serial_mem := {|
  bytes_of := sm_bytes;
  set_bytes b m := {| sm_queues := sm_queues m; sm_metas := sm_metas m; sm_bytes := b |};
|}.
Solve Obligations with by intros; repeat match goal with m : serial_mem |- _ => destruct m end.

Definition set_squeue (p : Z) (q : aos_serial_queue) (m : serial_mem) : serial_mem :=
  {| sm_queues := <[p := q]> (sm_queues m); sm_metas := sm_metas m; sm_bytes := sm_bytes m |}.
Definition set_meta (p : Z) (x : aos_serial_channel_meta) (m : serial_mem) : serial_mem :=
  {| sm_queues := sm_queues m; sm_metas := <[p := x]> (sm_metas m); sm_bytes := sm_bytes m |}.

Definition load_squeue (p : Z) : prog serial_mem aos_serial_queue :=
  m ← get_state; lift (sm_queues m !! p).
Definition load_meta (p : Z) : prog serial_mem aos_serial_channel_meta :=
  m ← get_state; lift (sm_metas m !! p).

(** Atomic stores of one index. *)
Definition store_head (p h : Z) : prog serial_mem unit :=
  q ← load_squeue p;
  modify (set_squeue p {| sq_tail := sq_tail q; sq_head := h;
                          sq_producer_signalled := sq_producer_signalled q |}).
Definition store_stail (p t : Z) : prog serial_mem unit :=
  q ← load_squeue p;
  modify (set_squeue p {| sq_tail := t; sq_head := sq_head q;
                          sq_producer_signalled := sq_producer_signalled q |}).

(** ** Operations (pump.c) *)

Definition AOS_SERIAL_PUMP_OK : Z := 0.
Definition AOS_SERIAL_PUMP_INVALID : Z := 1.
Definition AOS_SERIAL_PUMP_FULL : Z := 2.

Definition valid_handle (h : aos_serial_queue_handle) : bool :=
  negb (sqh_queue h =? NULL) && negb (sqh_data h =? NULL) && negb (sqh_capacity h =? 0) &&
  (Z.land (sqh_capacity h) (u32 (sqh_capacity h - 1)) =? 0).

(** The slot of index [i]: [i & (capacity - 1u)]. *)
Definition serial_slot (cap i : Z) : Z := Z.land (u32 i) (u32 (cap - 1)).

Definition aos_serial_queue_write (h : aos_serial_queue_handle) (bytes : option (list Z))
    (length : Z) : prog serial_mem Z :=
  if negb (valid_handle h) || (bool_decide (bytes = None) && negb (length =? 0))
  then mret AOS_SERIAL_PUMP_INVALID
  else
    q ← load_squeue (sqh_queue h);
    let tail := sq_tail q in
    let head := sq_head q in
    let occupied := u32 (tail - head) in
    if sqh_capacity h <? occupied then mret AOS_SERIAL_PUMP_INVALID
    else if u32 (sqh_capacity h - occupied) <? length then mret AOS_SERIAL_PUMP_FULL
    else
      for_loop (Z.to_nat length) 0 tt (fun i _ =>
        b ← lift (bytes ≫= fun l => aget l i);
        store_byte (sqh_data h) (serial_slot (sqh_capacity h) (tail + i)) b;;
        mret (Continue, tt));;
      (if negb (length =? 0) then store_stail (sqh_queue h) (u32 (tail + length)) else mret tt);;
      mret AOS_SERIAL_PUMP_OK.

(** Returns the status, the caller's buffer and [*length]. *)
Definition aos_serial_queue_read (h : aos_serial_queue_handle) (bytes : option (list Z))
    (capacity : Z) : prog serial_mem (Z * option (list Z) * Z) :=
  if negb (valid_handle h) || (bool_decide (bytes = None) && negb (capacity =? 0))
  then mret (AOS_SERIAL_PUMP_INVALID, bytes, 0)
  else
    q ← load_squeue (sqh_queue h);
    let head := sq_head q in
    let tail := sq_tail q in
    let available := u32 (tail - head) in
    if sqh_capacity h <? available then mret (AOS_SERIAL_PUMP_INVALID, bytes, 0)
    else
      let count := if available <? capacity then available else capacity in
      bytes ← for_loop (Z.to_nat count) 0 bytes (fun i bytes =>
        b ← load_byte (sqh_data h) (serial_slot (sqh_capacity h) (head + i));
        bytes ← lift (l ← bytes; aset l i b);
        mret (Continue, Some bytes));
      (if negb (count =? 0) then store_head (sqh_queue h) (u32 (head + count)) else mret tt);;
      mret (AOS_SERIAL_PUMP_OK, bytes, count).

(** Returns the status and [*transferred]. *)
Definition aos_serial_virt_transfer (source destination : aos_serial_queue_handle) (budget : Z)
    : prog serial_mem (Z * Z) :=
  if negb (valid_handle source) || negb (valid_handle destination) ||
     (sqh_queue source =? sqh_queue destination) || (sqh_data source =? sqh_data destination)
  then mret (AOS_SERIAL_PUMP_INVALID, 0)
  else
    sq ← load_squeue (sqh_queue source);
    dq ← load_squeue (sqh_queue destination);
    let available := u32 (sq_tail sq - sq_head sq) in
    let occupied := u32 (sq_tail dq - sq_head dq) in
    if (sqh_capacity source <? available) || (sqh_capacity destination <? occupied)
    then mret (AOS_SERIAL_PUMP_INVALID, 0)
    else
      let count := u32 (sqh_capacity destination - occupied) in
      let count := if available <? count then available else count in
      let count := if budget <? count then budget else count in
      for_loop (Z.to_nat count) 0 tt (fun i _ =>
        b ← load_byte (sqh_data source) (serial_slot (sqh_capacity source) (sq_head sq + i));
        store_byte (sqh_data destination)
          (serial_slot (sqh_capacity destination) (sq_tail dq + i)) b;;
        mret (Continue, tt));;
      (if negb (count =? 0) then
         store_stail (sqh_queue destination) (u32 (sq_tail dq + count));;
         store_head (sqh_queue source) (u32 (sq_head sq + count))
       else mret tt);;
      mret (AOS_SERIAL_PUMP_OK, count).

(** ** Specification-level definitions *)

(** The handle's queue and bytes are mapped, and the byte region has room
    for the private capacity. Nothing is said about the indices. *)
Definition serial_mapped (m : serial_mem) (h : aos_serial_queue_handle) (q : aos_serial_queue)
    (d : list Z) : Prop :=
  valid_handle h = true /\ is_u32 (sqh_capacity h) /\
  sm_queues m !! sqh_queue h = Some q /\ sm_bytes m !! sqh_data h = Some d /\
  sqh_capacity h <= Z.of_nat (length d).

(** Number of bytes the indices claim to be pending. *)
Definition serial_occupied (q : aos_serial_queue) : Z := u32 (sq_tail q - sq_head q).

(** The queue is consistent and its pending bytes are [l], oldest first. *)
Definition serial_list (m : serial_mem) (h : aos_serial_queue_handle) (l : list Z) : Prop :=
  exists q d, serial_mapped m h q d /\ serial_occupied q <= sqh_capacity h /\
    ring_contents (2 ^ 32) (sqh_capacity h) d (sq_head q) (sq_tail q) = l.

(** [m'] differs from [m] at most in the queues [Q] and the regions [B], and
    every region keeps its size. *)
Definition serial_touch (Q B : list Z) (m m' : serial_mem) : Prop :=
  sm_metas m' = sm_metas m /\
  (forall p, is_Some (sm_queues m !! p) -> is_Some (sm_queues m' !! p)) /\
  (forall p, p ∉ Q -> sm_queues m' !! p = sm_queues m !! p) /\
  (forall p d, sm_bytes m !! p = Some d ->
     exists d', sm_bytes m' !! p = Some d' /\ length d' = length d) /\
  (forall p, p ∉ B -> sm_bytes m' !! p = sm_bytes m !! p).

(** ** Lemmas: capacities *)

(** [c & (c - 1) == 0] means a power of two. *)
Lemma land_pred_pow2 c : 0 < c -> Z.land c (c - 1) = 0 -> c = 2 ^ Z.log2 c.
Proof.
  intros Hc Hl. pose proof (Z.log2_spec c Hc) as [Hlo Hhi].
  destruct (Z.eq_dec c (2 ^ Z.log2 c)) as [|Hne]; [done|exfalso].
  assert (Z.log2 (c - 1) = Z.log2 c) as Hk.
  { apply Z.log2_unique; [apply Z.log2_nonneg|lia]. }
  assert (0 < c - 1) as Hc1 by (pose proof (Z.pow_pos_nonneg 2 (Z.log2 c) ltac:(lia) (Z.log2_nonneg c)); lia).
  pose proof (Z.land_spec c (c - 1) (Z.log2 c)) as Hb.
  rewrite Hl, Z.bits_0, Z.bit_log2 in Hb by done.
  pose proof (Z.bit_log2 (c - 1) Hc1) as Hb1. rewrite Hk in Hb1. by rewrite Hb1 in Hb.
Qed.

Lemma valid_handle_pow2 h :
  valid_handle h = true -> is_u32 (sqh_capacity h) ->
  exists k, 0 <= k < 32 /\ sqh_capacity h = 2 ^ k.
Proof.
  unfold valid_handle, is_u32. rewrite !andb_true_iff, !negb_true_iff, Z.eqb_eq.
  intros [[[_ _] Hz] Hl] Hc. rewrite u32_small in Hl by (unfold is_u32; lia).
  exists (Z.log2 (sqh_capacity h)). split; [|apply land_pred_pow2; lia].
  split; [apply Z.log2_nonneg|]. apply Z.log2_lt_pow2; lia.
Qed.

Lemma valid_handle_cap h :
  valid_handle h = true -> is_u32 (sqh_capacity h) -> ring_cap_ok (2 ^ 32) (sqh_capacity h).
Proof.
  intros Hv Hc. destruct (valid_handle_pow2 h Hv Hc) as (k&Hk&->). unfold ring_cap_ok.
  split_and?; [apply Z.pow_pos_nonneg; lia|apply Z.pow_lt_mono_r; lia|].
  exists (2 ^ (32 - k)). rewrite <- Z.pow_add_r by lia. f_equal. lia.
Qed.

Lemma serial_slot_mod h i :
  valid_handle h = true -> is_u32 (sqh_capacity h) ->
  serial_slot (sqh_capacity h) i = i mod sqh_capacity h.
Proof.
  intros Hv Hc. pose proof (valid_handle_cap h Hv Hc) as Hr. unfold is_u32 in Hc.
  unfold serial_slot. rewrite (u32_small (_ - 1)) by (destruct Hr as [? _]; unfold is_u32; lia).
  rewrite <- (ring_slot_mod _ _ Hr). unfold u32.
  destruct (valid_handle_pow2 h Hv Hc) as (k&Hk&->).
  replace (2 ^ k - 1) with (Z.ones k) by (rewrite Z.ones_equiv; lia). by rewrite Z.land_ones by lia.
Qed.

(** ** Lemmas: the copy loops *)

Section loops.
Context (h : aos_serial_queue_handle).
Context (Hv : valid_handle h = true) (Hc : is_u32 (sqh_capacity h)).

(** A loop that stores the bytes [xs] it gets from [get] in consecutive slots
    is [ring_store]. *)
Lemma ring_store_loop (get : Z -> prog serial_mem Z) tail xs : forall i d s,
  0 <= i -> sm_bytes s !! sqh_data h = Some d -> sqh_capacity h <= Z.of_nat (length d) ->
  (forall j x d', xs !! j = Some x ->
     let s' := set_bytes (<[sqh_data h := d']> (bytes_of s)) s in
     get (i + Z.of_nat j) s' = Some (x, s')) ->
  for_loop (length xs) i tt (fun i _ => b ← get i;
    store_byte (sqh_data h) (serial_slot (sqh_capacity h) (tail + i)) b;; mret (Continue, tt)) s =
  Some (tt, set_bytes (<[sqh_data h := ring_store (sqh_capacity h) d (tail + i) xs]> (bytes_of s)) s).
Proof using Hv Hc.
  pose proof (valid_handle_cap h Hv Hc) as Hr.
  induction xs as [|x xs IH]; intros i d s Hi Hd Hl Hget.
  - simpl. rewrite insert_id by done. by destruct s.
  - cbn [length for_loop]. pose proof (Hget 0%nat x d eq_refl) as Hx. cbv zeta in Hx.
    rewrite insert_id, set_bytes_of, Z.add_0_r in Hx by done.
    pose proof (ring_slot_bound _ _ Hr (tail + i)) as Hs.
    assert (store_byte (sqh_data h) (serial_slot (sqh_capacity h) (tail + i)) x s =
      Some (tt, set_bytes (<[sqh_data h := <[Z.to_nat ((tail + i) mod sqh_capacity h) := x]> d]> (bytes_of s)) s)) as Hst.
    { rewrite serial_slot_mod by done. apply store_byte_run; [done|lia]. }
    unfold mbind at 1, prog_bind at 1. rewrite (run_bind _ _ _ _ _ Hx), (run_bind _ _ _ _ _ Hst).
    cbn [mret prog_ret]. rewrite (IH (i + 1) (<[Z.to_nat ((tail + i) mod sqh_capacity h) := x]> d)).
    + cbn [ring_store]. rewrite bytes_of_set, set_bytes_set, insert_insert_eq. do 5 f_equal. lia.
    + lia.
    + apply lookup_insert_eq.
    + by rewrite length_insert.
    + intros j y d' Hj. cbv zeta. rewrite bytes_of_set, set_bytes_set, insert_insert_eq.
      specialize (Hget (S j) y d' Hj). cbv zeta in Hget.
      by replace (i + 1 + Z.of_nat j) with (i + Z.of_nat (S j)) by lia.
Qed.

(** A loop that reads consecutive slots into a buffer. *)
Lemma ring_load_loop s d head n : forall i buf,
  sm_bytes s !! sqh_data h = Some d -> sqh_capacity h <= Z.of_nat (length d) ->
  0 <= i -> i + Z.of_nat n <= Z.of_nat (length buf) ->
  for_loop n i (Some buf) (fun i bytes =>
    b ← load_byte (sqh_data h) (serial_slot (sqh_capacity h) (head + i));
    bytes ← lift (l ← bytes; aset l i b); mret (Continue, Some bytes)) s =
  Some (Some (list_inserts (Z.to_nat i)
    ((fun k => d !!! Z.to_nat ((head + k) mod sqh_capacity h)) <$> seqZ i (Z.of_nat n)) buf), s).
Proof using Hv Hc.
  pose proof (valid_handle_cap h Hv Hc) as Hr.
  induction n as [|n IH]; intros i buf Hd Hl Hi Hb; [done|].
  cbn [for_loop]. pose proof (ring_slot_bound _ _ Hr (head + i)) as Hs.
  set (x := d !!! Z.to_nat ((head + i) mod sqh_capacity h)).
  assert (load_byte (sqh_data h) (serial_slot (sqh_capacity h) (head + i)) s = Some (x, s)) as Hld.
  { rewrite serial_slot_mod by done. apply (load_byte_run _ _ _ d); [done|]. apply aget_total. lia. }
  unfold mbind at 1, prog_bind at 1. rewrite (run_bind _ _ _ _ _ Hld).
  rewrite (run_lift _ _ _ (<[Z.to_nat i := x]> buf)) by (simpl; apply aset_Some; lia).
  cbn [mret prog_ret]. rewrite IH by (rewrite ?length_insert; done || lia).
  rewrite (seqZ_cons i) by lia. cbn [fmap list_fmap list_inserts]. fold x.
  rewrite list_insert_inserts_lt by lia.
  replace (Z.to_nat (i + 1)) with (S (Z.to_nat i)) by lia.
  by replace (Z.pred (Z.of_nat (S n))) with (Z.of_nat n) by lia.
Qed.
End loops.

(** ** Lemmas: what each operation does *)

Lemma serial_list_open m h l :
  serial_list m h l ->
  exists q d, serial_mapped m h q d /\ ring_cap_ok (2 ^ 32) (sqh_capacity h) /\
    serial_occupied q = Z.of_nat (length l) /\ Z.of_nat (length l) <= sqh_capacity h /\
    ring_contents (2 ^ 32) (sqh_capacity h) d (sq_head q) (sq_tail q) = l.
Proof.
  intros (q&d&Hm&Ho&Hl). exists q, d. pose proof Hm as (Hv&Hc&_).
  assert (serial_occupied q = Z.of_nat (length l)) as Heq.
  { rewrite <- Hl, length_ring_contents. unfold serial_occupied, u32, ring_len.
    pose proof (Z.mod_pos_bound (sq_tail q - sq_head q) (2 ^ 32)). lia. }
  split_and?; [done|by apply valid_handle_cap|done|lia|done].
Qed.

Lemma load_squeue_run p m q : sm_queues m !! p = Some q -> load_squeue p m = Some (q, m).
Proof. intros Hq. unfold load_squeue. by rewrite run_get, Hq. Qed.

Lemma store_stail_run p t m q :
  sm_queues m !! p = Some q ->
  store_stail p t m = Some (tt, set_squeue p {| sq_tail := t; sq_head := sq_head q;
                                  sq_producer_signalled := sq_producer_signalled q |} m).
Proof. intros Hq. unfold store_stail. by rewrite (run_bind _ _ _ _ _ (load_squeue_run p m q Hq)). Qed.
Lemma store_head_run p t m q :
  sm_queues m !! p = Some q ->
  store_head p t m = Some (tt, set_squeue p {| sq_tail := sq_tail q; sq_head := t;
                                 sq_producer_signalled := sq_producer_signalled q |} m).
Proof. intros Hq. unfold store_head. by rewrite (run_bind _ _ _ _ _ (load_squeue_run p m q Hq)). Qed.

(** The memory after [xs] was appended to the queue of [h]. *)
Definition serial_pushed (m : serial_mem) (h : aos_serial_queue_handle) (q : aos_serial_queue)
    (d xs : list Z) : serial_mem :=
  set_squeue (sqh_queue h)
    {| sq_tail := u32 (sq_tail q + Z.of_nat (length xs)); sq_head := sq_head q;
       sq_producer_signalled := sq_producer_signalled q |}
    (set_bytes (<[sqh_data h := ring_store (sqh_capacity h) d (sq_tail q) xs]> (bytes_of m)) m).

(** The memory after [n] bytes were consumed. *)
Definition serial_popped (m : serial_mem) (h : aos_serial_queue_handle) (q : aos_serial_queue)
    (n : Z) : serial_mem :=
  set_squeue (sqh_queue h)
    {| sq_tail := sq_tail q; sq_head := u32 (sq_head q + n);
       sq_producer_signalled := sq_producer_signalled q |} m.

Lemma serial_pushed_list m h q d l xs :
  serial_mapped m h q d -> ring_contents (2 ^ 32) (sqh_capacity h) d (sq_head q) (sq_tail q) = l ->
  serial_occupied q = Z.of_nat (length l) ->
  Z.of_nat (length l) + Z.of_nat (length xs) <= sqh_capacity h ->
  serial_list (serial_pushed m h q d xs) h (l ++ xs).
Proof.
  intros (Hv&Hc&Hq&Hd&Hl) Hct Ho Hroom. pose proof (valid_handle_cap h Hv Hc) as Hr.
  unfold serial_occupied, u32 in Ho.
  eexists _, _. split_and?.
  - unfold serial_mapped. split_and?; [done..| | |].
    + apply lookup_insert_eq.
    + apply lookup_insert_eq.
    + by rewrite length_ring_store.
  - unfold serial_occupied, u32. simpl. rewrite Zminus_mod_idemp_l.
    pose proof (ring_len_grow _ _ Hr (sq_head q) (sq_tail q) (Z.of_nat (length xs)) ltac:(lia)) as Hg.
    unfold ring_len in Hg. destruct Hr as (_&?&_). rewrite Hg; lia.
  - simpl. unfold u32. rewrite ring_contents_mod_tail, <- Hct. apply ring_contents_store; [done..|].
    unfold ring_len. lia.
Qed.

Lemma serial_popped_list m h q d l n :
  serial_mapped m h q d -> ring_contents (2 ^ 32) (sqh_capacity h) d (sq_head q) (sq_tail q) = l ->
  serial_occupied q = Z.of_nat (length l) -> Z.of_nat (length l) <= sqh_capacity h ->
  (n <= length l)%nat -> serial_list (serial_popped m h q (Z.of_nat n)) h (drop n l).
Proof.
  intros (Hv&Hc&Hq&Hd&Hl) Hct Ho Hroom Hn. pose proof (valid_handle_cap h Hv Hc) as Hr.
  unfold serial_occupied, u32 in Ho.
  eexists _, _. split_and?.
  - unfold serial_mapped. split_and?; [done..|apply lookup_insert_eq|exact Hd|done].
  - unfold serial_occupied, u32. simpl. rewrite Zminus_mod_idemp_r.
    pose proof (ring_len_shrink _ _ Hr (sq_head q) (sq_tail q) (Z.of_nat n)) as Hg.
    unfold ring_len in Hg. rewrite Hg; lia.
  - simpl. unfold u32. rewrite (ring_contents_mod_head _ _ Hr), <- Hct.
    apply ring_contents_drop; [done|]. unfold ring_len. lia.
Qed.

Lemma serial_touch_refl Q B m : serial_touch Q B m m.
Proof. unfold serial_touch. split_and?; eauto. Qed.

Lemma serial_touch_trans Q B m1 m2 m3 :
  serial_touch Q B m1 m2 -> serial_touch Q B m2 m3 -> serial_touch Q B m1 m3.
Proof.
  intros (Hm1&?&HQ1&HL1&HB1) (Hm2&?&HQ2&HL2&HB2). unfold serial_touch.
  split_and?; [congruence|auto| | |].
  - intros p Hp. by rewrite HQ2, HQ1.
  - intros p d (d1&(d2&?&?)%HL2&?)%HL1. exists d2. split; [done|congruence].
  - intros p Hp. by rewrite HB2, HB1.
Qed.

Lemma serial_touch_mono Q B Q' B' m m' :
  Q ⊆ Q' -> B ⊆ B' -> serial_touch Q B m m' -> serial_touch Q' B' m m'.
Proof.
  intros HQ HB (?&?&H1&?&H2). unfold serial_touch.
  split_and?; auto; intros p Hp; (apply H1 || apply H2); set_solver.
Qed.

Lemma serial_touch_squeue Q B p q m : p ∈ Q -> serial_touch Q B m (set_squeue p q m).
Proof.
  intros Hp. unfold serial_touch, set_squeue. simpl. split_and?; eauto.
  - intros p' Hp'. by rewrite lookup_insert_is_Some'; right.
  - intros p' Hp'. apply lookup_insert_ne. by intros ->.
Qed.

Lemma serial_touch_pushed m h q d xs :
  sm_bytes m !! sqh_data h = Some d ->
  serial_touch [sqh_queue h] [sqh_data h] m (serial_pushed m h q d xs).
Proof.
  intros Hd. unfold serial_pushed. eapply serial_touch_trans; [|apply serial_touch_squeue; in_list].
  unfold serial_touch. simpl. split_and?; eauto.
  - intros p d0 Hp. destruct (decide (sqh_data h = p)) as [<-|].
    + rewrite lookup_insert_eq. eexists. split; [done|]. rewrite length_ring_store. congruence.
    + rewrite lookup_insert_ne by done. eauto.
  - intros p Hp. apply lookup_insert_ne. set_solver.
Qed.

Lemma serial_touch_popped m h q n : serial_touch [sqh_queue h] [] m (serial_popped m h q n).
Proof. apply serial_touch_squeue. in_list. Qed.

(** Indices no well-behaved peer produces are refused without a write. *)
Lemma serial_write_malformed m h q d bytes n :
  serial_mapped m h q d -> sqh_capacity h < serial_occupied q ->
  aos_serial_queue_write h bytes n m = Some (AOS_SERIAL_PUMP_INVALID, m).
Proof.
  intros (Hv&_&Hq&_) Ho. unfold aos_serial_queue_write. case_cmp; [done|].
  rewrite (run_bind _ _ _ _ _ (load_squeue_run _ m q Hq)). fold (serial_occupied q).
  by assert ((sqh_capacity h <? serial_occupied q) = true) as -> by lia.
Qed.

Lemma serial_read_malformed m h q d bytes n :
  serial_mapped m h q d -> sqh_capacity h < serial_occupied q ->
  aos_serial_queue_read h bytes n m = Some ((AOS_SERIAL_PUMP_INVALID, bytes, 0), m).
Proof.
  intros (Hv&_&Hq&_) Ho. unfold aos_serial_queue_read. case_cmp; [done|].
  rewrite (run_bind _ _ _ _ _ (load_squeue_run _ m q Hq)). fold (serial_occupied q).
  by assert ((sqh_capacity h <? serial_occupied q) = true) as -> by lia.
Qed.

(** Writing [n] bytes of [buf]: all of them, or none. *)
Lemma wp_serial_write m h l buf n :
  serial_list m h l -> 0 <= n <= Z.of_nat (length buf) ->
  wp (aos_serial_queue_write h (Some buf) n) (fun r m' =>
    serial_touch [sqh_queue h] [sqh_data h] m m' /\
    if Z.of_nat (length l) + n <=? sqh_capacity h
    then r = AOS_SERIAL_PUMP_OK /\ serial_list m' h (l ++ take (Z.to_nat n) buf)
    else r = AOS_SERIAL_PUMP_FULL /\ m' = m) m.
Proof.
  intros Hl Hn. destruct (serial_list_open m h l Hl) as (q&d&Hm&Hr&Ho&Hle&Hct).
  pose proof Hm as (Hv&Hc&Hq&Hd&Hlen). unfold aos_serial_queue_write, wp.
  rewrite Hv. simpl. rewrite (run_bind _ _ _ _ _ (load_squeue_run _ m q Hq)).
  fold (serial_occupied q). rewrite Ho.
  assert ((sqh_capacity h <? Z.of_nat (length l)) = false) as -> by lia.
  unfold is_u32 in Hc. rewrite u32_small by (unfold is_u32; lia).
  destruct (Z.leb_spec (Z.of_nat (length l) + n) (sqh_capacity h)) as [Hroom|Hfull].
  2:{ assert ((sqh_capacity h - Z.of_nat (length l) <? n) = true) as -> by lia.
      split; [apply serial_touch_refl|done]. }
  assert ((sqh_capacity h - Z.of_nat (length l) <? n) = false) as -> by lia.
  set (xs := take (Z.to_nat n) buf). assert (length xs = Z.to_nat n) as Hxs by (subst xs; rewrite length_take; lia).
  pose proof (ring_store_loop h Hv Hc (fun i => lift (Some buf ≫= fun l => aget l i)) (sq_tail q) xs 0 d m
    ltac:(lia) Hd Hlen) as Hloop.
  rewrite Hxs, Z.add_0_r in Hloop.
  lapply Hloop; clear Hloop; [intros Hloop; rewrite (run_bind _ _ _ _ _ Hloop); clear Hloop|].
  2:{ intros j x d' [Hj ?]%lookup_take_Some s'. rewrite Z.add_0_l. cbn [mbind option_bind]. unfold lift.
      by rewrite (proj2 (aget_Some buf (Z.of_nat j) x)) by (rewrite Nat2Z.id; split; [lia|done]). }
  destruct (Z.eqb_spec n 0) as [Hz|Hz]; simpl.
  - assert (xs = []) as -> by (subst xs n; done). simpl. rewrite insert_id by done.
    assert ({| sm_queues := sm_queues m; sm_metas := sm_metas m; sm_bytes := sm_bytes m |} = m) as -> by (by destruct m).
    split; [apply serial_touch_refl|]. by rewrite app_nil_r.
  - erewrite run_bind; [|by apply store_stail_run].
    replace n with (Z.of_nat (length xs)) by lia.
    split; [by apply (serial_touch_pushed m h q d xs)|]. split; [done|].
    apply (serial_pushed_list m h q d l xs); [done..|lia].
Qed.

(** The bytes a read of [n] pending bytes sees. *)
Lemma ring_loaded h (d : list Z) q l n :
  ring_cap_ok (2 ^ 32) (sqh_capacity h) ->
  ring_contents (2 ^ 32) (sqh_capacity h) d (sq_head q) (sq_tail q) = l -> (n <= length l)%nat ->
  (fun k => d !!! Z.to_nat ((sq_head q + k) mod sqh_capacity h)) <$> seqZ 0 (Z.of_nat n) = take n l.
Proof.
  intros Hr <- Hn. rewrite ring_contents_take; [done|done|].
  rewrite length_ring_contents in Hn. pose proof (ring_len_bound _ _ Hr (sq_head q) (sq_tail q)). lia.
Qed.

(** Reading at most [n] bytes into [buf]. *)
Lemma wp_serial_read m h l buf n :
  serial_list m h l -> 0 <= n <= Z.of_nat (length buf) ->
  let k := Nat.min (length l) (Z.to_nat n) in
  wp (aos_serial_queue_read h (Some buf) n) (fun r m' =>
    serial_touch [sqh_queue h] [] m m' /\
    r = (AOS_SERIAL_PUMP_OK, Some (list_inserts 0 (take k l) buf), Z.of_nat k) /\
    serial_list m' h (drop k l)) m.
Proof.
  intros Hl Hn k. destruct (serial_list_open m h l Hl) as (q&d&Hm&Hr&Ho&Hle&Hct).
  pose proof Hm as (Hv&Hc&Hq&Hd&Hlen). unfold aos_serial_queue_read, wp.
  rewrite Hv. simpl. rewrite (run_bind _ _ _ _ _ (load_squeue_run _ m q Hq)).
  fold (serial_occupied q). rewrite Ho.
  assert ((sqh_capacity h <? Z.of_nat (length l)) = false) as -> by lia.
  assert ((if Z.of_nat (length l) <? n then Z.of_nat (length l) else n) = Z.of_nat k) as ->
    by (subst k; case_cmp; lia).
  rewrite Nat2Z.id. pose proof (ring_load_loop h Hv Hc m d (sq_head q) k 0 buf Hd Hlen) as Hloop.
  rewrite (ring_loaded h d q l k Hr Hct) in Hloop by lia. cbn [Z.to_nat] in Hloop.
  rewrite (run_bind _ _ _ _ _ (Hloop ltac:(lia) ltac:(lia))). clear Hloop.
  destruct (Z.eqb_spec (Z.of_nat k) 0) as [Hz|Hz]; cbn [negb].
  - assert (k = 0%nat) as -> by lia. hnf. split_and?; [apply serial_touch_refl|done|done].
  - erewrite run_bind; [|by apply store_head_run].
    hnf. split_and?; [apply (serial_touch_popped m h q)|done|].
    apply (serial_popped_list m h q d l k); [done..|lia].
Qed.

Lemma serial_mapped_touch Q B m m' h q d :
  serial_touch Q B m m' -> sqh_queue h ∉ Q -> sqh_data h ∉ B ->
  serial_mapped m h q d -> serial_mapped m' h q d.
Proof. intros (_&_&HQ&_&HB) ?? (?&?&?&?&?). unfold serial_mapped. by rewrite HQ, HB. Qed.

Lemma serial_list_touch Q B m m' h l :
  serial_touch Q B m m' -> sqh_queue h ∉ Q -> sqh_data h ∉ B ->
  serial_list m h l -> serial_list m' h l.
Proof. intros ??? (q&d&?&?). exists q, d. split; [|done]. by eapply serial_mapped_touch. Qed.

(** Two handles of different queues. *)
Definition serial_apart (a b : aos_serial_queue_handle) : Prop :=
  sqh_queue a <> sqh_queue b /\ sqh_data a <> sqh_data b.

Lemma serial_apart_cond a b :
  serial_apart a b -> (sqh_queue a =? sqh_queue b) || (sqh_data a =? sqh_data b) = false.
Proof. intros [? ?]. lia. Qed.

Lemma serial_transfer_malformed m s t qs ds qd dd budget :
  serial_apart s t -> serial_mapped m s qs ds -> serial_mapped m t qd dd ->
  sqh_capacity s < serial_occupied qs \/ sqh_capacity t < serial_occupied qd ->
  aos_serial_virt_transfer s t budget m = Some ((AOS_SERIAL_PUMP_INVALID, 0), m).
Proof.
  intros Ha (Hvs&_&Hqs&_) (Hvt&_&Hqd&_) Ho. unfold aos_serial_virt_transfer.
  rewrite Hvs, Hvt. simpl. rewrite (serial_apart_cond s t Ha).
  rewrite (run_bind _ _ _ _ _ (load_squeue_run _ m qs Hqs)), (run_bind _ _ _ _ _ (load_squeue_run _ m qd Hqd)).
  fold (serial_occupied qs) (serial_occupied qd).
  by assert ((sqh_capacity s <? serial_occupied qs) || (sqh_capacity t <? serial_occupied qd) = true) as -> by lia.
Qed.

(** The source is not disturbed by what was already stored. *)
Lemma serial_source_byte m s t qs ds ls k j x d' :
  serial_apart s t -> serial_mapped m s qs ds -> ring_cap_ok (2 ^ 32) (sqh_capacity s) ->
  ring_contents (2 ^ 32) (sqh_capacity s) ds (sq_head qs) (sq_tail qs) = ls ->
  (k <= length ls)%nat -> take k ls !! j = Some x ->
  let s' := set_bytes (<[sqh_data t := d']> (bytes_of m)) m in
  load_byte (sqh_data s) (serial_slot (sqh_capacity s) (sq_head qs + Z.of_nat j)) s' = Some (x, s').
Proof.
  intros [_ Ha] (Hvs&Hcps&_&Hds&Hlens) Hrs Hcs Hk Hj s'. rewrite serial_slot_mod by done.
  apply (load_byte_run _ _ _ ds).
  { subst s'. rewrite bytes_of_set, lookup_insert_ne by congruence. done. }
  pose proof (ring_slot_bound _ _ Hrs (sq_head qs + Z.of_nat j)). rewrite aget_total by lia. f_equal.
  rewrite <- (ring_loaded s ds qs ls k Hrs Hcs) in Hj by lia.
  by apply list_lookup_fmap_Some in Hj as (z&->&[-> ?]%lookup_seqZ).
Qed.

(** How many bytes one transfer moves. *)
Definition serial_quota (t : aos_serial_queue_handle) (ls ld : list Z) (budget : Z) : nat :=
  Z.to_nat (Z.min (sqh_capacity t - Z.of_nat (length ld)) (Z.min (Z.of_nat (length ls)) budget)).

(** Publishing [k] copied bytes: they leave the source and join the
    destination. *)
Lemma serial_publish m s t qs ds qd dd ls ld k :
  serial_apart s t -> serial_mapped m s qs ds -> serial_mapped m t qd dd ->
  ring_contents (2 ^ 32) (sqh_capacity s) ds (sq_head qs) (sq_tail qs) = ls ->
  ring_contents (2 ^ 32) (sqh_capacity t) dd (sq_head qd) (sq_tail qd) = ld ->
  serial_occupied qs = Z.of_nat (length ls) -> serial_occupied qd = Z.of_nat (length ld) ->
  Z.of_nat (length ls) <= sqh_capacity s -> (k <= length ls)%nat ->
  Z.of_nat (length ld) + Z.of_nat k <= sqh_capacity t ->
  wp (store_stail (sqh_queue t) (u32 (sq_tail qd + Z.of_nat k));;
      store_head (sqh_queue s) (u32 (sq_head qs + Z.of_nat k)))
     (fun _ m' => serial_touch [sqh_queue s; sqh_queue t] [sqh_data t] m m' /\
        serial_list m' s (drop k ls) /\ serial_list m' t (ld ++ take k ls))
     (set_bytes (<[sqh_data t := ring_store (sqh_capacity t) dd (sq_tail qd) (take k ls)]> (bytes_of m)) m).
Proof.
  intros [Haq Had] Hms Hmd Hcs Hcd Hos Hod Hles Hk Hroom. set (xs := take k ls).
  assert (length xs = k) as Hxs by (subst xs; rewrite length_take; lia).
  pose proof Hmd as (_&_&Hqd&Hdd&_). set (m1 := set_bytes _ m).
  assert (store_stail (sqh_queue t) (u32 (sq_tail qd + Z.of_nat k)) m1 =
    Some (tt, serial_pushed m t qd dd xs)) as Hst.
  { rewrite (store_stail_run _ _ m1 qd) by done. unfold serial_pushed. by rewrite Hxs. }
  pose proof (serial_touch_pushed m t qd dd xs Hdd) as Ht1. set (m2 := serial_pushed m t qd dd xs) in *.
  assert (serial_mapped m2 s qs ds) as Hms2
    by (eapply serial_mapped_touch; [exact Ht1|not_in_list|not_in_list|done]).
  pose proof Hms2 as (_&_&Hqs2&_).
  pose proof (serial_touch_popped m2 s qs (Z.of_nat k)) as Ht2.
  unfold wp. rewrite (run_bind _ _ _ _ _ Hst), (store_head_run _ _ m2 qs Hqs2). split_and?.
  - eapply serial_touch_trans; [eapply serial_touch_mono; [..|exact Ht1]|eapply serial_touch_mono; [..|exact Ht2]];
      set_solver.
  - by apply (serial_popped_list m2 s qs ds ls k).
  - eapply serial_list_touch; [exact Ht2|not_in_list|set_solver|].
    apply (serial_pushed_list m t qd dd ld xs); [done..|lia].
Qed.

Lemma wp_serial_transfer m s t ls ld budget :
  serial_apart s t -> serial_list m s ls -> serial_list m t ld -> 0 <= budget ->
  let k := serial_quota t ls ld budget in
  wp (aos_serial_virt_transfer s t budget) (fun r m' =>
    serial_touch [sqh_queue s; sqh_queue t] [sqh_data t] m m' /\
    r = (AOS_SERIAL_PUMP_OK, Z.of_nat k) /\
    serial_list m' s (drop k ls) /\ serial_list m' t (ld ++ take k ls)) m.
Proof.
  intros Ha Hls Hld Hb k.
  destruct (serial_list_open m s ls Hls) as (qs&ds&Hms&Hrs&Hos&Hles&Hcs).
  destruct (serial_list_open m t ld Hld) as (qd&dd&Hmd&Hrd&Hod&Hled&Hcd).
  pose proof Hms as (Hvs&Hcps&Hqs&Hds&Hlens). pose proof Hmd as (Hvt&Hcpt&Hqd&Hdd&Hlend).
  unfold aos_serial_virt_transfer, wp. rewrite Hvs, Hvt. simpl. rewrite (serial_apart_cond s t Ha).
  rewrite (run_bind _ _ _ _ _ (load_squeue_run _ m qs Hqs)), (run_bind _ _ _ _ _ (load_squeue_run _ m qd Hqd)).
  fold (serial_occupied qs) (serial_occupied qd). rewrite Hos, Hod.
  assert ((sqh_capacity s <? Z.of_nat (length ls)) || (sqh_capacity t <? Z.of_nat (length ld)) = false) as -> by lia.
  unfold is_u32 in Hcpt. rewrite u32_small by (unfold is_u32; lia).
  set (c1 := if Z.of_nat (length ls) <? _ then _ else _). set (c2 := if budget <? c1 then _ else _).
  assert (c1 = Z.min (sqh_capacity t - Z.of_nat (length ld)) (Z.of_nat (length ls))) as Hc1
    by (subst c1; case_cmp; lia).
  assert (c2 = Z.of_nat k) as Hc2 by (subst c2 k; unfold serial_quota; rewrite Hc1; case_cmp; lia).
  rewrite Hc2, Nat2Z.id. set (xs := take k ls).
  assert (length xs = k) as Hxs by (subst xs k; unfold serial_quota; rewrite length_take; lia).
  pose proof (ring_store_loop t Hvt Hcpt
    (fun i => load_byte (sqh_data s) (serial_slot (sqh_capacity s) (sq_head qs + i)))
    (sq_tail qd) xs 0 dd m ltac:(lia) Hdd Hlend) as Hloop. rewrite Hxs, Z.add_0_r in Hloop.
  lapply Hloop; clear Hloop; [intros Hloop; rewrite (run_bind _ _ _ _ _ Hloop); clear Hloop|].
  2:{ intros j x d' Hj. rewrite Z.add_0_l. eapply (serial_source_byte m s t qs ds ls k); [done..| |done].
      subst k. unfold serial_quota. lia. }
  destruct (Z.eqb_spec (Z.of_nat k) 0) as [Hz|Hz]; cbn [negb].
  - assert (k = 0%nat) as Hk by lia. subst xs. rewrite Hk. simpl. rewrite insert_id by done.
    assert ({| sm_queues := sm_queues m; sm_metas := sm_metas m; sm_bytes := sm_bytes m |} = m) as -> by (by destruct m).
    rewrite app_nil_r. hnf. split_and?; [apply serial_touch_refl|done..].
  - destruct (wp_run _ _ _ (serial_publish m s t qs ds qd dd ls ld k Ha Hms Hmd Hcs Hcd Hos Hod
      ltac:(lia) ltac:(unfold serial_quota in k; lia) ltac:(unfold serial_quota in k; lia)))
      as (u&m'&Hrun&Ht&Hs&Hd).
    rewrite (run_bind _ _ _ _ _ Hrun). hnf. by split_and?.
Qed.

(** ** Demonstration instance: two queues of four bytes, one wrapped around *)
Definition serial_demo_src : aos_serial_queue_handle :=
  {| sqh_queue := 0x1000; sqh_data := 0x3000; sqh_capacity := 4 |}.
Definition serial_demo_dst : aos_serial_queue_handle :=
  {| sqh_queue := 0x2000; sqh_data := 0x4000; sqh_capacity := 4 |}.
Definition serial_demo_sq : aos_serial_queue :=
  {| sq_tail := 1; sq_head := 2 ^ 32 - 2; sq_producer_signalled := 0 |}.
Definition serial_demo_dq : aos_serial_queue :=
  {| sq_tail := 6; sq_head := 4; sq_producer_signalled := 0 |}.
Definition serial_demo_mem : serial_mem :=
  {| sm_queues := list_to_map [(0x1000, serial_demo_sq); (0x2000, serial_demo_dq)]; sm_metas := ∅;
     sm_bytes := list_to_map [(0x3000, [30; 31; 10; 20]); (0x4000, [1; 2; 0; 0])] |}.

Lemma serial_demo_src_mapped : serial_mapped serial_demo_mem serial_demo_src serial_demo_sq [30; 31; 10; 20].
Proof. unfold serial_mapped. split_and?; by_compute || reflexivity. Qed.
Lemma serial_demo_dst_mapped : serial_mapped serial_demo_mem serial_demo_dst serial_demo_dq [1; 2; 0; 0].
Proof. unfold serial_mapped. split_and?; by_compute || reflexivity. Qed.

(** ** Properties *)

(** C12. The serial queue is a bounded byte FIFO. On a consistent queue a
    write appends all its bytes or, when they do not fit, none, leaving
    memory untouched; a read returns the oldest bytes, at most as many as
    asked for, into the caller's buffer and removes exactly those. Indices
    may have wrapped around any number of times. *)
Theorem serial_queue_fifo m h l buf n :
  serial_list m h l -> 0 <= n <= Z.of_nat (length buf) ->
  (exists r m', aos_serial_queue_write h (Some buf) n m = Some (r, m') /\
     (Z.of_nat (length l) + n <= sqh_capacity h ->
        r = AOS_SERIAL_PUMP_OK /\ serial_list m' h (l ++ take (Z.to_nat n) buf)) /\
     (sqh_capacity h < Z.of_nat (length l) + n -> r = AOS_SERIAL_PUMP_FULL /\ m' = m)) /\
  (exists m', let k := Nat.min (length l) (Z.to_nat n) in
     aos_serial_queue_read h (Some buf) n m =
       Some ((AOS_SERIAL_PUMP_OK, Some (list_inserts 0 (take k l) buf), Z.of_nat k), m') /\
     serial_list m' h (drop k l)).
Proof.
  intros Hl Hn. split.
  - destruct (wp_run _ _ _ (wp_serial_write m h l buf n Hl Hn)) as (r&m'&Hrun&_&Hpost).
    exists r, m'. split; [done|].
    destruct (Z.leb_spec (Z.of_nat (length l) + n) (sqh_capacity h)); split; intros; (lia || done).
  - destruct (wp_run _ _ _ (wp_serial_read m h l buf n Hl Hn)) as (r&m'&Hrun&_&->&Hpost).
    by exists m'.
Qed.

Lemma serial_queue_fifo_witness :
  exists m', aos_serial_queue_read serial_demo_src (Some [0; 0]) 2 serial_demo_mem =
    Some ((AOS_SERIAL_PUMP_OK, Some [10; 20], 2), m') /\ serial_list m' serial_demo_src [30].
Proof.
  apply (serial_queue_fifo serial_demo_mem serial_demo_src [10; 20; 30] [0; 0] 2); [|split; by_compute].
  eexists _, _. split; [exact serial_demo_src_mapped|]. split; [by_compute|vm_compute; reflexivity].
Defined.

(** A transfer between two queues, whatever the peers stored in their
    indices, returns; it reports malformed indices and then touches nothing;
    otherwise it moves the oldest bytes of the source, as many as the
    destination has room for and the budget allows, to the end of the
    destination, in order and without loss or duplication. *)
Theorem serial_transfer_exact m s t qs ds qd dd budget :
  serial_apart s t -> serial_mapped m s qs ds -> serial_mapped m t qd dd -> 0 <= budget ->
  exists r m', aos_serial_virt_transfer s t budget m = Some (r, m') /\
    serial_touch [sqh_queue s; sqh_queue t] [sqh_data t] m m' /\
    if (sqh_capacity s <? serial_occupied qs) || (sqh_capacity t <? serial_occupied qd)
    then r = (AOS_SERIAL_PUMP_INVALID, 0) /\ m' = m
    else
      let ls := ring_contents (2 ^ 32) (sqh_capacity s) ds (sq_head qs) (sq_tail qs) in
      let ld := ring_contents (2 ^ 32) (sqh_capacity t) dd (sq_head qd) (sq_tail qd) in
      let k := serial_quota t ls ld budget in
      r = (AOS_SERIAL_PUMP_OK, Z.of_nat k) /\
      serial_list m' s (drop k ls) /\ serial_list m' t (ld ++ take k ls).
Proof.
  intros Ha Hs Ht Hb. destruct (_ || _) eqn:Hbad.
  - exists (AOS_SERIAL_PUMP_INVALID, 0), m. split_and?; [|apply serial_touch_refl|done|done].
    eapply serial_transfer_malformed; [done..|]. lia.
  - apply wp_run, wp_serial_transfer; [done| | |done].
    + exists qs, ds. split_and?; [done|lia|done].
    + exists qd, dd. split_and?; [done|lia|done].
Qed.

Lemma serial_transfer_exact_witness :
  exists r m', aos_serial_virt_transfer serial_demo_src serial_demo_dst 65536 serial_demo_mem = Some (r, m') /\
    serial_touch [0x1000; 0x2000] [0x4000] serial_demo_mem m' /\ r = (AOS_SERIAL_PUMP_OK, 2) /\
    serial_list m' serial_demo_src [30] /\ serial_list m' serial_demo_dst [1; 2; 10; 20].
Proof.
  exact (serial_transfer_exact serial_demo_mem serial_demo_src serial_demo_dst _ _ _ _ 65536
    ltac:(split; discriminate) serial_demo_src_mapped serial_demo_dst_mapped ltac:(discriminate)).
Defined.
