(* ===== verification/VirtAuthority.v ===== *)
(** * Badge authority of virtualizer clients

    include/contracts/virtualizer_authority.h and the authorization rule of
    include/contracts/serial_virt_contract.h: which root-minted badge may act
    for which client. *)

From S2P Require Import Prelude.

Definition VIRT_CLIENT_BADGE_PRIMARY : Z := 0xa0510001.
Definition VIRT_CLIENT_BADGE_SECONDARY : Z := 0xa0510002.
Definition VIRT_NET_BADGE_NATIVE : Z := 0xa0510003.
Definition SERIAL_VIRT_OPERATOR_BADGE : Z := 0xa0510101.
Definition SERIAL_VIRT_FRONTEND_BADGE : Z := 0xa0510100.

Definition SERIAL_VIRT_ROLE_VMM : Z := 0.
Definition SERIAL_VIRT_ROLE_FRONTEND : Z := 1.
Definition SERIAL_VIRT_ROLE_OPERATOR : Z := 2.
Definition SERIAL_VIRT_OPERATOR_CLIENT : Z := 2.

Definition virt_client_badge (slot : Z) : Z :=
  if slot =? 0 then VIRT_CLIENT_BADGE_PRIMARY
  else if slot =? 1 then VIRT_CLIENT_BADGE_SECONDARY else 0.

Definition virt_client_authorized (badge client slot : Z) : bool :=
  (slot <? 2) && (client =? slot) && (badge =? virt_client_badge slot).

Definition virt_media_authorized (badge client slot media : Z) : bool :=
  virt_client_authorized badge client slot && (media =? slot).

Definition virt_net_authorized (badge client slot : Z) : bool :=
  virt_client_authorized badge client slot ||
  ((badge =? VIRT_NET_BADGE_NATIVE) && (client =? 2) && (slot =? 2)).

Definition serial_virt_authorized (badge client role : Z) : bool :=
  if 3 <=? client then false
  else if role =? SERIAL_VIRT_ROLE_OPERATOR then
    (client =? SERIAL_VIRT_OPERATOR_CLIENT) && (badge =? SERIAL_VIRT_OPERATOR_BADGE)
  else if role =? SERIAL_VIRT_ROLE_VMM then
    (client <? 2) && virt_client_authorized badge client client
  else (role =? SERIAL_VIRT_ROLE_FRONTEND) && (badge =? SERIAL_VIRT_FRONTEND_BADGE).

(** ** Lemmas *)

Lemma serial_authorized_client badge client role :
  0 <= client -> serial_virt_authorized badge client role = true -> 0 <= client < 3.
Proof. unfold serial_virt_authorized. destruct (Z.leb_spec 3 client); [done|lia]. Qed.

(** A badge speaks for one client in a VMM or operator role, in any request
    whatever; only the frontend badge names the client in the request. *)
Lemma serial_authorized_badge badge client client' role role' :
  role <> SERIAL_VIRT_ROLE_FRONTEND -> 0 <= client -> 0 <= client' ->
  serial_virt_authorized badge client role = true ->
  serial_virt_authorized badge client' role' = true -> client' = client /\ role' = role.
Proof.
  unfold serial_virt_authorized, virt_client_authorized, virt_client_badge,
    SERIAL_VIRT_ROLE_FRONTEND, SERIAL_VIRT_ROLE_OPERATOR, SERIAL_VIRT_ROLE_VMM,
    SERIAL_VIRT_OPERATOR_CLIENT, SERIAL_VIRT_OPERATOR_BADGE, SERIAL_VIRT_FRONTEND_BADGE,
    VIRT_CLIENT_BADGE_PRIMARY, VIRT_CLIENT_BADGE_SECONDARY.
  repeat case_cmp; intros; lia.
Qed.
