(* ===== verification/Input.v ===== *)
(** * The input virtualizer

    Models platform/input-virt/service.c and rebind_service.c with
    platform/input.h: a frontend submits batches of keyboard and pointer
    events for a client, the service checks them and publishes them to the
    event queue of the client's device, remembers which keys are held, and on
    request releases them all, across back-pressure. A client can be detached
    by its own page, retired, and bound again with the next generation.

    The frontend page and the client pages are shared memory; the loads of a
    peer's index are single snapshots, so each call is one step on it. The
    service structure, its [frontend] pointer apart, is private. *)

From S2P Require Import Prelude Ring BitSet VirtAuthority.
From stdpp Require Import options.

#[local] Open Scope Z_scope.

(** ** input.h *)

Definition AOS_INPUT_VERSION : Z := 1.
Definition AOS_INPUT_RELEASE_VERSION : Z := 2.
Definition AOS_INPUT_CLIENTS : Z := 2.
Definition AOS_INPUT_DEVICES : Z := 2.
Definition AOS_INPUT_BATCH_EVENTS : Z := 64.
Definition AOS_INPUT_EVENT_CAPACITY : Z := 256.
Definition AOS_INPUT_REQUEST_CAPACITY : Z := 16.
Definition AOS_INPUT_DETACH_VERSION : Z := 1.
Definition AOS_INPUT_KEYBOARD : Z := 0.
Definition AOS_INPUT_OK : Z := 0.
Definition AOS_INPUT_BAD_REQUEST : Z := 1.
Definition AOS_INPUT_DENIED : Z := 2.
Definition AOS_INPUT_WOULD_BLOCK : Z := 3.
Definition INPUT_VIRT_REBIND_VERSION : Z := 1.

(** [ev_value] is signed. *)
Record input_event := mk_event { ev_type : Z; ev_code : Z; ev_value : Z }.

Record input_queue := mk_iqueue { iq_head : Z; iq_tail : Z; iq_events : list input_event }.

Record input_detach := mk_detach { dt_version : Z; dt_request : Z; dt_ack : Z }.

Record input_region := mk_region { rg_devices : list input_queue; rg_detach : input_detach }.

Record input_request := mk_request {
  rq_version : Z; rq_id : Z; rq_client : Z; rq_device : Z; rq_count : Z; rq_reserved : list Z;
  rq_events : list input_event }.

Record input_response := mk_response { rs_version : Z; rs_id : Z; rs_status : Z; rs_accepted : Z }.

Record input_frontend := mk_frontend {
  fe_req_head : Z; fe_req_tail : Z; fe_resp_head : Z; fe_resp_tail : Z;
  fe_requests : list input_request; fe_responses : list input_response }.

Record input_service := mk_iservice {
  is_frontend : Z; is_clients : list Z; is_allowed : Z; is_held : list (list (list Z));
  is_releasing : list Z; is_retired : Z; is_generation : list Z }.

Record input_rebind_req := mk_rebind { rb_version : Z; rb_client : Z; rb_generation : Z }.

(** The service and the shared pages that are mapped. *)
Record input_world := mk_iworld {
  iw_service : input_service; iw_frontends : gmap Z input_frontend; iw_regions : gmap Z input_region }.

#[global] Instance input_event_inhabited : Inhabited input_event := populate (mk_event 0 0 0).
#[global] Instance input_queue_inhabited : Inhabited input_queue := populate (mk_iqueue 0 0 []).

(** ** State access *)

Definition iprog (A : Type) : Type := prog input_world A.

Definition set_service (s : input_service) (w : input_world) : input_world :=
  mk_iworld s (iw_frontends w) (iw_regions w).

Definition get_service : iprog input_service := w ← get_state; mret (iw_service w).
Definition put_service (s : input_service) : iprog unit := modify (set_service s).

Definition load_region (p : Z) : iprog input_region :=
  w ← get_state; lift (iw_regions w !! p).
Definition store_region (p : Z) (r : input_region) : iprog unit :=
  load_region p;; modify (fun w => mk_iworld (iw_service w) (iw_frontends w) (<[p := r]> (iw_regions w))).

Definition load_frontend (p : Z) : iprog input_frontend :=
  w ← get_state; lift (iw_frontends w !! p).
Definition store_frontend (p : Z) (f : input_frontend) : iprog unit :=
  load_frontend p;; modify (fun w => mk_iworld (iw_service w) (<[p := f]> (iw_frontends w)) (iw_regions w)).

Definition with_allowed (m : Z) (s : input_service) : input_service :=
  mk_iservice (is_frontend s) (is_clients s) m (is_held s) (is_releasing s) (is_retired s) (is_generation s).
Definition with_retired (m : Z) (s : input_service) : input_service :=
  mk_iservice (is_frontend s) (is_clients s) (is_allowed s) (is_held s) (is_releasing s) m (is_generation s).
Definition with_clients (l : list Z) (s : input_service) : input_service :=
  mk_iservice (is_frontend s) l (is_allowed s) (is_held s) (is_releasing s) (is_retired s) (is_generation s).
Definition with_held (h : list (list (list Z))) (s : input_service) : input_service :=
  mk_iservice (is_frontend s) (is_clients s) (is_allowed s) h (is_releasing s) (is_retired s) (is_generation s).
Definition with_releasing (l : list Z) (s : input_service) : input_service :=
  mk_iservice (is_frontend s) (is_clients s) (is_allowed s) (is_held s) l (is_retired s) (is_generation s).
Definition with_generation (l : list Z) (s : input_service) : input_service :=
  mk_iservice (is_frontend s) (is_clients s) (is_allowed s) (is_held s) (is_releasing s) (is_retired s) l.

(** [s->held[client][device]] *)
Definition get_held (s : input_service) (client device : Z) : option (list Z) :=
  l ← aget (is_held s) client; aget l device.
Definition put_held (s : input_service) (client device : Z) (words : list Z) : option input_service :=
  l ← aget (is_held s) client; l' ← aset l device words; h ← aset (is_held s) client l'; Some (with_held h s).

(** [s->releasing[client]] *)
Definition put_releasing (s : input_service) (client m : Z) : option input_service :=
  l ← aset (is_releasing s) client m; Some (with_releasing l s).

(** [s->clients[client]->devices[device]], read and written. *)
Definition load_queue (client device : Z) : iprog input_queue :=
  s ← get_service; p ← lift (aget (is_clients s) client);
  r ← load_region p; lift (aget (rg_devices r) device).
Definition store_queue (client device : Z) (q : input_queue) : iprog unit :=
  s ← get_service; p ← lift (aget (is_clients s) client);
  r ← load_region p; l ← lift (aset (rg_devices r) device q);
  store_region p (mk_region l (rg_detach r)).

(** ** service.c *)

Definition all_clients_mapped (clients : list Z) (mask : Z) : bool :=
  forallb (fun i => negb (has_bit mask i) || negb (default NULL (aget clients i) =? NULL)) [0; 1].

(** The structure made, or [None] for the error. *)
Definition aos_input_service_init (f : Z) (clients : list Z) (mask : Z) : option input_service :=
  if (f =? NULL) || negb (Z.land mask (u32 (Z.lnot 3)) =? 0) || negb (all_clients_mapped clients mask) then None
  else Some (mk_iservice f clients mask (replicate 2 (replicate 2 (replicate 8 0))) [0; 0] 0 [0; 0]).

Definition aos_input_submit (p : Z) (q : input_request) : iprog Z :=
  if p =? NULL then mret (-1) else
  f ← load_frontend p;
  let head := fe_req_head f in
  let tail := fe_req_tail f in
  if AOS_INPUT_REQUEST_CAPACITY <=? u32 (tail - head) then mret (-1) else
  l ← lift (aset (fe_requests f) (tail mod AOS_INPUT_REQUEST_CAPACITY) q);
  store_frontend p (mk_frontend head (u32 (tail + 1)) (fe_resp_head f) (fe_resp_tail f) l (fe_responses f));;
  mret 0.

Definition aos_input_receive (p : Z) : iprog (option input_response) :=
  if p =? NULL then mret None else
  f ← load_frontend p;
  let head := fe_resp_head f in
  let tail := fe_resp_tail f in
  if (tail =? head) || (AOS_INPUT_REQUEST_CAPACITY <? u32 (tail - head)) then mret None else
  r ← lift (aget (fe_responses f) (head mod AOS_INPUT_REQUEST_CAPACITY));
  store_frontend p
    (mk_frontend (fe_req_head f) (fe_req_tail f) (u32 (head + 1)) tail (fe_requests f) (fe_responses f));;
  mret (Some r).

(** On a queue: the event, and the queue after. *)
Definition aos_input_event_receive (q : input_queue) : option (option input_event * input_queue) :=
  let head := iq_head q in
  let tail := iq_tail q in
  if (head =? tail) || (AOS_INPUT_EVENT_CAPACITY <? u32 (tail - head)) then Some (None, q) else
  e ← aget (iq_events q) (head mod AOS_INPUT_EVENT_CAPACITY);
  Some (Some e, mk_iqueue (u32 (head + 1)) tail (iq_events q)).

Definition reserved_zero (q : input_request) : bool := forallb (fun x => x =? 0) (rq_reserved q).

(** The test of an event that is not the last of its batch. *)
Definition event_ok (device : Z) (e : input_event) : bool :=
  if device =? AOS_INPUT_KEYBOARD then
    (ev_type e =? 1) && negb (ev_code e =? 0) && (ev_code e <=? 255) && (0 <=? ev_value e) && (ev_value e <=? 2)
  else if ev_type e =? 1 then
    (0x110 <=? ev_code e) && (ev_code e <=? 0x117) && (0 <=? ev_value e) && (ev_value e <=? 1)
  else
    (ev_type e =? 2) && ((ev_code e =? 0) || (ev_code e =? 1) || (ev_code e =? 6) || (ev_code e =? 8)).

Definition event_syn (e : input_event) : bool := (ev_type e =? 0) && (ev_code e =? 0) && (ev_value e =? 0).

(** The loop of [valid_batch] over [q->events[0 .. count)]. *)
Fixpoint valid_events (device : Z) (es : list input_event) : bool :=
  match es with
  | [] => true
  | [e] => event_syn e
  | e :: es => event_ok device e && valid_events device es
  end.

(** [q->events[0 .. count)]; reading past the array is a fault. *)
Definition batch (q : input_request) : option (list input_event) :=
  if rq_count q <=? Z.of_nat (length (rq_events q)) then Some (take (Z.to_nat (rq_count q)) (rq_events q)) else None.

Definition valid_batch (q : input_request) : option bool :=
  if negb (rq_version q =? AOS_INPUT_VERSION) || (AOS_INPUT_DEVICES <=? rq_device q) || (rq_count q =? 0) ||
     (AOS_INPUT_BATCH_EVENTS <? rq_count q) || negb (reserved_zero q)
  then Some false
  else es ← batch q; Some (valid_events (rq_device q) es).

(** [out->events[(tail + i) % CAPACITY] = es[i]] *)
Fixpoint put_events (events : list input_event) (tail : Z) (es : list input_event) : option (list input_event) :=
  match es with
  | [] => Some events
  | e :: es => l ← aset events (u32 tail mod AOS_INPUT_EVENT_CAPACITY) e; put_events l (tail + 1) es
  end.

Definition key_index (device : Z) (e : input_event) : Z :=
  if device =? AOS_INPUT_KEYBOARD then ev_code e else u32 (ev_code e - 0x110).

(** The loop that keeps [held] up to date. *)
Fixpoint track (device : Z) (es : list input_event) (words : list Z) : option (list Z) :=
  match es with
  | [] => Some words
  | e :: es =>
      if negb (ev_type e =? 1) || (ev_value e =? 2) then track device es words
      else
        words' ← (if negb (ev_value e =? 0) then wset else wclear) words (key_index device e);
        track device es words'
  end.

Definition is_release (q : input_request) : bool :=
  (rq_version q =? AOS_INPUT_RELEASE_VERSION) && (rq_count q =? 0) && (rq_device q <? AOS_INPUT_DEVICES) &&
  reserved_zero q.

Definition deliver (q : input_request) : iprog Z :=
  let client := rq_client q in
  let device := rq_device q in
  let release := is_release q in
  valid ← (if release then mret true else lift (valid_batch q));
  if negb valid then mret AOS_INPUT_BAD_REQUEST else
  s ← get_service;
  if (AOS_INPUT_CLIENTS <=? client) || negb (has_bit (is_allowed s) client) then mret AOS_INPUT_DENIED else
  m ← lift (aget (is_releasing s) client);
  if release then
    s' ← lift (put_releasing s client (or_bit m device)); put_service s';; mret AOS_INPUT_OK
  else if has_bit m device then mret AOS_INPUT_WOULD_BLOCK else
  out ← load_queue client device;
  let tail := iq_tail out in
  let occupied := u32 (tail - iq_head out) in
  if (AOS_INPUT_EVENT_CAPACITY <? occupied) || (AOS_INPUT_EVENT_CAPACITY - occupied <? rq_count q)
  then mret AOS_INPUT_WOULD_BLOCK else
  es ← lift (batch q);
  events ← lift (put_events (iq_events out) tail es);
  words ← lift (get_held s client device);
  words' ← lift (track device es words);
  s' ← lift (put_held s client device words');
  put_service s';;
  store_queue client device (mk_iqueue (iq_head out) (u32 (tail + rq_count q)) events);;
  mret AOS_INPUT_OK.

Definition release_code (device index : Z) : Z :=
  u16 (if device =? AOS_INPUT_KEYBOARD then index else index + 0x110).

(** What the inner loop of [release_pending] updates. *)
Record release_scan := mk_scan { sc_words : list Z; sc_events : list input_event; sc_count : Z; sc_left : Z }.

(** The inner loop, over the remaining indices. *)
Fixpoint scan_keys (device tail room : Z) (indices : list Z) (r : release_scan) : option release_scan :=
  match indices with
  | [] => Some r
  | index :: indices =>
      held ← wget (sc_words r) index;
      if negb held then scan_keys device tail room indices r
      else if (room <=? sc_count r + 1) || (AOS_INPUT_BATCH_EVENTS - 1 <=? sc_count r) then
        scan_keys device tail room indices (mk_scan (sc_words r) (sc_events r) (sc_count r) (sc_left r + 1))
      else
        events ← aset (sc_events r) (u32 (tail + sc_count r) mod AOS_INPUT_EVENT_CAPACITY)
          (mk_event 1 (release_code device index) 0);
        words ← wclear (sc_words r) index;
        scan_keys device tail room indices (mk_scan words events (sc_count r + 1) (sc_left r))
  end.

(** The end of a round: the report after the released keys of queue [out],
    and the publication of both. *)
Definition publish_round (client device : Z) (out : input_queue) (r : release_scan) (ready progress : Z) :
    iprog (Z * Z) :=
  let count := sc_count r in
  if count =? 0 then mret (ready, progress) else
  events ← lift (aset (sc_events r) (u32 (iq_tail out + count) mod AOS_INPUT_EVENT_CAPACITY) (mk_event 0 0 0));
  store_queue client device (mk_iqueue (iq_head out) (u32 (iq_tail out + (count + 1))) events);;
  mret (or_bit ready client, progress + 1).

(** The body of [release_pending] for one device; [ready] and [progress] are
    its variables. *)
Definition release_device (client device ready progress : Z) : iprog (Z * Z) :=
  s ← get_service;
  m ← lift (aget (is_releasing s) client);
  if negb (has_bit m device) then mret (ready, progress) else
  out ← load_queue client device;
  let tail := iq_tail out in
  let occupied := u32 (tail - iq_head out) in
  if AOS_INPUT_EVENT_CAPACITY <? occupied then mret (ready, progress) else
  words ← lift (get_held s client device);
  r ← lift (scan_keys device tail (AOS_INPUT_EVENT_CAPACITY - occupied) (seqZ 0 256)
              (mk_scan words (iq_events out) 0 0));
  s' ← lift (put_held s client device (sc_words r));
  put_service s';;
  '(ready, progress) ← publish_round client device out r ready progress;
  if sc_left r =? 0 then
    s ← get_service;
    m ← lift (aget (is_releasing s) client);
    s' ← lift (put_releasing s client (clear_bit m device));
    put_service s';;
    mret (ready, progress + 1)
  else mret (ready, progress).

Definition release_pending (ready : Z) : iprog (Z * Z) :=
  '(ready, progress) ← release_device 0 0 ready 0;
  '(ready, progress) ← release_device 0 1 ready progress;
  '(ready, progress) ← release_device 1 0 ready progress;
  release_device 1 1 ready progress.

(** What [detach_pending] and [aos_input_rebind_retire] do to the private
    state of a client. *)
Definition retire_client (s : input_service) (client : Z) : option input_service :=
  s ← put_releasing s client 0;
  h ← aset (is_held s) client (replicate 2 (replicate 8 0));
  l ← aset (is_clients s) client NULL;
  Some (with_allowed (clear_bit (is_allowed s) client) (with_retired (or_bit (is_retired s) client)
    (with_clients l (with_held h s)))).

Definition acknowledge (p : Z) : iprog unit :=
  r ← load_region p;
  store_region p (mk_region (rg_devices r) (mk_detach (dt_version (rg_detach r)) (dt_request (rg_detach r)) 1)).

Definition detach_client (client ready detached : Z) : iprog (Z * Z) :=
  s ← get_service;
  if negb (has_bit (is_allowed s) client) then mret (ready, detached) else
  p ← lift (aget (is_clients s) client);
  r ← load_region p;
  if negb (dt_request (rg_detach r) =? 1) || negb (dt_version (rg_detach r) =? AOS_INPUT_DETACH_VERSION)
  then mret (ready, detached) else
  s' ← lift (retire_client s client);
  put_service s';;
  acknowledge p;;
  mret (or_bit ready client, detached + 1).

Definition detach_pending (ready : Z) : iprog (Z * Z) :=
  '(ready, detached) ← detach_client 0 ready 0;
  detach_client 1 ready detached.

(** One round of the loop of [aos_input_pump]; [a] holds [ready], [head] and
    [processed]. *)
Definition pump_round (p : Z) (a : Z * Z * Z) : iprog (loop_ctl * (Z * Z * Z)) :=
  let '(ready, head, processed) := a in
  f ← load_frontend p;
  let out := fe_resp_tail f in
  if AOS_INPUT_REQUEST_CAPACITY <=? u32 (out - fe_resp_head f) then mret (Break, a) else
  q ← lift (aget (fe_requests f) (head mod AOS_INPUT_REQUEST_CAPACITY));
  status ← deliver q;
  let version := if (rq_version q =? AOS_INPUT_RELEASE_VERSION) && (rq_count q =? 0)
                 then AOS_INPUT_RELEASE_VERSION else AOS_INPUT_VERSION in
  let accepted := if status =? AOS_INPUT_OK then rq_count q else 0 in
  l ← lift (aset (fe_responses f) (out mod AOS_INPUT_REQUEST_CAPACITY)
              (mk_response version (rq_id q) status accepted));
  let ready := if (status =? AOS_INPUT_OK) && negb (rq_count q =? 0) then or_bit ready (rq_client q) else ready in
  store_frontend p
    (mk_frontend (u32 (head + 1)) (fe_req_tail f) (fe_resp_head f) (u32 (out + 1)) (fe_requests f) l);;
  mret (Continue, (ready, u32 (head + 1), processed + 1)).

(** The activity count and the clients to wake. *)
Definition aos_input_pump : iprog (Z * Z) :=
  s ← get_service;
  if is_frontend s =? NULL then mret (0, 0) else
  '(ready, detached) ← detach_pending 0;
  f ← load_frontend (is_frontend s);
  let pending := u32 (fe_req_tail f - fe_req_head f) in
  if AOS_INPUT_REQUEST_CAPACITY <? pending then mret (detached, ready) else
  '(ready, _, processed) ← for_loop (Z.to_nat pending) 0 (ready, fe_req_head f, 0)
                             (fun _ a => pump_round (is_frontend s) a);
  '(ready, released) ← release_pending ready;
  mret (detached + processed + released, ready).

(** ** rebind_service.c; the requests have 12 bytes *)

Definition sizeof_rebind : Z := 12.

Definition aos_input_rebind_retire (badge : Z) (q : input_rebind_req) (length : Z) : iprog Z :=
  let client := rb_client q in
  let generation := rb_generation q in
  if negb (length =? sizeof_rebind) || negb (rb_version q =? INPUT_VIRT_REBIND_VERSION) || (generation =? 0)
  then mret AOS_INPUT_BAD_REQUEST
  else if (AOS_INPUT_CLIENTS <=? client) || negb (virt_client_authorized badge client client)
  then mret AOS_INPUT_DENIED
  else
    s ← get_service;
    p ← lift (aget (is_clients s) client);
    g ← lift (aget (is_generation s) client);
    if negb (has_bit (is_allowed s) client) then
      mret (if (p =? NULL) && has_bit (is_retired s) client &&
               ((generation =? g) || (negb (g =? UINT32_MAX) && (generation =? u32 (g + 1))))
            then AOS_INPUT_OK else AOS_INPUT_DENIED)
    else if negb (generation =? g) || (p =? NULL) then mret AOS_INPUT_DENIED
    else
      s' ← lift (retire_client s client);
      put_service s';;
      acknowledge p;;
      mret AOS_INPUT_OK.

Definition aos_input_rebind_validate (badge : Z) (q : input_rebind_req) (length : Z) : iprog Z :=
  s ← get_service;
  let client := rb_client q in
  let generation := rb_generation q in
  if (is_frontend s =? NULL) || negb (length =? sizeof_rebind) ||
     negb (rb_version q =? INPUT_VIRT_REBIND_VERSION)
  then mret AOS_INPUT_BAD_REQUEST
  else if (AOS_INPUT_CLIENTS <=? client) || negb (virt_client_authorized badge client client)
  then mret AOS_INPUT_DENIED
  else
    p ← lift (aget (is_clients s) client);
    g ← lift (aget (is_generation s) client);
    if has_bit (is_allowed s) client || negb (has_bit (is_retired s) client) || negb (p =? NULL) ||
       (g =? UINT32_MAX) || (generation =? 0) || negb (generation =? u32 (g + 1))
    then mret AOS_INPUT_WOULD_BLOCK
    else
      f ← load_frontend (is_frontend s);
      mret (if fe_req_head f =? fe_req_tail f then AOS_INPUT_OK else AOS_INPUT_WOULD_BLOCK).

(** The two loops that check the fresh page; [devices] are its queues. *)
Definition queues_fresh (devices : list input_queue) : bool :=
  forallb (fun q => (iq_head q =? 0) && (iq_tail q =? 0)) devices.

Definition aos_input_rebind_commit (badge : Z) (q : input_rebind_req) (length fresh : Z) : iprog Z :=
  status ← aos_input_rebind_validate badge q length;
  if negb (status =? AOS_INPUT_OK) then mret status
  else if fresh =? NULL then mret AOS_INPUT_BAD_REQUEST
  else
    r ← load_region fresh;
    if negb (dt_version (rg_detach r) =? 0) || negb (dt_request (rg_detach r) =? 0) ||
       negb (dt_ack (rg_detach r) =? 0)
    then mret AOS_INPUT_BAD_REQUEST
    else
      s ← get_service;
      if existsb (fun p => p =? fresh) (is_clients s) then mret AOS_INPUT_DENIED
      else if negb (queues_fresh (rg_devices r)) then mret AOS_INPUT_BAD_REQUEST
      else
        let client := rb_client q in
        clients ← lift (aset (is_clients s) client fresh);
        generations ← lift (aset (is_generation s) client (rb_generation q));
        put_service (with_allowed (or_bit (is_allowed s) client)
          (with_retired (clear_bit (is_retired s) client)
            (with_generation generations (with_clients clients s))));;
        mret AOS_INPUT_OK.

(** ** Well-formed states *)

Record queue_ok (q : input_queue) : Prop := {
  qo_head : is_u32 (iq_head q);
  qo_tail : is_u32 (iq_tail q);
  qo_events : length (iq_events q) = 256%nat }.

Definition region_ok (r : input_region) : Prop :=
  length (rg_devices r) = 2%nat /\ Forall queue_ok (rg_devices r).

Record request_ok (q : input_request) : Prop := {
  ro_client : 0 <= rq_client q;
  ro_device : 0 <= rq_device q;
  ro_count : 0 <= rq_count q;
  ro_events : length (rq_events q) = 64%nat;
  ro_codes : Forall (fun e => is_u16 (ev_code e)) (rq_events q) }.

Record frontend_ok (f : input_frontend) : Prop := {
  fo_req_head : is_u32 (fe_req_head f);
  fo_req_tail : is_u32 (fe_req_tail f);
  fo_resp_head : is_u32 (fe_resp_head f);
  fo_resp_tail : is_u32 (fe_resp_tail f);
  fo_requests : length (fe_requests f) = 16%nat;
  fo_requests_ok : Forall request_ok (fe_requests f);
  fo_responses : length (fe_responses f) = 16%nat }.

Definition attached (s : input_service) (c : Z) : bool := has_bit (is_allowed s) c.
Definition releasing (s : input_service) (c d : Z) : bool := has_bit (is_releasing s !!! Z.to_nat c) d.
Definition held_words (s : input_service) (c d : Z) : list Z := (is_held s !!! Z.to_nat c) !!! Z.to_nat d.

Definition is_client (c : Z) : Prop := c = 0 \/ c = 1.
Definition is_device (d : Z) : Prop := d = 0 \/ d = 1.

(** The private state alone. *)
Record service_ok (s : input_service) : Prop := {
  so_clients : length (is_clients s) = 2%nat;
  so_releasing : words_ok 2 (is_releasing s);
  so_generation : length (is_generation s) = 2%nat;
  so_held : length (is_held s) = 2%nat;
  so_held_ok : Forall (fun l => length l = 2%nat /\ Forall (words_ok 8) l) (is_held s);
  so_allowed : is_u32 (is_allowed s);
  so_attached : forall c, is_client c -> attached s c = true -> is_clients s !!! Z.to_nat c <> NULL;
  so_distinct : attached s 0 = true -> attached s 1 = true -> is_clients s !!! 0%nat <> is_clients s !!! 1%nat;
  so_only : forall c d, is_client c -> is_device d -> releasing s c d = true -> attached s c = true;
  so_clear : forall c d v, is_client c -> is_device d -> attached s c = false -> wmem (held_words s c d) v = false }.

Record input_ok (w : input_world) : Prop := {
  io_service : service_ok (iw_service w);
  io_frontend : exists f, iw_frontends w !! is_frontend (iw_service w) = Some f /\ frontend_ok f;
  io_frontend_ptr : is_frontend (iw_service w) <> NULL;
  io_regions : forall c, is_client c -> attached (iw_service w) c = true ->
    exists r, iw_regions w !! (is_clients (iw_service w) !!! Z.to_nat c) = Some r /\ region_ok r }.

(** ** What a device goes through

    The view of one device of one client: whether it is attached, whether a
    release is under way, the codes of the keys that are held, and its queue. *)

Record dstate := mk_dstate {
  ds_attached : bool; ds_releasing : bool; ds_held : gset Z; ds_queue : input_queue }.

Definition code_of (device index : Z) : Z := if device =? AOS_INPUT_KEYBOARD then index else index + 0x110.

Definition held_list (device : Z) (words : list Z) : list Z :=
  code_of device <$> filter (fun v => wmem words v = true) (seqZ 0 256).
Definition held_codes (device : Z) (words : list Z) : gset Z := list_to_set (held_list device words).

Definition device_queue (w : input_world) (c d : Z) : input_queue :=
  match iw_regions w !! (is_clients (iw_service w) !!! Z.to_nat c) with
  | Some r => rg_devices r !!! Z.to_nat d
  | None => inhabitant
  end.

Definition ds_gone : dstate := mk_dstate false false ∅ inhabitant.

Definition dview (w : input_world) (c d : Z) : dstate :=
  let s := iw_service w in
  if attached s c then
    mk_dstate true (releasing s c d) (held_codes d (held_words s c d)) (device_queue w c d)
  else ds_gone.

(** The keys that an observer of a stream of events believes to be down. *)
Definition key_event (e : input_event) (held : gset Z) : gset Z :=
  if negb (ev_type e =? 1) || (ev_value e =? 2) then held
  else if negb (ev_value e =? 0) then {[ev_code e]} ∪ held else held ∖ {[ev_code e]}.

Definition keys (es : list input_event) (held : gset Z) : gset Z :=
  foldl (fun held e => key_event e held) held es.

Definition occupied (q : input_queue) : Z := ring_len (2 ^ 32) (iq_head q) (iq_tail q).
Definition pending (q : input_queue) : list input_event :=
  ring_contents (2 ^ 32) 256 (iq_events q) (iq_head q) (iq_tail q).

Definition queue_append (q : input_queue) (es : list input_event) : input_queue :=
  mk_iqueue (iq_head q) (u32 (iq_tail q + Z.of_nat (length es))) (ring_store 256 (iq_events q) (iq_tail q) es).

(** The events of a release round. *)
Definition release_events (ks : list Z) : list input_event :=
  match ks with [] => [] | _ => ((fun k => mk_event 1 k 0) <$> ks) ++ [mk_event 0 0 0] end.

(** A request that reaches the device: a release is accepted, or a batch is
    published whole. *)
Inductive dreq (device : Z) : dstate -> dstate -> Prop :=
  | dreq_release r h q : dreq device (mk_dstate true r h q) (mk_dstate true true h q)
  | dreq_batch h q es :
      valid_events device es = true -> occupied q + Z.of_nat (length es) <= 256 ->
      dreq device (mk_dstate true false h q) (mk_dstate true false (keys es h) (queue_append q es)).

(** How many keys one round may release. *)
Definition round_limit (q : input_queue) : nat := Z.to_nat (Z.min 63 (255 - occupied q)).

(** The release work of one pump. *)
Inductive drelease : dstate -> dstate -> Prop :=
  | dr_idle D : ds_releasing D = false -> drelease D D
  | dr_corrupt h q : 256 < occupied q -> drelease (mk_dstate true true h q) (mk_dstate true true h q)
  | dr_round h q ks :
      occupied q <= 256 -> NoDup ks -> list_to_set ks ⊆ h ->
      length ks = Nat.min (size h) (round_limit q) ->
      drelease (mk_dstate true true h q)
        (mk_dstate true (bool_decide (length ks < size h)%nat) (h ∖ list_to_set ks)
           (queue_append q (release_events ks))).

Definition ddetach (D D' : dstate) : Prop := D' = D \/ (ds_attached D = true /\ D' = ds_gone).

(** One pump: perhaps a detach, then requests, then the release work. When
    the frontend's indices are out of range nothing follows the detach. *)
Definition dpump (sane : bool) (device : Z) (D D' : dstate) : Prop :=
  exists D1, ddetach D D1 /\
    if sane then exists D2, rtc (dreq device) D1 D2 /\ drelease D2 D' else D' = D1.

Definition frontend_sane (w : input_world) : bool :=
  match iw_frontends w !! is_frontend (iw_service w) with
  | Some f => u32 (fe_req_tail f - fe_req_head f) <=? 16
  | None => false
  end.

(** ** Lists of two *)

Lemma list_two {A} (l : list A) : length l = 2%nat -> exists a b, l = [a; b].
Proof. destruct l as [|a [|b [|]]]; try done. eauto. Qed.

(** The private state, spelled out. *)
Lemma service_cases s :
  service_ok s ->
  exists f p0 p1 allowed h00 h01 h10 h11 r0 r1 retired g0 g1,
    s = mk_iservice f [p0; p1] allowed [[h00; h01]; [h10; h11]] [r0; r1] retired [g0; g1] /\
    words_ok 8 h00 /\ words_ok 8 h01 /\ words_ok 8 h10 /\ words_ok 8 h11 /\ is_u32 r0 /\ is_u32 r1.
Proof.
  intros [Hc [Hr Hru] Hg Hh Hho _ _ _ _ _]. destruct s as [f cl al he re rt ge]. cbn in *.
  destruct (list_two _ Hc) as (p0 & p1 & ->). destruct (list_two _ Hr) as (r0 & r1 & ->).
  destruct (list_two _ Hg) as (g0 & g1 & ->). destruct (list_two _ Hh) as (l0 & l1 & ->).
  apply Forall_cons in Hho as [[Hl0 Hw0] [[Hl1 Hw1] _]%Forall_cons].
  destruct (list_two _ Hl0) as (h00 & h01 & ->). destruct (list_two _ Hl1) as (h10 & h11 & ->).
  decompose_Forall_hyps. do 13 eexists. split_and!; done.
Qed.

(** ** Updates of the private state *)

(** [w'] differs from [w] only in the view of device [d] of client [c],
    which is [D]. *)
Definition updates (w w' : input_world) (c d : Z) (D : dstate) : Prop :=
  input_ok w' /\ iw_frontends w' = iw_frontends w /\
  is_frontend (iw_service w') = is_frontend (iw_service w) /\
  dview w' c d = D /\
  forall c' d', is_client c' -> is_device d' -> c' <> c \/ d' <> d -> dview w' c' d' = dview w c' d'.

Ltac clients :=
  repeat match goal with
  | H : is_client _ |- _ => destruct H as [-> | ->]
  | H : is_device _ |- _ => destruct H as [-> | ->]
  end.

Ltac foralls := repeat first [apply Forall_nil_2 | apply Forall_cons_2; [first [done | split; [done|]; foralls]|]].

Lemma put_releasing_ok w c d m :
  input_ok w -> is_client c -> is_device d -> attached (iw_service w) c = true -> is_u32 m ->
  (forall d', is_device d' -> d' <> d -> has_bit m d' = releasing (iw_service w) c d') ->
  exists s', put_releasing (iw_service w) c m = Some s' /\
    updates w (set_service s' w) c d
      (mk_dstate true (has_bit m d) (ds_held (dview w c d)) (ds_queue (dview w c d))).
Proof.
  intros [Hs Hf Hfp Hr] Hc Hd Ha Hm Hoth. destruct w as [s fr rg]. cbn in *. pose proof Hs as Hs'.
  destruct (service_cases s Hs') as (f & p0 & p1 & al & h00 & h01 & h10 & h11 & r0 & r1 & rt & g0 & g1 & -> & Hw).
  exists (mk_iservice f [p0; p1] al [[h00; h01]; [h10; h11]] (if c =? 0 then [m; r1] else [r0; m]) rt [g0; g1]).
  destruct Hs as [_ _ _ _ _ ? Hat Hdi Ho Hcl]. destruct Hw as (? & ? & ? & ? & Hr0 & Hr1).
  split; [by clients|]. unfold updates. split_and!; cbn; [|done|done| |].
  - split; [|done|done|]; [|by clients].
    split; cbn; try done; [split; [by clients|clients; foralls]|foralls|].
    intros c' d' Hc' Hd'. specialize (Ho c' d' Hc' Hd'). unfold releasing in *. cbn in *. clients; cbn in *; auto.
  - unfold dview. cbn. unfold attached in *. cbn in *. rewrite Ha. by clients.
  - intros c' d' Hc' Hd' Hne. unfold dview, releasing, held_words, device_queue, attached in *. cbn in *.
    clients; cbn in *; try done; try (destruct Hne; done); case_match; try done; f_equal;
      (apply Hoth; [by (left + right)|done]).
Qed.

Lemma put_held_ok w c d words :
  input_ok w -> is_client c -> is_device d -> attached (iw_service w) c = true -> words_ok 8 words ->
  exists s', put_held (iw_service w) c d words = Some s' /\
    updates w (set_service s' w) c d
      (mk_dstate true (ds_releasing (dview w c d)) (held_codes d words) (ds_queue (dview w c d))).
Proof.
  intros [Hs Hf Hfp Hr] Hc Hd Ha Hm. destruct w as [s fr rg]. cbn in *. pose proof Hs as Hs'.
  destruct (service_cases s Hs') as (f & p0 & p1 & al & h00 & h01 & h10 & h11 & r0 & r1 & rt & g0 & g1 & -> & Hw).
  exists (mk_iservice f [p0; p1] al
    (if c =? 0 then [(if d =? 0 then [words; h01] else [h00; words]); [h10; h11]]
     else [[h00; h01]; (if d =? 0 then [words; h11] else [h10; words])]) [r0; r1] rt [g0; g1]).
  destruct Hs as [_ _ _ _ _ ? Hat Hdi Ho Hcl]. destruct Hw as (? & ? & ? & ? & Hr0 & Hr1).
  split; [by clients|]. unfold updates. split_and!; cbn; [|done|done| |].
  - split; [|done|done|]; [|by clients].
    split; cbn; try done; [split; [done|foralls]|by clients|clients; foralls|].
    intros c' d' v Hc' Hd' Ha'. specialize (Hcl c' d' v Hc' Hd' Ha'). unfold attached in Ha, Ha'. cbn in Ha, Ha'.
    assert (c' <> c) by congruence. clients; done.
  - unfold dview. cbn. unfold attached in *. cbn in *. rewrite Ha. by clients.
  - intros c' d' Hc' Hd' Hne. unfold dview, releasing, held_words, device_queue, attached in *. cbn in *.
    clients; cbn in *; done || (destruct Hne; done).
Qed.

Lemma updates_refl w c d : input_ok w -> updates w w c d (dview w c d).
Proof. intros. unfold updates. by split_and!. Qed.

Lemma updates_trans w w1 w2 c d D1 D2 : updates w w1 c d D1 -> updates w1 w2 c d D2 -> updates w w2 c d D2.
Proof.
  intros (_ & Hf1 & Hp1 & _ & Ho1) (Hok & Hf2 & Hp2 & Hd2 & Ho2).
  unfold updates. split_and!; [done|congruence|congruence|done|].
  intros c' d' Hc Hd Hne. by rewrite Ho2, Ho1.
Qed.

Lemma attached_view w c d : ds_attached (dview w c d) = attached (iw_service w) c.
Proof. unfold dview. by destruct (attached _ c). Qed.

(** ** Updates of the shared pages *)

(** The next value that a program takes from a partial function. *)
Tactic Notation "wlift" tactic3(t) := repeat wp_step; eapply wp_lift; [t|cbn beta iota].

Lemma client_pointer s c : service_ok s -> is_client c -> aget (is_clients s) c = Some (is_clients s !!! Z.to_nat c).
Proof. intros Hs Hc. apply aget_total. rewrite (so_clients s Hs). clients; lia. Qed.

Lemma region_devices r d : region_ok r -> is_device d -> aget (rg_devices r) d = Some (rg_devices r !!! Z.to_nat d).
Proof. intros [Hl _] Hd. apply aget_total. rewrite Hl. clients; lia. Qed.

Lemma region_queue_ok r d : region_ok r -> is_device d -> queue_ok (rg_devices r !!! Z.to_nat d).
Proof.
  intros [Hl Hq] Hd. apply (Forall_lookup_1 _ _ (Z.to_nat d) _ Hq), list_lookup_lookup_total_lt.
  rewrite Hl. clients; lia.
Qed.

Lemma device_queue_region w c d r :
  attached (iw_service w) c = true ->
  iw_regions w !! (is_clients (iw_service w) !!! Z.to_nat c) = Some r ->
  ds_queue (dview w c d) = rg_devices r !!! Z.to_nat d.
Proof. intros Ha Hr. unfold dview, device_queue. by rewrite Ha, Hr. Qed.

Lemma wp_load_queue w c d (Q : input_queue -> input_world -> Prop) :
  input_ok w -> is_client c -> is_device d -> attached (iw_service w) c = true ->
  (queue_ok (ds_queue (dview w c d)) -> Q (ds_queue (dview w c d)) w) -> wp (load_queue c d) Q w.
Proof.
  intros Hw Hc Hd Ha HQ. destruct (io_regions w Hw c Hc Ha) as (r & Hr & Hrok).
  rewrite (device_queue_region w c d r Ha Hr) in HQ. unfold load_queue, get_service, load_region.
  wlift (apply client_pointer; [apply Hw|done]). wlift (exact Hr). wlift (by apply region_devices).
  by apply HQ, region_queue_ok.
Qed.

Lemma region_insert_ok r d q : region_ok r -> queue_ok q -> region_ok (mk_region (<[d := q]> (rg_devices r)) (rg_detach r)).
Proof. intros [Hl Hq] Hqo. split; cbn; [by rewrite length_insert|by apply Forall_insert]. Qed.

(** A page of an attached client is replaced. *)
Lemma store_region_ok w c r r' :
  input_ok w -> is_client c -> attached (iw_service w) c = true -> region_ok r' ->
  iw_regions w !! (is_clients (iw_service w) !!! Z.to_nat c) = Some r ->
  let w' := mk_iworld (iw_service w) (iw_frontends w)
              (<[is_clients (iw_service w) !!! Z.to_nat c := r']> (iw_regions w)) in
  input_ok w' /\
  (forall d, dview w' c d = mk_dstate true (ds_releasing (dview w c d)) (ds_held (dview w c d)) (rg_devices r' !!! Z.to_nat d)) /\
  (forall c' d, is_client c' -> c' <> c -> dview w' c' d = dview w c' d).
Proof.
  intros Hw Hc Ha Hr' Hr w'. pose proof (so_distinct _ (io_service w Hw)) as Hdis.
  assert (Hne : forall c', is_client c' -> c' <> c -> attached (iw_service w) c' = true ->
    is_clients (iw_service w) !!! Z.to_nat c <> is_clients (iw_service w) !!! Z.to_nat c').
  { intros c' Hc' Hn Ha'. clients; try done; intros He; apply Hdis; congruence || done. }
  split_and!.
  - split; cbn; [apply Hw..|]. intros c' Hc' Ha'. destruct (decide (c' = c)) as [->|Hn].
    + exists r'. by rewrite lookup_insert_eq.
    + rewrite lookup_insert_ne by (by apply Hne). by apply Hw.
  - intros d. unfold dview, device_queue. cbn. by rewrite Ha, lookup_insert_eq.
  - intros c' d Hc' Hn. unfold dview, device_queue. cbn. destruct (attached _ c') eqn:Ha'; [|done].
    by rewrite lookup_insert_ne by (by apply Hne).
Qed.

Lemma wp_store_queue w c d q (Q : unit -> input_world -> Prop) :
  input_ok w -> is_client c -> is_device d -> attached (iw_service w) c = true -> queue_ok q ->
  (forall w', updates w w' c d (mk_dstate true (ds_releasing (dview w c d)) (ds_held (dview w c d)) q) -> Q tt w') ->
  wp (store_queue c d q) Q w.
Proof.
  intros Hw Hc Hd Ha Hq HQ. destruct (io_regions w Hw c Hc Ha) as (r & Hr & Hrok).
  assert (Hlen : (Z.to_nat d < length (rg_devices r))%nat) by (rewrite (proj1 Hrok); clients; lia).
  unfold store_queue, get_service, store_region, load_region.
  wlift (apply client_pointer; [apply Hw|done]). wlift (exact Hr). wlift (apply aset_Some; clients; lia).
  wlift (exact Hr). repeat wp_step. apply HQ.
  destruct (store_region_ok w c r _ Hw Hc Ha (region_insert_ok r (Z.to_nat d) q Hrok Hq) Hr) as (Hok & Hv & Ho).
  unfold updates. split_and!; [done..| |].
  - rewrite Hv. cbn [rg_devices]. by rewrite list_lookup_total_insert_eq.
  - intros c' d' Hc' Hd' Hn. destruct (decide (c' = c)) as [->|Hcn]; [|by apply Ho].
    rewrite Hv. cbn [rg_devices]. destruct Hn as [|Hn]; [done|].
    rewrite list_lookup_total_insert_ne by (clients; lia). rewrite <- (device_queue_region w c d' r Ha Hr).
    unfold dview. by rewrite Ha.
Qed.

(** ** The event ring *)

Lemma event_ring : ring_cap_ok (2 ^ 32) 256.
Proof. split_and!; [done|done|]. by exists (2 ^ 24). Qed.

Lemma event_slot x : u32 x mod 256 = x mod 256.
Proof. apply (ring_slot_mod _ _ event_ring). Qed.

Lemma put_events_store events tail es :
  length events = 256%nat -> put_events events tail es = Some (ring_store 256 events tail es).
Proof.
  revert events tail. induction es as [|e es IH]; intros events tail Hl; [done|]. cbn [put_events ring_store].
  unfold AOS_INPUT_EVENT_CAPACITY. rewrite event_slot.
  pose proof (ring_slot_bound _ _ event_ring tail). rewrite aset_Some by lia. cbn. apply IH. by rewrite length_insert.
Qed.

Lemma queue_append_ok q es : queue_ok q -> queue_ok (queue_append q es).
Proof. intros [? ? Hl]. split; cbn; [done|apply u32_range|]. by rewrite length_ring_store. Qed.

Lemma queue_append_nil q : queue_ok q -> queue_append q [] = q.
Proof. intros [? Ht ?]. destruct q. unfold queue_append. cbn in *. by rewrite Z.add_0_r, u32_small. Qed.

(** An append within the capacity extends what is pending. *)
Lemma pending_append q es :
  queue_ok q -> occupied q + Z.of_nat (length es) <= 256 ->
  pending (queue_append q es) = pending q ++ es /\
  occupied (queue_append q es) = occupied q + Z.of_nat (length es).
Proof.
  intros [? ? Hl] Ho. unfold pending, occupied, queue_append, u32 in *. cbn. split.
  - rewrite ring_contents_mod_tail. apply (ring_contents_store _ _ event_ring); lia.
  - rewrite <- (ring_len_grow _ _ event_ring) by lia. unfold ring_len. by rewrite Zminus_mod_idemp_l.
Qed.

(** ** Held keys *)

Lemma code_of_inj d v v' : code_of d v = code_of d v' -> v = v'.
Proof. unfold code_of. case_cmp; lia. Qed.

Lemma NoDup_held_list d words : NoDup (held_list d words).
Proof.
  apply NoDup_fmap_2_strong; [intros; by eapply code_of_inj|]. apply NoDup_filter, NoDup_seqZ.
Qed.

Lemma size_held_codes d words : size (held_codes d words) = length (held_list d words).
Proof. apply size_list_to_set, NoDup_held_list. Qed.

Lemma elem_held_codes k d words :
  k ∈ held_codes d words <-> exists v, 0 <= v < 256 /\ k = code_of d v /\ wmem words v = true.
Proof.
  unfold held_codes, held_list. rewrite elem_of_list_to_set, list_elem_of_fmap. setoid_rewrite list_elem_of_filter.
  setoid_rewrite elem_of_seqZ. naive_solver lia.
Qed.

Lemma held_codes_ext d words words' :
  (forall v, 0 <= v < 256 -> wmem words v = wmem words' v) -> held_codes d words = held_codes d words'.
Proof. intros He. apply set_eq. intros k. rewrite !elem_held_codes. naive_solver. Qed.

Lemma held_codes_set d words words' v :
  0 <= v < 256 -> (forall u, 0 <= u < 256 -> wmem words' u = (v =? u) || wmem words u) ->
  held_codes d words' = {[code_of d v]} ∪ held_codes d words.
Proof.
  intros Hv Hm. apply set_eq. intros k. rewrite elem_of_union, elem_of_singleton, !elem_held_codes. split.
  - intros (u & Hu & -> & Hw). rewrite Hm in Hw by done. destruct (Z.eqb_spec v u) as [->|]; [by left|].
    right. eauto.
  - intros [->|(u & Hu & -> & Hw)]; [exists v|exists u]; rewrite Hm, ?Z.eqb_refl, ?Hw, ?orb_true_r by done; done.
Qed.

Lemma held_codes_clear d words words' ks :
  (forall u, 0 <= u < 256 -> wmem words' u = negb (bool_decide (u ∈ ks)) && wmem words u) ->
  held_codes d words' = held_codes d words ∖ list_to_set (code_of d <$> ks).
Proof.
  intros Hm. apply set_eq. intros k.
  rewrite elem_of_difference, elem_of_list_to_set, list_elem_of_fmap, !elem_held_codes. split.
  - intros (u & Hu & -> & Hw). rewrite Hm, andb_true_iff, negb_true_iff, bool_decide_eq_false in Hw by done.
    split; [naive_solver|]. intros (u' & ->%code_of_inj & Hin). naive_solver.
  - intros [(u & Hu & -> & Hw) Hn]. exists u. rewrite Hm, Hw by done. split_and!; [lia..|done|].
    rewrite bool_decide_eq_false_2; [done|]. naive_solver.
Qed.

(** The events that [valid_events] lets through name keys in range. *)
Lemma event_ok_index d e :
  is_device d -> is_u16 (ev_code e) -> event_ok d e = true -> ev_type e = 1 ->
  0 <= key_index d e < 256 /\ code_of d (key_index d e) = ev_code e.
Proof.
  unfold event_ok, key_index, code_of, is_u16. intros Hd Hc He Ht. rewrite Ht in He. clients; cbn in *; [lia|].
  assert (u32 (ev_code e - 272) = ev_code e - 272) as -> by (apply u32_small; unfold is_u32; lia). lia.
Qed.

Lemma track_keys d es : forall words,
  is_device d -> Forall (fun e => is_u16 (ev_code e)) es -> valid_events d es = true -> words_ok 8 words ->
  exists words', track d es words = Some words' /\ words_ok 8 words' /\
    held_codes d words' = keys es (held_codes d words).
Proof.
  induction es as [|e es IH]; intros words Hd Hu Hv Hw; [by eauto|]. apply Forall_cons in Hu as [Hc Hu].
  assert (Hrest : valid_events d es = true) by (destruct es; [done|by apply andb_true_iff in Hv as [_ ?]]).
  cbn [track keys foldl]. unfold key_event. destruct (ev_type e =? 1) eqn:Ht; cbn [negb orb]; [|by apply IH].
  destruct (Z.eqb_spec (ev_value e) 2); [by apply IH|]. apply Z.eqb_eq in Ht.
  destruct (event_ok_index d e) as [Hi Hcode]; [done..| |done|].
  { destruct es; [|by apply andb_true_iff in Hv as [? _]]. cbn in Hv. unfold event_syn in Hv. rewrite Ht in Hv. done. }
  destruct (Z.eqb_spec (ev_value e) 0); cbn [negb].
  - destruct (wclear_spec 8 words Hw _ Hi) as (words' & -> & Hw' & Hm). cbn [mbind option_bind].
    destruct (IH words' Hd Hu Hrest Hw') as (words2 & Htr & Hw2 & Hk). exists words2.
    split; [done|]. split; [done|]. rewrite Hk. unfold keys. f_equal. rewrite (held_codes_clear d words words' [key_index d e]); [by rewrite list_fmap_singleton, list_to_set_singleton_L, Hcode|].
    intros u Hur. rewrite Hm by done. f_equal. destruct (Z.eqb_spec (key_index d e) u) as [<-|Hne].
    + by rewrite bool_decide_eq_true_2 by apply list_elem_of_here.
    + rewrite bool_decide_eq_false_2; [done|]. intros ->%list_elem_of_singleton. done.
  - destruct (wset_spec 8 words Hw _ Hi) as (words' & -> & Hw' & Hm). cbn [mbind option_bind].
    destruct (IH words' Hd Hu Hrest Hw') as (words2 & Htr & Hw2 & Hk). exists words2.
    split; [done|]. split; [done|]. rewrite Hk. unfold keys. f_equal. rewrite <- Hcode. by apply held_codes_set.
Qed.

(** ** Delivery *)

Lemma batch_take q : request_ok q -> rq_count q <= 64 -> batch q = Some (take (Z.to_nat (rq_count q)) (rq_events q)).
Proof. intros Hq Hc. unfold batch. rewrite (ro_events q Hq). case_cmp; [done|lia]. Qed.

Lemma valid_batch_spec q :
  request_ok q -> valid_batch q = Some true ->
  rq_device q < 2 /\ 0 < rq_count q <= 64 /\ valid_events (rq_device q) (take (Z.to_nat (rq_count q)) (rq_events q)) = true.
Proof.
  intros Hq. unfold valid_batch, AOS_INPUT_DEVICES, AOS_INPUT_BATCH_EVENTS. case_cmp; [done|].
  apply orb_false_iff in Heqb as [[[[_ Hd]%orb_false_iff Hn]%orb_false_iff Hc]%orb_false_iff _].
  pose proof (ro_count q Hq). rewrite batch_take by (done || lia). intros [= Hv]. split_and!; [lia..|done].
Qed.

Lemma valid_batch_total q : request_ok q -> exists b, valid_batch q = Some b.
Proof.
  intros Hq. unfold valid_batch, AOS_INPUT_BATCH_EVENTS. case_cmp; [by eauto|].
  rewrite batch_take by (done || lia). cbn. eauto.
Qed.

(** A change of one device by [T], the others left alone. *)
Definition evolves (T : Z -> dstate -> dstate -> Prop) (w w' : input_world) : Prop :=
  input_ok w' /\ iw_frontends w' = iw_frontends w /\
  is_frontend (iw_service w') = is_frontend (iw_service w) /\
  forall c d, is_client c -> is_device d -> T d (dview w c d) (dview w' c d).

Lemma evolves_refl (T : Z -> dstate -> dstate -> Prop) w :
  (forall d D, T d D D) -> input_ok w -> evolves T w w.
Proof. intros HT Hw. unfold evolves. by split_and!. Qed.

Lemma updates_evolves (T : Z -> dstate -> dstate -> Prop) w w' c d D :
  (forall d D, T d D D) -> updates w w' c d D -> T d (dview w c d) D -> evolves T w w'.
Proof.
  intros HT (Hok & Hf & Hp & Hd & Ho) Ht. unfold evolves. split_and!; [done..|]. intros c' d' Hc Hd'.
  destruct (decide (c' = c)) as [->|]; [|by rewrite Ho by auto].
  destruct (decide (d' = d)) as [->|]; [by rewrite Hd|by rewrite Ho by auto].
Qed.

Lemma attached_dview w c d :
  attached (iw_service w) c = true ->
  dview w c d = mk_dstate true (releasing (iw_service w) c d) (held_codes d (held_words (iw_service w) c d))
                  (ds_queue (dview w c d)).
Proof. unfold dview. by intros ->. Qed.

Lemma client_cases c : 0 <= c -> c < 2 -> is_client c.
Proof. unfold is_client. lia. Qed.
Lemma device_cases d : 0 <= d -> d < 2 -> is_device d.
Proof. unfold is_device. lia. Qed.

Lemma client_range c : is_client c -> 0 <= c < 32.
Proof. unfold is_client. lia. Qed.
Lemma device_range d : is_device d -> 0 <= d < 32.
Proof. unfold is_device. lia. Qed.

Lemma releasing_word s c : service_ok s -> is_client c -> aget (is_releasing s) c = Some (is_releasing s !!! Z.to_nat c).
Proof. intros Hs Hc. apply aget_total. rewrite (proj1 (so_releasing s Hs)). clients; lia. Qed.

Lemma releasing_word_u32 s c : service_ok s -> is_client c -> is_u32 (is_releasing s !!! Z.to_nat c).
Proof.
  intros Hs Hc. destruct (so_releasing s Hs) as [Hl Hu]. apply (Forall_lookup_1 _ _ (Z.to_nat c) _ Hu).
  apply list_lookup_lookup_total_lt. rewrite Hl. clients; lia.
Qed.

Lemma held_get s c d : service_ok s -> is_client c -> is_device d ->
  get_held s c d = Some (held_words s c d) /\ words_ok 8 (held_words s c d).
Proof.
  intros Hs Hc Hd.
  destruct (service_cases s Hs) as (f & p0 & p1 & al & h00 & h01 & h10 & h11 & r0 & r1 & rt & g0 & g1 & -> & Hw).
  clients; naive_solver.
Qed.

Lemma occupied_u32 q : u32 (iq_tail q - iq_head q) = occupied q.
Proof. done. Qed.

(** The branch of [deliver] that publishes a batch. *)
Lemma deliver_batch_ok w c d es :
  input_ok w -> is_client c -> is_device d -> attached (iw_service w) c = true ->
  releasing (iw_service w) c d = false -> Forall (fun e => is_u16 (ev_code e)) es -> valid_events d es = true ->
  occupied (ds_queue (dview w c d)) + Z.of_nat (length es) <= 256 ->
  exists words' s', track d es (held_words (iw_service w) c d) = Some words' /\
    put_held (iw_service w) c d words' = Some s' /\
    wp (store_queue c d (queue_append (ds_queue (dview w c d)) es))
      (fun _ w' => evolves (fun d => rtc (dreq d)) w w') (set_service s' w).
Proof.
  intros Hw Hc Hd Ha Hr Hu Hv Hroom. destruct (held_get _ c d (io_service w Hw) Hc Hd) as [_ Hwo].
  destruct (track_keys d es _ Hd Hu Hv Hwo) as (words' & Htr & Hwo' & Hk).
  destruct (put_held_ok w c d words' Hw Hc Hd Ha Hwo') as (s' & Hput & Hup). exists words', s'. split_and!; [done..|].
  pose proof Hup as (Hok & _ & _ & Hview & _). destruct (io_regions w Hw c Hc Ha) as (r & Hreg & Hrok).
  apply wp_store_queue; [done..| | |].
  - rewrite <- (attached_view _ c d), Hview. done.
  - apply queue_append_ok. rewrite (device_queue_region w c d r Ha Hreg). by apply region_queue_ok.
  - intros w' Hup'. eapply updates_evolves; [intros; apply rtc_refl|by eapply updates_trans|].
    rewrite Hview, (attached_dview w c d Ha), Hr. cbn. rewrite Hk. by apply rtc_once, dreq_batch.
Qed.

Lemma wp_deliver w q :
  input_ok w -> request_ok q ->
  wp (deliver q) (fun _ w' => evolves (fun d => rtc (dreq d)) w w') w.
Proof.
  intros Hw Hq. pose proof (io_service w Hw) as Hs.
  assert (Hsame : evolves (fun d => rtc (dreq d)) w w) by (apply evolves_refl; [intros; apply rtc_refl|done]).
  unfold deliver, get_service. wp_step. destruct (is_release q) eqn:Hrel.
  - wp_step. cbn [negb]. repeat wp_step; [done|].
    apply orb_false_iff in H as [Hc%Z.leb_gt Ha%negb_false_iff].
    unfold is_release in Hrel. rewrite !andb_true_iff in Hrel. destruct Hrel as [[_ Hd%Z.ltb_lt] _].
    pose proof (client_cases _ (ro_client q Hq) Hc) as Hc'. pose proof (device_cases _ (ro_device q Hq) Hd) as Hd'.
    pose proof (releasing_word_u32 _ _ Hs Hc').
    wlift (by apply releasing_word).
    edestruct (put_releasing_ok w (rq_client q) (rq_device q)) as (s' & Hput & Hup); [done..|by apply or_bit_u32| |].
    { intros d' Hdd Hne. unfold releasing. rewrite has_or_bit by (by apply device_range).
      destruct (Z.eqb_spec (rq_device q) d'); [by subst|done]. }
    wlift (exact Hput). unfold put_service. repeat wp_step.
    eapply updates_evolves; [intros; apply rtc_refl|exact Hup|]. rewrite (attached_dview _ _ _ Ha). cbn.
    rewrite has_or_bit, Z.eqb_refl by (by apply device_range). apply rtc_once, dreq_release.
  - destruct (valid_batch_total q Hq) as [[] Hvb]; wlift (exact Hvb); cbn [negb]; [|by repeat wp_step].
    destruct (valid_batch_spec q Hq Hvb) as (Hd & Hn & Hv).
    repeat wp_step; [done|]. apply orb_false_iff in H as [Hc%Z.leb_gt Ha%negb_false_iff].
    pose proof (client_cases _ (ro_client q Hq) Hc) as Hc'. pose proof (device_cases _ (ro_device q Hq) Hd) as Hd'.
    wlift (by apply releasing_word). repeat wp_step; [done|]. apply wp_load_queue; [done..|]. intros Hqo.
    cbn zeta. rewrite occupied_u32. repeat wp_step; [done|]. unfold AOS_INPUT_EVENT_CAPACITY in *.
    apply orb_false_iff in H0 as [Ho1%Z.ltb_ge Ho2%Z.ltb_ge].
    wlift (by apply batch_take; [|lia]). set (es := take _ _).
    assert (Hlen : Z.of_nat (length es) = rq_count q) by (unfold es; rewrite length_take, (ro_events q Hq); lia).
    wlift (apply put_events_store, Hqo).
    wlift (by apply held_get).
    destruct (deliver_batch_ok w (rq_client q) (rq_device q) es) as (words' & s' & Htr & Hput & Hwp);
      [done..|by apply Forall_take, Hq|done|lia|].
    wlift (exact Htr). wlift (exact Hput). unfold put_service. wp_step. wp_step. wp_step.
    rewrite <- Hlen. eapply wp_mono; [exact Hwp|]. intros ? w' He. by wp_step.
Qed.

(** ** Release *)

Lemma release_code_of d v : 0 <= v < 256 -> release_code d v = code_of d v.
Proof. intros Hv. unfold release_code, code_of. apply u16_small. unfold is_u16. case_cmp; lia. Qed.

Definition held_in (words : list Z) (indices : list Z) : list Z := filter (fun v => wmem words v = true) indices.

Lemma held_in_cons words v vs :
  held_in words (v :: vs) = (if wmem words v then [v] else []) ++ held_in words vs.
Proof. unfold held_in. rewrite filter_cons. by destruct (wmem words v). Qed.

Lemma held_in_ext words words' vs :
  (forall v, v ∈ vs -> wmem words' v = wmem words v) -> held_in words' vs = held_in words vs.
Proof.
  induction vs as [|v vs IH]; intros He; [done|]. rewrite !held_in_cons, He by apply list_elem_of_here.
  rewrite IH; [done|]. intros u Hu. by apply He, list_elem_of_further.
Qed.

(** The scan releases the first held keys that fit, in order, and counts the
    rest. *)
Lemma scan_keys_spec d tail room vs : forall r,
  NoDup vs -> Forall (fun v => 0 <= v < 256) vs -> words_ok 8 (sc_words r) -> length (sc_events r) = 256%nat ->
  0 <= sc_count r ->
  let ks := take (Z.to_nat (Z.min 63 (room - 1) - sc_count r)) (held_in (sc_words r) vs) in
  exists r', scan_keys d tail room vs r = Some r' /\ words_ok 8 (sc_words r') /\
    (forall u, 0 <= u < 256 -> wmem (sc_words r') u = negb (bool_decide (u ∈ ks)) && wmem (sc_words r) u) /\
    sc_events r' = ring_store 256 (sc_events r) (tail + sc_count r) ((fun v => mk_event 1 (code_of d v) 0) <$> ks) /\
    sc_count r' = sc_count r + Z.of_nat (length ks) /\
    sc_left r' = sc_left r + Z.of_nat (length (held_in (sc_words r) vs) - length ks).
Proof.
  induction vs as [|v vs IH]; intros r Hnd Hrange Hw Hl Hn ks.
  { assert (ks = []) as -> by apply take_nil. exists r. cbn. split; [done|]. split; [done|].
    split_and!; [done|done|lia|lia]. }
  apply NoDup_cons in Hnd as [Hv Hnd]. apply Forall_cons in Hrange as [Hr Hrange]. cbn [scan_keys].
  rewrite (wget_mem 8) by done. cbn [mbind option_bind]. subst ks. rewrite held_in_cons.
  destruct (wmem (sc_words r) v) eqn:Hm; cbn [negb app]; [|by apply IH].
  unfold AOS_INPUT_BATCH_EVENTS. destruct (_ || _) eqn:Hfull.
  - assert (Z.to_nat (Z.min 63 (room - 1) - sc_count r) = 0%nat) as Hz by (apply orb_true_iff in Hfull; lia).
    destruct (IH (mk_scan (sc_words r) (sc_events r) (sc_count r) (sc_left r + 1))) as (r' & Hs & Hw' & Hm' & He & Hc & Hleft);
      [done..|]. cbn [sc_words sc_events sc_count sc_left] in *. rewrite Hz, take_0 in *. cbn [length fmap list_fmap] in *.
    exists r'. split; [done|]. split; [done|]. split_and!; [done..|lia].
  - apply orb_false_iff in Hfull as [Hf1%Z.leb_gt Hf2%Z.leb_gt].
    unfold AOS_INPUT_EVENT_CAPACITY. rewrite event_slot.
    pose proof (ring_slot_bound _ _ event_ring (tail + sc_count r)). rewrite aset_Some by lia. cbn [mbind option_bind].
    destruct (wclear_spec 8 _ Hw v Hr) as (words' & -> & Hwo & Hwm). cbn [mbind option_bind].
    rewrite release_code_of by done.
    destruct (IH (mk_scan words' (<[Z.to_nat ((tail + sc_count r) mod 256):=mk_event 1 (code_of d v) 0]> (sc_events r))
      (sc_count r + 1) (sc_left r))) as (r' & Hs & Hw' & Hm' & He & Hc & Hleft);
      [done|done|done|cbn; by rewrite length_insert|cbn; lia|].
    cbn [sc_words sc_events sc_count sc_left] in *.
    assert (Hext : held_in words' vs = held_in (sc_words r) vs).
    { apply held_in_ext. intros u Hu. rewrite Hwm by (by apply (proj1 (Forall_forall _ _) Hrange)).
      destruct (Z.eqb_spec v u); [by subst|done]. }
    rewrite Hext in *. clear Hext.
    replace (Z.to_nat (Z.min 63 (room - 1) - sc_count r)) with (S (Z.to_nat (Z.min 63 (room - 1) - (sc_count r + 1)))) by lia.
    exists r'. cbn [take length fmap list_fmap ring_store]. split; [done|]. split; [done|]. split_and!.
    + intros u Hu. rewrite Hm', Hwm by done. rewrite andb_assoc. f_equal. destruct (Z.eqb_spec v u) as [->|Hne].
      * rewrite (bool_decide_eq_true_2 (u ∈ u :: _)) by apply list_elem_of_here. by rewrite andb_false_r.
      * rewrite andb_true_r. f_equal. apply bool_decide_ext. rewrite elem_of_cons. naive_solver.
    + by rewrite He, Z.add_assoc.
    + lia.
    + lia.
Qed.

Lemma held_in_codes d words : code_of d <$> held_in words (seqZ 0 256) = held_list d words.
Proof. done. Qed.

Lemma put_releasing_clear w c d :
  input_ok w -> is_client c -> is_device d -> attached (iw_service w) c = true ->
  exists s', put_releasing (iw_service w) c (clear_bit (is_releasing (iw_service w) !!! Z.to_nat c) d) = Some s' /\
    updates w (set_service s' w) c d (mk_dstate true false (ds_held (dview w c d)) (ds_queue (dview w c d))).
Proof.
  intros Hw Hc Hd Ha. pose proof (releasing_word_u32 _ _ (io_service w Hw) Hc).
  edestruct (put_releasing_ok w c d) as (s' & Hput & Hup); [done..|by apply clear_bit_u32| |].
  { intros d' Hdd Hne. unfold releasing. rewrite has_clear_bit by (by apply device_range).
    by rewrite (proj2 (Z.eqb_neq d d')) by done. }
  exists s'. split; [done|]. by rewrite has_clear_bit, Z.eqb_refl in Hup by (by apply device_range).
Qed.

(** The events that a round publishes are stored as one batch. *)
Lemma release_events_store events tail d ks :
  ks <> [] ->
  <[Z.to_nat ((tail + Z.of_nat (length ks)) mod 256) := mk_event 0 0 0]>
    (ring_store 256 events tail ((fun v => mk_event 1 (code_of d v) 0) <$> ks))
  = ring_store 256 events tail (release_events (code_of d <$> ks)) /\
  length (release_events (code_of d <$> ks)) = S (length ks).
Proof.
  intros Hne. assert (release_events (code_of d <$> ks) = ((fun v => mk_event 1 (code_of d v) 0) <$> ks) ++ [mk_event 0 0 0]) as ->.
  { destruct ks; [done|]. cbn. by rewrite <- list_fmap_compose. }
  rewrite ring_store_snoc, length_fmap, length_app, length_fmap. split; [done|cbn; lia].
Qed.

(** One round on an attached device that is releasing. *)
Lemma release_round_ok w c d words' ks :
  let q := ds_queue (dview w c d) in
  let words := held_words (iw_service w) c d in
  input_ok w -> is_client c -> is_device d -> attached (iw_service w) c = true -> queue_ok q ->
  releasing (iw_service w) c d = true -> occupied q <= 256 ->
  ks = take (round_limit q) (held_in words (seqZ 0 256)) -> words_ok 8 words' ->
  (forall u, 0 <= u < 256 -> wmem words' u = negb (bool_decide (u ∈ ks)) && wmem words u) ->
  drelease (dview w c d)
    (mk_dstate true (negb (length (held_in words (seqZ 0 256)) - length ks =? 0)%nat) (held_codes d words')
       (queue_append q (release_events (code_of d <$> ks)))).
Proof.
  intros q words Hw Hc Hd Ha Hq Hr Ho Hks Hwo Hm. rewrite (attached_dview w c d Ha), Hr. fold q words.
  assert (Hlen : length (held_in words (seqZ 0 256)) = size (held_codes d words)).
  { by rewrite size_held_codes, <- held_in_codes, length_fmap. }
  assert (negb (length (held_in words (seqZ 0 256)) - length ks =? 0)%nat
    = bool_decide (length (code_of d <$> ks) < size (held_codes d words))%nat) as ->.
  { rewrite length_fmap, <- Hlen. case_bool_decide; destruct (Nat.eqb_spec (length (held_in words (seqZ 0 256)) - length ks) 0); lia || done. }
  rewrite (held_codes_clear d words words' ks Hm). apply dr_round; [done| | |].
  - rewrite Hks, fmap_take, held_in_codes. eapply sublist_NoDup; [apply NoDup_held_list|apply sublist_take].
  - intros k. rewrite elem_of_list_to_set, Hks, fmap_take, held_in_codes. intros Hk. apply elem_of_list_to_set.
    eapply elem_of_sublist; [exact Hk|apply sublist_take].
  - rewrite length_fmap, Hks, length_take, Hlen. lia.
Qed.

Lemma wp_publish_round w c d r ks ready progress :
  let q := ds_queue (dview w c d) in
  input_ok w -> is_client c -> is_device d -> attached (iw_service w) c = true -> queue_ok q ->
  sc_count r = Z.of_nat (length ks) ->
  sc_events r = ring_store 256 (iq_events q) (iq_tail q) ((fun v => mk_event 1 (code_of d v) 0) <$> ks) ->
  wp (publish_round c d q r ready progress)
    (fun _ w' => updates w w' c d (mk_dstate true (ds_releasing (dview w c d)) (ds_held (dview w c d))
       (queue_append q (release_events (code_of d <$> ks))))) w.
Proof.
  intros q Hw Hc Hd Ha Hq Hcount Hev. unfold publish_round. rewrite Hcount, Hev. wp_step.
  - assert (ks = []) as -> by (by destruct ks). cbn [fmap list_fmap release_events]. rewrite queue_append_nil by done.
    apply wp_ret. subst q. rewrite <- (attached_view w c d) in Ha. destruct (dview w c d) as [a rl h qq] eqn:Hv.
    cbn in *. rewrite Ha in Hv. rewrite <- Hv. by apply updates_refl.
  - unfold AOS_INPUT_EVENT_CAPACITY. rewrite event_slot.
    pose proof (ring_slot_bound _ _ event_ring (iq_tail q + Z.of_nat (length ks))).
    wlift (apply aset_Some; rewrite length_ring_store, (qo_events q Hq); lia). wp_step.
    destruct (release_events_store (iq_events q) (iq_tail q) d ks) as [-> Hlen]; [by intros ->|].
    apply wp_store_queue; [done..| |].
    + split; cbn; [apply Hq|apply u32_range|]. rewrite length_ring_store. apply Hq.
    + intros w' Hup. wp_step. unfold queue_append. rewrite Hlen.
      by replace (Z.of_nat (S (length ks))) with (Z.of_nat (length ks) + 1) by lia.
Qed.

Lemma count_eqb n : (0 + Z.of_nat n =? 0) = (n =? 0)%nat.
Proof. by destruct n. Qed.

Lemma wp_release_device w c d ready progress :
  input_ok w -> is_client c -> is_device d ->
  wp (release_device c d ready progress)
    (fun _ w' => exists D, updates w w' c d D /\ drelease (dview w c d) D) w.
Proof.
  intros Hw Hc Hd. pose proof (io_service w Hw) as Hs.
  assert (Hidle : releasing (iw_service w) c d = false -> exists D, updates w w c d D /\ drelease (dview w c d) D).
  { intros Hr. eexists. split; [by apply updates_refl|]. apply dr_idle. unfold dview. by destruct (attached _ c). }
  unfold release_device, get_service. wlift (by apply releasing_word). wp_step; [apply negb_true_iff in H; by wp_step; auto|].
  apply negb_false_iff in H. pose proof (so_only _ Hs c d Hc Hd H) as Ha. wp_step. apply wp_load_queue; [done..|].
  set (q := ds_queue (dview w c d)). intros Hq. cbn zeta. rewrite occupied_u32. wp_step.
  { wp_step. eexists. split; [by apply updates_refl|]. rewrite (attached_dview w c d Ha). fold q. unfold releasing.
    rewrite H. apply dr_corrupt. unfold AOS_INPUT_EVENT_CAPACITY in *. lia. }
  apply Z.ltb_ge in H0. unfold AOS_INPUT_EVENT_CAPACITY in *. destruct (held_get _ c d Hs Hc Hd) as [Hget Hwo].
  wlift (exact Hget). set (words := held_words (iw_service w) c d).
  destruct (scan_keys_spec d (iq_tail q) (256 - occupied q) (seqZ 0 256) (mk_scan words (iq_events q) 0 0))
    as (r & Hscan & Hwo' & Hm & Hev & Hcount & Hleft);
    [apply NoDup_seqZ|apply Forall_seqZ; intros; lia|done|apply Hq|done|].
  cbn [sc_words sc_events sc_count sc_left] in *.
  replace (Z.min 63 (256 - occupied q - 1) - 0) with (Z.min 63 (255 - occupied q)) in * by lia.
  fold (round_limit q) in *. set (ks := take (round_limit q) (held_in words (seqZ 0 256))) in *.
  pose proof (release_round_ok w c d (sc_words r) ks Hw Hc Hd Ha Hq H H0 eq_refl Hwo' Hm) as Hround.
  wlift (exact Hscan). destruct (put_held_ok w c d (sc_words r) Hw Hc Hd Ha Hwo') as (s1 & Hput & Hup1).
  wlift (exact Hput). unfold put_service. do 2 wp_step.
  pose proof Hup1 as (Hok1 & _ & _ & Hv1 & _). fold q words in Hround. fold q in Hv1.
  assert (Ha1 : attached (iw_service (set_service s1 w)) c = true) by (by rewrite <- (attached_view _ c d), Hv1).
  wp_step. eapply wp_mono.
  { replace q with (ds_queue (dview (set_service s1 w) c d)) by (by rewrite Hv1).
    apply (wp_publish_round _ c d r ks); rewrite ?Hv1; cbn [ds_queue]; try done. by rewrite Hev, Z.add_0_r. }
  intros [ready' progress'] w2 Hup2. rewrite Hv1 in Hup2. cbn [ds_queue ds_held ds_releasing] in Hup2.
  pose proof (updates_trans _ _ _ _ _ _ _ Hup1 Hup2) as Hup. pose proof Hup2 as (Hok2 & _ & _ & Hv2 & _).
  assert (Hrel : ds_releasing (dview w c d) = true) by (rewrite (attached_dview w c d Ha); exact H).
  rewrite Hrel in *. cbn beta iota. rewrite Hleft, count_eqb.
  destruct (length (held_in words (seqZ 0 256)) - length ks =? 0)%nat.
  - assert (Ha2 : attached (iw_service w2) c = true) by (by rewrite <- (attached_view _ c d), Hv2).
    destruct (put_releasing_clear w2 c d Hok2 Hc Hd Ha2) as (s3 & Hput3 & Hup3). rewrite Hv2 in Hup3.
    wlift (by apply releasing_word; [apply Hok2|]). wlift (exact Hput3). repeat wp_step. eexists.
    split; [by eapply updates_trans|exact Hround].
  - wp_step. eexists. split; [exact Hup|exact Hround].
Qed.

Lemma wp_release_pending w ready :
  input_ok w -> wp (release_pending ready) (fun _ w' => evolves (fun _ => drelease) w w') w.
Proof.
  intros Hw. unfold release_pending.
  assert (H0 : is_client 0) by (by left). assert (H1 : is_client 1) by (by right).
  assert (D0 : is_device 0) by (by left). assert (D1 : is_device 1) by (by right).
  wp_step. eapply wp_mono; [by apply wp_release_device|]. intros [r1 p1] w1 (E1 & (Ok1 & F1 & P1 & V1 & O1) & R1).
  wp_step. eapply wp_mono; [by apply wp_release_device|]. intros [r2 p2] w2 (E2 & (Ok2 & F2 & P2 & V2 & O2) & R2).
  wp_step. eapply wp_mono; [by apply wp_release_device|]. intros [r3 p3] w3 (E3 & (Ok3 & F3 & P3 & V3 & O3) & R3).
  eapply wp_mono; [by apply wp_release_device|]. intros [r4 p4] w4 (E4 & (Ok4 & F4 & P4 & V4 & O4) & R4).
  unfold evolves. split_and!; [done|congruence|congruence|]. intros c d Hc Hd.
  clients; repeat first [rewrite O4 by auto | rewrite O3 by auto | rewrite O2 by auto | rewrite O1 by auto];
    rewrite ?V4, ?V3, ?V2, ?V1; repeat first [rewrite O3 in R4 by auto | rewrite O2 in R3, R4 by auto
      | rewrite O2 in R3 by auto | rewrite O2 in R4 by auto | rewrite O1 in R2 by auto | rewrite O1 in R3 by auto
      | rewrite O1 in R4 by auto]; done.
Qed.

(** ** Detachment *)

Lemma other_client c c' : is_client c -> is_client c' -> c <> c' -> has_bit (bit c) c' = false.
Proof. intros. clients; done. Qed.

Lemma retire_client_ok w c p r :
  input_ok w -> is_client c -> attached (iw_service w) c = true ->
  is_clients (iw_service w) !!! Z.to_nat c = p -> iw_regions w !! p = Some r ->
  exists s', retire_client (iw_service w) c = Some s' /\
    wp (acknowledge p) (fun _ w' => input_ok w' /\ iw_frontends w' = iw_frontends w /\
      is_frontend (iw_service w') = is_frontend (iw_service w) /\
      (forall d, is_device d -> dview w' c d = ds_gone) /\
      (forall c' d, is_client c' -> is_device d -> c' <> c -> dview w' c' d = dview w c' d))
      (set_service s' w).
Proof.
  intros [Hs Hf Hfp Hr] Hc Ha Hp Hreg. destruct w as [s fr rg]. cbn in *. pose proof Hs as Hs'.
  destruct (service_cases s Hs') as (f & p0 & p1 & al & h00 & h01 & h10 & h11 & r0 & r1 & rt & g0 & g1 & -> & Hw).
  exists (mk_iservice f (if c =? 0 then [NULL; p1] else [p0; NULL]) (clear_bit al c)
    (if c =? 0 then [replicate 2 (replicate 8 0); [h10; h11]] else [[h00; h01]; replicate 2 (replicate 8 0)])
    (if c =? 0 then [0; r1] else [r0; 0]) (or_bit rt c) [g0; g1]).
  destruct Hs as [_ _ _ _ _ Hal Hat Hdi Ho Hcl]. destruct Hw as (? & ? & ? & ? & Hr0 & Hr1).
  assert (Hgone : has_bit (clear_bit al c) c = false).
  { rewrite has_clear_bit, Z.eqb_refl by (by apply client_range). done. }
  assert (Hstay : forall c', is_client c' -> c' <> c -> has_bit (clear_bit al c) c' = has_bit al c').
  { intros c' Hc' Hne. rewrite has_clear_bit by (by apply client_range). by rewrite (proj2 (Z.eqb_neq c c')) by done. }
  split; [by clients|]. unfold acknowledge, store_region, load_region. wlift (exact Hreg). wlift (exact Hreg).
  repeat wp_step. unfold attached in *. cbn in *.
  assert (Hdist : forall c', is_client c' -> c' <> c -> has_bit al c' = true -> p <> [p0; p1] !!! Z.to_nat c').
  { intros c' Hc' Hne Ha'. rewrite <- Hp.
    clients; try done; intros Heq; apply Hdi; done || (symmetry; done). }
  assert (Hptr : forall c', is_client c' -> c' <> c ->
    (if c =? 0 then [NULL; p1] else [p0; NULL]) !!! Z.to_nat c' = [p0; p1] !!! Z.to_nat c').
  { intros c' Hc' Hne. clients; done. }
  assert (Hval : forall c', is_client c' -> has_bit (clear_bit al c) c' = true -> c' <> c /\ has_bit al c' = true).
  { intros c' Hc' Ha'. assert (c' <> c) as Hne by (intros ->; congruence). split; [done|]. by rewrite <- Hstay. }
  split_and!; [|done|done| |].
  - split; [|done|done|]; cbn.
    + split; cbn; unfold attached; cbn.
      * by clients.
      * split; [by clients|clients; foralls].
      * done.
      * by clients.
      * clients; foralls.
      * by apply clear_bit_u32.
      * intros c' Hc' [Hne Ha']%Hval; [|done]. rewrite Hptr by done. by apply Hat.
      * intros [Hn0 _]%Hval [Hn1 _]%Hval; [clients; done|by right|by left].
      * intros c' d' Hc' Hd' Hrel. destruct (decide (c' = c)) as [->|Hne].
        { clients; unfold releasing in Hrel; cbn in Hrel; by rewrite has_bit_0 in Hrel. }
        rewrite Hstay by done. apply (Ho c' d' Hc' Hd'). revert Hrel. clients; unfold releasing; cbn; done.
      * intros c' d' v Hc' Hd' Ha'. destruct (decide (c' = c)) as [->|Hne].
        { clients; unfold held_words; cbn; apply (wmem_empty 8). }
        rewrite Hstay in Ha' by done. rewrite <- (Hcl c' d' v Hc' Hd' Ha'). clients; done.
    + intros c' Hc' [Hne Ha']%Hval; [|done]. rewrite Hptr, lookup_insert_ne by auto. by apply Hr.
  - intros d Hd. unfold dview, attached. cbn. by rewrite Hgone.
  - intros c' d Hc' Hd Hne. unfold dview, attached. cbn. rewrite Hstay by done.
    destruct (has_bit al c') eqn:Ha'; [|done]. unfold device_queue. cbn. rewrite Hptr, lookup_insert_ne by auto.
    clients; done.
Qed.

Lemma wp_detach_client w c ready detached :
  input_ok w -> is_client c ->
  wp (detach_client c ready detached)
    (fun _ w' => input_ok w' /\ iw_frontends w' = iw_frontends w /\
       is_frontend (iw_service w') = is_frontend (iw_service w) /\
       (forall c' d, is_client c' -> is_device d -> c' <> c -> dview w' c' d = dview w c' d) /\
       (forall d, is_device d -> ddetach (dview w c d) (dview w' c d))) w.
Proof.
  intros Hw Hc. unfold detach_client, get_service, put_service.
  assert (Hsame : forall d, is_device d -> ddetach (dview w c d) (dview w c d)) by (intros; by left).
  repeat wp_step; [by split_and!|]. apply negb_false_iff in H. destruct (io_regions w Hw c Hc H) as (r & Hr & _).
  wlift (apply client_pointer; [apply Hw|done]). unfold load_region at 1. wlift (exact Hr). repeat wp_step; [by split_and!|].
  destruct (retire_client_ok w c _ r Hw Hc H eq_refl Hr) as (s' & Hret & Hwp). wlift (exact Hret). do 3 wp_step.
  eapply wp_mono; [exact Hwp|]. intros u w' (Hok & Hf & Hp & Hgone & Hoth). repeat wp_step. split_and!; [done..|].
  intros d Hd. right. by rewrite attached_view, Hgone.
Qed.

Lemma wp_detach_pending w ready :
  input_ok w -> wp (detach_pending ready) (fun _ w' => evolves (fun _ => ddetach) w w') w.
Proof.
  intros Hw. unfold detach_pending. wp_step. eapply wp_mono; [apply wp_detach_client; [done|by left]|].
  intros [r1 p1] w1 (Ok1 & F1 & P1 & O1 & V1). eapply wp_mono; [apply wp_detach_client; [done|by right]|].
  intros [r2 p2] w2 (Ok2 & F2 & P2 & O2 & V2). unfold evolves. split_and!; [done|congruence|congruence|].
  intros c d Hc Hd. destruct Hc as [-> | ->].
  - rewrite O2 by (done || by left). by apply V1.
  - rewrite <- O1 by (done || by right). by apply V2.
Qed.

(** ** The pump *)

Definition requests_served (w w' : input_world) : Prop :=
  forall c d, is_client c -> is_device d -> rtc (dreq d) (dview w c d) (dview w' c d).

Lemma dview_frontends s f f' r c d : dview (mk_iworld s f r) c d = dview (mk_iworld s f' r) c d.
Proof. done. Qed.

Lemma store_frontend_ok w f :
  input_ok w -> frontend_ok f ->
  input_ok (mk_iworld (iw_service w) (<[is_frontend (iw_service w) := f]> (iw_frontends w)) (iw_regions w)).
Proof. intros [? ? ? ?] Hf. split; cbn; [done| |done|done]. exists f. by rewrite lookup_insert_eq. Qed.

Lemma wp_pump_round w p a :
  input_ok w -> is_frontend (iw_service w) = p ->
  wp (pump_round p a)
    (fun _ w' => input_ok w' /\ is_frontend (iw_service w') = p /\ requests_served w w') w.
Proof.
  intros Hw Hp. destruct a as [[ready head] processed]. pose proof (io_frontend w Hw) as (f & Hf & Hfo). rewrite Hp in Hf.
  unfold pump_round. unfold load_frontend at 1. wlift (exact Hf). cbn zeta.
  wp_step. { wp_step. split_and!; [done..|]. intros c d _ _. apply rtc_refl. }
  pose proof (Z.mod_pos_bound head 16). unfold AOS_INPUT_REQUEST_CAPACITY in *.
  destruct (aget_lt (fe_requests f) (head mod 16)) as [q Hq]; [rewrite (fo_requests f Hfo); lia|].
  wlift (exact Hq). assert (Hqo : request_ok q).
  { apply aget_Some in Hq as [_ Hq]. exact (Forall_lookup_1 _ _ _ _ (fo_requests_ok f Hfo) Hq). }
  wp_step. eapply wp_mono; [by apply wp_deliver|]. intros status w1 (Hok1 & Hf1 & Hp1 & Hv1). cbn zeta.
  pose proof (Z.mod_pos_bound (fe_resp_tail f) 16).
  wlift (apply aset_Some; rewrite (fo_responses f Hfo); lia). unfold store_frontend, load_frontend.
  wlift (rewrite Hf1; exact Hf). repeat wp_step. split_and!; [|cbn; congruence|exact Hv1].
  rewrite <- Hp, <- Hp1. apply store_frontend_ok; [done|]. destruct Hfo.
  split; cbn; try done; [apply u32_range|apply u32_range|by rewrite length_insert].
Qed.

Lemma wp_pump_rounds n w p a :
  input_ok w -> is_frontend (iw_service w) = p ->
  wp (for_loop n 0 a (fun _ a => pump_round p a))
    (fun _ w' => input_ok w' /\ is_frontend (iw_service w') = p /\ requests_served w w') w.
Proof.
  intros Hw Hp. apply (wp_for (fun _ _ w' => input_ok w' /\ is_frontend (iw_service w') = p /\ requests_served w w')).
  - split_and!; [done..|]. intros c d _ _. apply rtc_refl.
  - intros i b w1 _ (Hok1 & Hp1 & Hs1). eapply wp_mono; [by apply wp_pump_round|].
    intros [[] b'] w2 (Hok2 & Hp2 & Hs2); cbn; split_and!; try done; intros c d Hc Hd; etrans; by auto.
  - done.
Qed.

(** The pump does to every device what [dpump] says, whatever the shared
    pages contain. *)
Lemma wp_input_pump w :
  input_ok w ->
  wp aos_input_pump (fun _ w' => input_ok w' /\ is_frontend (iw_service w') = is_frontend (iw_service w) /\
    forall c d, is_client c -> is_device d -> dpump (frontend_sane w) d (dview w c d) (dview w' c d)) w.
Proof.
  intros Hw. pose proof (io_frontend w Hw) as (f & Hf & Hfo). unfold aos_input_pump, get_service. repeat wp_step.
  { apply Z.eqb_eq in H. by destruct (io_frontend_ptr w Hw). }
  eapply wp_mono; [by apply wp_detach_pending|]. intros [ready detached] w1 (Hok1 & Hf1 & Hp1 & Hv1). cbn beta iota.
  wp_step. unfold load_frontend at 1. wlift (rewrite Hf1; exact Hf). cbn zeta. unfold frontend_sane. rewrite Hf.
  unfold AOS_INPUT_REQUEST_CAPACITY. destruct (Z.ltb_spec 16 (u32 (fe_req_tail f - fe_req_head f))) as [Hbad|Hgood].
  - wp_step. split_and!; [done..|]. intros c d Hc Hd. eexists. split; [by apply Hv1|].
    destruct (Z.leb_spec (u32 (fe_req_tail f - fe_req_head f)) 16); [lia|done].
  - wp_step. eapply wp_mono; [by apply wp_pump_rounds|]. intros [[r2 h2] p2] w2 (Hok2 & Hp2 & Hv2). cbn beta iota.
    wp_step. eapply wp_mono; [by apply wp_release_pending|]. intros [r3 p3] w3 (Hok3 & Hf3 & Hp3 & Hv3). wp_step.
    split_and!; [done|congruence|]. intros c d Hc Hd. eexists. split; [by apply Hv1|].
    destruct (Z.leb_spec (u32 (fe_req_tail f - fe_req_head f)) 16); [|lia]. eexists. by split; [apply Hv2|apply Hv3].
Qed.

(** ** Rebinding *)

Lemma client_generation s c :
  service_ok s -> is_client c -> aget (is_generation s) c = Some (is_generation s !!! Z.to_nat c).
Proof. intros Hs Hc. apply aget_total. rewrite (so_generation s Hs). clients; lia. Qed.

Lemma wp_rebind_retire w badge q len :
  input_ok w -> 0 <= rb_client q ->
  wp (aos_input_rebind_retire badge q len) (fun _ w' => evolves (fun _ => ddetach) w w') w.
Proof.
  intros Hw Hq. assert (Hsame : evolves (fun _ => ddetach) w w) by (apply evolves_refl; [by left|done]).
  unfold aos_input_rebind_retire, get_service. cbn zeta.
  wp_step; [by wp_step|]. wp_step; [by wp_step|].
  assert (Hc : is_client (rb_client q)).
  { apply orb_false_iff in H0 as [Hlt _]. apply Z.leb_gt in Hlt. by apply client_cases. }
  wlift (apply client_pointer; [apply Hw|done]). wlift (apply client_generation; [apply Hw|done]).
  destruct (has_bit (is_allowed (iw_service w)) (rb_client q)) eqn:Ha; cbn [negb]; [|by repeat wp_step].
  wp_step; [by wp_step|]. destruct (io_regions w Hw (rb_client q) Hc Ha) as (r & Hr & Hrok).
  destruct (retire_client_ok w (rb_client q) _ r Hw Hc Ha eq_refl Hr) as (s' & Hret & Hwp). wlift (exact Hret). unfold put_service. do 3 wp_step.
  eapply wp_mono; [exact Hwp|]. intros u w' (Hok & Hf & Hp & Hgone & Hoth). wp_step. unfold evolves. split_and!; [done..|].
  intros c d Hc' Hd. destruct (decide (c = rb_client q)) as [->|Hne]; [|left; by apply Hoth].
  right. by rewrite attached_view, Hgone.
Qed.

(** Validation changes nothing. Its success describes the state. *)
Lemma wp_input_validate w badge q len :
  input_ok w -> 0 <= rb_client q ->
  wp (aos_input_rebind_validate badge q len) (fun st w' => w' = w /\
    (st = AOS_INPUT_OK -> is_client (rb_client q) /\ attached (iw_service w) (rb_client q) = false)) w.
Proof.
  intros Hw Hq. unfold aos_input_rebind_validate, get_service. cbn zeta. do 2 wp_step.
  do 2 wp_step. wp_step; [by wp_step|]. wp_step; [by wp_step|].
  assert (Hc : is_client (rb_client q)).
  { apply orb_false_iff in H0 as [Hlt _]. apply Z.leb_gt in Hlt. by apply client_cases. }
  wlift (apply client_pointer; [apply Hw|done]). wlift (apply client_generation; [apply Hw|done]).
  wp_step; [by wp_step|]. destruct (io_frontend w Hw) as (f & Hf & _). unfold load_frontend. wlift (exact Hf).
  wp_step. split; [done|]. intros _. split; [done|]. unfold attached. by destruct (has_bit _ (rb_client q)).
Qed.

(** A fresh page is attached: nothing held, nothing queued. *)
Definition dattach (D D' : dstate) : Prop :=
  D' = D \/ (D = ds_gone /\ exists q, iq_head q = 0 /\ iq_tail q = 0 /\ D' = mk_dstate true false ∅ q).

Lemma held_codes_none d words : (forall v, wmem words v = false) -> held_codes d words = ∅.
Proof.
  intros Hno. apply set_eq. intros k. rewrite elem_held_codes. split; [|set_solver].
  intros (v & _ & _ & Hv). by rewrite Hno in Hv.
Qed.

Lemma queues_fresh_queue r d :
  region_ok r -> is_device d -> queues_fresh (rg_devices r) = true ->
  iq_head (rg_devices r !!! Z.to_nat d) = 0 /\ iq_tail (rg_devices r !!! Z.to_nat d) = 0.
Proof.
  intros [Hl _] Hd Hf. unfold queues_fresh in Hf.
  destruct (list_two _ Hl) as (q0 & q1 & Hq). rewrite Hq in *. cbn in Hf. rewrite !andb_true_iff, !Z.eqb_eq in Hf.
  clients; cbn; tauto.
Qed.

(** The private state after a commit. *)
Lemma commit_ok w c p g r :
  input_ok w -> is_client c -> attached (iw_service w) c = false -> p <> NULL ->
  iw_regions w !! p = Some r -> region_ok r -> queues_fresh (rg_devices r) = true ->
  existsb (fun x => x =? p) (is_clients (iw_service w)) = false ->
  let s := iw_service w in
  exists clients generations,
    aset (is_clients s) c p = Some clients /\ aset (is_generation s) c g = Some generations /\
    evolves (fun _ => dattach) w
      (set_service (with_allowed (or_bit (is_allowed s) c)
          (with_retired (clear_bit (is_retired s) c) (with_generation generations (with_clients clients s)))) w).
Proof.
  intros [Hs Hf Hfp Hr] Hc Ha Hp Hreg Hrok Hfresh Hnew s0. subst s0. destruct w as [s fr rg]. cbn in *. pose proof Hs as Hs'.
  destruct (service_cases s Hs') as (f & p0 & p1 & al & h00 & h01 & h10 & h11 & r0 & r1 & rt & g0 & g1 & -> & Hw).
  exists (if c =? 0 then [p; p1] else [p0; p]), (if c =? 0 then [g; g1] else [g0; g]).
  destruct Hs as [_ _ _ _ _ Hal Hat Hdi Ho Hcl]. destruct Hw as (? & ? & ? & ? & Hr0 & Hr1).
  cbn in Hnew. rewrite !orb_false_iff, !Z.eqb_neq in Hnew. destruct Hnew as (Hn0 & Hn1 & _).
  split; [by clients|]. split; [by clients|]. unfold attached in *. cbn in *.
  assert (Hnow : has_bit (or_bit al c) c = true).
  { rewrite has_or_bit, Z.eqb_refl by (by apply client_range). done. }
  assert (Hstay : forall c', is_client c' -> c' <> c -> has_bit (or_bit al c) c' = has_bit al c').
  { intros c' Hc' Hne. rewrite has_or_bit by (by apply client_range). by rewrite (proj2 (Z.eqb_neq c c')) by done. }
  assert (Hptr : forall c', is_client c' -> c' <> c ->
    (if c =? 0 then [p; p1] else [p0; p]) !!! Z.to_nat c' = [p0; p1] !!! Z.to_nat c').
  { intros c' Hc' Hne. clients; done. }
  assert (Hptrc : (if c =? 0 then [p; p1] else [p0; p]) !!! Z.to_nat c = p) by (clients; done).
  unfold evolves. split_and!; [|done|done|].
  - split; [|done|done|]; cbn.
    + split; cbn; unfold attached; cbn; try done; [by clients|split; [done|foralls]|by clients|foralls|by apply or_bit_u32| | | |].
      * intros c' Hc' Ha'. destruct (decide (c' = c)) as [->|Hne]; [by rewrite Hptrc|].
        rewrite Hptr by done. apply Hat; [done|]. by rewrite <- Hstay.
      * intros _ _. clients; cbn; done.
      * intros c' d' Hc' Hd' Hrel. destruct (decide (c' = c)) as [->|Hne]; [done|]. rewrite Hstay by done. by apply (Ho c' d').
      * intros c' d' v Hc' Hd' Ha'. apply Hcl; [done..|]. destruct (decide (c' = c)) as [->|Hne]; [done|]. by rewrite <- Hstay.
    + intros c' Hc' Ha'. destruct (decide (c' = c)) as [->|Hne]; [rewrite Hptrc; by exists r|].
      rewrite Hptr by done. apply Hr; [done|]. unfold attached in *. cbn in *. by rewrite <- Hstay.
  - intros c' d' Hc' Hd'. destruct (decide (c' = c)) as [->|Hne].
    + right. unfold dview, attached, device_queue. cbn. rewrite Ha, Hnow, Hptrc, Hreg. split; [done|].
      exists (rg_devices r !!! Z.to_nat d'). split_and!; [by apply queues_fresh_queue..|].
      f_equal; [|apply held_codes_none; intros v; by apply (Hcl c d' v)].
      apply not_true_is_false. intros Hrel. rewrite (Ho c d') in Ha by done. done.
    + left. unfold dview, attached, device_queue. cbn. by rewrite Hstay, Hptr by done.
Qed.

Lemma wp_rebind_commit w badge q len p :
  input_ok w -> 0 <= rb_client q ->
  p = NULL \/ (exists r, iw_regions w !! p = Some r /\ region_ok r) ->
  wp (aos_input_rebind_commit badge q len p) (fun _ w' => evolves (fun _ => dattach) w w') w.
Proof.
  intros Hw Hq Hp. assert (Hsame : evolves (fun _ => dattach) w w) by (apply evolves_refl; [by left|done]).
  unfold aos_input_rebind_commit. wp_step. eapply wp_mono; [by apply wp_input_validate|]. intros st w' [-> Hst].
  destruct (Z.eqb_spec st AOS_INPUT_OK) as [->|]; cbn [negb]; [|by wp_step]. destruct (Hst eq_refl) as [Hc Ha].
  destruct (Z.eqb_spec p NULL) as [|Hnn]; [by wp_step|]. destruct Hp as [|(r & Hr & Hrok)]; [done|].
  unfold load_region. wlift (exact Hr). wp_step; [by wp_step|]. unfold get_service. do 4 wp_step.
  destruct (existsb _ _) eqn:Hnew; [by wp_step|].
  destruct (queues_fresh (rg_devices r)) eqn:Hfr; cbn [negb]; [|by wp_step].
  destruct (commit_ok w (rb_client q) p (rb_generation q) r) as (cl & ge & Hcl & Hge & Hev); [done..|].
  wlift (exact Hcl). wlift (exact Hge). unfold put_service. repeat wp_step. exact Hev.
Qed.

(** ** Runs

    The service runs beside its frontend and its guests, which write what
    they want to the pages they share with it. *)

Inductive action :=
  | Pump
  | Retire (badge : Z) (q : input_rebind_req) (len : Z)
  | Commit (badge : Z) (q : input_rebind_req) (len fresh : Z)
  | Frontend (f : input_frontend)
  | Guest (c : Z) (r : input_region)
  | Receive (c d : Z) (e : option input_event)
  | Map (p : Z) (r : input_region)
  | Unmap (p : Z).

(** The page of client [c]. *)
Definition page (w : input_world) (c : Z) : Z := is_clients (iw_service w) !!! Z.to_nat c.

Definition unattached (w : input_world) (p : Z) : Prop :=
  forall c, is_client c -> attached (iw_service w) c = true -> page w c <> p.

Definition set_regions (m : gmap Z input_region) (w : input_world) : input_world :=
  mk_iworld (iw_service w) (iw_frontends w) m.

Inductive step : input_world -> action -> input_world -> Prop :=
  | step_pump w r w' : aos_input_pump w = Some (r, w') -> step w Pump w'
  | step_retire w badge q len r w' :
      0 <= rb_client q -> aos_input_rebind_retire badge q len w = Some (r, w') -> step w (Retire badge q len) w'
  | step_commit w badge q len p r w' :
      0 <= rb_client q -> p = NULL \/ (exists r, iw_regions w !! p = Some r /\ region_ok r) ->
      aos_input_rebind_commit badge q len p w = Some (r, w') -> step w (Commit badge q len p) w'
  | step_frontend w f :
      frontend_ok f ->
      step w (Frontend f)
        (mk_iworld (iw_service w) (<[is_frontend (iw_service w) := f]> (iw_frontends w)) (iw_regions w))
  | step_guest w c r :
      is_client c -> attached (iw_service w) c = true -> region_ok r ->
      step w (Guest c r) (set_regions (<[page w c := r]> (iw_regions w)) w)
  | step_receive w c d e r q :
      is_client c -> is_device d -> attached (iw_service w) c = true ->
      iw_regions w !! page w c = Some r ->
      aos_input_event_receive (rg_devices r !!! Z.to_nat d) = Some (e, q) ->
      step w (Receive c d e)
        (set_regions (<[page w c := mk_region (<[Z.to_nat d := q]> (rg_devices r)) (rg_detach r)]> (iw_regions w)) w)
  | step_map w p r : unattached w p -> step w (Map p r) (set_regions (<[p := r]> (iw_regions w)) w)
  | step_unmap w p : unattached w p -> step w (Unmap p) (set_regions (delete p (iw_regions w)) w).

(** What an action does to the view of one device. *)
Definition dstep (w : input_world) (a : action) (c d : Z) (D D' : dstate) : Prop :=
  match a with
  | Pump => dpump (frontend_sane w) d D D'
  | Retire _ _ _ => ddetach D D'
  | Commit _ _ _ _ => dattach D D'
  | Guest c' _ =>
      D' = D \/ (c' = c /\ exists q, D' = mk_dstate (ds_attached D) (ds_releasing D) (ds_held D) q)
  | Receive c' d' e =>
      if (c' =? c) && (d' =? d) then
        ds_attached D = true /\ exists q, aos_input_event_receive (ds_queue D) = Some (e, q) /\
          D' = mk_dstate true (ds_releasing D) (ds_held D) q
      else D' = D
  | Frontend _ | Map _ _ | Unmap _ => D' = D
  end.

Lemma event_receive_ok q :
  queue_ok q -> exists e q', aos_input_event_receive q = Some (e, q') /\ queue_ok q'.
Proof.
  intros Hq. unfold aos_input_event_receive. case_match; [by eexists _, _|].
  unfold AOS_INPUT_EVENT_CAPACITY. pose proof (Z.mod_pos_bound (iq_head q) 256).
  destruct (aget_lt (iq_events q) (iq_head q mod 256)) as [e He]; [rewrite (qo_events q Hq); lia|].
  rewrite He. eexists _, _. split; [done|]. destruct Hq. split; cbn; [apply u32_range|done..].
Qed.

(** Pages that are not attached may come and go. *)
Lemma regions_ok w m :
  input_ok w -> (forall c, is_client c -> attached (iw_service w) c = true -> m !! page w c = iw_regions w !! page w c) ->
  input_ok (set_regions m w) /\ forall c d, is_client c -> dview (set_regions m w) c d = dview w c d.
Proof.
  intros Hw Hm. split.
  - destruct Hw as [? ? ? Hr]. split; cbn; [done..|]. intros c Hc Ha. specialize (Hm c Hc Ha). unfold page in Hm.
    rewrite Hm. by apply Hr.
  - intros c d Hc. unfold dview, device_queue. cbn. destruct (attached _ c) eqn:Ha; [|done].
    specialize (Hm c Hc Ha). unfold page in Hm. by rewrite Hm.
Qed.

Lemma step_guest_ok w c r :
  input_ok w -> is_client c -> attached (iw_service w) c = true -> region_ok r ->
  let w' := set_regions (<[page w c := r]> (iw_regions w)) w in
  input_ok w' /\
  (forall d, dview w' c d =
     mk_dstate true (ds_releasing (dview w c d)) (ds_held (dview w c d)) (rg_devices r !!! Z.to_nat d)) /\
  (forall c' d, is_client c' -> c' <> c -> dview w' c' d = dview w c' d).
Proof.
  intros Hw Hc Ha Hr. destruct (io_regions w Hw c Hc Ha) as (r0 & Hr0 & _). by apply (store_region_ok w c r0 r).
Qed.

Lemma receive_other w c d r q :
  input_ok w -> is_client c -> attached (iw_service w) c = true -> iw_regions w !! page w c = Some r ->
  region_ok r -> is_device d ->
  forall d', is_device d' ->
    <[Z.to_nat d := q]> (rg_devices r) !!! Z.to_nat d' = if d =? d' then q else ds_queue (dview w c d').
Proof.
  intros Hw Hc Ha Hr [Hl _] Hd d' Hd'. rewrite (device_queue_region w c d' r) by done.
  destruct (list_two _ Hl) as (q0 & q1 & ->). clients; done.
Qed.

Lemma input_step_ok w a w' :
  input_ok w -> step w a w' ->
  input_ok w' /\ forall c d, is_client c -> is_device d -> dstep w a c d (dview w c d) (dview w' c d).
Proof.
  intros Hw Hstep. destruct Hstep as
    [w r w' Hrun|w badge q len r w' Hq Hrun|w badge q len p r w' Hq Hp Hrun|w f Hf|w c r Hc Ha Hr|w c d e r q Hc Hd Ha Hr He|w p r Hu|w p Hu].
  - destruct (wp_result _ _ _ _ _ (wp_input_pump w Hw) Hrun) as (? & _ & ?). by split.
  - destruct (wp_result _ _ _ _ _ (wp_rebind_retire w badge q len Hw Hq) Hrun) as (? & _ & _ & ?). by split.
  - destruct (wp_result _ _ _ _ _ (wp_rebind_commit w badge q len p Hw Hq Hp) Hrun) as (? & _ & _ & ?). by split.
  - split; [by apply store_frontend_ok|]. done.
  - destruct (step_guest_ok w c r Hw Hc Ha Hr) as (Hok & Hat & Hoth). split; [done|]. intros c' d' Hc' Hd'. cbn [dstep].
    destruct (decide (c' = c)) as [->|Hne]; [right; split; [done|]; rewrite attached_view, Ha; eauto|left; by apply Hoth].
  - pose proof (io_regions w Hw c Hc Ha) as (r' & Hr' & Hrok). unfold page in Hr. simplify_eq.
    destruct (event_receive_ok _ (region_queue_ok r d Hrok Hd)) as (e' & q' & He' & Hqo). simplify_eq.
    destruct (step_guest_ok w c _ Hw Hc Ha (region_insert_ok r (Z.to_nat d) q Hrok Hqo)) as (Hok & Hat & Hoth).
    split; [done|]. intros c' d' Hc' Hd'. cbn [dstep]. destruct (Z.eqb_spec c c') as [<-|Hne]; cbn [andb]; [|by apply Hoth].
    rewrite Hat. cbn [rg_devices]. rewrite (receive_other w c d r q) by done. destruct (Z.eqb_spec d d') as [<-|Hne].
    + rewrite attached_view. split; [done|]. exists q. by rewrite (device_queue_region w c d r).
    + unfold dview. by rewrite Ha.
  - destruct (regions_ok w (<[p := r]> (iw_regions w)) Hw) as [Hok Hv]; [|by split; [|intros; cbn [dstep]; apply Hv]].
    intros c Hc Ha. by rewrite lookup_insert_ne by (symmetry; by apply Hu).
  - destruct (regions_ok w (delete p (iw_regions w)) Hw) as [Hok Hv]; [|by split; [|intros; cbn [dstep]; apply Hv]].
    intros c Hc Ha. by rewrite lookup_delete_ne by (symmetry; by apply Hu).
Qed.

(** ** Releases come to an end *)

(** No key of the device is held and no release is under way. *)
Definition released (D : dstate) : Prop := ds_releasing D = false /\ ds_held D = ∅.

(** A pump whose frontend is sane and that finds the device's queue drained. *)
Definition releases (w : input_world) (a : action) (c d : Z) : bool :=
  match a with
  | Pump => frontend_sane w && (occupied (ds_queue (dview w c d)) =? 0)
  | _ => false
  end.

(** A run from [w] to [w'] with [n] such pumps. *)
Inductive runs (c d : Z) : nat -> input_world -> input_world -> Prop :=
  | runs_refl w : runs c d 0 w w
  | runs_step n w a w1 w2 :
      step w a w1 -> runs c d n w1 w2 -> runs c d ((if releases w a c d then 1 else 0) + n) w w2.

Lemma dreq_gone d D : rtc (dreq d) ds_gone D -> D = ds_gone.
Proof. intros H. remember ds_gone as G eqn:HG. induction H as [|x y z Hxy _ _]; [done|]. subst. inversion Hxy. Qed.

Lemma dreq_releasing d h q D : rtc (dreq d) (mk_dstate true true h q) D -> D = mk_dstate true true h q.
Proof.
  intros H. remember (mk_dstate true true h q) as G eqn:HG. induction H as [|x y z Hxy _ IH]; [done|].
  subst. inversion Hxy; subst. by apply IH.
Qed.

Lemma drelease_gone D : drelease ds_gone D -> D = ds_gone.
Proof. by inversion 1. Qed.

Lemma size_release (h : gset Z) ks :
  NoDup ks -> list_to_set ks ⊆ h -> size (h ∖ list_to_set ks) = (size h - length ks)%nat.
Proof. intros Hnd Hsub. rewrite size_difference by done. by rewrite size_list_to_set. Qed.

(** A release round on a drained queue either ends the release or takes 63
    keys off it. *)
Lemma drelease_progress h q D :
  drelease (mk_dstate true true h q) D ->
  released D \/
  (ds_attached D = true /\ ds_releasing D = true /\
   (size (ds_held D) + (if Z.eqb (occupied q) 0 then 63 else 0) <= size h)%nat).
Proof.
  inversion 1 as [|h' q' Hbad|h' q' ks Hocc Hnd Hsub Hlen]; subst; [done| |].
  - right. cbn. split_and!; [done..|]. destruct (Z.eqb_spec (occupied q) 0); lia.
  - pose proof (size_release h ks Hnd Hsub) as Hsz. unfold released. cbn [ds_releasing ds_held ds_attached].
    case_bool_decide as Hlt.
    + right. split_and!; [done..|]. rewrite Hsz. unfold round_limit in Hlen. destruct (Z.eqb_spec (occupied q) 0); lia.
    + left. split; [done|]. apply leibniz_equiv, size_empty_iff. lia.
Qed.

Lemma dpump_progress sane d h q D :
  dpump sane d (mk_dstate true true h q) D ->
  released D \/
  (ds_attached D = true /\ ds_releasing D = true /\
   (size (ds_held D) + (if sane && Z.eqb (occupied q) 0 then 63 else 0) <= size h)%nat).
Proof.
  intros (D1 & [-> | [_ ->]] & Hrest).
  - destruct sane; cbn [andb].
    + destruct Hrest as (D2 & ->%dreq_releasing & Hr). by apply drelease_progress.
    + subst. right. cbn. split_and!; [done..|lia].
  - left. destruct sane; [destruct Hrest as (D2 & ->%dreq_gone & ->%drelease_gone)|subst]; done.
Qed.

Lemma releasing_view w c d :
  ds_releasing (dview w c d) = true ->
  dview w c d = mk_dstate true true (ds_held (dview w c d)) (ds_queue (dview w c d)).
Proof. unfold dview. destruct (attached _ c); [|done]. by destruct (releasing _ c d). Qed.

Lemma step_progress w a w' c d :
  input_ok w -> is_client c -> is_device d -> step w a w' -> ds_releasing (dview w c d) = true ->
  released (dview w' c d) \/
  (ds_releasing (dview w' c d) = true /\
   (size (ds_held (dview w' c d)) + (if releases w a c d then 63 else 0) <= size (ds_held (dview w c d)))%nat).
Proof.
  intros Hw Hc Hd Hstep Hrel. destruct (input_step_ok w a w' Hw Hstep) as [_ Hv]. specialize (Hv c d Hc Hd).
  rewrite (releasing_view w c d Hrel) in Hv. set (h := ds_held (dview w c d)) in *. set (q := ds_queue (dview w c d)) in *.
  destruct a; cbn [dstep releases] in Hv |- *.
  - apply dpump_progress in Hv as [?|(_ & ? & ?)]; auto.
  - destruct Hv as [-> | [_ ->]]; [right|left]; [|done]. cbn. split; [done|lia].
  - destruct Hv as [-> | [? _]]; [right|done]. cbn. split; [done|lia].
  - rewrite Hv. right. cbn. split; [done|lia].
  - right. destruct Hv as [-> | (_ & q' & ->)]; cbn; (split; [done|lia]).
  - right. destruct (_ && _); [destruct Hv as (_ & q' & _ & ->)|rewrite Hv]; cbn; (split; [done|lia]).
  - rewrite Hv. right. cbn. split; [done|lia].
  - rewrite Hv. right. cbn. split; [done|lia].
Qed.

Lemma runs_progress c d n w w2 :
  is_client c -> is_device d -> runs c d n w w2 -> forall k,
  input_ok w -> ds_releasing (dview w c d) = true ->
  (size (ds_held (dview w c d)) < 63 * S k)%nat -> (S k <= n)%nat ->
  exists n1 n2 w1, runs c d n1 w w1 /\ runs c d n2 w1 w2 /\ (n1 <= S k)%nat /\ released (dview w1 c d).
Proof.
  intros Hc Hd Hrun. induction Hrun as [w|n w a w1 w2 Hstep Hrun IH]; intros k Hw Hrel Hsz Hn; [lia|].
  destruct (input_step_ok w a w1 Hw Hstep) as [Hw1 _].
  destruct (step_progress w a w1 c d Hw Hc Hd Hstep Hrel) as [Hdone|[Hrel1 Hsz1]].
  { exists ((if releases w a c d then 1 else 0) + 0)%nat, n, w1. split_and!; [|done| |done].
    - eapply runs_step; [done|constructor].
    - destruct (releases w a c d); lia. }
  destruct (releases w a c d) eqn:Hg.
  - destruct k as [|k]; [lia|]. destruct (IH k) as (n1 & n2 & w' & H1 & H2 & H3 & H4); [done|done|lia|lia|].
    exists (1 + n1)%nat, n2, w'. split_and!; [|done|lia|done].
    pose proof (runs_step c d n1 w a w1 w' Hstep H1) as Hr. by rewrite Hg in Hr.
  - destruct (IH k) as (n1 & n2 & w' & H1 & H2 & H3 & H4); [done|done|lia|lia|].
    exists n1, n2, w'. split_and!; [|done|lia|done].
    pose proof (runs_step c d n1 w a w1 w' Hstep H1) as Hr. by rewrite Hg in Hr.
Qed.

Lemma size_held_bound w c d : (size (ds_held (dview w c d)) <= 256)%nat.
Proof.
  unfold dview. destruct (attached _ c); [|cbn; rewrite size_empty; lia]. cbn. rewrite size_held_codes. unfold held_list.
  rewrite length_fmap. pose proof (length_filter (fun v => wmem (held_words (iw_service w) c d) v = true) (seqZ 0 256)).
  rewrite length_seqZ in H. lia.
Qed.

(** ** Starting states *)

(** Well-formed, with nothing held or queued for the clients attached. *)
Definition initial (w : input_world) : Prop :=
  input_ok w /\ forall c d, is_client c -> is_device d -> attached (iw_service w) c = true ->
    exists q, dview w c d = mk_dstate true false ∅ q /\ occupied q = 0.

(** Reached from a starting state. *)
Definition input_reachable (w : input_world) : Prop :=
  exists w0, initial w0 /\ rtc (fun x y => exists a, step x a y) w0 w.

Lemma reachable_ok w : input_reachable w -> input_ok w.
Proof. intros (w0 & [Hw0 _] & Hrun). induction Hrun as [|x y z (a & Hxy) _ IH]; [done|]. by apply IH, (input_step_ok x a y). Qed.

(** [aos_input_service_init] on clear pages gives a starting state. *)
Lemma service_init_initial f clients mask s frontends regions fe :
  aos_input_service_init f clients mask = Some s -> length clients = 2%nat -> is_u32 mask ->
  frontends !! f = Some fe -> frontend_ok fe ->
  (has_bit mask 0 = true -> has_bit mask 1 = true -> clients !!! 0%nat <> clients !!! 1%nat) ->
  (forall c, is_client c -> has_bit mask c = true ->
     exists r, regions !! (clients !!! Z.to_nat c) = Some r /\ region_ok r /\ queues_fresh (rg_devices r) = true) ->
  initial (mk_iworld s frontends regions).
Proof.
  intros Hinit Hlen Hm Hfe Hfo Hdis Hreg. unfold aos_input_service_init in Hinit.
  destruct (Z.eqb_spec f NULL) as [|Hnn]; [done|]. destruct (negb (Z.land _ _ =? 0)); [done|]. cbn [orb] in Hinit.
  destruct (all_clients_mapped clients mask) eqn:Hall; [|done]. injection Hinit as <-.
  destruct (list_two _ Hlen) as (p0 & p1 & ->). cbn in Hall. rewrite !andb_true_iff, !orb_true_iff, !negb_true_iff in Hall.
  destruct Hall as (H0 & H1 & _).
  assert (Hok : input_ok (mk_iworld (mk_iservice f [p0; p1] mask (replicate 2 (replicate 2 (replicate 8 0))) [0; 0] 0 [0; 0])
                   frontends regions)).
  { split; cbn; [|eauto|done|].
    - split; cbn; try done; [split; [done|foralls]|foralls| | |].
      + intros c Hc Ha. unfold attached in Ha. cbn in Ha.
        clients; cbn; [destruct H0 as [H0|H0]|destruct H1 as [H1|H1]]; try congruence; by apply Z.eqb_neq.
      + intros c d Hc Hd. unfold releasing. clients; cbn; by rewrite has_bit_0.
      + intros c d v Hc Hd _. clients; apply (wmem_empty 8).
    - intros c Hc Ha. destruct (Hreg c Hc Ha) as (r & ? & ? & _). eauto. }
  split; [done|]. intros c d Hc Hd Ha. destruct (Hreg c Hc Ha) as (r & Hr & Hrok & Hfr).
  destruct (queues_fresh_queue r d Hrok Hd Hfr) as [Hh Ht].
  exists (rg_devices r !!! Z.to_nat d). split; [|unfold occupied; by rewrite Hh, Ht].
  unfold dview. rewrite Ha. unfold device_queue. cbn [iw_regions iw_service is_clients]. rewrite Hr. f_equal.
  - unfold releasing. clients; cbn; by rewrite has_bit_0.
  - apply held_codes_none. intros v. clients; apply (wmem_empty 8).
Qed.

(** ** What a guest sees *)

Lemma keys_app es es' h : keys (es ++ es') h = keys es' (keys es h).
Proof. apply foldl_app. Qed.

Lemma keys_releases ks h : keys ((fun k => mk_event 1 k 0) <$> ks) h = h ∖ list_to_set ks.
Proof.
  revert h. induction ks as [|k ks IH]; intros h; [set_solver|]. cbn [fmap list_fmap keys foldl].
  change (foldl _ ?x ?l) with (keys l x). rewrite IH. unfold key_event. cbn. set_solver.
Qed.

Lemma keys_release_events ks h : keys (release_events ks) h = h ∖ list_to_set ks.
Proof.
  destruct ks as [|k ks]; [set_solver|]. unfold release_events. rewrite keys_app, keys_releases. done.
Qed.

Lemma length_release_events ks : length (release_events ks) = match ks with [] => 0%nat | _ => S (length ks) end.
Proof. destruct ks; [done|]. unfold release_events. rewrite length_app, length_fmap. cbn. lia. Qed.

Lemma event_receive_pending q e q' :
  queue_ok q -> occupied q <= 256 -> aos_input_event_receive q = Some (e, q') ->
  pending q = option_list e ++ pending q' /\ occupied q' <= 256.
Proof.
  intros Hq Hocc. unfold aos_input_event_receive, AOS_INPUT_EVENT_CAPACITY. rewrite occupied_u32.
  rewrite (proj2 (Z.ltb_ge 256 (occupied q))) by done. rewrite orb_false_r.
  destruct (Z.eqb_spec (iq_head q) (iq_tail q)) as [He|Hne]; [intros; by simplify_eq|].
  assert (0 < occupied q) as Hpos.
  { unfold occupied, ring_len. pose proof (Z.mod_pos_bound (iq_tail q - iq_head q) (2 ^ 32)).
    destruct Hq as [Hh Ht _]. unfold is_u32 in *.
    destruct (decide ((iq_tail q - iq_head q) mod 2 ^ 32 = 0)) as [Hz|]; [|lia].
    apply Z.mod_divide in Hz as [z Hz]; [|lia]. lia. }
  pose proof (ring_slot_bound _ _ event_ring (iq_head q)).
  rewrite aget_total by (rewrite (qo_events q Hq); lia). intros [= <- <-].
  unfold pending, occupied in *. cbn. rewrite (ring_contents_cons _ _ event_ring) by done. unfold u32. split.
  - by rewrite (ring_contents_mod_head _ _ event_ring).
  - unfold ring_len in *. rewrite Zminus_mod_idemp_r. change (ring_len (2 ^ 32) (iq_head q + 1) (iq_tail q) <= 256).
    rewrite (ring_len_shrink _ _ event_ring); unfold ring_len; lia.
Qed.

(** What is held is what the events taken and the events pending say. *)
Definition exact (es : list input_event) (D : dstate) : Prop :=
  queue_ok (ds_queue D) /\ occupied (ds_queue D) <= 256 /\ ds_held D = keys (es ++ pending (ds_queue D)) ∅.

Lemma exact_append es r h q xs r' :
  exact es (mk_dstate true r h q) -> occupied q + Z.of_nat (length xs) <= 256 ->
  exact es (mk_dstate true r' (keys xs h) (queue_append q xs)).
Proof.
  intros (Hq & Ho & Hk) Hfit. cbn in *. destruct (pending_append q xs Hq Hfit) as [Hp Hoc].
  unfold exact. cbn. split_and!; [by apply queue_append_ok|lia|]. by rewrite Hp, app_assoc, keys_app, Hk.
Qed.

Lemma exact_request d es D D' : dreq d D D' -> exact es D -> exact es D'.
Proof. intros [r h q|h q xs _ Hfit] Hex; [done|]. by eapply exact_append. Qed.

Lemma exact_release es D D' : drelease D D' -> exact es D -> exact es D'.
Proof.
  intros [|h q|h q ks Hocc Hnd Hsub Hlen] Hex; [done|done|]. rewrite <- keys_release_events.
  eapply exact_append; [done|]. rewrite length_release_events. unfold round_limit in Hlen. destruct ks; cbn in *; lia.
Qed.

Lemma exact_pump sane d es D D' :
  dpump sane d D D' -> exact es D -> ds_attached D' = true -> exact es D'.
Proof.
  intros (D1 & [-> | [_ ->]] & Hrest) Hex Ha.
  - destruct sane; [|by subst]. destruct Hrest as (D2 & Hreq & Hrel). eapply exact_release; [done|].
    clear Hrel. induction Hreq as [|x y z Hxy _ IH]; [done|]. by apply IH, (exact_request d es x y).
  - exfalso. destruct sane; [destruct Hrest as (D2 & ->%dreq_gone & ->%drelease_gone)|subst]; done.
Qed.

(** The events that the guest of client [c] has taken from device [d] since
    its page was attached. The guest only receives; all others may do what
    they want. *)
Definition history (w : input_world) (a : action) (w' : input_world) (c d : Z) (es : list input_event)
  : list input_event :=
  if negb (attached (iw_service w) c) && attached (iw_service w') c then []
  else match a with
  | Receive c' d' e => if (c' =? c) && (d' =? d) then es ++ option_list e else es
  | _ => es
  end.

Inductive observed (c d : Z) : input_world -> list input_event -> Prop :=
  | obs_init w : initial w -> observed c d w []
  | obs_step w es a w' :
      observed c d w es -> step w a w' -> (forall r, a <> Guest c r) -> observed c d w' (history w a w' c d es).

Lemma pending_empty q : occupied q = 0 -> pending q = [].
Proof. apply ring_contents_nil. Qed.

Lemma view_queue_ok w c d :
  input_ok w -> is_client c -> is_device d -> attached (iw_service w) c = true -> queue_ok (ds_queue (dview w c d)).
Proof.
  intros Hw Hc Hd Ha. destruct (io_regions w Hw c Hc Ha) as (r & Hr & Hrok).
  rewrite (device_queue_region w c d r Ha Hr). by apply region_queue_ok.
Qed.

Lemma exact_fresh w c d q :
  input_ok w -> is_client c -> is_device d -> attached (iw_service w) c = true ->
  dview w c d = mk_dstate true false ∅ q -> occupied q = 0 -> exact [] (dview w c d).
Proof.
  intros Hw Hc Hd Ha Hv Ho. pose proof (view_queue_ok w c d Hw Hc Hd Ha) as Hq. rewrite Hv in *. cbn in Hq.
  unfold exact. cbn. split_and!; [done|lia|]. by rewrite pending_empty.
Qed.

(** Across a step that neither attaches the client nor is a write of its
    guest. *)
Lemma exact_step w a c d es D D' :
  dstep w a c d D D' -> (forall r, a <> Guest c r) -> ds_attached D = true -> ds_attached D' = true ->
  exact es D ->
  exact (match a with Receive c' d' e => if (c' =? c) && (d' =? d) then es ++ option_list e else es | _ => es end) D'.
Proof.
  intros Hs Hg Ha Ha' Hex. destruct a as [| | | |c' r|c' d' e| |]; cbn [dstep] in Hs; try (by subst).
  - by eapply exact_pump.
  - by destruct Hs as [-> | [_ ->]].
  - by destruct Hs as [-> | [-> _]].
  - destruct Hs as [-> | [-> _]]; [done|]. by destruct (Hg r).
  - destruct (_ && _); [|by subst]. destruct Hs as (_ & q & He & ->). destruct Hex as (Hq & Ho & Hk).
    destruct (event_receive_pending _ _ _ Hq Ho He) as [Hp Ho'].
    destruct (event_receive_ok _ Hq) as (e' & q' & He' & Hq'). simplify_eq.
    unfold exact. cbn. split_and!; [done..|]. by rewrite <- app_assoc, <- Hp.
Qed.

Lemma observed_ok c d w es : observed c d w es -> input_ok w.
Proof. induction 1 as [w [Hw _]|w es a w' _ IH Hs _]; [done|]. by apply (input_step_ok w a w'). Qed.

Lemma observed_exact c d w es :
  is_client c -> is_device d -> observed c d w es -> attached (iw_service w) c = true -> exact es (dview w c d).
Proof.
  intros Hc Hd Hobs. induction Hobs as [w [Hw Hi]|w es a w' Hobs IH Hs Hg]; intros Ha'.
  { destruct (Hi c d Hc Hd Ha') as (q & Hv & Ho). by eapply exact_fresh. }
  pose proof (observed_ok _ _ _ _ Hobs) as Hw. destruct (input_step_ok w a w' Hw Hs) as [Hw' Hv]. specialize (Hv c d Hc Hd).
  unfold history. rewrite Ha', andb_true_r. destruct (attached (iw_service w) c) eqn:Ha; cbn [negb].
  - eapply exact_step; [done|done|by rewrite attached_view..|by apply IH].
  - assert (Hgone : dview w c d = ds_gone) by (unfold dview; by rewrite Ha). rewrite Hgone in Hv.
    assert (Hat : dattach ds_gone (dview w' c d)).
    { assert (Hne : dview w' c d <> ds_gone) by (unfold dview; by rewrite Ha').
      destruct a; cbn [dstep] in Hv; try done.
      - destruct Hv as (D1 & [-> | [? _]] & Hrest); [|done].
        left. destruct (frontend_sane w); [|done]. by destruct Hrest as (D2 & ->%dreq_gone & ?%drelease_gone).
      - by destruct Hv as [? | [? _]].
      - destruct Hv as [? | (_ & q & Hq)]; [done|]. pose proof (attached_view w' c d) as Hc'. rewrite Hq, Ha' in Hc'. done.
      - destruct (_ && _); [by destruct Hv|done]. }
    destruct Hat as [Heq | (_ & q & Hh & Ht & Heq)]; [by rewrite <- attached_view with (d := d), Heq in Ha'|].
    eapply exact_fresh; [done..|]. unfold occupied, ring_len. by rewrite Hh, Ht.
Qed.

(** ** Theorems *)

(** The service keeps its invariant in every state that it reaches beside
    an arbitrary frontend and arbitrary guests, and neither the pump nor a
    rebind call can fault there: no shared page that is not attached is
    touched and no array is indexed out of range. *)
Theorem input_service_safe w :
  input_reachable w ->
  input_ok w /\
  is_Some (aos_input_pump w) /\
  (forall badge q len, 0 <= rb_client q -> is_Some (aos_input_rebind_retire badge q len w)) /\
  (forall badge q len p, 0 <= rb_client q ->
     p = NULL \/ (exists r, iw_regions w !! p = Some r /\ region_ok r) ->
     is_Some (aos_input_rebind_commit badge q len p w)).
Proof.
  intros Hr. pose proof (reachable_ok w Hr) as Hw. split_and!; [done| | |].
  - destruct (wp_run _ _ _ (wp_input_pump w Hw)) as (a & w' & -> & _). done.
  - intros badge q len Hq. destruct (wp_run _ _ _ (wp_rebind_retire w badge q len Hw Hq)) as (a & w' & -> & _). done.
  - intros badge q len p Hq Hp.
    destruct (wp_run _ _ _ (wp_rebind_commit w badge q len p Hw Hq Hp)) as (a & w' & -> & _). done.
Qed.

(** C15. Releases finish. From a state in which a release of a device is under
    way, a run with five pumps that find the frontend's indices in range and
    the device's queue drained passes, by the fifth of them, through a state
    in which no key of the device is held and no release is under way,
    whatever else the frontend, the guests and the rebind calls do between
    the pumps. *)
Theorem input_release_drains c d n w w2 :
  input_ok w -> is_client c -> is_device d -> ds_releasing (dview w c d) = true ->
  runs c d n w w2 -> (5 <= n)%nat ->
  exists n1 n2 w1, runs c d n1 w w1 /\ runs c d n2 w1 w2 /\ (n1 <= 5)%nat /\ released (dview w1 c d).
Proof.
  intros Hw Hc Hd Hrel Hrun Hn. apply (runs_progress c d n w w2 Hc Hd Hrun 4); [done|done| |done].
  pose proof (size_held_bound w c d). lia.
Qed.

(** C7. The keys that the service holds for a device are the keys that its
    guest sees as down from the events taken since the page was attached and
    the events still queued. So after a release, a guest that has drained
    its queue sees no key down. *)
Theorem input_view_exact c d w es :
  is_client c -> is_device d -> observed c d w es -> attached (iw_service w) c = true ->
  ds_held (dview w c d) = keys (es ++ pending (ds_queue (dview w c d))) ∅ /\
  (released (dview w c d) -> occupied (ds_queue (dview w c d)) = 0 -> keys es ∅ = ∅).
Proof.
  intros Hc Hd Hobs Ha. destruct (observed_exact c d w es Hc Hd Hobs Ha) as (_ & _ & Hk). split; [done|].
  intros [_ He] Ho. by rewrite pending_empty, app_nil_r, He in Hk.
Qed.

(** ** An instance *)

(** A frontend with a batch queued that presses key 30. *)
Definition example_request : input_request :=
  mk_request 1 7 0 0 2 [0; 0; 0] (mk_event 1 30 1 :: mk_event 0 0 0 :: replicate 62 (mk_event 0 0 0)).
Definition example_frontend : input_frontend :=
  mk_frontend 0 1 0 0 (replicate 16 example_request) (replicate 16 (mk_response 0 0 0 0)).
Definition example_queue : input_queue := mk_iqueue 0 0 (replicate 256 (mk_event 0 0 0)).
Definition example_region : input_region := mk_region [example_queue; example_queue] (mk_detach 0 0 0).

Definition example_world (held releasing : Z) : input_world :=
  mk_iworld
    (mk_iservice 8192 [4096; NULL] 1
       [[held :: replicate 7 0; replicate 8 0]; replicate 2 (replicate 8 0)] [releasing; 0] 0 [0; 0])
    {[8192 := example_frontend]} {[4096 := example_region]}.

Lemma example_request_ok : request_ok example_request.
Proof. split; try done; cbn; foralls. Qed.

Lemma example_frontend_ok : frontend_ok example_frontend.
Proof. split; try done. apply Forall_replicate, example_request_ok. Qed.

Lemma example_region_ok : region_ok example_region.
Proof. split; [done|]. apply Forall_cons_2; [done|]. by apply Forall_cons_2. Qed.

Lemma example_ok held : is_u32 held -> input_ok (example_world held 1).
Proof.
  intros Hh. split; cbn.
  - split; cbn; try done; [split; [done|foralls]| | | |].
    + foralls.
    + intros c Hc Ha. by clients.
    + intros c d Hc Hd. by clients.
    + intros c d v Hc Hd. clients; try done; intros _; apply (wmem_empty 8).
  - exists example_frontend. split; [done|apply example_frontend_ok].
  - done.
  - intros c Hc Ha. clients; [|done]. exists example_region. split; [done|apply example_region_ok].
Qed.

(** The state after a pump, and after its guest has emptied its queues. *)
Definition pumped (w : input_world) : input_world := from_option snd w (aos_input_pump w).
Definition drained (w : input_world) : input_world :=
  set_regions (<[page w 0 := example_region]> (iw_regions w)) w.

Lemma runs_drained n w w2 :
  aos_input_pump w <> None -> releases w Pump 0 0 = true -> attached (iw_service (pumped w)) 0 = true ->
  runs 0 0 n (drained (pumped w)) w2 -> runs 0 0 (S n) w w2.
Proof.
  intros [[r w'] Hp]%not_eq_None_Some Hr Ha Hrun. change (S n) with (1 + n)%nat. rewrite <- (f_equal (fun b : bool => if b then 1%nat else 0%nat) Hr).
  eapply runs_step; [apply (step_pump w r w' Hp)|]. unfold pumped in *. rewrite Hp in *. cbn in *.
  apply (runs_step 0 0 n w' (Guest 0 example_region) (drained w')); [|done].
  apply step_guest; [by left|done|apply example_region_ok].
Qed.

Lemma input_release_drains_witness :
  let w := example_world (2 ^ 30) 1 in
  let w5 := Nat.iter 5 (fun w => drained (pumped w)) w in
  exists n1 n2 w1, runs 0 0 n1 w w1 /\ runs 0 0 n2 w1 w5 /\ (n1 <= 5)%nat /\ released (dview w1 0 0).
Proof.
  intros w w5. apply (input_release_drains 0 0 5 w w5).
  - by apply example_ok.
  - by left.
  - by left.
  - by vm_compute.
  - do 5 (apply runs_drained; [by vm_compute|by vm_compute|by vm_compute|]). apply runs_refl.
  - lia.
Defined.

Lemma example_initial : initial (example_world 0 0).
Proof.
  apply (service_init_initial 8192 [4096; NULL] 1 _ _ _ example_frontend); try done; [apply example_frontend_ok|].
  intros c Hc Ha. clients; [|done]. exists example_region. split; [done|]. split; [apply example_region_ok|done].
Qed.

Lemma step_pumped w : aos_input_pump w <> None -> step w Pump (pumped w).
Proof. intros [[r w'] Hp]%not_eq_None_Some. unfold pumped. rewrite Hp. by eapply step_pump. Qed.

(** After the pump the guest holds key 30 down. *)
Definition example_after : input_world := pumped (example_world 0 0).

Lemma example_reachable : input_reachable example_after.
Proof.
  exists (example_world 0 0). split; [apply example_initial|]. apply rtc_once. exists Pump. apply step_pumped. by vm_compute.
Qed.

Lemma input_service_safe_witness : input_ok example_after /\ is_Some (aos_input_pump example_after).
Proof. destruct (input_service_safe example_after example_reachable) as (H1 & H2 & _). by split. Defined.

Lemma input_view_exact_witness :
  ds_held (dview example_after 0 0) = keys ([] ++ pending (ds_queue (dview example_after 0 0))) ∅ /\
  keys (pending (ds_queue (dview example_after 0 0))) ∅ = {[30]}.
Proof.
  split.
  - apply (input_view_exact 0 0 example_after []).
    + by left.
    + by left.
    + change [] with (history (example_world 0 0) Pump example_after 0 0 []).
      apply obs_step; [apply obs_init, example_initial|apply step_pumped; by vm_compute|done].
    + by vm_compute.
  - replace (pending (ds_queue (dview example_after 0 0))) with [mk_event 1 30 1; mk_event 0 0 0]
      by (by vm_compute). cbn. set_solver.
Defined.
