(* ===== verification/X86Apic.v ===== *)
(** * The local interrupt controller of an x86 guest

    [platform/guest-vmm/x86_apic.c] and [platform/include/platform/x86_apic.h]:
    the private local APIC of one virtual CPU. Its timer counts ticks of the
    virtual clock, its request, in-service and trigger-mode registers are sets
    of vectors kept as arrays of eight words, and the guest drives it through
    the register page.

    [None] is an access outside an array; a call that the C code refuses with
    [false] is [Some None] or [Some (false, a)]. *)

From S2P Require Import Prelude BitSet.
From stdpp Require Import sorting options.

#[local] Open Scope Z_scope.

Definition AOS_X86_APIC_BASE : Z := 0xfee00000.
Definition AOS_X86_APIC_INVALID_VECTOR : Z := 256.

(** ** State *)

(** The registers that are words. *)
Record apic_regs := mk_regs {
  svr : Z; tpr : Z; lvt_timer : Z; initial : Z; divide : Z; lint0 : Z; lint1 : Z;
  ldr : Z; dfr : Z; icr_low : Z; icr_high : Z; lvt_thermal : Z; lvt_perf : Z; lvt_error : Z }.

Record apic := mk_apic {
  a_regs : apic_regs; now : Z; phase : Z; counter : Z;
  irr : list Z; isr : list Z; irr_level : list Z; tmr : list Z;
  invalid_vector : bool; apic_id : Z; bootstrap : bool }.

#[global] Instance apic_inhabited : Inhabited apic :=
  populate (mk_apic (mk_regs 0 0 0 0 0 0 0 0 0 0 0 0 0 0) 0 0 0 [] [] [] [] false 0 false).

(** A register as the target of a pointer. *)
Inductive areg :=
  SVR | TPR | LVT_TIMER | INITIAL | DIVIDE | LINT0 | LINT1 | LDR | ICR_HIGH | LVT_THERMAL | LVT_PERF | LVT_ERROR.

#[global] Instance areg_eq_dec : EqDecision areg.
Proof. solve_decision. Defined.

Definition get_reg (r : areg) (g : apic_regs) : Z :=
  match r with
  | SVR => svr g | TPR => tpr g | LVT_TIMER => lvt_timer g | INITIAL => initial g | DIVIDE => divide g
  | LINT0 => lint0 g | LINT1 => lint1 g | LDR => ldr g | ICR_HIGH => icr_high g
  | LVT_THERMAL => lvt_thermal g | LVT_PERF => lvt_perf g | LVT_ERROR => lvt_error g
  end.

Definition put_reg (r : areg) (v : Z) (g : apic_regs) : apic_regs :=
  let '(mk_regs sv tp lt ini div l0 l1 ld df il ih th pe er) := g in
  match r with
  | SVR => mk_regs v tp lt ini div l0 l1 ld df il ih th pe er
  | TPR => mk_regs sv v lt ini div l0 l1 ld df il ih th pe er
  | LVT_TIMER => mk_regs sv tp v ini div l0 l1 ld df il ih th pe er
  | INITIAL => mk_regs sv tp lt v div l0 l1 ld df il ih th pe er
  | DIVIDE => mk_regs sv tp lt ini v l0 l1 ld df il ih th pe er
  | LINT0 => mk_regs sv tp lt ini div v l1 ld df il ih th pe er
  | LINT1 => mk_regs sv tp lt ini div l0 v ld df il ih th pe er
  | LDR => mk_regs sv tp lt ini div l0 l1 v df il ih th pe er
  | ICR_HIGH => mk_regs sv tp lt ini div l0 l1 ld df il v th pe er
  | LVT_THERMAL => mk_regs sv tp lt ini div l0 l1 ld df il ih v pe er
  | LVT_PERF => mk_regs sv tp lt ini div l0 l1 ld df il ih th v er
  | LVT_ERROR => mk_regs sv tp lt ini div l0 l1 ld df il ih th pe v
  end.

Definition put_dfr (v : Z) (g : apic_regs) : apic_regs :=
  mk_regs (svr g) (tpr g) (lvt_timer g) (initial g) (divide g) (lint0 g) (lint1 g) (ldr g) v
    (icr_low g) (icr_high g) (lvt_thermal g) (lvt_perf g) (lvt_error g).
Definition put_icr_low (v : Z) (g : apic_regs) : apic_regs :=
  mk_regs (svr g) (tpr g) (lvt_timer g) (initial g) (divide g) (lint0 g) (lint1 g) (ldr g) (dfr g)
    v (icr_high g) (lvt_thermal g) (lvt_perf g) (lvt_error g).

Definition set_regs (g : apic_regs) (a : apic) : apic :=
  mk_apic g (now a) (phase a) (counter a) (irr a) (isr a) (irr_level a) (tmr a) (invalid_vector a) (apic_id a) (bootstrap a).
Definition set_clock (t p c : Z) (a : apic) : apic :=
  mk_apic (a_regs a) t p c (irr a) (isr a) (irr_level a) (tmr a) (invalid_vector a) (apic_id a) (bootstrap a).
Definition set_requests (i l : list Z) (a : apic) : apic :=
  mk_apic (a_regs a) (now a) (phase a) (counter a) i (isr a) l (tmr a) (invalid_vector a) (apic_id a) (bootstrap a).
Definition set_service_bits (s t : list Z) (a : apic) : apic :=
  mk_apic (a_regs a) (now a) (phase a) (counter a) (irr a) s (irr_level a) t (invalid_vector a) (apic_id a) (bootstrap a).
Definition set_invalid (b : bool) (a : apic) : apic :=
  mk_apic (a_regs a) (now a) (phase a) (counter a) (irr a) (isr a) (irr_level a) (tmr a) b (apic_id a) (bootstrap a).

(** ** Identity *)

Definition aos_x86_apic_init_cpu (ticks id : Z) (bsp : bool) : option apic :=
  if 255 <=? id then None
  else Some (mk_apic
    (mk_regs 0xff 0 0x10000 0 0 0x10000 0x10000 0 UINT32_MAX 0 0 0x10000 0x10000 0x10000)
    ticks 0 0 (replicate 8 0) (replicate 8 0) (replicate 8 0) (replicate 8 0) false (u8 id) bsp).

Definition aos_x86_apic_init (ticks : Z) : option apic := aos_x86_apic_init_cpu ticks 0 true.

(** The value after the access, or [None] for [false]. *)
Definition aos_x86_apic_msr (a : apic) (write : bool) (value : Z) : option Z :=
  let fixed := Z.lor (Z.lor AOS_X86_APIC_BASE 0x800) (if bootstrap a then 0x100 else 0) in
  if write then if value =? fixed then Some value else None else Some fixed.

(** ** The timer *)

Definition divisor (g : apic_regs) : Z :=
  let encoding := Z.lor (Z.land (divide g) 3) (Z.land (Z.shiftr (divide g) 1) 4) in
  u32 (Z.shiftl 1 (Z.land (encoding + 1) 7)).

(** The interrupt of an expiry: the request bits and the flag of an illegal
    vector. *)
Definition fire_bits (g : apic_regs) (requests : list Z) (invalid : bool) : option (list Z * bool) :=
  if flag (svr g) 0x100 && negb (flag (lvt_timer g) 0x10000) then
    let vector := Z.land (lvt_timer g) 0xff in
    if 16 <=? vector then l ← wset requests vector; Some (l, invalid) else Some (requests, true)
  else Some (requests, invalid).

Definition fire (a : apic) : option apic :=
  '(l, invalid) ← fire_bits (a_regs a) (irr a) (invalid_vector a);
  Some (set_invalid invalid (set_requests l (irr_level a) a)).

(** The counter of an expired timer. *)
Definition reload (g : apic_regs) (elapsed : Z) : Z :=
  if flag (lvt_timer g) 0x20000 && negb (initial g =? 0)
  then u32 (initial g - u32 (elapsed mod initial g)) else 0.

(** The counter after [elapsed] periods. *)
Definition count_down (elapsed : Z) (a : apic) : option apic :=
  if counter a =? 0 then Some a
  else if elapsed <? counter a then Some (set_clock (now a) (phase a) (u32 (counter a - u32 elapsed)) a)
  else fire (set_clock (now a) (phase a) (reload (a_regs a) (elapsed - counter a)) a).

Definition advance (a : apic) (ticks : Z) : option apic :=
  let delta := u64 (ticks - now a) in
  let div := divisor (a_regs a) in
  let fraction := u64 (delta mod div + phase a) in
  let elapsed := u64 (delta / div + fraction / div) in
  count_down elapsed (set_clock ticks (fraction mod div) (counter a) a).

(** ** Requests and service *)

(** The loop of [highest] with [n] vectors left, from [15 + n] down. *)
Fixpoint highest_from (n : nat) (bits : list Z) : option Z :=
  match n with
  | O => Some 0
  | S m => b ← wget bits (16 + Z.of_nat m); if (b : bool) then Some (16 + Z.of_nat m) else highest_from m bits
  end.
Definition highest (bits : list Z) : option Z := highest_from 240 bits.

Definition priority (a : apic) : option Z :=
  in_service ← highest (isr a);
  Some (if Z.shiftr in_service 4 <=? Z.shiftr (tpr (a_regs a)) 4 then tpr (a_regs a) else Z.land in_service 0xf0).

(** The vector, and the state after. *)
Definition aos_x86_apic_pending (a : apic) (ticks : Z) : option (Z * apic) :=
  if ticks <? now a then Some (0, a) else
  a ← advance a ticks;
  if (invalid_vector a : bool) then Some (AOS_X86_APIC_INVALID_VECTOR, a) else
  v ← highest (irr a);
  p ← priority a;
  Some (if flag (svr (a_regs a)) 0x100 && (Z.shiftr p 4 <? Z.shiftr v 4) then v else 0, a).

Definition aos_x86_apic_accept (a : apic) (vector : Z) : option (bool * apic) :=
  if (vector =? 0) || (256 <=? vector) then Some (false, a) else
  '(v, a) ← aos_x86_apic_pending a (now a);
  if negb (vector =? v) then Some (false, a) else
  requests ← wclear (irr a) vector;
  service ← wset (isr a) vector;
  level ← wget (irr_level a) vector;
  modes ← (if (level : bool) then wset (tmr a) vector else wclear (tmr a) vector);
  levels ← wclear (irr_level a) vector;
  Some (true, set_service_bits service modes (set_requests requests levels a)).

Definition aos_x86_apic_destination (a : apic) (destination : Z) (logical : bool) : bool :=
  if 255 <? destination then false else
  let local := Z.shiftr (ldr (a_regs a)) 24 in
  (destination =? 255) ||
  if logical then
    if dfr (a_regs a) =? UINT32_MAX then flag destination local
    else (Z.shiftr destination 4 =? Z.shiftr local 4) && flag (Z.land destination local) 15
  else destination =? apic_id a.

Definition aos_x86_apic_route (a : apic) (vector destination : Z) (logical level : bool) : option (bool * apic) :=
  if (vector <? 16) || (255 <? vector) || negb (flag (svr (a_regs a)) 0x100) ||
     negb (aos_x86_apic_destination a destination logical)
  then Some (false, a)
  else
    requests ← wset (irr a) vector;
    levels ← (if level then wset (irr_level a) vector else Some (irr_level a));
    Some (true, set_requests requests levels a).

Definition aos_x86_apic_eoi_vector (a : apic) : option Z :=
  vector ← highest (isr a);
  b ← wget (tmr a) vector;
  Some (if (b : bool) then vector else 0).

Definition aos_x86_apic_interrupt_due (a : apic) (ticks : Z) : option bool :=
  if ticks <? now a then Some false else
  next ← advance a ticks;
  v ← highest (irr next);
  Some (negb (v =? 0)).

(** ** The register page *)

(** The registers that the page reads and writes directly, and the bits that
    may be written. *)
Definition register (off : Z) : option areg :=
  if off =? 0x80 then Some TPR
  else if off =? 0xd0 then Some LDR
  else if off =? 0xf0 then Some SVR
  else if off =? 0x310 then Some ICR_HIGH
  else if off =? 0x320 then Some LVT_TIMER
  else if off =? 0x330 then Some LVT_THERMAL
  else if off =? 0x340 then Some LVT_PERF
  else if off =? 0x370 then Some LVT_ERROR
  else if off =? 0x350 then Some LINT0
  else if off =? 0x360 then Some LINT1
  else if off =? 0x380 then Some INITIAL
  else if off =? 0x3e0 then Some DIVIDE
  else None.

Definition reg_mask (r : areg) : Z :=
  match r with
  | TPR => 0xff | LDR => 0xff000000 | SVR => 0x3ff | ICR_HIGH => 0xff000000 | LVT_TIMER => 0x300ff
  | LVT_THERMAL => 0x107ff | LVT_PERF => 0x107ff | LVT_ERROR => 0x100ff | LINT0 => 0x1a7ff | LINT1 => 0x1a7ff
  | INITIAL => UINT32_MAX | DIVIDE => 0xb
  end.

(** The access through the pointer [reg]. *)
Definition io_register (next : apic) (reg : areg) (off : Z) (write : bool) (value : Z) : option (Z * apic) :=
  if write then
    if flag value (u32 (Z.lnot (reg_mask reg))) then None else
    let next := if (off =? 0x3e0) && negb (value =? get_reg reg (a_regs next))
                then set_clock (now next) 0 (counter next) next else next in
    let next := set_regs (put_reg reg value (a_regs next)) next in
    Some (value, if off =? 0x380 then set_clock (now next) 0 value next else next)
  else Some (get_reg reg (a_regs next), next).

(** A write of zero to the end-of-interrupt register. *)
Definition end_of_interrupt (next : apic) : option apic :=
  v ← highest (isr next);
  if v =? 0 then Some next else
  service ← wclear (isr next) v;
  modes ← wclear (tmr next) v;
  Some (set_service_bits service modes next).

(** A write to the low half of the command register. *)
Definition io_command (next : apic) (value : Z) : option (option (Z * apic)) :=
  if flag value (u32 (Z.lnot 0x000c48ff)) || (Z.land value 0xff <? 16) then Some None else
  let shortcut := Z.land (Z.shiftr value 18) 3 in
  let dest := Z.shiftr (icr_high (a_regs next)) 24 in
  next ← (if shortcut =? 3 then Some next else
    '(_, n) ← aos_x86_apic_route next (Z.land value 255) (if shortcut =? 0 then dest else apic_id next)
                ((shortcut =? 0) && flag value 0x800) false;
    Some n);
  Some (Some (value, set_regs (put_icr_low value (a_regs next)) next)).

(** The interrupt registers, read by word. *)
Definition io_bits (next : apic) (off : Z) (write : bool) : option (option (Z * apic)) :=
  if write || negb (Z.land off 15 =? 0) then Some None
  else if (0x100 <=? off) && (off <=? 0x170) then w ← aget (isr next) ((off - 0x100) / 16); Some (Some (w, next))
  else if (0x180 <=? off) && (off <=? 0x1f0) then w ← aget (tmr next) ((off - 0x180) / 16); Some (Some (w, next))
  else if (0x200 <=? off) && (off <=? 0x270) then w ← aget (irr next) ((off - 0x200) / 16); Some (Some (w, next))
  else Some None.

(** The cases of the switch that leave [reg] null. *)
Definition io_other (next : apic) (off : Z) (write : bool) (value : Z) : option (option (Z * apic)) :=
  let read_only v := Some (if write then None else Some (v, next)) in
  if off =? 0x20 then read_only (u32 (Z.shiftl (apic_id next) 24))
  else if off =? 0x30 then read_only 0x00050014
  else if off =? 0xe0 then
    if write then
      if negb (Z.shiftr value 28 =? 0) && negb (Z.shiftr value 28 =? 15) then Some None
      else Some (Some (value, set_regs (put_dfr (Z.lor value 0x0fffffff) (a_regs next)) next))
    else Some (Some (dfr (a_regs next), next))
  else if off =? 0xa0 then if write then Some None else p ← priority next; read_only p
  else if off =? 0xb0 then
    if negb write || negb (value =? 0) then Some None
    else next ← end_of_interrupt next; Some (Some (value, next))
  else if off =? 0x280 then
    if write && negb (value =? 0) then Some None else Some (Some (0, next))
  else if off =? 0x300 then
    if write then io_command next value else Some (Some (icr_low (a_regs next), next))
  else if off =? 0x390 then read_only (counter next)
  else io_bits next off write.

(** The value and the state after, or [None] for [false], which changes
    neither. *)
Definition aos_x86_apic_io (a : apic) (off : Z) (write : bool) (value ticks : Z) : option (option (Z * apic)) :=
  if ticks <? now a then Some None else
  next ← advance a ticks;
  match register off with
  | Some reg => Some (io_register next reg off write value)
  | None => io_other next off write value
  end.

(** ** Well-formed states *)

Definition masked (m v : Z) : Prop := is_u32 v /\ flag v (u32 (Z.lnot m)) = false.

(** A set of legal vectors. *)
Definition vectors_ok (l : list Z) : Prop := words_ok 8 l /\ forall v, wmem l v = true -> 16 <= v.

Definition class (v : Z) : Z := v / 16.

Record apic_ok (a : apic) : Prop := {
  ao_regs : forall r, masked (reg_mask r) (get_reg r (a_regs a));
  ao_dfr : dfr (a_regs a) = 0x0fffffff \/ dfr (a_regs a) = UINT32_MAX;
  ao_icr_low : is_u32 (icr_low (a_regs a));
  ao_now : is_u64 (now a);
  ao_phase : 0 <= phase a < divisor (a_regs a);
  ao_counter : 0 <= counter a <= initial (a_regs a);
  ao_irr : vectors_ok (irr a);
  ao_isr : vectors_ok (isr a);
  ao_irr_level : vectors_ok (irr_level a);
  ao_tmr : vectors_ok (tmr a);
  ao_level : forall v, wmem (irr_level a) v = true -> wmem (irr a) v = true;
  ao_mode : forall v, wmem (tmr a) v = true -> wmem (isr a) v = true;
  ao_nested : forall u v, wmem (isr a) u = true -> wmem (isr a) v = true -> class u = class v -> u = v;
  ao_id : 0 <= apic_id a < 255 }.

(** *** Registers *)

Lemma get_put_reg r r' v g : get_reg r (put_reg r' v g) = if bool_decide (r = r') then v else get_reg r g.
Proof. by destruct g, r, r'. Qed.

(** *** Sets of vectors *)

Lemma vector_range l v : vectors_ok l -> wmem l v = true -> 16 <= v < 256.
Proof. intros [Hl Hv] Hm. pose proof (wmem_range 8 l Hl v Hm). specialize (Hv v Hm). lia. Qed.

Lemma vectors_set l v :
  vectors_ok l -> 16 <= v < 256 ->
  exists l', wset l v = Some l' /\ vectors_ok l' /\ forall u, wmem l' u = (v =? u) || wmem l u.
Proof.
  intros [Hl Hv] Hr. destruct (wset_spec 8 l Hl v) as (l' & Hs & Hok & Hu); [lia|]. exists l'.
  assert (Hall : forall u, wmem l' u = (v =? u) || wmem l u).
  { intros u. destruct (decide (0 <= u < 256)) as [Hin|Hout]; [by apply Hu|].
    destruct (wmem l' u) eqn:H1; [apply (wmem_range 8 l' Hok) in H1; lia|].
    destruct (wmem l u) eqn:H2; [apply (wmem_range 8 l Hl) in H2; lia|]. destruct (Z.eqb_spec v u); lia || done. }
  split_and!; [done| |done]. split; [done|]. intros u. rewrite Hall. destruct (Z.eqb_spec v u); [lia|apply Hv].
Qed.

Lemma vectors_clear l v :
  vectors_ok l -> 0 <= v < 256 ->
  exists l', wclear l v = Some l' /\ vectors_ok l' /\ forall u, wmem l' u = negb (v =? u) && wmem l u.
Proof.
  intros [Hl Hv] Hr. destruct (wclear_spec 8 l Hl v) as (l' & Hs & Hok & Hu); [lia|]. exists l'.
  assert (Hall : forall u, wmem l' u = negb (v =? u) && wmem l u).
  { intros u. destruct (decide (0 <= u < 256)) as [Hin|Hout]; [by apply Hu|].
    destruct (wmem l' u) eqn:H1; [apply (wmem_range 8 l' Hok) in H1; lia|].
    destruct (wmem l u) eqn:H2; [apply (wmem_range 8 l Hl) in H2; lia|]. by rewrite andb_false_r. }
  split_and!; [done| |done]. split; [done|]. intros u. rewrite Hall, andb_true_iff. intros [_ ?]. by apply Hv.
Qed.

Lemma vectors_get l v : vectors_ok l -> 0 <= v < 256 -> wget l v = Some (wmem l v).
Proof. intros [Hl _] Hv. apply (wget_mem 8 l Hl). lia. Qed.

Lemma vectors_empty : vectors_ok (replicate 8 0).
Proof. split; [apply (wempty_ok 8)|]. intros v. by rewrite (wmem_empty 8). Qed.

(** [wset] of a member changes nothing. *)
Lemma wset_again l v l' : 0 <= v mod 32 < 32 -> wset l v = Some l' -> wset l' v = Some l'.
Proof.
  intros Hv. unfold wset. destruct (aget l (v / 32)) as [w|] eqn:Hw; [|done]. cbn.
  apply aget_Some in Hw as [Hi Hw]. pose proof (lookup_lt_Some _ _ _ Hw) as Hlt.
  rewrite aset_Some by lia. intros [= <-]. unfold aget. rewrite (proj2 (Z.leb_le 0 (v / 32))) by lia.
  rewrite list_lookup_insert_eq by lia. cbn. rewrite aset_Some by (rewrite length_insert; lia).
  rewrite list_insert_insert_eq. f_equal. f_equal. unfold or_bit. by rewrite <- Z.lor_assoc, Z.lor_diag.
Qed.

(** The members, from the highest down. *)
Definition members_below (n : nat) (bits : list Z) : list Z :=
  filter (fun v => wmem bits v = true) (reverse (seqZ 16 (Z.of_nat n))).
Definition members (bits : list Z) : list Z := members_below 240 bits.

Lemma members_below_S n bits :
  members_below (S n) bits =
  if wmem bits (16 + Z.of_nat n) then (16 + Z.of_nat n) :: members_below n bits else members_below n bits.
Proof.
  unfold members_below. replace (Z.of_nat (S n)) with (Z.of_nat n + 1) by lia.
  assert (Hs : seqZ 16 (Z.of_nat n + 1) = seqZ 16 (Z.of_nat n) ++ [16 + Z.of_nat n]) by (by rewrite seqZ_app by lia).
  rewrite Hs, reverse_app, filter_app. change (reverse [16 + Z.of_nat n]) with [16 + Z.of_nat n].
  rewrite filter_cons, filter_nil. destruct (wmem bits (16 + Z.of_nat n)); by rewrite ?decide_True, ?decide_False by done.
Qed.

Lemma highest_from_members n bits :
  vectors_ok bits -> (n <= 240)%nat -> highest_from n bits = Some (default 0 (head (members_below n bits))).
Proof.
  intros Hb. induction n as [|n IH]; intros Hn; [done|]. cbn [highest_from].
  rewrite vectors_get by (done || lia). cbn. rewrite members_below_S.
  destruct (wmem bits (16 + Z.of_nat n)); [done|]. apply IH. lia.
Qed.

Lemma highest_members bits : vectors_ok bits -> highest bits = Some (default 0 (head (members bits))).
Proof. intros Hb. by apply highest_from_members. Qed.

Lemma elem_members bits v : vectors_ok bits -> v ∈ members bits <-> wmem bits v = true.
Proof.
  intros Hb. unfold members, members_below. rewrite list_elem_of_filter, elem_of_reverse, elem_of_seqZ.
  split; [by intros [? _]|]. intros Hm. split; [done|]. pose proof (vector_range bits v Hb Hm). lia.
Qed.

Lemma members_below_sorted n bits : StronglySorted Z.gt (members_below n bits).
Proof.
  induction n as [|n IH]; [constructor|]. rewrite members_below_S. destruct (wmem bits _); [|done].
  constructor; [done|]. apply Forall_forall. intros u. unfold members_below.
  rewrite list_elem_of_filter, elem_of_reverse, elem_of_seqZ. lia.
Qed.

(** A strictly decreasing list is determined by its elements. *)
Lemma decreasing_ext (l1 l2 : list Z) :
  StronglySorted Z.gt l1 -> StronglySorted Z.gt l2 -> (forall x, x ∈ l1 <-> x ∈ l2) -> l1 = l2.
Proof.
  intros H1. revert l2. induction H1 as [|x l1 H1 IH Hx]; intros l2 H2 He.
  - destruct l2 as [|y l2]; [done|]. destruct (not_elem_of_nil y). apply He. left.
  - destruct H2 as [|y l2 H2 Hy]; [destruct (not_elem_of_nil x); apply He; left|].
    rewrite Forall_forall in Hx, Hy. assert (x = y) as ->.
    { pose proof (proj1 (He x) (list_elem_of_here _ _)) as Hxy. pose proof (proj2 (He y) (list_elem_of_here _ _)) as Hyx.
      apply elem_of_cons in Hxy as [|Hxy]; [done|]. apply elem_of_cons in Hyx as [|Hyx]; [done|].
      specialize (Hx y Hyx). specialize (Hy x Hxy). lia. }
    f_equal. apply IH; [done|]. intros z. specialize (He z). rewrite !elem_of_cons in He.
    split; intros Hz; [pose proof (Hx z Hz)|pose proof (Hy z Hz)]; destruct He as [He1 He2];
      [destruct He1 as [->|]|destruct He2 as [->|]]; auto; lia.
Qed.

Lemma members_push l l' v :
  vectors_ok l -> vectors_ok l' -> (forall u, wmem l' u = (v =? u) || wmem l u) ->
  (forall u, wmem l u = true -> u < v) -> members l' = v :: members l.
Proof.
  intros Hl Hl' Hu Hlt. apply decreasing_ext; [apply members_below_sorted| |].
  - constructor; [apply members_below_sorted|]. apply Forall_forall. intros u. rewrite elem_members by done.
    intros Hm. specialize (Hlt u Hm). lia.
  - intros u. rewrite elem_of_cons, !elem_members, Hu, orb_true_iff, Z.eqb_eq by done. intuition congruence.
Qed.

Lemma members_pop l l' v vs :
  vectors_ok l -> vectors_ok l' -> members l = v :: vs ->
  (forall u, wmem l' u = negb (v =? u) && wmem l u) -> members l' = vs.
Proof.
  intros Hl Hl' Hm Hu. pose proof (members_below_sorted 240 l) as Hs. fold (members l) in Hs. rewrite Hm in Hs.
  inversion Hs as [|? ? Hs' Hlt]; subst. rewrite Forall_forall in Hlt.
  apply decreasing_ext; [apply members_below_sorted|done|]. intros u.
  rewrite elem_members, Hu, andb_true_iff, negb_true_iff, Z.eqb_neq by done.
  rewrite <- elem_members, Hm, elem_of_cons by done. split; [naive_solver|].
  intros Hin. specialize (Hlt u Hin). split; [lia|by right].
Qed.

Lemma members_nil l : vectors_ok l -> members l = [] <-> forall u, wmem l u = false.
Proof.
  intros Hl. split.
  - intros Hn u. destruct (wmem l u) eqn:Hu; [|done]. apply elem_members in Hu; [|done]. rewrite Hn in Hu.
    by apply not_elem_of_nil in Hu.
  - intros Hn. destruct (members l) as [|v vs] eqn:Hm; [done|]. assert (wmem l v = true) as Hv; [|by rewrite Hn in Hv].
    apply elem_members; [done|]. rewrite Hm. left.
Qed.

(** ** The timer against its tick *)

Lemma divisor_bound g : 1 <= divisor g <= 128.
Proof.
  unfold divisor. set (e := Z.land _ 7).
  assert (0 <= e < 8) as He. { subst e. change 7 with (Z.ones 3). rewrite Z.land_ones by lia. by apply Z.mod_pos_bound. }
  clearbody e. assert (e = 0 \/ e = 1 \/ e = 2 \/ e = 3 \/ e = 4 \/ e = 5 \/ e = 6 \/ e = 7) as Hc by lia.
  repeat destruct Hc as [->|Hc]; subst; vm_compute; by split.
Qed.

(** [advance] on a clock that does not go back. *)
Lemma advance_eq a t :
  apic_ok a -> now a <= t < 2 ^ 64 ->
  advance a t =
  count_down ((t - now a + phase a) / divisor (a_regs a))
    (set_clock t ((t - now a + phase a) mod divisor (a_regs a)) (counter a) a).
Proof.
  intros Ha Ht. pose proof (ao_now a Ha) as Hn. pose proof (ao_phase a Ha) as Hp. pose proof (divisor_bound (a_regs a)) as Hd.
  unfold is_u64 in Hn. unfold advance. set (d := divisor (a_regs a)) in *. rewrite (u64_small (t - now a)) by (unfold is_u64; lia).
  set (x := t - now a) in *. pose proof (Z.mod_pos_bound x d ltac:(lia)) as Hm.
  rewrite (u64_small (x mod d + phase a)) by (unfold is_u64; lia).
  assert (Hq : x / d + (x mod d + phase a) / d = (x + phase a) / d).
  { rewrite (Z.div_mod x d) at 3 by lia. rewrite <- Z.add_assoc, (Z.mul_comm d), Z.div_add_l by lia. done. }
  rewrite Hq, Zplus_mod_idemp_l, u64_small; [done|]. unfold is_u64. split; [apply Z.div_pos; lia|].
  apply Z.div_lt_upper_bound; nia.
Qed.

Lemma fire_bits_again g l b l' b' : fire_bits g l b = Some (l', b') -> fire_bits g l' b' = Some (l', b').
Proof.
  unfold fire_bits. destruct (_ && _); [|congruence]. destruct (16 <=? _); [|congruence].
  destruct (wset l _) as [x|] eqn:Hs; [|done]. cbn. intros [= <- <-].
  rewrite (wset_again l _ x); [done|by apply Z.mod_pos_bound|done].
Qed.

(** The timer's interrupt can be raised, and raising it again changes
    nothing. *)
Lemma fire_set_clock a t p c a' :
  fire a = Some a' -> fire (set_clock t p c a) = Some (set_clock t p c a') /\ fire a' = Some a'.
Proof.
  unfold fire. cbn. destruct (fire_bits _ _ _) as [[l b]|] eqn:Hf; [|done]. cbn. intros [= <-]. cbn. split; [done|].
  rewrite (fire_bits_again _ _ _ _ _ Hf). done.
Qed.

Lemma fire_regs a a' : fire a = Some a' -> a_regs a' = a_regs a /\ counter a' = counter a /\ now a' = now a /\ phase a' = phase a.
Proof. unfold fire. destruct (fire_bits _ _ _) as [[l b]|]; [|done]. by intros [= <-]. Qed.

Lemma timer_vector g : 0 <= Z.land (lvt_timer g) 0xff < 256.
Proof. change 0xff with (Z.ones 8). rewrite Z.land_ones by lia. by apply Z.mod_pos_bound. Qed.

Lemma fire_total a : vectors_ok (irr a) -> is_Some (fire a).
Proof.
  intros Hi. unfold fire, fire_bits. destruct (_ && _); [|done]. destruct (Z.leb_spec 16 (Z.land (lvt_timer (a_regs a)) 0xff)); [|done].
  pose proof (timer_vector (a_regs a)). destruct (vectors_set (irr a) (Z.land (lvt_timer (a_regs a)) 0xff) Hi) as (l & -> & _); [lia|done].
Qed.

(** The clock part of the invariant. *)
Definition clock_ok (a : apic) : Prop :=
  0 <= counter a < 2 ^ 32 /\ 0 <= initial (a_regs a) < 2 ^ 32 /\ vectors_ok (irr a).

Lemma reload_eq g e :
  0 <= initial g < 2 ^ 32 -> 0 <= e ->
  reload g e = if flag (lvt_timer g) 0x20000 && negb (initial g =? 0) then initial g - e mod initial g else 0.
Proof.
  intros Hi He. unfold reload. destruct (_ && _) eqn:Hf; [|done]. apply andb_true_iff in Hf as [_ Hf].
  apply negb_true_iff, Z.eqb_neq in Hf. pose proof (Z.mod_pos_bound e (initial g) ltac:(lia)).
  rewrite (u32_small (e mod _)) by (unfold is_u32; lia). apply u32_small. unfold is_u32. lia.
Qed.

Lemma reload_range g e : 0 <= initial g < 2 ^ 32 -> 0 <= e -> 0 <= reload g e <= initial g.
Proof.
  intros Hi He. rewrite reload_eq by done. destruct (_ && _) eqn:Hf; [|lia]. apply andb_true_iff in Hf as [_ Hf].
  apply negb_true_iff, Z.eqb_neq in Hf. pose proof (Z.mod_pos_bound e (initial g) ltac:(lia)). lia.
Qed.

(** Counting from a reload. *)
Lemma reload_again g e1 e2 :
  0 <= initial g < 2 ^ 32 -> 0 <= e1 -> 0 <= e2 ->
  if reload g e1 =? 0 then reload g (e1 + e2) = 0
  else if e2 <? reload g e1 then reload g (e1 + e2) = reload g e1 - e2
  else reload g (e2 - reload g e1) = reload g (e1 + e2).
Proof.
  intros Hi H1 H2. rewrite !(reload_eq g (e1 + e2)), (reload_eq g e1) by lia.
  destruct (_ && _) eqn:Hf; [|done]. pose proof Hf as Hf'. apply andb_true_iff in Hf' as [_ Hz].
  apply negb_true_iff, Z.eqb_neq in Hz. set (i := initial g) in *.
  pose proof (Z.mod_pos_bound e1 i ltac:(lia)) as Hm. destruct (Z.eqb_spec (i - e1 mod i) 0) as [|_]; [lia|].
  assert (Hsum : (e1 + e2) mod i = (e1 mod i + e2) mod i) by (by rewrite Zplus_mod_idemp_l).
  destruct (Z.ltb_spec e2 (i - e1 mod i)) as [Hlt|Hge].
  - rewrite Hsum, (Z.mod_small (e1 mod i + e2)) by lia. lia.
  - rewrite reload_eq by lia. fold i. rewrite Hf, Hsum. f_equal.
    replace (e1 mod i + e2) with ((e2 - (i - e1 mod i)) + 1 * i) by lia. by rewrite Z.mod_add by lia.
Qed.

(** The counter after [e] periods, and whether it expired on the way. *)
Definition counted (g : apic_regs) (c e : Z) : Z :=
  if c =? 0 then 0 else if e <? c then c - e else reload g (e - c).
Definition expired (c e : Z) : bool := negb (c =? 0) && (c <=? e).

Lemma count_down_eq e a :
  0 <= counter a < 2 ^ 32 -> 0 <= e ->
  count_down e a =
  let a' := set_clock (now a) (phase a) (counted (a_regs a) (counter a) e) a in
  if expired (counter a) e then fire a' else Some a'.
Proof.
  intros Hc He. unfold count_down, counted, expired. destruct (Z.eqb_spec (counter a) 0) as [Hz|Hz]; cbn [negb andb].
  - destruct a. cbn in *. by subst.
  - destruct (Z.ltb_spec e (counter a)), (Z.leb_spec (counter a) e); try lia; [|done].
    cbn. rewrite (u32_small e) by (unfold is_u32; lia). by rewrite u32_small by (unfold is_u32; lia).
Qed.

Lemma counted_range g c e : 0 <= initial g < 2 ^ 32 -> 0 <= c <= initial g -> 0 <= e -> 0 <= counted g c e <= initial g.
Proof.
  intros Hi Hc He. unfold counted. destruct (Z.eqb_spec c 0); [lia|]. destruct (Z.ltb_spec e c); [lia|].
  apply reload_range; lia.
Qed.

Lemma counted_add g c e1 e2 :
  0 <= initial g < 2 ^ 32 -> 0 <= c -> 0 <= e1 -> 0 <= e2 ->
  counted g (counted g c e1) e2 = counted g c (e1 + e2) /\
  expired c (e1 + e2) = expired c e1 || expired (counted g c e1) e2.
Proof.
  intros Hi Hc H1 H2. unfold counted at 2 4, expired. destruct (Z.eqb_spec c 0) as [->|Hz]; [done|]. cbn [negb andb].
  destruct (Z.ltb_spec e1 c) as [Hlt|Hge].
  - unfold counted. destruct (Z.eqb_spec (c - e1) 0), (Z.eqb_spec c 0); try lia. cbn [negb andb].
    destruct (Z.ltb_spec e2 (c - e1)), (Z.ltb_spec (e1 + e2) c), (Z.leb_spec c (e1 + e2)), (Z.leb_spec c e1),
      (Z.leb_spec (c - e1) e2); try lia; (split; [f_equal; lia|done]).
  - destruct (Z.leb_spec c (e1 + e2)), (Z.leb_spec c e1); try lia. split; [|done].
    pose proof (reload_again g (e1 - c) e2 Hi ltac:(lia) H2) as Hr. unfold counted.
    destruct (Z.eqb_spec c 0), (Z.ltb_spec (e1 + e2) c); try lia. replace (e1 + e2 - c) with (e1 - c + e2) by lia.
    destruct (reload g (e1 - c) =? 0); [done|]. destruct (e2 <? reload g (e1 - c)); done.
Qed.

Lemma count_down_add e1 e2 a a1 t p :
  clock_ok a -> 0 <= e1 -> 0 <= e2 -> count_down e1 a = Some a1 ->
  counter a <= initial (a_regs a) ->
  count_down e2 (set_clock t p (counter a1) a1) = count_down (e1 + e2) (set_clock t p (counter a) a).
Proof.
  intros (Hc & Hi & Hv) H1 H2 Hcd Hle. rewrite count_down_eq in Hcd by done. cbn zeta in Hcd.
  destruct (counted_add (a_regs a) (counter a) e1 e2) as [Hadd Hexp]; [lia..|].
  pose proof (counted_range (a_regs a) (counter a) e1 Hi ltac:(lia) H1) as Hcr.
  rewrite (count_down_eq (e1 + e2)) by (cbn; lia). cbn zeta. cbn [counter set_clock a_regs now phase].
  rewrite Hexp, <- Hadd. destruct (expired (counter a) e1) eqn:He1; cbn [orb].
  - pose proof (fire_regs _ _ Hcd) as (Hr & Hct & _). cbn in Hr, Hct. rewrite count_down_eq by (cbn; lia).
    cbn. rewrite Hr, Hct. destruct (fire_set_clock _ t p (counted (a_regs a) (counted (a_regs a) (counter a) e1) e2) _ Hcd) as [Hf1 Hf2].
    destruct (fire_set_clock _ t p (counted (a_regs a) (counted (a_regs a) (counter a) e1) e2) _ Hf2) as [Hf3 _].
    etransitivity; [|symmetry; exact Hf1]. destruct (expired _ e2); [exact Hf3|done].
  - injection Hcd as <-. rewrite count_down_eq by (cbn; lia). done.
Qed.

(** Everything but the clock and the requests is as before, and no request
    is lost. *)
Definition frame (a a' : apic) : Prop :=
  a_regs a' = a_regs a /\ isr a' = isr a /\ tmr a' = tmr a /\ irr_level a' = irr_level a /\
  apic_id a' = apic_id a /\ bootstrap a' = bootstrap a /\
  (forall v, wmem (irr a) v = true -> wmem (irr a') v = true).

Lemma frame_refl a : frame a a.
Proof. by repeat split. Qed.

Lemma frame_trans a b c : frame a b -> frame b c -> frame a c.
Proof. unfold frame. intros (? & ? & ? & ? & ? & ? & ?) (? & ? & ? & ? & ? & ? & ?). split_and!; try congruence. auto. Qed.

Lemma fire_ok a : apic_ok a -> exists a', fire a = Some a' /\ apic_ok a' /\ frame a a' /\ now a' = now a.
Proof.
  intros Ha. unfold fire, fire_bits. pose proof (timer_vector (a_regs a)) as Hv. destruct (flag _ _ && _); cbn.
  - destruct (Z.leb_spec 16 (Z.land (lvt_timer (a_regs a)) 0xff)) as [Hge|]; cbn.
    + destruct (vectors_set (irr a) (Z.land (lvt_timer (a_regs a)) 0xff) (ao_irr a Ha)) as (l & -> & Hl & Hu); [lia|]. cbn.
      assert (Hsub : forall v, wmem (irr a) v = true -> wmem l v = true).
      { intros v Hm. rewrite Hu, Hm. apply orb_true_r. }
      eexists. split; [done|]. split; [|by split_and!]. destruct Ha. split; cbn; auto.
    + eexists. split; [done|]. split; [|by split_and!]. destruct Ha. split; cbn; auto.
  - eexists. split; [done|]. split; [|by split_and!]. destruct Ha. split; cbn; auto.
Qed.

Lemma set_clock_ok a t p c :
  apic_ok a -> is_u64 t -> 0 <= p < divisor (a_regs a) -> 0 <= c <= initial (a_regs a) -> apic_ok (set_clock t p c a).
Proof. intros [] Ht Hp Hc. split; cbn; auto. Qed.

Lemma initial_u32 a : apic_ok a -> 0 <= initial (a_regs a) < 2 ^ 32.
Proof. intros Ha. apply (ao_regs a Ha INITIAL). Qed.

Lemma apic_clock_ok a : apic_ok a -> clock_ok a.
Proof.
  intros Ha. pose proof (initial_u32 a Ha). pose proof (ao_counter a Ha). split; [lia|]. split; [done|apply Ha].
Qed.

Lemma count_down_ok e a :
  apic_ok a -> 0 <= e -> exists a', count_down e a = Some a' /\ apic_ok a' /\ frame a a' /\ now a' = now a /\ phase a' = phase a.
Proof.
  intros Ha He. pose proof (initial_u32 a Ha) as Hi. pose proof (ao_counter a Ha) as Hc.
  rewrite count_down_eq by lia. cbn zeta.
  assert (Hok : apic_ok (set_clock (now a) (phase a) (counted (a_regs a) (counter a) e) a)).
  { apply set_clock_ok; [done|apply Ha|apply Ha|by apply counted_range]. }
  destruct (expired _ e).
  - destruct (fire_ok _ Hok) as (a' & Hf & Hok' & Hfr & Hn). exists a'. split_and!; [done|done| |done|].
    + by apply (frame_trans _ _ _ (frame_refl a) Hfr).
    + by apply fire_regs in Hf as (_ & _ & _ & ->).
  - eexists. split; [done|]. split; [done|]. by split_and!.
Qed.

Lemma advance_ok a t :
  apic_ok a -> now a <= t < 2 ^ 64 ->
  exists a', advance a t = Some a' /\ apic_ok a' /\ frame a a' /\ now a' = t /\
    phase a' = (t - now a + phase a) mod divisor (a_regs a).
Proof.
  intros Ha Ht. pose proof (ao_phase a Ha). pose proof (ao_now a Ha) as Hn. unfold is_u64 in Hn.
  rewrite advance_eq by done. pose proof (divisor_bound (a_regs a)).
  destruct (count_down_ok ((t - now a + phase a) / divisor (a_regs a))
    (set_clock t ((t - now a + phase a) mod divisor (a_regs a)) (counter a) a)) as (a' & Hc & Hok & Hfr & Hn' & Hp').
  - apply set_clock_ok; [done|unfold is_u64; lia|apply Z.mod_pos_bound; lia|apply Ha].
  - apply Z.div_pos; lia.
  - exists a'. split_and!; done.
Qed.

(** Advancing in two steps is advancing at once. *)
Lemma advance_add a a1 t1 t2 :
  apic_ok a -> now a <= t1 <= t2 -> t2 < 2 ^ 64 -> advance a t1 = Some a1 -> advance a1 t2 = advance a t2.
Proof.
  intros Ha H1 H2 Hadv. destruct (advance_ok a t1 Ha ltac:(lia)) as (a' & Hadv' & Hok1 & Hfr & Hn1 & Hp1).
  rewrite Hadv in Hadv'. injection Hadv' as <-. subst t1.
  rewrite (advance_eq a1) by (done || lia). rewrite (advance_eq a t2) by (done || lia).
  rewrite advance_eq in Hadv by (done || lia). destruct Hfr as (Hg & _). rewrite Hg, Hp1.
  pose proof (divisor_bound (a_regs a)) as Hd. pose proof (ao_phase a Ha). set (d := divisor (a_regs a)) in *.
  set (x := now a1 - now a + phase a) in *.
  assert (Hx : t2 - now a + phase a = x + (t2 - now a1)) by lia. rewrite Hx.
  assert (Hm : (t2 - now a1 + x mod d) mod d = (x + (t2 - now a1)) mod d).
  { rewrite Zplus_mod_idemp_r. f_equal. lia. }
  assert (Hq : (x + (t2 - now a1)) / d = x / d + (t2 - now a1 + x mod d) / d).
  { rewrite (Z.div_mod x d) at 1 by lia. rewrite <- Z.add_assoc, (Z.mul_comm d), Z.div_add_l by lia. do 2 f_equal. lia. }
  rewrite Hm, Hq.
  pose proof (count_down_add (x / d) ((t2 - now a1 + x mod d) / d) (set_clock (now a1) (x mod d) (counter a) a) a1 t2
    ((x + (t2 - now a1)) mod d)) as Hadd. cbn in Hadd. apply Hadd; [|apply Z.div_pos; lia| |done|apply Ha].
  - apply (apic_clock_ok a Ha).
  - pose proof (Z.mod_pos_bound x d ltac:(lia)). apply Z.div_pos; lia.
Qed.

Definition periodic (g : apic_regs) : bool := flag (lvt_timer g) 0x20000 && negb (initial g =? 0).

(** The timer as the hardware has it: the prescaler counts to the divisor,
    then the counter goes down by one; when it reaches zero the interrupt is
    raised, and a periodic timer starts again. *)
Definition tick (a : apic) : option apic :=
  let g := a_regs a in
  if phase a + 1 <? divisor g then Some (set_clock (now a + 1) (phase a + 1) (counter a) a)
  else if counter a =? 0 then Some (set_clock (now a + 1) 0 0 a)
  else if 1 <? counter a then Some (set_clock (now a + 1) 0 (counter a - 1) a)
  else fire (set_clock (now a + 1) 0 (if periodic g then initial g else 0) a).

Fixpoint ticking (n : nat) (a : apic) : option apic :=
  match n with O => Some a | S n => a' ← tick a; ticking n a' end.

Lemma set_clock_id a : set_clock (now a) (phase a) (counter a) a = a.
Proof. by destruct a. Qed.

Lemma advance_now a : apic_ok a -> advance a (now a) = Some a.
Proof.
  intros Ha. pose proof (ao_now a Ha) as Hn. pose proof (ao_phase a Ha). pose proof (initial_u32 a Ha). pose proof (ao_counter a Ha).
  unfold is_u64 in Hn. rewrite advance_eq by (done || lia). rewrite Z.sub_diag, Z.add_0_l, Z.mod_small, Z.div_small by lia.
  rewrite set_clock_id, count_down_eq by lia. unfold counted, expired.
  destruct (Z.eqb_spec (counter a) 0) as [Hz|]; cbn [negb andb].
  - rewrite <- Hz at 1. by rewrite set_clock_id.
  - destruct (Z.ltb_spec 0 (counter a)), (Z.leb_spec (counter a) 0); try lia. by rewrite Z.sub_0_r, set_clock_id.
Qed.

Lemma advance_tick a : apic_ok a -> now a + 1 < 2 ^ 64 -> advance a (now a + 1) = tick a.
Proof.
  intros Ha Ht. pose proof (ao_now a Ha) as Hn. pose proof (ao_phase a Ha) as Hp. pose proof (initial_u32 a Ha) as Hi.
  pose proof (ao_counter a Ha) as Hc. unfold is_u64 in Hn. rewrite advance_eq by (done || lia).
  replace (now a + 1 - now a + phase a) with (phase a + 1) by lia. unfold tick. cbn zeta. set (d := divisor (a_regs a)) in *.
  assert (Hcase : phase a + 1 < d \/ phase a + 1 = d) by lia. destruct Hcase as [Hlt|Heq].
  - rewrite Z.mod_small, Z.div_small, (proj2 (Z.ltb_lt _ _)) by lia. rewrite count_down_eq by (cbn; lia).
    cbn [counter set_clock now phase a_regs]. unfold counted, expired. destruct (Z.eqb_spec (counter a) 0) as [Hz|]; cbn [negb andb].
    + by rewrite Hz.
    + destruct (Z.ltb_spec 0 (counter a)), (Z.leb_spec (counter a) 0); try lia. by rewrite Z.sub_0_r.
  - rewrite Heq, Z_mod_same_full, Z_div_same_full, Z.ltb_irrefl by lia. rewrite count_down_eq by (cbn; lia).
    cbn [counter set_clock now phase a_regs]. unfold counted, expired. destruct (Z.eqb_spec (counter a) 0) as [Hz|]; cbn [negb andb]; [done|].
    destruct (Z.ltb_spec 1 (counter a)), (Z.leb_spec (counter a) 1); try lia; [done|].
    replace (counter a) with 1 by lia. rewrite reload_eq, Z.sub_diag by lia. unfold periodic.
    destruct (_ && _) eqn:Hf; [|done]. apply andb_true_iff in Hf as [_ Hz']. apply negb_true_iff, Z.eqb_neq in Hz'.
    by rewrite Z.mod_0_l, Z.sub_0_r.
Qed.

Lemma advance_ticking n : forall a,
  apic_ok a -> now a + Z.of_nat n < 2 ^ 64 -> advance a (now a + Z.of_nat n) = ticking n a.
Proof.
  induction n as [|n IH]; intros a Ha Hn; [rewrite Z.add_0_r; by apply advance_now|].
  cbn [ticking]. pose proof (ao_now a Ha) as Hnow. unfold is_u64 in Hnow.
  destruct (advance_ok a (now a + 1) Ha ltac:(lia)) as (a1 & Ha1 & Hok1 & _ & Hn1 & _).
  rewrite <- advance_tick by (done || lia). rewrite Ha1. cbn. rewrite <- IH by (done || lia).
  rewrite Hn1. symmetry. etransitivity; [eapply (advance_add a a1 (now a + 1)); (done || lia)|]. f_equal. lia.
Qed.

(** ** Requests and service as a queue and a stack *)

(** The vectors in service, the last accepted first, each with whether its
    interrupt was level-triggered. *)
Definition in_service (a : apic) : list (Z * bool) := (fun v => (v, wmem (tmr a) v)) <$> members (isr a).

(** The class of the interrupt being served, or zero. *)
Definition serving (a : apic) : Z := default 0 (class ∘ fst <$> head (in_service a)).

(** The highest request, if its class is above the task priority and the
    class being served. *)
Definition eligible (a : apic) : Z :=
  match members (irr a) with
  | v :: _ => if flag (svr (a_regs a)) 0x100 && (Z.max (class (tpr (a_regs a))) (serving a) <? class v) then v else 0
  | [] => 0
  end.

Lemma shiftr_class v : Z.shiftr v 4 = class v.
Proof. by rewrite Z.shiftr_div_pow2. Qed.

Lemma land_class v : 0 <= v < 256 -> class (Z.land v 0xf0) = class v.
Proof.
  intros Hv. rewrite <- !shiftr_class, Z.shiftr_land. change (Z.shiftr 0xf0 4) with (Z.ones 4).
  rewrite Z.land_ones by lia. apply Z.mod_small. rewrite Z.shiftr_div_pow2 by lia. Z.div_mod_to_equations. lia.
Qed.

Lemma head_in_service a : default 0 (head (members (isr a))) = default 0 (fst <$> head (in_service a)).
Proof. unfold in_service. by destruct (members (isr a)). Qed.

Lemma serving_class a : serving a = class (default 0 (head (members (isr a)))).
Proof. unfold serving, in_service. by destruct (members (isr a)). Qed.

Lemma head_member l v vs : vectors_ok l -> members l = v :: vs -> wmem l v = true.
Proof. intros Hl Hm. apply elem_members; [done|]. rewrite Hm. left. Qed.

Lemma highest_range l : vectors_ok l -> 0 <= default 0 (head (members l)) < 256.
Proof.
  intros Hl. destruct (members l) as [|v vs] eqn:Hm; cbn; [lia|].
  pose proof (vector_range l v Hl (head_member l v vs Hl Hm)). lia.
Qed.

Lemma priority_spec a :
  apic_ok a -> exists p, priority a = Some p /\ class p = Z.max (class (tpr (a_regs a))) (serving a).
Proof.
  intros Ha. unfold priority. rewrite highest_members by apply Ha. cbn. eexists. split; [done|].
  rewrite !shiftr_class, serving_class. pose proof (highest_range _ (ao_isr a Ha)).
  destruct (Z.leb_spec (class (default 0 (head (members (isr a))))) (class (tpr (a_regs a)))); [lia|].
  rewrite land_class by done. lia.
Qed.

Lemma pending_eq a t :
  apic_ok a -> now a <= t < 2 ^ 64 ->
  exists a', advance a t = Some a' /\
    aos_x86_apic_pending a t = Some (if invalid_vector a' then AOS_X86_APIC_INVALID_VECTOR else eligible a', a').
Proof.
  intros Ha Ht. destruct (advance_ok a t Ha Ht) as (a' & Hadv & Hok & _). exists a'. split; [done|].
  unfold aos_x86_apic_pending. rewrite (proj2 (Z.ltb_ge _ _)), Hadv by lia. cbn [mbind option_bind].
  destruct (invalid_vector a'); [done|]. rewrite highest_members by apply Hok. cbn [mbind option_bind].
  destruct (priority_spec a' Hok) as (p & -> & Hp). cbn. rewrite !shiftr_class, Hp. do 2 f_equal. unfold eligible.
  destruct (members (irr a')) as [|v vs]; [|done]. cbn. by destruct (_ && _).
Qed.

(** An eligible vector is above all that are in service. *)
Lemma eligible_spec a v :
  apic_ok a -> eligible a = v -> v <> 0 ->
  wmem (irr a) v = true /\ (forall u, wmem (irr a) u = true -> u <= v) /\
  class (tpr (a_regs a)) < class v /\ (forall u, wmem (isr a) u = true -> class u < class v).
Proof.
  intros Ha He Hv. unfold eligible in He. destruct (members (irr a)) as [|x xs] eqn:Hm; [done|].
  destruct (_ && _) eqn:Hc; [|done]. subst x. apply andb_true_iff in Hc as [_ Hc]. apply Z.ltb_lt in Hc.
  pose proof (members_below_sorted 240 (irr a)) as Hs. fold (members (irr a)) in Hs. rewrite Hm in Hs.
  inversion Hs as [|? ? _ Hlt]; subst. rewrite Forall_forall in Hlt. split_and!; [|intros u Hu|lia|intros u Hu].
  - by eapply head_member; [apply Ha|].
  - apply elem_members in Hu; [|apply Ha]. rewrite Hm in Hu. apply elem_of_cons in Hu as [->|Hu]; [lia|].
    specialize (Hlt u Hu). lia.
  - rewrite serving_class in Hc. apply elem_members in Hu; [|apply Ha].
    pose proof (members_below_sorted 240 (isr a)) as Hs'. fold (members (isr a)) in Hs'.
    destruct (members (isr a)) as [|y ys]; [by apply not_elem_of_nil in Hu|]. inversion Hs' as [|? ? _ Hlt']; subst.
    rewrite Forall_forall in Hlt'. cbn in Hc. assert (u <= y) as Huy.
    { apply elem_of_cons in Hu as [->|Hu]; [lia|]. specialize (Hlt' u Hu). lia. }
    assert (class u <= class y) by (apply Z.div_le_mono; lia). lia.
Qed.

Lemma class_lt u v : class u < class v -> u < v.
Proof. unfold class. intros. Z.div_mod_to_equations. lia. Qed.

(** The effect of an acceptance. *)
Definition accepted (a : apic) (v : Z) (a' : apic) : Prop :=
  in_service a' = (v, wmem (irr_level a) v) :: in_service a /\
  (forall u, wmem (irr a') u = negb (v =? u) && wmem (irr a) u) /\
  (forall u, wmem (irr_level a') u = negb (v =? u) && wmem (irr_level a) u) /\
  (forall u, wmem (tmr a') u = if v =? u then wmem (irr_level a) v else wmem (tmr a) u) /\
  a_regs a' = a_regs a /\ apic_id a' = apic_id a /\ now a' = now a.

Lemma tmr_not_serving a v : apic_ok a -> wmem (isr a) v = false -> wmem (tmr a) v = false.
Proof. intros Ha Hi. destruct (wmem (tmr a) v) eqn:Ht; [|done]. by rewrite (ao_mode a Ha v Ht) in Hi. Qed.

Lemma in_service_ext a a' vs :
  members (isr a') = vs -> (forall u, u ∈ vs -> wmem (tmr a') u = wmem (tmr a) u) ->
  in_service a' = (fun v => (v, wmem (tmr a) v)) <$> vs.
Proof. intros <- Ht. unfold in_service. apply list_fmap_ext. intros i u Hu. f_equal. apply Ht. by eapply list_elem_of_lookup_2. Qed.

Lemma accept_step a v :
  apic_ok a -> eligible a = v -> 16 <= v < 256 ->
  exists requests service modes levels,
    wclear (irr a) v = Some requests /\ wset (isr a) v = Some service /\
    (if wmem (irr_level a) v then wset (tmr a) v else wclear (tmr a) v) = Some modes /\
    wclear (irr_level a) v = Some levels /\
    let a' := set_service_bits service modes (set_requests requests levels a) in
    apic_ok a' /\ accepted a v a'.
Proof.
  intros Ha He Hv. destruct (eligible_spec a v Ha He ltac:(lia)) as (Hreq & _ & Htp & Hcl).
  destruct (vectors_clear (irr a) v (ao_irr a Ha) ltac:(lia)) as (l1 & H1 & Hok1 & Hu1).
  destruct (vectors_set (isr a) v (ao_isr a Ha) Hv) as (l2 & H2 & Hok2 & Hu2).
  destruct (vectors_clear (irr_level a) v (ao_irr_level a Ha) ltac:(lia)) as (l4 & H4 & Hok4 & Hu4).
  assert (Hm : exists l3, (if wmem (irr_level a) v then wset (tmr a) v else wclear (tmr a) v) = Some l3 /\ vectors_ok l3 /\
    forall u, wmem l3 u = if v =? u then wmem (irr_level a) v else wmem (tmr a) u).
  { destruct (wmem (irr_level a) v).
    - destruct (vectors_set (tmr a) v (ao_tmr a Ha) Hv) as (l3 & H3 & Hok3 & Hu3). exists l3. split_and!; [done..|].
      intros u. rewrite Hu3. by destruct (v =? u).
    - destruct (vectors_clear (tmr a) v (ao_tmr a Ha) ltac:(lia)) as (l3 & H3 & Hok3 & Hu3). exists l3. split_and!; [done..|].
      intros u. rewrite Hu3. by destruct (v =? u). }
  destruct Hm as (l3 & H3 & Hok3 & Hu3). exists l1, l2, l3, l4. split_and!; [done..|]. cbn zeta. split.
  - destruct Ha. split; cbn; auto.
    + intros u. rewrite Hu4, Hu1, !andb_true_iff. intros [? ?]. auto.
    + intros u. rewrite Hu3, Hu2. destruct (v =? u); [done|]. apply ao_mode0.
    + intros x y. rewrite !Hu2, !orb_true_iff, !Z.eqb_eq. intros [<-|Hx] [<-|Hy] Hc; auto.
      * specialize (Hcl y Hy). lia.
      * specialize (Hcl x Hx). lia.
  - unfold accepted. cbn. split_and!; auto.
    assert (Hnew : members l2 = v :: members (isr a)).
    { eapply members_push; [apply Ha|done|done|]. intros u Hu. by apply class_lt, Hcl. }
    unfold in_service. cbn. rewrite Hnew. cbn. rewrite Hu3, Z.eqb_refl. f_equal.
    apply list_fmap_ext. intros i u Hu. f_equal. rewrite Hu3. destruct (Z.eqb_spec v u) as [<-|]; [|done].
    apply list_elem_of_lookup_2, elem_members in Hu; [|apply Ha]. specialize (Hcl v Hu). lia.
Qed.

Lemma accept_ok a v :
  apic_ok a -> 0 <= v ->
  exists b a', aos_x86_apic_accept a v = Some (b, a') /\ apic_ok a' /\
    if (b : bool) then eligible a = v /\ 16 <= v < 256 /\ invalid_vector a = false /\ accepted a v a' else a' = a.
Proof.
  intros Ha Hv0. unfold aos_x86_apic_accept. destruct (Z.eqb_spec v 0) as [|Hz]; [by exists false, a|].
  destruct (Z.leb_spec 256 v) as [|Hlt]; [by exists false, a|]. cbn [orb]. pose proof (ao_now a Ha) as Hn. unfold is_u64 in Hn.
  destruct (pending_eq a (now a) Ha ltac:(lia)) as (a0 & Hadv & ->). rewrite advance_now in Hadv by done. injection Hadv as <-.
  cbn [mbind option_bind]. destruct (invalid_vector a).
  { unfold AOS_X86_APIC_INVALID_VECTOR. destruct (Z.eqb_spec v 256); [lia|]. by exists false, a. }
  destruct (Z.eqb_spec v (eligible a)) as [He|]; cbn [negb]; [|by exists false, a].
  assert (Hr : 16 <= v < 256).
  { destruct (eligible_spec a v Ha (eq_sym He) Hz) as (Hreq & _). apply (vector_range (irr a)); [apply Ha|done]. }
  destruct (accept_step a v Ha (eq_sym He) Hr) as (l1 & l2 & l3 & l4 & -> & -> & H3 & H4 & Hok & Hacc).
  cbn [mbind option_bind]. rewrite vectors_get by (apply Ha || lia). cbn [mbind option_bind]. rewrite H3. cbn [mbind option_bind].
  rewrite H4. cbn [mbind option_bind]. eexists true, _. split; [done|]. split; [done|]. done.
Qed.

Lemma route_ok a v dest logical level :
  apic_ok a ->
  exists b a', aos_x86_apic_route a v dest logical level = Some (b, a') /\ apic_ok a' /\
    if (b : bool) then
      16 <= v < 256 /\ aos_x86_apic_destination a dest logical = true /\ frame (set_requests (irr a) (irr_level a') a) a' /\
      now a' = now a /\
      (forall u, wmem (irr a') u = (v =? u) || wmem (irr a) u) /\
      (forall u, wmem (irr_level a') u = (level && (v =? u)) || wmem (irr_level a) u)
    else a' = a.
Proof.
  intros Ha. unfold aos_x86_apic_route. destruct (Z.ltb_spec v 16) as [|H1]; [by exists false, a|].
  destruct (Z.ltb_spec 255 v) as [|H2]; [by exists false, a|]. cbn [orb]. destruct (flag _ _); [|by exists false, a]. cbn [negb orb].
  destruct (aos_x86_apic_destination a dest logical) eqn:Hd; [|by exists false, a]. cbn [negb].
  destruct (vectors_set (irr a) v (ao_irr a Ha) ltac:(lia)) as (l1 & -> & Hok1 & Hu1). cbn [mbind option_bind].
  assert (Hl : exists l2, (if level then wset (irr_level a) v else Some (irr_level a)) = Some l2 /\ vectors_ok l2 /\
    forall u, wmem l2 u = (level && (v =? u)) || wmem (irr_level a) u).
  { destruct level; [|exists (irr_level a); split_and!; [done|apply Ha|done]].
    destruct (vectors_set (irr_level a) v (ao_irr_level a Ha) ltac:(lia)) as (l2 & ? & ? & ?). by exists l2. }
  destruct Hl as (l2 & -> & Hok2 & Hu2). eexists true, _. split; [done|].
  assert (Hsub : forall u, wmem (irr a) u = true -> wmem l1 u = true). { intros u Hu. rewrite Hu1, Hu. apply orb_true_r. }
  split; [|unfold frame; cbn; split_and!; done || lia || auto]. destruct Ha. split; cbn; auto.
  intros u. rewrite Hu1, Hu2, !orb_true_iff, andb_true_iff. intros [[_ ?]|?]; auto.
Qed.

(** The effect of an end of interrupt. *)
Definition ended (a a' : apic) : Prop :=
  in_service a' = tail (in_service a) /\
  a_regs a' = a_regs a /\ irr a' = irr a /\ irr_level a' = irr_level a /\ apic_id a' = apic_id a /\ now a' = now a /\
  (forall u, wmem (tmr a') u = negb (bool_decide (fst <$> head (in_service a) = Some u)) && wmem (tmr a) u).

Lemma end_of_interrupt_ok a :
  apic_ok a -> exists a', end_of_interrupt a = Some a' /\ apic_ok a' /\ ended a a'.
Proof.
  intros Ha. unfold end_of_interrupt. rewrite highest_members by apply Ha. cbn [mbind option_bind].
  destruct (members (isr a)) as [|v vs] eqn:Hm; [|change (default 0 (head (v :: vs))) with v].
  { exists a. split; [done|]. split; [done|]. unfold ended, in_service. by rewrite Hm. }
  pose proof (head_member _ v vs (ao_isr a Ha) Hm) as Hv. pose proof (vector_range _ v (ao_isr a Ha) Hv) as Hr.
  rewrite (proj2 (Z.eqb_neq v 0)) by lia.
  destruct (vectors_clear (isr a) v (ao_isr a Ha) ltac:(lia)) as (l1 & -> & Hok1 & Hu1).
  destruct (vectors_clear (tmr a) v (ao_tmr a Ha) ltac:(lia)) as (l2 & -> & Hok2 & Hu2). cbn [mbind option_bind].
  eexists. split; [done|]. split.
  - destruct Ha. split; cbn; auto.
    + intros u. rewrite Hu1, Hu2, !andb_true_iff. intros [? ?]. auto.
    + intros x y. rewrite !Hu1, !andb_true_iff. intros [_ ?] [_ ?]. auto.
  - unfold ended. cbn. assert (Hh : in_service a = (v, wmem (tmr a) v) :: ((fun v => (v, wmem (tmr a) v)) <$> vs)).
    { unfold in_service. by rewrite Hm. }
    rewrite Hh. cbn. split_and!; [|done..|].
    + apply (in_service_ext a _ vs); cbn; [apply (members_pop (isr a) l1 v vs); [apply Ha|done..]|]. intros u Hu. rewrite Hu2.
      pose proof (members_below_sorted 240 (isr a)) as Hs. fold (members (isr a)) in Hs. rewrite Hm in Hs.
      inversion Hs as [|? ? _ Hlt]; subst. rewrite Forall_forall in Hlt. specialize (Hlt u Hu).
      by destruct (Z.eqb_spec v u); [lia|].
    + intros u. rewrite Hu2. do 2 f_equal. destruct (Z.eqb_spec v u) as [->|]; case_bool_decide; congruence.
Qed.

Lemma eoi_vector_eq a :
  apic_ok a -> aos_x86_apic_eoi_vector a = Some (match in_service a with (v, true) :: _ => v | _ => 0 end).
Proof.
  intros Ha. unfold aos_x86_apic_eoi_vector. rewrite highest_members by apply Ha. cbn [mbind option_bind].
  rewrite vectors_get by (apply Ha || (apply highest_range; apply Ha)). cbn [mbind option_bind]. f_equal. unfold in_service.
  destruct (members (isr a)) as [|v vs]; cbn; [|by destruct (wmem (tmr a) v)].
  by destruct (wmem (tmr a) 0).
Qed.

(** ** The register page keeps the state well formed *)

Lemma put_reg_ok a r v :
  apic_ok a -> masked (reg_mask r) v -> r <> INITIAL -> r <> DIVIDE -> apic_ok (set_regs (put_reg r v (a_regs a)) a).
Proof.
  intros Ha Hv Hi Hd. destruct Ha as [Hr Hdf Hic Hn Hp Hc H1 H2 H3 H4 H5 H6 H7 H8].
  assert (Hrest : dfr (put_reg r v (a_regs a)) = dfr (a_regs a) /\ icr_low (put_reg r v (a_regs a)) = icr_low (a_regs a) /\
    divide (put_reg r v (a_regs a)) = divide (a_regs a) /\ initial (put_reg r v (a_regs a)) = initial (a_regs a)).
  { destruct (a_regs a), r; try done. }
  destruct Hrest as (E1 & E2 & E3 & E4). split; cbn [a_regs set_regs now phase counter irr isr irr_level tmr apic_id]; auto.
  - intros r'. rewrite get_put_reg. case_bool_decide; [by subst|done].
  - by rewrite E1.
  - by rewrite E2.
  - unfold divisor in *. by rewrite E3.
  - by rewrite E4.
Qed.

Lemma put_initial_ok a v p :
  apic_ok a -> masked UINT32_MAX v -> 0 <= p < divisor (a_regs a) ->
  apic_ok (set_clock (now a) p v (set_regs (put_reg INITIAL v (a_regs a)) a)).
Proof.
  intros [Hr Hdf Hic Hn Hp Hc H1 H2 H3 H4 H5 H6 H7 H8] Hv Hp0. destruct Hv as [Hv Hf].
  split; cbn [a_regs set_regs set_clock now phase counter irr isr irr_level tmr apic_id]; auto; destruct (a_regs a); cbn in *; auto.
  - intros r. specialize (Hr r). destruct r; try done.
  - unfold is_u32 in Hv. lia.
Qed.

Lemma put_divide_ok a v :
  apic_ok a -> masked 0xb v ->
  apic_ok (set_regs (put_reg DIVIDE v (a_regs a)) (if v =? divide (a_regs a) then a else set_clock (now a) 0 (counter a) a)).
Proof.
  intros [Hr Hdf Hic Hn Hp Hc H1 H2 H3 H4 H5 H6 H7 H8] Hv. destruct (Z.eqb_spec v (divide (a_regs a))) as [He|Hne];
    (split; cbn [a_regs set_regs set_clock now phase counter irr isr irr_level tmr apic_id]; auto);
    destruct (a_regs a) eqn:Hg; cbn in *; auto.
  - intros r. specialize (Hr r). destruct r; try done.
  - by subst.
  - intros r. specialize (Hr r). destruct r; try done.
  - match goal with |- context [divisor ?g] => pose proof (divisor_bound g) end. lia.
Qed.

(** What an access leaves alone, but for an end of interrupt. *)
Definition quiet (a a' : apic) : Prop :=
  isr a' = isr a /\ tmr a' = tmr a /\ (forall v, wmem (irr_level a') v = wmem (irr_level a) v) /\
  apic_id a' = apic_id a /\ bootstrap a' = bootstrap a /\ now a' = now a.

Lemma io_register_ok a r off write value v a' :
  apic_ok a -> is_u32 value -> register off = Some r ->
  io_register a r off write value = Some (v, a') -> apic_ok a' /\ is_u32 v /\ quiet a a'.
Proof.
  intros Ha Hv Hoff. unfold io_register. destruct write; [|intros [= <- <-]; split_and!; [done|apply Ha|done]].
  destruct (flag value _) eqn:Hf; [done|]. intros [= <- <-]. assert (Hm : masked (reg_mask r) value) by done.
  destruct (decide (r = INITIAL)) as [->|Hi]; [|destruct (decide (r = DIVIDE)) as [->|Hd]].
  - assert (off = 0x380) as ->. { unfold register in Hoff. repeat case_match; simplify_eq; by apply Z.eqb_eq. }
    cbn [Z.eqb Pos.eqb andb]. split_and!; [|done|done]. pose proof (ao_phase a Ha). apply put_initial_ok; [done|done|lia].
  - assert (off = 0x3e0) as ->. { unfold register in Hoff. repeat case_match; simplify_eq; by apply Z.eqb_eq. }
    cbn [Z.eqb Pos.eqb andb]. cbn [get_reg]. pose proof (put_divide_ok a value Ha Hm) as Hok.
    destruct (value =? divide (a_regs a)); cbn [negb]; done.
  - assert (off =? 0x3e0 = false /\ off =? 0x380 = false) as [-> ->].
    { split; apply not_true_is_false; intros ->%Z.eqb_eq; vm_compute in Hoff; congruence. }
    cbn [andb]. split_and!; [by apply put_reg_ok|done..].
Qed.

Lemma put_dfr_ok a v :
  apic_ok a -> v = 0x0fffffff \/ v = UINT32_MAX -> apic_ok (set_regs (put_dfr v (a_regs a)) a).
Proof. intros [Hr ? ? ? ? ? ? ? ? ? ? ? ? ?] Hv. split; cbn; auto. Qed.

Lemma put_icr_low_ok a v : apic_ok a -> is_u32 v -> apic_ok (set_regs (put_icr_low v (a_regs a)) a).
Proof. intros [Hr ? ? ? ? ? ? ? ? ? ? ? ? ?] Hv. split; cbn; auto. Qed.

Lemma dfr_values value : is_u32 value -> Z.shiftr value 28 = 0 \/ Z.shiftr value 28 = 15 ->
  Z.lor value 0x0fffffff = 0x0fffffff \/ Z.lor value 0x0fffffff = UINT32_MAX.
Proof.
  intros Hv Hs. rewrite (Z.shiftr_div_pow2 value 28) in Hs by lia. unfold is_u32 in Hv.
  assert (Hsplit : value = (value / 2 ^ 28) * 2 ^ 28 + value mod 2 ^ 28) by (rewrite Z.mul_comm; apply Z.div_mod; lia).
  assert (Hor : Z.lor value 0x0fffffff = Z.lor (Z.shiftl (value / 2 ^ 28) 28) (Z.ones 28)).
  { change 0x0fffffff with (Z.ones 28). apply Z.bits_inj'. intros i Hi. rewrite !Z.lor_spec, Z.testbit_ones by lia.
    rewrite (proj2 (Z.leb_le 0 i)) by lia. cbn [andb]. destruct (Z.ltb_spec i 28); [by rewrite !orb_true_r|].
    rewrite !orb_false_r, Z.shiftl_spec, Z.div_pow2_bits by lia. f_equal. lia. }
  rewrite Hor. destruct Hs as [-> | ->]; [left|right]; done.
Qed.

Lemma is_u32_byte v : 0 <= v < 256 -> is_u32 v.
Proof. unfold is_u32. lia. Qed.

Lemma io_command_ok a value :
  apic_ok a -> is_u32 value ->
  exists r, io_command a value = Some r /\ forall v a', r = Some (v, a') -> apic_ok a' /\ is_u32 v /\ quiet a a'.
Proof.
  intros Ha Hv. unfold io_command. destruct (_ || _); [by exists None|]. destruct (_ =? 3).
  { cbn. eexists. split; [done|]. intros v a' [= <- <-]. split_and!; [by apply put_icr_low_ok|done..]. }
  destruct (route_ok a (Z.land value 255) (if Z.land (Z.shiftr value 18) 3 =? 0 then Z.shiftr (icr_high (a_regs a)) 24 else apic_id a)
    ((Z.land (Z.shiftr value 18) 3 =? 0) && flag value 0x800) false Ha) as (b & a1 & -> & Hok & Heff). cbn [mbind option_bind].
  eexists. split; [done|]. intros v a' [= <- <-]. split; [by apply put_icr_low_ok|]. split; [done|].
  destruct b; [|by subst]. destruct Heff as (_ & _ & (_ & E1 & E2 & _ & E3 & E4 & _) & E5 & _ & El).
  cbn in *. unfold quiet. cbn. split_and!; done.
Qed.

Lemma word_u32 l i w : vectors_ok l -> aget l i = Some w -> is_u32 w.
Proof. intros [[_ Hl] _] [_ Hw]%aget_Some. by eapply Forall_lookup_1. Qed.

Lemma word_read l off :
  vectors_ok l -> forall base, base <= off <= base + 0x70 -> exists w, aget l ((off - base) / 16) = Some w /\ is_u32 w.
Proof.
  intros Hl base Ho. destruct (aget_lt l ((off - base) / 16)) as [w Hw].
  { destruct Hl as [[-> _] _]. Z.div_mod_to_equations. lia. }
  exists w. split; [done|]. by eapply word_u32.
Qed.

Lemma io_bits_ok a off write :
  apic_ok a -> exists r, io_bits a off write = Some r /\ forall v a', r = Some (v, a') -> a' = a /\ is_u32 v.
Proof.
  intros Ha. unfold io_bits. destruct (_ || _); [by exists None|].
  destruct (_ && _) eqn:H1; [|clear H1; destruct (_ && _) eqn:H1; [|clear H1; destruct (_ && _) eqn:H1; [|by exists None]]];
    apply andb_true_iff in H1 as [?%Z.leb_le ?%Z.leb_le].
  - destruct (word_read (isr a) off (ao_isr a Ha) 0x100) as (w & -> & Hw); [lia|]. eexists. split; [done|]. intros v a' [= <- <-]. done.
  - destruct (word_read (tmr a) off (ao_tmr a Ha) 0x180) as (w & -> & Hw); [lia|]. eexists. split; [done|]. intros v a' [= <- <-]. done.
  - destruct (word_read (irr a) off (ao_irr a Ha) 0x200) as (w & -> & Hw); [lia|]. eexists. split; [done|]. intros v a' [= <- <-]. done.
Qed.

Lemma priority_u32 a p : apic_ok a -> priority a = Some p -> is_u32 p.
Proof.
  intros Ha. unfold priority. rewrite highest_members by apply Ha. intros [= <-]. destruct (_ <=? _); [apply (ao_regs a Ha TPR)|].
  apply is_u32_land; [|lia]. apply is_u32_byte, highest_range, Ha.
Qed.

Lemma apic_quiet_refl a : quiet a a.
Proof. done. Qed.

(** One access that is not through a pointer. *)
Lemma io_other_ok a off write value :
  apic_ok a -> is_u32 value ->
  exists r, io_other a off write value = Some r /\ forall v a', r = Some (v, a') ->
    apic_ok a' /\ is_u32 v /\ (off <> 0xb0 -> quiet a a') /\ (off = 0xb0 -> write = true /\ value = 0 /\ ended a a').
Proof.
  intros Ha Hv. unfold io_other. cbn zeta.
  assert (Hread : forall x, is_u32 x -> off <> 0xb0 ->
    exists r : option (Z * apic), Some (if write then None else Some (x, a)) = Some r /\ forall v a', r = Some (v, a') ->
      apic_ok a' /\ is_u32 v /\ (off <> 0xb0 -> quiet a a') /\ (off = 0xb0 -> write = true /\ value = 0 /\ ended a a')).
  { intros x Hx Ho. eexists. split; [done|]. intros v a'. destruct write; [done|]. intros [= <- <-]. split_and!; try done. }
  assert (Hkeep : forall x, is_u32 x -> off <> 0xb0 ->
    exists r : option (Z * apic), Some (Some (x, a)) = Some r /\ forall v a', r = Some (v, a') ->
      apic_ok a' /\ is_u32 v /\ (off <> 0xb0 -> quiet a a') /\ (off = 0xb0 -> write = true /\ value = 0 /\ ended a a')).
  { intros x Hx Ho. eexists. split; [done|]. intros v a' [= <- <-]. split_and!; try done. }
  destruct (Z.eqb_spec off 0x20) as [->|_]; [apply Hread; [apply u32_range|done]|].
  destruct (Z.eqb_spec off 0x30) as [->|_]; [by apply Hread|].
  destruct (Z.eqb_spec off 0xe0) as [->|_].
  { destruct write; [|apply Hkeep; [destruct (ao_dfr a Ha) as [-> | ->]|]; done].
    destruct (negb _ && _) eqn:Hd; [by exists None|]. eexists. split; [done|]. intros v a' [= <- <-].
    split_and!; [|done|done|done]. apply put_dfr_ok; [done|]. apply dfr_values; [done|].
    rewrite andb_false_iff, !negb_false_iff, !Z.eqb_eq in Hd. done. }
  destruct (Z.eqb_spec off 0xa0) as [->|_].
  { destruct write; [by exists None|]. destruct (priority_spec a Ha) as (p & Hp & _). rewrite Hp. cbn [mbind option_bind].
    apply Hkeep; [by eapply priority_u32|done]. }
  destruct (Z.eqb_spec off 0xb0) as [->|Hb].
  { destruct write; [|by exists None]. cbn [negb orb]. destruct (Z.eqb_spec value 0) as [->|]; [|by exists None]. cbn [negb].
    destruct (end_of_interrupt_ok a Ha) as (a1 & -> & Hok & He). cbn. eexists. split; [done|]. intros v a' [= <- <-]. done. }
  destruct (_ =? 0x280).
  { destruct (_ && _); [by exists None|]. by apply Hkeep. }
  destruct (_ =? 0x300).
  { destruct write; [|apply Hkeep; [apply Ha|done]]. destruct (io_command_ok a value Ha Hv) as (r & -> & Hr).
    exists r. split; [done|]. intros v a' E. destruct (Hr v a' E) as (? & ? & ?). split_and!; done. }
  destruct (_ =? 0x390).
  { apply Hread; [|done]. pose proof (ao_counter a Ha). pose proof (initial_u32 a Ha). unfold is_u32. lia. }
  destruct (io_bits_ok a off write Ha) as (r & -> & Hr). exists r. split; [done|].
  intros v a' E. destruct (Hr v a' E) as [-> ?]. split_and!; done.
Qed.

Lemma advance_in_service a a1 t : apic_ok a -> now a <= t < 2 ^ 64 -> advance a t = Some a1 -> in_service a1 = in_service a.
Proof.
  intros Ha Ht Hadv. destruct (advance_ok a t Ha Ht) as (a' & Hadv' & _ & (_ & E1 & E2 & _) & _).
  rewrite Hadv in Hadv'. injection Hadv' as <-. unfold in_service. by rewrite E1, E2.
Qed.

Lemma io_ok a off write value t :
  apic_ok a -> is_u32 value -> is_u64 t ->
  exists r, aos_x86_apic_io a off write value t = Some r /\ forall v a', r = Some (v, a') ->
    now a <= t /\ apic_ok a' /\ is_u32 v /\
    exists a1, advance a t = Some a1 /\ frame a a1 /\ (off <> 0xb0 -> quiet a1 a') /\
      (off = 0xb0 -> write = true /\ value = 0 /\ ended a1 a').
Proof.
  intros Ha Hv Ht. unfold aos_x86_apic_io. destruct (Z.ltb_spec t (now a)) as [|Hle]; [by exists None|].
  destruct (advance_ok a t Ha ltac:(unfold is_u64 in Ht; lia)) as (a1 & -> & Hok1 & Hfr & _ & _). cbn [mbind option_bind].
  destruct (register off) as [reg|] eqn:Hr.
  - eexists. split; [done|]. intros v a' E. destruct (io_register_ok a1 reg off write value v a' Hok1 Hv Hr E) as (? & ? & ?).
    split_and!; [done..|]. exists a1. split_and!; [done..|]. intros ->. by vm_compute in Hr.
  - destruct (io_other_ok a1 off write value Hok1 Hv) as (r & -> & Hio). exists r. split; [done|].
    intros v a' E. destruct (Hio v a' E) as (? & ? & ? & ?). split_and!; [done..|]. exists a1. split_and!; done.
Qed.

Lemma init_cpu_ok t id bsp a : is_u64 t -> 0 <= id -> aos_x86_apic_init_cpu t id bsp = Some a -> apic_ok a.
Proof.
  intros Ht Hid. unfold aos_x86_apic_init_cpu. destruct (Z.leb_spec 255 id); [done|]. intros [= <-].
  pose proof vectors_empty as Hv. split; cbn [a_regs now phase counter irr isr irr_level tmr apic_id]; try done.
  - intros r. by destruct r; vm_compute.
  - by right.
  - intros u v. by rewrite (wmem_empty 8).
  - unfold u8. rewrite Z.mod_small by lia. lia.
Qed.

(** ** Operations *)

Inductive apic_op :=
  | OpIo (off : Z) (write : bool) (value t : Z)
  | OpPending (t : Z)
  | OpAccept (v : Z)
  | OpRoute (v dest : Z) (logical level : bool).

(** The arguments have the types of the C code. *)
Definition op_ok (o : apic_op) : Prop :=
  match o with
  | OpIo off _ value t => is_u32 off /\ is_u32 value /\ is_u64 t
  | OpPending t => is_u64 t
  | OpAccept v => is_u32 v
  | OpRoute v dest _ _ => is_u32 v /\ is_u32 dest
  end.

Definition run_op (a : apic) (o : apic_op) : option apic :=
  match o with
  | OpIo off write value t => r ← aos_x86_apic_io a off write value t; Some (from_option snd a r)
  | OpPending t => '(_, a') ← aos_x86_apic_pending a t; Some a'
  | OpAccept v => '(_, a') ← aos_x86_apic_accept a v; Some a'
  | OpRoute v dest logical level => '(_, a') ← aos_x86_apic_route a v dest logical level; Some a'
  end.

Fixpoint run_ops (a : apic) (os : list apic_op) : option apic :=
  match os with [] => Some a | o :: os => a' ← run_op a o; run_ops a' os end.

Lemma run_op_ok a o : apic_ok a -> op_ok o -> exists a', run_op a o = Some a' /\ apic_ok a'.
Proof.
  intros Ha Ho. destruct o as [off write value t|t|v|v dest logical level]; cbn [run_op op_ok] in *.
  - destruct Ho as (_ & Hv & Ht). destruct (io_ok a off write value t Ha Hv Ht) as (r & -> & Hr). cbn. eexists. split; [done|].
    destruct r as [[v a']|]; [|done]. cbn. by destruct (Hr v a' eq_refl) as (_ & ? & _).
  - destruct (Z.ltb_spec t (now a)) as [Hlt|Hle].
    + unfold aos_x86_apic_pending. rewrite (proj2 (Z.ltb_lt _ _) Hlt). by exists a.
    + destruct (advance_ok a t Ha) as (a' & Hadv & Hok & _); [unfold is_u64 in Ho; lia|].
      destruct (pending_eq a t Ha) as (a1 & Hadv1 & ->); [unfold is_u64 in Ho; lia|].
      rewrite Hadv in Hadv1. injection Hadv1 as <-. by exists a'.
  - destruct (accept_ok a v Ha) as (b & a' & -> & Hok & _); [apply Ho|]. by exists a'.
  - destruct (route_ok a v dest logical level Ha) as (b & a' & -> & Hok & _). by exists a'.
Qed.

Lemma run_ops_ok a os : apic_ok a -> Forall op_ok os -> exists a', run_ops a os = Some a' /\ apic_ok a'.
Proof.
  revert a. induction os as [|o os IH]; intros a Ha Hos; [by exists a|]. apply Forall_cons in Hos as [Ho Hos]. cbn [run_ops].
  destruct (run_op_ok a o Ha Ho) as (a1 & -> & Hok1). by apply IH.
Qed.

(** ** Theorems *)

(** C39. A virtual local APIC that starts from reset stays well formed, and
    none of its operations leaves an array, whatever accesses the guest
    makes, whatever is routed to it and whenever it is polled: every register
    keeps to its writable bits, the prescaler stays below the divisor, the
    counter below the initial count, only vectors from 16 to 255 are
    requested or in service, level and mode bits are set for those only, and
    no two vectors in service share a priority class. *)
Theorem apic_invariant t id bsp a os :
  is_u64 t -> 0 <= id -> aos_x86_apic_init_cpu t id bsp = Some a -> Forall op_ok os ->
  exists a', run_ops a os = Some a' /\ apic_ok a'.
Proof.
  intros Ht Hid Hinit Hos. apply run_ops_ok; [|done]. by apply (init_cpu_ok t id bsp).
Qed.

(** C13. The timer is exact and independent of how often it is looked at:
    advancing the clock by [n] ticks in one go equals [n] single ticks of the
    prescaler and the counter, and a poll on the way changes neither the
    state nor the vector that a later poll finds. *)
Theorem apic_timer_exact a n :
  apic_ok a -> now a + Z.of_nat n < 2 ^ 64 ->
  advance a (now a + Z.of_nat n) = ticking n a /\
  forall t v a1, now a <= t <= now a + Z.of_nat n -> aos_x86_apic_pending a t = Some (v, a1) ->
    aos_x86_apic_pending a1 (now a + Z.of_nat n) = aos_x86_apic_pending a (now a + Z.of_nat n).
Proof.
  intros Ha Hn. split; [by apply advance_ticking|]. intros t v a1 Ht Hp.
  destruct (pending_eq a t Ha ltac:(lia)) as (a1' & Hadv & Hp'). rewrite Hp in Hp'. injection Hp' as _ <-.
  destruct (advance_ok a t Ha ltac:(lia)) as (a1' & Hadv' & Hok1 & _ & Hn1 & _). rewrite Hadv in Hadv'. injection Hadv' as <-.
  pose proof (advance_add a a1 t (now a + Z.of_nat n) Ha ltac:(lia) Hn Hadv) as Hadd.
  unfold aos_x86_apic_pending. rewrite Hadd. rewrite !(proj2 (Z.ltb_ge _ _)) by lia. done.
Qed.

(** C29. The in-service registers are a stack of nested interrupts. Accepting
    an interrupt pushes its vector with its trigger mode, and only a vector
    whose priority class is above the task priority and above all classes in
    service is accepted; an end of interrupt pops the last one accepted;
    [eoi_vector] is the top if it was level-triggered. *)
Theorem apic_service_stack a :
  apic_ok a ->
  (forall v a', 0 <= v -> aos_x86_apic_accept a v = Some (true, a') ->
     in_service a' = (v, wmem (irr_level a) v) :: in_service a /\
     wmem (irr a) v = true /\ (forall u, wmem (irr a) u = true -> u <= v) /\
     class (tpr (a_regs a)) < class v /\ Forall (fun x => class x.1 < class v) (in_service a)) /\
  (forall t x a', now a <= t < 2 ^ 64 -> aos_x86_apic_io a 0xb0 true 0 t = Some (Some (x, a')) ->
     in_service a' = tail (in_service a)) /\
  aos_x86_apic_eoi_vector a = Some (match in_service a with (v, true) :: _ => v | _ => 0 end).
Proof.
  intros Ha. split_and!; [|intros t x a' Ht Hio|by apply eoi_vector_eq].
  - intros v a' Hv Hacc. destruct (accept_ok a v Ha Hv) as (b & a1 & Hacc' & _ & Heff). rewrite Hacc in Hacc'. injection Hacc' as <- <-.
    destruct Heff as (He & Hr & _ & (Hs & _)). destruct (eligible_spec a v Ha He ltac:(lia)) as (? & ? & ? & Hcl).
    split_and!; [done..|]. apply Forall_forall. intros [u l] (u' & [= -> _] & Hu)%list_elem_of_fmap. cbn.
    apply Hcl, elem_members; [apply Ha|done].
  - destruct (io_ok a 0xb0 true 0 t Ha) as (r & Hr & Heff); [done|unfold is_u64; pose proof (ao_now a Ha) as Hn; unfold is_u64 in Hn; lia|].
    rewrite Hio in Hr. injection Hr as <-. destruct (Heff x a' eq_refl) as (_ & _ & _ & a1 & Hadv & _ & _ & He).
    destruct (He eq_refl) as (_ & _ & (-> & _)). by rewrite (advance_in_service a a1 t).
Qed.

(** ** An instance *)

(** Enabled, with a periodic timer of ten counts that divides by two, and a
    level-triggered interrupt of vector 65 routed to it. *)
Definition example_ops : list apic_op :=
  [OpIo 0xf0 true 0x1ff 5; OpIo 0x320 true 0x20030 6; OpIo 0x3e0 true 0 7; OpIo 0x380 true 10 8; OpRoute 65 0 false true].

Lemma example_ops_ok : Forall op_ok example_ops.
Proof. repeat apply Forall_cons_2; try apply Forall_nil_2; vm_compute; intuition congruence. Qed.

Definition example_reset : apic := default inhabitant (aos_x86_apic_init_cpu 3 0 true).
Definition example_apic : apic := default example_reset (run_ops example_reset example_ops).

Lemma example_apic_ok : apic_ok example_apic.
Proof.
  assert (Hr : apic_ok example_reset) by (by apply (init_cpu_ok 3 0 true)).
  destruct (run_ops_ok example_reset example_ops Hr example_ops_ok) as (a' & Ha & Hok).
  unfold example_apic. by rewrite Ha.
Qed.

Lemma apic_invariant_witness : exists a', run_ops example_reset example_ops = Some a' /\ apic_ok a'.
Proof. apply (apic_invariant 3 0 true example_reset example_ops); [done|lia|done|apply example_ops_ok]. Defined.

(** Fifty ticks later the timer has expired twice. *)
Lemma apic_timer_exact_witness :
  advance example_apic (now example_apic + 50) = ticking 50 example_apic /\
  (fun a => (counter a, wmem (irr a) 0x30)) <$> ticking 50 example_apic = Some (5, true).
Proof.
  split; [|by vm_compute]. apply (apic_timer_exact example_apic 50); [apply example_apic_ok|by vm_compute].
Defined.

Definition example_accepted : apic := from_option snd example_apic (aos_x86_apic_accept example_apic 65).

Lemma apic_service_stack_witness :
  in_service example_accepted = (65, wmem (irr_level example_apic) 65) :: in_service example_apic /\
  in_service example_accepted = [(65, true)].
Proof.
  split; [|by vm_compute]. apply (apic_service_stack example_apic example_apic_ok); [lia|by vm_compute].
Defined.
