(* ===== verification/X86Ioapic.v ===== *)
(** * The I/O interrupt controller of an x86 guest

    [platform/guest-vmm/x86_ioapic.c] and its header: 24 inputs, each with a
    64-bit redirection entry that the guest programs through a selector and a
    window, and the words that keep which inputs are asserted, which edges
    are pending and which level interrupts await their end of interrupt.

    [None] is an access outside an array; a call that the C code refuses with
    [false] is [Some None] or [Some (false, s)]. *)

From S2P Require Import Prelude BitSet.
From stdpp Require Import options.

#[local] Open Scope Z_scope.

Definition AOS_X86_IOAPIC_BASE : Z := 0xfec00000.
Definition AOS_X86_IOAPIC_INPUTS : Z := 24.

Definition MASK : Z := Z.shiftl 1 16.
Definition LEVEL : Z := Z.shiftl 1 15.
Definition REMOTE : Z := Z.shiftl 1 14.

Record ioapic := mk_ioapic {
  redirection : list Z; asserted : Z; edge_pending : Z; remote_irr : Z;
  accepted_vector : list Z; selector : Z; ioapic_id : Z }.

Record ioapic_route := mk_route {
  rt_vector : Z; rt_destination : Z; rt_logical : bool; rt_level : bool }.

Definition set_redirection (l : list Z) (s : ioapic) : ioapic :=
  mk_ioapic l (asserted s) (edge_pending s) (remote_irr s) (accepted_vector s) (selector s) (ioapic_id s).
Definition set_lines (a e : Z) (s : ioapic) : ioapic :=
  mk_ioapic (redirection s) a e (remote_irr s) (accepted_vector s) (selector s) (ioapic_id s).
Definition set_remote (r : Z) (l : list Z) (s : ioapic) : ioapic :=
  mk_ioapic (redirection s) (asserted s) (edge_pending s) r l (selector s) (ioapic_id s).
Definition set_selector (v : Z) (s : ioapic) : ioapic :=
  mk_ioapic (redirection s) (asserted s) (edge_pending s) (remote_irr s) (accepted_vector s) v (ioapic_id s).

(** ** Operations *)

Definition aos_x86_ioapic_init (id : Z) : option ioapic :=
  if 15 <? id then None
  else Some (mk_ioapic (replicate 24 MASK) 0 0 0 (replicate 24 0) 0 (u8 id)).

(** The word written to half [shift] of an entry, or [None] when refused. *)
Definition write_data (shift data : Z) : option Z :=
  if negb (shift =? 0) then if flag data 0x00ffffff then None else Some data
  else if flag data (u32 (Z.lnot 0x0001ffff)) then None
  else
    let data := Z.land data (u32 (Z.lnot 0x5000)) in
    if (1 <? Z.land (Z.shiftr data 8) 7) || (negb (flag data MASK) && (Z.land data 255 <? 16)) then None
    else Some data.

(** An entry with half [shift] replaced. *)
Definition merge (old shift data : Z) : Z :=
  let part := u64 (Z.shiftl 0xffffffff shift) in
  Z.lor (Z.land old (u64 (Z.lnot part))) (u64 (Z.shiftl data shift)).

(** The access to a redirection entry, register [reg]. *)
Definition io_entry (s : ioapic) (reg : Z) (write : bool) (value : Z) : option (option (Z * ioapic)) :=
  let input := (reg - 0x10) / 2 in
  let shift := Z.land reg 1 * 32 in
  old ← aget (redirection s) input;
  if negb write then
    let readback := Z.lor old (if has_bit (remote_irr s) input then REMOTE else 0) in
    Some (Some (u32 (Z.shiftr readback shift), s))
  else
    match write_data shift value with
    | None => Some None
    | Some data => l ← aset (redirection s) input (merge old shift data); Some (Some (value, set_redirection l s))
    end.

(** The value and the state after, or [None] for [false], which changes
    neither. *)
Definition aos_x86_ioapic_io (s : ioapic) (offset : Z) (write : bool) (value : Z) : option (option (Z * ioapic)) :=
  if offset =? 0 then
    if write then Some (if 255 <? value then None else Some (value, set_selector (u8 value) s))
    else Some (Some (selector s, s))
  else if negb (offset =? 0x10) then Some None
  else
    let reg := selector s in
    if (reg =? 0) || (reg =? 2) then
      let id := u32 (Z.shiftl (ioapic_id s) 24) in
      Some (if write then if (reg =? 0) && (value =? id) then Some (value, s) else None else Some (id, s))
    else if reg =? 1 then
      Some (if write then None else Some (Z.lor (Z.shiftl (AOS_X86_IOAPIC_INPUTS - 1) 16) 0x11, s))
    else if (reg <? 0x10) || (0x10 + 2 * AOS_X86_IOAPIC_INPUTS <=? reg) then Some None
    else io_entry s reg write value.

Definition aos_x86_ioapic_set_irq (s : ioapic) (input : Z) (assert : bool) : option (bool * ioapic) :=
  if AOS_X86_IOAPIC_INPUTS <=? input then Some (false, s) else
  rte ← aget (redirection s) input;
  Some (true,
    if assert then
      set_lines (or_bit (asserted s) input)
        (if negb (has_bit (asserted s) input) && negb (flag rte (Z.lor MASK LEVEL))
         then or_bit (edge_pending s) input else edge_pending s) s
    else set_lines (clear_bit (asserted s) input) (edge_pending s) s).

Definition aos_x86_ioapic_route (s : ioapic) (input : Z) : option (option ioapic_route) :=
  if AOS_X86_IOAPIC_INPUTS <=? input then Some None else
  rte ← aget (redirection s) input;
  Some (if flag rte MASK || has_bit (remote_irr s) input || (Z.land rte 255 <? 16) ||
           negb (has_bit (if flag rte LEVEL then asserted s else edge_pending s) input)
        then None
        else Some (mk_route (u8 rte) (u8 (Z.shiftr rte 56)) (flag rte 0x800) (flag rte LEVEL))).

Definition aos_x86_ioapic_accept (s : ioapic) (input : Z) : option (bool * ioapic) :=
  r ← aos_x86_ioapic_route s input;
  match r with
  | None => Some (false, s)
  | Some route =>
      let s := set_lines (asserted s) (clear_bit (edge_pending s) input) s in
      if rt_level route then
        l ← aset (accepted_vector s) input (rt_vector route);
        Some (true, set_remote (or_bit (remote_irr s) input) l s)
      else Some (true, s)
  end.

(** The loop of [eoi] over [inputs]. *)
Fixpoint eoi_inputs (vector : Z) (inputs : list Z) (s : ioapic) : option ioapic :=
  match inputs with
  | [] => Some s
  | i :: inputs =>
      if has_bit (remote_irr s) i then
        v ← aget (accepted_vector s) i;
        eoi_inputs vector inputs
          (if v =? vector then set_remote (clear_bit (remote_irr s) i) (accepted_vector s) s else s)
      else eoi_inputs vector inputs s
  end.

Definition aos_x86_ioapic_eoi (s : ioapic) (vector : Z) : option ioapic :=
  if (vector <? 16) || (255 <? vector) then Some s else eoi_inputs vector (seqZ 0 AOS_X86_IOAPIC_INPUTS) s.

(** ** Well-formed states *)

(** An entry: unmasked only with a legal vector. *)
Definition rte_ok (r : Z) : Prop := is_u64 r /\ (flag r MASK = false -> 16 <= Z.land r 255).

Record ioapic_ok (s : ioapic) : Prop := {
  po_redirection : length (redirection s) = 24%nat;
  po_entries : Forall rte_ok (redirection s);
  po_asserted : is_u32 (asserted s);
  po_edge : is_u32 (edge_pending s);
  po_remote : is_u32 (remote_irr s);
  po_vectors : length (accepted_vector s) = 24%nat;
  po_flight : forall i, 0 <= i < 24 -> has_bit (remote_irr s) i = true -> 16 <= accepted_vector s !!! Z.to_nat i < 256;
  po_selector : is_u8 (selector s);
  po_id : 0 <= ioapic_id s < 16 }.

(** ** One input by itself *)

Record pin := mk_pin { p_entry : Z; p_line : bool; p_latched : bool; p_flight : option Z }.

Definition pin_of (s : ioapic) (i : Z) : pin :=
  mk_pin (redirection s !!! Z.to_nat i) (has_bit (asserted s) i) (has_bit (edge_pending s) i)
    (if has_bit (remote_irr s) i then Some (accepted_vector s !!! Z.to_nat i) else None).

Definition e_masked (e : Z) : bool := Z.testbit e 16.
Definition e_level (e : Z) : bool := Z.testbit e 15.
Definition e_logical (e : Z) : bool := Z.testbit e 11.
Definition e_vector (e : Z) : Z := e mod 256.
Definition e_destination (e : Z) : Z := e / 2 ^ 56 mod 256.
#[global] Arguments e_masked : simpl never.
#[global] Arguments e_level : simpl never.
#[global] Arguments e_logical : simpl never.
#[global] Arguments e_vector : simpl never.
#[global] Arguments e_destination : simpl never.

(** The line changes. A rising edge of an unmasked edge-triggered input is
    latched. *)
Definition pin_set (b : bool) (p : pin) : pin :=
  mk_pin (p_entry p) b
    (p_latched p || (b && negb (p_line p) && negb (e_masked (p_entry p)) && negb (e_level (p_entry p)))) (p_flight p).

(** An interrupt is due. *)
Definition pin_due (p : pin) : bool :=
  negb (e_masked (p_entry p)) && bool_decide (p_flight p = None) && (16 <=? e_vector (p_entry p)) &&
  (if e_level (p_entry p) then p_line p else p_latched p).

Definition pin_route (p : pin) : option ioapic_route :=
  if pin_due p then
    Some (mk_route (e_vector (p_entry p)) (e_destination (p_entry p)) (e_logical (p_entry p)) (e_level (p_entry p)))
  else None.

(** The interrupt is handed over; one that is level-triggered stays in flight
    until its end. *)
Definition pin_accept (p : pin) : pin :=
  mk_pin (p_entry p) (p_line p) false
    (if e_level (p_entry p) then Some (e_vector (p_entry p)) else p_flight p).

Definition pin_eoi (v : Z) (p : pin) : pin :=
  mk_pin (p_entry p) (p_line p) (p_latched p) (if bool_decide (p_flight p = Some v) then None else p_flight p).

(** ** Entries *)

Lemma flag_lor x a b : flag x (Z.lor a b) = flag x a || flag x b.
Proof.
  unfold flag. rewrite Z.land_lor_distr_r. destruct (Z.eqb_spec (Z.land x a) 0) as [->|Ha]; [by rewrite Z.lor_0_l|].
  cbn. apply negb_true_iff, Z.eqb_neq. intros H0%Z.lor_eq_0_iff. by destruct H0.
Qed.

Lemma flag_mask e : flag e MASK = e_masked e.
Proof. change MASK with (2 ^ 16). by rewrite flag_pow2. Qed.
Lemma flag_level e : flag e LEVEL = e_level e.
Proof. change LEVEL with (2 ^ 15). by rewrite flag_pow2. Qed.
Lemma flag_logical e : flag e 0x800 = e_logical e.
Proof. change 0x800 with (2 ^ 11). by rewrite flag_pow2. Qed.
Lemma land_vector e : Z.land e 255 = e_vector e.
Proof. change 255 with (Z.ones 8). by rewrite Z.land_ones. Qed.

Section entries.
Context (s : ioapic) (Hs : ioapic_ok s).

Lemma entry_get i : 0 <= i < 24 -> aget (redirection s) i = Some (p_entry (pin_of s i)).
Proof using Hs. intros Hi. apply aget_total. rewrite (po_redirection s Hs). lia. Qed.

Lemma entry_ok i : 0 <= i < 24 -> rte_ok (p_entry (pin_of s i)).
Proof using Hs. intros Hi. apply entry_get in Hi as [_ Hi]%aget_Some. by apply (Forall_lookup_1 _ _ _ _ (po_entries s Hs) Hi). Qed.

Lemma set_irq_ok i b :
  0 <= i ->
  exists r s', aos_x86_ioapic_set_irq s i b = Some (r, s') /\ ioapic_ok s' /\
    if (r : bool) then i < 24 /\ forall j, 0 <= j < 24 -> pin_of s' j = if i =? j then pin_set b (pin_of s i) else pin_of s j
    else s' = s.
Proof using Hs.
  intros Hi. unfold aos_x86_ioapic_set_irq, AOS_X86_IOAPIC_INPUTS. destruct (Z.leb_spec 24 i) as [|Hlt]; [by exists false, s|].
  rewrite entry_get by lia. cbn [mbind option_bind]. eexists true, _. split; [done|]. destruct b.
  - rewrite flag_lor, flag_mask, flag_level. split.
    + destruct Hs. split; cbn; auto with bitdb. destruct (_ && _); auto with bitdb.
    + split; [done|]. intros j Hj. unfold pin_of, pin_set. cbn. rewrite has_or_bit by lia.
      destruct (Z.eqb_spec i j) as [<-|Hne]; cbn; f_equal.
      * rewrite negb_orb. set (e := redirection s !!! Z.to_nat i).
        destruct (has_bit (asserted s) i), (e_masked e), (e_level e); cbn;
          rewrite ?has_or_bit, ?Z.eqb_refl, ?orb_false_r, ?orb_true_r by lia; done.
      * destruct (_ && _); [|done]. rewrite has_or_bit by lia. by rewrite (proj2 (Z.eqb_neq i j)).
  - split.
    + destruct Hs. split; cbn; auto with bitdb.
    + split; [done|]. intros j Hj. unfold pin_of, pin_set. cbn. rewrite has_clear_bit by lia.
      destruct (Z.eqb_spec i j) as [<-|Hne]; cbn; f_equal. by rewrite orb_false_r.
Qed.

Lemma route_eq i :
  0 <= i -> aos_x86_ioapic_route s i = Some (if 24 <=? i then None else pin_route (pin_of s i)).
Proof using Hs.
  intros Hi. unfold aos_x86_ioapic_route, AOS_X86_IOAPIC_INPUTS. destruct (Z.leb_spec 24 i) as [|Hlt]; [done|].
  rewrite entry_get by lia. cbn [mbind option_bind]. rewrite flag_mask, flag_level, flag_logical, land_vector.
  unfold pin_route, pin_due. f_equal. cbn [p_flight p_line p_latched pin_of].
  set (e := p_entry _). clearbody e.
  destruct (e_masked e); [done|]. cbn [orb negb andb]. destruct (has_bit (remote_irr s) i); [done|]. cbn [orb].
  rewrite bool_decide_true by done. cbn [andb]. destruct (Z.ltb_spec (e_vector e) 16), (Z.leb_spec 16 (e_vector e)); try lia; [done|].
  cbn [orb andb]. unfold u8, e_vector, e_destination. rewrite Z.shiftr_div_pow2 by lia.
  destruct (e_level e); [destruct (has_bit (asserted s) i)|destruct (has_bit (edge_pending s) i)]; done.
Qed.

Lemma accept_pin_ok i :
  0 <= i ->
  exists r s', aos_x86_ioapic_accept s i = Some (r, s') /\ ioapic_ok s' /\
    if (r : bool) then i < 24 /\ pin_due (pin_of s i) = true /\
      forall j, 0 <= j < 24 -> pin_of s' j = if i =? j then pin_accept (pin_of s i) else pin_of s j
    else s' = s.
Proof using Hs.
  intros Hi. unfold aos_x86_ioapic_accept. rewrite route_eq by done. cbn [mbind option_bind].
  destruct (Z.leb_spec 24 i) as [|Hlt]; [by exists false, s|]. unfold pin_route.
  destruct (pin_due (pin_of s i)) eqn:Hdue; [|by exists false, s]. cbn [rt_level rt_vector].
  assert (Hv : 16 <= e_vector (p_entry (pin_of s i)) < 256).
  { unfold pin_due in Hdue. rewrite !andb_true_iff, Z.leb_le in Hdue. split; [tauto|]. by apply Z.mod_pos_bound. }
  destruct (e_level (p_entry (pin_of s i))) eqn:Hl.
  - cbn [accepted_vector set_lines]. rewrite aset_Some by (rewrite (po_vectors s Hs); lia). cbn [mbind option_bind].
    eexists true, _. split; [done|]. split.
    + destruct Hs. split; cbn; auto with bitdb; [by rewrite length_insert|]. intros j Hj. rewrite has_or_bit by lia.
      destruct (Z.eqb_spec i j) as [<-|Hne]; [by rewrite list_lookup_total_insert_eq by lia|].
      rewrite list_lookup_total_insert_ne by lia. by apply po_flight0.
    + split_and!; [done..|]. intros j Hj. unfold pin_of, pin_accept. cbn. cbn in Hl. rewrite has_or_bit, has_clear_bit by lia.
      destruct (Z.eqb_spec i j) as [<-|Hne]; cbn; f_equal.
      * rewrite Hl, list_lookup_total_insert_eq by (rewrite (po_vectors s Hs); lia). done.
      * rewrite list_lookup_total_insert_ne by lia. done.
  - eexists true, _. split; [done|]. split.
    + destruct Hs. split; cbn; auto with bitdb.
    + split_and!; [done..|]. intros j Hj. unfold pin_of, pin_accept. cbn. cbn in Hl. rewrite has_clear_bit by lia.
      destruct (Z.eqb_spec i j) as [<-|Hne]; cbn; f_equal. by rewrite Hl.
Qed.
End entries.

Lemma eoi_inputs_ok v ins : forall s,
  ioapic_ok s -> NoDup ins -> Forall (fun i => 0 <= i < 24) ins ->
  exists s', eoi_inputs v ins s = Some s' /\ ioapic_ok s' /\
    forall j, 0 <= j < 24 -> pin_of s' j = if bool_decide (j ∈ ins) then pin_eoi v (pin_of s j) else pin_of s j.
Proof.
  induction ins as [|i ins IH]; intros s Hs Hnd Hin; [by exists s|].
  apply NoDup_cons in Hnd as [Hni Hnd]. apply Forall_cons in Hin as [Hi Hin]. cbn [eoi_inputs].
  assert (Hstep : exists s1, (if has_bit (remote_irr s) i then
      v' ← aget (accepted_vector s) i;
      eoi_inputs v ins (if v' =? v then set_remote (clear_bit (remote_irr s) i) (accepted_vector s) s else s)
    else eoi_inputs v ins s) = eoi_inputs v ins s1 /\ ioapic_ok s1 /\
    forall j, 0 <= j < 24 -> pin_of s1 j = if i =? j then pin_eoi v (pin_of s i) else pin_of s j).
  { unfold pin_eoi. destruct (has_bit (remote_irr s) i) eqn:Hr.
    - rewrite aget_total by (rewrite (po_vectors s Hs); lia). cbn [mbind option_bind].
      destruct (Z.eqb_spec (accepted_vector s !!! Z.to_nat i) v) as [He|Hne].
      + eexists. split; [done|]. split.
        * destruct Hs. split; cbn; auto with bitdb. intros j Hj. rewrite has_clear_bit, andb_true_iff by lia. intros [_ ?]. auto.
        * intros j Hj. unfold pin_of. cbn. rewrite has_clear_bit, Hr by lia. rewrite bool_decide_true by congruence.
          destruct (Z.eqb_spec i j) as [<-|]; done.
      + exists s. split; [done|]. split; [done|]. intros j Hj. destruct (Z.eqb_spec i j) as [<-|]; [|done].
        unfold pin_of. cbn. rewrite Hr. by rewrite bool_decide_false by congruence.
    - exists s. split; [done|]. split; [done|]. intros j Hj. destruct (Z.eqb_spec i j) as [<-|]; [|done].
      unfold pin_of. cbn. rewrite Hr. by rewrite bool_decide_false. }
  destruct Hstep as (s1 & -> & Hok1 & Hp1). destruct (IH s1 Hok1 Hnd Hin) as (s' & Hs' & Hok' & Hp').
  exists s'. split_and!; [done..|]. intros j Hj. rewrite Hp' by done. rewrite (Hp1 j Hj).
  destruct (Z.eqb_spec i j) as [<-|Hne].
  - rewrite bool_decide_false, bool_decide_true by (done || left). done.
  - destruct (decide (j ∈ ins)); [rewrite !bool_decide_true by (done || by right)|rewrite !bool_decide_false by (done || by intros [|]%elem_of_cons)]; done.
Qed.

Lemma eoi_pin_ok s v :
  ioapic_ok s -> 16 <= v < 256 ->
  exists s', aos_x86_ioapic_eoi s v = Some s' /\ ioapic_ok s' /\
    forall j, 0 <= j < 24 -> pin_of s' j = pin_eoi v (pin_of s j).
Proof.
  intros Hs Hv. unfold aos_x86_ioapic_eoi. destruct (Z.ltb_spec v 16), (Z.ltb_spec 255 v); try lia. cbn [orb].
  destruct (eoi_inputs_ok v (seqZ 0 AOS_X86_IOAPIC_INPUTS) s Hs) as (s' & Hs' & Hok' & Hp').
  { apply NoDup_seqZ. }
  { apply Forall_forall. intros i. rewrite elem_of_seqZ. unfold AOS_X86_IOAPIC_INPUTS. lia. }
  exists s'. split_and!; [done..|]. intros j Hj. rewrite Hp' by done. rewrite bool_decide_true; [done|].
  apply elem_of_seqZ. unfold AOS_X86_IOAPIC_INPUTS. lia.
Qed.

(** ** Programming an entry *)

Lemma merge_bits old shift data i :
  shift = 0 \/ shift = 32 -> is_u64 old -> is_u32 data -> 0 <= i ->
  Z.testbit (merge old shift data) i =
  if (shift <=? i) && (i <? shift + 32) then Z.testbit data (i - shift) else Z.testbit old i.
Proof.
  intros Hs [_ Hold]%u64_testbit [_ Hd]%u32_testbit Hi. unfold merge.
  rewrite Z.lor_spec, Z.land_spec, !testbit_u64, Z.lnot_spec, testbit_u64, !Z.shiftl_spec by lia.
  change 0xffffffff with (Z.ones 32).
  destruct (Z.leb_spec shift i); cbn [andb].
  - rewrite Z.testbit_ones by lia. rewrite (proj2 (Z.leb_le 0 (i - shift))) by lia. cbn [andb].
    destruct (Z.ltb_spec (i - shift) 32), (Z.ltb_spec i (shift + 32)); try lia.
    + destruct (Z.ltb_spec i 64); [|lia]. cbn. by rewrite andb_false_r.
    + rewrite (Hd (i - shift)) by lia. destruct (Z.ltb_spec i 64); cbn; [by rewrite andb_true_r, orb_false_r|].
      by rewrite Hold by lia.
  - rewrite !(Z.testbit_neg_r _ (i - shift)) by lia. destruct (Z.ltb_spec i 64); cbn; [by rewrite andb_true_r, orb_false_r|lia].
Qed.

Lemma merge_u64 old shift data :
  shift = 0 \/ shift = 32 -> is_u64 old -> is_u32 data -> is_u64 (merge old shift data).
Proof.
  intros Hs Hold Hd. apply u64_testbit. split.
  - unfold merge. apply Z.lor_nonneg. split; [apply Z.land_nonneg; left; apply Hold|apply u64_range].
  - intros i Hi. rewrite merge_bits by (done || lia). destruct (Z.leb_spec shift i), (Z.ltb_spec i (shift + 32)); cbn; try lia;
      apply u64_testbit in Hold as [_ Hb]; by apply Hb.
Qed.

Lemma vector_bits e e' : (forall i, 0 <= i < 8 -> Z.testbit e i = Z.testbit e' i) -> e_vector e = e_vector e'.
Proof.
  intros Hb. unfold e_vector. apply Z.bits_inj'. intros i Hi. change 256 with (2 ^ 8).
  destruct (Z.ltb_spec i 8); [rewrite !Z.mod_pow2_bits_low by lia; apply Hb; lia|by rewrite !Z.mod_pow2_bits_high by lia].
Qed.

(** What the check of a write lets through. *)
Lemma write_data_spec shift value data :
  shift = 0 \/ shift = 32 -> is_u32 value -> write_data shift value = Some data ->
  is_u32 data /\ (shift = 0 -> rte_ok data /\ Z.testbit data 14 = false).
Proof.
  intros Hs Hv. unfold write_data. destruct (Z.eqb_spec shift 0) as [->|Hne]; cbn [negb].
  - destruct (flag value _); [done|]. destruct (_ || _) eqn:Hc; [done|]. intros [= <-].
    apply orb_false_iff in Hc as [_ Hc].
    assert (Hu : is_u32 (Z.land value (u32 (Z.lnot 20480)))) by (apply is_u32_land; [done|apply u32_range]).
    split; [done|]. intros _. split.
    + split; [unfold is_u32, is_u64 in *; lia|]. intros Hm. rewrite Hm in Hc. cbn [negb andb] in Hc. by apply Z.ltb_ge in Hc.
    + by rewrite Z.land_spec, (eq_refl : Z.testbit (u32 (Z.lnot 20480)) 14 = false), andb_false_r.
  - destruct (flag value _); [done|]. intros [= <-]. split; [done|]. lia.
Qed.

Lemma merge_ok old shift data :
  shift = 0 \/ shift = 32 -> rte_ok old -> is_u32 data -> (shift = 0 -> rte_ok data) -> rte_ok (merge old shift data).
Proof.
  intros Hs [Hold Hv] Hd Hok. split; [by apply merge_u64|]. rewrite flag_mask, land_vector in *. unfold e_masked in *.
  rewrite merge_bits by (done || lia). destruct Hs as [-> | ->]; cbn [Z.leb Z.ltb andb Z.compare Z.add Pos.compare Pos.compare_cont].
  - destruct (Hok eq_refl) as [_ Hv']. rewrite flag_mask, land_vector in Hv'. intros Hm.
    rewrite (vector_bits _ data); [by apply Hv'|]. intros i Hi. rewrite merge_bits by (done || lia || by left).
    destruct (Z.leb_spec 0 i), (Z.ltb_spec i (0 + 32)); try lia. cbn. by rewrite Z.sub_0_r.
  - intros Hm. rewrite (vector_bits _ old); [by apply Hv|]. intros i Hi. rewrite merge_bits by (done || lia || by right).
    by destruct (Z.leb_spec 32 i); [lia|].
Qed.

(** Everything about an input but its entry is as before. *)
Definition reprogrammed (s s' : ioapic) : Prop :=
  forall j, 0 <= j < 24 ->
    pin_of s' j = mk_pin (p_entry (pin_of s' j)) (p_line (pin_of s j)) (p_latched (pin_of s j)) (p_flight (pin_of s j)).

Lemma entry_index reg : 0x10 <= reg < 0x40 -> 0 <= (reg - 0x10) / 2 < 24 /\ (Z.land reg 1 * 32 = 0 \/ Z.land reg 1 * 32 = 32).
Proof.
  intros Hr. split; [Z.div_mod_to_equations; lia|]. pose proof (Z.land_ones reg 1 ltac:(lia)) as Hl.
  change (Z.ones 1) with 1 in Hl. rewrite Hl. pose proof (Z.mod_pos_bound reg (2 ^ 1) ltac:(lia)). lia.
Qed.

(** The entry that a write leaves. *)
Definition entry_written (s : ioapic) (reg value data : Z) (s' : ioapic) : Prop :=
  let input := (reg - 0x10) / 2 in
  write_data (Z.land reg 1 * 32) value = Some data /\
  redirection s' = <[Z.to_nat input := merge (p_entry (pin_of s input)) (Z.land reg 1 * 32) data]> (redirection s).

Lemma io_entry_ok s reg write value :
  ioapic_ok s -> 0x10 <= reg < 0x40 -> is_u32 value ->
  exists r, io_entry s reg write value = Some r /\ forall v s', r = Some (v, s') ->
    ioapic_ok s' /\ is_u32 v /\ reprogrammed s s' /\
    if (write : bool) then exists data, entry_written s reg value data s'
    else s' = s /\ v = u32 (Z.shiftr (Z.lor (p_entry (pin_of s ((reg - 0x10) / 2)))
                       (if bool_decide (p_flight (pin_of s ((reg - 0x10) / 2)) = None) then 0 else REMOTE)) (Z.land reg 1 * 32)).
Proof.
  intros Hs Hr Hv. destruct (entry_index reg Hr) as [Hi Hsh]. unfold io_entry. set (i := (reg - 0x10) / 2) in *. cbn zeta.
  rewrite entry_get by done. cbn [mbind option_bind]. destruct write; cbn [negb].
  - destruct (write_data _ value) as [data|] eqn:Hw; [|by exists None].
    destruct (write_data_spec _ value data Hsh Hv Hw) as [Hd Hlow].
    rewrite aset_Some by (rewrite (po_redirection s Hs); lia). cbn [mbind option_bind]. eexists. split; [done|].
    intros v s' [= <- <-]. split_and!; [|done|done|by exists data].
    assert (Hm : rte_ok (merge (p_entry (pin_of s i)) (Z.land reg 1 * 32) data)).
    { apply merge_ok; [done|by apply entry_ok|done|]. intros ?. by apply Hlow. }
    destruct Hs. split; cbn; auto; [by rewrite length_insert|by apply Forall_insert].
  - eexists. split; [done|]. intros v s' [= <- <-]. split_and!; [done|apply u32_range|done|done|].
    unfold pin_of. cbn [p_flight]. by destruct (has_bit (remote_irr s) i).
Qed.

Lemma ioapic_io_ok s off write value :
  ioapic_ok s -> is_u32 value ->
  exists r, aos_x86_ioapic_io s off write value = Some r /\ forall v s', r = Some (v, s') ->
    ioapic_ok s' /\ is_u32 v /\ reprogrammed s s'.
Proof.
  intros Hs Hv. unfold aos_x86_ioapic_io. pose proof (po_selector s Hs) as Hsel. unfold is_u8 in Hsel.
  destruct (_ =? 0).
  { destruct write.
    - eexists. split; [done|]. intros v s'. destruct (Z.ltb_spec 255 value); [done|]. intros [= <- <-]. split_and!; [|done|done].
      destruct Hs. split; cbn; auto. apply Z.mod_pos_bound. lia.
    - eexists. split; [done|]. intros v s' [= <- <-]. split_and!; [done|unfold is_u32; lia|done]. }
  destruct (negb _); [by exists None|]. cbn zeta. destruct (_ || _) eqn:H02.
  { eexists. split; [done|]. intros v s'. destruct write; [destruct (_ && _); [|done]|]; intros [= <- <-]; split_and!; try done.
    apply u32_range. }
  destruct (_ =? 1).
  { eexists. split; [done|]. intros v s'. destruct write; [done|]. by intros [= <- <-]. }
  destruct (Z.ltb_spec (selector s) 0x10); [by exists None|]. cbn [orb].
  destruct (Z.leb_spec (0x10 + 2 * AOS_X86_IOAPIC_INPUTS) (selector s)) as [|Hlt]; [by exists None|].
  unfold AOS_X86_IOAPIC_INPUTS in Hlt. destruct (io_entry_ok s (selector s) write value Hs) as (r & -> & Hr); [lia|done|].
  exists r. split; [done|]. intros v s' E. destruct (Hr v s' E) as (? & ? & ? & _). done.
Qed.

Lemma ioapic_init_ok id s : 0 <= id -> aos_x86_ioapic_init id = Some s -> ioapic_ok s.
Proof.
  intros Hid. unfold aos_x86_ioapic_init. destruct (Z.ltb_spec 15 id); [done|]. intros [= <-].
  split; cbn; try done.
  - repeat apply Forall_cons_2; try apply Forall_nil_2; (split; [done|by vm_compute]).
  - unfold u8. rewrite Z.mod_small by lia. lia.
Qed.

(** ** Reading back *)

(** The window's value at register [reg]. *)
Definition window (s : ioapic) (reg : Z) : option Z :=
  r ← aos_x86_ioapic_io (set_selector reg s) 0x10 false 0; fst <$> r.

Definition half (e : Z) (remote : bool) (shift : Z) : Z := u32 (Z.shiftr (Z.lor e (if remote then REMOTE else 0)) shift).

Lemma half_bits e b shift i :
  0 <= shift -> 0 <= i ->
  Z.testbit (half e b shift) i = (i <? 32) && (Z.testbit e (i + shift) || (b && (i + shift =? 14))).
Proof.
  intros Hs Hi. unfold half. rewrite testbit_u32, Z.shiftr_spec, Z.lor_spec by lia. do 2 f_equal.
  destruct b; [|by rewrite Z.bits_0]. change REMOTE with (2 ^ 14). rewrite Z.pow2_bits_eqb by lia. apply Z.eqb_sym.
Qed.

Lemma io_window s write value :
  0x10 <= selector s < 0x40 -> aos_x86_ioapic_io s 0x10 write value = io_entry s (selector s) write value.
Proof.
  intros Hr. unfold aos_x86_ioapic_io. cbn [Z.eqb Pos.eqb negb]. cbn zeta.
  destruct (Z.eqb_spec (selector s) 0), (Z.eqb_spec (selector s) 2), (Z.eqb_spec (selector s) 1); try lia. cbn [orb].
  unfold AOS_X86_IOAPIC_INPUTS. by destruct (Z.ltb_spec (selector s) 0x10), (Z.leb_spec (0x10 + 2 * 24) (selector s)); try lia.
Qed.

Lemma window_entry s reg :
  ioapic_ok s -> 0x10 <= reg < 0x40 ->
  window s reg = Some (half (p_entry (pin_of s ((reg - 0x10) / 2)))
    (has_bit (remote_irr s) ((reg - 0x10) / 2)) (Z.land reg 1 * 32)).
Proof.
  intros Hs Hr. unfold window. rewrite io_window by done. unfold io_entry. destruct (entry_index reg Hr) as [Hi _].
  cbn [redirection set_selector remote_irr selector]. by rewrite entry_get.
Qed.

Lemma merge_same_half old b shift data :
  shift = 0 \/ shift = 32 -> is_u64 old -> is_u32 data ->
  half (merge old shift data) b shift = Z.lor data (if b && (shift =? 0) then REMOTE else 0).
Proof.
  intros Hs Hold Hd. apply Z.bits_inj'. intros i Hi. rewrite half_bits, Z.lor_spec by lia.
  pose proof Hd as [_ Hhigh]%u32_testbit. destruct (Z.ltb_spec i 32) as [Hlt|Hge]; cbn [andb].
  - rewrite merge_bits by (done || lia). destruct (Z.leb_spec shift (i + shift)), (Z.ltb_spec (i + shift) (shift + 32)); try lia.
    cbn [andb]. replace (i + shift - shift) with i by lia. f_equal. destruct b; cbn [andb]; [|by rewrite Z.bits_0].
    change REMOTE with (2 ^ 14). destruct Hs as [-> | ->]; cbn [Z.eqb].
    + rewrite Z.pow2_bits_eqb by lia. rewrite Z.add_0_r. apply Z.eqb_sym.
    + rewrite Z.bits_0. destruct (Z.eqb_spec (i + 32) 14); [lia|done].
  - rewrite Hhigh by lia. destruct (b && _); [|by rewrite Z.bits_0]. change REMOTE with (2 ^ 14).
    rewrite Z.pow2_bits_eqb by lia. destruct (Z.eqb_spec 14 i); [lia|done].
Qed.

Lemma merge_other_half old b shift shift' data :
  shift = 0 \/ shift = 32 -> shift' = 0 \/ shift' = 32 -> shift' <> shift -> is_u64 old -> is_u32 data ->
  half (merge old shift data) b shift' = half old b shift'.
Proof.
  intros Hs Hs' Hne Hold Hd. apply Z.bits_inj'. intros i Hi. rewrite !half_bits by lia.
  destruct (Z.ltb_spec i 32); [|done]. cbn [andb]. f_equal. rewrite merge_bits by (done || lia).
  by destruct (Z.leb_spec shift (i + shift')), (Z.ltb_spec (i + shift') (shift + 32)); try lia.
Qed.

(** ** Theorems *)

(** C30. Each input of the controller behaves by itself as a pin: the line
    changes of [set_irq], the routes it offers, the hand-over of [accept] and
    the end of interrupt act on the input's line, latch and interrupt in
    flight as the pin's operations do, and on no other input. *)
Theorem ioapic_refines_pins s i :
  ioapic_ok s -> 0 <= i < 24 ->
  (forall b, exists s', aos_x86_ioapic_set_irq s i b = Some (true, s') /\ ioapic_ok s' /\
     forall j, 0 <= j < 24 -> pin_of s' j = if i =? j then pin_set b (pin_of s i) else pin_of s j) /\
  aos_x86_ioapic_route s i = Some (pin_route (pin_of s i)) /\
  (exists s', aos_x86_ioapic_accept s i = Some (pin_due (pin_of s i), s') /\ ioapic_ok s' /\
     forall j, 0 <= j < 24 ->
       pin_of s' j = if (i =? j) && pin_due (pin_of s i) then pin_accept (pin_of s i) else pin_of s j) /\
  (forall v, 16 <= v < 256 -> exists s', aos_x86_ioapic_eoi s v = Some s' /\ ioapic_ok s' /\
     forall j, 0 <= j < 24 -> pin_of s' j = pin_eoi v (pin_of s j)).
Proof.
  intros Hs Hi. split_and!.
  - intros b. destruct (set_irq_ok s Hs i b) as (r & s' & Hr & Hok & Heff); [lia|].
    destruct r; [exists s'; split_and!; try done; by apply Heff|].
    exfalso. unfold aos_x86_ioapic_set_irq, AOS_X86_IOAPIC_INPUTS in Hr. destruct (Z.leb_spec 24 i); [lia|].
    rewrite entry_get in Hr by done. done.
  - rewrite route_eq by (done || lia). by rewrite (proj2 (Z.leb_gt 24 i)) by lia.
  - destruct (accept_pin_ok s Hs i) as (r & s' & Hr & Hok & Heff); [lia|]. exists s'.
    assert (Hdue : r = pin_due (pin_of s i)).
    { unfold aos_x86_ioapic_accept in Hr. rewrite route_eq in Hr by (done || lia).
      rewrite (proj2 (Z.leb_gt 24 i)) in Hr by lia. cbn [mbind option_bind] in Hr. unfold pin_route in Hr.
      destruct (pin_due (pin_of s i)); [|by injection Hr as <- _]. destruct r; [done|]. exfalso.
      revert Hr. cbn [rt_level]. destruct (e_level _); [|done]. by destruct (aset _ _ _). }
    rewrite <- Hdue. split_and!; [done..|]. intros j Hj. destruct r.
    + destruct Heff as (_ & _ & Hp). rewrite andb_true_r. by apply Hp.
    + rewrite andb_false_r. by subst.
  - intros v Hv. by apply eoi_pin_ok.
Qed.

(** A redirection entry reads back as it was programmed: a write that is
    accepted is read back from its half, the low half without the guest's
    copies of delivery status and remote IRR and with the controller's own
    remote IRR, and every other half of every entry is unchanged. *)
Theorem ioapic_readback s value v s' :
  ioapic_ok s -> is_u32 value -> 0x10 <= selector s < 0x40 ->
  aos_x86_ioapic_io s 0x10 true value = Some (Some (v, s')) ->
  let reg := selector s in
  window s' reg = Some (if Z.land reg 1 =? 0
    then Z.lor (Z.land value (u32 (Z.lnot 0x5000))) (if has_bit (remote_irr s) ((reg - 0x10) / 2) then REMOTE else 0)
    else value) /\
  forall reg', 0x10 <= reg' < 0x40 -> reg' <> reg -> window s' reg' = window s reg'.
Proof.
  intros Hs Hv Hr Hio reg. rewrite io_window in Hio by done. fold reg in Hio, Hr.
  destruct (io_entry_ok s reg true value Hs Hr Hv) as (r & Hr' & Heff). rewrite Hio in Hr'. injection Hr' as <-.
  destruct (Heff v s' eq_refl) as (Hok & _ & _ & data & Hw & Hred). destruct (entry_index reg Hr) as [Hi Hsh].
  assert (Hrem : remote_irr s' = remote_irr s).
  { unfold io_entry in Hio. rewrite entry_get in Hio by done. cbn [mbind option_bind negb] in Hio. rewrite Hw in Hio.
    destruct (aset _ _ _); [|done]. by injection Hio as _ <-. }
  destruct (write_data_spec _ value data Hsh Hv Hw) as [Hd _]. pose proof (entry_ok s Hs _ Hi) as [He64 _].
  pose proof (po_redirection s Hs) as Hlen. cbn zeta in Hred. unfold pin_of in Hred, He64. cbn [p_entry] in Hred, He64. split.
  - rewrite window_entry by done. unfold pin_of. cbn [p_entry]. rewrite Hrem, Hred, list_lookup_total_insert_eq by lia.
    rewrite merge_same_half by done. f_equal. unfold write_data in Hw. destruct Hsh as [Hz|Hz]; rewrite Hz in *.
    + destruct (Z.eqb_spec (Z.land reg 1) 0); [|lia]. rewrite andb_true_r. cbn [Z.eqb negb] in Hw.
      destruct (flag value _); [done|]. destruct (_ || _); [done|]. by injection Hw as <-.
    + destruct (Z.eqb_spec (Z.land reg 1) 0); [lia|]. rewrite andb_false_r, Z.lor_0_r. cbn [Z.eqb negb] in Hw.
      destruct (flag value _); [done|]. by injection Hw as <-.
  - intros reg' Hr' Hne. rewrite !window_entry by done. unfold pin_of. cbn [p_entry]. rewrite Hrem, Hred. f_equal.
    destruct (decide ((reg' - 0x10) / 2 = (reg - 0x10) / 2)) as [Heq|Hdiff].
    + rewrite Heq, list_lookup_total_insert_eq by lia. destruct (entry_index reg' Hr') as [_ Hsh'].
      apply merge_other_half; [done|done| |done|done]. intros Hsame. apply Hne.
      assert (forall x, Z.land x 1 = x mod 2) as Hl by (intros x; by apply (Z.land_ones x 1)).
      rewrite !Hl in Hsame. clear -Heq Hsame Hr Hr'. clearbody reg. Z.div_mod_to_equations. lia.
    + destruct (entry_index reg' Hr') as [Hi' _]. rewrite list_lookup_total_insert_ne by lia. done.
Qed.

(** ** An instance *)

#[global] Instance ioapic_inhabited : Inhabited ioapic := populate (mk_ioapic [] 0 0 0 [] 0 0).

(** Input 5, selected. *)
Definition example_controller : ioapic := set_selector 0x1a (default inhabitant (aos_x86_ioapic_init 1)).

Lemma example_controller_ok : ioapic_ok example_controller.
Proof.
  assert (H : ioapic_ok (default inhabitant (aos_x86_ioapic_init 1))) by (by apply (ioapic_init_ok 1)).
  destruct H. by split.
Qed.

(** Programmed for a level-triggered interrupt of vector 65. *)
Definition example_programmed : ioapic :=
  match aos_x86_ioapic_io example_controller 0x10 true 0x9041 with Some (Some (_, s)) => s | _ => example_controller end.

Lemma example_programmed_ok : ioapic_ok example_programmed.
Proof.
  destruct (ioapic_io_ok example_controller 0x10 true 0x9041 example_controller_ok) as (r & Hr & Heff); [done|].
  unfold example_programmed. rewrite Hr. destruct r as [[v s]|]; [|apply example_controller_ok].
  by destruct (Heff v s eq_refl) as (? & _).
Qed.

Lemma ioapic_refines_pins_witness :
  (exists s', aos_x86_ioapic_set_irq example_programmed 5 true = Some (true, s') /\ ioapic_ok s' /\
     forall j, 0 <= j < 24 ->
       pin_of s' j = if 5 =? j then pin_set true (pin_of example_programmed 5) else pin_of example_programmed j) /\
  pin_route (pin_set true (pin_of example_programmed 5)) = Some (mk_route 65 0 false true).
Proof.
  split; [|by vm_compute]. apply (ioapic_refines_pins example_programmed 5 example_programmed_ok). lia.
Defined.

Lemma ioapic_readback_witness :
  window example_programmed 0x1a = Some 0x8041 /\ window example_programmed 0x1b = window example_controller 0x1b.
Proof.
  pose proof (ioapic_readback example_controller 0x9041 0x9041 example_programmed example_controller_ok) as H.
  destruct H as [H1 H2]; [done|by vm_compute|by vm_compute|]. split; [exact H1|]. apply H2; by vm_compute.
Defined.
