(* ===== verification/X86Irq.v ===== *)
(** * Interrupts and processors of an x86 guest

    The coordinator of the guest's virtual processors: [x86_smp.c] (commands
    between processors and the choice of the next one), [x86_event.c] (what
    is injected at the next entry), and the parts of [x86_firmware.c] that
    carry interrupts from the I/O controller to the local ones and back: the
    access to the local controller's page with its end of interrupt, the
    delivery loop, the acceptance before an entry and the application of a
    startup. *)

From S2P Require Import Prelude BitSet X86Apic X86Ioapic.
From stdpp Require Import options.

#[local] Open Scope Z_scope.

Definition AOS_X86_SMP_MAX_CPUS : Z := 32.
Definition AOS_X86_CPU_RUNNING : Z := 0.
Definition AOS_X86_CPU_WAIT_SIPI : Z := 1.
Definition AOS_X86_CPU_START_PENDING : Z := 2.

Record smp_cpu := mk_cpu {
  cpu_apic : apic; cpu_state : Z; reset_pending : bool; startup_vector : Z }.

#[global] Instance smp_cpu_inhabited : Inhabited smp_cpu := populate (mk_cpu inhabitant 0 false 0).

Definition set_apic (a : apic) (c : smp_cpu) : smp_cpu := mk_cpu a (cpu_state c) (reset_pending c) (startup_vector c).

(** ** x86_smp.c: the next processor *)

Definition runnable (c : smp_cpu) : bool := (cpu_state c =? AOS_X86_CPU_RUNNING) && negb (reset_pending c).

(** The loop over [step], with [n] steps left. *)
Fixpoint next_from (cpus : list smp_cpu) (count current step : Z) (n : nat) : option (option Z) :=
  match n with
  | O => Some None
  | S n =>
      let cpu := (current + step) mod count in
      c ← aget cpus cpu;
      if runnable c then Some (Some cpu) else next_from cpus count current (step + 1) n
  end.

Definition state_ok (c : smp_cpu) : bool := cpu_state c <=? AOS_X86_CPU_START_PENDING.

Definition aos_x86_smp_next (cpus : list smp_cpu) (current : Z) : option (option Z) :=
  let count := Z.of_nat (length cpus) in
  if (count =? 0) || (AOS_X86_SMP_MAX_CPUS <? count) || (count <=? current) then Some None
  else if negb (forallb state_ok cpus) then Some None
  else next_from cpus count current 1 (length cpus).

(** ** x86_smp.c: commands between processors *)

(** The first loop: identities are distinct and no clock is ahead. *)
Definition icr_cpu_ok (ticks : Z) (c : smp_cpu) : bool :=
  negb (apic_id (cpu_apic c) =? 255) && (now (cpu_apic c) <=? ticks) && state_ok c.
Fixpoint icr_cpus_ok (ticks : Z) (before cpus : list smp_cpu) : bool :=
  match cpus with
  | [] => true
  | c :: cpus =>
      icr_cpu_ok ticks c && forallb (fun d => negb (apic_id (cpu_apic c) =? apic_id (cpu_apic d))) before &&
      icr_cpus_ok ticks (before ++ [c]) cpus
  end.

Definition icr_match (command shortcut destination sender i : Z) (c : smp_cpu) : bool :=
  if shortcut =? 1 then i =? sender
  else if shortcut =? 2 then true
  else if shortcut =? 3 then negb (i =? sender)
  else aos_x86_apic_destination (cpu_apic c) destination (flag command 0x800).

(** The processors addressed, from index [i]. *)
Fixpoint icr_targets (command shortcut destination sender i : Z) (cpus : list smp_cpu) : Z :=
  match cpus with
  | [] => 0
  | c :: cpus =>
      let rest := icr_targets command shortcut destination sender (i + 1) cpus in
      if icr_match command shortcut destination sender i c then or_bit rest i else rest
  end.

(** The command at one processor. *)
Definition icr_deliver (mode vector ticks : Z) (level assert_level : bool) (c : smp_cpu) : option smp_cpu :=
  let a := cpu_apic c in
  if mode =? 0 then
    '(_, a') ← aos_x86_apic_route a vector (apic_id a) false false; Some (set_apic a' c)
  else if mode =? 5 then
    if level && negb assert_level then Some c
    else Some (mk_cpu (default a (aos_x86_apic_init_cpu ticks (apic_id a) (bootstrap a))) AOS_X86_CPU_WAIT_SIPI true 0)
  else if cpu_state c =? AOS_X86_CPU_WAIT_SIPI then
    Some (mk_cpu a AOS_X86_CPU_START_PENDING (reset_pending c) (u8 vector))
  else Some c.

Fixpoint icr_deliver_all (mode vector ticks : Z) (level assert_level : bool) (targets i : Z) (cpus : list smp_cpu)
  : option (list smp_cpu) :=
  match cpus with
  | [] => Some []
  | c :: cpus =>
      c' ← (if has_bit targets i then icr_deliver mode vector ticks level assert_level c else Some c);
      cpus' ← icr_deliver_all mode vector ticks level assert_level targets (i + 1) cpus;
      Some (c' :: cpus')
  end.

Definition aos_x86_smp_icr (cpus : list smp_cpu) (sender command ticks : Z) : option (bool * list smp_cpu) :=
  let count := Z.of_nat (length cpus) in
  if (count =? 0) || (AOS_X86_SMP_MAX_CPUS <? count) || (count <=? sender) ||
     flag command (u32 (Z.lnot 0x000ccfff)) then Some (false, cpus)
  else
    let mode := Z.land (Z.shiftr command 8) 7 in
    let vector := Z.land command 255 in
    let level := flag command 0x8000 in
    let assert_level := flag command 0x4000 in
    if negb (mode =? 0) && negb (mode =? 5) && negb (mode =? 6) then Some (false, cpus)
    else if ((mode =? 0) && ((vector <? 16) || level)) || ((mode =? 6) && level) then Some (false, cpus)
    else if negb (icr_cpus_ok ticks [] cpus) then Some (false, cpus)
    else
      let shortcut := Z.land (Z.shiftr command 18) 3 in
      c ← aget cpus sender;
      let destination := Z.shiftr (icr_high (a_regs (cpu_apic c))) 24 in
      let targets := icr_targets command shortcut destination sender 0 cpus in
      r ← aos_x86_apic_io (cpu_apic c) 0x300 false 0 ticks;
      let a := from_option snd (cpu_apic c) r in
      cpus ← aset cpus sender (set_apic (set_regs (put_icr_low command (a_regs a)) a) c);
      cpus ← icr_deliver_all mode vector ticks level assert_level targets 0 cpus;
      Some (true, cpus).

(** ** x86_event.c *)

Record entry_event := mk_entry {
  interruption_info : Z; error_code : Z; ee_advance : Z; accept_irq : bool; interrupt_window : bool }.

Definition aos_x86_entry_event (gp protected : bool) (length irq flags interruptibility : Z) : option entry_event :=
  if (15 <? length) || (negb (irq =? 0) && ((irq <? 16) || (255 <? irq))) then None
  else Some (
    if gp then mk_entry (Z.lor 0x8000030d (if protected then 0x800 else 0)) 0 0 false false
    else if negb (irq =? 0) then
      if flag flags 0x200 && negb (flag interruptibility 3)
      then mk_entry (Z.lor 0x80000000 irq) 0 (u8 length) true false
      else mk_entry 0 0 (u8 length) false true
    else mk_entry 0 0 (u8 length) false false).

(** ** x86_firmware.c *)

Record irq_world := mk_irq { iq_cpus : list smp_cpu; iq_ioapic : ioapic }.

(** An access of processor [cpu] to its local controller's page. The result
    is the value and the state, or [None] when the coordinator stops. *)
Definition local_access (w : irq_world) (cpu off : Z) (write : bool) (value ticks : Z) : option (option (Z * irq_world)) :=
  c ← aget (iq_cpus w) cpu;
  eoi_vector ← (if (off =? 0xb0) && write then aos_x86_apic_eoi_vector (cpu_apic c) else Some 0);
  handled ← (if write && (off =? 0x300) then
      '(b, cpus) ← aos_x86_smp_icr (iq_cpus w) cpu value ticks;
      Some (if (b : bool) then Some (value, cpus) else None)
    else
      r ← aos_x86_apic_io (cpu_apic c) off write value ticks;
      match r with
      | None => Some None
      | Some (v, a) => cpus ← aset (iq_cpus w) cpu (set_apic a c); Some (Some (v, cpus))
      end);
  match handled with
  | None => Some None
  | Some (v, cpus) =>
      io ← (if eoi_vector =? 0 then Some (iq_ioapic w) else aos_x86_ioapic_eoi (iq_ioapic w) eoi_vector);
      Some (Some (v, mk_irq cpus io))
  end.

(** An access to the I/O controller's page. *)
Definition io_access (w : irq_world) (off : Z) (write : bool) (value : Z) : option (option (Z * irq_world)) :=
  r ← aos_x86_ioapic_io (iq_ioapic w) off write value;
  Some (match r with None => None | Some (v, io) => Some (v, mk_irq (iq_cpus w) io) end).

(** The inner loop of the delivery: the processors after, and whether one
    took the route. *)
Fixpoint route_targets (r : ioapic_route) (cpus : list smp_cpu) : option (bool * list smp_cpu) :=
  match cpus with
  | [] => Some (false, [])
  | c :: cpus =>
      '(b, c') ← (if cpu_state c =? AOS_X86_CPU_RUNNING then
          '(b, a) ← aos_x86_apic_route (cpu_apic c) (rt_vector r) (rt_destination r) (rt_logical r) (rt_level r);
          Some (b, set_apic a c)
        else Some (false, c));
      '(delivered, cpus') ← route_targets r cpus;
      Some (b || delivered, c' :: cpus')
  end.

Definition deliver_input (w : irq_world) (input : Z) : option irq_world :=
  r ← aos_x86_ioapic_route (iq_ioapic w) input;
  match r with
  | None => Some w
  | Some route =>
      '(delivered, cpus) ← route_targets route (iq_cpus w);
      io ← (if (delivered : bool) then '(_, io) ← aos_x86_ioapic_accept (iq_ioapic w) input; Some io
            else Some (iq_ioapic w));
      Some (mk_irq cpus io)
  end.

Fixpoint deliver_inputs (w : irq_world) (inputs : list Z) : option irq_world :=
  match inputs with [] => Some w | i :: inputs => w' ← deliver_input w i; deliver_inputs w' inputs end.

Definition deliver (w : irq_world) : option irq_world := deliver_inputs w (seqZ 0 AOS_X86_IOAPIC_INPUTS).

(** What precedes an entry of processor [cpu]. *)
Definition prepare_entry (w : irq_world) (cpu ticks : Z) (gp protected : bool) (length flags interruptibility : Z)
  : option (option (entry_event * irq_world)) :=
  c ← aget (iq_cpus w) cpu;
  '(vector, a) ← aos_x86_apic_pending (cpu_apic c) ticks;
  if vector =? AOS_X86_APIC_INVALID_VECTOR then Some None else
  match aos_x86_entry_event gp protected length vector flags interruptibility with
  | None => Some None
  | Some event =>
      '(ok, a) ← (if accept_irq event then aos_x86_apic_accept a vector else Some (true, a));
      if (ok : bool) then
        cpus ← aset (iq_cpus w) cpu (set_apic a c); Some (Some (event, mk_irq cpus (iq_ioapic w)))
      else Some None
  end.

(** A startup applied at one processor; [rebuilt] and [started] say whether
    the kernel calls succeeded. *)
Definition apply_startup_cpu (rebuilt started : bool) (c : smp_cpu) : option smp_cpu :=
  let c1 := if reset_pending c then
      if rebuilt then Some (mk_cpu (cpu_apic c) (cpu_state c) false (startup_vector c)) else None
    else Some c in
  match c1 with
  | None => None
  | Some c1 =>
      if cpu_state c1 =? AOS_X86_CPU_START_PENDING then
        if started then Some (mk_cpu (cpu_apic c1) AOS_X86_CPU_RUNNING (reset_pending c1) (startup_vector c1)) else None
      else Some c1
  end.

(** ** Steps *)

Inductive irq_op :=
  | LocalAccess (cpu off : Z) (write : bool) (value ticks : Z)
  | IoAccess (off : Z) (write : bool) (value : Z)
  | Line (input : Z) (b : bool)
  | Deliver
  | PrepareEntry (cpu ticks : Z) (gp protected : bool) (length flags interruptibility : Z)
  | Startup (cpu : Z) (rebuilt started : bool).

Definition after {A} (r : option (A * irq_world)) : option irq_world := snd <$> r.

(** The state after, or [None] when the coordinator stops. *)
Definition irq_run (w : irq_world) (o : irq_op) : option (option irq_world) :=
  match o with
  | LocalAccess cpu off write value ticks => r ← local_access w cpu off write value ticks; Some (after r)
  | IoAccess off write value => r ← io_access w off write value; Some (after r)
  | Line input b => '(_, io) ← aos_x86_ioapic_set_irq (iq_ioapic w) input b; Some (Some (mk_irq (iq_cpus w) io))
  | Deliver => w' ← deliver w; Some (Some w')
  | PrepareEntry cpu ticks gp protected length flags interruptibility =>
      r ← prepare_entry w cpu ticks gp protected length flags interruptibility; Some (after r)
  | Startup cpu rebuilt started =>
      c ← aget (iq_cpus w) cpu;
      match apply_startup_cpu rebuilt started c with
      | None => Some None
      | Some c' => cpus ← aset (iq_cpus w) cpu c'; Some (Some (mk_irq cpus (iq_ioapic w)))
      end
  end.

(** The arguments have the types of the C code; [cpu] is the processor
    selected. *)
Definition irq_op_ok (w : irq_world) (o : irq_op) : Prop :=
  let selected cpu := 0 <= cpu < Z.of_nat (length (iq_cpus w)) in
  match o with
  | LocalAccess cpu off _ value ticks => selected cpu /\ is_u32 off /\ is_u32 value /\ is_u64 ticks
  | IoAccess off _ value => is_u32 off /\ is_u32 value
  | Line input _ => is_u32 input
  | Deliver => True
  | PrepareEntry cpu ticks _ _ length _ _ => selected cpu /\ is_u64 ticks /\ is_u32 length
  | Startup cpu _ _ => selected cpu
  end.

(** ** Invariants *)

Definition cpu_ok (c : smp_cpu) : Prop := apic_ok (cpu_apic c).

Record irq_ok (w : irq_world) : Prop := {
  qo_cpus : Forall cpu_ok (iq_cpus w);
  qo_ioapic : ioapic_ok (iq_ioapic w) }.

(** Processor [c] has a level-triggered interrupt of vector [v] requested or
    in service. *)
Definition holds_level (c : smp_cpu) (v : Z) : bool :=
  wmem (irr_level (cpu_apic c)) v || wmem (tmr (cpu_apic c)) v.

Definition carried (cpus : list smp_cpu) (v : Z) : Prop := exists c, c ∈ cpus /\ holds_level c v = true.

(** Every interrupt in flight at the I/O controller is at a processor. *)
Definition tracked (w : irq_world) : Prop :=
  forall i v, 0 <= i < 24 -> p_flight (pin_of (iq_ioapic w) i) = Some v -> carried (iq_cpus w) v.

Definition keeps (c c' : smp_cpu) : Prop := forall v, holds_level c v = true -> holds_level c' v = true.

Lemma keeps_refl c : keeps c c.
Proof. by intros v. Qed.

Lemma carried_cons c cpus v : carried (c :: cpus) v <-> holds_level c v = true \/ carried cpus v.
Proof. unfold carried. setoid_rewrite elem_of_cons. naive_solver. Qed.

Lemma carried_Forall2 cpus cpus' v : Forall2 keeps cpus cpus' -> carried cpus v -> carried cpus' v.
Proof.
  induction 1 as [|c c' cpus cpus' Hk _ IH]; [done|]. rewrite !carried_cons. intros [Hl|Hc]; [left; by apply Hk|right; by apply IH].
Qed.

Lemma Forall2_keeps_refl cpus : Forall2 keeps cpus cpus.
Proof. induction cpus; constructor; [apply keeps_refl|done]. Qed.

Lemma keeps_insert cpus i c c' : cpus !! i = Some c -> keeps c c' -> Forall2 keeps cpus (<[i := c']> cpus).
Proof.
  intros Hi Hk. revert i Hi. induction cpus as [|d cpus IH]; intros i Hi; [done|]. destruct i as [|i]; cbn in *.
  - simplify_eq. constructor; [done|apply Forall2_keeps_refl].
  - constructor; [apply keeps_refl|by apply IH].
Qed.

Lemma cpu_get cpus i : 0 <= i < Z.of_nat (length cpus) -> Forall cpu_ok cpus ->
  exists c, aget cpus i = Some c /\ cpus !! Z.to_nat i = Some c /\ cpu_ok c.
Proof.
  intros Hi Hok. destruct (aget_lt cpus i Hi) as [c Hc]. exists c. pose proof Hc as [_ Hl]%aget_Some.
  split_and!; [done..|]. by apply (Forall_lookup_1 _ _ _ _ Hok Hl).
Qed.

(** ** Delivery *)

Lemma route_targets_ok r cpus :
  Forall cpu_ok cpus ->
  exists b cpus', route_targets r cpus = Some (b, cpus') /\ Forall cpu_ok cpus' /\ Forall2 keeps cpus cpus' /\
    (b = true -> rt_level r = true -> carried cpus' (rt_vector r)).
Proof.
  induction cpus as [|c cpus IH]; intros Hok; [by eexists _, _|]. apply Forall_cons in Hok as [Hc Hok].
  destruct (IH Hok) as (b2 & cpus2 & Hr2 & Hok2 & Hk2 & Hn2). cbn [route_targets].
  assert (Hone : exists b1 c1, (if cpu_state c =? AOS_X86_CPU_RUNNING then
      '(b, a) ← aos_x86_apic_route (cpu_apic c) (rt_vector r) (rt_destination r) (rt_logical r) (rt_level r);
      Some (b, set_apic a c) else Some (false, c)) = Some (b1, c1) /\ cpu_ok c1 /\ keeps c c1 /\
      (b1 = true -> rt_level r = true -> holds_level c1 (rt_vector r) = true)).
  { destruct (_ =? _); [|exists false, c; split_and!; [done|done|apply keeps_refl|done]].
    destruct (route_ok (cpu_apic c) (rt_vector r) (rt_destination r) (rt_logical r) (rt_level r) Hc) as (b & a & -> & Hoka & Heff).
    cbn [mbind option_bind]. eexists _, _. split; [done|]. split; [done|]. destruct b; [|subst; split; [by intros v|done]].
    destruct Heff as (_ & _ & (_ & _ & Ht & _) & _ & _ & Hl). cbn in Ht. split.
    - intros v. unfold holds_level. cbn. rewrite Hl, Ht, !orb_true_iff. tauto.
    - intros _ Hlev. unfold holds_level. cbn. by rewrite Hl, Hlev, Z.eqb_refl. }
  destruct Hone as (b1 & c1 & -> & Hok1 & Hk1 & Hn1). cbn [mbind option_bind]. rewrite Hr2. cbn [mbind option_bind].
  eexists _, _. split; [done|]. split_and!; [by constructor..|]. intros Hb Hlev. rewrite carried_cons.
  apply orb_true_iff in Hb as [Hb|Hb]; [left; auto|right; auto].
Qed.

Lemma deliver_input_ok w i :
  irq_ok w -> 0 <= i < 24 ->
  exists w', deliver_input w i = Some w' /\ irq_ok w' /\ length (iq_cpus w') = length (iq_cpus w) /\ (tracked w -> tracked w').
Proof.
  intros [Hc Hio] Hi. unfold deliver_input. rewrite route_eq by (done || lia). rewrite (proj2 (Z.leb_gt 24 i)) by lia.
  cbn [mbind option_bind]. unfold pin_route. destruct (pin_due _) eqn:Hdue; [|by exists w].
  set (r := mk_route _ _ _ _). destruct (route_targets_ok r (iq_cpus w) Hc) as (b & cpus & -> & Hok & Hk & Hn).
  cbn [mbind option_bind]. pose proof (Forall2_length _ _ _ Hk) as Hlen. destruct b.
  - destruct (accept_pin_ok (iq_ioapic w) Hio i) as (b & io & -> & Hoki & Heff); [lia|]. cbn [mbind option_bind].
    eexists. split; [done|]. split; [done|]. split; [done|]. intros Htr j v Hj. cbn [iq_ioapic iq_cpus].
    destruct b; [|subst io; intros Hf; eapply carried_Forall2; [done|by eapply Htr]].
    destruct Heff as (_ & _ & Hp). rewrite Hp by done. destruct (Z.eqb_spec i j) as [<-|]; [|intros Hf; eapply carried_Forall2; [done|by eapply Htr]].
    unfold pin_accept. cbn [p_flight]. destruct (e_level _) eqn:Hl.
    + intros [= <-]. by apply Hn.
    + intros Hf. eapply carried_Forall2; [done|by eapply Htr].
  - eexists. split; [done|]. split; [done|]. split; [done|]. intros Htr j v Hj Hf. eapply carried_Forall2; [done|]. by eapply Htr.
Qed.

Lemma deliver_inputs_ok is' : forall w,
  irq_ok w -> Forall (fun i => 0 <= i < 24) is' ->
  exists w', deliver_inputs w is' = Some w' /\ irq_ok w' /\ length (iq_cpus w') = length (iq_cpus w) /\ (tracked w -> tracked w').
Proof.
  induction is' as [|i is' IH]; intros w Hw Hin; [by exists w|]. apply Forall_cons in Hin as [Hi Hin]. cbn [deliver_inputs].
  destruct (deliver_input_ok w i Hw Hi) as (w1 & -> & Hw1 & Hl1 & Ht1). cbn [mbind option_bind].
  destruct (IH w1 Hw1 Hin) as (w2 & -> & Hw2 & Hl2 & Ht2). exists w2. split_and!; [done|done|congruence|auto].
Qed.

(** ** Commands *)

Lemma icr_deliver_ok mode vector ticks level assert_level c :
  cpu_ok c -> is_u64 ticks ->
  exists c', icr_deliver mode vector ticks level assert_level c = Some c' /\ cpu_ok c' /\ (mode <> 5 -> keeps c c').
Proof.
  intros Hc Ht. unfold icr_deliver. cbn zeta. destruct (Z.eqb_spec mode 0).
  { destruct (route_ok (cpu_apic c) vector (apic_id (cpu_apic c)) false false Hc) as (b & a & -> & Ha & Heff).
    cbn [mbind option_bind]. eexists. split; [done|]. split; [done|]. intros _ v. unfold holds_level. cbn.
    destruct b; [|by subst]. destruct Heff as (_ & _ & (_ & _ & Htm & _) & _ & _ & Hl). cbn in Htm. by rewrite Hl, Htm. }
  destruct (Z.eqb_spec mode 5) as [->|].
  { destruct (_ && _); [by exists c|]. eexists. split; [done|]. split; [|done]. unfold cpu_ok. cbn.
    pose proof (ao_id _ Hc) as Hid. destruct (aos_x86_apic_init_cpu _ _ _) as [a|] eqn:Hi; [|done]. cbn.
    eapply init_cpu_ok; [exact Ht| |exact Hi]. lia. }
  destruct (_ =? _); eexists; (split; [done|]); (split; [done|]); intros _; by intros v.
Qed.

Lemma icr_deliver_all_ok mode vector ticks level assert_level targets cpus : forall i,
  Forall cpu_ok cpus -> is_u64 ticks ->
  exists cpus', icr_deliver_all mode vector ticks level assert_level targets i cpus = Some cpus' /\ Forall cpu_ok cpus' /\
    length cpus' = length cpus /\ (mode <> 5 -> Forall2 keeps cpus cpus').
Proof.
  induction cpus as [|c cpus IH]; intros i Hok Ht; [by exists []|]. apply Forall_cons in Hok as [Hc Hok]. cbn [icr_deliver_all].
  assert (Hone : exists c', (if has_bit targets i then icr_deliver mode vector ticks level assert_level c else Some c) = Some c' /\
    cpu_ok c' /\ (mode <> 5 -> keeps c c')).
  { destruct (has_bit targets i); [by apply icr_deliver_ok|]. exists c. split_and!; [done..|]. intros _. apply keeps_refl. }
  destruct Hone as (c' & -> & Hc' & Hk). cbn [mbind option_bind]. destruct (IH (i + 1) Hok Ht) as (cpus' & -> & Hok' & Hl & Hks).
  cbn [mbind option_bind]. eexists. split; [done|]. split; [by apply Forall_cons|]. split; [cbn; lia|].
  intros Hm. apply Forall2_cons. auto.
Qed.

Definition icr_mode (command : Z) : Z := Z.land (Z.shiftr command 8) 7.

Lemma smp_icr_ok cpus sender command ticks :
  Forall cpu_ok cpus -> is_u64 ticks -> is_u32 command -> 0 <= sender ->
  exists b cpus', aos_x86_smp_icr cpus sender command ticks = Some (b, cpus') /\ Forall cpu_ok cpus' /\
    length cpus' = length cpus /\ (icr_mode command <> 5 -> forall v, carried cpus v -> carried cpus' v).
Proof.
  intros Hok Ht Hcmd Hs. unfold aos_x86_smp_icr. cbn zeta.
  assert (Hno : exists b cpus', Some (false, cpus) = Some (b, cpus') /\ Forall cpu_ok cpus' /\
    length cpus' = length cpus /\ (icr_mode command <> 5 -> forall v, carried cpus v -> carried cpus' v)) by (by exists false, cpus).
  destruct (Z.leb_spec (Z.of_nat (length cpus)) sender) as [|Hlt]; [by rewrite orb_true_r|].
  destruct (_ || _); [done|]. destruct (_ && negb _); [done|]. destruct (_ || _); [done|]. destruct (negb _); [done|].
  destruct (cpu_get cpus sender ltac:(lia) Hok) as (c & -> & Hlk & Hc). cbn [mbind option_bind].
  destruct (io_ok (cpu_apic c) 0x300 false 0 ticks Hc) as (r & -> & Hr); [done..|]. cbn [mbind option_bind].
  assert (Ha : apic_ok (from_option snd (cpu_apic c) r) /\ keeps c (set_apic (from_option snd (cpu_apic c) r) c)).
  { destruct r as [[x a]|]; [|split; [done|by intros v]]. cbn. destruct (Hr x a eq_refl) as (_ & Ha & _ & a1 & _ & (_ & _ & Ht1 & Hl1 & _) & Hq & _).
    destruct Hq as (_ & Ht2 & Hl2 & _); [done|]. split; [done|]. intros v. unfold holds_level. cbn. by rewrite Ht2, Hl2, Ht1, Hl1. }
  destruct Ha as [Ha Hk]. set (a := from_option snd (cpu_apic c) r) in *.
  rewrite aset_Some by lia. cbn [mbind option_bind]. set (c2 := set_apic _ c).
  assert (Hc2 : cpu_ok c2) by (by apply put_icr_low_ok).
  destruct (icr_deliver_all_ok (icr_mode command) (Z.land command 255) ticks (flag command 0x8000) (flag command 0x4000)
    (icr_targets command (Z.land (Z.shiftr command 18) 3) (Z.shiftr (icr_high (a_regs (cpu_apic c))) 24) sender 0 cpus)
    (<[Z.to_nat sender := c2]> cpus) 0) as (cpus' & Hd & Hok' & Hl & Hks); [by apply Forall_insert|done|].
  unfold icr_mode in Hd. rewrite Hd. cbn [mbind option_bind]. eexists true, _. split; [done|]. split; [done|].
  split; [by rewrite Hl, length_insert|]. intros Hm v Hv. eapply carried_Forall2; [by apply Hks|].
  eapply carried_Forall2; [|done]. by eapply keeps_insert.
Qed.

(** ** Accesses *)

(** The vector whose end is broadcast, and what the processor loses. *)
Lemma eoi_keeps a a1 a' :
  apic_ok a -> frame a a1 -> ended a1 a' -> forall v,
  wmem (irr_level a) v || wmem (tmr a) v = true ->
  wmem (irr_level a') v || wmem (tmr a') v = true \/ (exists rest, in_service a = (v, true) :: rest).
Proof.
  intros Ha (_ & Hi & Ht & Hl & _) (_ & _ & _ & Hl' & _ & _ & Ht') v Hv.
  assert (Hs : in_service a1 = in_service a) by (unfold in_service; by rewrite Hi, Ht).
  rewrite Hl', Ht', Hl, Ht, Hs. destruct (wmem (irr_level a) v); [by left|]. cbn in Hv |- *. rewrite Hv, andb_true_r.
  case_bool_decide as Hh; [|by left]. right. unfold in_service in *. destruct (members (isr a)) as [|u us]; [done|].
  cbn in Hh. injection Hh as ->. eexists. cbn. by rewrite Hv.
Qed.

Lemma top_vector a v rest : apic_ok a -> in_service a = (v, true) :: rest -> 16 <= v < 256.
Proof.
  intros Ha Hs. unfold in_service in Hs. destruct (members (isr a)) as [|u us] eqn:Hm; [done|]. injection Hs as -> _ _.
  apply (vector_range (isr a) v); [apply Ha|]. by apply (head_member (isr a) v us); [apply Ha|].
Qed.

Lemma flight_eoi v p u : p_flight (pin_eoi v p) = Some u -> p_flight p = Some u /\ u <> v.
Proof. unfold pin_eoi. cbn. case_bool_decide as H; [done|]. intros Hu. split; [done|]. congruence. Qed.

(** An access that goes to the local controller itself. *)
Lemma local_io_ok w cpu c off write value ticks :
  irq_ok w -> cpu_ok c -> iq_cpus w !! Z.to_nat cpu = Some c -> is_u32 value -> is_u64 ticks ->
  exists e r, (if (off =? 0xb0) && write then aos_x86_apic_eoi_vector (cpu_apic c) else Some 0) = Some e /\
    aos_x86_apic_io (cpu_apic c) off write value ticks = Some r /\
    forall v a, r = Some (v, a) -> apic_ok a /\
      exists io, (if e =? 0 then Some (iq_ioapic w) else aos_x86_ioapic_eoi (iq_ioapic w) e) = Some io /\ ioapic_ok io /\
        (tracked w -> tracked (mk_irq (<[Z.to_nat cpu := set_apic a c]> (iq_cpus w)) io)).
Proof.
  intros [Hcs Hio] Hc Hlk Hv Ht. destruct (io_ok (cpu_apic c) off write value ticks Hc Hv Ht) as (r & Hr & Heff).
  destruct ((off =? 0xb0) && write) eqn:Heoi.
  - apply andb_true_iff in Heoi as [->%Z.eqb_eq ->]. rewrite eoi_vector_eq by done. eexists _, r. split; [done|]. split; [done|].
    intros v a E. destruct (Heff v a E) as (_ & Ha & _ & a1 & _ & Hfr & _ & He). destruct (He eq_refl) as (_ & _ & Hend).
    split; [done|]. pose proof (eoi_keeps _ _ _ Hc Hfr Hend) as Hk.
    assert (Hcarry : forall u, carried (iq_cpus w) u -> carried (<[Z.to_nat cpu := set_apic a c]> (iq_cpus w)) u \/
      exists rest, in_service (cpu_apic c) = (u, true) :: rest).
    { intros u (d & Hd & Hu). apply list_elem_of_lookup_1 in Hd as [k Hd]. destruct (decide (k = Z.to_nat cpu)) as [->|Hne].
      - rewrite Hlk in Hd. injection Hd as <-. destruct (Hk u Hu) as [Hl|?]; [left|by right].
        exists (set_apic a c). split; [|done]. eapply list_elem_of_lookup_2, list_lookup_insert_eq. by eapply lookup_lt_Some.
      - left. exists d. split; [|done]. eapply list_elem_of_lookup_2. by rewrite list_lookup_insert_ne. }
    destruct (in_service (cpu_apic c)) as [|[u [|]] rest] eqn:Hs; cbn [Z.eqb].
    + eexists. split_and!; [done|done|]. intros Htr j x Hj Hf. destruct (Hcarry x (Htr j x Hj Hf)) as [?|[? ?]]; done.
    + pose proof (top_vector _ _ _ Hc Hs) as Hu. rewrite (proj2 (Z.eqb_neq u 0)) by lia.
      destruct (eoi_pin_ok (iq_ioapic w) u Hio Hu) as (io & -> & Hoki & Hp). eexists. split_and!; [done|done|].
      intros Htr j x Hj. cbn [iq_ioapic iq_cpus]. rewrite Hp by done. intros [Hf Hne]%flight_eoi.
      destruct (Hcarry x (Htr j x Hj Hf)) as [?|[rest' Hr']]; [done|]. congruence.
    + eexists. split_and!; [done|done|]. intros Htr j x Hj Hf. destruct (Hcarry x (Htr j x Hj Hf)) as [?|[? ?]]; done.
  - exists 0, r. split; [done|]. split; [done|]. intros v a E. destruct (Heff v a E) as (_ & Ha & _ & a1 & _ & Hfr & Hq & He).
    split; [done|]. cbn [Z.eqb]. eexists. split_and!; [done|done|]. intros Htr j x Hj Hf.
    eapply carried_Forall2; [|by eapply Htr]. eapply keeps_insert; [done|].
    destruct (Z.eqb_spec off 0xb0) as [->|Hne]; [destruct (He eq_refl) as (-> & _); done|].
    destruct (Hq Hne) as (_ & Ht2 & Hl2 & _). destruct Hfr as (_ & _ & Ht1 & Hl1 & _). intros u. unfold holds_level. cbn.
    by rewrite Ht2, Hl2, Ht1, Hl1.
Qed.

(** Whether a step resets a processor: an INIT command. *)
Definition resets (o : irq_op) : bool :=
  match o with
  | LocalAccess _ off write value _ => write && (off =? 0x300) && (icr_mode value =? 5)
  | _ => false
  end.

(** What every step promises. *)
Definition step_promise (w : irq_world) (o : irq_op) (r : option irq_world) : Prop :=
  forall w', r = Some w' -> irq_ok w' /\ length (iq_cpus w') = length (iq_cpus w) /\
    (resets o = false -> tracked w -> tracked w').

Lemma local_access_ok w cpu off write value ticks :
  irq_ok w -> irq_op_ok w (LocalAccess cpu off write value ticks) ->
  exists r, irq_run w (LocalAccess cpu off write value ticks) = Some r /\
    step_promise w (LocalAccess cpu off write value ticks) r.
Proof.
  intros Hw (Hcpu & _ & Hv & Ht). cbn [irq_run]. unfold local_access.
  destruct (cpu_get (iq_cpus w) cpu Hcpu (qo_cpus w Hw)) as (c & -> & Hlk & Hc). cbn [mbind option_bind].
  destruct (write && (off =? 0x300)) eqn:Hicr.
  - pose proof Hicr as [-> ->%Z.eqb_eq]%andb_true_iff. cbn [andb Z.eqb Pos.eqb mbind option_bind].
    destruct (smp_icr_ok (iq_cpus w) cpu value ticks (qo_cpus w Hw) Ht Hv) as (b & cpus & -> & Hok & Hl & Hk); [lia|].
    cbn [mbind option_bind]. destruct b; [|by exists None]. eexists. split; [done|]. intros w' [= <-]. split_and!.
    + split; [done|apply Hw].
    + done.
    + cbn [resets]. rewrite Hicr. cbn [andb]. intros Hm Htr j v Hj Hf. apply Hk; [by apply Z.eqb_neq|]. by eapply Htr.
  - destruct (local_io_ok w cpu c off write value ticks Hw Hc Hlk Hv Ht) as (e & r & -> & Hio & Heff). cbn [mbind option_bind].
    rewrite Hio. cbn [mbind option_bind]. destruct r as [[v a]|]; [|by exists None].
    destruct (Heff v a eq_refl) as (Ha & io & Hio' & Hoki & Htr). rewrite aset_Some by done. cbn [mbind option_bind].
    rewrite Hio'. cbn [mbind option_bind]. eexists. split; [done|]. intros w' [= <-]. split_and!; [|apply length_insert|done].
    split; [|done]. apply Forall_insert; [apply Hw|done].
Qed.

(** The processor's request becomes its interrupt in service. *)
Lemma accept_keeps a v a' c :
  apic_ok a -> eligible a = v -> 16 <= v < 256 -> accepted a v a' -> keeps (set_apic a c) (set_apic a' c).
Proof.
  intros Ha He Hv (_ & _ & Hl & Ht & _) u. unfold holds_level. cbn. rewrite Hl, Ht.
  destruct (Z.eqb_spec v u) as [<-|]; [|done]. cbn. destruct (eligible_spec a v Ha He) as (_ & _ & _ & Hcl); [lia|].
  rewrite (tmr_not_serving a v Ha); [by rewrite orb_false_r|].
  destruct (wmem (isr a) v) eqn:Hi; [|done]. specialize (Hcl v Hi). lia.
Qed.

Lemma pending_keeps c t v a :
  cpu_ok c -> is_u64 t -> aos_x86_apic_pending (cpu_apic c) t = Some (v, a) -> apic_ok a /\ 0 <= v /\ keeps c (set_apic a c).
Proof.
  intros Hc Ht Hp. destruct (Z.ltb_spec t (now (cpu_apic c))) as [Hlt|Hle].
  - unfold aos_x86_apic_pending in Hp. rewrite (proj2 (Z.ltb_lt _ _) Hlt) in Hp. injection Hp as <- <-. split; [done|]. split; [done|by intros u].
  - assert (Hr : now (cpu_apic c) <= t < 2 ^ 64) by (unfold is_u64 in Ht; lia).
    destruct (advance_ok (cpu_apic c) t Hc Hr) as (a1 & Hadv & Ha & (_ & _ & Htm & Hl & _) & _).
    destruct (pending_eq (cpu_apic c) t Hc Hr) as (a2 & Hadv2 & Hp2). rewrite Hadv in Hadv2. injection Hadv2 as <-.
    rewrite Hp in Hp2. injection Hp2 as -> <-. split; [done|]. split; [|intros u; unfold holds_level; cbn; by rewrite Htm, Hl].
    destruct (invalid_vector a); [done|]. destruct (decide (eligible a = 0)) as [->|Hne]; [done|].
    destruct (eligible_spec a (eligible a) Ha eq_refl Hne) as (Hm & _). apply (vector_range (irr a)) in Hm; [lia|apply Ha].
Qed.

Lemma prepare_entry_ok w cpu t gp protected len flags inter :
  irq_ok w -> irq_op_ok w (PrepareEntry cpu t gp protected len flags inter) ->
  exists r, irq_run w (PrepareEntry cpu t gp protected len flags inter) = Some r /\
    step_promise w (PrepareEntry cpu t gp protected len flags inter) r.
Proof.
  intros Hw (Hcpu & Ht & _). cbn [irq_run]. unfold prepare_entry.
  destruct (cpu_get (iq_cpus w) cpu Hcpu (qo_cpus w Hw)) as (c & -> & Hlk & Hc). cbn [mbind option_bind].
  destruct (aos_x86_apic_pending (cpu_apic c) t) as [[v a]|] eqn:Hp.
  2:{ exfalso. destruct (run_op_ok (cpu_apic c) (OpPending t) Hc Ht) as (a' & Hr & _). cbn in Hr. by rewrite Hp in Hr. }
  destruct (pending_keeps c t v a Hc Ht Hp) as (Ha & Hv0 & Hk). cbn [mbind option_bind]. destruct (v =? _); [by exists None|].
  destruct (aos_x86_entry_event _ _ _ _ _ _) as [event|]; [|by exists None].
  assert (Hacc : exists ok a', (if accept_irq event then aos_x86_apic_accept a v else Some (true, a)) = Some (ok, a') /\
    apic_ok a' /\ keeps c (set_apic a' c)).
  { destruct (accept_irq event); [|by exists true, a]. destruct (accept_ok a v Ha Hv0) as (b & a' & -> & Ha' & Heff).
    exists b, a'. split_and!; [done..|]. destruct b; [|by subst]. destruct Heff as (He & Hr & _ & Hx). intros u Hu.
    by apply (accept_keeps a v a' c Ha He Hr Hx), Hk. }
  destruct Hacc as (ok & a' & -> & Ha' & Hk'). cbn [mbind option_bind]. destruct ok; [|by exists None].
  rewrite aset_Some by done. cbn [mbind option_bind]. eexists. split; [done|]. intros w' [= <-]. split_and!.
  - split; [|apply Hw]. apply Forall_insert; [apply Hw|done].
  - apply length_insert.
  - intros _ Htr j x Hj Hf. eapply carried_Forall2; [|by eapply Htr]. by eapply keeps_insert.
Qed.

Lemma irq_run_ok w o : irq_ok w -> irq_op_ok w o -> exists r, irq_run w o = Some r /\ step_promise w o r.
Proof.
  intros Hw Ho. destruct o as [cpu off write value t|off write value|i b| |cpu t gp pr len fl inter|cpu rebuilt started].
  - by apply local_access_ok.
  - destruct Ho as [_ Hv]. cbn [irq_run]. unfold io_access.
    destruct (ioapic_io_ok (iq_ioapic w) off write value (qo_ioapic w Hw) Hv) as (r & -> & Heff). cbn [mbind option_bind].
    destruct r as [[v io]|]; [|by exists None]. destruct (Heff v io eq_refl) as (Hok & _ & Hp). eexists. split; [done|].
    intros w' [= <-]. split_and!; [by split; [apply Hw|]|done|]. intros _ Htr j x Hj Hf. apply (Htr j x Hj). revert Hf.
    cbn [iq_ioapic]. by rewrite (Hp j Hj).
  - cbn [irq_run]. destruct (set_irq_ok (iq_ioapic w) (qo_ioapic w Hw) i b) as (r & io & -> & Hok & Heff); [apply Ho|].
    cbn [mbind option_bind]. eexists. split; [done|]. intros w' [= <-]. split_and!; [by split; [apply Hw|]|done|].
    intros _ Htr j x Hj Hf. apply (Htr j x Hj). revert Hf. cbn [iq_ioapic]. destruct r; [|by subst].
    destruct Heff as [_ Hp]. rewrite (Hp j Hj). by destruct (Z.eqb_spec i j) as [->|].
  - cbn [irq_run]. unfold deliver. destruct (deliver_inputs_ok (seqZ 0 AOS_X86_IOAPIC_INPUTS) w Hw) as (w1 & -> & Hw1 & Hl & Htr).
    { apply Forall_forall. intros i. rewrite elem_of_seqZ. unfold AOS_X86_IOAPIC_INPUTS. lia. }
    cbn. eexists. split; [done|]. intros w' [= <-]. split_and!; [done..|]. auto.
  - by apply prepare_entry_ok.
  - cbn [irq_run irq_op_ok] in *. destruct (cpu_get (iq_cpus w) cpu Ho (qo_cpus w Hw)) as (c & -> & Hlk & Hc). cbn [mbind option_bind].
    destruct (apply_startup_cpu rebuilt started c) as [c'|] eqn:Ha; [|by exists None]. rewrite aset_Some by done.
    cbn [mbind option_bind]. eexists. split; [done|].
    assert (Hsame : cpu_apic c' = cpu_apic c).
    { unfold apply_startup_cpu in Ha. repeat case_match; simplify_eq/=; done. }
    intros w' [= <-]. split_and!.
    + split; [|apply Hw]. apply Forall_insert; [apply Hw|]. unfold cpu_ok. by rewrite Hsame.
    + apply length_insert.
    + intros _ Htr j x Hj Hf. eapply carried_Forall2; [|by eapply Htr]. eapply keeps_insert; [done|].
      intros u. unfold holds_level. by rewrite Hsame.
Qed.

(** ** Runs *)

(** Controllers after reset. *)
Definition irq_initial (w : irq_world) : Prop :=
  Forall (fun c => exists t id bsp, is_u64 t /\ 0 <= id /\ aos_x86_apic_init_cpu t id bsp = Some (cpu_apic c)) (iq_cpus w) /\
  exists id, 0 <= id /\ aos_x86_ioapic_init id = Some (iq_ioapic w).

(** Reached without an INIT command. *)
Inductive irq_reachable : irq_world -> Prop :=
  | irq_start w : irq_initial w -> irq_reachable w
  | irq_next w o w' :
      irq_reachable w -> irq_op_ok w o -> resets o = false -> irq_run w o = Some (Some w') -> irq_reachable w'.

Lemma irq_initial_ok w : irq_initial w -> irq_ok w /\ tracked w.
Proof.
  intros [Hc (id & Hid & Hio)]. split.
  - split; [|by eapply ioapic_init_ok]. eapply Forall_impl; [exact Hc|]. intros c (t & i & bsp & Ht & Hi & Ha). by eapply init_cpu_ok.
  - intros i v Hi. unfold aos_x86_ioapic_init in Hio. destruct (15 <? id); [done|]. injection Hio as <-. done.
Qed.

Lemma irq_reachable_ok w : irq_reachable w -> irq_ok w /\ tracked w.
Proof.
  induction 1 as [w Hi|w o w' _ [Hw Htr] Ho Hr Hrun]; [by apply irq_initial_ok|].
  destruct (irq_run_ok w o Hw Ho) as (r & Hr' & Hp). rewrite Hrun in Hr'. injection Hr' as <-.
  destruct (Hp w' eq_refl) as (Hw' & _ & Ht). auto.
Qed.

(** A level-triggered input that is asserted, unmasked and not in flight is
    due. *)
Lemma level_due s i :
  ioapic_ok s -> 0 <= i < 24 -> let p := pin_of s i in
  e_masked (p_entry p) = false -> e_level (p_entry p) = true -> p_line p = true -> p_flight p = None -> pin_due p = true.
Proof.
  intros Hs Hi p Hm Hl Hline Hf. unfold pin_due. rewrite Hm, Hl, Hline, bool_decide_true by done. cbn [negb andb].
  destruct (entry_ok s Hs i Hi) as [_ Hv]. fold p in Hv. rewrite flag_mask, land_vector in Hv. rewrite andb_true_r.
  apply Z.leb_le. by apply Hv.
Qed.

(** ** The scheduler *)

Definition cpus_valid (cpus : list smp_cpu) : Prop := (1 <= length cpus <= 32)%nat /\ Forall (fun c => state_ok c = true) cpus.

Definition runnable_at (cpus : list smp_cpu) (i : Z) : bool := runnable (cpus !!! Z.to_nat i).

Lemma next_from_spec cpus current n : forall step,
  (1 <= length cpus)%nat ->
  exists r, next_from cpus (Z.of_nat (length cpus)) current step n = Some r /\
    match r with
    | Some cpu => exists k, step <= k < step + Z.of_nat n /\ cpu = (current + k) mod Z.of_nat (length cpus) /\
        runnable_at cpus cpu = true /\
        forall j, step <= j < k -> runnable_at cpus ((current + j) mod Z.of_nat (length cpus)) = false
    | None => forall j, step <= j < step + Z.of_nat n -> runnable_at cpus ((current + j) mod Z.of_nat (length cpus)) = false
    end.
Proof.
  induction n as [|n IH]; intros step Hl; cbn [next_from]; [eexists; split; [done|]; intros j Hj; exfalso; lia|].
  pose proof (Z.mod_pos_bound (current + step) (Z.of_nat (length cpus)) ltac:(lia)) as Hb.
  rewrite aget_total by lia. cbn [mbind option_bind].
  change (runnable (cpus !!! Z.to_nat ((current + step) mod Z.of_nat (length cpus))))
    with (runnable_at cpus ((current + step) mod Z.of_nat (length cpus))).
  destruct (runnable_at cpus _) eqn:Hr.
  - eexists. split; [done|]. exists step. split_and!; [lia|lia|done|done|intros j Hj; exfalso; lia].
  - destruct (IH (step + 1) Hl) as (r & -> & Hs). eexists. split; [done|]. destruct r as [cpu|].
    + destruct Hs as (k & Hk & Hc & Hrun & Hno). exists k. split_and!; [lia|lia|done|done|]. intros j Hj.
      destruct (decide (j = step)) as [->|]; [done|]. apply Hno. lia.
    + intros j Hj. destruct (decide (j = step)) as [->|]; [done|]. apply Hs. lia.
Qed.

Lemma smp_next_eq cpus current :
  cpus_valid cpus -> 0 <= current < Z.of_nat (length cpus) ->
  aos_x86_smp_next cpus current = next_from cpus (Z.of_nat (length cpus)) current 1 (length cpus).
Proof.
  intros [Hl Hs] Hc. unfold aos_x86_smp_next, AOS_X86_SMP_MAX_CPUS. cbn zeta.
  destruct (Z.eqb_spec (Z.of_nat (length cpus)) 0), (Z.ltb_spec 32 (Z.of_nat (length cpus))),
    (Z.leb_spec (Z.of_nat (length cpus)) current); try lia. cbn [orb].
  assert (forallb state_ok cpus = true) as ->; [|done]. apply forallb_forall. intros c Hin. rewrite Forall_forall in Hs.
  apply Hs. by apply list_elem_of_In.
Qed.

(** The processors chosen when the scheduler runs once on each snapshot. *)
Fixpoint schedule (snapshots : list (list smp_cpu)) (current : Z) : list Z :=
  match snapshots with
  | [] => []
  | cpus :: snapshots =>
      match aos_x86_smp_next cpus current with
      | Some (Some cpu) => cpu :: schedule snapshots cpu
      | _ => schedule snapshots current
      end
  end.

(** The number of steps from [current] to [cpu], around the ring. *)
Definition distance (count current cpu : Z) : Z := (cpu - current - 1) mod count + 1.

Lemma distance_reach count current cpu :
  0 < count -> 0 <= cpu < count -> (current + distance count current cpu) mod count = cpu.
Proof.
  intros Hc Hr. unfold distance. rewrite Z.add_assoc, (Z.add_comm _ 1), Z.add_assoc, Zplus_mod_idemp_r.
  replace (1 + current + (cpu - current - 1)) with cpu by lia. by apply Z.mod_small.
Qed.

Lemma distance_step count current cpu k :
  0 < count -> 0 <= cpu < count -> 1 <= k < distance count current cpu ->
  distance count ((current + k) mod count) cpu = distance count current cpu - k.
Proof.
  intros Hc Hr Hk. unfold distance in *. pose proof (Z.mod_pos_bound (cpu - current - 1) count Hc).
  assert (Heq : (cpu - (current + k) mod count - 1) mod count = (cpu - current - 1 - k) mod count).
  { replace (cpu - (current + k) mod count - 1) with (cpu - 1 - (current + k) mod count) by lia.
    rewrite Zminus_mod_idemp_r. f_equal. lia. }
  rewrite Heq, <- Zminus_mod_idemp_l, (Z.mod_small (_ - k)) by lia. lia.
Qed.

Lemma schedule_fair count cpu snapshots : forall current,
  0 <= cpu < count -> 0 <= current < count ->
  Forall (fun cpus => cpus_valid cpus /\ Z.of_nat (length cpus) = count /\ runnable_at cpus cpu = true) snapshots ->
  distance count current cpu <= Z.of_nat (length snapshots) -> cpu ∈ schedule snapshots current.
Proof.
  induction snapshots as [|cpus snapshots IH]; intros current Hcpu Hcur Hall Hd.
  { exfalso. unfold distance in Hd. pose proof (Z.mod_pos_bound (cpu - current - 1) count ltac:(lia)). cbn in Hd. lia. }
  apply Forall_cons in Hall as [(Hv & Hlen & Hrun) Hall]. cbn [schedule]. cbn [length] in Hd.
  rewrite smp_next_eq by (done || lia). destruct (next_from_spec cpus current (length cpus) 1) as (r & -> & Hs); [apply Hv|].
  rewrite Hlen in Hs. pose proof (distance_reach count current cpu ltac:(lia) Hcpu) as Hreach.
  assert (Hdb : 1 <= distance count current cpu <= count).
  { unfold distance. pose proof (Z.mod_pos_bound (cpu - current - 1) count ltac:(lia)). lia. }
  destruct r as [next|].
  - destruct Hs as (k & Hk & -> & Hrun' & Hno).
    destruct (Z.lt_trichotomy k (distance count current cpu)) as [Hlt|[->|Hgt]].
    + right. apply IH; [done|by apply Z.mod_pos_bound; lia|done|]. rewrite distance_step by (done || lia). lia.
    + rewrite Hreach. left.
    + exfalso. specialize (Hno (distance count current cpu) ltac:(lia)). rewrite Hreach in Hno. congruence.
  - exfalso. specialize (Hs (distance count current cpu) ltac:(lia)). rewrite Hreach in Hs. congruence.
Qed.

(** ** Theorems *)

(** C5. No level-triggered interrupt is lost between the controllers. In
    every state that the coordinator reaches, whatever the guest writes to
    the controllers and to the command register short of an INIT, and however
    lines change, deliveries and entries interleave, no call leaves an array,
    and every interrupt in flight at the I/O controller is requested or in
    service as level-triggered at a processor, so that its end can still
    come; when no processor holds one, each asserted, unmasked level input
    is due again. *)
Theorem irq_level_never_lost w :
  irq_reachable w ->
  irq_ok w /\ tracked w /\
  (forall o, irq_op_ok w o -> is_Some (irq_run w o)) /\
  (forall i, 0 <= i < 24 -> (forall c v, c ∈ iq_cpus w -> holds_level c v = false) ->
     let p := pin_of (iq_ioapic w) i in
     e_masked (p_entry p) = false -> e_level (p_entry p) = true -> p_line p = true -> pin_due p = true).
Proof.
  intros Hr. destruct (irq_reachable_ok w Hr) as [Hw Htr]. split_and!; [done..| |].
  - intros o Ho. destruct (irq_run_ok w o Hw Ho) as (r & -> & _). done.
  - intros i Hi Hno p Hm Hl Hline. apply (level_due (iq_ioapic w) i); [apply Hw|done..|].
    destruct (p_flight (pin_of (iq_ioapic w) i)) as [v|] eqn:Hf; [|done]. exfalso.
    destruct (Htr i v Hi Hf) as (c & Hc & Hh). by rewrite Hno in Hh.
Qed.

(** The scheduler is fair: a processor that stays runnable is chosen
    within as many rounds as there are processors, whatever the others do in
    between. *)
Theorem smp_next_fair count cpu current snapshots :
  0 <= cpu < count -> 0 <= current < count -> Z.of_nat (length snapshots) = count ->
  Forall (fun cpus => cpus_valid cpus /\ Z.of_nat (length cpus) = count /\ runnable_at cpus cpu = true) snapshots ->
  cpu ∈ schedule snapshots current.
Proof.
  intros Hcpu Hcur Hl Hall. apply (schedule_fair count); [done..|]. unfold distance.
  pose proof (Z.mod_pos_bound (cpu - current - 1) count ltac:(lia)). lia.
Qed.

(** ** An instance *)

Definition example_cpu : smp_cpu := mk_cpu example_reset AOS_X86_CPU_RUNNING false 0.
Definition example_irq : irq_world := mk_irq [example_cpu] (default inhabitant (aos_x86_ioapic_init 1)).

Lemma example_irq_initial : irq_initial example_irq.
Proof.
  split.
  - apply Forall_cons. split; [|apply Forall_nil_2]. exists 3, 0, true. split; [done|]. split; [lia|done].
  - by exists 1.
Qed.

(** Enable the local controller, program input 5, assert it, deliver it and
    enter the guest. *)
Definition example_irq_ops : list irq_op :=
  [LocalAccess 0 0xf0 true 0x1ff 5; IoAccess 0 true 0x1a; IoAccess 0x10 true 0x8041; Line 5 true; Deliver;
   PrepareEntry 0 6 false true 3 0x200 0].

Fixpoint irq_runs (w : irq_world) (os : list irq_op) : irq_world :=
  match os with
  | [] => w
  | o :: os => match irq_run w o with Some (Some w') => irq_runs w' os | _ => w end
  end.

Definition example_served : irq_world := irq_runs example_irq example_irq_ops.

Lemma irq_runs_reachable os : forall w,
  irq_reachable w -> length (iq_cpus w) = 1%nat -> Forall (fun o => irq_op_ok example_irq o /\ resets o = false) os ->
  irq_reachable (irq_runs w os).
Proof.
  induction os as [|o os IH]; intros w Hw Hl Hos; [done|]. apply Forall_cons in Hos as [[Ho Hr] Hos]. cbn [irq_runs].
  assert (Ho' : irq_op_ok w o). { destruct o; cbn [irq_op_ok] in *; rewrite ?Hl; done. }
  destruct (irq_run w o) as [[w'|]|] eqn:Hrun; [|done|done]. apply IH; [by eapply irq_next| |done].
  destruct (irq_reachable_ok w Hw) as [Hwok _]. destruct (irq_run_ok w o Hwok Ho') as (r & Hr' & Hp).
  rewrite Hrun in Hr'. injection Hr' as <-. by destruct (Hp w' eq_refl) as (_ & -> & _).
Qed.

Lemma example_served_reachable : irq_reachable example_served.
Proof.
  apply irq_runs_reachable; [apply irq_start, example_irq_initial|done|].
  repeat (apply Forall_cons; split; [by vm_compute; intuition congruence|]). apply Forall_nil_2.
Qed.

(** Vector 65 is in service at the processor and in flight at input 5. *)
Lemma irq_level_never_lost_witness :
  tracked example_served /\
  p_flight (pin_of (iq_ioapic example_served) 5) = Some 65 /\
  (fun c => in_service (cpu_apic c)) <$> iq_cpus example_served = [[(65, true)]].
Proof.
  split; [|split; by vm_compute].
  destruct (irq_level_never_lost example_served example_served_reachable) as (_ & H & _). exact H.
Defined.

Lemma smp_next_fair_witness :
  1 ∈ schedule [[example_cpu; example_cpu]; [mk_cpu example_reset AOS_X86_CPU_WAIT_SIPI false 0; example_cpu]] 1.
Proof.
  apply (smp_next_fair 2 1 1); [lia|lia|done|].
  repeat (apply Forall_cons; split; [split; [split; [cbn; lia|by repeat constructor]|done]|]). apply Forall_nil_2.
Defined.
