(* ===== verification/X86Rtc.v ===== *)
(** * The real-time clock of an x86 guest

    [platform/guest-vmm/x86_rtc.c] and its header: a private calendar clock
    that counts ticks of a monotonic counter, with the register file of the
    MC146818: time, date and century, alarm, and the control registers. A
    date is an array of eight bytes: second, minute, hour, weekday, day,
    month, year of the century, century.

    [None] is an access outside an array or a loop out of fuel; a call that
    the C code refuses with [false] is [Some None]. *)

From S2P Require Import Prelude BitSet.
From stdpp Require Import options.

#[local] Open Scope Z_scope.

Definition AOS_X86_RTC_HZ : Z := 3579545.
Definition LIMIT : Z := 253402300800.

Record rtc := mk_rtc {
  epoch : Z; base : Z; last : Z; reg_a : Z; reg_b : Z; rtc_flags : Z; weekday_bias : Z;
  staged : list Z; alarm : list Z }.

Definition set_flags (v : Z) (r : rtc) : rtc :=
  mk_rtc (epoch r) (base r) (last r) (reg_a r) (reg_b r) v (weekday_bias r) (staged r) (alarm r).
Definition set_last (v : Z) (r : rtc) : rtc :=
  mk_rtc (epoch r) (base r) v (reg_a r) (reg_b r) (rtc_flags r) (weekday_bias r) (staged r) (alarm r).
Definition set_staged (l : list Z) (r : rtc) : rtc :=
  mk_rtc (epoch r) (base r) (last r) (reg_a r) (reg_b r) (rtc_flags r) (weekday_bias r) l (alarm r).
Definition set_alarm (l : list Z) (r : rtc) : rtc :=
  mk_rtc (epoch r) (base r) (last r) (reg_a r) (reg_b r) (rtc_flags r) (weekday_bias r) (staged r) l.
Definition set_date (e bias b : Z) (r : rtc) : rtc :=
  mk_rtc e b (last r) (reg_a r) (reg_b r) (rtc_flags r) bias (staged r) (alarm r).
Definition set_a (v : Z) (r : rtc) : rtc :=
  mk_rtc (epoch r) (base r) (last r) v (reg_b r) (rtc_flags r) (weekday_bias r) (staged r) (alarm r).
Definition set_b (v : Z) (r : rtc) : rtc :=
  mk_rtc (epoch r) (base r) (last r) (reg_a r) v (rtc_flags r) (weekday_bias r) (staged r) (alarm r).

(** ** The calendar *)

Definition leap (y : Z) : bool := (y mod 4 =? 0) && (negb (y mod 100 =? 0) || (y mod 400 =? 0)).
Definition year_days (y : Z) : Z := 365 + (if leap y then 1 else 0).

Definition month_table : list Z := [31; 28; 31; 30; 31; 30; 31; 31; 30; 31; 30; 31].
Definition month_days (y m : Z) : option Z :=
  d ← aget month_table (m - 1); Some (d + (if (m =? 2) && leap y then 1 else 0)).

(** The two loops of [decode]: what is left of the days, and the year or
    month reached. *)
Fixpoint year_loop (fuel : nat) (days y : Z) : option (Z * Z) :=
  match fuel with
  | O => None
  | S fuel => if year_days y <=? days then year_loop fuel (days - year_days y) (y + 1) else Some (days, y)
  end.
Fixpoint month_loop (fuel : nat) (days y m : Z) : option (Z * Z) :=
  match fuel with
  | O => None
  | S fuel => n ← month_days y m; if n <=? days then month_loop fuel (days - n) y (m + 1) else Some (days, m)
  end.

Definition decode (seconds : Z) : option (list Z) :=
  let days := seconds / 86400 in
  '(rest, y) ← year_loop (S (Z.to_nat (days / 365))) days 1970;
  '(rest, m) ← month_loop 12 rest y 1;
  Some [u8 (seconds mod 60); u8 (seconds / 60 mod 60); u8 (seconds / 3600 mod 24); u8 ((days + 4) mod 7 + 1);
        u8 (rest + 1); u8 m; u8 (y mod 100); u8 (y / 100)].

(** The two sums of [encode]. *)
Fixpoint years_before (n : nat) (y : Z) : Z :=
  match n with O => 0 | S n => year_days y + years_before n (y + 1) end.
Fixpoint months_before (n : nat) (y m : Z) : option Z :=
  match n with O => Some 0 | S n => d ← month_days y m; s ← months_before n y (m + 1); Some (d + s) end.

Definition encode (f : list Z) : option (option Z) :=
  match f with
  | [f0; f1; f2; f3; f4; f5; f6; f7] =>
      let y := f7 * 100 + f6 in
      let m := f5 in
      if (y <? 1970) || (9999 <? y) || (m <? 1) || (12 <? m) || (f4 <? 1) then Some None else
      n ← month_days y m;
      if (n <? f4) || (59 <? f0) || (59 <? f1) || (23 <? f2) || (f3 <? 1) || (7 <? f3) then Some None else
      before ← months_before (Z.to_nat (m - 1)) y 1;
      let days := years_before (Z.to_nat (y - 1970)) 1970 + before in
      Some (Some ((days + f4 - 1) * 86400 + f2 * 3600 + f1 * 60 + f0))
  | _ => None
  end.

(** ** Time *)

Definition aos_x86_rtc_init (e ticks : Z) : option rtc :=
  if LIMIT <=? e then None
  else Some (mk_rtc e ticks ticks 0x26 2 0 0 (replicate 8 0) (replicate 3 0)).

Definition rate (a : Z) : Z :=
  let rs := Z.land a 15 in
  if rs =? 0 then 0 else if rs =? 1 then 256 else if rs =? 2 then 128 else u32 (Z.shiftl 1 (16 - rs)).

Definition periods (ticks hz : Z) : Z :=
  u64 (u64 (ticks / AOS_X86_RTC_HZ * hz) + u64 (ticks mod AOS_X86_RTC_HZ * hz) / AOS_X86_RTC_HZ).

Definition divider_reset (a : Z) : bool := Z.land a 0x60 =? 0x60.

Definition output (v : Z) (binary : bool) : Z := if binary then v else v / 10 * 16 + v mod 10.
Definition input (v : Z) (binary : bool) : option Z :=
  if negb binary && ((9 <? Z.land v 15) || (9 <? Z.shiftr v 4)) then None
  else Some (if binary then v else Z.shiftr v 4 * 10 + Z.land v 15).

(** An hour in the format of twelve: the digit and the afternoon flag. *)
Definition hour12 (d raw : Z) : option Z :=
  if (d =? 0) || (12 <? d) then None else Some (d mod 12 + (if flag raw 0x80 then 12 else 0)).

(** [-1] is any. *)
Definition alarm_value (r : rtc) (n raw : Z) : option Z :=
  if Z.land raw 0xc0 =? 0xc0 then Some (-1) else
  let twelve := (n =? 2) && negb (flag (reg_b r) 2) in
  d ← input (if twelve then Z.land raw 0x7f else raw) (flag (reg_b r) 4);
  d ← (if twelve then hour12 d raw else Some d);
  if (if n =? 2 then 23 else 59) <? d then None else Some d.

Definition alarm_matches (a0 a1 a2 t : Z) : bool :=
  ((a0 <? 0) || (a0 =? t mod 60)) && ((a1 <? 0) || (a1 =? t / 60 mod 60)) && ((a2 <? 0) || (a2 =? t / 3600 mod 24)).

(** The loop over the seconds [t + 1 .. t + n], left at a match. *)
Fixpoint alarm_scan (a0 a1 a2 t : Z) (n : nat) : bool :=
  match n with
  | O => false
  | S n => if alarm_matches a0 a1 a2 (t + 1) then true else alarm_scan a0 a1 a2 (t + 1) n
  end.

(** Whether the alarm went off between two counts of elapsed seconds. *)
Definition alarm_due (r : rtc) (previous elapsed : Z) : option bool :=
  r0 ← aget (alarm r) 0; r1 ← aget (alarm r) 1; r2 ← aget (alarm r) 2;
  Some (match alarm_value r 0 r0, alarm_value r 1 r1, alarm_value r 2 r2 with
        | Some a0, Some a1, Some a2 =>
            let count := if 86400 <? elapsed - previous then 86400 else elapsed - previous in
            alarm_scan a0 a1 a2 (epoch r + previous) (Z.to_nat count)
        | _, _, _ => false
        end).

(** A second as the guest sees it: its date, with its own weekday. *)
Definition show_date (b seconds : Z) : option (list Z) :=
  f ← decode seconds;
  w ← aget f 3;
  aset f 3 (u8 ((w - 1 + b) mod 7 + 1)).

(** The clock brought to [ticks], and the date there. *)
Definition current (r : rtc) (ticks : Z) : option (option (rtc * list Z)) :=
  if ticks <? last r then Some None else
  let hz := rate (reg_a r) in
  let reset := divider_reset (reg_a r) in
  let r := if negb reset && negb (hz =? 0) && (periods (last r) hz <? periods ticks hz)
           then set_flags (Z.lor (rtc_flags r) 0x40) r else r in
  if flag (reg_b r) 0x80 then Some (Some (set_last ticks r, staged r)) else
  let elapsed := if reset then 0 else u64 (ticks - base r) / AOS_X86_RTC_HZ in
  if u64 (LIMIT - epoch r) <=? elapsed then Some None else
  let previous := if reset then 0 else u64 (last r - base r) / AOS_X86_RTC_HZ in
  r ← (if previous <? elapsed then
      due ← alarm_due r previous elapsed;
      Some (set_flags (Z.lor (Z.lor (rtc_flags r) 0x10) (if (due : bool) then 0x20 else 0)) r)
    else Some r);
  f ← show_date (weekday_bias r) (epoch r + elapsed);
  Some (Some (set_last ticks r, f)).

(** ** Registers *)

Definition field (reg : Z) : option Z :=
  if reg =? 0 then Some 0 else if reg =? 2 then Some 1 else if reg =? 4 then Some 2 else if reg =? 6 then Some 3
  else if reg =? 7 then Some 4 else if reg =? 8 then Some 5 else if reg =? 9 then Some 6
  else if reg =? 0x32 then Some 7 else None.

Definition field_max : list Z := [59; 59; 23; 7; 31; 12; 99; 99].

(** A byte written to field [n], as a number. *)
Definition parse_field (r : rtc) (n v : Z) : option Z :=
  let twelve := (n =? 2) && negb (flag (reg_b r) 2) in
  d ← input (if twelve then Z.land v 0x7f else v) (flag (reg_b r) 4);
  if twelve then hour12 d v else Some d.

(** Field [n] as a byte. *)
Definition print_field (r : rtc) (n d : Z) : Z :=
  if (n =? 2) && negb (flag (reg_b r) 2) then
    Z.lor (output (if d mod 12 =? 0 then 12 else d mod 12) (flag (reg_b r) 4)) (if 12 <=? d then 0x80 else 0)
  else output d (flag (reg_b r) 4).

(** The weekday that the guest set, as a distance from the calendar's. *)
Definition bias (f3 e : Z) : option Z := c ← decode e; c3 ← aget c 3; Some (u8 ((f3 + 7 - c3) mod 7)).

Definition io_field (next : rtc) (f : list Z) (n : Z) (write : bool) (value ticks : Z) : option (option (Z * rtc)) :=
  if write then
    if negb (flag (reg_b next) 0x80) && negb (n =? 7) then Some None else
    match parse_field next n (u8 value) with
    | None => Some None
    | Some d =>
        max ← aget field_max n;
        if (max <? d) || (((n =? 3) || (n =? 4) || (n =? 5)) && (d =? 0)) then Some None
        else if flag (reg_b next) 0x80 then
          l ← aset (staged next) n (u8 d); Some (Some (value, set_staged l next))
        else
          f ← aset f 7 (u8 d);
          e ← encode f;
          match e with
          | None => Some None
          | Some e =>
              f3 ← aget f 3;
              b ← bias f3 e;
              Some (Some (value, set_date e b (u64 (ticks - u64 (ticks - base next) mod AOS_X86_RTC_HZ)) next))
          end
    end
  else d ← aget f n; Some (Some (print_field next n d, next)).

Definition io_alarm (next : rtc) (index : Z) (write : bool) (value : Z) : option (option (Z * rtc)) :=
  if write then
    match alarm_value next index (u8 value) with
    | None => Some None
    | Some _ => l ← aset (alarm next) index (u8 value); Some (Some (value, set_alarm l next))
    end
  else v ← aget (alarm next) index; Some (Some (v, next)).

Definition io_a (next : rtc) (f : list Z) (write : bool) (value ticks : Z) : option (option (Z * rtc)) :=
  let v := u8 value in
  if write then
    if negb (Z.land v 0x70 =? 0x20) && negb (divider_reset v) then Some None
    else if negb (divider_reset (reg_a next)) && divider_reset v then
      if negb (flag (reg_b next) 0x80) then
        e ← encode f;
        match e with
        | None => Some None
        | Some e => Some (Some (value, set_a (Z.land v 0x7f) (set_date e (weekday_bias next) ticks next)))
        end
      else Some (Some (value, set_a (Z.land v 0x7f) (set_date (epoch next) (weekday_bias next) ticks next)))
    else if divider_reset (reg_a next) && negb (divider_reset v) then
      Some (Some (value, set_a (Z.land v 0x7f) (set_date (epoch next) (weekday_bias next) ticks next)))
    else Some (Some (value, set_a (Z.land v 0x7f) next))
  else
    let uip := negb (divider_reset (reg_a next)) && negb (flag (reg_b next) 0x80) &&
               (AOS_X86_RTC_HZ - 874 <=? u64 (ticks - base next) mod AOS_X86_RTC_HZ) in
    Some (Some (Z.lor (reg_a next) (if uip then 0x80 else 0), next)).

Definition io_b (next : rtc) (f : list Z) (write : bool) (value ticks : Z) : option (option (Z * rtc)) :=
  let v := u8 value in
  if write then
    if flag v (u32 (Z.lnot 0x86)) then Some None else
    let next := if negb (flag (reg_b next) 0x80) && flag v 0x80 then set_staged f next else next in
    if flag (reg_b next) 0x80 && negb (flag v 0x80) then
      e ← encode (staged next);
      match e with
      | None => Some None
      | Some e => f3 ← aget (staged next) 3; b ← bias f3 e; Some (Some (value, set_b v (set_date e b ticks next)))
      end
    else Some (Some (value, set_b v next))
  else Some (Some (reg_b next, next)).

(** The value and the clock after, or [None] for [false], which changes
    neither. *)
Definition aos_x86_rtc_io (r : rtc) (reg : Z) (write : bool) (value ticks : Z) : option (option (Z * rtc)) :=
  c ← current r ticks;
  match c with
  | None => Some None
  | Some (next, f) =>
      match field reg with
      | Some n => io_field next f n write value ticks
      | None =>
          if (reg =? 1) || (reg =? 3) || (reg =? 5) then io_alarm next ((reg - 1) / 2) write value
          else if reg =? 0xa then io_a next f write value ticks
          else if reg =? 0xb then io_b next f write value ticks
          else if reg =? 0xc then
            if write then Some (Some (value, next)) else Some (Some (rtc_flags next, set_flags 0 next))
          else if reg =? 0xd then Some (Some (if write then value else 0x80, next))
          else Some None
      end
  end.

(** ** The calendar as a bijection *)

Lemma year_days_bound y : 365 <= year_days y <= 366.
Proof. unfold year_days. destruct (leap y); lia. Qed.

Lemma years_before_nonneg n : forall y, 365 * Z.of_nat n <= years_before n y.
Proof. induction n as [|n IH]; intros y; [done|]. cbn [years_before]. pose proof (year_days_bound y). specialize (IH (y + 1)). lia. Qed.

Lemma years_before_add n m : forall y, years_before (n + m) y = years_before n y + years_before m (y + Z.of_nat n).
Proof.
  induction n as [|n IH]; intros y; [by rewrite Z.add_0_r|]. cbn [years_before plus]. rewrite IH.
  replace (y + 1 + Z.of_nat n) with (y + Z.of_nat (S n)) by lia. lia.
Qed.

Lemma year_loop_split n : forall fuel d y,
  (n < fuel)%nat -> 0 <= d < year_days (y + Z.of_nat n) ->
  year_loop fuel (years_before n y + d) y = Some (d, y + Z.of_nat n).
Proof.
  induction n as [|n IH]; intros fuel d y Hf Hd; (destruct fuel as [|fuel]; [lia|]); cbn [year_loop years_before].
  - change (Z.of_nat 0) with 0 in *. rewrite Z.add_0_r in Hd. rewrite Z.add_0_l, Z.add_0_r.
    destruct (Z.leb_spec (year_days y) d); [lia|done].
  - pose proof (years_before_nonneg n (y + 1)). destruct (Z.leb_spec (year_days y) (year_days y + years_before n (y + 1) + d)); [|lia].
    replace (year_days y + years_before n (y + 1) + d - year_days y) with (years_before n (y + 1) + d) by lia.
    rewrite IH; [do 2 f_equal; lia|lia|]. by replace (y + 1 + Z.of_nat n) with (y + Z.of_nat (S n)) by lia.
Qed.

Lemma year_split fuel : forall days y,
  0 <= days < 365 * Z.of_nat fuel ->
  exists n d, days = years_before n y + d /\ 0 <= d < year_days (y + Z.of_nat n) /\ 365 * Z.of_nat n <= days.
Proof.
  induction fuel as [|fuel IH]; intros days y Hd; [lia|]. pose proof (year_days_bound y).
  destruct (Z.ltb_spec days (year_days y)) as [Hlt|Hge].
  - exists 0%nat, days. rewrite Z.add_0_r. cbn. lia.
  - destruct (IH (days - year_days y) (y + 1) ltac:(lia)) as (n & d & He & Hr & Hn). exists (S n), d. cbn [years_before].
    replace (y + 1 + Z.of_nat n) with (y + Z.of_nat (S n)) in Hr by lia. split; [lia|]. split; [done|]. lia.
Qed.

(** The months of a year. *)
Definition months_of (y : Z) : list Z := [31; 28 + (if leap y then 1 else 0); 31; 30; 31; 30; 31; 31; 30; 31; 30; 31].
Definition sum_list (l : list Z) : Z := foldr Z.add 0 l.
Definition month_start (y : Z) (k : nat) : Z := sum_list (take k (months_of y)).

Lemma months_total y : sum_list (months_of y) = year_days y.
Proof. unfold months_of, year_days. by destruct (leap y). Qed.

Lemma months_range y k n : months_of y !! k = Some n -> (k < 12)%nat /\ 28 <= n <= 31.
Proof.
  intros Hk. split; [by apply lookup_lt_Some in Hk|]. apply list_elem_of_lookup_2 in Hk. unfold months_of in Hk.
  destruct (leap y); repeat (apply elem_of_cons in Hk as [->|Hk]; [lia|]); by apply not_elem_of_nil in Hk.
Qed.

Lemma month_days_eq y k : (k < 12)%nat -> month_days y (1 + Z.of_nat k) = months_of y !! k.
Proof.
  intros Hk. unfold month_days, months_of. do 12 (destruct k as [|k]; [by destruct (leap y)|]). lia.
Qed.

Lemma months_get y k : (k < 12)%nat -> exists n, months_of y !! k = Some n.
Proof. intros Hk. destruct (lookup_lt_is_Some_2 (months_of y) k) as [n Hn]; [done|by exists n]. Qed.

Lemma sum_nonneg y k j : 0 <= sum_list (take k (drop j (months_of y))).
Proof.
  assert (H : Forall (fun n => 0 <= n) (take k (drop j (months_of y)))).
  { apply Forall_take, Forall_drop, Forall_lookup_2. intros i n Hn. apply months_range in Hn. lia. }
  unfold sum_list. induction H; cbn; lia.
Qed.

Lemma months_before_eq y k : forall j, (j + k <= 12)%nat ->
  months_before k y (1 + Z.of_nat j) = Some (sum_list (take k (drop j (months_of y)))).
Proof.
  induction k as [|k IH]; intros j Hj; [done|]. cbn [months_before]. destruct (months_get y j) as [n Hn]; [lia|].
  rewrite month_days_eq, Hn by lia. cbn [mbind option_bind].
  replace (1 + Z.of_nat j + 1) with (1 + Z.of_nat (S j)) by lia. rewrite IH by lia. by rewrite (drop_S _ n j Hn).
Qed.

Lemma month_loop_split y k : forall fuel j d n,
  (k < fuel)%nat -> months_of y !! (j + k)%nat = Some n -> 0 <= d < n ->
  month_loop fuel (sum_list (take k (drop j (months_of y))) + d) y (1 + Z.of_nat j) = Some (d, 1 + Z.of_nat (j + k)).
Proof.
  induction k as [|k IH]; intros fuel j d n Hf Hn Hd; (destruct fuel as [|fuel]; [lia|]); cbn [month_loop].
  - rewrite Nat.add_0_r in *. rewrite month_days_eq by (by apply months_range in Hn as [? _]). rewrite Hn. cbn [mbind option_bind]. rewrite take_0.
    cbn [sum_list foldr]. rewrite Z.add_0_l. destruct (Z.leb_spec n d); [lia|done].
  - pose proof (months_range _ _ _ Hn) as [Hlt _]. destruct (months_get y j) as [x Hx]; [lia|].
    rewrite month_days_eq, Hx by lia. cbn [mbind option_bind]. rewrite (drop_S _ x j Hx). cbn [take sum_list foldr].
    change (foldr Z.add 0 ?l) with (sum_list l). pose proof (sum_nonneg y k (S j)).
    destruct (Z.leb_spec x (x + sum_list (take k (drop (S j) (months_of y))) + d)); [|lia].
    replace (x + sum_list (take k (drop (S j) (months_of y))) + d - x) with (sum_list (take k (drop (S j) (months_of y))) + d) by lia.
    replace (1 + Z.of_nat j + 1) with (1 + Z.of_nat (S j)) by lia. rewrite (IH fuel (S j) d n); [do 2 f_equal; lia|lia| |done].
    by replace (S j + k)%nat with (j + S k)%nat by lia.
Qed.

Lemma month_split l : forall d,
  0 <= d < sum_list l -> Forall (fun n => 0 < n) l ->
  exists k n, l !! k = Some n /\ 0 <= d - sum_list (take k l) < n.
Proof.
  induction l as [|x l IH]; intros d Hd Hpos; [cbn in Hd; lia|]. apply Forall_cons in Hpos as [Hx Hpos]. cbn in Hd.
  destruct (Z.ltb_spec d x) as [Hlt|Hge]; [exists 0%nat, x; split; [done|]; cbn; lia|].
  destruct (IH (d - x)) as (k & n & Hk & Hr); [unfold sum_list; lia|done|]. exists (S k), n. split; [done|]. cbn. unfold sum_list in Hr. lia.
Qed.

(** ** A date as a day number *)

(** Year [1970 + n], month [1 + k] and day [1 + d]. *)
Definition day_number (n k : nat) (d : Z) : Z := years_before n 1970 + (month_start (1970 + Z.of_nat n) k + d).

Definition valid_day (n k : nat) (d : Z) : Prop :=
  Z.of_nat n < 8030 /\ exists len, months_of (1970 + Z.of_nat n) !! k = Some len /\ 0 <= d < len.

Lemma month_start_lt y k n d : months_of y !! k = Some n -> 0 <= d < n -> 0 <= month_start y k + d < year_days y.
Proof.
  intros Hk Hd. rewrite <- months_total. unfold month_start. pose proof (sum_nonneg y k 0) as Hs. rewrite drop_0 in Hs. split; [lia|].
  rewrite <- (take_drop_middle _ _ _ Hk) at 2. pose proof (sum_nonneg y 12 (S k)) as Hs'.
  rewrite take_ge in Hs' by (rewrite length_drop; cbn; lia). revert Hs'. generalize (drop (S k) (months_of y)) as r.
  generalize (take k (months_of y)) as l. intros l r Hr.
  assert (Happ : forall a b, sum_list (a ++ b) = sum_list a + sum_list b).
  { intros a b. induction a as [|x a IH]; [done|]. cbn in *. unfold sum_list in *. lia. }
  rewrite Happ. cbn. unfold sum_list in *. lia.
Qed.

Lemma limit_years : years_before (Z.to_nat 8030) 1970 = LIMIT / 86400.
Proof. by vm_compute. Qed.

Lemma day_split days : 0 <= days < LIMIT / 86400 -> exists n k d, valid_day n k d /\ days = day_number n k d /\ 365 * Z.of_nat n <= days.
Proof.
  intros Hd. destruct (year_split (Z.to_nat days + 1) days 1970) as (n & d & He & Hr & Hn); [lia|].
  assert (Hlim : Z.of_nat n < 8030).
  { destruct (decide (Z.of_nat n < 8030)) as [|Hge]; [done|]. exfalso. rewrite <- limit_years in Hd.
    replace n with (Z.to_nat 8030 + (n - Z.to_nat 8030))%nat in He by lia. rewrite years_before_add in He.
    pose proof (years_before_nonneg (n - Z.to_nat 8030) (1970 + Z.of_nat (Z.to_nat 8030))). lia. }
  destruct (month_split (months_of (1970 + Z.of_nat n)) d) as (k & len & Hk & Hkd).
  { by rewrite months_total. }
  { apply Forall_lookup_2. intros i x Hx. apply months_range in Hx. lia. }
  exists n, k, (d - sum_list (take k (months_of (1970 + Z.of_nat n)))). split; [split; [done|by exists len]|].
  unfold day_number, month_start. split; [lia|done].
Qed.

Lemma day_number_limit n k d : valid_day n k d -> 0 <= day_number n k d < LIMIT / 86400.
Proof.
  intros (Hn & len & Hk & Hd). pose proof (month_start_lt _ _ _ _ Hk Hd) as Hm. unfold day_number.
  pose proof (years_before_nonneg n 1970). rewrite <- limit_years. replace (Z.to_nat 8030) with (n + S (Z.to_nat 8030 - S n))%nat by lia.
  rewrite years_before_add. cbn [years_before]. pose proof (years_before_nonneg (Z.to_nat 8030 - S n) (1970 + Z.of_nat n + 1)). lia.
Qed.

(** A date: year, month and day as above, the time of day and the weekday. *)
Definition fields (n k : nat) (d h mi s w : Z) : list Z :=
  [s; mi; h; w; d + 1; 1 + Z.of_nat k; (1970 + Z.of_nat n) mod 100; (1970 + Z.of_nat n) / 100].
Definition second_number (n k : nat) (d h mi s : Z) : Z := day_number n k d * 86400 + h * 3600 + mi * 60 + s.
Definition canonical (days : Z) : Z := (days + 4) mod 7 + 1.

Definition valid_time (h mi s : Z) : Prop := 0 <= h < 24 /\ 0 <= mi < 60 /\ 0 <= s < 60.

Lemma time_of_day x h mi s :
  valid_time h mi s -> let t := x * 86400 + h * 3600 + mi * 60 + s in
  t / 86400 = x /\ t mod 60 = s /\ t / 60 mod 60 = mi /\ t / 3600 mod 24 = h.
Proof.
  intros (Hh & Hm & Hs) t. subst t.
  assert (H1 : (x * 86400 + h * 3600 + mi * 60 + s) / 60 = x * 1440 + h * 60 + mi).
  { symmetry. apply (Z.div_unique_pos _ _ _ s); lia. }
  assert (H2 : (x * 86400 + h * 3600 + mi * 60 + s) / 3600 = x * 24 + h).
  { symmetry. apply (Z.div_unique_pos _ _ _ (mi * 60 + s)); lia. }
  rewrite H1, H2. split_and!.
  - symmetry. apply (Z.div_unique_pos _ _ _ (h * 3600 + mi * 60 + s)); lia.
  - symmetry. apply (Z.mod_unique_pos _ _ (x * 1440 + h * 60 + mi)); lia.
  - symmetry. apply (Z.mod_unique_pos _ _ (x * 24 + h)); lia.
  - symmetry. apply (Z.mod_unique_pos _ _ x); lia.
Qed.

Lemma decode_eq n k d h mi s :
  valid_day n k d -> valid_time h mi s ->
  decode (second_number n k d h mi s) = Some (fields n k d h mi s (canonical (day_number n k d))).
Proof.
  intros Hday Ht. destruct (time_of_day (day_number n k d) h mi s Ht) as (H1 & H2 & H3 & H4). pose proof (day_number_limit n k d Hday).
  destruct Hday as (Hn & len & Hk & Hd). unfold decode, second_number. rewrite H1, H2, H3, H4.
  pose proof (month_start_lt _ _ _ _ Hk Hd) as Hm. pose proof (years_before_nonneg n 1970).
  assert (Hdn : day_number n k d = years_before n 1970 + (month_start (1970 + Z.of_nat n) k + d)) by done.
  rewrite Hdn at 1 2. set (rest := month_start (1970 + Z.of_nat n) k + d) in *.
  assert (Hfuel : Z.of_nat n <= (years_before n 1970 + rest) / 365) by (apply Z.div_le_lower_bound; lia).
  rewrite year_loop_split by (done || lia). cbn [mbind option_bind]. subst rest. unfold month_start.
  pose proof (month_loop_split (1970 + Z.of_nat n) k 12 0 d len) as Hml. rewrite drop_0 in Hml.
  change (1 + Z.of_nat 0) with 1 in Hml. change (0 + k)%nat with k in Hml.
  pose proof (months_range _ _ _ Hk) as [Hk12 Hlen]. rewrite Hml by (done || lia). cbn [mbind option_bind]. clear Hml.
  destruct Ht as (Hh & Hmi & Hs). pose proof (Z.mod_pos_bound (1970 + Z.of_nat n) 100 ltac:(lia)).
  assert (0 <= (1970 + Z.of_nat n) / 100 < 100) by (split; [apply Z.div_pos; lia|apply Z.div_lt_upper_bound; lia]).
  pose proof (Z.mod_pos_bound (day_number n k d + 4) 7 ltac:(lia)). unfold fields, canonical.
  rewrite !u8_small by (unfold is_u8; lia). done.
Qed.


(** What [encode] accepts is a date. *)
Lemma encode_inv f e :
  length f = 8%nat -> Forall (fun x => 0 <= x) f -> f !!! 6%nat < 100 -> encode f = Some (Some e) ->
  exists n k d h mi s w, valid_day n k d /\ valid_time h mi s /\ 1 <= w <= 7 /\
    f = fields n k d h mi s w /\ e = second_number n k d h mi s.
Proof.
  intros Hl Hpos H6 He. do 8 (destruct f as [|? f]; [done|]). destruct f; [|done]. decompose_Forall_hyps.
  rename z into s, z0 into mi, z1 into h, z2 into w, z3 into day, z4 into m, z5 into y2, z6 into y1.
  unfold encode in He. cbn zeta in He. destruct (_ || _) eqn:Hg1; [done|]. rewrite !orb_false_iff, !Z.ltb_ge in Hg1.
  destruct Hg1 as ((((Hy1 & Hy2) & Hm1) & Hm2) & Hd1). destruct (month_days (y1 * 100 + y2) m) as [len|] eqn:Hmd; [|done].
  cbn [mbind option_bind] in He. destruct (_ || _) eqn:Hg2; [done|]. rewrite !orb_false_iff, !Z.ltb_ge in Hg2.
  destruct Hg2 as (((((Hlen & Hs) & Hmi) & Hh) & Hw1) & Hw2).
  cbn in H6. set (y := y1 * 100 + y2) in *.
  assert (Hyn : 1970 + Z.of_nat (Z.to_nat (y - 1970)) = y) by lia.
  assert (Hkm : 1 + Z.of_nat (Z.to_nat (m - 1)) = m) by lia.
  assert (Hk : months_of y !! Z.to_nat (m - 1) = Some len) by (rewrite <- month_days_eq by lia; by rewrite Hkm).
  assert (Hday : valid_day (Z.to_nat (y - 1970)) (Z.to_nat (m - 1)) (day - 1)).
  { split; [lia|]. exists len. rewrite Hyn. split; [done|lia]. }
  assert (Hf : [s; mi; h; w; day; m; y2; y1] = fields (Z.to_nat (y - 1970)) (Z.to_nat (m - 1)) (day - 1) h mi s w).
  { unfold fields. rewrite Hyn, Hkm. assert (y mod 100 = y2) as -> by (symmetry; apply (Z.mod_unique_pos _ _ y1); lia).
    assert (y / 100 = y1) as -> by (symmetry; apply (Z.div_unique_pos _ _ _ y2); lia). by replace (day - 1 + 1) with day by lia. }
  exists (Z.to_nat (y - 1970)), (Z.to_nat (m - 1)), (day - 1), h, mi, s, w. assert (Ht : valid_time h mi s) by (unfold valid_time; lia).
  split_and!; [done..|lia|lia|done|].
  pose proof (months_before_eq y (Z.to_nat (m - 1)) 0) as Hmb. rewrite drop_0 in Hmb.
  change (1 + Z.of_nat 0) with 1 in Hmb. rewrite Hmb in He by lia. injection He as <-.
  unfold second_number, day_number, month_start. rewrite Hyn. lia.
Qed.

Lemma second_number_limit n k d h mi s :
  valid_day n k d -> valid_time h mi s -> 0 <= second_number n k d h mi s < LIMIT.
Proof.
  intros Hd (Hh & Hm & Hs). pose proof (day_number_limit n k d Hd) as Hn. unfold second_number.
  change LIMIT with (LIMIT / 86400 * 86400). lia.
Qed.

(** Every second of the calendar is a date. *)
Lemma second_split t :
  0 <= t < LIMIT -> exists n k d h mi s, valid_day n k d /\ valid_time h mi s /\ t = second_number n k d h mi s.
Proof.
  intros Ht. destruct (day_split (t / 86400)) as (n & k & d & Hday & He & _).
  { split; [apply Z.div_pos; lia|]. apply Z.div_lt_upper_bound; [lia|]. change (86400 * (LIMIT / 86400)) with LIMIT. lia. }
  exists n, k, d, (t / 3600 mod 24), (t / 60 mod 60), (t mod 60). split; [done|].
  unfold valid_time, second_number. rewrite <- He. split; [split_and!; apply Z.mod_pos_bound; lia|].
  pose proof (Z.div_mod t 60 ltac:(lia)) as E1. pose proof (Z.div_mod (t / 60) 60 ltac:(lia)) as E2.
  pose proof (Z.div_mod (t / 3600) 24 ltac:(lia)) as E3. rewrite Z.div_div in E2, E3 by lia.
  change (60 * 60) with 3600 in E2. change (3600 * 24) with 86400 in E3. lia.
Qed.

Lemma canonical_range days : 1 <= canonical days <= 7.
Proof. unfold canonical. pose proof (Z.mod_pos_bound (days + 4) 7). lia. Qed.

(** The weekday shown. *)
Definition weekday (b days : Z) : Z := (canonical days - 1 + b) mod 7 + 1.

Lemma weekday_range b days : 1 <= weekday b days <= 7.
Proof. unfold weekday. pose proof (Z.mod_pos_bound (canonical days - 1 + b) 7). lia. Qed.

Lemma show_date_eq n k d h mi s b :
  valid_day n k d -> valid_time h mi s ->
  show_date b (second_number n k d h mi s) = Some (fields n k d h mi s (weekday b (day_number n k d))).
Proof.
  intros Hd Ht. unfold show_date. rewrite decode_eq by done. cbn [mbind option_bind].
  change (aget (fields n k d h mi s (canonical (day_number n k d))) 3) with (Some (canonical (day_number n k d))).
  cbn [mbind option_bind]. rewrite aset_Some by (cbn; lia). cbn. unfold weekday.
  pose proof (Z.mod_pos_bound (canonical (day_number n k d) - 1 + b) 7). rewrite u8_small by (unfold is_u8; lia). done.
Qed.

(** ** Well-formed clocks *)

(** A date within the bounds of its fields. *)
Definition date_ok (f : list Z) : Prop := Forall2 (fun x m => 0 <= x <= m) f field_max.

Record rtc_ok (r : rtc) : Prop := {
  to_epoch : 0 <= epoch r < LIMIT;
  to_base : 0 <= base r <= last r;
  to_last : last r < 2 ^ 64;
  to_a : is_u8 (reg_a r);
  to_b : is_u8 (reg_b r);
  to_flags : is_u8 (rtc_flags r);
  to_bias : 0 <= weekday_bias r < 7;
  to_staged : date_ok (staged r);
  to_alarm : length (alarm r) = 3%nat;
  to_alarm_u8 : Forall is_u8 (alarm r) }.

Lemma fields_ok n k d h mi s w : valid_day n k d -> valid_time h mi s -> 1 <= w <= 7 -> date_ok (fields n k d h mi s w).
Proof.
  intros (Hn & len & Hk & Hd) (Hh & Hm & Hs) Hw. pose proof (months_range _ _ _ Hk) as [Hk12 Hl].
  pose proof (Z.mod_pos_bound (1970 + Z.of_nat n) 100 ltac:(lia)).
  assert (0 <= (1970 + Z.of_nat n) / 100 < 100) by (split; [apply Z.div_pos; lia|apply Z.div_lt_upper_bound; lia]).
  unfold date_ok, fields, field_max. repeat (apply Forall2_cons; split; [lia|]). constructor.
Qed.

Lemma date_length f : date_ok f -> length f = 8%nat.
Proof. intros Hf. by apply Forall2_length in Hf. Qed.

Lemma date_nonneg f : date_ok f -> Forall (fun x => 0 <= x) f.
Proof. intros Hf. eapply Forall2_Forall_l; [exact Hf|]. apply Forall_forall. intros m _ x. lia. Qed.

Lemma date_year f : date_ok f -> f !!! 6%nat < 100.
Proof.
  intros Hf. pose proof (date_length f Hf) as Hl. do 8 (destruct f as [|? f]; [done|]). destruct f; [|done].
  unfold date_ok, field_max in Hf. decompose_Forall_hyps. cbn. lia.
Qed.

Lemma encode_total f : date_ok f -> exists r, encode f = Some r.
Proof.
  intros Hf. pose proof (date_length f Hf) as Hl. do 8 (destruct f as [|? f]; [done|]). destruct f; [|done]. clear Hl Hf.
  unfold encode. cbn zeta. destruct (_ || _) eqn:Hg; [by eexists|]. rewrite !orb_false_iff, !Z.ltb_ge in Hg.
  destruct Hg as ((((Hy1 & Hy2) & Hm1) & Hm2) & Hd1).
  destruct (months_get (z6 * 100 + z5) (Z.to_nat (z4 - 1))) as [len Hlen]; [lia|].
  pose proof (month_days_eq (z6 * 100 + z5) (Z.to_nat (z4 - 1)) ltac:(lia)) as Hmd.
  replace (1 + Z.of_nat (Z.to_nat (z4 - 1))) with z4 in Hmd by lia. rewrite Hmd, Hlen. cbn [mbind option_bind].
  destruct (_ || _); [by eexists|]. pose proof (months_before_eq (z6 * 100 + z5) (Z.to_nat (z4 - 1)) 0) as Hmb.
  change (1 + Z.of_nat 0) with 1 in Hmb. rewrite Hmb by lia. cbn. by eexists.
Qed.

(** ** The Gregorian calendar *)

(** The calendar by its own rules: a year divisible by four is a leap year
    unless it is a century not divisible by 400; April, June, September and
    November have thirty days. A day is numbered from 1 January 1970, which
    is 719162 days after 1 January of the year 1, by counting the leap days of
    the years before. 4 January 1970 was a Sunday, weekday 1. *)
Definition gregorian_leap (y : Z) : Prop := (4 | y) /\ (~ (100 | y) \/ (400 | y)).
Lemma gregorian_leap_iff y : gregorian_leap y <-> y mod 4 = 0 /\ (y mod 100 <> 0 \/ y mod 400 = 0).
Proof. unfold gregorian_leap. by rewrite <- !Z.mod_divide by lia. Qed.
#[global] Instance gregorian_leap_dec y : Decision (gregorian_leap y).
Proof.
  destruct (decide (y mod 4 = 0 /\ (y mod 100 <> 0 \/ y mod 400 = 0))); [left|right]; by rewrite gregorian_leap_iff.
Defined.
















(** An accepted date, and the weekday kept beside it. *)
Lemma encode_bias f e :
  date_ok f -> encode f = Some (Some e) ->
  0 <= e < LIMIT /\ exists b, bias (f !!! 3%nat) e = Some b /\ 0 <= b < 7 /\ show_date b e = Some f.
Proof.
  intros Hf He. destruct (encode_inv f e (date_length f Hf) (date_nonneg f Hf) (date_year f Hf) He)
    as (n & k & d & h & mi & s & w & Hd & Ht & Hw & -> & ->).
  split; [by apply second_number_limit|]. unfold bias. rewrite decode_eq by done. cbn [mbind option_bind].
  change (aget (fields n k d h mi s (canonical (day_number n k d))) 3) with (Some (canonical (day_number n k d))).
  cbn [mbind option_bind]. change (fields n k d h mi s w !!! 3%nat) with w. set (c := canonical (day_number n k d)).
  pose proof (canonical_range (day_number n k d)) as Hc. fold c in Hc. pose proof (Z.mod_pos_bound (w + 7 - c) 7 ltac:(lia)) as Hb.
  rewrite u8_small by (unfold is_u8; lia). eexists. split; [done|]. split; [done|]. rewrite show_date_eq by done. do 2 f_equal.
  unfold weekday. fold c. rewrite Zplus_mod_idemp_r. replace (c - 1 + (w + 7 - c)) with (w - 1 + 1 * 7) by lia.
  rewrite Z.mod_add, Z.mod_small by lia. lia.
Qed.

(** ** The alarm *)

Lemma day_periodic a b c t : alarm_matches a b c (t + 86400) = alarm_matches a b c t.
Proof.
  unfold alarm_matches.
  assert (H1 : (t + 86400) mod 60 = t mod 60) by (replace (t + 86400) with (t + 1440 * 60) by lia; by rewrite Z.mod_add).
  assert (H2 : (t + 86400) / 60 mod 60 = t / 60 mod 60).
  { replace (t + 86400) with (t + 1440 * 60) by lia. rewrite Z.div_add by lia. by rewrite (Z.mod_add _ 24 60). }
  assert (H3 : (t + 86400) / 3600 mod 24 = t / 3600 mod 24).
  { replace (t + 86400) with (t + 24 * 3600) by lia. rewrite Z.div_add by lia. by rewrite (Z.mod_add _ 1 24). }
  by rewrite H1, H2, H3.
Qed.

Lemma alarm_scan_spec a b c n : forall t,
  alarm_scan a b c t n = true <-> exists u, t < u <= t + Z.of_nat n /\ alarm_matches a b c u = true.
Proof.
  induction n as [|n IH]; intros t; cbn [alarm_scan]; [split; [done|]; intros (u & ? & _); lia|].
  destruct (alarm_matches a b c (t + 1)) eqn:Hm.
  - split; [|done]. intros _. exists (t + 1). split; [lia|done].
  - rewrite IH. split.
    + intros (u & Hu & Hmu). exists u. split; [lia|done].
    + intros (u & Hu & Hmu). exists u. split; [|done]. destruct (decide (u = t + 1)) as [->|]; [congruence|lia].
Qed.

(** A match in any window is a match within the window's first day. *)
Lemma alarm_cap a b c t n :
  86400 <= n ->
  (exists u, t < u <= t + n /\ alarm_matches a b c u = true) <->
  (exists u, t < u <= t + 86400 /\ alarm_matches a b c u = true).
Proof.
  intros Hn. split; [|intros (u & Hu & Hm); exists u; split; [lia|done]].
  intros (u & Hu & Hm). exists (t + 1 + (u - t - 1) mod 86400). pose proof (Z.mod_pos_bound (u - t - 1) 86400 ltac:(lia)).
  split; [lia|]. rewrite <- Hm.
  assert (Hper : forall (k : nat) x, alarm_matches a b c (x + 86400 * Z.of_nat k) = alarm_matches a b c x).
  { induction k as [|k IHk]; intros x; [by rewrite Z.mul_0_r, Z.add_0_r|].
    replace (x + 86400 * Z.of_nat (S k)) with (x + 86400 * Z.of_nat k + 86400) by lia. by rewrite day_periodic. }
  rewrite <- (Hper (Z.to_nat ((u - t - 1) / 86400))). f_equal.
  rewrite Z2Nat.id by (apply Z.div_pos; lia). pose proof (Z.div_mod (u - t - 1) 86400 ltac:(lia)). lia.
Qed.

(** The alarm's three bytes as numbers. *)
Definition alarm_time (r : rtc) : option (Z * Z * Z) :=
  a ← alarm_value r 0 (alarm r !!! 0%nat); b ← alarm_value r 1 (alarm r !!! 1%nat); c ← alarm_value r 2 (alarm r !!! 2%nat);
  Some (a, b, c).

Lemma alarm_due_spec r previous elapsed :
  length (alarm r) = 3%nat -> previous <= elapsed ->
  exists b, alarm_due r previous elapsed = Some b /\
    (b = true <-> exists a0 a1 a2 t, alarm_time r = Some (a0, a1, a2) /\
       epoch r + previous < t <= epoch r + elapsed /\ alarm_matches a0 a1 a2 t = true).
Proof.
  intros Hl Hle. unfold alarm_due, alarm_time. rewrite !aget_total by (rewrite Hl; lia). cbn [mbind option_bind].
  eexists. split; [done|].
  change (Z.to_nat 0) with 0%nat. change (Z.to_nat 1) with 1%nat. change (Z.to_nat 2) with 2%nat.
  destruct (alarm_value r 0 _) as [a0|]; [|by split; [|intros (? & ? & ? & ? & ? & _)]].
  destruct (alarm_value r 1 _) as [a1|]; [|by split; [|intros (? & ? & ? & ? & ? & _)]].
  destruct (alarm_value r 2 _) as [a2|]; [|by split; [|intros (? & ? & ? & ? & ? & _)]]. cbn zeta.
  transitivity (exists t, epoch r + previous < t <= epoch r + previous + (elapsed - previous) /\ alarm_matches a0 a1 a2 t = true).
  - rewrite alarm_scan_spec. destruct (Z.ltb_spec 86400 (elapsed - previous)).
    + rewrite (alarm_cap a0 a1 a2 (epoch r + previous) (elapsed - previous)) by lia. by rewrite Z2Nat.id by lia.
    + by rewrite Z2Nat.id by lia.
  - replace (epoch r + previous + (elapsed - previous)) with (epoch r + elapsed) by lia. cbn. naive_solver.
Qed.

(** ** Bringing the clock forward *)

Lemma is_u8_land x : is_u8 x <-> 0 <= x /\ Z.land x 0xff = x.
Proof.
  unfold is_u8. change 0xff with (Z.ones 8). rewrite Z.land_ones by lia. split.
  - intros H. split; [lia|]. by apply Z.mod_small.
  - intros [H0 H]. split; [done|]. rewrite <- H. by apply Z.mod_pos_bound.
Qed.

Lemma is_u8_lor a b : is_u8 a -> is_u8 b -> is_u8 (Z.lor a b).
Proof.
  rewrite !is_u8_land. intros [Ha Ha'] [Hb Hb']. split; [by apply Z.lor_nonneg|]. by rewrite Z.land_lor_distr_l, Ha', Hb'.
Qed.

(** Seconds since the base. *)
Definition elapsed_at (r : rtc) (t : Z) : Z := if divider_reset (reg_a r) then 0 else (t - base r) / AOS_X86_RTC_HZ.

(** The clock but for its flags and its last reading. *)
Definition same_clock (r r' : rtc) : Prop :=
  epoch r' = epoch r /\ base r' = base r /\ reg_a r' = reg_a r /\ reg_b r' = reg_b r /\
  weekday_bias r' = weekday_bias r /\ staged r' = staged r /\ alarm r' = alarm r.

(** The alarm went off after the last reading, up to [t]. *)
Definition alarm_fired (r : rtc) (t : Z) : Prop :=
  exists a0 a1 a2 u, alarm_time r = Some (a0, a1, a2) /\
    epoch r + elapsed_at r (last r) < u <= epoch r + elapsed_at r t /\ alarm_matches a0 a1 a2 u = true.

(** What the clock shows at [t]. *)
Definition reading (r : rtc) (t : Z) (r' : rtc) (f : list Z) : Prop :=
  last r <= t /\ rtc_ok r' /\ last r' = t /\ date_ok f /\ same_clock r r' /\
  if flag (reg_b r) 0x80 then f = staged r
  else epoch r + elapsed_at r t < LIMIT /\ show_date (weekday_bias r) (epoch r + elapsed_at r t) = Some f /\
    (Z.testbit (rtc_flags r') 5 = true <-> Z.testbit (rtc_flags r) 5 = true \/ alarm_fired r t).

Lemma set_flags_ok r v : rtc_ok r -> is_u8 v -> rtc_ok (set_flags v r).
Proof. intros [] Hv. by split. Qed.

Lemma set_last_ok r t : rtc_ok r -> last r <= t < 2 ^ 64 -> rtc_ok (set_last t r).
Proof. intros [] Ht. split; cbn; auto; lia. Qed.

Lemma elapsed_mono r t : base r <= last r -> last r <= t -> 0 <= elapsed_at r (last r) <= elapsed_at r t.
Proof.
  intros Hb Ht. unfold elapsed_at. destruct (divider_reset _); [lia|]. unfold AOS_X86_RTC_HZ. split; [apply Z.div_pos; lia|].
  apply Z.div_le_mono; lia.
Qed.

Lemma show_date_ok b t : 0 <= t < LIMIT -> exists f, show_date b t = Some f /\ date_ok f.
Proof.
  intros Ht. destruct (second_split t Ht) as (n & k & d & h & mi & s & Hd & Htm & ->). rewrite show_date_eq by done.
  eexists. split; [done|]. apply fields_ok; [done|done|apply weekday_range].
Qed.

(** The periodic flag, raised or not. *)
Definition periodic_flag (r : rtc) (t : Z) : rtc :=
  if negb (divider_reset (reg_a r)) && negb (rate (reg_a r) =? 0) && (periods (last r) (rate (reg_a r)) <? periods t (rate (reg_a r)))
  then set_flags (Z.lor (rtc_flags r) 0x40) r else r.

Lemma periodic_flag_ok r t :
  rtc_ok r -> rtc_ok (periodic_flag r t) /\ same_clock r (periodic_flag r t) /\ last (periodic_flag r t) = last r /\
    Z.testbit (rtc_flags (periodic_flag r t)) 5 = Z.testbit (rtc_flags r) 5.
Proof.
  intros Hr. unfold periodic_flag. destruct (_ && _); [|by split_and!]. split; [|split; [by split_and!|split; [done|]]].
  - apply set_flags_ok; [done|]. apply is_u8_lor; [apply Hr|done].
  - cbn [rtc_flags set_flags]. rewrite Z.lor_spec. change (Z.testbit 0x40 5) with false. by rewrite orb_false_r.
Qed.

Lemma current_ok r t :
  rtc_ok r -> is_u64 t ->
  exists c, current r t = Some c /\
    (c = None -> t < last r \/ (flag (reg_b r) 0x80 = false /\ LIMIT <= epoch r + elapsed_at r t)) /\
    forall r' f, c = Some (r', f) -> reading r t r' f.
Proof.
  intros Hr Ht. unfold current. destruct (Z.ltb_spec t (last r)) as [|Hle]; [exists None; split; [done|]; split; [by left|done]|]. cbn zeta.
  fold (periodic_flag r t). destruct (periodic_flag_ok r t Hr) as (Hr1 & Hsame & Hl1 & Hf1). set (r1 := periodic_flag r t) in *.
  destruct Hsame as (E1 & E2 & E3 & E4 & E5 & E6 & E7). unfold is_u64 in Ht. rewrite E4.
  destruct (flag (reg_b r) 0x80) eqn:Hset.
  { eexists. split; [done|]. split; [done|]. intros r' f [= <- <-]. unfold reading. rewrite Hset. split_and!; try done.
    - apply set_last_ok; [done|lia].
    - rewrite E6. apply Hr. }
  pose proof (to_base r Hr) as Hb. pose proof (to_epoch r Hr) as He. pose proof (elapsed_mono r t ltac:(lia) Hle) as Hmono.
  assert (Hn : (if divider_reset (reg_a r) then 0 else u64 (t - base r1) / AOS_X86_RTC_HZ) = elapsed_at r t).
  { unfold elapsed_at. rewrite E2, u64_small by (unfold is_u64; lia). done. }
  assert (Hp : (if divider_reset (reg_a r) then 0 else u64 (last r1 - base r1) / AOS_X86_RTC_HZ) = elapsed_at r (last r)).
  { unfold elapsed_at. rewrite Hl1, E2, u64_small by (unfold is_u64; lia). done. }
  rewrite Hn, Hp, E1, u64_small by (unfold is_u64, LIMIT in *; lia). clear Hn Hp.
  destruct (Z.leb_spec (LIMIT - epoch r) (elapsed_at r t)) as [|Hlim].
  { exists None. split; [done|]. split; [|done]. intros _. right. split; [done|lia]. }
  assert (Hfl : exists r2, (if elapsed_at r (last r) <? elapsed_at r t then
      due ← alarm_due r1 (elapsed_at r (last r)) (elapsed_at r t);
      Some (set_flags (Z.lor (Z.lor (rtc_flags r1) 0x10) (if (due : bool) then 0x20 else 0)) r1)
    else Some r1) = Some r2 /\ rtc_ok r2 /\ same_clock r r2 /\ last r2 = last r /\
    (Z.testbit (rtc_flags r2) 5 = true <-> Z.testbit (rtc_flags r) 5 = true \/ alarm_fired r t)).
  { destruct (Z.ltb_spec (elapsed_at r (last r)) (elapsed_at r t)) as [Hlt|Hge].
    - destruct (alarm_due_spec r1 (elapsed_at r (last r)) (elapsed_at r t)) as (b & -> & Hb'); [apply Hr1|lia|].
      cbn [mbind option_bind]. eexists. split; [done|]. split; [|split; [by split_and!|split; [done|]]].
      + apply set_flags_ok; [done|]. apply is_u8_lor; [apply is_u8_lor; [apply Hr1|done]|by destruct b].
      + cbn [rtc_flags set_flags]. rewrite !Z.lor_spec, Hf1. change (Z.testbit 0x10 5) with false. rewrite orb_false_r.
        assert (Hat : alarm_time r1 = alarm_time r) by (unfold alarm_time, alarm_value; by rewrite E4, E7).
        rewrite Hat, E1 in Hb'. unfold alarm_fired. rewrite <- Hb'.
        assert (Hb5 : Z.testbit (if b then 0x20 else 0) 5 = b) by (by destruct b). by rewrite Hb5, orb_true_iff.
    - eexists. split; [done|]. split_and!; try done. rewrite Hf1. split; [by left|]. intros [|(a0 & a1 & a2 & u & _ & Hu & _)]; [done|lia]. }
  destruct Hfl as (r2 & -> & Hr2 & Hs2 & Hl2 & Hfl). cbn [mbind option_bind]. destruct Hs2 as (F1 & F2 & F3 & F4 & F5 & F6 & F7).
  rewrite F1, F5. destruct (show_date_ok (weekday_bias r) (epoch r + elapsed_at r t)) as (f & Hshow & Hf); [lia|]. rewrite Hshow.
  cbn [mbind option_bind]. eexists. split; [done|]. split; [done|]. intros r' f' [= <- <-]. unfold reading. rewrite Hset.
  split_and!; try done; [|lia]. apply set_last_ok; [done|lia].
Qed.

(** ** Registers keep the clock well formed *)

Lemma date_insert f i d m : date_ok f -> field_max !! i = Some m -> 0 <= d <= m -> date_ok (<[i := d]> f).
Proof.
  intros Hf Hm Hd. unfold date_ok. rewrite <- (list_insert_id field_max i m Hm). by apply Forall2_insert.
Qed.

Lemma field_range reg n : field reg = Some n -> 0 <= n < 8.
Proof. unfold field. repeat case_match; intros; simplify_eq; lia. Qed.

Lemma input_nonneg v b d : 0 <= v -> input v b = Some d -> 0 <= d.
Proof.
  unfold input. intros Hv. destruct (_ && _); [done|]. intros [= <-]. destruct b; [done|].
  assert (0 <= Z.shiftr v 4) by (by apply Z.shiftr_nonneg). assert (0 <= Z.land v 15) by (apply Z.land_nonneg; by left). lia.
Qed.

Lemma hour12_nonneg d raw x : hour12 d raw = Some x -> 0 <= x.
Proof.
  unfold hour12. destruct (_ || _); [done|]. intros [= <-]. pose proof (Z.mod_pos_bound d 12). destruct (flag raw 0x80); lia.
Qed.

Lemma parse_nonneg r n v d : 0 <= v -> parse_field r n v = Some d -> 0 <= d.
Proof.
  unfold parse_field. intros Hv. cbn zeta. destruct (_ && _).
  - destruct (input _ _) as [x|]; [|done]. cbn. apply hour12_nonneg.
  - destruct (input v _) as [x|] eqn:Hi; [|done]. cbn. intros [= <-]. by eapply input_nonneg.
Qed.

Lemma set_date_ok r e b t : rtc_ok r -> 0 <= e < LIMIT -> 0 <= b < 7 -> 0 <= t <= last r -> rtc_ok (set_date e b t r).
Proof. intros [] He Hb Ht. split; cbn; auto; lia. Qed.

Section registers.
Context (r : rtc) (f : list Z) (Hr : rtc_ok r) (Hf : date_ok f).

Lemma date_get n : 0 <= n < 8 -> aget f n = Some (f !!! Z.to_nat n).
Proof using Hf. intros Hn. apply aget_total. rewrite (date_length f Hf). lia. Qed.

Lemma io_field_ok n write value :
  0 <= n < 8 ->
  exists x, io_field r f n write value (last r) = Some x /\ forall v r', x = Some (v, r') -> rtc_ok r'.
Proof using Hr Hf.
  intros Hn. unfold io_field. destruct write.
  2:{ rewrite date_get by done. cbn. eexists. split; [done|]. by intros v r' [= <- <-]. }
  destruct (_ && _); [by exists None|]. destruct (parse_field r n (u8 value)) as [d|] eqn:Hp; [|by exists None].
  apply parse_nonneg in Hp; [|by apply Z.mod_pos_bound].
  destruct (aget_lt field_max n) as [m Hm]; [cbn; lia|]. rewrite Hm. cbn [mbind option_bind]. apply aget_Some in Hm as [_ Hm].
  destruct (Z.ltb_spec m d) as [|Hle]; [by exists None|]. cbn [orb]. destruct (_ && (d =? 0)); [by exists None|].
  assert (Hd100 : m <= 99).
  { apply list_elem_of_lookup_2 in Hm. unfold field_max in Hm.
    repeat (apply elem_of_cons in Hm as [->|Hm]; [lia|]). by apply not_elem_of_nil in Hm. }
  rewrite (u8_small d) by (unfold is_u8; lia). destruct (flag (reg_b r) 0x80).
  { rewrite aset_Some by (rewrite (date_length _ (to_staged r Hr)); lia). cbn. eexists. split; [done|]. intros v r' [= <- <-].
    destruct Hr. split; cbn; auto. by eapply date_insert. }
  rewrite aset_Some by (rewrite (date_length f Hf); lia). cbn [mbind option_bind].
  assert (Hf' : date_ok (<[Z.to_nat 7 := d]> f)) by (apply (date_insert f _ d 99); [done|done|lia]).
  destruct (encode_total _ Hf') as [e He]. rewrite He. cbn [mbind option_bind]. destruct e as [e|]; [|by exists None].
  destruct (encode_bias _ e Hf' He) as (Hlim & b & Hb & Hb7 & _).
  rewrite aget_total by (rewrite (date_length _ Hf'); lia). cbn [mbind option_bind]. change (Z.to_nat 3) with 3%nat. rewrite Hb.
  cbn [mbind option_bind]. eexists. split; [done|]. intros v r' [= <- <-].
  pose proof (to_base r Hr) as Hbase. pose proof (to_last r Hr) as Hlast. apply set_date_ok; [done|done|done|].
  rewrite (u64_small (last r - base r)) by (unfold is_u64; lia). unfold AOS_X86_RTC_HZ.
  pose proof (Z.mod_pos_bound (last r - base r) 3579545 ltac:(lia)). pose proof (Z.mod_le (last r - base r) 3579545 ltac:(lia) ltac:(lia)).
  rewrite u64_small by (unfold is_u64; lia). lia.
Qed.

Lemma io_alarm_ok i write value :
  0 <= i < 3 -> exists x, io_alarm r i write value = Some x /\ forall v r', x = Some (v, r') -> rtc_ok r'.
Proof using Hr.
  intros Hi. unfold io_alarm. destruct write.
  - destruct (alarm_value _ _ _); [|by exists None]. rewrite aset_Some by (rewrite (to_alarm r Hr); lia). cbn. eexists. split; [done|].
    intros v r' [= <- <-]. destruct Hr. split; cbn; auto; [by rewrite length_insert|]. apply Forall_insert; [done|]. by apply Z.mod_pos_bound.
  - rewrite aget_total by (rewrite (to_alarm r Hr); lia). cbn. eexists. split; [done|]. by intros v r' [= <- <-].
Qed.

Lemma set_a_ok v r0 : rtc_ok r0 -> rtc_ok (set_a (Z.land (u8 v) 0x7f) r0).
Proof using.
  intros [H1 H2 H3 H4 H5 H6 H7 H8 H9 H10]. split; cbn; auto.
  change 0x7f with (Z.ones 7). rewrite Z.land_ones by lia. pose proof (Z.mod_pos_bound (u8 v) (2 ^ 7)). unfold is_u8. lia.
Qed.

Lemma io_a_ok write value : exists x, io_a r f write value (last r) = Some x /\ forall v r', x = Some (v, r') -> rtc_ok r'.
Proof using Hr Hf.
  unfold io_a. cbn zeta. pose proof (to_base r Hr). assert (Hd : forall e, 0 <= e < LIMIT -> rtc_ok (set_date e (weekday_bias r) (last r) r)).
  { intros e He. apply set_date_ok; [done|done|apply Hr|lia]. }
  destruct write; [|eexists; split; [done|]; by intros v r' [= <- <-]]. destruct (_ && _); [by exists None|].
  destruct (_ && _).
  - destruct (negb _).
    + destruct (encode_total f Hf) as [e He]. rewrite He. cbn [mbind option_bind]. destruct e as [e|]; [|by exists None].
      destruct (encode_bias f e Hf He) as [Hlim _]. eexists. split; [done|]. intros v r' [= <- <-]. by apply set_a_ok, Hd.
    + eexists. split; [done|]. intros v r' [= <- <-]. apply set_a_ok, Hd, Hr.
  - destruct (_ && _); eexists; (split; [done|]); intros v r' [= <- <-]; apply set_a_ok; [apply Hd, Hr|done].
Qed.

Lemma set_b_ok v r0 : rtc_ok r0 -> is_u8 v -> rtc_ok (set_b v r0).
Proof using. intros [H1 H2 H3 H4 H5 H6 H7 H8 H9 H10] Hv. split; cbn; auto. Qed.

(** The date that clearing SET commits. *)
Definition committed (v : Z) (r' : rtc) : Prop :=
  exists e b, encode (staged r) = Some (Some e) /\ 0 <= e < LIMIT /\ 0 <= b < 7 /\ show_date b e = Some (staged r) /\
    r' = set_b v (set_date e b (last r) r).

Lemma io_b_ok write value :
  exists x, io_b r f write value (last r) = Some x /\ forall v r', x = Some (v, r') -> rtc_ok r' /\
    (write = true -> flag (reg_b r) 0x80 = true -> flag (u8 value) 0x80 = false -> committed (u8 value) r').
Proof using Hr Hf.
  unfold io_b. cbn zeta. assert (Hv8 : is_u8 (u8 value)) by (by apply Z.mod_pos_bound). pose proof (to_base r Hr).
  destruct write; [|eexists; split; [done|]; by intros v r' [= <- <-]]. destruct (flag _ _); [by exists None|].
  destruct (flag (reg_b r) 0x80) eqn:Hset; cbn [negb andb].
  - rewrite Hset. destruct (flag (u8 value) 0x80); cbn [negb andb].
    { eexists. split; [done|]. intros v r' [= <- <-]. split; [by apply set_b_ok|done]. }
    destruct (encode_total _ (to_staged r Hr)) as [e He]. rewrite He. cbn [mbind option_bind]. destruct e as [e|]; [|by exists None].
    destruct (encode_bias _ e (to_staged r Hr) He) as (Hlim & b & Hb & Hb7 & Hshow).
    rewrite aget_total by (rewrite (date_length _ (to_staged r Hr)); lia). cbn [mbind option_bind]. change (Z.to_nat 3) with 3%nat.
    rewrite Hb. cbn [mbind option_bind]. eexists. split; [done|]. intros v r' [= <- <-]. split; [|intros _ _ _; by exists e, b].
    apply set_b_ok; [|done]. apply set_date_ok; [done|done|done|lia].
  - destruct (flag (u8 value) 0x80); cbn [reg_b set_staged negb]; rewrite Hset; cbn [andb]; eexists; (split; [done|]);
      intros v r' [= <- <-]; (split; [|done]); (apply set_b_ok; [|done]); [|done]. destruct Hr. split; cbn; auto.
Qed.
End registers.

Lemma rtc_io_ok r reg write value t :
  rtc_ok r -> is_u64 t ->
  exists x, aos_x86_rtc_io r reg write value t = Some x /\ forall v r', x = Some (v, r') -> rtc_ok r'.
Proof.
  intros Hr Ht. unfold aos_x86_rtc_io. destruct (current_ok r t Hr Ht) as (c & -> & _ & Hc). cbn [mbind option_bind].
  destruct c as [[next f]|]; [|by exists None]. destruct (Hc next f eq_refl) as (_ & Hn & <- & Hf & _).
  destruct (field reg) as [n|] eqn:Hreg; [apply io_field_ok; [done..|by eapply field_range]|].
  destruct ((reg =? 1) || (reg =? 3) || (reg =? 5)) eqn:Hal.
  { apply io_alarm_ok; [done|]. rewrite !orb_true_iff, !Z.eqb_eq in Hal. destruct Hal as [[-> | ->] | ->]; by split. }
  destruct (reg =? 0xa); [by apply io_a_ok|].
  destruct (reg =? 0xb); [destruct (io_b_ok next f Hn Hf write value) as (x & -> & Hx); exists x; split; [done|]; intros v r' E; by eapply Hx|].
  destruct (reg =? 0xc); [destruct write; eexists; (split; [done|]); intros v r' [= <- <-]; [done|by apply set_flags_ok]|].
  destruct (reg =? 0xd); [eexists; (split; [done|]); by intros v r' [= <- <-]|by exists None].
Qed.

(** ** Runs *)

(** The accesses of a guest: register, direction, value and time. *)
Definition rtc_access : Type := Z * bool * Z * Z.

Fixpoint rtc_run (r : rtc) (os : list rtc_access) : option rtc :=
  match os with
  | [] => Some r
  | (reg, write, value, t) :: os => x ← aos_x86_rtc_io r reg write value t; rtc_run (from_option snd r x) os
  end.

Lemma rtc_run_ok os : forall r, rtc_ok r -> Forall (fun '(_, _, _, t) => is_u64 t) os -> exists r', rtc_run r os = Some r' /\ rtc_ok r'.
Proof.
  induction os as [|[[[reg write] value] t] os IH]; intros r Hr Hos; [by exists r|]. apply Forall_cons in Hos as [Ht Hos].
  cbn [rtc_run]. destruct (rtc_io_ok r reg write value t Hr Ht) as (x & -> & Hx). cbn [mbind option_bind]. apply IH; [|done].
  destruct x as [[v r']|]; [|done]. by eapply Hx.
Qed.

Lemma rtc_init_ok e t r : 0 <= e -> is_u64 t -> aos_x86_rtc_init e t = Some r -> rtc_ok r.
Proof.
  intros He Ht. unfold aos_x86_rtc_init. destruct (Z.leb_spec LIMIT e); [done|]. intros [= <-]. unfold is_u64 in Ht.
  split; cbn [epoch base last reg_a reg_b rtc_flags weekday_bias staged alarm]; try done; try lia.
  - unfold date_ok, field_max. cbn. repeat (apply Forall2_cons; split; [lia|]). constructor.
  - by repeat constructor.
Qed.

(** ** Theorems *)

(** A clock that starts from its initial date stays well formed under
    every sequence of accesses at any times, and no access leaves an array or
    runs a calendar loop out of its fuel: the date stays before the year
    10000, every staged field within its bounds and the base not after the
    last reading. *)
Theorem rtc_invariant e t r os :
  0 <= e -> is_u64 t -> aos_x86_rtc_init e t = Some r -> Forall (fun '(_, _, _, t) => is_u64 t) os ->
  exists r', rtc_run r os = Some r' /\ rtc_ok r'.
Proof. intros He Ht Hinit Hos. apply rtc_run_ok; [|done]. by eapply rtc_init_ok. Qed.


(** Setting the clock is atomic and exact. When the guest clears SET and
    the write is accepted, the clock shows the staged date, weekday included,
    through the first second after the write, and after [k] seconds the date
    [k] seconds later, for as long as the calendar lasts. *)
Theorem rtc_set_get r value t v r1 :
  rtc_ok r -> is_u64 t -> flag (reg_b r) 0x80 = true -> flag (u8 value) 0x80 = false ->
  divider_reset (reg_a r) = false -> aos_x86_rtc_io r 0xb true value t = Some (Some (v, r1)) ->
  exists e, encode (staged r) = Some (Some e) /\
    forall t', t <= t' < 2 ^ 64 -> e + (t' - t) / AOS_X86_RTC_HZ < LIMIT ->
      exists r2 f, current r1 t' = Some (Some (r2, f)) /\
        show_date (weekday_bias r1) (e + (t' - t) / AOS_X86_RTC_HZ) = Some f /\
        (t' < t + AOS_X86_RTC_HZ -> f = staged r).
Proof.
  intros Hr Ht Hset Hclr Hdiv Hio. unfold aos_x86_rtc_io in Hio. destruct (current_ok r t Hr Ht) as (c & Hcur & _ & Hc).
  rewrite Hcur in Hio. cbn [mbind option_bind] in Hio. destruct c as [[next f]|]; [|done].
  destruct (Hc next f eq_refl) as (_ & Hn & Hl & Hf & (E1 & E2 & E3 & E4 & E5 & E6 & E7) & _). subst t.
  change (field 0xb) with (@None Z) in Hio. cbn [Z.eqb Pos.eqb orb] in Hio.
  destruct (io_b_ok next f Hn Hf true value) as (x & Hx & Hok). rewrite Hx in Hio. injection Hio as ->.
  destruct (Hok v r1 eq_refl) as (Hr1 & Hcm). destruct Hcm as (e & b & He & Hlim & Hb & Hshow & ->); [done|by rewrite E4|done|].
  rewrite E6 in He, Hshow. exists e. split; [done|]. intros t' Ht' Hlt. cbn [weekday_bias set_b set_date].
  assert (H64 : is_u64 t') by (unfold is_u64 in *; lia).
  set (r1 := set_b (u8 value) (set_date e b (last next) next)) in *.
  assert (Hel : elapsed_at r1 t' = (t' - last next) / AOS_X86_RTC_HZ) by (unfold elapsed_at, r1; cbn; by rewrite E3, Hdiv).
  destruct (current_ok r1 t' Hr1 H64) as (c & Hcur' & Hnone & Hc'). rewrite Hel in Hnone. destruct c as [[r2 f2]|].
  - destruct (Hc' r2 f2 eq_refl) as (_ & _ & _ & _ & _ & Hread). change (reg_b r1) with (u8 value) in Hread. rewrite Hclr, Hel in Hread.
    destruct Hread as (_ & Hsd & _). exists r2, f2. split; [done|]. split; [exact Hsd|]. intros Hsec.
    change (epoch r1) with e in Hsd. rewrite Z.div_small, Z.add_0_r in Hsd by lia. change (weekday_bias r1) with b in Hsd. congruence.
  - exfalso. change (last r1) with (last next) in Hnone. change (epoch r1) with e in Hnone. destruct (Hnone eq_refl) as [|[_ ?]]; lia.
Qed.

(** The alarm flag is exact: a reading finds it raised if it was raised
    before, or if a second after the last reading and up to this one matches
    the alarm's hour, minute and second, however long the gap, although the
    scan stops after a day. *)
Theorem rtc_alarm_exact r t r' f :
  rtc_ok r -> is_u64 t -> flag (reg_b r) 0x80 = false -> current r t = Some (Some (r', f)) ->
  (Z.testbit (rtc_flags r') 5 = true <->
   Z.testbit (rtc_flags r) 5 = true \/
   exists a0 a1 a2 u, alarm_time r = Some (a0, a1, a2) /\
     epoch r + elapsed_at r (last r) < u <= epoch r + elapsed_at r t /\ alarm_matches a0 a1 a2 u = true).
Proof.
  intros Hr Ht Hset Hcur. destruct (current_ok r t Hr Ht) as (c & Hcur' & _ & Hc). rewrite Hcur in Hcur'. injection Hcur' as <-.
  destruct (Hc r' f eq_refl) as (_ & _ & _ & _ & _ & Hread). rewrite Hset in Hread. apply Hread.
Qed.

(** ** An instance *)

#[global] Instance rtc_inhabited : Inhabited rtc := populate (mk_rtc 0 0 0 0 0 0 0 [] []).

(** The clock at 2000-01-01, set to 2024-02-29 23:59:59, a Friday, with the
    alarm at midnight: SET, the fields in BCD, and the alarm. *)
Definition example_accesses : list rtc_access :=
  [(0xb, true, 0x82, 10); (0, true, 0x59, 11); (2, true, 0x59, 12); (4, true, 0x23, 13); (6, true, 6, 14); (7, true, 0x29, 15);
   (8, true, 2, 16); (9, true, 0x24, 17); (0x32, true, 0x20, 18); (1, true, 0, 19); (3, true, 0, 20); (5, true, 0, 21)].

Definition example_rtc : rtc := default inhabitant (aos_x86_rtc_init 946684800 5).
Definition example_staged : rtc := default example_rtc (rtc_run example_rtc example_accesses).
Definition example_set : rtc :=
  match aos_x86_rtc_io example_staged 0xb true 2 100 with Some (Some (_, r)) => r | _ => example_staged end.

Lemma example_rtc_ok : rtc_ok example_rtc.
Proof. by apply (rtc_init_ok 946684800 5). Qed.

Lemma example_accesses_ok : Forall (fun '(_, _, _, t) => is_u64 t) example_accesses.
Proof. repeat (apply Forall_cons; split; [done|]). apply Forall_nil_2. Qed.

Lemma example_staged_ok : rtc_ok example_staged.
Proof.
  destruct (rtc_run_ok example_accesses example_rtc example_rtc_ok example_accesses_ok) as (r' & Hr & Hok).
  unfold example_staged. by rewrite Hr.
Qed.

Lemma rtc_invariant_witness : exists r', rtc_run example_rtc example_accesses = Some r' /\ rtc_ok r'.
Proof. apply (rtc_invariant 946684800 5); [lia|done|done|apply example_accesses_ok]. Defined.


Lemma rtc_set_get_witness :
  staged example_staged = [59; 59; 23; 6; 29; 2; 24; 20] /\
  exists e, encode (staged example_staged) = Some (Some e) /\
    forall t', 100 <= t' < 2 ^ 64 -> e + (t' - 100) / AOS_X86_RTC_HZ < LIMIT ->
      exists r2 f, current example_set t' = Some (Some (r2, f)) /\
        show_date (weekday_bias example_set) (e + (t' - 100) / AOS_X86_RTC_HZ) = Some f /\
        (t' < 100 + AOS_X86_RTC_HZ -> f = staged example_staged).
Proof.
  split; [by vm_compute|]. apply (rtc_set_get example_staged 2 100 2 example_set); [apply example_staged_ok|done|by vm_compute..].
Defined.

Lemma example_set_ok : rtc_ok example_set.
Proof.
  destruct (rtc_io_ok example_staged 0xb true 2 100 example_staged_ok) as (x & Hx & Hok); [done|].
  unfold example_set. rewrite Hx. destruct x as [[v r]|]; [by eapply Hok|apply example_staged_ok].
Qed.

(** A second later the date is 2024-03-01 and the alarm has gone off. *)
Definition example_later : rtc * list Z :=
  match current example_set (100 + AOS_X86_RTC_HZ) with Some (Some x) => x | _ => (example_set, []) end.

Lemma rtc_alarm_exact_witness :
  snd example_later = [0; 0; 0; 7; 1; 3; 24; 20] /\ Z.testbit (rtc_flags (fst example_later)) 5 = true.
Proof.
  split; [by vm_compute|].
  apply (rtc_alarm_exact example_set (100 + AOS_X86_RTC_HZ) (fst example_later) (snd example_later)); [apply example_set_ok|by vm_compute..|].
  right. exists 0, 0, 0, (epoch example_set + 1). split; [by vm_compute|]. split; [|by vm_compute].
  vm_compute. split; congruence.
Defined.
