(* ===== verification/X86Config.v ===== *)
(** * The configuration devices of an x86 guest

    [platform/guest-vmm/x86_config.c] and its header: the private state
    behind the guest's port accesses. Two PCI functions, the firmware
    configuration device with its byte port and its DMA command, the power
    management registers with their timer, the CMOS index with the clock
    behind it, and the absent legacy devices.

    [None] is an access outside an array; a call that the C code refuses with
    [false] is [Some None]. *)

From Stdlib Require Import String Ascii.
From S2P Require Import Prelude BitSet Bytes X86Rtc.
From stdpp Require Import options.

#[local] Open Scope Z_scope.

Definition AOS_X86_BOOT_BLOB_LIMIT : Z := 64 * 1024 * 1024.
Definition AOS_X86_BOOT_CMDLINE_LIMIT : Z := 4096.
Definition AOS_X86_RTC_BOOT_EPOCH : Z := 946684800.
Definition AOS_X86_ACPI_MAX_CPUS : Z := 32.
Definition AOS_X86_ACPI_LOADER_BYTES : Z := 19 * 128.

(** ** State *)

(** A source of bytes; [None] is the null pointer. *)
Record boot_blobs := mk_blobs {
  b_kernel : option (list Z); b_initrd : option (list Z); b_cmdline : option (list Z);
  b_kernel_size : Z; b_initrd_size : Z; b_cmdline_size : Z }.

Record acpi_bundle := mk_acpi {
  ac_tables : list Z; ac_rsdp : list Z; ac_loader : list Z; ac_table_bytes : Z; ac_cpu_count : Z }.

(** The structure [aos_x86_config_t], its fields grouped by device. *)
Record pci_state := mk_pci { pci_address : Z; host : list Z; pm : list Z; pci_reads : Z }.
Record fw_state := mk_fw {
  fw_selector : Z; fw_offset : Z; fw_reads : Z; boot_reads : list Z; fw_dma_address : Z }.
Record pm_state := mk_pm { pm_status : Z; pm_control : Z; pm_last_ticks : Z; timer_reads : Z }.
Record legacy_state := mk_legacy {
  cmos_index : Z; cmos_shutdown : Z; cpu_selector : Z; cpu_command : Z; pit_disable_remaining : Z;
  reset_control : Z; reset_requested : bool }.

Record config := mk_config {
  ram_bytes : Z; c_pci : pci_state; c_fw : fw_state; c_pm : pm_state; c_legacy : legacy_state;
  c_rtc : rtc; c_boot : boot_blobs; c_acpi : option acpi_bundle }.

Definition set_pci (x : pci_state) (s : config) : config :=
  mk_config (ram_bytes s) x (c_fw s) (c_pm s) (c_legacy s) (c_rtc s) (c_boot s) (c_acpi s).
Definition set_fw (x : fw_state) (s : config) : config :=
  mk_config (ram_bytes s) (c_pci s) x (c_pm s) (c_legacy s) (c_rtc s) (c_boot s) (c_acpi s).
Definition set_pm (x : pm_state) (s : config) : config :=
  mk_config (ram_bytes s) (c_pci s) (c_fw s) x (c_legacy s) (c_rtc s) (c_boot s) (c_acpi s).
Definition set_legacy (x : legacy_state) (s : config) : config :=
  mk_config (ram_bytes s) (c_pci s) (c_fw s) (c_pm s) x (c_rtc s) (c_boot s) (c_acpi s).
Definition set_rtc (x : rtc) (s : config) : config :=
  mk_config (ram_bytes s) (c_pci s) (c_fw s) (c_pm s) (c_legacy s) x (c_boot s) (c_acpi s).
Definition set_boot (x : boot_blobs) (s : config) : config :=
  mk_config (ram_bytes s) (c_pci s) (c_fw s) (c_pm s) (c_legacy s) (c_rtc s) x (c_acpi s).

(** ** Little-endian bytes *)

(** [load] and [put] at [p + i], the byte at [i] in the low bits. *)
Fixpoint load (l : list Z) (i : Z) (n : nat) : option Z :=
  match n with
  | O => Some 0
  | S n => b ← aget l i; v ← load l (i + 1) n; Some (Z.lor b (Z.shiftl v 8))
  end.
Fixpoint put (l : list Z) (i v : Z) (n : nat) : option (list Z) :=
  match n with
  | O => Some l
  | S n => l ← aset l i (u8 v); put l (i + 1) (Z.shiftr v 8) n
  end.

(** ** Initialisation *)

Definition no_blobs : boot_blobs := mk_blobs None None None 0 0 0.

Definition aos_x86_config_init (ram : Z) : option (option config) :=
  if (ram <? 32 * 1024 * 1024) || (0x80000000 <? ram) || flag ram 0xffff then Some None else
  match aos_x86_rtc_init AOS_X86_RTC_BOOT_EPOCH 0 with
  | None => Some None
  | Some r =>
      h ← put (replicate 256 0) 0 0x12378086 4;
      h ← aset h 8 2; h ← aset h 11 6;
      p ← put (replicate 256 0) 0 0x71138086 4;
      p ← aset p 8 3; p ← aset p 11 6; p ← aset p 10 0x80; p ← aset p 0x40 1;
      Some (Some (mk_config ram (mk_pci 0 h p 0) (mk_fw 0 0 0 [0; 0; 0] 0) (mk_pm 0 0 0 0)
        (mk_legacy 0 0 0 0 0 0 false) r no_blobs None))
  end.

Definition printable (c : Z) : bool := (0x20 <=? c) && (c <=? 0x7e).

(** The check of the command line: a final zero after printable bytes. *)
Definition cmdline_ok (b : boot_blobs) : option bool :=
  if b_cmdline_size b =? 0 then Some true else
  match b_cmdline b with
  | None => None
  | Some l =>
      e ← aget l (b_cmdline_size b - 1);
      Some ((e =? 0) && forallb printable (take (Z.to_nat (b_cmdline_size b - 1)) l))
  end.

Definition same_presence (p : option (list Z)) (size : Z) : bool := Bool.eqb (bool_decide (is_Some p)) (negb (size =? 0)).

Definition aos_x86_config_boot (s : config) (b : boot_blobs) : option (option config) :=
  if (ram_bytes s =? 0) || negb (fw_reads (c_fw s) =? 0) || bool_decide (is_Some (b_kernel (c_boot s))) ||
     negb (bool_decide (is_Some (b_kernel b))) || (b_kernel_size b =? 0) ||
     (AOS_X86_BOOT_BLOB_LIMIT <? b_kernel_size b) || (AOS_X86_BOOT_BLOB_LIMIT <? b_initrd_size b) ||
     (AOS_X86_BOOT_CMDLINE_LIMIT <? b_cmdline_size b) ||
     negb (same_presence (b_initrd b) (b_initrd_size b)) || negb (same_presence (b_cmdline b) (b_cmdline_size b))
  then Some None
  else
    ok ← cmdline_ok b;
    Some (if (ok : bool) then Some (set_boot b s) else None).

(** [devices] is the build's number of virtio devices. *)
Definition aos_x86_config_acpi (devices : Z) (s : config) (acpi : acpi_bundle) : option (option config) :=
  if (ram_bytes s =? 0) || bool_decide (is_Some (c_acpi s)) || negb (fw_reads (c_fw s) =? 0) ||
     (ac_cpu_count acpi =? 0) || (AOS_X86_ACPI_MAX_CPUS <? ac_cpu_count acpi) ||
     negb (ac_table_bytes acpi =? u32 (846 + 75 * (devices - 3) + 37 * (ac_cpu_count acpi - 1)))
  then Some None
  else
    p ← put (pm (c_pci s)) 0x40 0xb001 2;
    p ← aset p 0x80 1;
    Some (Some (mk_config (ram_bytes s) (mk_pci (pci_address (c_pci s)) (host (c_pci s)) p (pci_reads (c_pci s))) (c_fw s)
      (mk_pm (pm_status (c_pm s)) 1 (pm_last_ticks (c_pm s)) (timer_reads (c_pm s))) (c_legacy s) (c_rtc s) (c_boot s) (Some acpi))).

(** ** The firmware configuration device *)

(** The source and size that a selector names; an item with a size and no
    source is its size. *)
Definition fw_item (s : config) : option (list Z) * Z :=
  let b := c_boot s in
  let sel := fw_selector (c_fw s) in
  let bundle f := from_option f (None, 0) (c_acpi s) in
  if sel =? 8 then (None, b_kernel_size b)
  else if sel =? 0xb then (None, b_initrd_size b)
  else if sel =? 0x14 then (None, b_cmdline_size b)
  else if sel =? 0x11 then (b_kernel b, b_kernel_size b)
  else if sel =? 0x12 then (b_initrd b, b_initrd_size b)
  else if sel =? 0x15 then (b_cmdline b, b_cmdline_size b)
  else if sel =? 0x21 then bundle (fun a => (Some (ac_tables a), ac_table_bytes a))
  else if sel =? 0x22 then bundle (fun a => (Some (ac_rsdp a), 36))
  else if sel =? 0x23 then bundle (fun a => (Some (ac_loader a), AOS_X86_ACPI_LOADER_BYTES))
  else (None, 0).

Definition byte_of (v k : Z) : Z := u8 (Z.shiftr v (8 * k)).

(** A row of the array [names], padded with zeros. *)
Definition file_name (n : string) : list Z :=
  let c := (fun c => Z.of_N (N_of_ascii c)) <$> list_ascii_of_string n in
  c ++ replicate (56 - length c) 0.
Definition file_names : list (list Z) :=
  [file_name "etc/e820"; file_name "etc/acpi/tables"; file_name "etc/acpi/rsdp"; file_name "etc/table-loader"].
Definition file_sizes (s : config) : list Z :=
  [80; from_option ac_table_bytes 0 (c_acpi s); 36; AOS_X86_ACPI_LOADER_BYTES].

Definition fw_directory (s : config) (off : Z) : option Z :=
  let count := if c_acpi s is Some _ then 4 else 1 in
  if off <? 4 then Some (if off =? 3 then count else 0) else
  let entry := (off - 4) / 64 in
  let col := (off - 4) mod 64 in
  if count <=? entry then Some 0
  else if col <? 4 then (z ← aget (file_sizes s) entry; Some (byte_of z (3 - col)))
  else if col =? 5 then Some (u8 (0x20 + entry))
  else if 8 <=? col then (n ← aget file_names entry; aget n (col - 8))
  else Some 0.

Definition e820_starts : list Z := [0; 0xa0000; 0x100000; 0xffc00000].
Definition e820_sizes (s : config) : list Z := [0xa0000; 0x60000; u32 (ram_bytes s - 0x100000); 0x400000].
Definition fw_e820 (s : config) (off : Z) : option Z :=
  let row := off / 20 in
  let col := off mod 20 in
  if col <? 8 then (v ← aget e820_starts row; Some (byte_of v col))
  else if col <? 16 then (v ← aget (e820_sizes s) row; Some (byte_of v (col - 8)))
  else Some (if col =? 16 then (if (row =? 0) || (row =? 2) then 1 else 2) else 0).

Definition fw_byte (s : config) (off : Z) : option Z :=
  let sel := fw_selector (c_fw s) in
  match fw_item s with
  | (Some data, size) => if off <? size then aget data off else Some 0
  | (None, size) =>
      if negb (size =? 0) then Some (if off <? 4 then byte_of size off else 0)
      else if sel =? 0 then (if off <? 4 then aget [81; 69; 77; 85] off else Some 0)
      else if sel =? 1 then Some (if off =? 0 then 3 else 0)
      else if sel =? 3 then Some (if off <? 4 then byte_of (ram_bytes s) off else 0)
      else if (sel =? 5) || (sel =? 0xf) then Some (if off =? 0 then from_option ac_cpu_count 1 (c_acpi s) else 0)
      else if sel =? 0x19 then fw_directory s off
      else if (sel =? 0x20) && (off <? 80) then fw_e820 s off
      else Some 0
  end.

Definition UINT32_MAX : Z := 0xffffffff.

(** The index of the boot blob that a selector names, with its source and
    size; [None] is the index 3. *)
Definition blob_of (s : config) : option (Z * option (list Z) * Z) :=
  let b := c_boot s in
  let sel := fw_selector (c_fw s) in
  if sel =? 0x11 then Some (0, b_kernel b, b_kernel_size b)
  else if sel =? 0x12 then Some (1, b_initrd b, b_initrd_size b)
  else if sel =? 0x15 then Some (2, b_cmdline b, b_cmdline_size b)
  else None.

Definition set_selector (v : Z) (f : fw_state) : fw_state :=
  mk_fw v 0 (fw_reads f) (boot_reads f) (fw_dma_address f).
Definition set_counts (offset reads : Z) (b : list Z) (f : fw_state) : fw_state :=
  mk_fw (fw_selector f) offset reads b (fw_dma_address f).

Definition DMA_READ : Z := 2.
Definition DMA_SKIP : Z := 4.
Definition DMA_SELECT : Z := 8.
Definition DMA_WRITE : Z := 16.

Definition count_flag (x m : Z) : Z := if flag x m then 1 else 0.

(** The bytes that a DMA read stores: a slice of a blob padded with zeros, or
    the item byte by byte. *)
Fixpoint fw_bytes (s : config) (off : Z) (n : nat) : option (list Z) :=
  match n with
  | O => Some []
  | S n => b ← fw_byte s off; l ← fw_bytes s (u32 (off + 1)) n; Some (b :: l)
  end.
Definition slice (l : list Z) (off n : Z) : option (list Z) :=
  if (0 <=? off) && (off + n <=? Z.of_nat (length l)) then Some (aslice l off n) else None.

Definition dma_bytes (s : config) (length : Z) : option (list Z) :=
  let off := fw_offset (c_fw s) in
  match blob_of s with
  | Some (_, Some source, size) =>
      let available := Z.min (if off <? size then size - off else 0) length in
      l ← (if available =? 0 then Some [] else slice source off available);
      Some (l ++ replicate (Z.to_nat (length - available)) 0)
  | _ => fw_bytes s off (Z.to_nat length)
  end.

(** The saturating counters of a DMA read. *)
Definition add_sat (v n : Z) : Z := v + Z.min n (UINT32_MAX - v).
Definition dma_boot_reads (s : config) (length : Z) : option (list Z) :=
  let f := c_fw s in
  match blob_of s with
  | Some (blob, _, size) =>
      if fw_offset f <? size
      then (v ← aget (boot_reads f) blob; aset (boot_reads f) blob (add_sat v (Z.min (size - fw_offset f) length)))
      else Some (boot_reads f)
  | None => Some (boot_reads f)
  end.

(** The destination is a buffer or the null pointer; the result is what was
    stored in it. *)
Definition aos_x86_config_dma (s : config) (control : Z) (destination : bool) (length : Z) :
    option (option (list Z * config)) :=
  let read := flag control DMA_READ in
  if (length =? 0) || (AOS_X86_BOOT_BLOB_LIMIT <? length) || negb (Z.ldiff control (0xffff0000 + DMA_READ + DMA_SKIP + DMA_SELECT + DMA_WRITE) =? 0) ||
     negb (count_flag control DMA_READ + count_flag control DMA_SKIP + count_flag control DMA_WRITE =? 1) ||
     (read && negb destination) || (negb read && destination)
  then Some None
  else
    let next := if flag control DMA_SELECT
                then set_fw (set_selector (Z.shiftr control 16) (c_fw s)) s else s in
    let f := c_fw next in
    if (UINT32_MAX - fw_offset f <? length) || flag control DMA_WRITE then Some None
    else if read
    then
      l ← dma_bytes next length;
      b ← dma_boot_reads next length;
      Some (Some (l, set_fw (set_counts (fw_offset f + length) (add_sat (fw_reads f) length) b f) next))
    else Some (Some ([], set_fw (set_counts (fw_offset f + length) (fw_reads f) (boot_reads f) f) next)).

(** ** Power management registers *)

Definition pm_store (status control ticks : Z) (timer : bool) (p : pm_state) : pm_state :=
  mk_pm status control ticks (if timer then u32 (timer_reads p + 1) else timer_reads p).

(** The status with the timer bit latched when bit 23 of the clock changed. *)
Definition pm_latch (p : pm_state) (ticks : Z) : Z :=
  if Z.shiftr ticks 23 =? Z.shiftr (pm_last_ticks p) 23 then pm_status p else Z.lor (pm_status p) 1.

Definition pm_io (p : pm_state) (off width : Z) (write : bool) (value ticks : Z) : option (Z * pm_state) :=
  let timer := (off =? 8) && (width =? 4) && negb write in
  let word := (off <? 6) && ((width =? 1) || ((width =? 2) && negb (flag off 1))) in
  if (negb timer && negb word) || (ticks <? pm_last_ticks p) then None else
  let status := pm_latch p ticks in
  let control := pm_control p in
  let shift := Z.land off 1 * 8 in
  let mask := if width =? 1 then 0xff else 0xffff in
  let data := Z.shiftl (Z.land value mask) shift in
  let done result status control := Some (result, pm_store status control ticks timer p) in
  if timer then done (Z.land (u32 ticks) 0xffffff) status control
  else if Z.ldiff off 1 =? 0 then
    (if write then done value (Z.ldiff status data) control
     else done (Z.land (Z.shiftr status shift) mask) status control)
  else if Z.ldiff off 1 =? 2 then
    (if write then (if Z.ldiff data 0x420 =? 0 then done value status control else None)
     else done 0 status control)
  else if write then
    let next := Z.lor (Z.ldiff control (Z.shiftl mask shift)) data in
    if Z.ldiff next 0x1c03 =? 0 then done value status next else None
  else done (Z.land (Z.shiftr control shift) mask) status control.

(** ** Port accesses *)

Definition in_range (lo hi p : Z) : bool := (lo <=? p) && (p <=? hi).

Definition set_reset (control : Z) (requested : bool) (l : legacy_state) : legacy_state :=
  mk_legacy (cmos_index l) (cmos_shutdown l) (cpu_selector l) (cpu_command l) (pit_disable_remaining l) control requested.
Definition set_pit (v : Z) (l : legacy_state) : legacy_state :=
  mk_legacy (cmos_index l) (cmos_shutdown l) (cpu_selector l) (cpu_command l) v (reset_control l) (reset_requested l).
Definition set_cpu (selector command : Z) (l : legacy_state) : legacy_state :=
  mk_legacy (cmos_index l) (cmos_shutdown l) selector command (pit_disable_remaining l) (reset_control l) (reset_requested l).
Definition set_cmos (index shutdown : Z) (l : legacy_state) : legacy_state :=
  mk_legacy index shutdown (cpu_selector l) (cpu_command l) (pit_disable_remaining l) (reset_control l) (reset_requested l).

(** The two configuration spaces; [is_pm] is the test [cfg == s->pm]. *)
Definition pci_function (s : config) : option bool :=
  let a := pci_address (c_pci s) in
  let bdf := Z.land a 0x00ffff00 in
  if flag a 0x80000000
  then (if bdf =? 0xb00 then Some true else if bdf =? 0 then Some false else None)
  else None.
Definition pci_space (is_pm : bool) (p : pci_state) : list Z := if is_pm then pm p else host p.
Definition pci_store (is_pm : bool) (l : list Z) (p : pci_state) : pci_state :=
  if is_pm then mk_pci (pci_address p) (host p) l (pci_reads p) else mk_pci (pci_address p) l (pm p) (pci_reads p).

Definition pci_mask (is_pm : bool) (reg : Z) : Z :=
  if is_pm && (reg =? 0x80) then 1
  else if is_pm && (reg =? 0x41) then 0xff
  else if is_pm && (reg =? 0x40) then 0xc0
  else if reg =? 4 then 7 else 0.

Fixpoint pci_write (is_pm : bool) (l : list Z) (reg value : Z) (n : nat) : option (list Z) :=
  match n with
  | O => Some l
  | S n =>
      b ← aget l reg;
      l ← aset l reg (Z.lor (Z.ldiff b (pci_mask is_pm reg)) (Z.land (u8 value) (pci_mask is_pm reg)));
      pci_write is_pm l (reg + 1) (Z.shiftr value 8) n
  end.

Definition pci_data (s : config) (port width : Z) (write : bool) (value : Z) : option (option (Z * config)) :=
  let p := c_pci s in
  let off := Z.land (pci_address p) 0xfc + port - 0xcfc in
  let n := Z.to_nat width in
  if write then
    match pci_function s with
    | None => Some (Some (value, s))
    | Some f => l ← pci_write f (pci_space f p) off value n; Some (Some (value, set_pci (pci_store f l p) s))
    end
  else
    v ← match pci_function s with
        | Some f => load (pci_space f p) off n
        | None => Some (if width =? 4 then 0xffffffff else Z.shiftl 1 (width * 8) - 1)
        end;
    Some (Some (v, set_pci (mk_pci (pci_address p) (host p) (pm p) (u32 (pci_reads p + 1))) s)).

(** One byte at the data port of the firmware configuration device. *)
Definition fw_read_counts (s : config) : option (list Z) :=
  let f := c_fw s in
  match blob_of s with
  | Some (blob, _, size) =>
      if fw_offset f <? size
      then (v ← aget (boot_reads f) blob; if v <? UINT32_MAX then aset (boot_reads f) blob (v + 1) else Some (boot_reads f))
      else Some (boot_reads f)
  | None => Some (boot_reads f)
  end.
Definition fw_read (s : config) : option (option (Z * config)) :=
  let f := c_fw s in
  v ← fw_byte s (fw_offset f);
  b ← fw_read_counts s;
  Some (Some (v, set_fw (set_counts (if fw_offset f <? UINT32_MAX then fw_offset f + 1 else fw_offset f)
    (if fw_reads f <? UINT32_MAX then fw_reads f + 1 else fw_reads f) b f) s)).

(** The byte at port 0x71, by the index last written to port 0x70. *)
Definition cmos_data (s : config) (write : bool) (value ticks : Z) : option (option (Z * config)) :=
  let l := c_legacy s in
  let i := cmos_index l in
  if i =? 0x0f then
    Some (if write
          then (if negb (u8 value =? 0) && negb (u8 value =? 0x0a) then None
                else Some (value, set_legacy (set_cmos i (u8 value) l) s))
          else Some (cmos_shutdown l, s))
  else if (i <=? 0x0d) || (i =? 0x32) then
    r ← aos_x86_rtc_io (c_rtc s) i write value ticks;
    Some (match r with Some (v, r) => Some (v, set_rtc r s) | None => None end)
  else if write then Some None
  else
    let above16 := Z.shiftr (u32 (ram_bytes s - 0x1000000)) 16 in
    Some (if i =? 0x34 then Some (Z.land above16 0xff, s)
          else if i =? 0x35 then Some (Z.shiftr above16 8, s)
          else if in_range 0x5b 0x5d i then Some (0, s) else None).

(** The ports of devices that are absent: direct memory access pages, serial
    ports and interrupt controllers. *)
Definition absent_dma (port : Z) : bool :=
  in_range 0x81 0x83 port || (port =? 0x87) || in_range 0x89 0x8b port || (port =? 0x8f).
Definition absent_uart (port : Z) : bool :=
  in_range 0x3f8 0x3ff port || in_range 0x2f8 0x2ff port || in_range 0x3e8 0x3ef port || in_range 0x2e8 0x2ef port.
Definition absent_pic (port : Z) : bool := (port =? 0x20) || (port =? 0x21) || (port =? 0xa0) || (port =? 0xa1).

(** The power management block answers at twelve ports from the base that
    the guest programs in configuration space. *)
Definition pm_decodes (s : config) (port : Z) : option (option Z) :=
  v ← load (pm (c_pci s)) 0x40 2;
  e ← aget (pm (c_pci s)) 0x80;
  let base := Z.land v 0xffc0 in
  Some (if negb (base =? 0) && flag e 1 && (base <=? port) && (port - base <? 12) then Some (port - base) else None).

Definition aos_x86_config_io (s : config) (port width : Z) (write : bool) (value ticks : Z) :
    option (option (Z * config)) :=
  let l := c_legacy s in
  let p := c_pci s in
  let ok v s := Some (Some (v, s)) in
  let byte := width =? 1 in
  if negb byte && negb (width =? 2) && negb (width =? 4) then Some None
  else if (port =? 0xcf9) && byte then
    (if write then ok value (set_legacy (set_reset (Z.land (u8 value) 2) (reset_requested l || flag value 4) l) s)
     else ok (reset_control l) s)
  else if write && byte && ((port =? 0x80) || (port =? 0xed)) then ok value s
  else if negb write && byte && absent_dma port then ok 0xff s
  else if byte && ((port =? 0x60) || (port =? 0x64)) then
    let s := if write && (port =? 0x64) && (Z.land value 0xff =? 0xfe)
             then set_legacy (set_reset (reset_control l) true l) s else s in
    ok (if write then value else 0xff) s
  else if byte && absent_uart port then ok (if write then value else 0xff) s
  else if write && byte && (port =? 0x43) && (value =? 0x30) then ok value (set_legacy (set_pit 2 l) s)
  else if write && byte && (port =? 0x40) && (value =? 0) && negb (pit_disable_remaining l =? 0)
  then ok value (set_legacy (set_pit (pit_disable_remaining l - 1) l) s)
  else if (port =? 0xaf00) && (width =? 4) then
    (if write then ok value (set_legacy (set_cpu value (cpu_command l) l) s) else ok 0 s)
  else if (port =? 0xaf05) && byte && write && ((Z.land value 0xff =? 0) || (Z.land value 0xff =? 3))
  then ok value (set_legacy (set_cpu (cpu_selector l) (u8 value) l) s)
  else if (port =? 0xaf04) && byte && negb write then ok (if cpu_selector l =? 0 then 1 else 0) s
  else if (port =? 0xaf08) && (width =? 4) && negb write then ok 0 s
  else if (port =? 0x92) && byte then
    (if write then (if Z.land value 0xff =? 2 then ok value s else Some None) else ok 2 s)
  else if absent_pic port && byte then ok (if write then value else 0xff) s
  else if write && (0xcf8 <=? port) && (port <? 0xcfc) && (width <? 4) && (Z.land port (width - 1) =? 0) &&
          (width <=? 0xcfc - port) then ok value s
  else if (port =? 0xcf8) && (width =? 4) then
    (if write then ok value (set_pci (mk_pci (Z.land value 0x80fffffc) (host p) (pm p) (pci_reads p)) s)
     else ok (pci_address p) s)
  else if (0xcfc <=? port) && (port <=? 0xcff) && (Z.land port (width - 1) =? 0) && (port - 0xcfc + width <=? 4)
  then pci_data s port width write value
  else
    d ← pm_decodes s port;
    match d with
    | Some off =>
        Some (match pm_io (c_pm s) off width write value ticks with Some (v, q) => Some (v, set_pm q s) | None => None end)
    | None =>
        if (port =? 0x510) && (width =? 2) && write then ok value (set_fw (set_selector (u16 value) (c_fw s)) s)
        else if (port =? 0x511) && byte && negb write then fw_read s
        else if (port =? 0x70) && byte then
          (if write then ok value (set_legacy (set_cmos (Z.land (u8 value) 0x7f) (cmos_shutdown l) l) s) else ok 0xff s)
        else if (port =? 0x71) && byte then cmos_data s write value ticks
        else Some None
    end.

(** ** Well-formed states *)

(** The bits of a configuration byte that no guest write reaches. *)
Definition frozen (is_pm : bool) (reg b : Z) : Z := Z.ldiff b (pci_mask is_pm reg).

(** The configuration spaces as they are after [aos_x86_config_init]. *)
Definition fresh_space (is_pm : bool) : list Z :=
  let id := if is_pm then [0x86; 0x80; 0x13; 0x71; 0; 0; 0; 0; 3; 0; 0x80; 6]
            else [0x86; 0x80; 0x37; 0x12; 0; 0; 0; 0; 2; 0; 0; 6] in
  id ++ replicate 52 0 ++ [if is_pm then 1 else 0] ++ replicate 191 0.

Record space_ok (is_pm : bool) (l : list Z) : Prop := {
  so_length : length l = 256%nat;
  so_bytes : Forall is_u8 l;
  so_frozen : forall reg, 0 <= reg < 256 ->
    frozen is_pm reg (l !!! Z.to_nat reg) = frozen is_pm reg (fresh_space is_pm !!! Z.to_nat reg) }.

(** A source has the bytes that its size promises. *)
Definition source_ok (p : option (list Z)) (size : Z) : Prop :=
  0 <= size /\ match p with Some l => Forall is_u8 l /\ size <= Z.of_nat (length l) | None => size = 0 end.

Record blobs_ok (b : boot_blobs) : Prop := {
  bo_kernel : source_ok (b_kernel b) (b_kernel_size b) /\ b_kernel_size b <= AOS_X86_BOOT_BLOB_LIMIT;
  bo_initrd : source_ok (b_initrd b) (b_initrd_size b) /\ b_initrd_size b <= AOS_X86_BOOT_BLOB_LIMIT;
  bo_cmdline : source_ok (b_cmdline b) (b_cmdline_size b) /\ b_cmdline_size b <= AOS_X86_BOOT_CMDLINE_LIMIT }.

Record acpi_ok (a : acpi_bundle) : Prop := {
  ao_bytes : Forall is_u8 (ac_tables a) /\ Forall is_u8 (ac_rsdp a) /\ Forall is_u8 (ac_loader a);
  ao_tables : 0 <= ac_table_bytes a <= Z.of_nat (length (ac_tables a)) /\ is_u32 (ac_table_bytes a);
  ao_rsdp : length (ac_rsdp a) = 36%nat;
  ao_loader : Z.of_nat (length (ac_loader a)) = AOS_X86_ACPI_LOADER_BYTES;
  ao_cpus : is_u8 (ac_cpu_count a) }.

Record fw_ok (f : fw_state) : Prop := {
  fo_selector : is_u16 (fw_selector f);
  fo_offset : is_u32 (fw_offset f);
  fo_reads : is_u32 (fw_reads f);
  fo_boot : length (boot_reads f) = 3%nat /\ Forall is_u32 (boot_reads f);
  fo_dma : is_u64 (fw_dma_address f) }.

(** The status has the timer bit alone, the control the bits that stick. *)
Record pm_ok (p : pm_state) : Prop := {
  po_status : pm_status p = 0 \/ pm_status p = 1;
  po_control : 0 <= pm_control p /\ Z.ldiff (pm_control p) 0x1c03 = 0;
  po_ticks : is_u64 (pm_last_ticks p);
  po_reads : is_u32 (timer_reads p) }.

Record legacy_ok (l : legacy_state) : Prop := {
  lo_index : 0 <= cmos_index l < 0x80;
  lo_shutdown : cmos_shutdown l = 0 \/ cmos_shutdown l = 0x0a;
  lo_selector : is_u32 (cpu_selector l);
  lo_command : cpu_command l = 0 \/ cpu_command l = 3;
  lo_pit : 0 <= pit_disable_remaining l <= 2;
  lo_reset : reset_control l = 0 \/ reset_control l = 2 }.

Record config_ok (s : config) : Prop := {
  co_ram : 32 * 1024 * 1024 <= ram_bytes s <= 0x80000000;
  co_address : is_u32 (pci_address (c_pci s)) /\ is_u32 (pci_reads (c_pci s));
  co_host : space_ok false (host (c_pci s));
  co_pm_space : space_ok true (pm (c_pci s));
  co_fw : fw_ok (c_fw s);
  co_pm : pm_ok (c_pm s);
  co_legacy : legacy_ok (c_legacy s);
  co_rtc : rtc_ok (c_rtc s);
  co_boot : blobs_ok (c_boot s);
  co_acpi : forall a, c_acpi s = Some a -> acpi_ok a }.

(** Total, with every accepted state well formed. *)
Definition serves {A} (x : option (option (A * config))) : Prop :=
  exists y, x = Some y /\ forall v s, y = Some (v, s) -> config_ok s.

Lemma serves_some {A} (v : A) s : config_ok s -> serves (Some (Some (v, s))).
Proof. intros Hs. eexists. split; [done|]. by intros ?? [= <- <-]. Qed.

Lemma serves_refused {A} : serves (A := A) (Some None).
Proof. by eexists. Qed.

Lemma set_fw_ok s f : config_ok s -> fw_ok f -> config_ok (set_fw f s).
Proof. intros [] Hf. by split. Qed.

Lemma set_pm_ok s p : config_ok s -> pm_ok p -> config_ok (set_pm p s).
Proof. intros [] Hp. by split. Qed.

Lemma set_legacy_ok s l : config_ok s -> legacy_ok l -> config_ok (set_legacy l s).
Proof. intros [] Hl. by split. Qed.

Lemma set_rtc_ok s r : config_ok s -> rtc_ok r -> config_ok (set_rtc r s).
Proof. intros [] Hr. by split. Qed.

Lemma set_pci_ok s p :
  config_ok s -> is_u32 (pci_address p) /\ is_u32 (pci_reads p) -> space_ok false (host p) -> space_ok true (pm p) ->
  config_ok (set_pci p s).
Proof. intros [] Ha Hh Hp. by split. Qed.

(** *** Configuration space *)

Lemma byte_at l i : Forall is_u8 l -> 0 <= i < Z.of_nat (length l) -> exists b, aget l i = Some b /\ is_u8 b.
Proof.
  intros Hl Hi. destruct (aget_lt l i Hi) as [b Hb]. exists b. split; [done|].
  apply aget_Some in Hb as [_ Hb]. by eapply Forall_lookup_1.
Qed.

Lemma lor_byte b v : is_u8 b -> Z.lor b (Z.shiftl v 8) = b + 256 * v.
Proof.
  intros Hb. assert (Z.land b (Z.shiftl v 8) = 0) as H0.
  { apply Z.bits_inj_iff. intros i. rewrite Z.land_spec, Z.bits_0. destruct (Z.ltb_spec i 8).
    - destruct (Z.ltb_spec i 0); [by rewrite Z.testbit_neg_r|]. rewrite Z.shiftl_spec_low by lia. by rewrite andb_false_r.
    - rewrite <- (Z.mod_small b (2 ^ 8)) by apply Hb. by rewrite Z.mod_pow2_bits_high by lia. }
  rewrite <- Z.lxor_lor, <- Z.add_nocarry_lxor by done. rewrite Z.shiftl_mul_pow2 by lia. lia.
Qed.

Lemma load_ok l n : Forall is_u8 l -> forall i, 0 <= i -> i + Z.of_nat n <= Z.of_nat (length l) ->
  exists v, load l i n = Some v /\ 0 <= v < 2 ^ (8 * Z.of_nat n).
Proof.
  intros Hl. induction n as [|n IH]; intros i Hi Hn; [by exists 0|]. cbn [load].
  destruct (byte_at l i Hl) as (b & -> & Hb); [lia|]. cbn [mbind option_bind].
  destruct (IH (i + 1)) as (v & -> & Hv); [lia..|]. cbn [mbind option_bind]. eexists. split; [done|].
  rewrite lor_byte by done. replace (8 * Z.of_nat (S n)) with (8 * Z.of_nat n + 8) by lia.
  rewrite Z.pow_add_r by lia. unfold is_u8 in Hb. lia.
Qed.

Lemma frozen_merge is_pm reg b v :
  frozen is_pm reg (Z.lor (Z.ldiff b (pci_mask is_pm reg)) (Z.land v (pci_mask is_pm reg))) = frozen is_pm reg b.
Proof.
  unfold frozen. apply Z.bits_inj_iff'. intros i Hi. rewrite !Z.ldiff_spec, Z.lor_spec, Z.ldiff_spec, Z.land_spec.
  by destruct (Z.testbit b i), (Z.testbit v i), (Z.testbit (pci_mask is_pm reg) i).
Qed.

Lemma merge_u8 b v m : is_u8 b -> is_u8 v -> 0 <= m -> is_u8 (Z.lor (Z.ldiff b m) (Z.land v m)).
Proof.
  rewrite !is_u8_land. intros [Hb Hb'] [Hv Hv'] Hm. split.
  { apply Z.lor_nonneg. split; [apply Z.ldiff_nonneg|apply Z.land_nonneg]; auto. }
  apply Z.bits_inj_iff'. intros i Hi. rewrite <- Hb', <- Hv'. rewrite !Z.land_spec, !Z.lor_spec, !Z.ldiff_spec, !Z.land_spec.
  by destruct (Z.testbit b i), (Z.testbit v i), (Z.testbit m i), (Z.testbit 255 i).
Qed.

Lemma space_set is_pm l reg b :
  space_ok is_pm l -> 0 <= reg < 256 -> is_u8 b -> frozen is_pm reg b = frozen is_pm reg (fresh_space is_pm !!! Z.to_nat reg) ->
  exists l', aset l reg b = Some l' /\ space_ok is_pm l'.
Proof.
  intros [Hlen Hl Hf] Hreg Hb Hfz. eexists. rewrite aset_Some by lia. split; [done|]. split.
  - by rewrite length_insert.
  - by apply Forall_insert.
  - intros r Hr. destruct (decide (r = reg)) as [->|Hne].
    + rewrite list_lookup_total_insert_eq by lia. done.
    + rewrite list_lookup_total_insert_ne by lia. by apply Hf.
Qed.

Lemma pci_write_ok is_pm n : forall l reg value,
  space_ok is_pm l -> 0 <= reg -> reg + Z.of_nat n <= 256 -> exists l', pci_write is_pm l reg value n = Some l' /\ space_ok is_pm l'.
Proof.
  induction n as [|n IH]; intros l reg value Hl Hreg Hn; [by exists l|]. cbn [pci_write].
  assert (Forall is_u8 l /\ length l = 256%nat) as [Hl8 Hlen] by (by destruct Hl).
  destruct (byte_at l reg Hl8) as (b & Hb & Hb8); [lia|]. rewrite Hb. cbn [mbind option_bind].
  edestruct (space_set is_pm l reg) as (l' & -> & Hl'); [done|lia| | |].
  - apply merge_u8; [done|apply u8_range|]. unfold pci_mask. by repeat case_match.
  - rewrite frozen_merge. rewrite <- (so_frozen _ _ Hl) by lia. f_equal.
    apply aget_Some in Hb as [_ Hb]. symmetry. by apply list_lookup_total_correct.
  - cbn [mbind option_bind]. apply IH; [done|lia..].
Qed.

Lemma pci_data_ok s port width write value :
  config_ok s -> 0 < width -> 0xcfc <= port -> port - 0xcfc + width <= 4 -> serves (pci_data s port width write value).
Proof.
  intros Hs Hw Hp Hpw. unfold pci_data. set (off := Z.land (pci_address (c_pci s)) 0xfc + port - 0xcfc).
  assert (0 <= off /\ off + width <= 256) as Ha by (pose proof (land_le_r (pci_address (c_pci s)) 0xfc); unfold off; lia).
  assert (forall f, space_ok f (pci_space f (c_pci s))) as Hsp by (by intros []; [apply (co_pm_space s)|apply (co_host s)]).
  destruct write.
  - destruct (pci_function s) as [f|]; [|by apply serves_some].
    destruct (pci_write_ok f (Z.to_nat width) (pci_space f (c_pci s)) off value) as (l & -> & Hl); [done|lia..|].
    cbn [mbind option_bind]. apply serves_some. destruct Hs. by destruct f; apply set_pci_ok.
  - assert (config_ok (set_pci (mk_pci (pci_address (c_pci s)) (host (c_pci s)) (pm (c_pci s)) (u32 (pci_reads (c_pci s) + 1))) s)).
    { apply set_pci_ok; [done|split; [apply (co_address s Hs)|apply u32_range]|by destruct Hs..]. }
    destruct (pci_function s) as [f|]; [|by apply serves_some].
    destruct (load_ok (pci_space f (c_pci s)) (Z.to_nat width)) with (i := off) as (v & -> & _);
      [apply Hsp|lia|rewrite (so_length _ _ (Hsp f)); lia|by apply serves_some].
Qed.

(** *** Power management *)

Lemma pm_latch_ok p t : pm_ok p -> pm_latch p t = 0 \/ pm_latch p t = 1.
Proof. intros Hp. unfold pm_latch. case_match; [apply Hp|]. right. by destruct (po_status p Hp) as [-> | ->]. Qed.

Lemma pm_store_ok p status control t timer :
  pm_ok p -> is_u64 t -> status = 0 \/ status = 1 -> 0 <= control /\ Z.ldiff control 0x1c03 = 0 -> pm_ok (pm_store status control t timer p).
Proof. intros [] Ht Hs Hc. split; cbn; try done. destruct timer; [apply u32_range|done]. Qed.

Lemma pm_io_ok p off width write value t v q :
  pm_ok p -> 0 <= off -> is_u32 value -> is_u64 t -> pm_io p off width write value t = Some (v, q) -> is_u32 v /\ pm_ok q.
Proof.
  intros Hp Hoff Hv Ht. unfold pm_io. case_match; [done|]. set (timer := _ && negb write).
  set (mask := if width =? 1 then _ else _). set (sh := Z.land off 1 * 8).
  assert (0 <= mask < 2 ^ 32) as Hm by (unfold mask; by case_match).
  assert (0 <= Z.land off 1 <= 1) as Hl by (by apply land_le_r).
  assert (0 <= Z.land value mask) as Hlm by (apply land_le_r; lia).
  assert (forall x, is_u32 (Z.land x mask)) as Hread.
  { intros x. pose proof (land_le_r x mask). unfold is_u32. lia. }
  pose proof (pm_latch_ok p t Hp) as Hs. pose proof (po_control p Hp) as Hc.
  assert (forall x s' c', is_u32 x -> s' = 0 \/ s' = 1 -> 0 <= c' /\ Z.ldiff c' 0x1c03 = 0 ->
    Some (x, pm_store s' c' t timer p) = Some (v, q) -> is_u32 v /\ pm_ok q) as Hdone.
  { intros x s' c' Hx Hs' Hc' [= <- <-]. split; [done|]. by apply pm_store_ok. }
  destruct timer; [apply Hdone; [|done..]; pose proof (land_le_r (u32 t) 0xffffff); unfold is_u32; lia|].
  assert (0 <= Z.shiftl (Z.land value mask) sh) as Hd by (apply Z.shiftl_nonneg; lia).
  destruct (Z.ldiff off 1 =? 0); [destruct write; apply Hdone; try done|].
  { pose proof (ldiff_le (Z.shiftl (Z.land value mask) sh) (pm_latch p t)). lia. }
  destruct (Z.ldiff off 1 =? 2); [destruct write; [case_match; [|done]|]; by apply Hdone|].
  destruct write; [|by apply Hdone]. case_match eqn:Hn; [|done]. apply Hdone; [done..|]. apply Z.eqb_eq in Hn. split; [|done].
  apply Z.lor_nonneg. split; [|done]. apply Z.ldiff_nonneg. left. apply Hc.
Qed.

(** *** The firmware configuration device *)

Definition item_ok (x : option (list Z) * Z) : Prop :=
  0 <= snd x < 2 ^ 32 /\ match fst x with Some l => Forall is_u8 l /\ snd x <= Z.of_nat (length l) | None => True end.

Lemma source_item p size : source_ok p size -> size < 2 ^ 32 -> item_ok (p, size).
Proof. intros [H0 Hp] Hs. split; [done|]. cbn. by case_match. Qed.

Lemma fw_item_ok s : config_ok s -> item_ok (fw_item s).
Proof.
  intros Hs. destruct (co_boot s Hs) as [[Hk Hk'] [Hi Hi'] [Hc Hc']].
  unfold AOS_X86_BOOT_BLOB_LIMIT, AOS_X86_BOOT_CMDLINE_LIMIT in *. unfold fw_item.
  do 3 (case_match; [split; [cbn [snd]; destruct Hk, Hi, Hc; lia|done]|]). do 3 (case_match; [apply source_item; [done|lia]|]).
  destruct (c_acpi s) as [a|] eqn:Ha; cbn [from_option]; [|by repeat case_match].
  destruct (co_acpi s Hs a Ha) as [Hb [Ht Ht'] Hr Hl _]. unfold is_u32 in Ht'.
  repeat case_match; try done; (split; [cbn [snd]; unfold AOS_X86_ACPI_LOADER_BYTES; lia|]); (split; [apply Hb|cbn [snd]; lia]).
Qed.

Lemma byte_of_u8 v k : is_u8 (byte_of v k).
Proof. apply u8_range. Qed.

Lemma file_names_ok k : 0 <= k < 4 -> exists n, aget file_names k = Some n /\ Forall is_u8 n /\ length n = 56%nat.
Proof.
  intros Hk. assert (Forall (fun n => Forall is_u8 n /\ length n = 56%nat) file_names) as Hall.
  { by apply (bool_decide_unpack _); vm_compute. }
  destruct (aget_lt file_names k) as [n Hn]; [by cbn; lia|]. exists n. split; [done|].
  apply aget_Some in Hn as [_ Hn]. by eapply Forall_lookup_1 in Hall.
Qed.

Lemma fw_directory_ok s off : 0 <= off -> exists v, fw_directory s off = Some v /\ is_u8 v.
Proof.
  intros Hoff. unfold fw_directory. destruct (Z.ltb_spec off 4).
  { eexists. split; [done|]. by repeat case_match. }
  destruct (Z.leb_spec (if c_acpi s is Some _ then 4 else 1) ((off - 4) / 64)) as [|Hc]; [by eexists|].
  assert (0 <= (off - 4) / 64 < 4) as He by (split; [apply Z.div_pos; lia|destruct (c_acpi s); lia]).
  pose proof (Z.mod_pos_bound (off - 4) 64 ltac:(lia)) as Hm. destruct (_ <? 4).
  { destruct (aget_lt (file_sizes s) ((off - 4) / 64)) as [z ->]; [by cbn; lia|]. eexists. split; [done|]. apply byte_of_u8. }
  destruct (_ =? 5); [eexists; split; [done|apply u8_range]|].
  destruct (Z.leb_spec 8 ((off - 4) mod 64)); [|by eexists].
  destruct (file_names_ok ((off - 4) / 64) He) as (n & -> & Hn & Hl). cbn [mbind option_bind]. apply byte_at; [done|lia].
Qed.

Lemma fw_e820_ok s off : 0 <= off < 80 -> exists v, fw_e820 s off = Some v /\ is_u8 v.
Proof.
  intros Hoff. unfold fw_e820. assert (0 <= off / 20 < 4) as Hr by (split; [apply Z.div_pos; lia|apply Z.div_lt_upper_bound; lia]).
  destruct (_ <? 8); [|destruct (_ <? 16)].
  - destruct (aget_lt e820_starts (off / 20)) as [z ->]; [by cbn; lia|]. eexists. split; [done|]. apply byte_of_u8.
  - destruct (aget_lt (e820_sizes s) (off / 20)) as [z ->]; [by cbn; lia|]. eexists. split; [done|]. apply byte_of_u8.
  - eexists. split; [done|]. by repeat case_match.
Qed.

Lemma fw_byte_ok s off : config_ok s -> 0 <= off -> exists v, fw_byte s off = Some v /\ is_u8 v.
Proof.
  intros Hs Hoff. unfold fw_byte. destruct (fw_item s) as [p size] eqn:Hi.
  pose proof (fw_item_ok s Hs) as [Hsz Hp]. rewrite Hi in Hsz, Hp. cbn [fst snd] in *. destruct p as [l|].
  - destruct (Z.ltb_spec off size); [|by eexists]. apply byte_at; [apply Hp|lia].
  - assert (forall v, exists b, Some (if off <? 4 then byte_of v off else 0) = Some b /\ is_u8 b) as Hsize.
    { intros v. eexists. split; [done|]. case_match; [apply byte_of_u8|done]. }
    destruct (negb (size =? 0)); [apply Hsize|].
    destruct (fw_selector (c_fw s) =? 0).
    { destruct (Z.ltb_spec off 4); [|by eexists]. apply byte_at; [by apply (bool_decide_unpack _); vm_compute|cbn; lia]. }
    destruct (fw_selector (c_fw s) =? 1); [eexists; split; [done|]; by destruct (off =? 0)|].
    destruct (fw_selector (c_fw s) =? 3); [apply Hsize|].
    destruct ((fw_selector (c_fw s) =? 5) || _).
    { eexists. split; [done|]. destruct (c_acpi s) as [a|] eqn:Ha; cbn [from_option]; [|by destruct (off =? 0)].
      destruct (off =? 0); [|done]. apply (ao_cpus a (co_acpi s Hs a Ha)). }
    destruct (fw_selector (c_fw s) =? 0x19); [by apply fw_directory_ok|].
    destruct (fw_selector (c_fw s) =? 0x20); [|by eexists].
    destruct (Z.ltb_spec off 80); [|by eexists]. apply fw_e820_ok. lia.
Qed.

Lemma blob_of_item s k p size : blob_of s = Some (k, p, size) -> 0 <= k < 3 /\ fw_item s = (p, size).
Proof.
  unfold blob_of, fw_item.
  destruct (Z.eqb_spec (fw_selector (c_fw s)) 0x11) as [->|]; [by intros [= <- <- <-]|].
  destruct (Z.eqb_spec (fw_selector (c_fw s)) 0x12) as [->|]; [by intros [= <- <- <-]|].
  destruct (Z.eqb_spec (fw_selector (c_fw s)) 0x15) as [->|]; [by intros [= <- <- <-]|done].
Qed.

Lemma boot_reads_at f k : fw_ok f -> 0 <= k < 3 ->
  exists v, aget (boot_reads f) k = Some v /\ is_u32 v /\
    forall x, is_u32 x -> aset (boot_reads f) k x = Some (<[Z.to_nat k := x]> (boot_reads f)) /\
      length (<[Z.to_nat k := x]> (boot_reads f)) = 3%nat /\ Forall is_u32 (<[Z.to_nat k := x]> (boot_reads f)).
Proof.
  intros Hf Hk. destruct (fo_boot f Hf) as [Hl Hu]. destruct (aget_lt (boot_reads f) k) as [v Hv]; [lia|].
  exists v. split; [done|]. split.
  - apply aget_Some in Hv as [_ Hv]. by eapply Forall_lookup_1.
  - intros x Hx. rewrite aset_Some, length_insert by lia. split; [done|]. split; [done|]. by apply Forall_insert.
Qed.

Lemma add_sat_ok v n : is_u32 v -> 0 <= n -> is_u32 (add_sat v n).
Proof. unfold add_sat, UINT32_MAX, is_u32. lia. Qed.

(** The bytes of a blob count, one at a time or by the transfer. *)
Lemma dma_boot_reads_ok s n : fw_ok (c_fw s) -> 0 <= n ->
  exists b, dma_boot_reads s n = Some b /\ length b = 3%nat /\ Forall is_u32 b.
Proof.
  intros Hf Hn. unfold dma_boot_reads. destruct (blob_of s) as [[[k p] size]|] eqn:Hb; [|eexists; split; [done|apply Hf]].
  destruct (Z.ltb_spec (fw_offset (c_fw s)) size); [|eexists; split; [done|apply Hf]].
  apply blob_of_item in Hb as [Hk _]. destruct (boot_reads_at _ k Hf Hk) as (v & -> & Hv & Hset). cbn [mbind option_bind].
  destruct (Hset (add_sat v (Z.min (size - fw_offset (c_fw s)) n))) as [-> ?]; [apply add_sat_ok; [done|lia]|by eexists].
Qed.

Lemma fw_read_counts_dma s : fw_ok (c_fw s) -> fw_read_counts s = dma_boot_reads s 1.
Proof.
  intros Hf. unfold fw_read_counts, dma_boot_reads. destruct (blob_of s) as [[[k p] size]|] eqn:Hb; [|done].
  destruct (Z.ltb_spec (fw_offset (c_fw s)) size); [|done]. apply blob_of_item in Hb as [Hk _].
  destruct (boot_reads_at _ k Hf Hk) as (v & Hv & Hv' & Hset). rewrite Hv. cbn [mbind option_bind].
  unfold add_sat. rewrite (Z.min_r (size - _)) by lia. destruct (Z.ltb_spec v UINT32_MAX); [by rewrite Z.min_l by lia|].
  unfold is_u32, UINT32_MAX in *. replace (v + _) with v by lia. destruct (Hset v Hv') as [-> _].
  apply aget_Some in Hv as [_ Hv]. by rewrite list_insert_id.
Qed.

Lemma set_counts_ok f o r b : fw_ok f -> is_u32 o -> is_u32 r -> length b = 3%nat /\ Forall is_u32 b -> fw_ok (set_counts o r b f).
Proof. intros []. by split. Qed.

Lemma set_selector_ok f v : fw_ok f -> is_u16 v -> fw_ok (set_selector v f).
Proof. intros []. by split. Qed.

Lemma fw_read_ok s : config_ok s -> serves (fw_read s).
Proof.
  intros Hs. pose proof (co_fw s Hs) as Hf. pose proof (fo_offset _ Hf) as Ho. pose proof (fo_reads _ Hf) as Hr. unfold fw_read.
  destruct (fw_byte_ok s (fw_offset (c_fw s)) Hs) as (v & -> & Hv); [apply Ho|]. cbn [mbind option_bind].
  rewrite fw_read_counts_dma by done. destruct (dma_boot_reads_ok s 1 Hf) as (b & -> & Hb); [done|]. cbn [mbind option_bind].
  apply serves_some. apply set_fw_ok; [done|]. unfold is_u32, UINT32_MAX in *.
  apply set_counts_ok; [done|..|done]; unfold is_u32; case_match; lia.
Qed.

Lemma cmos_data_ok s write value t : config_ok s -> is_u64 t -> serves (cmos_data s write value t).
Proof.
  intros Hs Ht. pose proof (co_legacy s Hs) as Hl. unfold cmos_data.
  destruct (_ =? 0x0f).
  { destruct write; [|by apply serves_some]. case_match eqn:He; [apply serves_refused|]. apply serves_some. apply set_legacy_ok; [done|].
    destruct Hl. split; cbn; try done. destruct (Z.eqb_spec (u8 value) 0); [by left|]. destruct (Z.eqb_spec (u8 value) 0x0a); [by right|done]. }
  destruct (_ || _).
  { destruct (rtc_io_ok (c_rtc s) (cmos_index (c_legacy s)) write value t (co_rtc s Hs) Ht) as (x & -> & Hx). cbn [mbind option_bind].
    destruct x as [[v r]|]; [|apply serves_refused]. apply serves_some, set_rtc_ok; [done|]. by eapply Hx. }
  destruct write; [apply serves_refused|]. repeat case_match; by apply serves_some || apply serves_refused.
Qed.

Lemma pm_decodes_ok s port : config_ok s ->
  exists d, pm_decodes s port = Some d /\ forall off, d = Some off -> exists base, base mod 64 = 0 /\ off = port - base /\ 0 <= off < 12.
Proof.
  intros Hs. unfold pm_decodes. destruct (co_pm_space s Hs) as [Hlen Hl _].
  destruct (load_ok (pm (c_pci s)) 2 Hl 0x40) as (v & -> & Hv); [lia..|]. cbn [mbind option_bind].
  destruct (byte_at (pm (c_pci s)) 0x80 Hl) as (e & -> & _); [lia|]. cbn [mbind option_bind].
  eexists. split; [done|]. intros off. case_match eqn:Hd; [|done]. intros [= <-]. exists (Z.land v 0xffc0).
  rewrite !andb_true_iff in Hd. split; [|split; [done|lia]].
  change 64 with (2 ^ 6). rewrite <- Z.land_ones, <- Z.land_assoc by lia. by rewrite Z.land_0_r.
Qed.

Lemma set_reset_ok l c b : legacy_ok l -> c = 0 \/ c = 2 -> legacy_ok (set_reset c b l).
Proof. intros []. by split. Qed.

Lemma land_two x : Z.land (u8 x) 2 = 0 \/ Z.land (u8 x) 2 = 2.
Proof.
  change 2 with (2 ^ 1). rewrite Z.land_comm. destruct (Z.testbit (u8 x) 1) eqn:E; [right|left]; apply Z.bits_inj_iff'; intros i Hi;
    rewrite Z.land_spec, ?Z.bits_0; destruct (decide (i = 1)) as [->|];
    rewrite ?Z.pow2_bits_true, ?Z.pow2_bits_false, ?E by lia; done.
Qed.

(** The next test of the chain of ports, its outcome kept where it holds. *)
Ltac next_port_as H :=
  match goal with |- serves (if ?b then _ else _) => destruct b eqn:H; [|clear H] end.
Ltac next_port_any := let H := fresh "Hport" in next_port_as H; [clear H|].
Tactic Notation "next_port" := next_port_any.
Tactic Notation "next_port" ident(H) := next_port_as H.

Lemma config_io_ok s port width write value t :
  config_ok s -> is_u32 value -> is_u64 t -> serves (aos_x86_config_io s port width write value t).
Proof.
  intros Hs Hv Ht. pose proof (co_legacy s Hs) as Hl. unfold aos_x86_config_io.
  destruct (negb (width =? 1) && _ && _) eqn:Hw; [apply serves_refused|].
  assert (0 < width) as Hw0 by (destruct (Z.eqb_spec width 1), (Z.eqb_spec width 2), (Z.eqb_spec width 4); try done; lia).
  clear Hw.
  next_port; [destruct write; apply serves_some; [|done]; apply set_legacy_ok, set_reset_ok, land_two; done|].
  next_port; [by apply serves_some|]. next_port; [by apply serves_some|].
  next_port; [apply serves_some; destruct (_ && _); [|done]; apply set_legacy_ok, set_reset_ok; [done|done|apply Hl]|].
  next_port; [by apply serves_some|].
  next_port; [apply serves_some, set_legacy_ok; [done|]; by destruct Hl; split|].
  next_port Hc; [apply serves_some, set_legacy_ok; [done|]; destruct Hl; split; cbn; try done; lia|].
  next_port; [destruct write; apply serves_some; [|done]; apply set_legacy_ok; [done|]; by destruct Hl; split|].
  next_port Hc.
  { apply serves_some, set_legacy_ok; [done|]. destruct Hl. split; cbn; try done.
    change 0xff with (Z.ones 8) in Hc. rewrite Z.land_ones in Hc by done. unfold u8. lia. }
  next_port; [by apply serves_some|]. next_port; [by apply serves_some|].
  next_port; [destruct write; [next_port|]; by apply serves_some || apply serves_refused|].
  next_port; [by apply serves_some|]. next_port; [by apply serves_some|].
  next_port.
  { destruct write; apply serves_some; [|done]. apply set_pci_ok; [done|..]; try apply Hs. split; [|apply (co_address s Hs)].
    pose proof (land_le_r value 0x80fffffc). unfold is_u32. cbn. lia. }
  next_port Hc; [apply pci_data_ok; [done|lia..]|].
  destruct (pm_decodes_ok s port Hs) as (d & -> & Hd). cbn [mbind option_bind]. destruct d as [off|].
  { destruct (Hd off eq_refl) as (_ & _ & _ & Hoff). destruct (pm_io _ _ _ _ _ _) as [[v q]|] eqn:Hp; [|apply serves_refused].
    apply serves_some, set_pm_ok; [done|]. eapply pm_io_ok in Hp as [_ Hp]; [done|apply Hs|lia|done..]. }
  next_port; [apply serves_some, set_fw_ok, set_selector_ok; [done|apply Hs|apply u16_range]|].
  next_port; [by apply fw_read_ok|].
  next_port; [destruct write; apply serves_some; [|done]; apply set_legacy_ok; [done|]; destruct Hl; split; cbn; try done|].
  { pose proof (land_le_r (u8 value) 0x7f). lia. }
  next_port; [by apply cmos_data_ok|apply serves_refused].
Qed.

(** *** Transfers *)

Lemma fw_bytes_ok s n : config_ok s -> forall off, 0 <= off -> exists l, fw_bytes s off n = Some l /\ Forall is_u8 l /\ length l = n.
Proof.
  intros Hs. induction n as [|n IH]; intros off Hoff; [by exists []|]. cbn [fw_bytes].
  destruct (fw_byte_ok s off Hs Hoff) as (b & -> & Hb). cbn [mbind option_bind].
  destruct (IH (u32 (off + 1))) as (l & -> & Hl & Hlen); [apply u32_range|]. cbn [mbind option_bind].
  eexists. split; [done|]. split; [by constructor|]. by rewrite <- Hlen.
Qed.

(** The bytes of a source from an offset, padded with zeros. *)
Definition padded (data : list Z) (size off n : Z) : list Z :=
  let available := Z.min (Z.max 0 (size - off)) n in
  aslice data off available ++ replicate (Z.to_nat (n - available)) 0.

Lemma fw_byte_source s data size off : fw_item s = (Some data, size) -> fw_byte s off = if off <? size then aget data off else Some 0.
Proof. intros Hi. unfold fw_byte. by rewrite Hi. Qed.

Lemma padded_cons data size off n b : 0 <= off -> 0 <= n -> size <= Z.of_nat (length data) ->
  (if off <? size then aget data off else Some 0) = Some b -> padded data size off (n + 1) = b :: padded data size (off + 1) n.
Proof.
  intros Ho Hn Hs. unfold padded. destruct (Z.ltb_spec off size).
  - intros Hb. replace (Z.min (Z.max 0 (size - off)) (n + 1)) with (Z.min (Z.max 0 (size - (off + 1))) n + 1) by lia.
    rewrite (aslice_cons _ _ _ b) by (done || lia). cbn. do 3 f_equal. lia.
  - intros [= <-]. rewrite !(Z.max_l 0), !Z.min_l, !Z.sub_0_r by lia. replace (Z.to_nat (n + 1)) with (S (Z.to_nat n)) by lia. done.
Qed.

Lemma fw_bytes_source s data size n : fw_item s = (Some data, size) -> size <= Z.of_nat (length data) ->
  forall off, 0 <= off -> off + Z.of_nat n < 2 ^ 32 -> fw_bytes s off n = Some (padded data size off (Z.of_nat n)).
Proof.
  intros Hi Hs. induction n as [|n IH]; intros off Ho Hn.
  { unfold padded. rewrite Z.min_r by lia. done. }
  cbn [fw_bytes]. rewrite (fw_byte_source _ _ _ _ Hi). rewrite u32_small by (unfold is_u32; lia). rewrite IH by lia.
  assert (exists b, (if off <? size then aget data off else Some 0) = Some b) as [b Hb].
  { destruct (Z.ltb_spec off size); [apply aget_lt; lia|by eexists]. }
  rewrite Hb. cbn [mbind option_bind]. f_equal. replace (Z.of_nat (S n)) with (Z.of_nat n + 1) by lia. symmetry. apply padded_cons; [lia..|done].
Qed.

(** The copy of a slice is the item byte by byte. *)
Lemma dma_bytes_fw s n : config_ok s -> 0 < n -> fw_offset (c_fw s) + n < 2 ^ 32 ->
  dma_bytes s n = fw_bytes s (fw_offset (c_fw s)) (Z.to_nat n).
Proof.
  intros Hs Hn Ho. unfold dma_bytes. destruct (blob_of s) as [[[k [data|]] size]|] eqn:Hb; [|done..].
  apply blob_of_item in Hb as [_ Hb]. pose proof (fw_item_ok s Hs) as Hi. rewrite Hb in Hi. destruct Hi as [Hsz [_ Hl]]. cbn [fst snd] in *.
  pose proof (fo_offset _ (co_fw s Hs)) as [Ho0 _].
  rewrite (fw_bytes_source s data size (Z.to_nat n) Hb Hl) by lia. rewrite Z2Nat.id by lia. unfold padded, slice.
  replace (if _ <? size then _ else 0) with (Z.max 0 (size - fw_offset (c_fw s))) by (case_match eqn:E; lia).
  set (a := Z.min _ n). destruct (Z.eqb_spec a 0) as [->|Ha]; [done|].
  replace (0 <=? _) with true by lia. replace (_ <=? Z.of_nat _) with true by lia. done.
Qed.

(** The state that a transfer starts from. *)
Definition dma_start (s : config) (control : Z) : config :=
  if flag control DMA_SELECT then set_fw (set_selector (Z.shiftr control 16) (c_fw s)) s else s.

Lemma dma_start_ok s control : config_ok s -> is_u32 control -> config_ok (dma_start s control).
Proof.
  intros Hs Hc. unfold dma_start. case_match; [|done]. apply set_fw_ok, set_selector_ok; [done|apply Hs|].
  unfold is_u16. rewrite Z.shiftr_div_pow2 by lia. unfold is_u32 in Hc. split; [apply Z.div_pos; lia|apply Z.div_lt_upper_bound; lia].
Qed.

(** An accepted read: its bytes, and the counters it leaves. *)
Lemma dma_read_run s control dest n : config_ok s -> is_u32 control -> 0 <= n -> flag control DMA_READ = true ->
  let next := dma_start s control in
  aos_x86_config_dma s control dest n = Some None \/
  exists l b, 0 < n /\ fw_offset (c_fw next) + n < 2 ^ 32 /\ fw_bytes next (fw_offset (c_fw next)) (Z.to_nat n) = Some l /\
    dma_boot_reads next n = Some b /\
    aos_x86_config_dma s control dest n =
      Some (Some (l, set_fw (set_counts (fw_offset (c_fw next) + n) (add_sat (fw_reads (c_fw next)) n) b (c_fw next)) next)).
Proof.
  intros Hs Hc Hn Hr next. unfold aos_x86_config_dma. rewrite Hr. pose proof (dma_start_ok s control Hs Hc) as Hnext.
  destruct (_ || (_ && _)) eqn:Hg; [by left|]. fold (dma_start s control). fold next. fold next in Hnext.
  destruct (_ || flag control DMA_WRITE) eqn:Hw; [by left|]. right.
  destruct (Z.eqb_spec n 0) as [->|Hn0]; [done|]. apply orb_false_iff in Hw as [Hw _]. apply Z.ltb_ge in Hw. unfold UINT32_MAX in Hw.
  assert (fw_offset (c_fw next) + n < 2 ^ 32) as Ho by lia.
  destruct (fw_bytes_ok next (Z.to_nat n) Hnext (fw_offset (c_fw next))) as (l & Hl & _); [apply (fo_offset _ (co_fw _ Hnext))|].
  destruct (dma_boot_reads_ok next n) as (b & Hb & _); [apply Hnext|done|].
  exists l, b. split_and!; [lia|done..|]. rewrite dma_bytes_fw by (done || lia). by rewrite Hl, Hb.
Qed.

Lemma dma_ok s control dest n : config_ok s -> is_u32 control -> 0 <= n -> serves (aos_x86_config_dma s control dest n).
Proof.
  intros Hs Hc Hn. pose proof (dma_start_ok s control Hs Hc) as Hnext. pose proof (co_fw _ Hnext) as Hf.
  destruct (flag control DMA_READ) eqn:Hr.
  - destruct (dma_read_run s control dest n Hs Hc Hn Hr) as [-> | (l & b & Hn0 & Ho & _ & Hb & ->)]; [apply serves_refused|].
    apply serves_some, set_fw_ok; [done|]. apply set_counts_ok; [done|..].
    + pose proof (fo_offset _ Hf). unfold is_u32 in *. lia.
    + apply add_sat_ok; [apply Hf|lia].
    + destruct (dma_boot_reads_ok _ n Hf Hn) as (b' & Hb' & ?). by simplify_eq.
  - unfold aos_x86_config_dma. rewrite Hr. next_port; [apply serves_refused|]. fold (dma_start s control).
    destruct (_ || flag control DMA_WRITE) eqn:Hw; [apply serves_refused|]. apply orb_false_iff in Hw as [Hw _].
    apply Z.ltb_ge in Hw. unfold UINT32_MAX in Hw. apply serves_some, set_fw_ok, set_counts_ok; [done|done| |apply Hf..].
    pose proof (fo_offset _ Hf). unfold is_u32 in *. lia.
Qed.

(** *** Binding and initialisation *)

(** What the caller vouches for in a set of sources. *)
Definition blobs_valid (b : boot_blobs) : Prop :=
  forall p size, In (p, size) [(b_kernel b, b_kernel_size b); (b_initrd b, b_initrd_size b); (b_cmdline b, b_cmdline_size b)] ->
    0 <= size /\ forall l, p = Some l -> Forall is_u8 l /\ size <= Z.of_nat (length l).

Definition binds (x : option (option config)) : Prop := exists y, x = Some y /\ forall s, y = Some s -> config_ok s.

Lemma presence_ok p size : same_presence p size = true -> p = None -> size = 0.
Proof. intros H ->. unfold same_presence in H. by destruct (Z.eqb_spec size 0). Qed.

Lemma boot_ok s b : config_ok s -> blobs_valid b -> binds (aos_x86_config_boot s b).
Proof.
  intros Hs Hb. unfold aos_x86_config_boot. case_match eqn:Hg; [by exists None|]. rewrite !orb_false_iff, !negb_false_iff in Hg.
  destruct Hg as [[[[[[[[[_ _] _] Hk] Hk0] Hkl] Hil] Hcl] Hip] Hcp]. apply bool_decide_eq_true in Hk as [k Hk].
  destruct (Hb (b_kernel b) (b_kernel_size b)) as [Hk1 Hk2]; [by cbn; auto|].
  destruct (Hb (b_initrd b) (b_initrd_size b)) as [Hi1 Hi2]; [by cbn; auto|].
  destruct (Hb (b_cmdline b) (b_cmdline_size b)) as [Hc1 Hc2]; [by cbn; auto|].
  assert (exists ok, cmdline_ok b = Some ok) as [ok ->].
  { unfold cmdline_ok. destruct (Z.eqb_spec (b_cmdline_size b) 0); [by eexists|].
    destruct (b_cmdline b) as [l|] eqn:Hl; [|by rewrite (presence_ok _ _ Hcp eq_refl) in *].
    destruct (Hc2 l eq_refl). destruct (aget_lt l (b_cmdline_size b - 1)) as [e ->]; [lia|]. by eexists. }
  cbn [mbind option_bind]. eexists. split; [done|]. destruct ok; [|done]. intros s' [= <-]. destruct Hs.
  split; try done. cbn [c_boot set_boot]. split; (split; [split; [done|]|lia]).
  - rewrite Hk. by apply Hk2.
  - destruct (b_initrd b); [by apply Hi2|by eapply presence_ok].
  - destruct (b_cmdline b); [by apply Hc2|by eapply presence_ok].
Qed.

Lemma acpi_bind_ok devices s a : config_ok s -> acpi_ok a -> binds (aos_x86_config_acpi devices s a).
Proof.
  intros Hs Ha. unfold aos_x86_config_acpi. case_match; [by exists None|]. cbn [put]. pose proof (co_pm_space s Hs) as Hp.
  destruct (space_set true (pm (c_pci s)) 0x40 (u8 0xb001) Hp) as (p1 & -> & Hp1); [done..|]. cbn [mbind option_bind].
  destruct (space_set true p1 (0x40 + 1) (u8 (Z.shiftr 0xb001 8)) Hp1) as (p2 & -> & Hp2); [done..|]. cbn [mbind option_bind].
  destruct (space_set true p2 0x80 1 Hp2) as (p3 & -> & Hp3); [done..|]. cbn [mbind option_bind].
  eexists. split; [done|]. intros s' [= <-]. destruct Hs. split; try done.
  - cbn. by destruct co_pm0.
  - cbn. by intros a' [= <-].
Qed.

Lemma fresh_space_ok is_pm : space_ok is_pm (fresh_space is_pm).
Proof. split; [by destruct is_pm|by destruct is_pm; apply (bool_decide_unpack _); vm_compute|done]. Qed.

Lemma init_ok ram s :
  aos_x86_config_init ram = Some (Some s) -> config_ok s /\ forall is_pm, pci_space is_pm (c_pci s) = fresh_space is_pm.
Proof.
  unfold aos_x86_config_init. case_match eqn:Hg; [done|]. rewrite !orb_false_iff in Hg.
  destruct (aos_x86_rtc_init AOS_X86_RTC_BOOT_EPOCH 0) as [r|] eqn:Hr; [|done]. apply rtc_init_ok in Hr; [|done..].
  intros [= <-]. split; [|by intros []]. split; cbn [c_pci c_fw c_pm c_legacy c_rtc c_boot c_acpi ram_bytes pci_address pci_reads host pm]; try done.
  - lia.
  - apply (fresh_space_ok false).
  - apply (fresh_space_ok true).
  - split; try done. by split; [|repeat constructor].
  - split; try done. by left.
  - split; try done; by left.
Qed.

(** ** Runs of a guest *)

(** What the guest and its monitor do to the devices. *)
Inductive config_op :=
  | Port (port width : Z) (write : bool) (value ticks : Z)
  | Dma (control : Z) (destination : bool) (length : Z)
  | Boot (b : boot_blobs)
  | Acpi (devices : Z) (a : acpi_bundle).

Definition op_valid (o : config_op) : Prop :=
  match o with
  | Port _ _ _ value ticks => is_u32 value /\ is_u64 ticks
  | Dma control _ length => is_u32 control /\ is_u32 length
  | Boot b => blobs_valid b
  | Acpi _ a => acpi_ok a
  end.

(** A refused operation leaves the state. *)
Definition config_step (s : config) (o : config_op) : option config :=
  match o with
  | Port port width write value ticks => y ← aos_x86_config_io s port width write value ticks; Some (from_option snd s y)
  | Dma control destination length => y ← aos_x86_config_dma s control destination length; Some (from_option snd s y)
  | Boot b => y ← aos_x86_config_boot s b; Some (default s y)
  | Acpi devices a => y ← aos_x86_config_acpi devices s a; Some (default s y)
  end.
Fixpoint config_run (s : config) (os : list config_op) : option config :=
  match os with
  | [] => Some s
  | o :: os => s ← config_step s o; config_run s os
  end.

Lemma serves_step {A} s (x : option (option (A * config))) :
  config_ok s -> serves x -> exists s', (y ← x; Some (from_option snd s y)) = Some s' /\ config_ok s'.
Proof. intros Hs (y & -> & Hy). cbn. eexists. split; [done|]. destruct y as [[v s']|]; [by eapply Hy|done]. Qed.

Lemma binds_step s x : config_ok s -> binds x -> exists s', (y ← x; Some (default s y)) = Some s' /\ config_ok s'.
Proof. intros Hs (y & -> & Hy). cbn. eexists. split; [done|]. destruct y as [s'|]; [by eapply Hy|done]. Qed.

Lemma config_step_ok s o : config_ok s -> op_valid o -> exists s', config_step s o = Some s' /\ config_ok s'.
Proof.
  intros Hs. destruct o as [p w wr v t|c d n|b|k a]; cbn [op_valid config_step].
  - intros [Hv Ht]. by apply serves_step, config_io_ok.
  - intros [Hc Hn]. apply serves_step, dma_ok; try done. apply Hn.
  - intros Hb. by apply binds_step, boot_ok.
  - intros Ha. by apply binds_step, acpi_bind_ok.
Qed.

Lemma config_run_ok os : forall s, config_ok s -> Forall op_valid os -> exists s', config_run s os = Some s' /\ config_ok s'.
Proof.
  induction os as [|o os IH]; intros s Hs Hos; [by exists s|]. apply Forall_cons in Hos as [Ho Hos]. cbn [config_run].
  destruct (config_step_ok s o Hs Ho) as (s' & -> & Hs'). by apply IH.
Qed.

(** *** Byte reads *)

Definition pio_read (s : config) (ticks : Z) : option (option (Z * config)) := aos_x86_config_io s 0x511 1 false 0 ticks.

(** [n] byte reads in a row, each accepted. *)
Fixpoint pio_reads (s : config) (ticks : Z) (n : nat) : option (list Z * config) :=
  match n with
  | O => Some ([], s)
  | S n =>
      match pio_read s ticks with
      | Some (Some (b, s)) => '(l, s) ← pio_reads s ticks n; Some (b :: l, s)
      | _ => None
      end
  end.

(** The base of the power management block never covers the ports of the
    firmware configuration device. *)
Lemma fw_ports_free s port : config_ok s -> 0x50c <= port < 0x540 -> pm_decodes s port = Some None.
Proof.
  intros Hs Hp. destruct (pm_decodes_ok s port Hs) as (d & -> & Hd). destruct d as [off|]; [|done].
  destruct (Hd off eq_refl) as (base & Hb & -> & Ho). exfalso. apply Z.mod_divide in Hb as [k ->]; lia.
Qed.

Lemma pio_read_run s t : config_ok s -> pio_read s t = fw_read s.
Proof. intros Hs. unfold pio_read, aos_x86_config_io. cbn -[pm_decodes fw_read]. by rewrite fw_ports_free. Qed.

Lemma select_run s v t : config_ok s -> is_u16 v ->
  aos_x86_config_io s 0x510 2 true v t = Some (Some (v, set_fw (set_selector v (c_fw s)) s)).
Proof. intros Hs Hv. unfold aos_x86_config_io. cbn -[pm_decodes u16]. rewrite fw_ports_free by done. cbn -[u16]. by rewrite u16_small. Qed.

(** Counting leaves the items. *)
Lemma fw_bytes_counts s o r b n : forall off, fw_bytes (set_fw (set_counts o r b (c_fw s)) s) off n = fw_bytes s off n.
Proof. induction n as [|n IH]; intros off; [done|]. cbn [fw_bytes]. by rewrite IH. Qed.

Lemma add_sat_add v a b : is_u32 v -> 0 <= a -> 0 <= b -> add_sat (add_sat v a) b = add_sat v (a + b).
Proof. unfold add_sat, is_u32, UINT32_MAX. lia. Qed.

Lemma dma_boot_reads_0 s : fw_ok (c_fw s) -> dma_boot_reads s 0 = Some (boot_reads (c_fw s)).
Proof.
  intros Hf. unfold dma_boot_reads. destruct (blob_of s) as [[[k p] size]|] eqn:Hb; [|done].
  destruct (Z.ltb_spec (fw_offset (c_fw s)) size); [|done]. apply blob_of_item in Hb as [Hk _].
  destruct (boot_reads_at _ k Hf Hk) as (v & Hv & Hv' & Hset). rewrite Hv. cbn [mbind option_bind].
  replace (add_sat v _) with v by (unfold add_sat, is_u32, UINT32_MAX in *; lia). destruct (Hset v Hv') as [-> _].
  apply aget_Some in Hv as [_ Hv]. by rewrite list_insert_id.
Qed.

(** Counting one byte and then [n] is counting [n + 1]. *)
Lemma dma_boot_reads_step s n b1 r : fw_ok (c_fw s) -> 0 <= n -> dma_boot_reads s 1 = Some b1 ->
  dma_boot_reads (set_fw (set_counts (fw_offset (c_fw s) + 1) r b1 (c_fw s)) s) n = dma_boot_reads s (n + 1).
Proof.
  intros Hf Hn. unfold dma_boot_reads. change (blob_of (set_fw _ s)) with (blob_of s). cbn [c_fw set_fw fw_offset boot_reads set_counts].
  destruct (blob_of s) as [[[k p] size]|] eqn:Hb; [|by intros [= <-]]. apply blob_of_item in Hb as [Hk _].
  set (o := fw_offset (c_fw s)). destruct (boot_reads_at _ k Hf Hk) as (v & Hv & Hv' & Hset). rewrite Hv. cbn [mbind option_bind].
  destruct (fo_boot _ Hf) as [Hlen _]. destruct (Z.ltb_spec o size).
  2:{ intros [= <-]. by destruct (Z.ltb_spec (o + 1) size); [lia|]. }
  rewrite Z.min_r by lia. rewrite !aset_Some by lia. intros [= <-]. destruct (Z.ltb_spec (o + 1) size).
  - rewrite (aget_total _ k) by (rewrite length_insert; lia). rewrite list_lookup_total_insert_eq by lia. cbn [mbind option_bind].
    rewrite aset_Some by (rewrite length_insert; lia). rewrite list_insert_insert_eq, add_sat_add by (done || lia). do 3 f_equal. lia.
  - do 3 f_equal. lia.
Qed.

Lemma fw_state_eta f : set_counts (fw_offset f) (fw_reads f) (boot_reads f) f = f.
Proof. by destruct f. Qed.

Lemma set_fw_eta s : set_fw (c_fw s) s = s.
Proof. by destruct s. Qed.

Lemma fw_read_run s : config_ok s -> fw_offset (c_fw s) < UINT32_MAX ->
  exists v b, fw_byte s (fw_offset (c_fw s)) = Some v /\ dma_boot_reads s 1 = Some b /\
    fw_read s = Some (Some (v, set_fw (set_counts (fw_offset (c_fw s) + 1) (add_sat (fw_reads (c_fw s)) 1) b (c_fw s)) s)).
Proof.
  intros Hs Ho. pose proof (co_fw s Hs) as Hf. unfold fw_read.
  destruct (fw_byte_ok s (fw_offset (c_fw s)) Hs) as (v & -> & _); [apply Hf|].
  rewrite fw_read_counts_dma by done. destruct (dma_boot_reads_ok s 1 Hf) as (b & -> & _); [done|]. exists v, b.
  split; [done|]. split; [done|]. cbn [mbind option_bind]. destruct (Z.ltb_spec (fw_offset (c_fw s)) UINT32_MAX); [|lia].
  do 4 f_equal. f_equal. pose proof (fo_reads _ Hf). unfold add_sat, UINT32_MAX, is_u32 in *. case_match eqn:E; lia.
Qed.

Lemma pio_reads_run t n : forall s, config_ok s -> fw_offset (c_fw s) + Z.of_nat n < 2 ^ 32 ->
  exists l b, fw_bytes s (fw_offset (c_fw s)) n = Some l /\ dma_boot_reads s (Z.of_nat n) = Some b /\
    pio_reads s t n = Some (l, set_fw (set_counts (fw_offset (c_fw s) + Z.of_nat n) (add_sat (fw_reads (c_fw s)) (Z.of_nat n)) b (c_fw s)) s).
Proof.
  induction n as [|n IH]; intros s Hs Ho; pose proof (co_fw s Hs) as Hf; pose proof (fo_reads _ Hf) as Hr.
  { exists [], (boot_reads (c_fw s)). split; [done|]. split; [by apply dma_boot_reads_0|]. cbn [pio_reads].
    replace (add_sat _ _) with (fw_reads (c_fw s)) by (unfold add_sat, UINT32_MAX, is_u32 in *; lia).
    by rewrite Z.add_0_r, fw_state_eta, set_fw_eta. }
  cbn [pio_reads fw_bytes]. rewrite pio_read_run by done. pose proof (fw_read_ok s Hs) as (y & Hy & Hok).
  destruct (fw_read_run s Hs) as (v & b1 & -> & Hb1 & Hrun); [unfold UINT32_MAX; lia|]. rewrite Hrun in Hy. injection Hy as <-.
  specialize (Hok _ _ eq_refl). rewrite Hrun. edestruct (IH _ Hok) as (l & b & Hl & Hb & Hp); [cbn; lia|]. rewrite Hp.
  rewrite fw_bytes_counts in Hl. rewrite dma_boot_reads_step in Hb by (done || lia). cbn [c_fw set_fw fw_offset set_counts] in Hl.
  rewrite u32_small by (pose proof (fo_offset _ Hf); unfold is_u32 in *; lia). rewrite Hl. exists (v :: l), b. split; [done|].
  replace (Z.of_nat (S n)) with (Z.of_nat n + 1) by lia. split; [done|]. unfold set_fw, set_counts.
  cbn [mbind option_bind c_fw c_pci c_pm c_legacy c_rtc c_boot c_acpi ram_bytes fw_selector fw_offset fw_reads fw_dma_address].
  rewrite add_sat_add, (Z.add_comm 1), <- Z.add_assoc, (Z.add_comm 1) by (done || lia). done.
Qed.

(** *** Files *)

Definition le_bytes (n : Z) (v : Z) : list Z := byte_of v <$> seqZ 0 n.
Definition be_bytes (n : Z) (v : Z) : list Z := reverse (le_bytes n v).

(** The memory map of the guest: start, size and type of each row. *)
Definition memory_map (s : config) : list (Z * Z * Z) :=
  [(0, 0xa0000, 1); (0xa0000, 0x60000, 2); (0x100000, ram_bytes s - 0x100000, 1); (0xffc00000, 0x400000, 2)].
Definition map_row : Z * Z * Z -> list Z := fun '(start, size, type) => le_bytes 8 start ++ le_bytes 8 size ++ le_bytes 4 type.

(** The files that the device serves, the first at selector 0x20. *)
Definition files (s : config) : list (string * list Z) :=
  ("etc/e820"%string, concat (map_row <$> memory_map s)) ::
  match c_acpi s with
  | None => []
  | Some a => [("etc/acpi/tables"%string, take (Z.to_nat (ac_table_bytes a)) (ac_tables a)); ("etc/acpi/rsdp"%string, ac_rsdp a);
               ("etc/table-loader"%string, ac_loader a)]
  end.

(** The directory: the number of files and a row for each, big-endian. *)
Definition directory_row (k : nat) (name : string) (size : Z) : list Z :=
  be_bytes 4 size ++ be_bytes 2 (0x20 + Z.of_nat k) ++ [0; 0] ++ file_name name.
Definition directory (s : config) : list Z :=
  be_bytes 4 (Z.of_nat (length (files s))) ++
  concat (imap (fun k f => directory_row k (fst f) (Z.of_nat (length (snd f)))) (files s)).

Definition selected (s : config) (v : Z) : config := set_fw (set_selector v (c_fw s)) s.

Lemma mapM_seqZ (f : Z -> option Z) n : forall off, mapM f (seqZ off (Z.of_nat (S n))) = (b ← f off; l ← mapM f (seqZ (off + 1) (Z.of_nat n)); Some (b :: l)).
Proof. intros off. rewrite seqZ_cons by lia. replace (Z.pred _) with (Z.of_nat n) by lia. done. Qed.

Lemma fw_bytes_mapM s n : forall off, 0 <= off -> off + Z.of_nat n < 2 ^ 32 -> fw_bytes s off n = mapM (fw_byte s) (seqZ off (Z.of_nat n)).
Proof.
  induction n as [|n IH]; intros off Ho Hn; [done|]. rewrite mapM_seqZ. cbn [fw_bytes].
  rewrite u32_small by (unfold is_u32; lia). by rewrite IH by lia.
Qed.

Lemma directory_bytes s : config_ok s -> mapM (fw_directory s) (seqZ 0 (Z.of_nat (length (directory s)))) = Some (directory s).
Proof.
  intros Hs. unfold directory, files, fw_directory, file_sizes. destruct (c_acpi s) as [a|] eqn:Ha.
  - destruct (co_acpi s Hs a Ha) as [_ [Ht _] Hr Hl _]. cbn [length imap snd fst from_option compose].
    rewrite length_take_le by lia. rewrite Hr, Hl, Z2Nat.id by lia. generalize (ac_table_bytes a). intros z. vm_compute. reflexivity.
  - vm_compute. reflexivity.
Qed.

Lemma map_bytes s : config_ok s -> mapM (fw_e820 s) (seqZ 0 80) = Some (concat (map_row <$> memory_map s)).
Proof.
  intros Hs. pose proof (co_ram s Hs) as Hr. unfold fw_e820, e820_sizes, memory_map. rewrite u32_small by (unfold is_u32; lia).
  generalize (ram_bytes s - 0x100000). intros z. vm_compute. reflexivity.
Qed.

Lemma source_bytes s data size : fw_item s = (Some data, size) -> 0 <= size < 2 ^ 32 -> size <= Z.of_nat (length data) ->
  fw_bytes s 0 (Z.to_nat size) = Some (take (Z.to_nat size) data).
Proof.
  intros Hi Hs Hl. rewrite (fw_bytes_source s data size) by (done || lia). f_equal. unfold padded.
  rewrite Z2Nat.id, Z.sub_0_r, Z.max_r, Z.min_id, Z.sub_diag by lia. cbn. by rewrite app_nil_r.
Qed.

Lemma selected_ok s v : config_ok s -> is_u16 v -> config_ok (selected s v).
Proof. intros Hs Hv. apply set_fw_ok, set_selector_ok; [done|apply Hs|done]. Qed.

Lemma map_file s : config_ok s -> fw_bytes (selected s 0x20) 0 80 = Some (concat (map_row <$> memory_map s)).
Proof.
  intros Hs. rewrite fw_bytes_mapM by done. rewrite <- (map_bytes s Hs). apply Forall_mapM_ext, Forall_forall.
  intros i Hi%elem_of_seqZ. unfold fw_byte. cbn -[fw_e820]. destruct (Z.ltb_spec i 80); [done|lia].
Qed.

Lemma file_bytes s k name content : config_ok s -> files s !! k = Some (name, content) ->
  (k < 4)%nat /\ Z.of_nat (length content) < 2 ^ 32 /\ fw_bytes (selected s (0x20 + Z.of_nat k)) 0 (length content) = Some content.
Proof.
  intros Hs Hk. unfold files in Hk. remember (concat (map_row <$> memory_map s)) as c eqn:Hc.
  destruct k as [|k]; cbn [lookup list_lookup] in Hk.
  { injection Hk as <- <-. assert (length c = 80%nat) as Hlen by (by rewrite Hc). rewrite Hlen, Hc.
    split; [lia|]. split; [done|]. by apply map_file. }
  destruct (c_acpi s) as [a|] eqn:Ha; [|done]. destruct (co_acpi s Hs a Ha) as [_ [Ht Ht'] Hr Hl _].
  unfold AOS_X86_ACPI_LOADER_BYTES in Hl. clear Hc.
  destruct k as [|[|[|k]]]; cbn [lookup list_lookup] in Hk; [..|done]; injection Hk as <- <-; (split; [lia|]).
  - rewrite length_take_le by lia. unfold is_u32 in Ht'. split; [lia|]. apply source_bytes; [|lia..]. unfold fw_item. cbn. by rewrite Ha.
  - split; [lia|]. rewrite <- (firstn_all (ac_rsdp a)) at 2. rewrite Hr. apply (source_bytes _ _ 36); [|lia..]. unfold fw_item. cbn. by rewrite Ha.
  - split; [lia|]. rewrite <- (firstn_all (ac_loader a)) at 2. replace (length (ac_loader a)) with (Z.to_nat (19 * 128)) by lia.
    apply (source_bytes _ _ (19 * 128)); [|lia..]. unfold fw_item. cbn. by rewrite Ha.
Qed.

Lemma directory_file s : config_ok s -> Z.of_nat (length (directory s)) < 2 ^ 32 /\
  fw_bytes (selected s 0x19) 0 (length (directory s)) = Some (directory s).
Proof.
  intros Hs. assert (Z.of_nat (length (directory s)) < 2 ^ 32) as Hlen.
  { unfold directory, files. by destruct (c_acpi s). }
  split; [done|]. rewrite fw_bytes_mapM by done. rewrite <- (directory_bytes s Hs). apply mapM_ext. intros i.
  unfold fw_byte. by cbn -[fw_directory].
Qed.

(** *** The timer bit *)

Lemma latch_change last t : 0 <= last <= t ->
  (Z.shiftr t 23 <> Z.shiftr last 23 <-> exists u, last < u <= t /\ Z.testbit u 23 <> Z.testbit (u - 1) 23).
Proof.
  intros Ht. rewrite !Z.shiftr_div_pow2 by lia. pose proof (Z.div_le_mono last t (2 ^ 23) ltac:(lia) ltac:(lia)) as Hm. split.
  - intros Hne. exists (t / 2 ^ 23 * 2 ^ 23). pose proof (Z.mul_div_le t (2 ^ 23) ltac:(lia)).
    pose proof (Z.mul_succ_div_gt last (2 ^ 23) ltac:(lia)). split; [lia|]. rewrite !Z.testbit_odd, !Z.shiftr_div_pow2 by lia.
    rewrite Z.div_mul by lia. replace (t / 2 ^ 23 * 2 ^ 23 - 1) with (2 ^ 23 - 1 + (t / 2 ^ 23 - 1) * 2 ^ 23) by lia.
    rewrite Z.div_add, (Z.div_small (2 ^ 23 - 1)) by lia. rewrite Z.add_0_l, Z.odd_sub. by destruct (Z.odd _).
  - intros (u & Hu & Hne) Heq. apply Hne. rewrite !Z.testbit_odd, !Z.shiftr_div_pow2 by lia. f_equal.
    pose proof (Z.div_le_mono last (u - 1) (2 ^ 23) ltac:(lia) ltac:(lia)). pose proof (Z.div_le_mono (u - 1) u (2 ^ 23) ltac:(lia) ltac:(lia)).
    pose proof (Z.div_le_mono u t (2 ^ 23) ltac:(lia) ltac:(lia)). lia.
Qed.

(** ** Theorems *)

(** A configuration that starts from its initial state stays well formed
    under every sequence of port accesses, transfers and bindings, at any
    ports, widths and times, and no access leaves an array. In both PCI
    functions every bit outside the masks of the writable registers (the
    vendor, device and class codes with them) keeps its first value. *)
Theorem config_identity_frozen ram s os :
  aos_x86_config_init ram = Some (Some s) -> Forall op_valid os ->
  exists s', config_run s os = Some s' /\ config_ok s' /\
    forall is_pm reg, 0 <= reg < 256 ->
      Z.ldiff (pci_space is_pm (c_pci s') !!! Z.to_nat reg) (pci_mask is_pm reg) =
      Z.ldiff (pci_space is_pm (c_pci s) !!! Z.to_nat reg) (pci_mask is_pm reg).
Proof.
  intros Hinit Hos. apply init_ok in Hinit as [Hs Hfresh]. destruct (config_run_ok os s Hs Hos) as (s' & Hrun & Hs').
  exists s'. split; [done|]. split; [done|]. intros is_pm reg Hreg. rewrite Hfresh.
  destruct is_pm; [apply (so_frozen _ _ (co_pm_space s' Hs') reg Hreg)|apply (so_frozen _ _ (co_host s' Hs') reg Hreg)].
Qed.

(** C14. A transfer of [n] bytes is [n] byte reads: what an accepted DMA read
    stores and the state it leaves, the offset and the saturating counters
    included, are those of writing the selector to port 0x510 (when the
    command selects) and reading port 0x511 [n] times, each read accepted.
    The copied slice of a boot source, its zero padding and the byte loop
    over any other item thus serve the same bytes. *)
Theorem config_dma_is_pio s control n t l s' :
  config_ok s -> is_u32 control -> is_u32 n -> flag control DMA_READ = true ->
  aos_x86_config_dma s control true n = Some (Some (l, s')) ->
  exists s1,
    (if flag control DMA_SELECT
     then aos_x86_config_io s 0x510 2 true (Z.shiftr control 16) t = Some (Some (Z.shiftr control 16, s1))
     else s1 = s) /\
    pio_reads s1 t (Z.to_nat n) = Some (l, s').
Proof.
  intros Hs Hc [Hn _] Hr Hd. exists (dma_start s control). pose proof (dma_start_ok s control Hs Hc) as Hok. split.
  { unfold dma_start in *. destruct (flag control DMA_SELECT); [|done]. apply select_run; [done|]. apply (fo_selector _ (co_fw _ Hok)). }
  destruct (dma_read_run s control true n Hs Hc Hn Hr) as [E | (l' & b & Hn0 & Ho & Hl & Hb & E)]; rewrite Hd in E; [done|].
  injection E as -> ->. destruct (pio_reads_run t (Z.to_nat n) _ Hok) as (l & b' & Hl' & Hb' & Hp); [lia|].
  rewrite Hl in Hl'. rewrite Z2Nat.id, Hb in Hb' by lia. rewrite Z2Nat.id in Hp by lia. by simplify_eq.
Qed.

(** The firmware reads the files that the device promises: selecting the
    directory and reading it byte by byte gives the big-endian count and a
    row with size, selector and name for each file, and selecting a file by
    its selector and reading its size in bytes gives its contents: the
    memory map with the guest's memory below and above the legacy hole, and
    the bound ACPI tables, root pointer and loader script. *)
Theorem config_files_exact s t :
  config_ok s ->
  (forall v s1, aos_x86_config_io s 0x510 2 true 0x19 t = Some (Some (v, s1)) ->
     fst <$> pio_reads s1 t (length (directory s)) = Some (directory s)) /\
  (forall k name content v s1, files s !! k = Some (name, content) ->
     aos_x86_config_io s 0x510 2 true (0x20 + Z.of_nat k) t = Some (Some (v, s1)) ->
     fst <$> pio_reads s1 t (length content) = Some content).
Proof.
  intros Hs. assert (forall x s1 v l, is_u16 x -> aos_x86_config_io s 0x510 2 true x t = Some (Some (v, s1)) ->
    Z.of_nat (length l) < 2 ^ 32 -> fw_bytes (selected s x) 0 (length l) = Some l -> fst <$> pio_reads s1 t (length l) = Some l) as Hread.
  { intros x s1 v l Hx Hio Hlen Hl. rewrite select_run in Hio by done. injection Hio as <- <-.
    destruct (pio_reads_run t (length l) _ (selected_ok s x Hs Hx)) as (l' & b & Hl' & _ & Hp); [by cbn|].
    change (fw_offset _) with 0 in Hl'. rewrite Hl in Hl'. injection Hl' as <-. unfold selected in Hp. by rewrite Hp. }
  split.
  - intros v s1 Hio. destruct (directory_file s Hs). by apply (Hread 0x19 s1 v).
  - intros k name content v s1 Hk Hio. destruct (file_bytes s k name content Hs Hk) as (Hk4 & Hlen & Hl).
    apply (Hread (0x20 + Z.of_nat k) s1 v); [unfold is_u16; lia|done..].
Qed.

(** The timer status is exact: a read of the power management status
    shows the timer bit just when it was set before or bit 23 of the clock
    changed at some tick since the last access, however many times it
    changed; writing the bit clears it. *)
Theorem pm_timer_exact p write value t v q :
  pm_ok p -> is_u64 t -> pm_io p 0 2 write value t = Some (v, q) ->
  pm_last_ticks q = t /\
  (write = false -> v = pm_status q /\
    (Z.testbit v 0 = true <-> Z.testbit (pm_status p) 0 = true \/
      exists u, pm_last_ticks p < u <= t /\ Z.testbit u 23 <> Z.testbit (u - 1) 23)) /\
  (write = true -> Z.testbit value 0 = true -> pm_status q = 0).
Proof.
  intros Hp Ht Hio. unfold pm_io in Hio. cbn [Z.eqb Z.ltb Z.compare negb andb orb Pos.eqb] in Hio.
  destruct (t <? pm_last_ticks p) eqn:Hg; [done|]. apply Z.ltb_ge in Hg. pose proof (pm_latch_ok p t Hp) as Hs.
  change (negb (negb (flag 0 1)) || false) with false in Hio. change (Z.ldiff 0 1 =? 0) with true in Hio.
  change (Z.land 0 1 * 8) with 0 in Hio. rewrite Z.shiftl_0_r, Z.shiftr_0_r in Hio.
  destruct write; injection Hio as <- <-; (split; [done|]); split; try done; cbn [pm_status pm_store].
  - intros _ Hv. destruct Hs as [-> | ->]; [done|]. apply Z.bits_inj_iff'. intros i Hi. rewrite Z.ldiff_spec, Z.land_spec, Z.bits_0.
    destruct (decide (i = 0)) as [->|]; [by rewrite Hv|]. change 1 with (2 ^ 0). by rewrite Z.pow2_bits_false by lia.
  - intros _. split; [by destruct Hs as [-> | ->]|]. rewrite <- latch_change by (pose proof (po_ticks p Hp); unfold is_u64 in *; lia).
    unfold pm_latch. destruct (Z.eqb_spec (Z.shiftr t 23) (Z.shiftr (pm_last_ticks p) 23)) as [E|E].
    + destruct (po_status p Hp) as [-> | ->]; naive_solver.
    + destruct (po_status p Hp) as [-> | ->]; naive_solver.
Qed.

(** ** Examples *)

Definition example_blobs : boot_blobs :=
  mk_blobs (Some [77; 90; 1; 2; 3]) None (Some [113; 117; 105; 101; 116; 0]) 5 0 6.
Definition example_bundle : acpi_bundle :=
  mk_acpi (replicate 1993 7) (replicate 36 9) (replicate (Z.to_nat 2432) 4) 846 1.
Definition example_ops : list config_op :=
  [Boot example_blobs; Acpi 3 example_bundle; Port 0xcf8 4 true 0x80000b00 5; Port 0xcfc 4 true 0xffffffff 6; Port 0xcfc 2 false 0 7;
   Port 0xb000 2 false 0 0x800000; Dma 0x0011000a true 8; Port 0x71 1 false 0 9; Port 0xffff 4 true 1 1].
Definition example_config (ram : Z) : config :=
  match aos_x86_config_init ram with
  | Some (Some s) => s
  | _ => mk_config 0 (mk_pci 0 [] [] 0) (mk_fw 0 0 0 [] 0) (mk_pm 0 0 0 0) (mk_legacy 0 0 0 0 0 0 false) (mk_rtc 0 0 0 0 0 0 0 [] []) no_blobs None
  end.
Definition example_bound : config := default (example_config 0x4000000) (config_run (example_config 0x4000000) (take 2 example_ops)).

Lemma example_bundle_ok : acpi_ok example_bundle.
Proof. split; cbn [ac_tables ac_rsdp ac_loader ac_table_bytes ac_cpu_count example_bundle]; try done; rewrite ?length_replicate; try done. by repeat split; apply Forall_replicate. Qed.

Lemma example_blobs_valid : blobs_valid example_blobs.
Proof.
  intros p size [[= <- <-]|[[= <- <-]|[[= <- <-]|[]]]]; (split; [done|]); intros l [= <-]; split; try (by cbn); by apply (bool_decide_unpack _); vm_compute.
Qed.

Lemma example_ops_valid : Forall op_valid example_ops.
Proof. unfold example_ops. repeat (apply Forall_cons; split; [first [apply example_blobs_valid|apply example_bundle_ok|done]|]). constructor. Qed.

Lemma example_bound_ok : config_ok example_bound.
Proof.
  destruct (init_ok 0x4000000 (example_config 0x4000000)) as [Hs _]; [by vm_compute|].
  destruct (config_run_ok (take 2 example_ops) _ Hs (Forall_take _ 2 _ example_ops_valid)) as (s' & Hrun & Hs').
  unfold example_bound. by rewrite Hrun.
Qed.

Lemma config_identity_frozen_witness :
  exists s', config_run (example_config 0x4000000) example_ops = Some s' /\ config_ok s' /\
    forall is_pm reg, 0 <= reg < 256 ->
      Z.ldiff (pci_space is_pm (c_pci s') !!! Z.to_nat reg) (pci_mask is_pm reg) =
      Z.ldiff (pci_space is_pm (c_pci (example_config 0x4000000)) !!! Z.to_nat reg) (pci_mask is_pm reg).
Proof. apply (config_identity_frozen 0x4000000); [by vm_compute|apply example_ops_valid]. Defined.

Lemma config_dma_is_pio_witness : exists s' s1,
  aos_x86_config_dma example_bound 0x0011000a true 8 = Some (Some ([77; 90; 1; 2; 3; 0; 0; 0], s')) /\
  pio_reads s1 0 8 = Some ([77; 90; 1; 2; 3; 0; 0; 0], s').
Proof.
  destruct (aos_x86_config_dma example_bound 0x0011000a true 8) as [[[l s']|]|] eqn:Hd; [|by vm_compute in Hd..].
  destruct (config_dma_is_pio example_bound 0x0011000a 8 0 l s') as (s1 & _ & Hp); [apply example_bound_ok|done..|].
  assert (l = [77; 90; 1; 2; 3; 0; 0; 0]) as -> by (vm_compute in Hd; by injection Hd).
  exists s', s1. by split.
Defined.

Lemma config_files_exact_witness : exists v s1,
  files example_bound !! 2%nat = Some ("etc/acpi/rsdp"%string, replicate 36 9) /\
  aos_x86_config_io example_bound 0x510 2 true 0x22 0 = Some (Some (v, s1)) /\ fst <$> pio_reads s1 0 36 = Some (replicate 36 9).
Proof.
  destruct (aos_x86_config_io example_bound 0x510 2 true 0x22 0) as [[[v s1]|]|] eqn:Hio; [|by vm_compute in Hio..].
  exists v, s1. split; [by vm_compute|]. split; [done|].
  destruct (config_files_exact example_bound 0 example_bound_ok) as [_ Hf]. by apply (Hf 2%nat "etc/acpi/rsdp"%string (replicate 36 9) v).
Defined.

Lemma pm_timer_exact_witness : exists q,
  pm_io (mk_pm 0 1 5 0) 0 2 false 0 0x1800000 = Some (1, q) /\
  exists u, 5 < u <= 0x1800000 /\ Z.testbit u 23 <> Z.testbit (u - 1) 23.
Proof.
  eexists. split; [by vm_compute|]. edestruct (pm_timer_exact (mk_pm 0 1 5 0) false 0 0x1800000 1) as (_ & H & _);
    [|done|by vm_compute|]; [by split; [left| | |]|]. by destruct (proj1 (proj2 (H eq_refl)) eq_refl) as [|Hu].
Defined.
