(* ===== verification/X86Memory.v ===== *)
(** * Guest memory of an x86 guest

    [platform/guest-vmm/x86_memory.c] and its header: the walk of the guest's
    page tables, the fetch of an instruction through it, the decoder of the
    MOV forms that reach an emulated device, and the stores and apertures
    that have no device behind them.

    [None] is an access outside an array; a call that the C code refuses with
    [false] is [Some None] (or [None] where no array is read). *)

From S2P Require Import Prelude BitSet Bytes X86Rtc X86Config.
From stdpp Require Import options.

#[local] Open Scope Z_scope.

Record memory := mk_memory { m_ram : list Z; m_rom : option (list Z); ram_size : Z; rom_base : Z; rom_size : Z }.

(** The number of levels is the number of entries recorded. *)
Record walk := mk_walk { physical : Z; entries : list Z }.
Definition levels (w : walk) : Z := Z.of_nat (length (entries w)).

Definition le (p : list Z) (i : Z) (n : nat) : option Z := load p i n.
Definition canonical (va : Z) : bool := (Z.shiftr va 47 =? 0) || (Z.shiftr va 47 =? 0x1ffff).

(** ** The page tables *)

(** The loop of [aos_x86_walk] from a level, its table and what it has
    recorded. *)
Fixpoint walk_level (m : memory) (va : Z) (write execute : bool) (level : nat) (table : Z) (seen : list Z) : option (option walk) :=
  match level with
  | O => Some None
  | S next =>
      let shift := 12 + 9 * Z.of_nat next in
      let at_ := table + Z.land (Z.shiftr va shift) 511 * 8 in
      if (ram_size m <? at_) || (ram_size m - at_ <? 8) then Some None else
      e ← le (m_ram m) at_ 8;
      let seen := seen ++ [at_] in
      let large := flag e 128 && negb (bool_decide (level = 1%nat)) in
      let mask := Z.shiftl 1 shift - 1 in
      if negb (flag e 1) || flag e 0x000ffff000000000 || (write && negb (flag e 2)) || (execute && negb (Z.shiftr e 63 =? 0))
      then Some None
      else if large && negb (bool_decide (level = 2%nat)) then Some None
      else if bool_decide (level = 1%nat) || large then
        Some (if large && flag e (Z.ldiff mask 0x1fff) then None
              else Some (mk_walk (Z.lor (Z.ldiff (Z.land e 0xffffff000) mask) (Z.land va mask)) seen))
      else walk_level m va write execute next (Z.land e 0xffffff000) seen
  end.

Definition aos_x86_walk (m : memory) (cr3 va : Z) (write execute : bool) : option (option walk) :=
  if negb (canonical va) || negb (Z.ldiff cr3 0xffffff018 =? 0) then Some None
  else walk_level m va write execute 4 (Z.land cr3 0xffffff000) [].

Definition aos_x86_translate (m : memory) (cr3 va : Z) (write execute : bool) : option (option Z) :=
  w ← aos_x86_walk m cr3 va write execute; Some (option_map physical w).

(** ** Instruction fetch *)

(** A byte behind a translated address: memory, or the firmware image. *)
Definition fetch_byte (m : memory) (pa : Z) : option (option Z) :=
  if pa <? ram_size m then Some <$> aget (m_ram m) pa
  else match m_rom m with
  | Some rom => if (rom_base m <=? pa) && (pa - rom_base m <? rom_size m) then Some <$> aget rom (pa - rom_base m) else Some None
  | None => Some None
  end.

Fixpoint fetch_bytes (m : memory) (cr3 va : Z) (n : nat) : option (option (list Z)) :=
  match n with
  | O => Some (Some [])
  | S n =>
      t ← aos_x86_translate m cr3 va false true;
      match t with
      | None => Some None
      | Some pa =>
          b ← fetch_byte m pa;
          match b with
          | None => Some None
          | Some b => l ← fetch_bytes m cr3 (va + 1) n; Some (option_map (cons b) l)
          end
      end
  end.

Definition UINT64_MAX : Z := 0xffffffffffffffff.

Definition aos_x86_fetch (m : memory) (cr3 va size : Z) : option (option (list Z)) :=
  if (size =? 0) || (15 <? size) || (UINT64_MAX - (size - 1) <? va) then Some None
  else fetch_bytes m cr3 va (Z.to_nat size).

(** ** Accesses without a device *)

Definition aos_x86_absent_mmio (gpa width : Z) (write : bool) : option Z :=
  if write || (negb (width =? 1) && negb (width =? 2) && negb (width =? 4)) || (gpa <? 0xfed40000) ||
     (0x5000 - width <? gpa - 0xfed40000) || negb (Z.land gpa (width - 1) =? 0)
  then None
  else Some (if width =? 4 then 0xffffffff else Z.shiftl 1 (8 * width) - 1).

Definition aos_x86_rom_store (m : memory) (gpa width : Z) : bool :=
  bool_decide (is_Some (m_rom m)) && ((width =? 1) || (width =? 2) || (width =? 4)) && (Z.land gpa (width - 1) =? 0) &&
  (rom_base m <=? gpa) && (width <=? rom_size m) && (gpa - rom_base m <=? rom_size m - width).

(** ** The decoder of MOV *)

(** A step that faults, refuses or continues. *)
Definition attempt (A : Type) : Type := option (option A).
Definition refuse {A} : attempt A := Some None.
Definition accept {A} (a : A) : attempt A := Some (Some a).
Definition andThen {A B} (x : attempt A) (k : A -> attempt B) : attempt B :=
  match x with None => None | Some None => Some None | Some (Some a) => k a end.
Declare Scope attempt_scope.
Delimit Scope attempt_scope with attempt.
Notation "x <~ y ; z" := (andThen y (fun x => z)) (at level 20, y at level 100, z at level 200, only parsing) : attempt_scope.
Notation "' x1 <~ y ; z" := (andThen y (fun x => let ' x1 := x in z))
  (at level 20, x1 pattern, y at level 100, z at level 200, only parsing) : attempt_scope.
#[local] Open Scope attempt_scope.

Record mov := mk_mov {
  mov_address : Z; mov_value : Z; mov_length : Z; mov_reg : Z; mov_width : Z; destination_bits : Z; mov_shift : Z;
  mov_write : bool }.

Definition int_of (bits v : Z) : Z := if Z.testbit v (bits - 1) then v - 2 ^ bits else v.

(** [b\[i\]], with the test of the index against the size first. *)
Definition need (b : list Z) (n i : Z) : attempt Z := if i =? n then refuse else option_map Some (aget b i).
Definition byte (b : list Z) (i : Z) : attempt Z := option_map Some (aget b i).
Definition reg_of (r : list Z) (i : Z) : attempt Z := option_map Some (aget r i).

(** The operand size prefix and the REX prefix: both, and the index after. *)
Definition mov_prefix (b : list Z) (n : Z) : attempt (bool * Z * Z) :=
  b0 <~ byte b 0;
  let operand16 := b0 =? 0x66 in
  let i := if operand16 then 1 else 0 in
  c <~ (if operand16 then need b n i else byte b i);
  if Z.land c 0xf0 =? 0x40 then (if i + 1 =? n then refuse else accept (operand16, c, i + 1)) else accept (operand16, 0, i).

(** The opcode: width, destination bits and the index after. *)
Definition mov_form (b : list Z) (n : Z) (operand16 : bool) (rex opcode i : Z) : attempt (Z * Z * Z) :=
  if opcode =? 0x0f then
    if operand16 then refuse else
    c <~ need b n i;
    if negb (c =? 0xb6) && negb (c =? 0xb7) then refuse
    else accept (if c =? 0xb6 then 1 else 2, if flag rex 8 then 64 else 32, i + 1)
  else if (opcode =? 0x8a) || (opcode =? 0x88) || (opcode =? 0xc6) then
    if operand16 then refuse else accept (1, 8, i)
  else if (negb (opcode =? 0x89) && negb (opcode =? 0x8b) && negb (opcode =? 0xc7)) || flag rex 8 then refuse
  else accept (if operand16 then 2 else 4, if operand16 then 16 else 32, i).

Definition ext (rex m : Z) : Z := if flag rex m then 8 else 0.

(** The register part of the address: the sum, whether it is relative to the
    next instruction, whether the base is absent, and the index after. *)
Definition mov_base (b r : list Z) (n rex mod_ rm i : Z) : attempt (Z * bool * bool * Z) :=
  if rm =? 4 then
    sib <~ need b n i;
    let index := Z.lor (Z.land (Z.shiftr sib 3) 7) (ext rex 2) in
    let base := Z.lor (Z.land sib 7) (ext rex 1) in
    let absent := (mod_ =? 0) && (Z.land sib 7 =? 5) in
    a <~ (if absent then accept 0 else reg_of r base);
    x <~ (if index =? 4 then accept 0 else (x <~ reg_of r index; accept (u64 (Z.shiftl x (Z.shiftr sib 6)))));
    accept (u64 (a + x), false, absent, i + 1)
  else if (mod_ =? 0) && (rm =? 5) then accept (0, true, true, i)
  else (a <~ reg_of r (Z.lor rm (ext rex 1)); accept (a, false, false, i)).

(** The displacement: the new sum and the index after. *)
Definition mov_displacement (b : list Z) (n mod_ address : Z) (absent : bool) (i : Z) : attempt (Z * Z) :=
  let displacement := if mod_ =? 1 then 1 else if (mod_ =? 2) || absent then 4 else 0 in
  if n - i <? displacement then refuse
  else if displacement =? 1 then (d <~ byte b i; accept (u64 (address + int_of 8 d), i + 1))
  else if displacement =? 4 then (d <~ option_map Some (le b i 4); accept (u64 (address + int_of 32 d), i + 4))
  else accept (address, i).

(** The immediate, or the register narrowed to the width. *)
Definition narrow (width v : Z) : Z := if width =? 1 then Z.land v 0xff else if width =? 2 then Z.land v 0xffff else v.
Definition mov_source (b r : list Z) (n : Z) (immediate : bool) (reg shift width i : Z) : attempt (Z * Z) :=
  x <~ reg_of r reg;
  if immediate then
    if n - i <? width then refuse else (v <~ option_map Some (le b i (Z.to_nat width)); accept (v, i + width))
  else accept (narrow width (u32 (Z.shiftr x shift)), i).

Definition aos_x86_decode_mov (b : list Z) (n rip : Z) (r : list Z) : attempt mov :=
  if (n =? 0) || (15 <? n) then refuse else
  '(operand16, rex, i) <~ mov_prefix b n;
  opcode <~ byte b i;
  let write := (opcode =? 0x89) || (opcode =? 0x88) || (opcode =? 0xc7) || (opcode =? 0xc6) in
  let immediate := (opcode =? 0xc7) || (opcode =? 0xc6) in
  '(width, bits, i) <~ mov_form b n operand16 rex opcode (i + 1);
  modrm <~ need b n i;
  let mod_ := Z.shiftr modrm 6 in
  let rm := Z.land modrm 7 in
  let reg := Z.lor (Z.land (Z.shiftr modrm 3) 7) (ext rex 4) in
  if (mod_ =? 3) || (immediate && negb (reg =? 0)) then refuse else
  let high := (bits =? 8) && (rex =? 0) && (4 <=? reg) in
  let '(reg, shift) := if high then (reg - 4, 8) else (reg, 0) in
  '(address, relative, absent, i) <~ mov_base b r n rex mod_ rm (i + 1);
  '(address, i) <~ mov_displacement b n mod_ address absent i;
  '(value, i) <~ mov_source b r n immediate reg shift width i;
  let address := if (relative : bool) then u64 (address + u64 (rip + i)) else address in
  if canonical address then accept (mk_mov address value i reg width bits shift write) else refuse.

Definition aos_x86_decode_mov32 (b : list Z) (n rip : Z) (r : list Z) : attempt mov :=
  op <~ aos_x86_decode_mov b n rip r;
  if mov_width op =? 4 then accept op else refuse.

(** The register after a load. *)
Definition aos_x86_mov_result (op : mov) (previous value : Z) : Z :=
  let value := narrow (mov_width op) value in
  if negb (destination_bits op =? 8) && negb (destination_bits op =? 16) then value else
  let mask := Z.shiftl (if destination_bits op =? 16 then 0xffff else 0xff) (mov_shift op) in
  Z.lor (Z.ldiff previous mask) (Z.shiftl value (mov_shift op)).

(** ** The walk over a page *)

Record mem_ok (m : memory) : Prop := {
  mo_ram : ram_size m = Z.of_nat (length (m_ram m));
  mo_bytes : Forall is_u8 (m_ram m);
  mo_rom : forall rom, m_rom m = Some rom -> rom_size m = Z.of_nat (length rom) /\ Forall is_u8 rom;
  mo_base : 0 <= rom_base m }.

Definition entry_ok (m : memory) (x : Z) : Prop := 0 <= x /\ x + 8 <= ram_size m.

(** The size of the page that a leaf at a level maps. *)
Definition leaf_shift (leaf : nat) : Z := 12 + 9 * (Z.of_nat leaf - 1).

Lemma index_same va va' s t : 0 <= s <= t -> Z.shiftr va s = Z.shiftr va' s -> Z.shiftr va t = Z.shiftr va' t.
Proof.
  intros Hst H. replace t with (s + (t - s)) by lia. rewrite <- !Z.shiftr_shiftr by lia. by rewrite H.
Qed.

Lemma lor_page e va s : 0 <= s -> Z.lor (Z.ldiff e (Z.shiftl 1 s - 1)) (Z.land va (Z.shiftl 1 s - 1)) = e / 2 ^ s * 2 ^ s + va mod 2 ^ s.
Proof.
  intros Hs. rewrite Z.shiftl_1_l. replace (2 ^ s - 1) with (Z.ones s) by (rewrite Z.ones_equiv; lia).
  rewrite <- Z.lxor_lor, <- Z.add_nocarry_lxor.
  - rewrite Z.land_ones, Z.ldiff_ones_r, Z.shiftl_mul_pow2, Z.shiftr_div_pow2 by done. done.
  - apply Z.bits_inj_iff'. intros i Hi. rewrite !Z.land_spec, Z.ldiff_spec, Z.bits_0.
    by destruct (Z.testbit e i), (Z.testbit va i), (Z.testbit (Z.ones s) i).
  - apply Z.bits_inj_iff'. intros i Hi. rewrite !Z.land_spec, Z.ldiff_spec, Z.bits_0.
    by destruct (Z.testbit e i), (Z.testbit va i), (Z.testbit (Z.ones s) i).
Qed.

Lemma le_total m x : mem_ok m -> entry_ok m x -> exists e, le (m_ram m) x 8 = Some e /\ 0 <= e < 2 ^ 64.
Proof. intros Hm [H0 H8]. rewrite (mo_ram m Hm) in H8. apply load_ok; [apply Hm|lia..]. Qed.

(** What a successful walk from a level promises of the whole page: the leaf
    level, the base, and that every address of the page takes the same
    entries to its offset in the base. *)
Definition maps (m : memory) (va : Z) (write execute : bool) (level : nat) (table : Z) (seen : list Z) (w : walk) : Prop :=
  exists leaf base l, (1 <= leaf <= 2)%nat /\ (leaf <= level)%nat /\ 0 <= base < 2 ^ 36 /\ base mod 2 ^ leaf_shift leaf = 0 /\
    entries w = seen ++ l /\ length l = (S level - leaf)%nat /\ Forall (entry_ok m) l /\
    forall va', Z.shiftr va' (leaf_shift leaf) = Z.shiftr va (leaf_shift leaf) ->
      walk_level m va' write execute level table seen = Some (Some (mk_walk (base + va' mod 2 ^ leaf_shift leaf) (entries w))).

Lemma base_ok e s : 0 <= e -> 12 <= s -> 0 <= Z.land e 0xffffff000 / 2 ^ s * 2 ^ s < 2 ^ 36.
Proof.
  intros He Hs. pose proof (land_le_r e 0xffffff000). pose proof (Z.mul_div_le (Z.land e 0xffffff000) (2 ^ s) ltac:(lia)).
  assert (0 <= Z.land e 0xffffff000 / 2 ^ s) by (apply Z.div_pos; lia). lia.
Qed.

Lemma walk_level_maps m va write execute : mem_ok m -> 0 <= va -> forall level table seen, 0 <= table ->
  exists x, walk_level m va write execute level table seen = Some x /\
    forall w, x = Some w -> maps m va write execute level table seen w.
Proof.
  intros Hm Hva. induction level as [|next IH]; intros table seen Ht; [by eexists|].
  cbn [walk_level]. set (shift := 12 + 9 * Z.of_nat next). set (at_ := table + _).
  assert (0 <= at_) as Hat by (pose proof (land_le_r (Z.shiftr va shift) 511); unfold at_; lia).
  destruct (_ || (_ <? 8)) eqn:Hb; [by eexists|]. assert (entry_ok m at_) as Hent by (split; lia).
  destruct (le_total m at_ Hm Hent) as (e & He & Hel). rewrite He. cbn [mbind option_bind].
  destruct (negb (flag e 1) || _ || _ || _) eqn:Hp; [by eexists|].
  destruct (_ && negb (bool_decide (S next = 2%nat))) eqn:Hl; [by eexists|].
  destruct (bool_decide (S next = 1%nat) || _) eqn:Hleaf.
  - destruct (_ && flag e _) eqn:Hlow; [by eexists|]. eexists. split; [done|]. intros w [= <-].
    assert (shift = leaf_shift (S next)) as Hsh by (unfold shift, leaf_shift; lia).
    exists (S next), (Z.land e 0xffffff000 / 2 ^ shift * 2 ^ shift), [at_]. rewrite <- Hsh.
    assert (12 <= shift) by (unfold shift; lia). split; [|split; [done|]].
    { destruct next as [|[|next]]; [lia..|]. rewrite bool_decide_eq_false_2 in Hl, Hleaf by lia. destruct (flag e 128); done. }
    split; [apply base_ok; lia|]. split; [apply Z.mod_mul; lia|]. split; [done|]. split; [cbn; lia|]. split; [by constructor|].
    intros va' Hva'. cbn [walk_level entries]. fold shift. rewrite Hva'. fold at_. rewrite Hb, He. cbn [mbind option_bind].
    rewrite Hp, Hl, Hleaf, Hlow. by rewrite lor_page by lia.
  - destruct (IH (Z.land e 0xffffff000) (seen ++ [at_])) as (x & Hx & Hw); [by apply land_le_r|]. exists x. split; [done|].
    intros w Hxw. destruct (Hw w Hxw) as (leaf & base & l & H12 & Hll & Hbase & Hmod & Hent' & Hlen & Hl' & Hpage).
    exists leaf, base, (at_ :: l). split; [done|]. split; [lia|]. split; [done|]. split; [done|].
    split; [by rewrite Hent', <- app_assoc|]. split; [cbn; lia|]. split; [by constructor|].
    intros va' Hva'. cbn [walk_level]. fold shift.
    rewrite <- (index_same va va' (leaf_shift leaf) shift) by (done || unfold leaf_shift, shift; lia). fold at_.
    rewrite Hb, He. cbn [mbind option_bind]. rewrite Hp, Hl, Hleaf. by apply Hpage.
Qed.

(** The page of a walk: 2 MiB when it stopped a level early. *)
Definition page_shift (w : walk) : Z := if levels w =? 3 then 21 else 12.

Record walk_page (m : memory) (cr3 va : Z) (write execute : bool) (w : walk) (base : Z) : Prop := {
  wp_base : 0 <= base < 2 ^ 36 /\ base mod 2 ^ page_shift w = 0;
  wp_physical : physical w = base + va mod 2 ^ page_shift w;
  wp_entries : Forall (entry_ok m) (entries w) /\ 3 <= levels w <= 4;
  wp_page : forall va', va' / 2 ^ page_shift w = va / 2 ^ page_shift w ->
    aos_x86_walk m cr3 va' write execute = Some (Some (mk_walk (base + va' mod 2 ^ page_shift w) (entries w))) }.

Lemma canonical_same va va' s : 0 <= s <= 47 -> Z.shiftr va s = Z.shiftr va' s -> canonical va = canonical va'.
Proof. intros Hs H. unfold canonical. by rewrite (index_same va va' s 47). Qed.

Lemma walk_total m cr3 va write execute : mem_ok m -> 0 <= va -> 0 <= cr3 ->
  exists x, aos_x86_walk m cr3 va write execute = Some x /\ forall w, x = Some w -> exists base, walk_page m cr3 va write execute w base.
Proof.
  intros Hm Hva Hcr. unfold aos_x86_walk. destruct (negb (canonical va) || _) eqn:Hc; [by eexists|].
  destruct (walk_level_maps m va write execute Hm Hva 4 (Z.land cr3 0xffffff000) []) as (x & Hx & Hw); [by apply land_le_r|].
  exists x. split; [done|]. intros w Hxw. destruct (Hw w Hxw) as (leaf & base & l & H12 & _ & Hb & Hmod & He & Hlen & Hok & Hpage).
  exists base. cbn in He. assert (page_shift w = leaf_shift leaf) as Hps.
  { unfold page_shift, levels, leaf_shift. rewrite He, Hlen. destruct (decide (leaf = 1%nat)) as [->|]; [done|]. by assert (leaf = 2%nat) as -> by lia. }
  assert (0 <= leaf_shift leaf <= 47) as Hs by (unfold leaf_shift; lia).
  split; rewrite ?Hps.
  - done.
  - specialize (Hpage va eq_refl). rewrite Hx in Hpage. simplify_eq. by rewrite Hpage.
  - rewrite He. split; [done|]. unfold levels. rewrite He, Hlen. lia.
  - intros va' Hva'. rewrite <- !Z.shiftr_div_pow2 in Hva' by lia. unfold aos_x86_walk.
    rewrite (canonical_same va' va (leaf_shift leaf)) by done. rewrite Hc. by apply Hpage.
Qed.

(** A walk for any access gives what the walk for a read gives. *)
Lemma walk_level_read m va write execute w : forall level table seen,
  walk_level m va write execute level table seen = Some (Some w) -> walk_level m va false false level table seen = Some (Some w).
Proof.
  induction level as [|next IH]; intros table seen; [done|]. cbn [walk_level].
  destruct (_ || (_ <? 8)); [done|]. destruct (le _ _ 8) as [e|]; [|done]. cbn [mbind option_bind].
  destruct (negb (flag e 1) || flag e 0x000ffff000000000); cbn [orb andb]; [done|].
  destruct (write && _); [done|]. destruct (execute && _); [done|]. cbn [orb]. destruct (_ && negb (bool_decide (S next = 2%nat))); [done|].
  destruct (bool_decide (S next = 1%nat) || _); [done|]. apply IH.
Qed.

(** ** The encoder of MOV *)

Inductive disp := D0 | D8 (d : Z) | D32 (d : Z).
Inductive operand :=
  | Rip (d : Z)
  | Plain (base : Z) (d : disp)
  | Sib (base : option Z) (index : option (Z * Z)) (d : disp).
Inductive action := MovLoad (width : Z) | MovStore (width : Z) | MovImm (width v : Z) | Movzx (width : Z) (wide : bool).

(** The register is the low part of one of sixteen, or with [i_high] the
    second byte of one of the first four; [i_rex] asks for a prefix that no
    register needs. *)
Record instruction := mk_instruction { i_action : action; i_reg : Z; i_high : bool; i_operand : operand; i_rex : bool }.

Definition disp_value (d : disp) : Z := match d with D0 => 0 | D8 d | D32 d => d end.
Definition disp_bytes (d : disp) : list Z := match d with D0 => [] | D8 d => le_bytes 1 d | D32 d => le_bytes 4 d end.
Definition disp_mod (d : disp) : Z := match d with D0 => 0 | D8 _ => 1 | D32 _ => 2 end.
Definition disp_ok (d : disp) : Prop :=
  match d with D0 => True | D8 d => -128 <= d < 128 | D32 d => -2 ^ 31 <= d < 2 ^ 31 end.

Definition action_width (a : action) : Z := match a with MovLoad w | MovStore w | MovImm w _ | Movzx w _ => w end.
Definition action_bits (a : action) : Z :=
  match a with Movzx _ wide => if wide then 64 else 32 | _ => if action_width a =? 1 then 8 else if action_width a =? 2 then 16 else 32 end.
Definition action_writes (a : action) : bool := match a with MovStore _ | MovImm _ _ => true | _ => false end.
Definition opcode_of (a : action) : list Z :=
  match a with
  | MovLoad w => [if w =? 1 then 0x8a else 0x8b]
  | MovStore w => [if w =? 1 then 0x88 else 0x89]
  | MovImm w _ => [if w =? 1 then 0xc6 else 0xc7]
  | Movzx w _ => [0x0f; if w =? 1 then 0xb6 else 0xb7]
  end.
Definition is_movzx (a : action) : bool := match a with Movzx _ _ => true | _ => false end.
Definition narrow16 (a : action) : bool := (action_width a =? 2) && negb (is_movzx a).
Definition imm_bytes (a : action) : list Z := match a with MovImm w v => le_bytes w v | _ => [] end.

(** The register field, and the high bits that go to the REX prefix. *)
Definition reg_field (i : instruction) : Z :=
  match i_action i with MovImm _ _ => 0 | _ => if i_high i then i_reg i + 4 else i_reg i end.
Definition rex_w (i : instruction) : bool := match i_action i with Movzx _ wide => wide | _ => false end.
Definition rex_x (o : operand) : bool := match o with Sib _ (Some (x, _)) _ => 8 <=? x | _ => false end.
Definition rex_b (o : operand) : bool := match o with Plain b _ | Sib (Some b) _ _ => 8 <=? b | _ => false end.
Definition rex_any (i : instruction) : bool :=
  i_rex i || rex_w i || (8 <=? reg_field i) || rex_x (i_operand i) || rex_b (i_operand i).
Definition rex_byte (i : instruction) : Z :=
  if rex_any i then 0x40 + (if rex_w i then 8 else 0) + (if 8 <=? reg_field i then 4 else 0) + (if rex_x (i_operand i) then 2 else 0) +
    (if rex_b (i_operand i) then 1 else 0)
  else 0.

Definition rm_of (o : operand) : Z := match o with Rip _ => 5 | Plain b _ => b mod 8 | Sib _ _ _ => 4 end.
Definition mod_of (o : operand) : Z := match o with Rip _ | Sib None _ _ => 0 | Plain _ d | Sib (Some _) _ d => disp_mod d end.
Definition sib_of (base : option Z) (index : option (Z * Z)) : Z :=
  match index with Some (x, s) => s * 64 + x mod 8 * 8 | None => 4 * 8 end + match base with Some b => b mod 8 | None => 5 end.
Definition operand_bytes (o : operand) : list Z :=
  match o with Rip d => le_bytes 4 d | Plain _ d => disp_bytes d | Sib b x d => sib_of b x :: disp_bytes d end.

Definition prefix_bytes (i : instruction) : list Z :=
  (if narrow16 (i_action i) then [0x66] else []) ++ (if rex_any i then [rex_byte i] else []).
Definition encode_mov (i : instruction) : list Z :=
  prefix_bytes i ++ opcode_of (i_action i) ++ (mod_of (i_operand i) * 64 + reg_field i mod 8 * 8 + rm_of (i_operand i)) ::
  operand_bytes (i_operand i) ++ imm_bytes (i_action i).

(** The instructions that exist. *)
Definition operand_ok (o : operand) : Prop :=
  match o with
  | Rip d => -2 ^ 31 <= d < 2 ^ 31
  | Plain b d => 0 <= b < 16 /\ b mod 8 <> 4 /\ (b mod 8 = 5 -> d <> D0) /\ disp_ok d
  | Sib base index d =>
      match base with Some b => 0 <= b < 16 /\ (b mod 8 = 5 -> d <> D0) | None => exists v, d = D32 v end /\
      match index with Some (x, s) => 0 <= x < 16 /\ x <> 4 /\ 0 <= s < 4 | None => True end /\ disp_ok d
  end.
Definition instruction_ok (i : instruction) : Prop :=
  operand_ok (i_operand i) /\
  match i_action i with
  | Movzx w _ => w = 1 \/ w = 2
  | MovImm w v => (w = 1 \/ w = 2 \/ w = 4) /\ 0 <= v < 2 ^ (8 * w) /\ i_reg i = 0 /\ i_high i = false
  | MovLoad w | MovStore w => w = 1 \/ w = 2 \/ w = 4
  end /\
  (if i_high i then action_bits (i_action i) = 8 /\ 0 <= i_reg i < 4 /\ rex_any i = false
   else 0 <= i_reg i < 16 /\ (action_bits (i_action i) = 8 -> 4 <= reg_field i -> rex_any i = true)).

(** What an instruction means. *)
Definition effective (r : list Z) (rip len : Z) (o : operand) : Z :=
  match o with
  | Rip d => u64 (d + rip + len)
  | Plain b d => u64 (r !!! Z.to_nat b + disp_value d)
  | Sib base index d =>
      u64 (match base with Some b => r !!! Z.to_nat b | None => 0 end +
           match index with Some (x, s) => r !!! Z.to_nat x * 2 ^ s | None => 0 end + disp_value d)
  end.
Definition source_value (r : list Z) (i : instruction) : Z :=
  match i_action i with
  | MovImm _ v => v
  | a => (r !!! Z.to_nat (i_reg i) / 2 ^ (if i_high i then 8 else 0)) mod 2 ^ (8 * action_width a)
  end.
Definition meaning (r : list Z) (rip : Z) (i : instruction) : mov :=
  let len := Z.of_nat (length (encode_mov i)) in
  mk_mov (effective r rip len (i_operand i)) (source_value r i) len (i_reg i) (action_width (i_action i)) (action_bits (i_action i))
    (if i_high i then 8 else 0) (action_writes (i_action i)).

(** ** Decoding what was encoded *)

Lemma at_cons {A} (b : list A) i x l : 0 <= i -> drop (Z.to_nat i) b = x :: l -> aget b i = Some x /\ drop (Z.to_nat (i + 1)) b = l.
Proof.
  intros Hi H. split.
  - apply aget_Some. split; [done|]. rewrite <- (Nat.add_0_r (Z.to_nat i)), <- lookup_drop, H. done.
  - replace (Z.to_nat (i + 1)) with (Z.to_nat i + 1)%nat by lia. rewrite <- drop_drop, H. done.
Qed.

Lemma need_at b n i x l : 0 <= i < n -> drop (Z.to_nat i) b = x :: l -> need b n i = accept x /\ byte b i = accept x.
Proof.
  intros Hi H. destruct (at_cons b i x l ltac:(lia) H) as [Hx _]. unfold need, byte. rewrite Hx.
  by destruct (Z.eqb_spec i n); [lia|].
Qed.

Lemma le_bytes_cons n v : 0 <= n -> le_bytes (n + 1) v = u8 v :: le_bytes n (Z.shiftr v 8).
Proof.
  intros Hn. unfold le_bytes. rewrite seqZ_cons by lia. cbn [fmap list_fmap]. f_equal.
  replace (Z.pred (n + 1)) with n by lia. change (Z.succ 0) with (1 + 0). rewrite <- (fmap_add_seqZ 1 0), <- list_fmap_compose.
  apply list_fmap_ext. intros k x [-> Hk]%lookup_seqZ. unfold compose, byte_of. rewrite Z.shiftr_shiftr by lia. do 2 f_equal. lia.
Qed.

Lemma le_at b : forall k i v l, 0 <= i -> drop (Z.to_nat i) b = le_bytes (Z.of_nat k) v ++ l ->
  le b i k = Some (v mod 2 ^ (8 * Z.of_nat k)) /\ drop (Z.to_nat (i + Z.of_nat k)) b = l.
Proof.
  unfold le. induction k as [|k IH]; intros i v l Hi H.
  { cbn. rewrite Z.mod_1_r, Z.add_0_r. done. }
  replace (Z.of_nat (S k)) with (Z.of_nat k + 1) in * by lia. rewrite le_bytes_cons in H by lia. cbn [app] in H.
  destruct (at_cons b i _ _ Hi H) as [Hx Hd]. cbn [load]. rewrite Hx. cbn [mbind option_bind].
  destruct (IH (i + 1) (Z.shiftr v 8) l ltac:(lia) Hd) as [-> Hd']. cbn [mbind option_bind]. split.
  - f_equal. rewrite lor_byte by apply u8_range. rewrite Z.shiftr_div_pow2 by lia.
    replace (8 * (Z.of_nat k + 1)) with (8 + 8 * Z.of_nat k) by lia. rewrite Z.pow_add_r, Z.rem_mul_r by lia. done.
  - rewrite <- Hd'. f_equal. lia.
Qed.

Lemma int_of_mod bits v : 0 < bits -> - 2 ^ (bits - 1) <= v < 2 ^ (bits - 1) -> int_of bits (v mod 2 ^ bits) = v.
Proof.
  intros Hb Hv. assert (2 ^ bits = 2 * 2 ^ (bits - 1)) as E by (rewrite <- Z.pow_succ_r by lia; f_equal; lia).
  unfold int_of. rewrite Z.testbit_odd, Z.shiftr_div_pow2 by lia. destruct (Z.ltb_spec v 0).
  - assert (v mod 2 ^ bits = v + 2 ^ bits) as -> by (symmetry; apply Z.mod_unique_pos with (q := -1); lia).
    replace ((v + 2 ^ bits) / 2 ^ (bits - 1)) with 1 by (apply Z.div_unique with (r := v + 2 ^ (bits - 1)); lia). cbn. lia.
  - rewrite Z.mod_small, Z.div_small by lia. done.
Qed.

(** The fields of a byte of two, three and three bits. *)
Lemma byte_fields a c d : 0 <= a < 4 -> 0 <= c < 8 -> 0 <= d < 8 ->
  let x := a * 64 + c * 8 + d in Z.shiftr x 6 = a /\ Z.land (Z.shiftr x 3) 7 = c /\ Z.land x 7 = d.
Proof.
  intros Ha Hc Hd x. rewrite !Z.shiftr_div_pow2 by lia. change 7 with (Z.ones 3). rewrite !Z.land_ones by lia. unfold x.
  split_and!; Z.to_euclidean_division_equations; lia.
Qed.

Lemma lor_ext c rex m : 0 <= c < 8 -> Z.lor c (ext rex m) = c + ext rex m.
Proof.
  intros Hc. unfold ext. assert (c = 0 \/ c = 1 \/ c = 2 \/ c = 3 \/ c = 4 \/ c = 5 \/ c = 6 \/ c = 7) as Hcs by lia.
  destruct (flag rex m); repeat destruct Hcs as [-> | Hcs]; try done; by subst.
Qed.

Lemma ext_mod x rex m : 0 <= x < 16 -> flag rex m = (8 <=? x) -> Z.lor (x mod 8) (ext rex m) = x.
Proof.
  intros Hx Hf. rewrite lor_ext by (apply Z.mod_pos_bound; lia). unfold ext. rewrite Hf.
  destruct (Z.leb_spec 8 x); Z.to_euclidean_division_equations; lia.
Qed.

Lemma rex_flags i :
  flag (rex_byte i) 8 = rex_w i /\ flag (rex_byte i) 4 = (8 <=? reg_field i) /\ flag (rex_byte i) 2 = rex_x (i_operand i) /\
  flag (rex_byte i) 1 = rex_b (i_operand i) /\ (rex_byte i =? 0) = negb (rex_any i) /\
  (rex_any i = true -> Z.land (rex_byte i) 0xf0 = 0x40 /\ (rex_byte i =? 0x66) = false).
Proof.
  unfold rex_byte, rex_any. by destruct (i_rex i), (rex_w i), (8 <=? reg_field i), (rex_x (i_operand i)), (rex_b (i_operand i)).
Qed.

#[local] Arguments Z.land : simpl never.

Lemma prefix_decoded b n i o l :
  drop 0 b = prefix_bytes i ++ o :: l -> Z.of_nat (length (prefix_bytes i)) < n -> o <> 0x66 -> Z.land o 0xf0 <> 0x40 ->
  let k := Z.of_nat (length (prefix_bytes i)) in
  mov_prefix b n = accept (narrow16 (i_action i), rex_byte i, k) /\ byte b k = accept o /\ drop (Z.to_nat (k + 1)) b = l.
Proof.
  intros Hd Hn H66 Hrex k. unfold k. clear k. unfold prefix_bytes in *. destruct (rex_flags i) as (_ & _ & _ & _ & Hz & Hr).
  assert (rex_any i = false -> rex_byte i = 0) as Hz' by (intros E; rewrite E in Hz; by apply Z.eqb_eq).
  assert (forall x (l : list Z), aget (x :: l) 0 = Some x) as A0 by done.
  assert (forall x y (l : list Z), aget (x :: y :: l) 1 = Some y) as A1 by done.
  assert (forall x y z (l : list Z), aget (x :: y :: z :: l) 2 = Some z) as A2 by done.
  rewrite drop_0 in Hd. unfold mov_prefix, need, byte. rewrite Hd.
  destruct (narrow16 (i_action i)), (rex_any i); cbn [app length] in Hn |- *; rewrite A0; cbn [option_map andThen].
  - destruct (Hr eq_refl) as [E _]. change (0x66 =? 0x66) with true. cbv iota. destruct (Z.eqb_spec 1 n); [lia|]. rewrite A1. cbn [option_map andThen].
    rewrite E. by destruct (Z.eqb_spec (1 + 1) n); [lia|].
  - change (0x66 =? 0x66) with true. cbv iota. destruct (Z.eqb_spec 1 n); [lia|]. rewrite A1. cbn [option_map andThen].
    by rewrite (proj2 (Z.eqb_neq _ _) Hrex), Hz'.
  - destruct (Hr eq_refl) as [E E']. rewrite E'. cbv iota. rewrite A0. cbn [option_map andThen]. rewrite E.
    by destruct (Z.eqb_spec (0 + 1) n); [lia|].
  - rewrite (proj2 (Z.eqb_neq _ _) H66). cbv iota. rewrite A0. cbn [option_map andThen]. by rewrite (proj2 (Z.eqb_neq _ _) Hrex), Hz'.
Qed.

Definition is_imm (a : action) : bool := match a with MovImm _ _ => true | _ => false end.

(** The opcode of an action, as the decoder classifies it. *)
Lemma opcode_class a o l : opcode_of a = o :: l ->
  o <> 0x66 /\ Z.land o 0xf0 <> 0x40 /\ ((o =? 0x89) || (o =? 0x88) || (o =? 0xc7) || (o =? 0xc6)) = action_writes a /\
  ((o =? 0xc7) || (o =? 0xc6)) = is_imm a.
Proof. destruct a as [w|w|w v|w wide]; cbn [opcode_of]; intros [= <- <-]; by destruct (w =? 1). Qed.

Lemma form_decoded b n i k o l l' : instruction_ok i -> 0 <= k ->
  opcode_of (i_action i) = o :: l -> k + Z.of_nat (length l) < n -> drop (Z.to_nat k) b = l ++ l' ->
  mov_form b n (narrow16 (i_action i)) (rex_byte i) o k =
    accept (action_width (i_action i), action_bits (i_action i), k + Z.of_nat (length l)) /\
  drop (Z.to_nat (k + Z.of_nat (length l))) b = l'.
Proof.
  intros (_ & Hw & _) Hk Ho Hn Hd. destruct (rex_flags i) as (Hf & _). unfold mov_form. rewrite Hf. unfold rex_w, narrow16.
  destruct (i_action i) as [w|w|w v|w wide]; cbn [action_width action_bits opcode_of is_movzx] in *; simplify_eq; cbn [length app] in *.
  1-3: rewrite Z.add_0_r; split; [naive_solver|done].
  destruct (need_at b n k _ l' ltac:(lia) Hd) as [-> _]. destruct (at_cons b k _ l' Hk Hd) as [_ Hd'].
  split; [|done]. destruct Hw as [-> | ->]; by destruct wide.
Qed.

(** The parts of an operand in the order of the decoder. *)
Definition op_disp (o : operand) : disp := match o with Rip d => D32 d | Plain _ d | Sib _ _ d => d end.
Definition op_relative (o : operand) : bool := match o with Rip _ => true | _ => false end.
Definition op_absent (o : operand) : bool := match o with Rip _ | Sib None _ _ => true | _ => false end.
Definition op_skip (o : operand) : Z := match o with Sib _ _ _ => 1 | _ => 0 end.
Definition op_sum (r : list Z) (o : operand) : Z :=
  match o with
  | Rip _ => 0
  | Plain b _ => r !!! Z.to_nat b
  | Sib base index _ =>
      u64 (match base with Some b => r !!! Z.to_nat b | None => 0 end +
           match index with Some (x, s) => u64 (Z.shiftl (r !!! Z.to_nat x) s) | None => 0 end)
  end.

Record regs_ok (r : list Z) : Prop := { ro_length : length r = 16%nat; ro_words : Forall is_u64 r }.

Lemma reg_at r x : regs_ok r -> 0 <= x < 16 -> reg_of r x = accept (r !!! Z.to_nat x) /\ is_u64 (r !!! Z.to_nat x).
Proof.
  intros [Hl Hw] Hx. unfold reg_of. rewrite aget_total by lia. split; [done|]. apply Forall_lookup_total_1; [done|lia].
Qed.

Lemma op_sum_u64 r o : regs_ok r -> operand_ok o -> is_u64 (op_sum r o).
Proof.
  intros Hr Ho. destruct o as [d|b d|base index d]; cbn [op_sum]; [done| |apply u64_range]. destruct Ho as [Hb _]. by apply reg_at.
Qed.

(** The SIB byte: base, index and scale. *)
Lemma sib_decoded base index d : operand_ok (Sib base index d) ->
  let sib := sib_of base index in
  Z.land sib 7 = match base with Some b => b mod 8 | None => 5 end /\
  Z.land (Z.shiftr sib 3) 7 = match index with Some (x, _) => x mod 8 | None => 4 end /\
  Z.shiftr sib 6 = match index with Some (_, s) => s | None => 0 end.
Proof.
  intros (Hb & Hx & _) sib. set (c := match base with Some b => b mod 8 | None => 5 end).
  assert (0 <= c < 8) as Hc by (unfold c; destruct base; [apply Z.mod_pos_bound; lia|lia]).
  unfold sib, sib_of. fold c. destruct index as [[x s]|].
  - destruct (byte_fields s (x mod 8) c) as (H1 & H2 & H3); [lia|apply Z.mod_pos_bound; lia|done|done].
  - destruct (byte_fields 0 4 c) as (H1 & H2 & H3); [lia..|done].
Qed.

Lemma base_decoded b r n rex o k l : regs_ok r -> operand_ok o -> flag rex 2 = rex_x o -> flag rex 1 = rex_b o -> 0 <= k ->
  drop (Z.to_nat k) b = operand_bytes o ++ l -> k + Z.of_nat (length (operand_bytes o)) <= n ->
  mov_base b r n rex (mod_of o) (rm_of o) k = accept (op_sum r o, op_relative o, op_absent o, k + op_skip o) /\
  drop (Z.to_nat (k + op_skip o)) b = disp_bytes (op_disp o) ++ l.
Proof.
  intros Hr Ho Hx Hb Hk Hd Hn. unfold mov_base.
  destruct o as [d|base d|base index d]; cbn [rm_of mod_of op_skip op_disp op_sum op_relative op_absent operand_bytes rex_x rex_b] in *.
  - rewrite Z.add_0_r. by split.
  - destruct Ho as (Hb16 & H4 & H5 & _). rewrite Z.add_0_r. split; [|done]. rewrite (proj2 (Z.eqb_neq _ _) H4).
    replace ((disp_mod d =? 0) && (base mod 8 =? 5)) with false.
    + rewrite ext_mod by done. by destruct (reg_at r base Hr Hb16) as [-> _].
    + symmetry. apply andb_false_iff. destruct (Z.eqb_spec (base mod 8) 5) as [E|]; [left|by right]. by destruct d; [destruct (H5 E)|..].
  - destruct (sib_decoded base index d Ho) as (H7 & H37 & H6). cbn [length] in Hn. cbn [app] in Hd.
    destruct (need_at b n k _ _ ltac:(lia) Hd) as [-> _]. destruct (at_cons b k _ _ Hk Hd) as [_ Hd'].
    split; [|done]. change (4 =? 4) with true. cbv iota. unfold accept at 1. cbn [andThen]. rewrite H7, H37, H6. destruct Ho as (Hbase & Hindex & _).
    assert ((match base with Some _ => disp_mod d | None => 0 end =? 0) && (match base with Some b => b mod 8 | None => 5 end =? 5) =
      match base with Some _ => false | None => true end) as ->.
    { destruct base as [b'|]; [|done]. destruct Hbase as [_ H5]. apply andb_false_iff.
      destruct (Z.eqb_spec (b' mod 8) 5) as [E|]; [left|by right]. by destruct d; [destruct (H5 E)|..]. }
    destruct base as [b'|]; cbv iota; [rewrite (ext_mod b'), (proj1 (reg_at r b' Hr (proj1 Hbase))) by (done || apply Hbase)|];
      unfold accept at 1; cbn [andThen]; (destruct index as [[x s]|]; [|unfold ext; by rewrite Hx]);
      destruct Hindex as (Hx16 & Hx4 & Hs); rewrite ext_mod by done; rewrite (proj2 (Z.eqb_neq _ _) Hx4);
      by destruct (reg_at r x Hr Hx16) as [-> _].
Qed.

(** The displacement, added. *)
Lemma disp_decoded b n o a k l : operand_ok o -> is_u64 a -> 0 <= k ->
  drop (Z.to_nat k) b = disp_bytes (op_disp o) ++ l -> k + Z.of_nat (length (disp_bytes (op_disp o))) <= n ->
  mov_displacement b n (mod_of o) a (op_absent o) k =
    accept (u64 (a + disp_value (op_disp o)), k + Z.of_nat (length (disp_bytes (op_disp o)))) /\
  drop (Z.to_nat (k + Z.of_nat (length (disp_bytes (op_disp o))))) b = l.
Proof.
  intros Ho Ha Hk Hd Hn. unfold mov_displacement.
  assert ((if mod_of o =? 1 then 1 else if (mod_of o =? 2) || op_absent o then 4 else 0) = Z.of_nat (length (disp_bytes (op_disp o)))) as ->.
  { destruct o as [d|b' d|[b'|] x d]; [done|by destruct d..|]. destruct Ho as ([v ->] & _). done. }
  assert (disp_ok (op_disp o)) as Hok by (destruct o as [d|b' d|base x d]; [done|apply Ho..]).
  destruct (Z.ltb_spec (n - k) (Z.of_nat (length (disp_bytes (op_disp o))))); [lia|].
  destruct (op_disp o) as [|d|d]; cbn [disp_bytes disp_value disp_ok] in *.
  - cbn. rewrite !Z.add_0_r, u64_small by done. done.
  - destruct (le_at b 1 k d l Hk Hd) as [Hle Hd']. change (length (le_bytes 1 d)) with 1%nat. split; [|done].
    unfold le in Hle. cbn [load] in Hle. unfold byte. destruct (aget b k) as [x|] eqn:Hx; [|done]. cbn in Hle.
    cbn. rewrite Z.lor_0_r in Hle. injection Hle as ->. by rewrite int_of_mod by lia.
  - destruct (le_at b 4 k d l Hk Hd) as [Hle Hd']. change (length (le_bytes 4 d)) with 4%nat. split; [|done].
    cbn -[le]. rewrite Hle. cbn. by rewrite int_of_mod by lia.
Qed.

Definition high_shift (i : instruction) : Z := if i_high i then 8 else 0.

Lemma narrow_mod width x s : width = 1 \/ width = 2 \/ width = 4 -> 0 <= s ->
  narrow width (u32 (Z.shiftr x s)) = (x / 2 ^ s) mod 2 ^ (8 * width).
Proof.
  intros Hw Hs. rewrite Z.shiftr_div_pow2 by done. unfold narrow, u32.
  destruct Hw as [-> | [-> | ->]]; cbn [Z.eqb Pos.eqb]; [change 0xff with (Z.ones 8)|change 0xffff with (Z.ones 16)|done];
    rewrite Z.land_ones by lia; Z.to_euclidean_division_equations; lia.
Qed.

Lemma source_decoded b r n i k l : regs_ok r -> instruction_ok i -> 0 <= k ->
  drop (Z.to_nat k) b = imm_bytes (i_action i) ++ l -> k + Z.of_nat (length (imm_bytes (i_action i))) <= n ->
  mov_source b r n (is_imm (i_action i)) (i_reg i) (high_shift i) (action_width (i_action i)) k =
    accept (source_value r i, k + Z.of_nat (length (imm_bytes (i_action i)))).
Proof.
  intros Hr (_ & Ha & Hreg) Hk Hd Hn. unfold mov_source. assert (0 <= i_reg i < 16) as H16 by (destruct (i_high i); lia).
  destruct (reg_at r (i_reg i) Hr H16) as [-> _]. unfold accept at 1. cbn [andThen]. unfold source_value, high_shift.
  assert (0 <= if i_high i then 8 else 0) as Hs by (by destruct (i_high i)).
  destruct (i_action i) as [w|w|w v|w wide]; cbn [is_imm imm_bytes action_width length] in *.
  1,2,4: rewrite Z.add_0_r, narrow_mod by (done || lia); done.
  destruct Ha as (Hw & Hv & _). assert (Z.of_nat (Z.to_nat w) = w) as Ew by lia. rewrite <- Ew in Hd.
  assert (Z.of_nat (length (le_bytes w v)) = w) as Hlen by (unfold le_bytes; rewrite length_fmap, length_seqZ; lia). rewrite Hlen in *.
  destruct (le_at b (Z.to_nat w) k v l Hk Hd) as [Hle _]. destruct (Z.ltb_spec (n - k) w); [lia|]. rewrite Hle. cbn. by rewrite Ew, Z.mod_small.
Qed.

(** The register field of an instruction that exists, as decoded. *)
Lemma reg_decoded i : instruction_ok i ->
  Z.lor (reg_field i mod 8) (ext (rex_byte i) 4) = reg_field i /\ (is_imm (i_action i) && negb (reg_field i =? 0)) = false /\
  (if (action_bits (i_action i) =? 8) && (rex_byte i =? 0) && (4 <=? reg_field i) then (reg_field i - 4, 8) else (reg_field i, 0)) =
    (i_reg i, high_shift i).
Proof.
  intros (_ & Ha & Hreg). destruct (rex_flags i) as (_ & H4 & _ & _ & Hz & _).
  assert (0 <= reg_field i < 16) as Hf by (unfold reg_field; destruct (i_action i), (i_high i); lia).
  split; [by apply ext_mod|]. rewrite Hz. split; [unfold reg_field; by destruct (i_action i)|].
  assert (reg_field i = if i_high i then i_reg i + 4 else i_reg i) as E.
  { unfold reg_field. destruct (i_action i); try done. destruct Ha as (_ & _ & -> & ->). done. }
  rewrite E in *. unfold high_shift. destruct (i_high i).
  - destruct Hreg as (-> & Hr & ->). cbn. destruct (Z.leb_spec 4 (i_reg i + 4)); [f_equal; lia|lia].
  - destruct Hreg as [Hr H8]. destruct (Z.eqb_spec (action_bits (i_action i)) 8) as [E8|]; [|done].
    destruct (Z.leb_spec 4 (i_reg i)) as [E4|]; [by rewrite (H8 E8 E4)|by rewrite andb_false_r].
Qed.

Lemma effective_sum r rip o len : operand_ok o ->
  (if op_relative o then u64 (u64 (op_sum r o + disp_value (op_disp o)) + u64 (rip + len)) else u64 (op_sum r o + disp_value (op_disp o))) =
  effective r rip len o.
Proof.
  intros Ho. destruct o as [d|b d|base index d]; cbn [op_relative op_sum op_disp disp_value effective]; [|done|]; unfold u64.
  - rewrite <- Z.add_mod by lia. f_equal. lia.
  - rewrite Z.add_mod_idemp_l by lia. destruct index as [[x s]|]; [|done]. destruct Ho as (_ & (_ & _ & Hs) & _).
    rewrite Z.shiftl_mul_pow2 by lia. rewrite <- (Z.add_mod_idemp_l (_ + _ mod _)), Z.add_mod_idemp_r, Z.add_mod_idemp_l by lia. done.
Qed.

Lemma mod_rm_ok o : operand_ok o -> 0 <= mod_of o < 3 /\ 0 <= rm_of o < 8.
Proof.
  intros Ho. destruct o as [d|b d|[b|] x d]; cbn; try lia; try (destruct d; cbn; lia). pose proof (Z.mod_pos_bound b 8). destruct d; cbn; lia.
Qed.

Lemma length_operand o : Z.of_nat (length (operand_bytes o)) = op_skip o + Z.of_nat (length (disp_bytes (op_disp o))).
Proof. by destruct o; cbn [operand_bytes op_skip op_disp disp_bytes length]; lia. Qed.

(** From the byte after ModRM on. *)
Lemma tail_decoded b r n rip i k len rest : regs_ok r -> instruction_ok i -> 0 <= k ->
  drop (Z.to_nat k) b = operand_bytes (i_operand i) ++ imm_bytes (i_action i) ++ rest ->
  len = k + Z.of_nat (length (operand_bytes (i_operand i))) + Z.of_nat (length (imm_bytes (i_action i))) -> len <= n ->
  ('(address, relative, absent, j) <~ mov_base b r n (rex_byte i) (mod_of (i_operand i)) (rm_of (i_operand i)) k;
   '(address, j) <~ mov_displacement b n (mod_of (i_operand i)) address absent j;
   '(value, j) <~ mov_source b r n (is_imm (i_action i)) (i_reg i) (high_shift i) (action_width (i_action i)) j;
   let address := if (relative : bool) then u64 (address + u64 (rip + j)) else address in
   if canonical address
   then accept (mk_mov address value j (i_reg i) (action_width (i_action i)) (action_bits (i_action i)) (high_shift i) (action_writes (i_action i)))
   else refuse) =
  let address := effective r rip len (i_operand i) in
  if canonical address
  then accept (mk_mov address (source_value r i) len (i_reg i) (action_width (i_action i)) (action_bits (i_action i)) (high_shift i)
    (action_writes (i_action i)))
  else refuse.
Proof.
  intros Hr Hi Hk Hd Hlen Hn. pose proof Hi as (Ho & _). destruct (rex_flags i) as (_ & _ & Hx & Hb & _). rewrite length_operand in Hlen.
  destruct (base_decoded b r n (rex_byte i) (i_operand i) k _ Hr Ho Hx Hb Hk Hd) as (-> & Hd1); [rewrite length_operand; lia|].
  unfold accept at 1. cbn [andThen]. assert (0 <= op_skip (i_operand i)) as Hsk by (by destruct (i_operand i)).
  destruct (disp_decoded b n (i_operand i) (op_sum r (i_operand i)) (k + op_skip (i_operand i)) _ Ho (op_sum_u64 r _ Hr Ho) ltac:(lia) Hd1) as (-> & Hd2); [lia|].
  unfold accept at 1. cbn [andThen]. rewrite (source_decoded b r n i _ rest Hr Hi) by (done || lia). unfold accept at 1. cbn [andThen].
  replace (k + op_skip (i_operand i) + Z.of_nat (length (disp_bytes (op_disp (i_operand i)))) + _) with len by lia.
  by rewrite effective_sum.
Qed.

(** ** Theorems *)

(** A successful walk is about its whole page. The walk never leaves an
    array; the entries it records lie in memory, so the updates of their
    flags stay in the guest; the address it gives is an offset in a base
    aligned to the page (4 KiB, or 2 MiB when it stopped at the third
    level) of at most 36 bits; every other address of the page takes the
    same entries to its own offset in the same base; and a walk with a
    right is also a walk without it. *)
Theorem walk_page_exact m cr3 va write execute :
  mem_ok m -> is_u64 va -> is_u64 cr3 ->
  exists x, aos_x86_walk m cr3 va write execute = Some x /\
    forall w, x = Some w ->
      Forall (fun e => 0 <= e /\ e + 8 <= ram_size m) (entries w) /\
      aos_x86_walk m cr3 va false false = Some (Some w) /\
      exists base, 0 <= base < 2 ^ 36 /\ base mod 2 ^ page_shift w = 0 /\ physical w = base + va mod 2 ^ page_shift w /\
        forall va', va' / 2 ^ page_shift w = va / 2 ^ page_shift w ->
          aos_x86_walk m cr3 va' write execute = Some (Some (mk_walk (base + va' mod 2 ^ page_shift w) (entries w))).
Proof.
  intros Hm [Hva _] [Hcr _]. destruct (walk_total m cr3 va write execute Hm Hva Hcr) as (x & Hx & Hpage). exists x. split; [done|].
  intros w Hw. destruct (Hpage w Hw) as [base [[Hb Hmod] Hph [Hent _] Hall]]. split; [done|]. split; [|by exists base].
  subst x. unfold aos_x86_walk in *. destruct (negb (canonical va) || _); [done|]. by eapply walk_level_read.
Qed.

(** C24. The decoder inverts the encoder: for every MOV between a register or
    an immediate and memory (widths 1, 2 and 4, zero extension from 1 and 2,
    any of the sixteen registers or a second byte, any base, index, scale
    and displacement, or relative to the next instruction, with and without
    prefixes), decoding its bytes, whatever follows them, gives the
    effective address, the source value, the register, the widths and the
    length of the instruction, and reads no byte past it; the address is
    refused exactly when it is not canonical. *)
Theorem mov_roundtrip r rip i rest n :
  regs_ok r -> instruction_ok i -> Z.of_nat (length (encode_mov i)) <= n <= 15 ->
  aos_x86_decode_mov (encode_mov i ++ rest) n rip r =
    if canonical (effective r rip (Z.of_nat (length (encode_mov i))) (i_operand i)) then accept (meaning r rip i) else refuse.
Proof.
  intros Hr Hi Hn. pose proof Hi as (Ho & _). destruct (rex_flags i) as (_ & _ & Hx & Hb & _). destruct (reg_decoded i Hi) as (Hreg & Himm & Hhigh).
  destruct (opcode_of (i_action i)) as [|o ops] eqn:Eop; [by destruct (i_action i)|].
  set (len := Z.of_nat (length (encode_mov i))) in *. set (b := encode_mov i ++ rest).
  set (modrm := mod_of (i_operand i) * 64 + reg_field i mod 8 * 8 + rm_of (i_operand i)).
  assert (drop 0 b = prefix_bytes i ++ o :: (ops ++ modrm :: operand_bytes (i_operand i) ++ imm_bytes (i_action i) ++ rest)) as Hd0.
  { rewrite drop_0. unfold b, encode_mov. rewrite Eop. fold modrm. rewrite <- !app_assoc. cbn [app]. by rewrite <- !app_assoc. }
  assert (len = Z.of_nat (length (prefix_bytes i)) + 1 + Z.of_nat (length ops) + 1 + Z.of_nat (length (operand_bytes (i_operand i))) +
    Z.of_nat (length (imm_bytes (i_action i)))) as Hlen.
  { unfold len, encode_mov. rewrite Eop, !length_app. cbn [length]. rewrite length_app. lia. }
  set (k0 := Z.of_nat (length (prefix_bytes i))) in *. assert (0 <= k0) as Hk0 by (unfold k0; lia).
  unfold aos_x86_decode_mov. replace ((n =? 0) || (15 <? n)) with false by lia.
  destruct (opcode_class _ _ _ Eop) as (H66 & H40 & Hwr & Hi').
  destruct (prefix_decoded b n i o _ Hd0 ltac:(lia) H66 H40) as (-> & Hop & Hd1). fold k0 in Hop, Hd1 |- *.
  unfold accept at 1. cbn [andThen]. rewrite Hop. unfold accept at 1. cbn [andThen]. rewrite Hwr, Hi'.
  destruct (form_decoded b n i (k0 + 1) o ops _ Hi ltac:(lia) Eop ltac:(lia) Hd1) as (-> & Hd2). unfold accept at 1. cbn [andThen].
  destruct (need_at b n (k0 + 1 + Z.of_nat (length ops)) modrm _ ltac:(lia) Hd2) as [-> _].
  destruct (at_cons b (k0 + 1 + Z.of_nat (length ops)) modrm _ ltac:(lia) Hd2) as [_ Hd3]. unfold accept at 1. cbn [andThen].
  destruct (mod_rm_ok _ Ho) as [Hmod Hrm].
  destruct (byte_fields (mod_of (i_operand i)) (reg_field i mod 8) (rm_of (i_operand i))) as (Hf1 & Hf2 & Hf3); [lia|apply Z.mod_pos_bound; lia|done|].
  fold modrm in Hf1, Hf2, Hf3. rewrite Hf1, Hf2, Hf3, Hreg. replace (mod_of (i_operand i) =? 3) with false by lia. rewrite Himm. cbn [orb]. rewrite Hhigh.
  by rewrite (tail_decoded b r n rip i _ len rest Hr Hi) by (done || lia).
Qed.

(** ** Examples *)

(** A small memory whose first entry maps its own page at every level. *)
Definition example_paging : memory := mk_memory ([7; 0; 0; 0; 0; 0; 0; 0] ++ replicate 16 0) None 24 0 0.

Lemma example_paging_ok : mem_ok example_paging.
Proof. split; [by vm_compute| |done|done]. by apply (bool_decide_unpack _); vm_compute. Qed.

Lemma walk_page_exact_witness :
  aos_x86_walk example_paging 0 0x10 true false = Some (Some (mk_walk 0x10 [0; 0; 0; 0])) /\
  exists base, forall va', va' / 2 ^ 12 = 0x10 / 2 ^ 12 ->
    aos_x86_walk example_paging 0 va' true false = Some (Some (mk_walk (base + va' mod 2 ^ 12) [0; 0; 0; 0])).
Proof.
  split; [by vm_compute|].
  destruct (walk_page_exact example_paging 0 0x10 true false) as (x & Hx & H); [apply example_paging_ok|done..|].
  assert (x = Some (mk_walk 0x10 [0; 0; 0; 0])) as -> by (vm_compute in Hx; by injection Hx).
  destruct (H _ eq_refl) as (_ & _ & base & _ & _ & _ & Hall). by exists base.
Defined.

(** MOV \[rbx + 4 * rcx + 16\], eax *)
Definition example_mov : instruction := mk_instruction (MovStore 4) 0 false (Sib (Some 3) (Some (1, 2)) (D8 16)) false.
Definition example_regs : list Z := [0x11223344; 2; 0; 0x1000] ++ replicate 12 0.

Lemma mov_roundtrip_witness :
  encode_mov example_mov = [0x89; 0x44; 0x8b; 0x10] /\
  aos_x86_decode_mov ([0x89; 0x44; 0x8b; 0x10] ++ [0x90]) 5 0 example_regs = accept (mk_mov 0x1018 0x11223344 4 0 4 32 0 true).
Proof.
  split; [by vm_compute|]. change [0x89; 0x44; 0x8b; 0x10] with (encode_mov example_mov).
  rewrite (mov_roundtrip example_regs 0 example_mov [0x90] 5); [by vm_compute| | |by vm_compute].
  - split; [done|]. by apply (bool_decide_unpack _); vm_compute.
  - split; [by split_and!|]. split; [by right; right|]. by split.
Defined.
