(* ===== verification/X86String.v ===== *)
(** * Bulk reads of the firmware configuration device

    [platform/guest-vmm/x86_string.c] and its header: the two ways in which a
    guest takes many bytes from the device behind ports 0x510 and 0x511. A
    DMA descriptor in guest memory, started through ports 0x514 and 0x518,
    and one bounded batch of the instruction REP INSB, which walks the page
    tables once for each page, stages everything and then commits.

    [None] is an access outside an array; a call that the C code refuses with
    [false] is [Some None]. *)

From S2P Require Import Prelude BitSet Bytes X86Rtc X86Config X86Memory.
From stdpp Require Import options.

#[local] Open Scope Z_scope.

Definition AOS_X86_STRING_BATCH : Z := 16384.

Definition set_ram (l : list Z) (m : memory) : memory := mk_memory l (m_rom m) (ram_size m) (rom_base m) (rom_size m).

(** ** The DMA address register *)

Definition swap32 (n : Z) : Z :=
  Z.lor (Z.lor (Z.lor (Z.shiftl (Z.land n 0xff) 24) (Z.shiftl (Z.land n 0xff00) 8)) (Z.land (Z.shiftr n 8) 0xff00)) (Z.shiftr n 24).

Definition be32 (p : list Z) (i : Z) : option Z :=
  a ← aget p i; b ← aget p (i + 1); c ← aget p (i + 2); d ← aget p (i + 3);
  Some (Z.lor (Z.lor (Z.lor (Z.shiftl a 24) (Z.shiftl b 16)) (Z.shiftl c 8)) d).
Definition be64 (p : list Z) (i : Z) : option Z :=
  h ← be32 p i; l ← be32 p (i + 4); Some (Z.lor (Z.shiftl h 32) l).
Definition put_be32 (p : list Z) (i n : Z) : option (list Z) :=
  p ← aset p i (u8 (Z.shiftr n 24)); p ← aset p (i + 1) (u8 (Z.shiftr n 16));
  p ← aset p (i + 2) (u8 (Z.shiftr n 8)); aset p (i + 3) (u8 n).

(** A copy into memory; the caller has checked the range. *)
Definition store_range (p : list Z) (i : Z) (l : list Z) : option (list Z) :=
  if (0 <=? i) && (i + Z.of_nat (length l) <=? Z.of_nat (length p)) then Some (list_inserts (Z.to_nat i) l p) else None.

Definition set_dma_address (v : Z) (s : config) : config :=
  let f := c_fw s in set_fw (mk_fw (fw_selector f) (fw_offset f) (fw_reads f) (boot_reads f) v) s.

(** The transfer that a descriptor asks for: the configuration and the memory
    after it, and whether it was valid. *)
Definition dma_transfer (m : memory) (config : config) (control length destination : Z) : option (bool * X86Config.config * list Z) :=
  let read := flag control 2 in
  let valid := negb (length =? 0) && (length <=? AOS_X86_BOOT_BLOB_LIMIT) &&
    (negb read || ((destination <=? ram_size m) && (length <=? ram_size m - destination))) in
  if negb valid then Some (false, config, m_ram m) else
  r ← aos_x86_config_dma config control read length;
  match r with
  | None => Some (false, config, m_ram m)
  | Some (l, next) => ram ← (if read then store_range (m_ram m) destination l else Some (m_ram m)); Some (true, next, ram)
  end.

Definition aos_x86_fw_dma_io (m : memory) (config : config) (port width : Z) (write : bool) (value : Z) :
    option (option (Z * X86Config.config * memory)) :=
  if negb (width =? 4) || (negb (port =? 0x514) && negb (port =? 0x518)) then Some None
  else if negb write then Some (Some (swap32 (if port =? 0x514 then 0x51454d55 else 0x20434647), config, m))
  else
    let half := swap32 value in
    if port =? 0x514 then Some (Some (value, set_dma_address (Z.shiftl half 32) config, m)) else
    let descriptor := Z.lor (fw_dma_address (c_fw config)) half in
    let config := set_dma_address 0 config in
    if (ram_size m <? descriptor) || (ram_size m - descriptor <? 16) then Some (Some (value, config, m)) else
    control ← be32 (m_ram m) descriptor;
    length ← be32 (m_ram m) (descriptor + 4);
    destination ← be64 (m_ram m) (descriptor + 8);
    t ← dma_transfer m config control length destination;
    let '(valid, config, ram) := (t : bool * X86Config.config * list Z) in
    ram ← put_be32 ram descriptor (if valid then 0 else 1);
    Some (Some (value, config, set_ram ram m)).

(** ** REP INSB *)

#[local] Open Scope attempt_scope.

Record segment := mk_segment { seg_physical : Z; seg_start : Z; seg_length : Z }.

(** The entries to update, each with its accessed and dirty flags. *)
Definition table : Type := list (Z * Z).

Fixpoint mark (t : table) (e f : Z) : table :=
  match t with
  | [] => [(e, f)]
  | (e', f') :: t => if e' =? e then (e', Z.lor f' f) :: t else (e', f') :: mark t e f
  end.
Definition mark_bounded (t : table) (e f : Z) : attempt table :=
  if negb (bool_decide (e ∈ t.*1)) && bool_decide (length t = 32%nat) then refuse else accept (mark t e f).
Fixpoint mark_levels (t : table) (l : list Z) : attempt table :=
  match l with
  | [] => accept t
  | e :: l => t <~ mark_bounded t e (if l is [] then 0x60 else 0x20); mark_levels t l
  end.

Definition insb_va (address : Z) (backwards : bool) (i : Z) : Z := if backwards then address - i else address + i.

(** The bytes of a page from an address on, bounded by what is left. *)
Definition insb_run (w : walk) (va : Z) (backwards : bool) (left_ : Z) : Z :=
  let shift := if levels w =? 3 then 21 else 12 in
  let mask := Z.shiftl 1 shift - 1 in
  let offset := Z.land va mask in
  let available := if backwards then offset + 1 else mask + 1 - offset in
  if left_ <? available then left_ else available.

Fixpoint insb_scan (fuel : nat) (m : memory) (cr3 address n : Z) (backwards : bool) (i : Z) (segments : list segment) (t : table) :
    attempt (list segment * table) :=
  match fuel with
  | O => None
  | S fuel =>
      if negb (i <? n) then accept (segments, t) else
      let va := insb_va address backwards i in
      w <~ aos_x86_walk m cr3 va true false;
      if ram_size m <=? physical w then refuse else
      let run := insb_run w va backwards (n - i) in
      if (ram_size m <? run) || (ram_size m - run <? physical w) || (backwards && (physical w + 1 <? run)) then refuse
      else if bool_decide (length segments = 5%nat) then refuse
      else
        t <~ mark_levels t (entries w);
        insb_scan fuel m cr3 address n backwards (i + run) (segments ++ [mk_segment (physical w) i run]) t
  end.

(** The bytes staged from the device. *)
Fixpoint insb_bytes (s : config) (n : nat) : attempt (list Z * config) :=
  match n with
  | O => accept ([], s)
  | S n =>
      '(v, s) <~ aos_x86_config_io s 0x511 1 false 0 0;
      '(l, s) <~ insb_bytes s n;
      accept (u8 v :: l, s)
  end.

(** The commit: flags first, then data. *)
Fixpoint commit_marks (ram : list Z) (t : table) : option (list Z) :=
  match t with
  | [] => Some ram
  | (e, f) :: t => b ← aget ram e; ram ← aset ram e (Z.lor b f); commit_marks ram t
  end.
Fixpoint commit_run (ram bytes : list Z) (physical start : Z) (backwards : bool) (j : Z) (n : nat) : option (list Z) :=
  match n with
  | O => Some ram
  | S n =>
      b ← aget bytes (start + j);
      ram ← aset ram (if backwards then physical - j else physical + j) b;
      commit_run ram bytes physical start backwards (j + 1) n
  end.
Fixpoint commit_segments (ram bytes : list Z) (backwards : bool) (l : list segment) : option (list Z) :=
  match l with
  | [] => Some ram
  | g :: l =>
      ram ← commit_run ram bytes (seg_physical g) (seg_start g) backwards 0 (Z.to_nat (seg_length g));
      commit_segments ram bytes backwards l
  end.

Definition insb_commit (ram bytes : list Z) (backwards : bool) (segments : list segment) (t : table) : option (list Z) :=
  ram ← commit_marks ram t; commit_segments ram bytes backwards segments.

Definition aos_x86_fw_insb (m : memory) (cr3 : Z) (config : config) (address count : Z) (backwards : bool) :
    attempt (memory * X86Config.config * Z * Z) :=
  let n := if AOS_X86_STRING_BATCH <? count then AOS_X86_STRING_BATCH else count in
  if n =? 0 then accept (m, config, address, count)
  else if (if backwards then address <? n else UINT64_MAX - n <? address) then refuse
  else
    '(segments, t) <~ insb_scan (S (Z.to_nat n)) m cr3 address n backwards 0 [] [];
    '(bytes, next) <~ insb_bytes config (Z.to_nat n);
    match insb_commit (m_ram m) bytes backwards segments t with
    | None => None
    | Some ram => accept (set_ram ram m, next, if backwards then address - n else address + n, count - n)
    end.

(** ** The reference: a byte at a time *)

(** The flags that a store sets in the entries of its walk: accessed in each,
    dirty in the last. *)
Fixpoint flags_of (l : list Z) : table :=
  match l with
  | [] => []
  | e :: l => (e, if l is [] then 0x60 else 0x20) :: flags_of l
  end.

Definition touch (ram : list Z) (x : Z * Z) : list Z := alter (fun b => Z.lor b (snd x)) (Z.to_nat (fst x)) ram.
Definition store (ram : list Z) (x : Z * Z) : list Z := <[Z.to_nat (fst x) := snd x]> ram.

Definition byte_walk (m : memory) (cr3 va : Z) : option walk :=
  match aos_x86_walk m cr3 va true false with
  | Some (Some w) => if physical w <? ram_size m then Some w else None
  | _ => None
  end.

(** Every byte of the batch has its own walk and its own store; nothing
    happens unless every walk succeeds. *)
Definition insb_reference (m : memory) (cr3 : Z) (config : config) (address count : Z) (backwards : bool) :
    option (memory * X86Config.config * Z * Z) :=
  let n := Z.min count AOS_X86_STRING_BATCH in
  if n =? 0 then Some (m, config, address, count) else
  if (if backwards then address <? n else UINT64_MAX - n <? address) then None else
  ws ← mapM (fun i => byte_walk m cr3 (insb_va address backwards i)) (seqZ 0 n);
  '(bytes, next) ← pio_reads config 0 (Z.to_nat n);
  let touched := foldl touch (m_ram m) (concat ((fun w => flags_of (entries w)) <$> ws)) in
  let ram := foldl store touched (zip (physical <$> ws) bytes) in
  Some (set_ram ram m, next, insb_va address backwards n, count - n).

(** ** Marks *)

(** The flags that a table sets at an address. *)
Fixpoint acc (t : table) (x : Z) : Z :=
  match t with [] => 0 | (e, f) :: t => Z.lor (if e =? x then f else 0) (acc t x) end.

Lemma acc_app t t' x : acc (t ++ t') x = Z.lor (acc t x) (acc t' x).
Proof. induction t as [|[e f] t IH]; [done|]. cbn. by rewrite IH, Z.lor_assoc. Qed.

Lemma acc_mark t e f x : acc (mark t e f) x = Z.lor (acc t x) (if e =? x then f else 0).
Proof.
  induction t as [|[e' f'] t IH]; cbn; [by rewrite Z.lor_0_r|]. destruct (Z.eqb_spec e' e) as [->|]; cbn.
  - case_match; [|by rewrite Z.lor_0_r]. rewrite <- !Z.lor_assoc. f_equal. apply Z.lor_comm.
  - by rewrite IH, Z.lor_assoc.
Qed.

Lemma acc_marks l : forall t x, acc (foldl (fun t p => mark t (fst p) (snd p)) t l) x = Z.lor (acc t x) (acc l x).
Proof.
  induction l as [|[e f] l IH]; intros t x; cbn; [by rewrite Z.lor_0_r|]. by rewrite IH, acc_mark, Z.lor_assoc.
Qed.

Lemma acc_repeat t x n : (0 < n)%nat -> acc (concat (replicate n t)) x = acc t x.
Proof.
  intros Hn. destruct n as [|n]; [lia|]. clear Hn. induction n as [|n IH]; [cbn; by rewrite app_nil_r|].
  rewrite replicate_S. cbn [concat]. rewrite acc_app, IH. apply Z.lor_diag.
Qed.

Lemma length_mark t e f : (length (mark t e f) <= S (length t))%nat /\ Forall (fun p => fst p = e \/ p.1 ∈ t.*1) (mark t e f).
Proof.
  induction t as [|[e' f'] t [IH IH']]; cbn; [split; [lia|]; by repeat constructor; left|].
  destruct (Z.eqb_spec e' e) as [->|]; cbn.
  - split; [lia|]. constructor; [by left|]. apply Forall_forall. intros p Hp. right. set_solver.
  - split; [lia|]. constructor; [right; set_solver|]. eapply Forall_impl; [done|]. intros p [->|Hp]; [by left|right; set_solver].
Qed.

Lemma touch_lookup l : forall ram x, 0 <= x -> Forall (fun p => 0 <= fst p) l ->
  foldl touch ram l !! Z.to_nat x = (fun b => Z.lor b (acc l x)) <$> ram !! Z.to_nat x.
Proof.
  induction l as [|[e f] l IH]; intros ram x Hx Hl; cbn [foldl acc].
  - destruct (ram !! Z.to_nat x); cbn; [by rewrite Z.lor_0_r|done].
  - apply Forall_cons in Hl as [He Hl]. rewrite IH by done. unfold touch. cbn [fst snd] in *. destruct (Z.eqb_spec e x) as [->|].
    + rewrite list_lookup_alter_eq. destruct (ram !! Z.to_nat x); cbn; [by rewrite Z.lor_assoc|done].
    + rewrite list_lookup_alter_ne by lia. by rewrite Z.lor_0_l.
Qed.

Lemma length_touch l : forall ram, length (foldl touch ram l) = length ram.
Proof. induction l as [|x l IH]; intros ram; [done|]. cbn. rewrite IH. apply length_alter. Qed.

(** Tables with the same flags everywhere have the same effect. *)
Lemma touch_same l l' ram : Forall (fun p => 0 <= fst p) l -> Forall (fun p => 0 <= fst p) l' ->
  (forall x, acc l x = acc l' x) -> foldl touch ram l = foldl touch ram l'.
Proof.
  intros Hl Hl' H. apply list_eq. intros k. rewrite <- (Nat2Z.id k), !touch_lookup by (done || lia). by rewrite H.
Qed.

Lemma commit_marks_run t : forall ram, Forall (fun p => 0 <= fst p < Z.of_nat (length ram)) t ->
  commit_marks ram t = Some (foldl touch ram t).
Proof.
  induction t as [|[e f] t IH]; intros ram Ht; [done|]. apply Forall_cons in Ht as [He Ht]. cbn [commit_marks foldl fst] in *.
  destruct (aget_lt ram e He) as [b Hb]. rewrite Hb. cbn [mbind option_bind]. rewrite aset_Some by done. cbn [mbind option_bind].
  assert (<[Z.to_nat e := Z.lor b f]> ram = touch ram (e, f)) as ->.
  { unfold touch. cbn. apply aget_Some in Hb as [_ Hb]. apply list_eq. intros k. destruct (decide (k = Z.to_nat e)) as [->|].
    - rewrite list_lookup_insert_eq, list_lookup_alter_eq, Hb by lia. done.
    - by rewrite list_lookup_insert_ne, list_lookup_alter_ne. }
  apply IH. unfold touch. by rewrite length_alter.
Qed.

(** ** Stores *)

Definition seg_addresses (backwards : bool) (g : segment) : list Z :=
  (fun j => if backwards then seg_physical g - j else seg_physical g + j) <$> seqZ 0 (seg_length g).

(** Consecutive segments from a position. *)
Fixpoint chained (i : Z) (l : list segment) : Prop :=
  match l with [] => True | g :: l => seg_start g = i /\ 0 <= seg_length g /\ chained (i + seg_length g) l end.

Lemma length_store l : forall ram, length (foldl store ram l) = length ram.
Proof. induction l as [|x l IH]; intros ram; [done|]. cbn. rewrite IH. apply length_insert. Qed.

Lemma commit_run_store (bytes : list Z) (p0 start : Z) (backwards : bool) n : forall (ram : list Z) j,
  0 <= start -> 0 <= j -> start + j + Z.of_nat n <= Z.of_nat (length bytes) ->
  let ps := (fun j => if backwards then p0 - j else p0 + j) <$> seqZ j (Z.of_nat n) in
  Forall (fun p => 0 <= p < Z.of_nat (length ram)) ps ->
  commit_run ram bytes p0 start backwards j n = Some (foldl store ram (zip ps (drop (Z.to_nat (start + j)) bytes))).
Proof.
  induction n as [|n IH]; intros ram j Hs Hj Hn ps Hps; [done|]. cbn [commit_run].
  destruct (aget_lt bytes (start + j)) as [b Hb]; [lia|]. rewrite Hb. cbn [mbind option_bind]. unfold ps in *. clear ps.
  rewrite seqZ_cons in * by lia. replace (Z.pred (Z.of_nat (S n))) with (Z.of_nat n) in * by lia. rewrite fmap_cons in *.
  apply Forall_cons in Hps as [Hp Hps]. rewrite aset_Some by done. cbn [mbind option_bind].
  rewrite IH; [|lia..|by rewrite length_insert]. apply aget_Some in Hb as [_ Hb]. rewrite (drop_S _ _ _ Hb). cbn [zip zip_with foldl].
  replace (S (Z.to_nat (start + j))) with (Z.to_nat (start + (j + 1))) by lia. done.
Qed.

Lemma zip_app_l {A B} (a b : list A) (l : list B) : (length a <= length l)%nat -> zip (a ++ b) l = zip a l ++ zip b (drop (length a) l).
Proof.
  revert l. induction a as [|x a IH]; intros l Hl; [by destruct l|]. destruct l as [|y l]; cbn in *; [lia|]. by rewrite IH by lia.
Qed.

Lemma length_addresses backwards g : Z.of_nat (length (seg_addresses backwards g)) = Z.max 0 (seg_length g).
Proof. unfold seg_addresses. rewrite length_fmap, length_seqZ. lia. Qed.

Lemma commit_segments_store bytes backwards l : forall ram i,
  0 <= i -> chained i l -> let ps := concat (seg_addresses backwards <$> l) in
  i + Z.of_nat (length ps) <= Z.of_nat (length bytes) -> Forall (fun p => 0 <= p < Z.of_nat (length ram)) ps ->
  commit_segments ram bytes backwards l = Some (foldl store ram (zip ps (drop (Z.to_nat i) bytes))).
Proof.
  induction l as [|g l IH]; intros ram i Hi Hc ps Hlen Hps; [done|]. destruct Hc as (Hst & Hg & Hc).
  unfold ps in *. clear ps. cbn [fmap list_fmap concat] in *. fold (seg_addresses backwards <$> l) in *.
  rewrite length_app in Hlen. apply Forall_app in Hps as [Hp Hps]. pose proof (length_addresses backwards g) as Hl. cbn [commit_segments].
  rewrite commit_run_store; [|lia..|by rewrite Z2Nat.id by lia]. cbn [mbind option_bind]. rewrite Z2Nat.id by lia.
  fold (seg_addresses backwards g). rewrite (IH _ (i + seg_length g)); [|lia|done|lia|by rewrite length_store].
  rewrite zip_app_l by (rewrite length_drop; lia). rewrite foldl_app, drop_drop, Hst, Z.add_0_r. do 3 f_equal. f_equal. lia.
Qed.

(** ** The scan *)

Lemma mark_levels_run l : forall t, (length t + length l <= 32)%nat ->
  mark_levels t l = accept (foldl (fun t p => mark t (fst p) (snd p)) t (flags_of l)).
Proof.
  induction l as [|e l IH]; intros t Ht; [done|]. cbn [mark_levels flags_of foldl fst snd length] in *. unfold mark_bounded.
  rewrite (bool_decide_eq_false_2 (length t = 32%nat)) by lia. rewrite andb_false_r. unfold accept at 1. cbn [andThen].
  rewrite IH; [done|]. pose proof (length_mark t e (if l is [] then 0x60 else 0x20)) as [? _]. lia.
Qed.

Lemma marks_ok l (P : Z -> Prop) : forall t, Forall (fun p => P (fst p)) t -> Forall (fun p => P (fst p)) l ->
  let t' := foldl (fun t p => mark t (fst p) (snd p)) t l in
  Forall (fun p => P (fst p)) t' /\ (length t' <= length t + length l)%nat.
Proof.
  induction l as [|[e f] l IH]; intros t Ht Hl; cbn [foldl fst snd length]; [split; [done|lia]|].
  apply Forall_cons in Hl as [He Hl]. destruct (length_mark t e f) as [Hm Hin].
  destruct (IH (mark t e f)) as [H1 H2]; [|done|split; [done|lia]]. eapply Forall_impl; [done|]. intros p [->|Hp]; [done|].
  apply list_elem_of_fmap in Hp as (q & -> & Hq). rewrite Forall_forall in Ht. by apply Ht.
Qed.

Lemma flags_of_ok l (P : Z -> Prop) : Forall P l -> Forall (fun p => P (fst p)) (flags_of l) /\ length (flags_of l) = length l.
Proof. induction 1 as [|e l He Hl [IH IH']]; [by split|]. cbn. split; [by constructor|lia]. Qed.

Lemma mapM_app {A B} (f : A -> option B) l k : mapM f (l ++ k) = (x ← mapM f l; y ← mapM f k; Some (x ++ y)).
Proof.
  induction l as [|a l IH]; cbn; [by destruct (mapM f k)|]. destruct (f a); [|done]. cbn. rewrite IH.
  destruct (mapM f l); [|done]. cbn. by destruct (mapM f k).
Qed.

Section scan.
Context (m : memory) (cr3 address n : Z) (backwards : bool).
Context (Hm : mem_ok m) (Hcr : 0 <= cr3) (Hn : 0 < n <= AOS_X86_STRING_BATCH).
Context (Hrange : if backwards then n <= address else 0 <= address).

#[local] Abbreviation va := (insb_va address backwards).

Definition along (p j : Z) : Z := if backwards then p - j else p + j.
Definition aligned (i : Z) : Prop := va i mod 4096 = if backwards then 4095 else 0.

Lemma va_nonneg i : 0 <= i < n -> 0 <= va i.
Proof using Hrange. unfold insb_va. destruct backwards; lia. Qed.

(** One walk stands for the walks of its run. *)
Lemma page_run i w : 0 <= i < n -> aos_x86_walk m cr3 (va i) true false = Some (Some w) ->
  let run := insb_run w (va i) backwards (n - i) in
  1 <= run <= n - i /\ (run < n - i -> aligned (i + run)) /\ (aligned i -> run < n - i -> 4096 <= run) /\
  0 <= physical w /\ (backwards = true -> run <= physical w + 1) /\
  (Forall (entry_ok m) (entries w) /\ 3 <= levels w <= 4) /\
  forall j, 0 <= j < run -> aos_x86_walk m cr3 (va (i + j)) true false = Some (Some (mk_walk (along (physical w) j) (entries w))).
Proof using Hm Hcr Hn Hrange.
  intros Hi Hw run. pose proof (va_nonneg i Hi) as Hva. destruct (walk_total m cr3 (va i) true false Hm Hva Hcr) as (x & Hx & Hpage).
  rewrite Hw in Hx. injection Hx as <-. destruct (Hpage w eq_refl) as [base [[Hb Hbm] Hph Hent Hwalk]]. rewrite Hph.
  set (P := 2 ^ page_shift w) in *. assert (P = 4096 \/ P = 2097152) as HP by (unfold P, page_shift; destruct (levels w =? 3); [by right|by left]).
  assert (run = Z.min (n - i) (if backwards then va i mod P + 1 else P - va i mod P)) as Hrun.
  { unfold run, insb_run. fold (page_shift w). rewrite Z.shiftl_1_l. fold P.
    replace (Z.land (va i) (P - 1)) with (va i mod P).
    - destruct backwards; case_match eqn:E; lia.
    - unfold P. rewrite <- Z.land_ones by (unfold page_shift; destruct (levels w =? 3); lia). by rewrite Z.ones_equiv, Z.sub_1_r. }
  assert (forall j, va (i + j) = if backwards then va i - j else va i + j) as Hvaj by (intros j; unfold insb_va; destruct backwards; lia).
  assert (0 <= va i mod P < P) as Hmod by (apply Z.mod_pos_bound; lia).
  rewrite Hrun. split; [destruct backwards; lia|]. split; [|split; [|split; [lia|split; [|split; [done|]]]]].
  - intros Hlt. unfold aligned. rewrite Hvaj. destruct backwards, HP as [E|E]; rewrite E in *; Z.to_euclidean_division_equations; lia.
  - unfold aligned. intros Ha Hlt. destruct backwards, HP as [E|E]; rewrite E in *; Z.to_euclidean_division_equations; lia.
  - intros Ebw. rewrite Ebw. lia.
  - intros j Hj. rewrite (Hwalk (va (i + j))); rewrite Hvaj; unfold along.
    + do 3 f_equal. destruct backwards, HP as [E|E]; rewrite E in *; Z.to_euclidean_division_equations; lia.
    + destruct backwards, HP as [E|E]; rewrite E in *; Z.to_euclidean_division_equations; lia.
Qed.
#[local] Abbreviation ref := (fun i => byte_walk m cr3 (va i)).

Definition run_of (w : walk) (run : Z) : list walk := (fun j => mk_walk (along (physical w) j) (entries w)) <$> seqZ 0 run.

Lemma run_walks i w run : 
  (forall j, 0 <= j < run -> aos_x86_walk m cr3 (va (i + j)) true false = Some (Some (mk_walk (along (physical w) j) (entries w)))) ->
  (forall j, 0 <= j < run -> along (physical w) j < ram_size m) -> mapM ref (seqZ i run) = Some (run_of w run).
Proof.
  intros Hw Hr. rewrite <- (Z.add_0_r i), <- (fmap_add_seqZ i 0). apply mapM_Some, Forall2_fmap_2, Forall_Forall2_diag, Forall_forall.
  intros j Hj%elem_of_seqZ. unfold byte_walk. rewrite Hw by lia. cbn [physical]. by rewrite (proj2 (Z.ltb_lt _ _) (Hr j ltac:(lia))).
Qed.

Lemma walks_none i k : i <= k < n -> ref k = None -> mapM ref (seqZ i (n - i)) = None.
Proof. intros Hk Hnone. apply mapM_None_2, Exists_exists. exists k. split; [apply elem_of_seqZ; lia|done]. Qed.

(** What the scan has recorded when it reaches a position. *)
Record scanned (i : Z) (segments : list segment) (t : table) : Prop := {
  sc_first : segments <> [] -> i < n -> 1 + 4096 * (Z.of_nat (length segments) - 1) <= i /\ aligned i;
  sc_table : (length t <= 4 * length segments)%nat;
  sc_entries : Forall (fun p => entry_ok m (fst p)) t }.

(** What the rest of the scan adds: segments that cover the rest, whose
    addresses and flags are those of the walks of every byte. *)
Definition scan_result (i : Z) (segments : list segment) (t : table) (x : option (list segment * table)) : Prop :=
  match x with
  | None => backwards = true \/ mapM ref (seqZ i (n - i)) = None
  | Some (segments', t') => exists l ws, segments' = segments ++ l /\ chained i l /\
      mapM ref (seqZ i (n - i)) = Some ws /\ physical <$> ws = concat (seg_addresses backwards <$> l) /\
      (forall x, acc t' x = Z.lor (acc t x) (acc (concat ((fun w => flags_of (entries w)) <$> ws)) x)) /\
      Forall (fun p => entry_ok m (fst p)) t' /\
      Forall (fun w => Forall (entry_ok m) (entries w) /\ 0 <= physical w < ram_size m) ws
  end.

Lemma walks_split i run : 0 <= run <= n - i ->
  mapM ref (seqZ i (n - i)) = (a ← mapM ref (seqZ i run); b ← mapM ref (seqZ (i + run) (n - (i + run))); Some (a ++ b)).
Proof. intros Hr. rewrite <- mapM_app, <- seqZ_app by lia. do 2 f_equal. lia. Qed.

Lemma scan_extend i segments t t1 w run x :
  1 <= run <= n - i -> mapM ref (seqZ i run) = Some (run_of w run) ->
  (forall j, 0 <= j < run -> 0 <= along (physical w) j < ram_size m) -> Forall (entry_ok m) (entries w) ->
  (forall x, acc t1 x = Z.lor (acc t x) (acc (flags_of (entries w)) x)) ->
  scan_result (i + run) (segments ++ [mk_segment (physical w) i run]) t1 x -> scan_result i segments t x.
Proof.
  intros Hrun Hws Hin Hent Hacc. unfold scan_result. rewrite (walks_split i run), Hws by lia. cbn [mbind option_bind].
  destruct x as [[segments' t']|]; [|intros [?| ->]; auto].
  intros (l & ws & -> & Hch & -> & Hph & Hacc' & Ht' & Hall). exists (mk_segment (physical w) i run :: l), (run_of w run ++ ws).
  split; [by rewrite <- app_assoc|]. split; [by cbn; split_and!; [done|lia|done]|]. split; [done|]. split.
  { rewrite fmap_app, Hph. cbn. f_equal. unfold run_of, seg_addresses. by rewrite <- list_fmap_compose. }
  split; [|split; [done|]].
  - intros y. rewrite Hacc', Hacc, fmap_app, concat_app, acc_app, Z.lor_assoc. do 2 f_equal. unfold run_of. rewrite <- list_fmap_compose.
    unfold compose. cbn [entries]. rewrite const_fmap with (y := flags_of (entries w)) by done.
    by rewrite acc_repeat by (rewrite length_seqZ; lia).
  - apply Forall_app. split; [|done]. unfold run_of. apply Forall_fmap, Forall_forall. intros j Hj%elem_of_seqZ. cbn. split; [done|apply Hin; lia].
Qed.

Lemma scanned_extend i segments t t1 w run :
  scanned i segments t -> 0 <= i < n -> 1 <= run -> (run < n - i -> aligned (i + run)) -> (aligned i -> run < n - i -> 4096 <= run) ->
  (length t1 <= length t + 4)%nat -> Forall (fun p => entry_ok m (fst p)) t1 ->
  scanned (i + run) (segments ++ [mk_segment (physical w) i run]) t1.
Proof.
  intros [Hf Ht He] Hi Hr Hal Hbig Hlen Ht1. split; [|rewrite length_app; cbn; lia|done].
  intros _ Hmore. split; [|apply Hal; lia]. rewrite length_app. destruct segments as [|g segments]; cbn [length]; [lia|].
  destruct (Hf ltac:(done) ltac:(lia)) as [H1 H2]. cbn [length] in H1. specialize (Hbig H2 ltac:(lia)). lia.
Qed.

Lemma scan_spec fuel : forall i segments t, 0 <= i <= n -> n - i < Z.of_nat fuel -> scanned i segments t ->
  exists x, insb_scan fuel m cr3 address n backwards i segments t = Some x /\ scan_result i segments t x.
Proof using Hm Hcr Hn Hrange.
  induction fuel as [|fuel IH]; intros i segments t Hi Hf Hsc; [lia|]. cbn [insb_scan].
  destruct (Z.ltb_spec i n) as [Hlt|Hge]; cbn [negb].
  2:{ eexists. split; [done|]. exists [], []. replace (n - i) with 0 by lia. rewrite app_nil_r. split_and!; try done.
      - intros x. cbn. by rewrite Z.lor_0_r.
      - apply Hsc. }
  destruct (walk_total m cr3 (va i) true false Hm (va_nonneg i ltac:(lia)) Hcr) as (x & Hx & _).
  rewrite Hx. destruct x as [w|]; cbn [andThen].
  2:{ eexists. split; [done|]. right. apply (walks_none i i); [lia|]. unfold byte_walk. by rewrite Hx. }
  destruct (page_run i w ltac:(lia) Hx) as (Hrun & Hal & Hbig & Hp0 & Hback & [Hent Hlev] & Hwalks).
  set (run := insb_run w (va i) backwards (n - i)) in *.
  destruct (Z.leb_spec (ram_size m) (physical w)) as [Hout|Hin].
  { eexists. split; [done|]. right. apply (walks_none i i); [lia|]. unfold byte_walk. rewrite Hx. by rewrite (proj2 (Z.ltb_ge _ _) Hout). }
  destruct (_ || _ || _) eqn:Hg.
  { eexists. split; [done|]. assert (backwards = true \/ backwards = false) as [Hbw|Hbw] by (destruct backwards; auto); [by left|].
    right. apply (walks_none i (i + (run - 1))); [lia|]. rewrite Hbw in Hg. unfold byte_walk. rewrite Hwalks by lia.
    unfold along. rewrite Hbw. cbn [physical]. by destruct (Z.ltb_spec (physical w + (run - 1)) (ram_size m)); [lia|]. }
  rewrite bool_decide_eq_false_2.
  2:{ intros H5. destruct (sc_first _ _ _ Hsc) as [H1 _]; [by intros ->|done|]. rewrite H5 in H1. unfold AOS_X86_STRING_BATCH in Hn. lia. }
  assert (length (entries w) <= 4)%nat as Hlen by (unfold levels in Hlev; lia).
  assert (length t <= 16)%nat as Ht.
  { pose proof (sc_table _ _ _ Hsc). destruct segments; [cbn in *; lia|]. destruct (sc_first _ _ _ Hsc) as [H1 _]; [done..|].
    unfold AOS_X86_STRING_BATCH in Hn. cbn [length] in *. lia. }
  rewrite mark_levels_run by lia. unfold accept at 1. cbn [andThen].
  destruct (flags_of_ok _ _ Hent) as [Hfl Hfl']. destruct (marks_ok (flags_of (entries w)) (entry_ok m) t (sc_entries _ _ _ Hsc) Hfl) as [Hm1 Hm2].
  set (t1 := foldl _ t _) in *.
  assert (forall j, 0 <= j < run -> 0 <= along (physical w) j < ram_size m) as Hall.
  { intros j Hj. unfold along. destruct backwards; lia. }
  destruct (IH (i + run) (segments ++ [mk_segment (physical w) i run]) t1) as (x & -> & Hres); [lia..| |].
  { eapply scanned_extend; [done|lia|lia|done|done|lia|done]. }
  exists x. split; [done|]. apply (scan_extend i segments t t1 w run); [done| |done|done| |done].
  - apply run_walks; [done|]. intros j Hj. by apply Hall.
  - intros y. apply acc_marks.
Qed.
End scan.

(** ** The descriptor *)

Lemma set_dma_address_ok s v : config_ok s -> is_u64 v -> config_ok (set_dma_address v s).
Proof. intros Hs Hv. apply set_fw_ok; [done|]. by destruct (co_fw s Hs); split. Qed.

Lemma swap32_ok n : is_u32 n -> is_u32 (swap32 n).
Proof.
  intros Hn. unfold swap32. repeat apply is_u32_lor.
  - pose proof (land_le_r n 0xff). rewrite Z.shiftl_mul_pow2 by lia. unfold is_u32. lia.
  - pose proof (land_le_r n 0xff00). rewrite Z.shiftl_mul_pow2 by lia. unfold is_u32. lia.
  - pose proof (land_le_r (Z.shiftr n 8) 0xff00). unfold is_u32. lia.
  - unfold is_u32 in *. rewrite Z.shiftr_div_pow2 by lia. Z.to_euclidean_division_equations; lia.
Qed.

Lemma be32_ok p i : Forall is_u8 p -> 0 <= i -> i + 4 <= Z.of_nat (length p) -> exists v, be32 p i = Some v /\ is_u32 v.
Proof.
  intros Hp Hi Hl. unfold be32. destruct (byte_at p i Hp) as (a & -> & Ha); [lia|]. destruct (byte_at p (i + 1) Hp) as (b & -> & Hb); [lia|].
  destruct (byte_at p (i + 2) Hp) as (c & -> & Hc); [lia|]. destruct (byte_at p (i + 3) Hp) as (d & -> & Hd); [lia|].
  cbn [mbind option_bind]. eexists. split; [done|]. repeat apply is_u32_lor; rewrite ?Z.shiftl_mul_pow2 by lia; unfold is_u32, is_u8 in *; lia.
Qed.

Lemma be64_ok p i : Forall is_u8 p -> 0 <= i -> i + 8 <= Z.of_nat (length p) -> exists v, be64 p i = Some v /\ 0 <= v.
Proof.
  intros Hp Hi Hl. unfold be64. destruct (be32_ok p i Hp) as (h & -> & Hh); [lia..|]. destruct (be32_ok p (i + 4) Hp) as (l & -> & Hlo); [lia..|].
  cbn [mbind option_bind]. eexists. split; [done|]. apply Z.lor_nonneg. split; [apply Z.shiftl_nonneg; apply Hh|apply Hlo].
Qed.

Definition be_word (n : Z) : list Z := [u8 (Z.shiftr n 24); u8 (Z.shiftr n 16); u8 (Z.shiftr n 8); u8 n].

Lemma inserts_cons (i : nat) x k (p : list Z) : list_inserts i (x :: k) p = list_inserts (S i) k (<[i := x]> p).
Proof. cbn. by rewrite list_insert_inserts_lt by lia. Qed.

Lemma put_be32_run p i n : 0 <= i -> i + 4 <= Z.of_nat (length p) -> put_be32 p i n = Some (list_inserts (Z.to_nat i) (be_word n) p).
Proof.
  intros Hi Hl. unfold put_be32, be_word. rewrite !inserts_cons.
  replace (S (Z.to_nat i)) with (Z.to_nat (i + 1)) by lia. replace (S (Z.to_nat (i + 1))) with (Z.to_nat (i + 2)) by lia.
  replace (S (Z.to_nat (i + 2))) with (Z.to_nat (i + 3)) by lia.
  by repeat (rewrite aset_Some by (rewrite ?length_insert; lia); cbn [mbind option_bind]).
Qed.

(** What a descriptor did: memory changed in the destination of a valid read
    and in the status word alone. *)
Definition dma_effect (m : memory) (config config' : config) (d control len dest : Z) (valid : bool) (ram' : list Z) : Prop :=
  length ram' = length (m_ram m) /\ aslice ram' d 4 = [0; 0; 0; if valid then 0 else 1] /\
  (forall x, 0 <= x -> ~ d <= x < d + 4 -> ~ (valid = true /\ flag control 2 = true /\ dest <= x < dest + len) ->
     ram' !! Z.to_nat x = m_ram m !! Z.to_nat x) /\
  (valid = false -> config' = set_dma_address 0 config) /\
  (valid = true -> exists l, aos_x86_config_dma (set_dma_address 0 config) control (flag control 2) len = Some (Some (l, config')) /\
     (flag control 2 = true -> dest + len <= ram_size m /\ Z.of_nat (length l) = len /\
        forall k, 0 <= k < len -> ~ d <= dest + k < d + 4 -> ram' !! Z.to_nat (dest + k) = l !! Z.to_nat k)).

Lemma dma_length s control dest n l s' : config_ok s -> is_u32 control -> 0 <= n -> flag control DMA_READ = true ->
  aos_x86_config_dma s control dest n = Some (Some (l, s')) -> Z.of_nat (length l) = n /\ Forall is_u8 l.
Proof.
  intros Hs Hc Hn Hr Hd. destruct (dma_read_run s control dest n Hs Hc Hn Hr) as [E | (l' & b & Hn0 & Ho & Hl & _ & E)]; rewrite Hd in E; [done|].
  injection E as -> _. destruct (fw_bytes_ok (dma_start s control) (Z.to_nat n)) with (off := fw_offset (c_fw (dma_start s control))) as (l & Hl' & H8 & Hlen).
  - by apply dma_start_ok.
  - apply (fo_offset _ (co_fw _ (dma_start_ok s control Hs Hc))).
  - rewrite Hl in Hl'. injection Hl' as ->. split; [lia|done].
Qed.

Lemma status_slice ram d v : 0 <= d -> d + 4 <= Z.of_nat (length ram) -> v = 0 \/ v = 1 ->
  aslice (list_inserts (Z.to_nat d) (be_word v) ram) d 4 = [0; 0; 0; v].
Proof. intros Hd Hl Hv. rewrite aslice_inserts by (done || lia). by destruct Hv as [-> | ->]. Qed.

Lemma inserts_outside (i : Z) k (p : list Z) x : 0 <= i -> 0 <= x -> ~ i <= x < i + Z.of_nat (length k) ->
  list_inserts (Z.to_nat i) k p !! Z.to_nat x = p !! Z.to_nat x.
Proof.
  intros Hi Hx Hn. destruct (decide (x < i)); [by rewrite list_lookup_inserts_lt by lia|by rewrite list_lookup_inserts_ge by lia].
Qed.

Lemma dma_effect_good m config next d control len dest l :
  mem_ok m -> 0 <= d -> d + 16 <= ram_size m -> 0 <= len -> 0 <= dest ->
  aos_x86_config_dma (set_dma_address 0 config) control (flag control 2) len = Some (Some (l, next)) ->
  (flag control 2 = true -> dest + len <= ram_size m /\ Z.of_nat (length l) = len /\ Forall is_u8 l) ->
  let ram := if flag control 2 then list_inserts (Z.to_nat dest) l (m_ram m) else m_ram m in
  exists ram', put_be32 ram d 0 = Some ram' /\ Forall is_u8 ram' /\ dma_effect m config next d control len dest true ram'.
Proof.
  intros Hm Hd Hd16 Hlen Hdest Hdma Hread ram. pose proof (mo_ram m Hm) as Hram.
  assert (length ram = length (m_ram m)) as Hl by (unfold ram; case_match; [apply length_inserts|done]).
  eexists. rewrite put_be32_run by lia. split; [done|]. split.
  { apply Forall_inserts; [|by repeat constructor]. unfold ram. case_match; [|apply Hm]. apply Forall_inserts; [apply Hm|by apply Hread]. }
  split; [by rewrite length_inserts|]. split; [apply status_slice; [lia..|by left]|]. split; [|split; [done|]].
  - intros x Hx Hnd Hns. rewrite inserts_outside by (done || cbn; lia). unfold ram. destruct (flag control 2); [|done].
    apply inserts_outside; [done..|]. destruct Hread as (_ & -> & _); [done|]. naive_solver.
  - intros _. exists l. split; [done|]. intros Hr. destruct (Hread Hr) as (Hin & Hll & _). split; [done|]. split; [done|].
    intros k Hk Hnd. rewrite inserts_outside by (cbn; lia). unfold ram. rewrite Hr. rewrite list_lookup_inserts by lia. f_equal. lia.
Qed.

(** The transfer with its status word. *)
Lemma dma_transfer_ok m config d control len dest :
  mem_ok m -> config_ok config -> 0 <= d -> d + 16 <= ram_size m -> is_u32 control -> is_u32 len -> 0 <= dest ->
  exists valid config' ram ram', dma_transfer m (set_dma_address 0 config) control len dest = Some (valid, config', ram) /\
    put_be32 ram d (if valid then 0 else 1) = Some ram' /\ Forall is_u8 ram' /\ config_ok config' /\
    dma_effect m config config' d control len dest valid ram'.
Proof.
  intros Hm Hc Hd Hd16 Hctl Hlen Hdest. pose proof (mo_ram m Hm) as Hram. set (c0 := set_dma_address 0 config).
  assert (config_ok c0) as Hc0 by (by apply set_dma_address_ok).
  assert (exists ram', put_be32 (m_ram m) d 1 = Some ram' /\ Forall is_u8 ram' /\ dma_effect m config c0 d control len dest false ram') as Hbad.
  { eexists. rewrite put_be32_run by lia. split; [done|]. split; [apply Forall_inserts; [apply Hm|by repeat constructor]|].
    split; [apply length_inserts|]. split; [apply status_slice; [lia..|by right]|]. split; [|done]. intros x Hx Hnd _.
    destruct (decide (x < d)); [by rewrite list_lookup_inserts_lt by lia|by rewrite list_lookup_inserts_ge by (cbn; lia)]. }
  unfold dma_transfer. fold c0. destruct (negb (_ && _)) eqn:Hg; [destruct Hbad as (ram' & ? & ? & ?); by eexists false, c0, _, ram'|].
  destruct (dma_ok c0 control (flag control 2) len Hc0 Hctl) as (y & Hy & Hok); [apply Hlen|]. rewrite Hy. cbn [mbind option_bind].
  destruct y as [[l next]|]; [|destruct Hbad as (ram' & ? & ? & ?); by eexists false, c0, _, ram'].
  assert (flag control 2 = true -> dest + len <= ram_size m /\ Z.of_nat (length l) = len /\ Forall is_u8 l) as Hread.
  { intros Hr. rewrite Hr in *. split; [lia|]. by apply (dma_length c0 control true len l next Hc0 Hctl (proj1 Hlen)). }
  destruct (dma_effect_good m config next d control len dest l Hm Hd Hd16 (proj1 Hlen) Hdest Hy Hread) as (ram' & Hput & Hu & Heff).
  exists true, next, (if flag control 2 then list_inserts (Z.to_nat dest) l (m_ram m) else m_ram m), ram'. split; [|by split_and!; [..|eapply Hok|]].
  destruct (flag control 2); [|done]. destruct Hread as (? & ? & _); [done|]. unfold store_range.
  by rewrite (proj2 (Z.leb_le 0 dest)), (proj2 (Z.leb_le _ _)) by lia.
Qed.

(** ** The batch *)

Lemma fw_read_byte s : config_ok s -> exists v s', fw_read s = Some (Some (v, s')) /\ is_u8 v /\ config_ok s'.
Proof.
  intros Hs. destruct (fw_read_ok s Hs) as (y & Hy & Hok). unfold fw_read in *.
  destruct (fw_byte_ok s (fw_offset (c_fw s)) Hs) as (v & Hv & Hv8); [apply (fo_offset _ (co_fw s Hs))|]. rewrite Hv in *.
  cbn [mbind option_bind] in *. destruct (fw_read_counts s) as [b|]; [|done]. cbn [mbind option_bind] in *. injection Hy as <-.
  eexists _, _. split; [done|]. split; [done|]. by eapply Hok.
Qed.

Lemma insb_bytes_pio n : forall s, config_ok s ->
  exists l s', pio_reads s 0 n = Some (l, s') /\ insb_bytes s n = Some (Some (l, s')) /\ length l = n.
Proof.
  induction n as [|n IH]; intros s Hs; [by exists [], s|]. cbn [pio_reads insb_bytes].
  change (aos_x86_config_io s 0x511 1 false 0 0) with (pio_read s 0). rewrite pio_read_run by done.
  destruct (fw_read_byte s Hs) as (v & s1 & -> & Hv & Hs1). cbn [andThen]. destruct (IH s1 Hs1) as (l & s' & -> & -> & Hl).
  exists (v :: l), s'. cbn. rewrite u8_small by done. by rewrite Hl.
Qed.

(** The commit of what the scan recorded is the commit of every byte. *)
Lemma insb_commit_run m cr3 address n backwards bytes segments t ws :
  mem_ok m -> mapM (fun i => byte_walk m cr3 (insb_va address backwards i)) (seqZ 0 n) = Some ws -> Z.of_nat (length bytes) = n ->
  chained 0 segments -> physical <$> ws = concat (seg_addresses backwards <$> segments) ->
  (forall x, acc t x = acc (concat ((fun w => flags_of (entries w)) <$> ws)) x) ->
  Forall (fun p => entry_ok m (fst p)) t -> Forall (fun w => Forall (entry_ok m) (entries w) /\ 0 <= physical w < ram_size m) ws ->
  insb_commit (m_ram m) bytes backwards segments t =
    Some (foldl store (foldl touch (m_ram m) (concat ((fun w => flags_of (entries w)) <$> ws))) (zip (physical <$> ws) bytes)).
Proof.
  intros Hm Hws Hlen Hch Hph Hacc Ht Hall. unfold insb_commit. pose proof (mo_ram m Hm) as Hram.
  rewrite commit_marks_run.
  2:{ eapply Forall_impl; [done|]. intros [e f] [He1 He2]. cbn in *. lia. }
  cbn [mbind option_bind]. rewrite (touch_same t (concat ((fun w => flags_of (entries w)) <$> ws))); [| | |done].
  - rewrite (commit_segments_store bytes backwards segments _ 0); [|done|done| |].
    + by rewrite <- Hph, drop_0.
    + rewrite <- Hph, length_fmap. apply length_mapM in Hws. rewrite length_seqZ in Hws. lia.
    + rewrite <- Hph. apply Forall_fmap. rewrite length_touch. eapply Forall_impl; [done|]. intros w [_ Hw]. unfold compose. lia.
  - eapply Forall_impl; [done|]. by intros [e f] [He _].
  - apply Forall_concat, Forall_fmap. eapply Forall_impl; [done|]. intros w [Hw _]. unfold compose.
    destruct (flags_of_ok _ _ Hw) as [Hf _]. eapply Forall_impl; [done|]. by intros [e f] [He _].
Qed.

(** C6. One batch of REP INSB is its bytes one at a time: walking the page
    tables once for each page, merging the flags of the entries in a table
    of 32 and the destinations in five segments, refuses and commits just
    what a walk and a store for every byte would, with the same memory, the
    same accessed and dirty flags, the same device state and the same
    registers. Neither limit is ever reached. In the forward direction the
    two agree on every input; backward, whatever is accepted agrees. *)
Theorem insb_bytewise m cr3 config address count backwards :
  mem_ok m -> config_ok config -> 0 <= cr3 -> 0 <= address -> 0 <= count ->
  exists x, aos_x86_fw_insb m cr3 config address count backwards = Some x /\
    (backwards = false -> x = insb_reference m cr3 config address count backwards) /\
    (forall y, x = Some y -> insb_reference m cr3 config address count backwards = Some y).
Proof.
  intros Hm Hc Hcr Ha Hct. unfold aos_x86_fw_insb, insb_reference.
  replace (if AOS_X86_STRING_BATCH <? count then AOS_X86_STRING_BATCH else count) with (Z.min count AOS_X86_STRING_BATCH) by (case_match eqn:E; lia).
  set (n := Z.min count AOS_X86_STRING_BATCH). destruct (Z.eqb_spec n 0) as [Hn0|Hn0]; [by eexists|].
  assert (0 < n <= AOS_X86_STRING_BATCH) as Hn by (unfold n, AOS_X86_STRING_BATCH in *; lia).
  destruct (if backwards then _ else _) eqn:Hw; [by eexists|].
  destruct (scan_spec m cr3 address n backwards Hm Hcr Hn) with (fuel := S (Z.to_nat n)) (i := 0) (segments := @nil segment) (t := @nil (Z * Z)) as (x & Hx & Hres);
    [destruct backwards; lia|lia|lia|by split; [|cbn; lia|]|]. rewrite Hx. destruct (insb_bytes_pio (Z.to_nat n) config Hc) as (bytes & next & Hpio & Hins & Hlen).
  unfold scan_result in Hres. rewrite Z.sub_0_r in Hres. destruct x as [[segments t]|]; cbn [andThen].
  - destruct Hres as (l & ws & -> & Hch & Hws & Hph & Hacc & Ht & Hall). rewrite Hins, Hws, Hpio. cbn [andThen mbind option_bind app].
    rewrite (insb_commit_run m cr3 address n backwards bytes l t ws) by (done || lia). eexists. split; [done|]. by split; [|intros y [= <-]].
  - exists None. split; [done|]. split; [|done]. intros ->. by destruct Hres as [?| ->].
Qed.

(** A DMA descriptor is confined: no access to the registers leaves an
    array, and a write of the low half changes guest memory only in the
    status word of its descriptor and, for a valid read, in the destination
    that the descriptor names, which lies in memory. The destination then
    holds the bytes of the transfer (where the status word does not cover
    it), the status tells whether it was valid, and an invalid descriptor
    leaves the device as it was but for the address register. *)
Theorem fw_dma_confined m config port width write value :
  mem_ok m -> config_ok config -> is_u32 value ->
  exists y, aos_x86_fw_dma_io m config port width write value = Some y /\
    forall v config' m', y = Some (v, config', m') -> mem_ok m' /\ config_ok config' /\
      (m' = m \/ exists d control len dest valid,
         write = true /\ port = 0x518 /\ d = Z.lor (fw_dma_address (c_fw config)) (swap32 value) /\ d + 16 <= ram_size m /\
         be32 (m_ram m) d = Some control /\ be32 (m_ram m) (d + 4) = Some len /\ be64 (m_ram m) (d + 8) = Some dest /\
         dma_effect m config config' d control len dest valid (m_ram m')).
Proof.
  intros Hm Hc Hv. unfold aos_x86_fw_dma_io. pose proof (swap32_ok value Hv) as Hhalf. pose proof (mo_ram m Hm) as Hram.
  destruct (negb (width =? 4) || _) eqn:Hp; [by eexists|].
  destruct write; cbn [negb]; [|eexists; split; [done|]; intros ??? [= <- <- <-]; auto].
  destruct (Z.eqb_spec port 0x514) as [->|Hport].
  { eexists. split; [done|]. intros ??? [= <- <- <-]. split; [done|]. split; [|by left]. apply set_dma_address_ok; [done|].
    rewrite Z.shiftl_mul_pow2 by lia. unfold is_u64, is_u32 in *. lia. }
  pose proof (fo_dma _ (co_fw _ Hc)) as Hfd. set (d := Z.lor (fw_dma_address (c_fw config)) (swap32 value)).
  assert (0 <= d) as Hd by (apply Z.lor_nonneg; split; [apply Hfd|apply Hhalf]).
  destruct ((ram_size m <? d) || _) eqn:Hr.
  { eexists. split; [done|]. intros ??? [= <- <- <-]. split; [done|]. split; [by apply set_dma_address_ok|by left]. }
  destruct (be32_ok (m_ram m) d (mo_bytes m Hm)) as (control & Hctl & Hctl'); [lia..|].
  destruct (be32_ok (m_ram m) (d + 4) (mo_bytes m Hm)) as (len & Hlen & Hlen'); [lia..|].
  destruct (be64_ok (m_ram m) (d + 8) (mo_bytes m Hm)) as (dest & Hdest & Hdest'); [lia..|].
  destruct (dma_transfer_ok m config d control len dest Hm Hc Hd) as (valid & config' & ram & ram' & Ht & Hput & H8 & Hok & Heff); [lia|done..|].
  rewrite Hctl, Hlen, Hdest. cbn [mbind option_bind]. rewrite Ht. cbn [mbind option_bind]. rewrite Hput. cbn [mbind option_bind].
  eexists. split; [done|]. intros ??? [= <- <- <-]. split.
  { destruct Hm. split; cbn; try done. destruct Heff as [-> _]. done. }
  split; [done|]. right. exists d, control, len, dest, valid. split; [done|]. split; [lia|]. split; [done|]. split; [lia|]. done.
Qed.

(** ** Examples *)

(** A small memory whose first entry maps its own page at every level. *)
Definition example_memory : memory := mk_memory ([7; 0; 0; 0; 0; 0; 0; 0] ++ replicate 16 0) None 24 0 0.

Lemma example_memory_ok : mem_ok example_memory.
Proof. split; [by vm_compute| |done|done]. by apply (bool_decide_unpack _); vm_compute. Qed.

(** A backward batch may be refused for its position alone: two bytes
    from the last address of memory down lie in memory, every byte
    translates there and the reference accepts them, but the bound of the
    run is that of a forward one. *)
Theorem insb_backwards_refused :
  aos_x86_fw_insb example_memory 0 example_bound 23 2 true = Some None /\
  exists y, insb_reference example_memory 0 example_bound 23 2 true = Some y.
Proof.
  split; [by vm_compute|]. assert (bool_decide (is_Some (insb_reference example_memory 0 example_bound 23 2 true)) = true) as H by (by vm_compute).
  apply bool_decide_eq_true in H as [y Hy]. by exists y.
Qed.

Definition example_insb : attempt (memory * config * Z * Z) :=
  aos_x86_fw_insb example_memory 0 (selected example_bound 0x11) 8 4 false.

Lemma insb_bytewise_witness : exists y, example_insb = Some (Some y) /\
  insb_reference example_memory 0 (selected example_bound 0x11) 8 4 false = Some y /\
  aslice (m_ram (y.1.1.1)) 8 4 = [77; 90; 1; 2].
Proof.
  destruct (insb_bytewise example_memory 0 (selected example_bound 0x11) 8 4 false) as (x & Hx & _ & Hy);
    [apply example_memory_ok|by apply selected_ok; [apply example_bound_ok|]|done..|].
  destruct x as [y|]; [|by vm_compute in Hx]. exists y. split; [done|]. split; [by apply Hy|].
  assert (option_map (option_map (fun y => aslice (m_ram (y.1.1.1)) 8 4)) example_insb = Some (Some [77; 90; 1; 2])) as E by (by vm_compute).
  unfold example_insb in E. rewrite Hx in E. by injection E.
Defined.

(** A descriptor at address 0 that selects and reads the kernel to 16. *)
Definition example_descriptor : memory :=
  mk_memory ([0; 0x11; 0; 0x0a; 0; 0; 0; 4; 0; 0; 0; 0; 0; 0; 0; 16] ++ replicate 8 0) None 24 0 0.

Lemma example_descriptor_ok : mem_ok example_descriptor.
Proof. split; [by vm_compute| |done|done]. by apply (bool_decide_unpack _); vm_compute. Qed.

Lemma fw_dma_confined_witness : exists v config' m',
  aos_x86_fw_dma_io example_descriptor example_bound 0x518 4 true 0 = Some (Some (v, config', m')) /\
  aslice (m_ram m') 0 4 = [0; 0; 0; 0] /\ aslice (m_ram m') 16 4 = [77; 90; 1; 2] /\ config_ok config'.
Proof.
  destruct (fw_dma_confined example_descriptor example_bound 0x518 4 true 0) as (y & Hy & H); [apply example_descriptor_ok|apply example_bound_ok|done|].
  assert (option_map (option_map (fun y => (aslice (m_ram (snd y)) 0 4, aslice (m_ram (snd y)) 16 4)))
    (aos_x86_fw_dma_io example_descriptor example_bound 0x518 4 true 0) = Some (Some ([0; 0; 0; 0], [77; 90; 1; 2]))) as E by (by vm_compute).
  rewrite Hy in E. destruct y as [[[v config'] m']|]; [|done]. injection E as E1 E2. exists v, config', m'.
  destruct (H v config' m' eq_refl) as (_ & Hc & _). split; [exact Hy|]. split; [exact E1|]. split; [exact E2|exact Hc].
Defined.
