(* ===== verification/SerialService.v ===== *)
(** * The serial virtualizer service

    serial-virt/service.c, platform/serial_virt_service.h: attachment,
    detachment and generation-checked rebinding of guest channels, and the
    pump between guest and frontend channels. The service's private state and
    the shared memory are threaded together. The pointers the service passes
    to its own functions are never null and are passed by value. *)

From S2P Require Import Prelude Ring Bytes SerialQueue VirtAuthority.

(** ** Contract constants and messages (serial_virt_contract.h) *)

Definition SERIAL_VIRT_CONTRACT_VERSION : Z := 4.
Definition SERIAL_VIRT_REBIND_VERSION : Z := 1.
Definition SERIAL_VIRT_OK : Z := 0.
Definition SERIAL_VIRT_ERR_VERSION : Z := 1.
Definition SERIAL_VIRT_ERR_AUTHORITY : Z := 2.
Definition SERIAL_VIRT_ERR_BUSY : Z := 3.
Definition SERIAL_VIRT_ERR_PROTOCOL : Z := 4.

Record serial_virt_attach_req := {
  sar_version : Z;
  sar_client : Z;
  sar_role : Z;
}.
Record serial_virt_rebind_req := {
  srr_version : Z;
  srr_client : Z;
  srr_generation : Z;
}.
(** [sizeof] of both requests. *)
Definition serial_virt_req_size : Z := 12.

(** ** State *)

Record aos_serial_virt_service := {
  svs_guest : list aos_serial_channel;
  svs_frontend : list aos_serial_channel;
  svs_guest_attached : list Z;
  svs_frontend_attached : list Z;
  svs_guest_retired : list Z;
  svs_guest_generation : list Z;
}.

Record aos_serial_virt_result := {
  svr_wake_vmm : Z;
  svr_frontend_changed : Z;
  svr_invalid_clients : Z;
  svr_bytes : Z;
  svr_input_clients : Z;
  svr_output_clients : Z;
}.

Record svc_state := {
  ss_svc : aos_serial_virt_service;
  ss_mem : serial_mem;
}.

(** Code that only touches shared memory, run by the service. *)
Definition in_mem {A} (p : prog serial_mem A) : prog svc_state A := fun st =>
  match p (ss_mem st) with
  | Some (a, m) => Some (a, {| ss_svc := ss_svc st; ss_mem := m |})
  | None => None
  end.

Definition get_svc : prog svc_state aos_serial_virt_service := fun st => Some (ss_svc st, st).
Definition put_svc (s : aos_serial_virt_service) : prog svc_state unit := fun st =>
  Some (tt, {| ss_svc := s; ss_mem := ss_mem st |}).

(** Stores to one array of the service. *)
Definition set_guest_attached (client x : Z) : prog svc_state unit :=
  s ← get_svc; l ← lift (aset (svs_guest_attached s) client x);
  put_svc {| svs_guest := svs_guest s; svs_frontend := svs_frontend s; svs_guest_attached := l;
             svs_frontend_attached := svs_frontend_attached s;
             svs_guest_retired := svs_guest_retired s;
             svs_guest_generation := svs_guest_generation s |}.
Definition set_frontend_attached (client x : Z) : prog svc_state unit :=
  s ← get_svc; l ← lift (aset (svs_frontend_attached s) client x);
  put_svc {| svs_guest := svs_guest s; svs_frontend := svs_frontend s;
             svs_guest_attached := svs_guest_attached s; svs_frontend_attached := l;
             svs_guest_retired := svs_guest_retired s;
             svs_guest_generation := svs_guest_generation s |}.
Definition set_guest_retired (client x : Z) : prog svc_state unit :=
  s ← get_svc; l ← lift (aset (svs_guest_retired s) client x);
  put_svc {| svs_guest := svs_guest s; svs_frontend := svs_frontend s;
             svs_guest_attached := svs_guest_attached s;
             svs_frontend_attached := svs_frontend_attached s; svs_guest_retired := l;
             svs_guest_generation := svs_guest_generation s |}.
Definition set_guest_generation (client x : Z) : prog svc_state unit :=
  s ← get_svc; l ← lift (aset (svs_guest_generation s) client x);
  put_svc {| svs_guest := svs_guest s; svs_frontend := svs_frontend s;
             svs_guest_attached := svs_guest_attached s;
             svs_frontend_attached := svs_frontend_attached s;
             svs_guest_retired := svs_guest_retired s; svs_guest_generation := l |}.
Definition set_guest (client : Z) (x : aos_serial_channel) : prog svc_state unit :=
  s ← get_svc; l ← lift (aset (svs_guest s) client x);
  put_svc {| svs_guest := l; svs_frontend := svs_frontend s;
             svs_guest_attached := svs_guest_attached s;
             svs_frontend_attached := svs_frontend_attached s;
             svs_guest_retired := svs_guest_retired s;
             svs_guest_generation := svs_guest_generation s |}.

(** Fields of the shared channel metadata. *)
Definition store_guest_state (p x : Z) : prog serial_mem unit :=
  t ← load_meta p;
  modify (set_meta p {| scm_guest_state := x; scm_attached := scm_attached t;
                        scm_frontend_gate := scm_frontend_gate t |}).
Definition store_attached (p x : Z) : prog serial_mem unit :=
  t ← load_meta p;
  modify (set_meta p {| scm_guest_state := scm_guest_state t; scm_attached := x;
                        scm_frontend_gate := scm_frontend_gate t |}).
Definition store_gate (p x : Z) : prog serial_mem unit :=
  t ← load_meta p;
  modify (set_meta p {| scm_guest_state := scm_guest_state t; scm_attached := scm_attached t;
                        scm_frontend_gate := x |}).

(** [__atomic_fetch_or] on the gate. *)
Definition gate_fetch_or (p bits : Z) : prog serial_mem Z :=
  t ← load_meta p;
  store_gate p (Z.lor (scm_frontend_gate t) bits);;
  mret (scm_frontend_gate t).

(** ** Operations (service.c) *)

Definition aos_serial_virt_attach (badge : Z) (request : serial_virt_attach_req) (length : Z)
    : prog svc_state Z :=
  if negb (length =? serial_virt_req_size) then mret SERIAL_VIRT_ERR_PROTOCOL
  else if negb (sar_version request =? SERIAL_VIRT_CONTRACT_VERSION)
  then mret SERIAL_VIRT_ERR_VERSION
  else if negb (serial_virt_authorized badge (sar_client request) (sar_role request))
  then mret SERIAL_VIRT_ERR_AUTHORITY
  else
    s ← get_svc;
    let frontend := sar_role request =? SERIAL_VIRT_ROLE_FRONTEND in
    attached ← lift (aget (if frontend then svs_frontend_attached s else svs_guest_attached s)
                       (sar_client request));
    if negb (attached =? 0) then mret SERIAL_VIRT_ERR_BUSY
    else
      retired ← lift (aget (svs_guest_retired s) (sar_client request));
      if negb (retired =? 0) then mret SERIAL_VIRT_ERR_BUSY
      else
        (if frontend then set_frontend_attached (sar_client request) 1
         else set_guest_attached (sar_client request) 1);;
        mret SERIAL_VIRT_OK.

(** The two tests of the gate word: a frontend inside its critical section
    defers a detach, and a rebind needs the gate closed with nobody inside. *)
Definition frontend_busy (gate : Z) : bool := negb (Z.land gate AOS_SERIAL_FRONTEND_BUSY =? 0).
Definition frontend_closed (gate : Z) : bool := gate =? AOS_SERIAL_FRONTEND_CLOSED.

Definition aos_serial_virt_detach (badge : Z) (request : serial_virt_attach_req) (length : Z)
    : prog svc_state Z :=
  if negb (length =? serial_virt_req_size) then mret SERIAL_VIRT_ERR_PROTOCOL
  else if negb (sar_version request =? SERIAL_VIRT_CONTRACT_VERSION)
  then mret SERIAL_VIRT_ERR_VERSION
  else if negb (sar_role request =? SERIAL_VIRT_ROLE_VMM) ||
          negb (serial_virt_authorized badge (sar_client request) (sar_role request))
  then mret SERIAL_VIRT_ERR_AUTHORITY
  else
    let client := sar_client request in
    s ← get_svc;
    retired ← lift (aget (svs_guest_retired s) client);
    if negb (retired =? 0) then mret SERIAL_VIRT_OK
    else
      front ← lift (aget (svs_frontend s) client);
      if sch_meta front =? NULL then mret SERIAL_VIRT_ERR_PROTOCOL
      else
        gate ← in_mem (gate_fetch_or (sch_meta front) AOS_SERIAL_FRONTEND_CLOSED);
        if frontend_busy gate then mret SERIAL_VIRT_ERR_BUSY
        else
          fa ← lift (aget (svs_frontend_attached s) client);
          (if negb (fa =? 0) then in_mem (store_attached (sch_meta front) 0) else mret tt);;
          set_guest_attached client 0;;
          set_guest client serial_channel_zero;;
          set_guest_retired client 1;;
          mret SERIAL_VIRT_OK.

Definition aos_serial_virt_rebind_validate (badge : Z) (request : serial_virt_rebind_req)
    (length : Z) : prog svc_state Z :=
  if negb (length =? serial_virt_req_size) then mret SERIAL_VIRT_ERR_PROTOCOL
  else if negb (srr_version request =? SERIAL_VIRT_REBIND_VERSION)
  then mret SERIAL_VIRT_ERR_VERSION
  else if negb (serial_virt_authorized badge (srr_client request) SERIAL_VIRT_ROLE_VMM)
  then mret SERIAL_VIRT_ERR_AUTHORITY
  else
    let client := srr_client request in
    s ← get_svc;
    generation ← lift (aget (svs_guest_generation s) client);
    if (srr_generation request =? 0) || (generation =? UINT32_MAX) ||
       negb (srr_generation request =? u32 (generation + 1))
    then mret SERIAL_VIRT_ERR_PROTOCOL
    else
      retired ← lift (aget (svs_guest_retired s) client);
      attached ← lift (aget (svs_guest_attached s) client);
      if (retired =? 0) || negb (attached =? 0) then mret SERIAL_VIRT_ERR_BUSY
      else
        front ← lift (aget (svs_frontend s) client);
        if sch_meta front =? NULL then mret SERIAL_VIRT_ERR_PROTOCOL
        else
          t ← in_mem (load_meta (sch_meta front));
          if negb (frontend_closed (scm_frontend_gate t))
          then mret SERIAL_VIRT_ERR_BUSY
          else mret SERIAL_VIRT_OK.

Definition empty_queue (h : aos_serial_queue_handle) (capacity : Z) : prog serial_mem bool :=
  if (sqh_queue h =? NULL) || (sqh_data h =? NULL) || negb (sqh_capacity h =? capacity)
  then mret false
  else
    q ← load_squeue (sqh_queue h);
    mret ((sq_head q =? 0) && (sq_tail q =? 0) && (sq_producer_signalled q =? 0)).

(** The condition under which a fresh channel can replace the retired one. *)
Definition fresh_channel_ok (fresh front : aos_serial_channel) : prog serial_mem bool :=
  if (sch_meta fresh =? NULL) || (sch_meta fresh =? sch_meta front) then mret false
  else
    t ← load_meta (sch_meta fresh);
    if negb (scm_guest_state t =? 0) || negb (scm_attached t =? 0) ||
       negb (scm_frontend_gate t =? 0)
    then mret false
    else
      e1 ← empty_queue (sch_to_guest fresh) AOS_SERIAL_RX_CAPACITY;
      if negb e1 then mret false
      else
        e2 ← empty_queue (sch_from_guest fresh) AOS_SERIAL_TX_CAPACITY;
        if negb e2 then mret false
        else mret (negb
          ((sqh_queue (sch_to_guest fresh) =? sqh_queue (sch_to_guest front)) ||
           (sqh_queue (sch_from_guest fresh) =? sqh_queue (sch_from_guest front)) ||
           (sqh_queue (sch_to_guest front) =? NULL) || (sqh_data (sch_to_guest front) =? NULL) ||
           (sqh_queue (sch_from_guest front) =? NULL) || (sqh_data (sch_from_guest front) =? NULL) ||
           negb (sqh_capacity (sch_to_guest front) =? AOS_SERIAL_RX_CAPACITY) ||
           negb (sqh_capacity (sch_from_guest front) =? AOS_SERIAL_TX_CAPACITY))).

(** [for (i = 0; i < capacity; i++) data\[i\] = 0;] *)
Definition zero_data (h : aos_serial_queue_handle) : prog serial_mem unit :=
  for_loop (Z.to_nat (sqh_capacity h)) 0 tt (fun i _ =>
    store_byte (sqh_data h) i 0;; mret (Continue, tt)).

(** [*queue = (aos_serial_queue_t){0};] *)
Definition zero_squeue (p : Z) : prog serial_mem unit :=
  load_squeue p;; modify (set_squeue p serial_queue_zero).

(** The frontend channel is wiped while its gate is closed. *)
Definition wipe_channel (front : aos_serial_channel) : prog serial_mem unit :=
  zero_data (sch_to_guest front);;
  zero_data (sch_from_guest front);;
  zero_squeue (sqh_queue (sch_to_guest front));;
  zero_squeue (sqh_queue (sch_from_guest front));;
  store_guest_state (sch_meta front) 0;;
  store_attached (sch_meta front) 0.

Definition aos_serial_virt_rebind_commit (badge : Z) (request : serial_virt_rebind_req)
    (length : Z) (fresh : aos_serial_channel) : prog svc_state Z :=
  status ← aos_serial_virt_rebind_validate badge request length;
  if negb (status =? SERIAL_VIRT_OK) then mret status
  else
    let client := srr_client request in
    s ← get_svc;
    front ← lift (aget (svs_frontend s) client);
    ok ← in_mem (fresh_channel_ok fresh front);
    if negb ok then mret SERIAL_VIRT_ERR_PROTOCOL
    else
      in_mem (wipe_channel front);;
      set_guest client fresh;;
      set_guest_attached client 1;;
      set_guest_retired client 0;;
      set_guest_generation client (srr_generation request);;
      in_mem (store_gate (sch_meta front) 0);;
      mret SERIAL_VIRT_OK.

(** The pump's work for one attached pair of channels. *)
Definition pump_pair (i budget : Z) (guest front : aos_serial_channel)
    (result : aos_serial_virt_result) : prog serial_mem aos_serial_virt_result :=
  t ← load_meta (sch_meta guest);
  store_guest_state (sch_meta front) (scm_guest_state t);;
  store_attached (sch_meta front) 1;;
  '(st1, output) ← aos_serial_virt_transfer (sch_from_guest guest) (sch_from_guest front) budget;
  '(st2, input) ← aos_serial_virt_transfer (sch_to_guest front) (sch_to_guest guest) budget;
  let bit := Z.shiftl 1 i in
  let set b x := if b : bool then Z.lor x bit else x in
  let moved := negb (input =? 0) || negb (output =? 0) in
  mret {| svr_wake_vmm := set moved (svr_wake_vmm result);
          svr_frontend_changed := set moved (svr_frontend_changed result);
          svr_invalid_clients :=
            set (negb (st2 =? AOS_SERIAL_PUMP_OK))
              (set (negb (st1 =? AOS_SERIAL_PUMP_OK)) (svr_invalid_clients result));
          svr_bytes := u32 (svr_bytes result + (input + output));
          svr_input_clients := set (negb (input =? 0)) (svr_input_clients result);
          svr_output_clients := set (negb (output =? 0)) (svr_output_clients result) |}.

Definition serial_result_zero : aos_serial_virt_result :=
  {| svr_wake_vmm := 0; svr_frontend_changed := 0; svr_invalid_clients := 0; svr_bytes := 0;
     svr_input_clients := 0; svr_output_clients := 0 |}.

Definition aos_serial_virt_service_pump (s : aos_serial_virt_service) (budget : Z)
    : prog serial_mem aos_serial_virt_result :=
  for_loop (Z.to_nat AOS_SERIAL_CLIENTS) 0 serial_result_zero (fun i result =>
    ga ← lift (aget (svs_guest_attached s) i);
    fa ← lift (aget (svs_frontend_attached s) i);
    if (ga =? 0) || (fa =? 0) then mret (Continue, result)
    else
      guest ← lift (aget (svs_guest s) i);
      front ← lift (aget (svs_frontend s) i);
      result ← pump_pair i budget guest front result;
      mret (Continue, result)).

(** ** Specification-level definitions *)

(** The service's state for one client, gathered from its arrays. *)
Record svc_row := {
  rw_guest : aos_serial_channel;
  rw_front : aos_serial_channel;
  rw_guest_attached : Z;
  rw_front_attached : Z;
  rw_retired : Z;
  rw_generation : Z;
}.

Definition svc_at (s : aos_serial_virt_service) (i : Z) : option svc_row :=
  g ← aget (svs_guest s) i;
  f ← aget (svs_frontend s) i;
  ga ← aget (svs_guest_attached s) i;
  fa ← aget (svs_frontend_attached s) i;
  ra ← aget (svs_guest_retired s) i;
  gen ← aget (svs_guest_generation s) i;
  Some {| rw_guest := g; rw_front := f; rw_guest_attached := ga; rw_front_attached := fa;
          rw_retired := ra; rw_generation := gen |}.

Definition svc_put (s : aos_serial_virt_service) (i : Z) (r : svc_row) : aos_serial_virt_service :=
  {| svs_guest := <[Z.to_nat i := rw_guest r]> (svs_guest s);
     svs_frontend := <[Z.to_nat i := rw_front r]> (svs_frontend s);
     svs_guest_attached := <[Z.to_nat i := rw_guest_attached r]> (svs_guest_attached s);
     svs_frontend_attached := <[Z.to_nat i := rw_front_attached r]> (svs_frontend_attached s);
     svs_guest_retired := <[Z.to_nat i := rw_retired r]> (svs_guest_retired s);
     svs_guest_generation := <[Z.to_nat i := rw_generation r]> (svs_guest_generation s) |}.

(** A handle whose memory is mapped, and a channel of two such handles that
    share nothing. *)
Definition handle_ok (m : serial_mem) (h : aos_serial_queue_handle) : Prop :=
  exists q d, serial_mapped m h q d.
Definition chan_ok (m : serial_mem) (c : aos_serial_channel) : Prop :=
  handle_ok m (sch_to_guest c) /\ handle_ok m (sch_from_guest c) /\
  is_Some (sm_metas m !! sch_meta c) /\ serial_apart (sch_to_guest c) (sch_from_guest c).

(** A client's row: the frontend channel is always mapped; the guest channel
    is mapped unless the client is retired, and a retired client is not
    attached. *)
Definition row_ok (m : serial_mem) (r : svc_row) : Prop :=
  chan_ok m (rw_front r) /\ (rw_retired r = 0 -> chan_ok m (rw_guest r)) /\
  (rw_retired r <> 0 -> rw_guest_attached r = 0) /\ is_u32 (rw_generation r).

Definition svc_inv (st : svc_state) : Prop :=
  forall i, 0 <= i < AOS_SERIAL_CLIENTS -> exists r, svc_at (ss_svc st) i = Some r /\ row_ok (ss_mem st) r.

(** Arbitrary writes by peers: every shared object stays mapped with its
    size, its content can become anything. *)
Definition serial_shape (m m' : serial_mem) : Prop :=
  (forall p, is_Some (sm_queues m !! p) -> is_Some (sm_queues m' !! p)) /\
  (forall p, is_Some (sm_metas m !! p) -> is_Some (sm_metas m' !! p)) /\
  (forall p d, sm_bytes m !! p = Some d ->
     exists d', sm_bytes m' !! p = Some d' /\ length d' = length d).

(** One step of the service or of its environment. The channel given to a
    rebind was just mapped by the service's capability handler. *)
Inductive svc_step : svc_state -> svc_state -> Prop :=
  | svc_attach badge req len r st st' :
      0 <= sar_client req -> aos_serial_virt_attach badge req len st = Some (r, st') ->
      svc_step st st'
  | svc_detach badge req len r st st' :
      0 <= sar_client req -> aos_serial_virt_detach badge req len st = Some (r, st') ->
      svc_step st st'
  | svc_rebind badge req len fresh r st st' :
      0 <= srr_client req -> is_u32 (srr_generation req) -> chan_ok (ss_mem st) fresh ->
      aos_serial_virt_rebind_commit badge req len fresh st = Some (r, st') -> svc_step st st'
  | svc_pump budget r st st' :
      0 <= budget ->
      in_mem (aos_serial_virt_service_pump (ss_svc st) budget) st = Some (r, st') -> svc_step st st'
  | svc_peer st m' :
      serial_shape (ss_mem st) m' -> svc_step st {| ss_svc := ss_svc st; ss_mem := m' |}.

(** The state in which the service starts: every channel mapped, nothing
    attached, nothing retired, generation 0. *)
Definition svc_start (st : svc_state) : Prop :=
  forall i, 0 <= i < AOS_SERIAL_CLIENTS -> exists g f, chan_ok (ss_mem st) g /\ chan_ok (ss_mem st) f /\
    svc_at (ss_svc st) i = Some {| rw_guest := g; rw_front := f; rw_guest_attached := 0;
      rw_front_attached := 0; rw_retired := 0; rw_generation := 0 |}.

(** What can happen to a client's row over time: the frontend channel is
    fixed, the generation never decreases, and while it stays the same a
    retired client stays retired and detached. *)
Definition row_later (r r' : svc_row) : Prop :=
  rw_front r' = rw_front r /\ rw_generation r <= rw_generation r' /\
  (rw_generation r' = rw_generation r -> rw_retired r <> 0 ->
     rw_retired r' <> 0 /\ rw_guest_attached r' = 0).
Definition svc_later (st st' : svc_state) : Prop :=
  forall i r r', 0 <= i < AOS_SERIAL_CLIENTS ->
  svc_at (ss_svc st) i = Some r -> svc_at (ss_svc st') i = Some r' -> row_later r r'.

(** ** Lemmas: rows *)

Lemma svc_at_Some s i r :
  svc_at s i = Some r <->
  aget (svs_guest s) i = Some (rw_guest r) /\ aget (svs_frontend s) i = Some (rw_front r) /\
  aget (svs_guest_attached s) i = Some (rw_guest_attached r) /\
  aget (svs_frontend_attached s) i = Some (rw_front_attached r) /\
  aget (svs_guest_retired s) i = Some (rw_retired r) /\
  aget (svs_guest_generation s) i = Some (rw_generation r).
Proof.
  unfold svc_at. split.
  - intros Hr. repeat (apply bind_Some in Hr as (?&?&Hr)). injection Hr as <-. by split_and?.
  - intros (->&->&->&->&->&->). by destruct r.
Qed.

Lemma aget_insert_eq {A} (l : list A) i x y : aget l i = Some y -> aget (<[Z.to_nat i := x]> l) i = Some x.
Proof.
  intros [? ?%lookup_lt_Some]%aget_Some. apply aget_Some. split; [done|].
  by apply list_lookup_insert_eq.
Qed.

Lemma aget_insert_ne {A} (l : list A) i j x : 0 <= i -> i <> j -> aget (<[Z.to_nat i := x]> l) j = aget l j.
Proof.
  intros. unfold aget. case_cmp; [|done]. apply list_lookup_insert_ne. lia.
Qed.

Lemma svc_at_put s i r r' : svc_at s i = Some r -> svc_at (svc_put s i r') i = Some r'.
Proof.
  intros (?&?&?&?&?&?)%svc_at_Some. apply svc_at_Some. simpl.
  split_and?; by eapply aget_insert_eq.
Qed.

Lemma svc_at_put_ne s i j r : 0 <= i -> i <> j -> svc_at (svc_put s i r) j = svc_at s j.
Proof. intros. unfold svc_at, svc_put. simpl. by rewrite !aget_insert_ne. Qed.

Lemma svc_put_put s i r r' : svc_put (svc_put s i r) i r' = svc_put s i r'.
Proof. unfold svc_put. simpl. by rewrite !list_insert_insert_eq. Qed.

Lemma svc_put_id s i r : svc_at s i = Some r -> svc_put s i r = s.
Proof.
  intros (H1&H2&H3&H4&H5&H6)%svc_at_Some. unfold svc_put.
  apply aget_Some in H1 as [_ ?], H2 as [_ ?], H3 as [_ ?], H4 as [_ ?], H5 as [_ ?], H6 as [_ ?].
  rewrite !list_insert_id by done. by destruct s.
Qed.

(** Each array store is an update of the client's row. *)
Section stores.
Context (st : svc_state) (i : Z) (r : svc_row) (Hr : svc_at (ss_svc st) i = Some r).
Let with_row r' : svc_state := {| ss_svc := svc_put (ss_svc st) i r'; ss_mem := ss_mem st |}.

Local Ltac store_row :=
  pose proof (proj1 (svc_at_Some _ _ _) Hr) as (H1&H2&H3&H4&H5&H6);
  unfold mbind, prog_bind, get_svc, put_svc, lift;
  pose proof (aget_bound _ _ _ H1); pose proof (aget_bound _ _ _ H3); pose proof (aget_bound _ _ _ H4);
  pose proof (aget_bound _ _ _ H5); pose proof (aget_bound _ _ _ H6);
  rewrite aset_Some by lia; unfold with_row, svc_put; simpl; repeat f_equal; symmetry;
  apply list_insert_id; eapply aget_Some; eassumption.

Lemma set_guest_attached_run x :
  set_guest_attached i x st = Some (tt, with_row {| rw_guest := rw_guest r; rw_front := rw_front r;
    rw_guest_attached := x; rw_front_attached := rw_front_attached r; rw_retired := rw_retired r;
    rw_generation := rw_generation r |}).
Proof using Hr. unfold set_guest_attached. store_row. Qed.
Lemma set_frontend_attached_run x :
  set_frontend_attached i x st = Some (tt, with_row {| rw_guest := rw_guest r; rw_front := rw_front r;
    rw_guest_attached := rw_guest_attached r; rw_front_attached := x; rw_retired := rw_retired r;
    rw_generation := rw_generation r |}).
Proof using Hr. unfold set_frontend_attached. store_row. Qed.
Lemma set_guest_retired_run x :
  set_guest_retired i x st = Some (tt, with_row {| rw_guest := rw_guest r; rw_front := rw_front r;
    rw_guest_attached := rw_guest_attached r; rw_front_attached := rw_front_attached r;
    rw_retired := x; rw_generation := rw_generation r |}).
Proof using Hr. unfold set_guest_retired. store_row. Qed.
Lemma set_guest_generation_run x :
  set_guest_generation i x st = Some (tt, with_row {| rw_guest := rw_guest r; rw_front := rw_front r;
    rw_guest_attached := rw_guest_attached r; rw_front_attached := rw_front_attached r;
    rw_retired := rw_retired r; rw_generation := x |}).
Proof using Hr. unfold set_guest_generation. store_row. Qed.
Lemma set_guest_run x :
  set_guest i x st = Some (tt, with_row {| rw_guest := x; rw_front := rw_front r;
    rw_guest_attached := rw_guest_attached r; rw_front_attached := rw_front_attached r;
    rw_retired := rw_retired r; rw_generation := rw_generation r |}).
Proof using Hr. unfold set_guest. store_row. Qed.
End stores.

(** ** Lemmas: shared memory keeps its shape *)

Lemma serial_shape_refl m : serial_shape m m.
Proof. unfold serial_shape. split_and?; eauto. Qed.

Lemma serial_shape_trans m1 m2 m3 : serial_shape m1 m2 -> serial_shape m2 m3 -> serial_shape m1 m3.
Proof.
  intros (?&?&HL1) (?&?&HL2). unfold serial_shape. split_and?; auto.
  intros p d (d1&(d2&?&?)%HL2&?)%HL1. exists d2. split; [done|congruence].
Qed.

Lemma serial_touch_shape Q B m m' : serial_touch Q B m m' -> serial_shape m m'.
Proof. intros (Hm&?&_&?&_). unfold serial_shape. rewrite Hm. auto. Qed.

Lemma serial_shape_squeue m p q : serial_shape m (set_squeue p q m).
Proof. eapply serial_touch_shape, (serial_touch_squeue [p] []). in_list. Qed.

Lemma serial_shape_meta m p t : serial_shape m (set_meta p t m).
Proof.
  unfold serial_shape, set_meta. simpl. split_and?; eauto.
  intros p' ?. rewrite lookup_insert_is_Some'. auto.
Qed.

Lemma serial_shape_bytes m p d d' :
  sm_bytes m !! p = Some d -> length d' = length d ->
  serial_shape m (set_bytes (<[p := d']> (bytes_of m)) m).
Proof.
  intros Hd Hl. unfold serial_shape. simpl. split_and?; eauto.
  intros p' d0 Hp'. destruct (decide (p = p')) as [->|].
  - rewrite lookup_insert_eq. eexists. split; [done|congruence].
  - rewrite lookup_insert_ne by done. eauto.
Qed.

Lemma handle_shape m m' h : serial_shape m m' -> handle_ok m h -> handle_ok m' h.
Proof.
  intros (HQ&_&HL) (q&d&?&?&?&(d'&?&Hl)%HL&?). destruct (HQ (sqh_queue h)) as [q' ?]; [eauto|].
  exists q', d'. unfold serial_mapped. by rewrite Hl.
Qed.

Lemma chan_shape m m' c : serial_shape m m' -> chan_ok m c -> chan_ok m' c.
Proof.
  intros Hs (?&?&?&?). unfold chan_ok. split_and?; [by eapply handle_shape..| |done]. by apply Hs.
Qed.

Lemma row_shape m m' r : serial_shape m m' -> row_ok m r -> row_ok m' r.
Proof.
  intros Hs (?&Hg&?&?). unfold row_ok. split_and?; auto; [by eapply chan_shape|].
  intros Hz. eapply chan_shape; [done|auto].
Qed.
Create HintDb serialdb.
#[export] Hint Resolve serial_shape_refl serial_shape_squeue serial_shape_meta : serialdb.

(** ** Lemmas: operations on shared memory *)

Lemma load_meta_run p m t : sm_metas m !! p = Some t -> load_meta p m = Some (t, m).
Proof. intros Ht. unfold load_meta. by rewrite run_get, Ht. Qed.

Lemma wp_load_meta p m t Q : sm_metas m !! p = Some t -> Q t m -> wp (load_meta p) Q m.
Proof. intros Ht HQ. unfold wp. by rewrite (load_meta_run p m t Ht). Qed.

Lemma wp_store_guest_state p x m :
  is_Some (sm_metas m !! p) -> wp (store_guest_state p x) (fun _ => serial_shape m) m.
Proof.
  intros [t Ht]. unfold store_guest_state. wp_step. eapply wp_load_meta; [done|]. wp_step.
  apply serial_shape_meta.
Qed.
Lemma wp_store_attached p x m :
  is_Some (sm_metas m !! p) -> wp (store_attached p x) (fun _ => serial_shape m) m.
Proof.
  intros [t Ht]. unfold store_attached. wp_step. eapply wp_load_meta; [done|]. wp_step.
  apply serial_shape_meta.
Qed.
Lemma wp_store_gate p x m :
  is_Some (sm_metas m !! p) -> wp (store_gate p x) (fun _ => serial_shape m) m.
Proof.
  intros [t Ht]. unfold store_gate. wp_step. eapply wp_load_meta; [done|]. wp_step.
  apply serial_shape_meta.
Qed.
Lemma wp_gate_fetch_or p bits m :
  is_Some (sm_metas m !! p) -> wp (gate_fetch_or p bits) (fun _ => serial_shape m) m.
Proof.
  intros [t Ht]. unfold gate_fetch_or. wp_step. eapply wp_load_meta; [done|]. wp_step.
  eapply wp_mono; [apply wp_store_gate; eauto|]. intros ? m' Hs. by wp_step.
Qed.

Lemma wp_transfer_shape s t budget m :
  handle_ok m s -> handle_ok m t -> 0 <= budget ->
  wp (aos_serial_virt_transfer s t budget) (fun _ => serial_shape m) m.
Proof.
  intros (qs&ds&Hs) (qd&dd&Ht) Hb.
  destruct (decide (sqh_queue s <> sqh_queue t /\ sqh_data s <> sqh_data t)) as [Ha|Hna].
  - destruct (decide (sqh_capacity s < serial_occupied qs \/ sqh_capacity t < serial_occupied qd)) as [Hbad|Hgood].
    + unfold wp. rewrite (serial_transfer_malformed m s t qs ds qd dd) by done. apply serial_shape_refl.
    + eapply wp_mono; [eapply (wp_serial_transfer m s t _ _ budget Ha)|].
      * exists qs, ds. split_and?; [done|lia|done].
      * exists qd, dd. split_and?; [done|lia|done].
      * done.
      * intros r m' [Htch _]. by eapply serial_touch_shape.
  - unfold aos_serial_virt_transfer, wp.
    assert (negb (valid_handle s) || negb (valid_handle t) || (sqh_queue s =? sqh_queue t) ||
      (sqh_data s =? sqh_data t) = true) as -> by lia.
    apply serial_shape_refl.
Qed.

Lemma wp_pump_pair i budget g f res m :
  chan_ok m g -> chan_ok m f -> 0 <= budget ->
  wp (pump_pair i budget g f res) (fun _ => serial_shape m) m.
Proof.
  intros Hg Hf Hb. unfold pump_pair. pose proof Hg as (_&_&(t&Ht)&_). wp_step.
  eapply wp_load_meta; [done|]. wp_step.
  eapply wp_mono; [apply wp_store_guest_state; apply Hf|]. intros ? m1 H1. wp_step.
  eapply wp_mono; [apply wp_store_attached; by apply H1, Hf|].
  intros ? m2 H2%(serial_shape_trans _ _ _ H1). wp_step.
  eapply wp_mono; [apply wp_transfer_shape; [eapply handle_shape; [done|apply Hg]|eapply handle_shape; [done|apply Hf]|done]|].
  intros [st1 output] m3 H3%(serial_shape_trans _ _ _ H2). wp_step.
  eapply wp_mono; [apply wp_transfer_shape; [eapply handle_shape; [done|apply Hf]|eapply handle_shape; [done|apply Hg]|done]|].
  intros [st2 input] m4 H4%(serial_shape_trans _ _ _ H3). by wp_step.
Qed.

Lemma svc_inv_row st i r :
  svc_inv st -> 0 <= i < AOS_SERIAL_CLIENTS -> svc_at (ss_svc st) i = Some r -> row_ok (ss_mem st) r.
Proof. intros Hi Hb Hr. destruct (Hi i Hb) as (r'&Hr'&?). by assert (r' = r) as -> by congruence. Qed.

Lemma wp_service_pump st budget :
  svc_inv st -> 0 <= budget ->
  wp (aos_serial_virt_service_pump (ss_svc st) budget) (fun _ => serial_shape (ss_mem st)) (ss_mem st).
Proof.
  intros Hinv Hb. unfold aos_serial_virt_service_pump.
  apply wp_for with (Inv := fun _ _ m' => serial_shape (ss_mem st) m'); [apply serial_shape_refl| |done].
  intros i res m Hi Hs. destruct (Hinv i) as (r&Hr&Hf&Hg&Hra&_); [unfold AOS_SERIAL_CLIENTS in *; lia|].
  apply svc_at_Some in Hr as (H1&H2&H3&H4&H5&H6).
  wp_step. eapply wp_lift; [exact H3|]. wp_step. eapply wp_lift; [exact H4|].
  wp_step; [by wp_step|]. wp_step. eapply wp_lift; [exact H1|]. wp_step. eapply wp_lift; [exact H2|].
  wp_step. eapply wp_mono; [apply wp_pump_pair; [| |done]|].
  - eapply chan_shape; [done|]. apply Hg. destruct (decide (rw_retired r = 0)); [done|]. specialize (Hra ltac:(done)). lia.
  - by eapply chan_shape.
  - intros res' m' Hs'. wp_step. simpl. by eapply serial_shape_trans.
Qed.

(** ** Lemmas: operations of the service *)

Lemma wp_in_mem {A} (p : prog serial_mem A) (Q : A -> svc_state -> Prop) st :
  wp p (fun a m => Q a {| ss_svc := ss_svc st; ss_mem := m |}) (ss_mem st) -> wp (in_mem p) Q st.
Proof. unfold wp, in_mem. by destruct (p (ss_mem st)) as [[a m]|]. Qed.

Lemma wp_get_svc (Q : aos_serial_virt_service -> svc_state -> Prop) st :
  Q (ss_svc st) st -> wp get_svc Q st.
Proof. done. Qed.

(** Postcondition shared by all operations. *)
Definition svc_post (st st' : svc_state) : Prop := svc_inv st' /\ svc_later st st'.

Lemma row_later_refl m r : row_ok m r -> row_later r r.
Proof. intros (_&_&?&_). unfold row_later. split_and?; auto; lia. Qed.

Lemma row_later_trans r1 r2 r3 : row_later r1 r2 -> row_later r2 r3 -> row_later r1 r3.
Proof.
  intros (H1&H2&H3) (H4&H5&H6). unfold row_later. split_and?; [congruence|lia|].
  intros Hg Hr. destruct H3 as [? _]; [lia|done|]. apply H6; [lia|done].
Qed.

Lemma svc_post_put st c r r' m :
  svc_inv st -> 0 <= c < AOS_SERIAL_CLIENTS -> svc_at (ss_svc st) c = Some r ->
  serial_shape (ss_mem st) m -> row_ok m r' -> row_later r r' ->
  svc_post st {| ss_svc := svc_put (ss_svc st) c r'; ss_mem := m |}.
Proof.
  intros Hinv Hc Hr Hs Hok Hl. split.
  - intros i Hi. simpl. destruct (decide (c = i)) as [<-|Hne].
    + exists r'. split; [by eapply svc_at_put|done].
    + rewrite svc_at_put_ne by lia. destruct (Hinv i Hi) as (ri&Hri&Hoki). exists ri.
      split; [done|by eapply row_shape].
  - intros i ri ri' Hi Hri Hri'. simpl in Hri'. destruct (decide (c = i)) as [<-|Hne].
    + rewrite (svc_at_put _ _ r) in Hri' by done. by simplify_eq.
    + rewrite svc_at_put_ne in Hri' by lia. simplify_eq.
      eapply row_later_refl, svc_inv_row; [done|done|exact Hri].
Qed.

Lemma svc_post_mem st m :
  svc_inv st -> serial_shape (ss_mem st) m -> svc_post st {| ss_svc := ss_svc st; ss_mem := m |}.
Proof.
  intros Hinv Hs. split.
  - intros i Hi. destruct (Hinv i Hi) as (ri&Hri&Hoki). exists ri. split; [done|by eapply row_shape].
  - intros i ri ri' Hi Hri Hri'. simpl in Hri'. simplify_eq.
    eapply row_later_refl, svc_inv_row; [done|done|exact Hri].
Qed.

Lemma svc_post_refl st : svc_inv st -> svc_post st st.
Proof. intros Hinv. destruct st as [s m]. apply (svc_post_mem {| ss_svc := s; ss_mem := m |}); auto with serialdb. Qed.

Lemma wp_attach badge req len st :
  svc_inv st -> 0 <= sar_client req ->
  wp (aos_serial_virt_attach badge req len) (fun _ => svc_post st) st.
Proof.
  intros Hinv Hc. pose proof (svc_post_refl st Hinv) as Hrefl. unfold aos_serial_virt_attach.
  do 3 (wp_step; [by wp_step|]).
  assert (0 <= sar_client req < AOS_SERIAL_CLIENTS) as Hb.
  { eapply serial_authorized_client; [done|]. by apply negb_false_iff. }
  destruct (Hinv _ Hb) as (r&Hr&Hok). pose proof (proj1 (svc_at_Some _ _ _) Hr) as (_&_&H3&H4&H5&_).
  wp_step. apply wp_get_svc. wp_step.
  eapply (wp_lift _ (if sar_role req =? SERIAL_VIRT_ROLE_FRONTEND then rw_front_attached r else rw_guest_attached r));
    [by case_cmp|].
  wp_step; [by wp_step|]. wp_step. eapply wp_lift; [exact H5|]. wp_step; [by wp_step|].
  wp_step. destruct (sar_role req =? SERIAL_VIRT_ROLE_FRONTEND); unfold wp.
  - rewrite (set_frontend_attached_run st _ r Hr).
    apply (svc_post_put st _ r); auto with serialdb.
    exact (row_later_refl _ r Hok).
  - rewrite (set_guest_attached_run st _ r Hr).
    apply (svc_post_put st _ r); auto with serialdb.
    + destruct Hok as (?&?&?&?). unfold row_ok. simpl. split_and?; auto. intros. lia.
    + unfold row_later. simpl. split_and?; [done|lia|]. intros. lia.
Qed.

(** The row of a client that was just detached. *)
Definition row_detached (r : svc_row) : svc_row :=
  {| rw_guest := serial_channel_zero; rw_front := rw_front r; rw_guest_attached := 0;
     rw_front_attached := rw_front_attached r; rw_retired := 1; rw_generation := rw_generation r |}.

Lemma detach_stores_run s m c r :
  svc_at s c = Some r -> 0 <= c ->
  (set_guest_attached c 0;; set_guest c serial_channel_zero;; set_guest_retired c 1;; mret SERIAL_VIRT_OK)
    {| ss_svc := s; ss_mem := m |} =
  Some (SERIAL_VIRT_OK, {| ss_svc := svc_put s c (row_detached r); ss_mem := m |}).
Proof.
  intros Hr Hc. rewrite (run_bind _ _ _ _ _ (set_guest_attached_run {| ss_svc := s; ss_mem := m |} c r Hr 0)).
  cbn [ss_svc ss_mem]. set (r1 := {| rw_guest := _ |}).
  rewrite (run_bind _ _ _ _ _ (set_guest_run {| ss_svc := svc_put s c r1; ss_mem := m |} c r1
    (svc_at_put _ _ _ _ Hr) serial_channel_zero)).
  cbn [ss_svc ss_mem]. rewrite svc_put_put. set (r2 := {| rw_guest := serial_channel_zero |}).
  rewrite (run_bind _ _ _ _ _ (set_guest_retired_run {| ss_svc := svc_put s c r2; ss_mem := m |} c r2
    (svc_at_put _ _ _ _ Hr) 1)).
  cbn [ss_svc ss_mem]. by rewrite svc_put_put.
Qed.

Lemma wp_detach badge req len st :
  svc_inv st -> 0 <= sar_client req ->
  wp (aos_serial_virt_detach badge req len) (fun _ => svc_post st) st.
Proof.
  intros Hinv Hc. pose proof (svc_post_refl st Hinv) as Hrefl. unfold aos_serial_virt_detach.
  do 2 (wp_step; [by wp_step|]). wp_step; [by wp_step|].
  assert (0 <= sar_client req < AOS_SERIAL_CLIENTS) as Hb.
  { apply (serial_authorized_client badge _ (sar_role req)); [done|].
    match goal with H : _ || negb _ = false |- _ => by apply orb_false_iff in H as [_ ?%negb_false_iff] end. }
  destruct (Hinv _ Hb) as (r&Hr&Hok). pose proof (proj1 (svc_at_Some _ _ _) Hr) as (_&H2&_&H4&H5&_).
  wp_step. apply wp_get_svc. wp_step. eapply wp_lift; [exact H5|]. wp_step; [by wp_step|].
  wp_step. eapply wp_lift; [exact H2|]. wp_step; [by wp_step|].
  wp_step. apply wp_in_mem. eapply wp_mono; [apply wp_gate_fetch_or; by destruct Hok as ((_&_&?&_)&_)|].
  intros gate m1 Hs1. wp_step; [wp_step; by apply svc_post_mem|].
  wp_step. eapply wp_lift; [exact H4|]. wp_step.
  assert (wp (if negb (rw_front_attached r =? 0) then in_mem (store_attached (sch_meta (rw_front r)) 0) else mret tt)
    (fun _ st' => ss_svc st' = ss_svc st /\ serial_shape (ss_mem st) (ss_mem st'))
    {| ss_svc := ss_svc st; ss_mem := m1 |}) as Hsa.
  { wp_step; [|by wp_step]. apply wp_in_mem. eapply wp_mono; [apply wp_store_attached; apply Hs1; by destruct Hok as ((_&_&?&_)&_)|].
    intros ? m2 Hs2. split; [done|]. eapply serial_shape_trans; [exact Hs1|exact Hs2]. }
  eapply wp_mono; [exact Hsa|]. intros ? [s2 m2] [Heq Hs2]. simpl in Heq, Hs2. subst s2. unfold wp.
  rewrite (detach_stores_run _ m2 _ r Hr Hc). apply (svc_post_put st _ r); [done..| |].
  - destruct Hok as (?&?&?&?). unfold row_ok. simpl. split_and?; auto; [by eapply chan_shape|done].
  - unfold row_later. simpl. split_and?; [done|lia|auto].
Qed.

(** ** Lemmas: rebinding *)

(** The conditions a rebind must meet. *)
Definition rebind_allowed (st : svc_state) (badge : Z) (req : serial_virt_rebind_req) (r : svc_row) : Prop :=
  serial_virt_authorized badge (srr_client req) SERIAL_VIRT_ROLE_VMM = true /\
  0 <= srr_client req < AOS_SERIAL_CLIENTS /\
  srr_generation req = rw_generation r + 1 /\ is_u32 (rw_generation r + 1) /\
  rw_retired r <> 0 /\ rw_guest_attached r = 0 /\ sch_meta (rw_front r) <> NULL /\
  exists t, sm_metas (ss_mem st) !! sch_meta (rw_front r) = Some t /\
    scm_frontend_gate t = AOS_SERIAL_FRONTEND_CLOSED.

Lemma wp_rebind_validate badge req len st :
  svc_inv st -> 0 <= srr_client req ->
  wp (aos_serial_virt_rebind_validate badge req len) (fun r st' => st' = st /\
    (r = SERIAL_VIRT_OK -> exists row, svc_at (ss_svc st) (srr_client req) = Some row /\
       rebind_allowed st badge req row)) st.
Proof.
  intros Hinv Hc. unfold aos_serial_virt_rebind_validate.
  do 3 (wp_step; [by wp_step|]).
  match goal with H : negb (serial_virt_authorized _ _ _) = false |- _ => apply negb_false_iff in H as Hauth end.
  assert (0 <= srr_client req < AOS_SERIAL_CLIENTS) as Hb by (by eapply serial_authorized_client).
  destruct (Hinv _ Hb) as (row&Hr&Hok).
  pose proof (proj1 (svc_at_Some _ _ _) Hr) as (_&H2&H3&_&H5&H6).
  destruct Hok as ((_&_&(t&Ht)&_)&_&_&Hgen).
  wp_step. apply wp_get_svc. wp_step. eapply wp_lift; [exact H6|]. wp_step; [by wp_step|].
  wp_step. eapply wp_lift; [exact H5|]. wp_step. eapply wp_lift; [exact H3|]. wp_step; [by wp_step|].
  wp_step. eapply wp_lift; [exact H2|]. wp_step; [by wp_step|].
  wp_step. apply wp_in_mem. eapply wp_load_meta; [exact Ht|].
  wp_step; wp_step; (split; [by destruct st|]); [done|]. intros _. exists row. split; [done|].
  unfold rebind_allowed, frontend_closed, UINT32_MAX in *.
  assert (is_u32 (rw_generation row + 1)) as Hu by (unfold is_u32 in *; lia).
  rewrite (u32_small _ Hu) in *. split_and?; [done|lia..|done|lia|lia|lia|].
  exists t. split; [done|lia].
Qed.

Lemma empty_queue_run m h cap q d :
  serial_mapped m h q d -> exists b, empty_queue h cap m = Some (b, m) /\
    (b = true -> sqh_capacity h = cap /\ q = serial_queue_zero).
Proof.
  intros (_&_&Hq&_). unfold empty_queue. case_cmp; [by exists false|].
  rewrite (run_bind _ _ _ _ _ (load_squeue_run _ m q Hq)). eexists. split; [done|].
  destruct q. simpl. intros. split; [lia|]. unfold serial_queue_zero. f_equal; lia.
Qed.

(** What [fresh_channel_ok] establishes. *)
Definition fresh_for (m : serial_mem) (fresh front : aos_serial_channel) : Prop :=
  serial_list m (sch_to_guest fresh) [] /\ serial_list m (sch_from_guest fresh) [] /\
  sch_meta fresh <> sch_meta front /\
  sqh_queue (sch_to_guest fresh) <> sqh_queue (sch_to_guest front) /\
  sqh_queue (sch_from_guest fresh) <> sqh_queue (sch_from_guest front) /\
  sqh_capacity (sch_to_guest front) = AOS_SERIAL_RX_CAPACITY /\
  sqh_capacity (sch_from_guest front) = AOS_SERIAL_TX_CAPACITY.

Lemma serial_list_zero m h d : serial_mapped m h serial_queue_zero d -> serial_list m h [].
Proof.
  intros Hm. exists serial_queue_zero, d. split_and?; [done| |done].
  destruct Hm as (_&Hc&_). change (serial_occupied serial_queue_zero) with 0. unfold is_u32 in Hc. lia.
Qed.

Lemma fresh_channel_ok_run m fresh front :
  chan_ok m fresh -> exists b, fresh_channel_ok fresh front m = Some (b, m) /\
    (b = true -> fresh_for m fresh front).
Proof.
  intros ((q1&d1&Hm1)&(q2&d2&Hm2)&(t&Ht)&_). unfold fresh_channel_ok.
  case_cmp; [by exists false|]. rewrite (run_bind _ _ _ _ _ (load_meta_run _ m t Ht)).
  case_cmp; [by exists false|].
  destruct (empty_queue_run m _ AOS_SERIAL_RX_CAPACITY q1 d1 Hm1) as (b1&He1&Hb1).
  rewrite (run_bind _ _ _ _ _ He1). destruct b1; simpl; [|by exists false].
  destruct (empty_queue_run m _ AOS_SERIAL_TX_CAPACITY q2 d2 Hm2) as (b2&He2&Hb2).
  rewrite (run_bind _ _ _ _ _ He2). destruct b2; simpl; [|by exists false].
  eexists. split; [done|]. intros Hneg%negb_true_iff. destruct (Hb1 eq_refl) as [_ ->], (Hb2 eq_refl) as [_ ->].
  unfold fresh_for. split_and?; [by eapply serial_list_zero..| | | | |]; lia.
Qed.

Lemma zero_data_loop base : forall n i d m,
  sm_bytes m !! base = Some d -> 0 <= i -> i + Z.of_nat n <= Z.of_nat (length d) ->
  for_loop n i tt (fun i _ => store_byte base i 0;; mret (Continue, tt)) m =
  Some (tt, set_bytes (<[base := list_inserts (Z.to_nat i) (replicate n 0) d]> (bytes_of m)) m).
Proof.
  induction n as [|n IH]; intros i d m Hd Hi Hl.
  - simpl. rewrite insert_id by done. by destruct m.
  - cbn [for_loop replicate list_inserts]. unfold mbind at 1, prog_bind at 1.
    assert (store_byte base i 0 m =
      Some (tt, set_bytes (<[base := <[Z.to_nat i := 0]> d]> (bytes_of m)) m)) as Hst
      by (apply store_byte_run; [done|lia]).
    rewrite (run_bind _ _ _ _ _ Hst). cbn [mret prog_ret].
    rewrite (IH _ (<[Z.to_nat i := 0]> d)); [|apply lookup_insert_eq|lia|by rewrite length_insert; lia].
    rewrite bytes_of_set, set_bytes_set, insert_insert_eq, list_insert_inserts_lt by lia.
    by replace (Z.to_nat (i + 1)) with (S (Z.to_nat i)) by lia.
Qed.

(** A region whose first [cap] bytes are all zero. *)
Definition zeroed (m : serial_mem) (h : aos_serial_queue_handle) : Prop :=
  exists d, sm_bytes m !! sqh_data h = Some d /\
    take (Z.to_nat (sqh_capacity h)) d = replicate (Z.to_nat (sqh_capacity h)) 0.

(** The memory after wiping a channel, piece by piece. *)
Lemma zero_data_run m h q d :
  serial_mapped m h q d ->
  exists d', length d' = length d /\ take (Z.to_nat (sqh_capacity h)) d' = replicate (Z.to_nat (sqh_capacity h)) 0 /\
    zero_data h m = Some (tt, set_bytes (<[sqh_data h := d']> (bytes_of m)) m).
Proof.
  intros (_&Hc&_&Hd&Hl). unfold is_u32 in Hc. eexists. split_and?; [| |apply (zero_data_loop _ _ _ d)]; [..|done|lia|lia].
  - apply length_inserts.
  - rewrite <- (drop_0 (list_inserts _ _ d)). apply (aslice_inserts (replicate (Z.to_nat (sqh_capacity h)) 0) d 0 (sqh_capacity h));
      rewrite ?length_replicate; lia.
Qed.

Lemma zero_squeue_run m p : is_Some (sm_queues m !! p) ->
  zero_squeue p m = Some (tt, set_squeue p serial_queue_zero m).
Proof. intros [q Hq]. unfold zero_squeue. by rewrite (run_bind _ _ _ _ _ (load_squeue_run p m q Hq)). Qed.

Definition meta_with (t : aos_serial_channel_meta) (s a : Z) : aos_serial_channel_meta :=
  {| scm_guest_state := s; scm_attached := a; scm_frontend_gate := scm_frontend_gate t |}.

Lemma store_states_run m p t :
  sm_metas m !! p = Some t ->
  (store_guest_state p 0;; store_attached p 0) m = Some (tt, set_meta p (meta_with t 0 0) m).
Proof.
  intros Ht. unfold store_guest_state, store_attached, mbind, prog_bind.
  rewrite (load_meta_run p m t Ht). cbn [modify].
  set (m1 := set_meta p {| scm_guest_state := 0 |} m).
  rewrite (load_meta_run p m1 _ ltac:(apply lookup_insert_eq)). unfold modify, meta_with. simpl.
  subst m1. unfold set_meta. simpl. by rewrite insert_insert_eq.
Qed.

(** Wiping leaves both queues of the channel empty and every byte zero. *)
Definition wiped (m m' : serial_mem) (c : aos_serial_channel) : Prop :=
  serial_shape m m' /\
  serial_list m' (sch_to_guest c) [] /\ serial_list m' (sch_from_guest c) [] /\
  zeroed m' (sch_to_guest c) /\ zeroed m' (sch_from_guest c) /\
  exists t, sm_metas m !! sch_meta c = Some t /\ sm_metas m' !! sch_meta c = Some (meta_with t 0 0).

Lemma wp_wipe_channel m c :
  chan_ok m c -> wp (wipe_channel c) (fun _ m' => wiped m m' c) m.
Proof.
  intros ((q1&d1&Hm1)&(q2&d2&Hm2)&(t&Ht)&Hqne&Hdne). unfold wipe_channel.
  destruct (zero_data_run m _ q1 d1 Hm1) as (d1'&Hl1&Hz1&Hrun1). pose proof Hm1 as (Hv1&Hc1&Hq1&Hd1&Hle1).
  pose proof Hm2 as (Hv2&Hc2&Hq2&Hd2&Hle2).
  set (m1 := set_bytes (<[sqh_data (sch_to_guest c) := d1']> (bytes_of m)) m) in *.
  assert (serial_mapped m1 (sch_from_guest c) q2 d2) as Hm2'.
  { unfold serial_mapped. split_and?; try done. subst m1. simpl. by rewrite lookup_insert_ne. }
  destruct (zero_data_run m1 _ q2 d2 Hm2') as (d2'&Hl2&Hz2&Hrun2).
  set (m2 := set_bytes (<[sqh_data (sch_from_guest c) := d2']> (bytes_of m1)) m1) in *.
  unfold wp. rewrite (run_bind _ _ _ _ _ Hrun1), (run_bind _ _ _ _ _ Hrun2).
  rewrite (run_bind _ _ _ _ _ (zero_squeue_run m2 (sqh_queue (sch_to_guest c)) ltac:(by exists q1))).
  set (m3 := set_squeue _ _ m2).
  rewrite (run_bind _ _ _ _ _ (zero_squeue_run m3 (sqh_queue (sch_from_guest c)) ltac:(simpl; rewrite lookup_insert_ne by done; by exists q2))).
  set (m4 := set_squeue _ _ m3). rewrite (store_states_run m4 _ t Ht).
  assert (sm_bytes m4 !! sqh_data (sch_to_guest c) = Some d1') as Hb1.
  { simpl. rewrite lookup_insert_ne by done. apply lookup_insert_eq. }
  assert (sm_bytes m4 !! sqh_data (sch_from_guest c) = Some d2') as Hb2 by apply lookup_insert_eq.
  unfold wiped. split_and?.
  - eapply serial_shape_trans; [by eapply (serial_shape_bytes m _ d1 d1')|].
    eapply serial_shape_trans; [eapply (serial_shape_bytes m1 _ d2 d2'); [by destruct Hm2' as (_&_&_&?&_)|done]|].
    eapply serial_shape_trans; [apply serial_shape_squeue|].
    eapply serial_shape_trans; [apply serial_shape_squeue|]. apply serial_shape_meta.
  - apply (serial_list_zero _ _ d1'). unfold serial_mapped. split_and?; [done..| |done|lia].
    simpl. rewrite lookup_insert_ne by done. apply lookup_insert_eq.
  - apply (serial_list_zero _ _ d2'). unfold serial_mapped. split_and?; [done..|apply lookup_insert_eq|done|lia].
  - by exists d1'.
  - by exists d2'.
  - exists t. split; [done|]. apply lookup_insert_eq.
Qed.

Lemma commit_stores_run s m c r fresh gen p t :
  svc_at s c = Some r -> sm_metas m !! p = Some t ->
  (set_guest c fresh;; set_guest_attached c 1;; set_guest_retired c 0;; set_guest_generation c gen;;
   in_mem (store_gate p 0);; mret SERIAL_VIRT_OK) {| ss_svc := s; ss_mem := m |} =
  Some (SERIAL_VIRT_OK,
    {| ss_svc := svc_put s c {| rw_guest := fresh; rw_front := rw_front r; rw_guest_attached := 1;
         rw_front_attached := rw_front_attached r; rw_retired := 0; rw_generation := gen |};
       ss_mem := set_meta p {| scm_guest_state := scm_guest_state t; scm_attached := scm_attached t;
                               scm_frontend_gate := 0 |} m |}).
Proof.
  intros Hr Ht. rewrite (run_bind _ _ _ _ _ (set_guest_run {| ss_svc := s; ss_mem := m |} c r Hr fresh)).
  cbn [ss_svc ss_mem]. set (r1 := {| rw_guest := _ |}).
  rewrite (run_bind _ _ _ _ _ (set_guest_attached_run {| ss_svc := svc_put s c r1; ss_mem := m |} c r1 (svc_at_put _ _ _ _ Hr) 1)).
  cbn [ss_svc ss_mem]. rewrite svc_put_put. set (r2 := {| rw_guest := _ |}).
  rewrite (run_bind _ _ _ _ _ (set_guest_retired_run {| ss_svc := svc_put s c r2; ss_mem := m |} c r2 (svc_at_put _ _ _ _ Hr) 0)).
  cbn [ss_svc ss_mem]. rewrite svc_put_put. set (r3 := {| rw_guest := _ |}).
  rewrite (run_bind _ _ _ _ _ (set_guest_generation_run {| ss_svc := svc_put s c r3; ss_mem := m |} c r3 (svc_at_put _ _ _ _ Hr) gen)).
  cbn [ss_svc ss_mem]. rewrite svc_put_put. unfold mbind, prog_bind, in_mem, store_gate. cbn [ss_svc ss_mem].
  unfold mbind, prog_bind. by rewrite (load_meta_run p m t Ht).
Qed.

(** The state after a successful rebind. *)
Definition rebound (st st' : svc_state) (req : serial_virt_rebind_req) (r : svc_row)
    (fresh : aos_serial_channel) : Prop :=
  ss_svc st' = svc_put (ss_svc st) (srr_client req)
    {| rw_guest := fresh; rw_front := rw_front r; rw_guest_attached := 1;
       rw_front_attached := rw_front_attached r; rw_retired := 0;
       rw_generation := rw_generation r + 1 |} /\
  serial_list (ss_mem st') (sch_to_guest (rw_front r)) [] /\
  serial_list (ss_mem st') (sch_from_guest (rw_front r)) [] /\
  zeroed (ss_mem st') (sch_to_guest (rw_front r)) /\ zeroed (ss_mem st') (sch_from_guest (rw_front r)) /\
  sm_metas (ss_mem st') !! sch_meta (rw_front r) =
    Some {| scm_guest_state := 0; scm_attached := 0; scm_frontend_gate := 0 |}.

Lemma serial_list_meta m h l p t : serial_list m h l -> serial_list (set_meta p t m) h l.
Proof. done. Qed.

Lemma wp_rebind badge req len fresh st :
  svc_inv st -> 0 <= srr_client req -> chan_ok (ss_mem st) fresh ->
  wp (aos_serial_virt_rebind_commit badge req len fresh) (fun res st' =>
    serial_shape (ss_mem st) (ss_mem st') /\
    if res =? SERIAL_VIRT_OK then
      exists r, svc_at (ss_svc st) (srr_client req) = Some r /\ rebind_allowed st badge req r /\
        fresh_for (ss_mem st) fresh (rw_front r) /\ rebound st st' req r fresh
    else st' = st) st.
Proof.
  intros Hinv Hc Hfresh. unfold aos_serial_virt_rebind_commit. wp_step.
  eapply wp_mono; [by apply wp_rebind_validate|]. intros status st1 [-> Hok].
  destruct (Z.eqb_spec status SERIAL_VIRT_OK) as [Hst|Hst]; cbn [negb].
  2:{ wp_step. split; [apply serial_shape_refl|]. by rewrite (proj2 (Z.eqb_neq _ _) Hst). }
  destruct (Hok Hst) as (r&Hr&Hall). pose proof Hall as (_&Hb&Hg&_&_&_&_&t&Ht&_).
  pose proof (svc_inv_row st _ r Hinv Hb Hr) as (Hfront&_).
  pose proof (proj1 (svc_at_Some _ _ _) Hr) as (_&H2&_).
  wp_step. apply wp_get_svc. wp_step. eapply wp_lift; [exact H2|]. wp_step. apply wp_in_mem.
  destruct (fresh_channel_ok_run (ss_mem st) fresh (rw_front r) Hfresh) as (b&Hb'&Hfor).
  unfold wp at 1. rewrite Hb'.
  destruct b; cbn [negb]; [|wp_step; split; [apply serial_shape_refl|by destruct st]].
  wp_step. apply wp_in_mem. eapply wp_mono; [by apply wp_wipe_channel|].
  intros ? m (Hs&Hl1&Hl2&Hz1&Hz2&t'&_&Ht').
  unfold wp. rewrite (commit_stores_run _ m _ r _ _ _ _ Hr Ht'). cbn [ss_mem ss_svc]. simpl.
  split; [eapply serial_shape_trans; [exact Hs|apply serial_shape_meta]|].
  exists r. split_and?; [done..|by apply Hfor|]. unfold rebound. simpl. rewrite Hg, lookup_insert_eq. by split_and?.
Qed.

Lemma wp_rebind_post badge req len fresh st :
  svc_inv st -> 0 <= srr_client req -> chan_ok (ss_mem st) fresh ->
  wp (aos_serial_virt_rebind_commit badge req len fresh) (fun _ => svc_post st) st.
Proof.
  intros Hinv Hc Hf. eapply wp_mono; [by apply wp_rebind|]. intros res [s' m'] [Hs Hpost].
  destruct (res =? SERIAL_VIRT_OK); [|rewrite Hpost; by apply svc_post_refl].
  destruct Hpost as (r&Hr&(_&Hb&_&Hgen&_&_&_&_)&_&Hsvc&_). simpl in Hsvc, Hs. subst s'.
  pose proof (svc_inv_row st _ r Hinv Hb Hr) as (Hfront&_).
  apply (svc_post_put st _ r); [done..| |].
  - unfold row_ok. simpl. split_and?; [by eapply chan_shape|intros _; by eapply chan_shape|done|done].
  - unfold row_later. simpl. split_and?; [done|lia|lia].
Qed.

Lemma svc_step_post st st' : svc_inv st -> svc_step st st' -> svc_post st st'.
Proof.
  intros Hinv Hstep. destruct Hstep.
  - eapply (wp_result _ (fun _ => svc_post st)); [by apply wp_attach|done].
  - eapply (wp_result _ (fun _ => svc_post st)); [by apply wp_detach|done].
  - eapply (wp_result _ (fun _ => svc_post st)); [by apply wp_rebind_post|done].
  - eapply (wp_result _ (fun _ => svc_post st)); [|done]. apply wp_in_mem.
    eapply wp_mono; [by apply wp_service_pump|]. intros ? m Hs. by apply svc_post_mem.
  - by apply svc_post_mem.
Qed.

Lemma svc_start_inv st : svc_start st -> svc_inv st.
Proof.
  intros Hs i Hi. destruct (Hs i Hi) as (g&f&?&?&Hr). eexists. split; [exact Hr|].
  unfold row_ok, is_u32. simpl. split_and?; auto; lia.
Qed.

Lemma svc_steps_post st st' : svc_inv st -> rtc svc_step st st' -> svc_post st st'.
Proof.
  intros Hinv Hsteps. induction Hsteps as [st|st st1 st' Hstep Hsteps IH]; [by apply svc_post_refl|].
  destruct (svc_step_post st st1 Hinv Hstep) as [Hinv1 Hl1]. destruct (IH Hinv1) as [Hinv' Hl'].
  split; [done|]. intros i r r' Hi Hr Hr'. destruct (Hinv1 i Hi) as (r1&Hr1&_).
  eapply row_later_trans; [by eapply Hl1|by eapply Hl'].
Qed.

(** ** Demonstration instance: three clients with queues of four bytes *)
Definition serial_demo_chan (b : Z) : aos_serial_channel :=
  {| sch_to_guest := {| sqh_queue := b; sqh_data := b; sqh_capacity := 4 |};
     sch_from_guest := {| sqh_queue := b + 1; sqh_data := b + 1; sqh_capacity := 4 |};
     sch_meta := b |}.
Definition serial_demo_svc : aos_serial_virt_service :=
  {| svs_guest := serial_demo_chan <$> [10; 20; 30]; svs_frontend := serial_demo_chan <$> [40; 50; 60];
     svs_guest_attached := [0; 0; 0]; svs_frontend_attached := [0; 0; 0];
     svs_guest_retired := [0; 0; 0]; svs_guest_generation := [0; 0; 0] |}.
Definition serial_demo_shared : serial_mem :=
  {| sm_queues := list_to_map ((fun k => (k, serial_queue_zero)) <$> seqZ 10 90);
     sm_metas := list_to_map ((fun k => (k, {| scm_guest_state := 0; scm_attached := 0;
                                               scm_frontend_gate := 0 |})) <$> seqZ 10 90);
     sm_bytes := list_to_map ((fun k => (k, [0; 0; 0; 0])) <$> seqZ 10 90) |}.
Definition serial_demo_state : svc_state := {| ss_svc := serial_demo_svc; ss_mem := serial_demo_shared |}.

Lemma serial_demo_chan_ok b :
  b ∈ [10; 20; 30; 40; 50; 60; 70] -> chan_ok serial_demo_shared (serial_demo_chan b).
Proof.
  intros Hb. unfold chan_ok. split_and?.
  - eexists _, _. unfold serial_mapped. repeat (apply elem_of_cons in Hb as [->|Hb]); [..|by apply elem_of_nil in Hb];
      split_and?; vm_compute; (reflexivity || discriminate || (split; (reflexivity || discriminate))).
  - eexists _, _. unfold serial_mapped. repeat (apply elem_of_cons in Hb as [->|Hb]); [..|by apply elem_of_nil in Hb];
      split_and?; vm_compute; (reflexivity || discriminate || (split; (reflexivity || discriminate))).
  - repeat (apply elem_of_cons in Hb as [->|Hb]); [..|by apply elem_of_nil in Hb]; by eexists; vm_compute.
  - unfold serial_apart. simpl. lia.
Qed.

Lemma serial_demo_start : svc_start serial_demo_state.
Proof.
  intros i Hi. exists (serial_demo_chan (10 + 10 * i)), (serial_demo_chan (40 + 10 * i)).
  unfold AOS_SERIAL_CLIENTS in Hi. assert (i = 0 \/ i = 1 \/ i = 2) as [->|[->| ->]] by lia;
    (split; [apply serial_demo_chan_ok; in_list|split; [apply serial_demo_chan_ok; in_list|reflexivity]]).
Qed.

(** A run in which the first guest detaches. *)
Lemma serial_demo_detached :
  exists st r, rtc svc_step serial_demo_state st /\ svc_at (ss_svc st) 0 = Some r /\ rw_retired r = 1.
Proof.
  destruct (aos_serial_virt_detach VIRT_CLIENT_BADGE_PRIMARY
    {| sar_version := 4; sar_client := 0; sar_role := SERIAL_VIRT_ROLE_VMM |} 12 serial_demo_state)
    as [[res st]|] eqn:Hrun; [|vm_compute in Hrun; discriminate Hrun].
  assert (rtc svc_step serial_demo_state st) as Hsteps.
  { eapply rtc_once, svc_detach; [|exact Hrun]. by_compute. }
  vm_compute in Hrun. injection Hrun as _ Hst. apply (f_equal ss_svc) in Hst. cbn [ss_svc] in Hst.
  exists st. eexists. split; [exact Hsteps|]. by rewrite <- Hst.
Qed.

(** ** Properties *)

(** C31. The serial service never faults. From any start in which the root's
    channels are mapped, after any sequence of requests, rebinds, pumps and
    arbitrary writes by the guests and the frontend to the shared pages,
    every request and every pump runs to completion without touching memory
    that is not mapped; in particular a detached guest's pointers are never
    followed again. *)
Theorem serial_service_safe st0 st :
  svc_start st0 -> rtc svc_step st0 st ->
  (forall badge req len, 0 <= sar_client req ->
     is_Some (aos_serial_virt_attach badge req len st) /\
     is_Some (aos_serial_virt_detach badge req len st)) /\
  (forall badge req len fresh, 0 <= srr_client req -> chan_ok (ss_mem st) fresh ->
     is_Some (aos_serial_virt_rebind_commit badge req len fresh st)) /\
  (forall budget, 0 <= budget -> is_Some (aos_serial_virt_service_pump (ss_svc st) budget (ss_mem st))).
Proof.
  intros Hstart Hsteps. destruct (svc_steps_post st0 st (svc_start_inv _ Hstart) Hsteps) as [Hinv _].
  split_and?.
  - intros badge req len Hc. split.
    + destruct (wp_run _ _ _ (wp_attach badge req len st Hinv Hc)) as (r&st'&->&_). by eexists.
    + destruct (wp_run _ _ _ (wp_detach badge req len st Hinv Hc)) as (r&st'&->&_). by eexists.
  - intros badge req len fresh Hc Hf.
    destruct (wp_run _ _ _ (wp_rebind badge req len fresh st Hinv Hc Hf)) as (r&st'&->&_). by eexists.
  - intros budget Hb. destruct (wp_run _ _ _ (wp_service_pump st budget Hinv Hb)) as (r&st'&->&_). by eexists.
Qed.

(** At the start, and after a guest detached: its row is retired, and pumps
    go on without following its pointers. *)
Lemma serial_service_safe_witness :
  is_Some (aos_serial_virt_service_pump serial_demo_svc 65536 serial_demo_shared) /\
  exists st r, rtc svc_step serial_demo_state st /\ svc_at (ss_svc st) 0 = Some r /\ rw_retired r = 1 /\
    is_Some (aos_serial_virt_service_pump (ss_svc st) 65536 (ss_mem st)).
Proof.
  split; [apply (serial_service_safe serial_demo_state serial_demo_state serial_demo_start (rtc_refl _ _)); discriminate|].
  destruct serial_demo_detached as (st&r&Hsteps&Hr&Hret). exists st, r. split_and?; [exact Hsteps|exact Hr|exact Hret|].
  apply (serial_service_safe serial_demo_state st serial_demo_start Hsteps). discriminate.
Defined.

(** Detachment is final for a generation. Whatever requests and pumps
    follow, a client's generation never decreases, its frontend channel never
    changes, and as long as its generation is the same a retired client stays
    retired and unattached: no attach can reopen it. *)
Theorem serial_detach_final st0 st st' i r :
  svc_start st0 -> rtc svc_step st0 st -> rtc svc_step st st' -> 0 <= i < AOS_SERIAL_CLIENTS ->
  svc_at (ss_svc st) i = Some r ->
  exists r', svc_at (ss_svc st') i = Some r' /\ rw_front r' = rw_front r /\
    rw_generation r <= rw_generation r' /\
    (rw_generation r' = rw_generation r -> rw_retired r <> 0 ->
     rw_retired r' <> 0 /\ rw_guest_attached r' = 0).
Proof.
  intros Hstart Hs1 Hs2 Hi Hr.
  destruct (svc_steps_post st0 st (svc_start_inv _ Hstart) Hs1) as [Hinv _].
  destruct (svc_steps_post st st' Hinv Hs2) as [Hinv' Hl]. destruct (Hinv' i Hi) as (r'&Hr'&_).
  exists r'. split; [done|]. exact (Hl i r r' Hi Hr Hr').
Qed.

Lemma serial_detach_final_witness :
  exists st r r', rtc svc_step serial_demo_state st /\ svc_at (ss_svc st) 0 = Some r /\
    svc_at (ss_svc st) 0 = Some r' /\ rw_retired r = 1 /\ rw_guest_attached r' = 0.
Proof.
  destruct serial_demo_detached as (st&r&Hsteps&Hr&Hret).
  destruct (serial_detach_final serial_demo_state st st 0 r serial_demo_start Hsteps (rtc_refl _ _)
    ltac:(split; by_compute) Hr) as (r'&Hr'&_&_&Hfin).
  exists st, r, r'. split_and?; [exact Hsteps|exact Hr|exact Hr'|exact Hret|].
  apply Hfin; [|rewrite Hret; discriminate]. rewrite Hr in Hr'. by injection Hr' as <-.
Defined.

(** A rebind admits only the next generation of a retired client, and
    starts it clean. It either changes nothing, or the caller's badge speaks
    for the client, the client was retired with its frontend gate closed and
    idle, the generation is the successor of the last one and the given
    channel is empty; then the client's row is the fresh channel, attached,
    with that generation, no other client's row is touched, and the frontend
    channel holds no pending byte and no byte of the earlier guest at all,
    with the gate open again. *)
Theorem serial_rebind_clean st badge req len fresh :
  svc_inv st -> 0 <= srr_client req -> chan_ok (ss_mem st) fresh ->
  exists res st', aos_serial_virt_rebind_commit badge req len fresh st = Some (res, st') /\
    if res =? SERIAL_VIRT_OK then
      exists r, svc_at (ss_svc st) (srr_client req) = Some r /\
        rebind_allowed st badge req r /\ fresh_for (ss_mem st) fresh (rw_front r) /\
        rebound st st' req r fresh /\
        forall j, j <> srr_client req -> svc_at (ss_svc st') j = svc_at (ss_svc st) j
    else st' = st.
Proof.
  intros Hinv Hc Hf. destruct (wp_run _ _ _ (wp_rebind badge req len fresh st Hinv Hc Hf)) as (res&st'&Hrun&_&Hpost).
  exists res, st'. split; [done|]. destruct (res =? SERIAL_VIRT_OK); [|done].
  destruct Hpost as (r&?&?&?&Hreb). exists r. split_and?; [done..|].
  intros j Hj. destruct Hreb as (->&_). by apply svc_at_put_ne.
Qed.

Lemma serial_rebind_clean_witness :
  exists res st', aos_serial_virt_rebind_commit VIRT_CLIENT_BADGE_PRIMARY
    {| srr_version := 1; srr_client := 0; srr_generation := 1 |} 12 (serial_demo_chan 70)
    serial_demo_state = Some (res, st') /\ res = SERIAL_VIRT_ERR_BUSY /\ st' = serial_demo_state.
Proof.
  destruct (serial_rebind_clean serial_demo_state VIRT_CLIENT_BADGE_PRIMARY
    {| srr_version := 1; srr_client := 0; srr_generation := 1 |} 12 (serial_demo_chan 70)
    (svc_start_inv _ serial_demo_start) ltac:(by_compute) ltac:(apply serial_demo_chan_ok; in_list))
    as (res&st'&Hrun&Hpost).
  exists res, st'. split; [exact Hrun|]. vm_compute in Hrun. injection Hrun as <- <-. split; reflexivity.
Defined.
