(* ===== verification/SerialFrontend.v ===== *)
(** * Frontends, endpoints and the UART adapter of the serial virtualizer

    platform/serial_frontend.h (the admission gate), serial-virt/endpoint.c
    (a guest's end of a channel) and serial-virt/uart.c (a 16550 as the
    frontend). The device and the guest behind the callbacks are parameters:
    functions on an environment state [E]. *)

From S2P Require Import Prelude Ring Bytes SerialQueue SerialService.

(** ** The admission gate (serial_frontend.h) *)

(** Compare-and-exchange of the gate from 0 to BUSY. *)
Definition aos_serial_frontend_begin (c : aos_serial_channel) : prog serial_mem Z :=
  if sch_meta c =? NULL then mret AOS_SERIAL_PUMP_INVALID
  else
    t ← load_meta (sch_meta c);
    if scm_frontend_gate t =? 0 then
      store_gate (sch_meta c) AOS_SERIAL_FRONTEND_BUSY;;
      mret AOS_SERIAL_PUMP_OK
    else
      mret (if negb (Z.land (scm_frontend_gate t) AOS_SERIAL_FRONTEND_CLOSED =? 0)
            then AOS_SERIAL_PUMP_INVALID else AOS_SERIAL_PUMP_FULL).

(** [~AOS_SERIAL_FRONTEND_BUSY] as a 32-bit mask. *)
Definition not_busy : Z := UINT32_MAX - AOS_SERIAL_FRONTEND_BUSY.

Definition aos_serial_frontend_end (c : aos_serial_channel) : prog serial_mem unit :=
  t ← load_meta (sch_meta c);
  store_gate (sch_meta c) (Z.land (scm_frontend_gate t) not_busy).

Definition aos_serial_frontend_write (c : aos_serial_channel) (bytes : option (list Z))
    (length : Z) : prog serial_mem Z :=
  result ← aos_serial_frontend_begin c;
  if negb (result =? AOS_SERIAL_PUMP_OK) then mret result
  else
    result ← aos_serial_queue_write (sch_to_guest c) bytes length;
    aos_serial_frontend_end c;;
    mret result.

(** Returns the status, the caller's buffer and [*length]. *)
Definition aos_serial_frontend_read (c : aos_serial_channel) (bytes : option (list Z))
    (capacity : Z) : prog serial_mem (Z * option (list Z) * Z) :=
  result ← aos_serial_frontend_begin c;
  if negb (result =? AOS_SERIAL_PUMP_OK) then mret (result, bytes, 0)
  else
    result ← aos_serial_queue_read (sch_from_guest c) bytes capacity;
    aos_serial_frontend_end c;;
    mret result.

(** ** The guest's endpoint (endpoint.c) *)

Definition AOS_SERIAL_ENDPOINT_CHUNK : Z := 256.

Record aos_serial_endpoint := {
  ep_channel : aos_serial_channel;
  ep_input : list Z;
  ep_output : list Z;
  ep_input_length : Z;
  ep_output_length : Z;
}.

(** The callbacks: [output buffer capacity] returns a length and the buffer,
    [input buffer length] says whether the guest took the bytes. *)
Record aos_serial_endpoint_ops (E : Type) := {
  ops_output : list Z -> Z -> E -> Z * list Z * E;
  ops_input : list Z -> Z -> E -> bool * E;
}.
Arguments ops_output {E}.
Arguments ops_input {E}.

Section endpoint.
Context {E : Type} (ops : aos_serial_endpoint_ops E).

Record endpoint_state := {
  es_ep : aos_serial_endpoint;
  es_mem : serial_mem;
  es_env : E;
}.

Definition ep_in_mem {A} (p : prog serial_mem A) : prog endpoint_state A := fun s =>
  match p (es_mem s) with
  | Some (a, m) => Some (a, {| es_ep := es_ep s; es_mem := m; es_env := es_env s |})
  | None => None
  end.

Definition set_ep_output (buf : list Z) (n : Z) (s : endpoint_state) : endpoint_state :=
  {| es_ep := {| ep_channel := ep_channel (es_ep s); ep_input := ep_input (es_ep s);
                 ep_output := buf; ep_input_length := ep_input_length (es_ep s);
                 ep_output_length := n |};
     es_mem := es_mem s; es_env := es_env s |}.
Definition set_ep_input (buf : list Z) (n : Z) (s : endpoint_state) : endpoint_state :=
  {| es_ep := {| ep_channel := ep_channel (es_ep s); ep_input := buf;
                 ep_output := ep_output (es_ep s); ep_input_length := n;
                 ep_output_length := ep_output_length (es_ep s) |};
     es_mem := es_mem s; es_env := es_env s |}.
Definition set_ep_env (e : E) (s : endpoint_state) : endpoint_state :=
  {| es_ep := es_ep s; es_mem := es_mem s; es_env := e |}.

(** Fetch a chunk from the guest when none is pending; [false] when the
    callback reports more than it was given room for. *)
Definition endpoint_fetch : prog endpoint_state bool :=
  s ← get_state;
  if ep_output_length (es_ep s) =? 0 then
    let '(n, buf, e) := ops_output ops (ep_output (es_ep s)) AOS_SERIAL_ENDPOINT_CHUNK (es_env s) in
    modify (fun s => set_ep_output buf n (set_ep_env e s));;
    mret (negb (AOS_SERIAL_ENDPOINT_CHUNK <? n))
  else mret true.

(** Publish the pending chunk; [true] when it left. *)
Definition endpoint_send : prog endpoint_state bool :=
  s ← get_state;
  let ep := es_ep s in
  if ep_output_length ep =? 0 then mret false
  else
    r ← ep_in_mem (aos_serial_queue_write (sch_from_guest (ep_channel ep)) (Some (ep_output ep))
                     (ep_output_length ep));
    if r =? AOS_SERIAL_PUMP_OK then modify (set_ep_output (ep_output ep) 0);; mret true
    else mret false.

(** Read a chunk for the guest when none is pending. *)
Definition endpoint_receive (changed : bool) : prog endpoint_state bool :=
  s ← get_state;
  let ep := es_ep s in
  if ep_input_length ep =? 0 then
    '(r, buf, n) ← ep_in_mem (aos_serial_queue_read (sch_to_guest (ep_channel ep))
                               (Some (ep_input ep)) AOS_SERIAL_ENDPOINT_CHUNK);
    modify (set_ep_input (default [] buf) n);;
    mret (if (r =? AOS_SERIAL_PUMP_OK) && negb (n =? 0) then true else changed)
  else mret changed.

(** Offer the pending chunk to the guest. *)
Definition endpoint_deliver : prog endpoint_state unit :=
  s ← get_state;
  let ep := es_ep s in
  if ep_input_length ep =? 0 then mret tt
  else
    let '(taken, e) := ops_input ops (ep_input ep) (ep_input_length ep) (es_env s) in
    modify (set_ep_env e);;
    if (taken : bool) then modify (set_ep_input (ep_input ep) 0) else mret tt.

Definition aos_serial_endpoint_step (running : bool) : prog endpoint_state bool :=
  s ← get_state;
  if (AOS_SERIAL_ENDPOINT_CHUNK <? ep_input_length (es_ep s)) ||
     (AOS_SERIAL_ENDPOINT_CHUNK <? ep_output_length (es_ep s))
  then mret false
  else
    ok ← endpoint_fetch;
    if negb ok then mret false
    else
      changed ← endpoint_send;
      if running then
        changed ← endpoint_receive changed;
        endpoint_deliver;;
        mret changed
      else mret changed.
End endpoint.
Arguments endpoint_state : clear implicits.

(** ** The UART adapter (uart.c) *)

Record aos_serial_uart := {
  ua_channel : aos_serial_channel;
  ua_tx : Z;
  ua_rx : Z;
  ua_tx_pending : bool;
  ua_rx_pending : bool;
}.

(** Port access: [None] and [false] are a failed access. *)
Record aos_serial_uart_io (E : Type) := {
  io_read : Z -> E -> option Z * E;
  io_write : Z -> Z -> E -> bool * E;
}.
Arguments io_read {E}.
Arguments io_write {E}.

Section uart.
Context {E : Type} (io : aos_serial_uart_io E).

Definition uart_init_writes : list (Z * Z) :=
  [(1, 0); (3, 0x80); (0, 3); (1, 0); (3, 3); (2, 0xc7); (4, 0x0b)].

(** Stops at the first failing write. *)
Fixpoint uart_writes (l : list (Z * Z)) (e : E) : bool * E :=
  match l with
  | [] => (true, e)
  | (offset, value) :: l =>
      let '(ok, e) := io_write io offset value e in
      if (ok : bool) then uart_writes l e else (false, e)
  end.
Definition aos_serial_uart_init (e : E) : bool * E := uart_writes uart_init_writes e.

Record uart_state := {
  us_uart : aos_serial_uart;
  us_mem : serial_mem;
  us_env : E;
}.

Definition ua_in_mem {A} (p : prog serial_mem A) : prog uart_state A := fun s =>
  match p (us_mem s) with
  | Some (a, m) => Some (a, {| us_uart := us_uart s; us_mem := m; us_env := us_env s |})
  | None => None
  end.
Definition ua_in_env {A} (p : E -> A * E) : prog uart_state A := fun s =>
  let '(a, e) := p (us_env s) in
  Some (a, {| us_uart := us_uart s; us_mem := us_mem s; us_env := e |}).

Definition set_tx (b : Z) (pending : bool) (s : uart_state) : uart_state :=
  {| us_uart := {| ua_channel := ua_channel (us_uart s); ua_tx := b; ua_rx := ua_rx (us_uart s);
                   ua_tx_pending := pending; ua_rx_pending := ua_rx_pending (us_uart s) |};
     us_mem := us_mem s; us_env := us_env s |}.
Definition set_rx (b : Z) (pending : bool) (s : uart_state) : uart_state :=
  {| us_uart := {| ua_channel := ua_channel (us_uart s); ua_tx := ua_tx (us_uart s); ua_rx := b;
                   ua_tx_pending := ua_tx_pending (us_uart s); ua_rx_pending := pending |};
     us_mem := us_mem s; us_env := us_env s |}.

(** Take one byte for transmission unless one is pending. Returns whether
    the queue was valid, and whether its cursor moved. *)
Definition uart_take : prog uart_state (bool * bool) :=
  s ← get_state;
  let ua := us_uart s in
  if ua_tx_pending ua then mret (true, false)
  else
    '(r, buf, n) ← ua_in_mem (aos_serial_queue_read (sch_from_guest (ua_channel ua)) (Some [ua_tx ua]) 1);
    if negb (r =? AOS_SERIAL_PUMP_OK) then mret (false, false)
    else
      let pending := negb (n =? 0) in
      modify (set_tx (default 0 (default [] buf !! 0%nat)) pending);;
      mret (true, pending).

(** Send the pending byte when the transmitter is ready. *)
Definition uart_transmit (status : Z) : prog uart_state bool :=
  s ← get_state;
  if ua_tx_pending (us_uart s) && negb (Z.land status 0x20 =? 0) then
    ok ← ua_in_env (io_write io 0 (ua_tx (us_uart s)));
    if negb ok then mret false
    else modify (set_tx (ua_tx (us_uart s)) false);; mret true
  else mret true.

(** Receive one byte unless one is pending. *)
Definition uart_receive (status : Z) : prog uart_state bool :=
  s ← get_state;
  if negb (ua_rx_pending (us_uart s)) && negb (Z.land status 1 =? 0) then
    ob ← ua_in_env (io_read io 0);
    match ob with
    | None => mret false
    | Some b => modify (set_rx b true);; mret true
    end
  else mret true.

(** Queue the received byte. Returns validity and whether a cursor moved. *)
Definition uart_forward (changed : bool) : prog uart_state (bool * bool) :=
  s ← get_state;
  let ua := us_uart s in
  if ua_rx_pending ua then
    r ← ua_in_mem (aos_serial_queue_write (sch_to_guest (ua_channel ua)) (Some [ua_rx ua]) 1);
    if r =? AOS_SERIAL_PUMP_INVALID then mret (false, changed)
    else if r =? AOS_SERIAL_PUMP_OK then modify (set_rx (ua_rx ua) false);; mret (true, true)
    else mret (true, changed)
  else mret (true, changed).

(** Returns the result and [*changed]. *)
Definition uart_step_admitted : prog uart_state (bool * bool) :=
  '(valid, changed) ← uart_take;
  if negb valid then mret (false, changed)
  else
    status ← ua_in_env (io_read io 5);
    match status with
    | None => mret (false, changed)
    | Some status =>
        if negb (Z.land status 0x1e =? 0) then mret (false, changed)
        else
          sent ← uart_transmit status;
          if negb sent then mret (false, changed)
          else
            received ← uart_receive status;
            if negb received then mret (false, changed)
            else uart_forward changed
    end.

Definition aos_serial_uart_step : prog uart_state (bool * bool) :=
  s ← get_state;
  let c := ua_channel (us_uart s) in
  if sch_meta c =? NULL then mret (false, false)
  else
    admission ← ua_in_mem (aos_serial_frontend_begin c);
    if negb (admission =? AOS_SERIAL_PUMP_OK) then
      t ← ua_in_mem (load_meta (sch_meta c));
      (if negb (Z.land (scm_frontend_gate t) AOS_SERIAL_FRONTEND_CLOSED =? 0)
       then modify (fun s => set_tx (ua_tx (us_uart s)) false (set_rx (ua_rx (us_uart s)) false s))
       else mret tt);;
      mret (true, false)
    else
      r ← uart_step_admitted;
      ua_in_mem (aos_serial_frontend_end c);;
      mret r.
End uart.
Arguments uart_state : clear implicits.

(** ** The gate as an interleaving of two protection domains

    The frontend enters and leaves its critical section through the gate; the
    service closes the gate on detach, and on rebind wipes the queues in many
    steps between its check of the gate and reopening it. Steps on the gate
    are the atomic operations of the code with the tests that
    [aos_serial_virt_detach] and [aos_serial_virt_rebind_validate] make of
    the gate word; in between, either side may change any queue or byte. *)

Inductive front_pc := FIdle | FInside.
Inductive svc_pc := SIdle | SWiping.

Record gate_state := {
  gs_mem : serial_mem;
  gs_front : front_pc;
  gs_svc : svc_pc;
  gs_retired : bool;
}.

(** Queue contents and other metadata may change, the gate of [p] does not. *)
Definition same_gate (p : Z) (m m' : serial_mem) : Prop :=
  scm_frontend_gate <$> (sm_metas m' !! p) = scm_frontend_gate <$> (sm_metas m !! p).

Inductive gate_step (c : aos_serial_channel) : gate_state -> gate_state -> Prop :=
  | gate_begin m m' sp rt r :
      aos_serial_frontend_begin c m = Some (r, m') ->
      gate_step c {| gs_mem := m; gs_front := FIdle; gs_svc := sp; gs_retired := rt |}
        {| gs_mem := m'; gs_front := if r =? AOS_SERIAL_PUMP_OK then FInside else FIdle;
           gs_svc := sp; gs_retired := rt |}
  | gate_access m m' sp rt :
      same_gate (sch_meta c) m m' ->
      gate_step c {| gs_mem := m; gs_front := FInside; gs_svc := sp; gs_retired := rt |}
        {| gs_mem := m'; gs_front := FInside; gs_svc := sp; gs_retired := rt |}
  | gate_end m m' sp rt :
      aos_serial_frontend_end c m = Some (tt, m') ->
      gate_step c {| gs_mem := m; gs_front := FInside; gs_svc := sp; gs_retired := rt |}
        {| gs_mem := m'; gs_front := FIdle; gs_svc := sp; gs_retired := rt |}
  | gate_detach m m' fp gate :
      gate_fetch_or (sch_meta c) AOS_SERIAL_FRONTEND_CLOSED m = Some (gate, m') ->
      gate_step c {| gs_mem := m; gs_front := fp; gs_svc := SIdle; gs_retired := false |}
        {| gs_mem := m'; gs_front := fp; gs_svc := SIdle;
           gs_retired := negb (frontend_busy gate) |}
  | gate_rebind m fp t :
      load_meta (sch_meta c) m = Some (t, m) -> frontend_closed (scm_frontend_gate t) = true ->
      gate_step c {| gs_mem := m; gs_front := fp; gs_svc := SIdle; gs_retired := true |}
        {| gs_mem := m; gs_front := fp; gs_svc := SWiping; gs_retired := true |}
  | gate_wipe m m' fp rt :
      same_gate (sch_meta c) m m' ->
      gate_step c {| gs_mem := m; gs_front := fp; gs_svc := SWiping; gs_retired := rt |}
        {| gs_mem := m'; gs_front := fp; gs_svc := SWiping; gs_retired := rt |}
  | gate_open m m' fp rt :
      store_gate (sch_meta c) 0 m = Some (tt, m') ->
      gate_step c {| gs_mem := m; gs_front := fp; gs_svc := SWiping; gs_retired := rt |}
        {| gs_mem := m'; gs_front := fp; gs_svc := SIdle; gs_retired := false |}.

(** The gate word in every reachable state. *)
Definition gate_inv (c : aos_serial_channel) (s : gate_state) : Prop :=
  exists t, sm_metas (gs_mem s) !! sch_meta c = Some t /\
    (gs_front s = FInside -> scm_frontend_gate t = 2 \/ scm_frontend_gate t = 3) /\
    (gs_front s = FIdle -> scm_frontend_gate t = 0 \/ scm_frontend_gate t = 1) /\
    (gs_retired s = true -> scm_frontend_gate t = 1) /\
    (gs_svc s = SWiping -> gs_retired s = true).

(** ** Lemmas: the gate *)

Definition meta_gate (t : aos_serial_channel_meta) (g : Z) : aos_serial_channel_meta :=
  {| scm_guest_state := scm_guest_state t; scm_attached := scm_attached t; scm_frontend_gate := g |}.

Lemma store_gate_run p g m t :
  sm_metas m !! p = Some t -> store_gate p g m = Some (tt, set_meta p (meta_gate t g) m).
Proof. intros Ht. unfold store_gate. by rewrite (run_bind _ _ _ _ _ (load_meta_run p m t Ht)). Qed.

Lemma frontend_begin_run c m t :
  sm_metas m !! sch_meta c = Some t -> sch_meta c <> NULL ->
  aos_serial_frontend_begin c m =
  if scm_frontend_gate t =? 0
  then Some (AOS_SERIAL_PUMP_OK, set_meta (sch_meta c) (meta_gate t AOS_SERIAL_FRONTEND_BUSY) m)
  else Some (if negb (Z.land (scm_frontend_gate t) AOS_SERIAL_FRONTEND_CLOSED =? 0)
             then AOS_SERIAL_PUMP_INVALID else AOS_SERIAL_PUMP_FULL, m).
Proof.
  intros Ht Hn. unfold aos_serial_frontend_begin. rewrite (proj2 (Z.eqb_neq _ _) Hn).
  rewrite (run_bind _ _ _ _ _ (load_meta_run _ m t Ht)). case_cmp; [|done].
  by rewrite (run_bind _ _ _ _ _ (store_gate_run _ _ m t Ht)).
Qed.

Lemma frontend_end_run c m t :
  sm_metas m !! sch_meta c = Some t ->
  aos_serial_frontend_end c m =
  Some (tt, set_meta (sch_meta c) (meta_gate t (Z.land (scm_frontend_gate t) not_busy)) m).
Proof.
  intros Ht. unfold aos_serial_frontend_end. rewrite (run_bind _ _ _ _ _ (load_meta_run _ m t Ht)).
  by apply store_gate_run.
Qed.

Lemma gate_fetch_or_run p bits m t :
  sm_metas m !! p = Some t ->
  gate_fetch_or p bits m =
  Some (scm_frontend_gate t, set_meta p (meta_gate t (Z.lor (scm_frontend_gate t) bits)) m).
Proof.
  intros Ht. unfold gate_fetch_or. rewrite (run_bind _ _ _ _ _ (load_meta_run _ m t Ht)).
  by rewrite (run_bind _ _ _ _ _ (store_gate_run _ _ m t Ht)).
Qed.

Lemma same_gate_lookup p m m' t :
  same_gate p m m' -> sm_metas m !! p = Some t ->
  exists t', sm_metas m' !! p = Some t' /\ scm_frontend_gate t' = scm_frontend_gate t.
Proof.
  unfold same_gate. intros Hs Ht. rewrite Ht in Hs.
  destruct (sm_metas m' !! p) as [t'|]; [|done]. exists t'. split; [done|]. by injection Hs.
Qed.

Local Ltac gate_cases :=
  split_and?; try done; intros; try discriminate;
  repeat match goal with H : ?P -> _, H' : ?P |- _ => specialize (H H') end; try lia; auto.

Lemma gate_step_inv c s s' : sch_meta c <> NULL -> gate_inv c s -> gate_step c s s' -> gate_inv c s'.
Proof.
  intros Hn (t&Ht&Hin&Hid&Hret&Hw) Hstep. destruct Hstep; simpl in *.
  - rewrite (frontend_begin_run c m t Ht Hn) in H. specialize (Hid eq_refl).
    destruct (Z.eqb_spec (scm_frontend_gate t) 0) as [Hz|Hz]; injection H as <- <-.
    + exists (meta_gate t 2). simpl. rewrite lookup_insert_eq. gate_cases.
    + exists t. assert (scm_frontend_gate t = 1) as Hone by lia. rewrite Hone in *. simpl. gate_cases.
  - destruct (same_gate_lookup _ _ _ _ H Ht) as (t'&Ht'&Hg). exists t'. simpl. rewrite Hg. gate_cases.
  - rewrite (frontend_end_run c m t Ht) in H. injection H as <-.
    exists (meta_gate t (Z.land (scm_frontend_gate t) not_busy)). simpl. rewrite lookup_insert_eq.
    destruct (Hin eq_refl) as [Hg|Hg]; rewrite Hg in *; simpl; gate_cases.
  - rewrite (gate_fetch_or_run _ _ m t Ht) in H. injection H as <- <-.
    exists (meta_gate t (Z.lor (scm_frontend_gate t) AOS_SERIAL_FRONTEND_CLOSED)). simpl. rewrite lookup_insert_eq.
    destruct fp; [destruct (Hid eq_refl) as [Hg|Hg]|destruct (Hin eq_refl) as [Hg|Hg]]; rewrite Hg; simpl; gate_cases.
  - exists t. simpl. gate_cases.
  - destruct (same_gate_lookup _ _ _ _ H Ht) as (t'&Ht'&Hg). exists t'. simpl. rewrite Hg. gate_cases.
  - rewrite (store_gate_run _ _ m t Ht) in H. injection H as <-. exists (meta_gate t 0). simpl.
    rewrite lookup_insert_eq. specialize (Hw eq_refl). specialize (Hret Hw). gate_cases.
Qed.

(** ** Lemmas: the endpoint *)

(** The callbacks' contract: output returns at most the capacity it was
    given and fills the buffer in place. *)
Definition ops_lawful {E} (ops : aos_serial_endpoint_ops E) : Prop :=
  forall buf cap e n buf' e', 0 <= cap -> ops_output ops buf cap e = (n, buf', e') ->
  0 <= n <= cap /\ length buf' = length buf.

(** Bytes an endpoint holds between the queue and the guest. *)
Definition pending_in (ep : aos_serial_endpoint) : list Z := take (Z.to_nat (ep_input_length ep)) (ep_input ep).
Definition pending_out (ep : aos_serial_endpoint) : list Z := take (Z.to_nat (ep_output_length ep)) (ep_output ep).

(** An endpoint with its buffers in range, holding [lin] and [lout] in its
    two queues. *)
Definition endpoint_at {E} (s : endpoint_state E) (c : aos_serial_channel) (lin lout : list Z) : Prop :=
  ep_channel (es_ep s) = c /\ serial_apart (sch_to_guest c) (sch_from_guest c) /\
  Z.of_nat (length (ep_input (es_ep s))) = AOS_SERIAL_ENDPOINT_CHUNK /\
  Z.of_nat (length (ep_output (es_ep s))) = AOS_SERIAL_ENDPOINT_CHUNK /\
  0 <= ep_input_length (es_ep s) <= AOS_SERIAL_ENDPOINT_CHUNK /\
  0 <= ep_output_length (es_ep s) <= AOS_SERIAL_ENDPOINT_CHUNK /\
  serial_list (es_mem s) (sch_to_guest c) lin /\ serial_list (es_mem s) (sch_from_guest c) lout.

(** The chunk the guest's output callback produces in state [s]. *)
Definition fetched {E} (ops : aos_serial_endpoint_ops E) (s : endpoint_state E) : list Z :=
  if ep_output_length (es_ep s) =? 0 then
    let '(n, buf, _) := ops_output ops (ep_output (es_ep s)) AOS_SERIAL_ENDPOINT_CHUNK (es_env s) in
    take (Z.to_nat n) buf
  else [].

Section endpoint_lemmas.
Context {E : Type} (ops : aos_serial_endpoint_ops E) (Hlaw : ops_lawful ops).

Lemma wp_ep_in_mem {A} (p : prog serial_mem A) (Q : A -> endpoint_state E -> Prop) s :
  wp p (fun a m => Q a {| es_ep := es_ep s; es_mem := m; es_env := es_env s |}) (es_mem s) ->
  wp (ep_in_mem p) Q s.
Proof. unfold wp, ep_in_mem. by destruct (p (es_mem s)) as [[a m]|]. Qed.

Lemma wp_endpoint_fetch (s : endpoint_state E) c lin lout :
  endpoint_at s c lin lout ->
  wp (endpoint_fetch ops) (fun ok s' => ok = true /\ endpoint_at s' c lin lout /\
    pending_out (es_ep s') = pending_out (es_ep s) ++ fetched ops s /\
    pending_in (es_ep s') = pending_in (es_ep s)) s.
Proof using Hlaw.
  intros (?&?&?&?&?&Hol&?&?). unfold endpoint_fetch, fetched. wp_step. wp_step.
  destruct (Z.eqb_spec (ep_output_length (es_ep s)) 0) as [Hz|Hz].
  - destruct (ops_output ops _ _ _) as [[n buf] e] eqn:Hops. apply Hlaw in Hops as [Hn Hlen]; [|done].
    wp_step. wp_step. wp_step. split; [lia|]. unfold endpoint_at, pending_out, pending_in. simpl.
    rewrite Hz. simpl. rewrite Hlen. split_and?; (done || lia).
  - wp_step. rewrite app_nil_r. unfold endpoint_at. split_and?; (done || lia).
Qed.

Lemma wp_endpoint_send (s : endpoint_state E) c lin lout :
  endpoint_at s c lin lout ->
  wp endpoint_send (fun _ s' => exists lout', endpoint_at s' c lin lout' /\
    lout' ++ pending_out (es_ep s') = lout ++ pending_out (es_ep s) /\
    pending_in (es_ep s') = pending_in (es_ep s)) s.
Proof using.
  clear Hlaw ops. intros (Hc&Ha&?&?&?&Hol&Hlin&Hlout). unfold endpoint_send. wp_step. wp_step.
  destruct (Z.eqb_spec (ep_output_length (es_ep s)) 0) as [Hz|Hz].
  { wp_step. exists lout. unfold endpoint_at. split_and?; (done || lia). }
  wp_step. apply wp_ep_in_mem. rewrite Hc. eapply wp_mono; [apply wp_serial_write; [exact Hlout|lia]|].
  intros r m' [Ht Hr]. assert (serial_list m' (sch_to_guest c) lin) as Hlin'.
  { destruct Ha. eapply serial_list_touch; [exact Ht|not_in_list|not_in_list|done]. }
  destruct (_ <=? _).
  - destruct Hr as [-> Hl]. simpl. wp_step. wp_step. wp_step. exists (lout ++ pending_out (es_ep s)).
    unfold endpoint_at, pending_out. simpl. rewrite app_nil_r. split_and?; (done || lia).
  - destruct Hr as [-> ->]. simpl. wp_step. exists lout. unfold endpoint_at. simpl. split_and?; (done || lia).
Qed.

Lemma wp_endpoint_receive (s : endpoint_state E) c lin lout ch :
  endpoint_at s c lin lout ->
  wp (endpoint_receive ch) (fun _ s' => exists lin', endpoint_at s' c lin' lout /\
    pending_in (es_ep s') ++ lin' = pending_in (es_ep s) ++ lin /\
    pending_out (es_ep s') = pending_out (es_ep s)) s.
Proof using.
  clear Hlaw ops. intros (Hc&Ha&Hil&?&?&?&Hlin&Hlout). unfold endpoint_receive. wp_step. wp_step.
  destruct (Z.eqb_spec (ep_input_length (es_ep s)) 0) as [Hz|Hz].
  2:{ wp_step. exists lin. unfold endpoint_at. split_and?; (done || lia). }
  wp_step. apply wp_ep_in_mem. rewrite Hc.
  eapply wp_mono; [apply wp_serial_read; [exact Hlin|rewrite Hil; unfold AOS_SERIAL_ENDPOINT_CHUNK; lia]|].
  set (k := Nat.min (length lin) _).
  intros [[r buf] n] m' (Ht&[= -> -> ->]&Hl). simpl. wp_step. wp_step. wp_step. exists (drop k lin).
  assert (length (take k lin) = k) as Hk by (rewrite length_take; lia).
  assert (Z.of_nat k <= AOS_SERIAL_ENDPOINT_CHUNK) by lia.
  unfold endpoint_at, pending_in, pending_out. simpl. rewrite Hz, length_inserts, Nat2Z.id. simpl. split_and?; try (done || lia).
  - destruct Ha. eapply serial_list_touch; [exact Ht|not_in_list|set_solver|done].
  - pose proof (aslice_inserts (take k lin) (ep_input (es_ep s)) 0 (Z.of_nat k) ltac:(lia) ltac:(lia) ltac:(lia)) as Hs.
    unfold aslice in Hs. change (Z.to_nat 0) with 0%nat in Hs. rewrite Nat2Z.id, drop_0 in Hs. rewrite Hs. apply take_drop.
Qed.

Lemma wp_endpoint_deliver (s : endpoint_state E) c lin lout :
  endpoint_at s c lin lout ->
  wp (endpoint_deliver ops) (fun _ s' => endpoint_at s' c lin lout /\ es_mem s' = es_mem s /\
    (pending_in (es_ep s') = pending_in (es_ep s) \/
     pending_in (es_ep s') = [] /\
       fst (ops_input ops (ep_input (es_ep s)) (ep_input_length (es_ep s)) (es_env s)) = true) /\
    pending_out (es_ep s') = pending_out (es_ep s)) s.
Proof using.
  clear Hlaw. intros (Hc&Ha&?&?&?&?&Hlin&Hlout). unfold endpoint_deliver. wp_step. wp_step.
  destruct (Z.eqb_spec (ep_input_length (es_ep s)) 0) as [Hz|Hz].
  { wp_step. unfold endpoint_at. split_and?; (done || lia || auto). }
  destruct (ops_input ops _ _ _) as [taken e] eqn:Hops. wp_step. wp_step.
  destruct taken; wp_step; unfold endpoint_at, pending_in, pending_out; simpl; split_and?; (done || lia || auto).
Qed.
End endpoint_lemmas.

(** ** Lemmas: the UART adapter *)

Definition tx_held (u : aos_serial_uart) : list Z := if ua_tx_pending u then [ua_tx u] else [].
Definition rx_held (u : aos_serial_uart) : list Z := if ua_rx_pending u then [ua_rx u] else [].

(** The adapter on channel [c], whose queues hold [lin] (to the guest) and
    [lout] (from the guest). *)
Definition uart_at {E} (s : uart_state E) (c : aos_serial_channel) (lin lout : list Z) : Prop :=
  ua_channel (us_uart s) = c /\ serial_apart (sch_to_guest c) (sch_from_guest c) /\
  serial_list (us_mem s) (sch_to_guest c) lin /\ serial_list (us_mem s) (sch_from_guest c) lout.

(** What one step may do to the bytes: [sent] went out of the port and
    [got] came in, nothing was lost, duplicated or reordered. *)
Definition uart_moved {E} (io : aos_serial_uart_io E) (s s' : uart_state E) (c : aos_serial_channel)
    (lin lout : list Z) : Prop :=
  exists sent got lin' lout', uart_at s' c lin' lout' /\ sm_metas (us_mem s') = sm_metas (us_mem s) /\
    sent ++ tx_held (us_uart s') ++ lout' = tx_held (us_uart s) ++ lout /\
    lin' ++ rx_held (us_uart s') = lin ++ rx_held (us_uart s) ++ got /\
    (sent = [] \/ exists b e, sent = [b] /\ fst (io_write io 0 b e) = true) /\
    (got = [] \/ exists b e, got = [b] /\ fst (io_read io 0 e) = Some b).

Section uart_lemmas.
Context {E : Type} (io : aos_serial_uart_io E).
Implicit Types s : uart_state E.

Lemma wp_ua_in_mem {A} (p : prog serial_mem A) (Q : A -> uart_state E -> Prop) s :
  wp p (fun a m => Q a {| us_uart := us_uart s; us_mem := m; us_env := us_env s |}) (us_mem s) ->
  wp (ua_in_mem p) Q s.
Proof. unfold wp, ua_in_mem. by destruct (p (us_mem s)) as [[a m]|]. Qed.

Lemma wp_ua_in_env {A} (p : E -> A * E) (Q : A -> uart_state E -> Prop) s :
  Q (fst (p (us_env s))) {| us_uart := us_uart s; us_mem := us_mem s; us_env := snd (p (us_env s)) |} ->
  wp (ua_in_env p) Q s.
Proof. unfold wp, ua_in_env. by destruct (p (us_env s)). Qed.

Lemma uart_moved_refl s c lin lout : uart_at s c lin lout -> uart_moved io s s c lin lout.
Proof.
  intros Hs. exists [], [], lin, lout. rewrite app_nil_r. split_and?; auto.
Qed.

Lemma wp_uart_take s c lin lout :
  uart_at s c lin lout ->
  wp uart_take (fun r s' => fst r = true /\ exists lout', uart_at s' c lin lout' /\
    tx_held (us_uart s') ++ lout' = tx_held (us_uart s) ++ lout /\
    rx_held (us_uart s') = rx_held (us_uart s) /\ sm_metas (us_mem s') = sm_metas (us_mem s)) s.
Proof.
  intros (Hc&Ha&Hlin&Hlout). unfold uart_take. wp_step. wp_step.
  destruct (ua_tx_pending (us_uart s)) eqn:Hp.
  { wp_step. split; [done|]. exists lout. unfold uart_at. by split_and?. }
  wp_step. apply wp_ua_in_mem. rewrite Hc. eapply wp_mono; [apply wp_serial_read; [exact Hlout|simpl; lia]|].
  intros [[r buf] n] m' (Ht&[= -> -> ->]&Hl). simpl. wp_step. wp_step. wp_step. split; [done|].
  assert (serial_list m' (sch_to_guest c) lin) as Hlin'.
  { destruct Ha. eapply serial_list_touch; [exact Ht|not_in_list|set_solver|done]. }
  assert (sm_metas m' = sm_metas (us_mem s)) as Hmeta by (by destruct Ht).
  destruct lout as [|b lout]; simpl in *.
  - exists []. unfold uart_at, tx_held. simpl. rewrite Hp. by split_and?.
  - exists lout. rewrite Nat.min_0_r in *. unfold uart_at, tx_held. simpl. rewrite Hp. by split_and?.
Qed.

Lemma wp_uart_transmit s c lin lout status :
  uart_at s c lin lout ->
  wp (uart_transmit io status) (fun _ s' => uart_at s' c lin lout /\
    (exists sent, sent ++ tx_held (us_uart s') = tx_held (us_uart s) /\
      (sent = [] \/ exists b e, sent = [b] /\ fst (io_write io 0 b e) = true)) /\
    rx_held (us_uart s') = rx_held (us_uart s) /\ sm_metas (us_mem s') = sm_metas (us_mem s)) s.
Proof.
  intros Hs. unfold uart_transmit. wp_step. wp_step. unfold tx_held at 2.
  destruct (ua_tx_pending (us_uart s)) eqn:Hp; simpl.
  2:{ wp_step. unfold tx_held. rewrite Hp. split_and?; auto. exists []. auto. }
  case_cmp.
  2:{ wp_step. unfold tx_held. rewrite Hp. split_and?; auto. exists []. auto. }
  wp_step. apply wp_ua_in_env. destruct (fst (io_write _ _ _ _)) eqn:Hw; simpl.
  - wp_step. wp_step. wp_step. split_and?; [exact Hs| |done|done]. exists [ua_tx (us_uart s)]. split; [done|]. eauto 6.
  - wp_step. split_and?; [exact Hs| |done|done]. exists []. unfold tx_held. simpl. rewrite Hp. auto.
Qed.

Lemma wp_uart_receive s c lin lout status :
  uart_at s c lin lout ->
  wp (uart_receive io status) (fun _ s' => uart_at s' c lin lout /\
    (exists got, rx_held (us_uart s') = rx_held (us_uart s) ++ got /\
      (got = [] \/ exists b e, got = [b] /\ fst (io_read io 0 e) = Some b)) /\
    tx_held (us_uart s') = tx_held (us_uart s) /\ sm_metas (us_mem s') = sm_metas (us_mem s)) s.
Proof.
  intros Hs. unfold uart_receive. wp_step. wp_step. unfold rx_held at 2.
  destruct (ua_rx_pending (us_uart s)) eqn:Hp; simpl.
  { wp_step. unfold rx_held. rewrite Hp. split_and?; auto. exists []. auto. }
  case_cmp.
  2:{ wp_step. unfold rx_held. rewrite Hp. split_and?; auto. exists []. auto. }
  wp_step. apply wp_ua_in_env. destruct (fst (io_read _ _ _)) as [b|] eqn:Hr.
  - wp_step. wp_step. wp_step. split_and?; [exact Hs| |done|done]. exists [b]. split; [done|]. eauto 6.
  - wp_step. split_and?; [exact Hs| |done|done]. exists []. unfold rx_held. simpl. rewrite Hp. auto.
Qed.

Lemma wp_uart_forward s c lin lout ch :
  uart_at s c lin lout ->
  wp (uart_forward ch) (fun _ s' => exists lin', uart_at s' c lin' lout /\
    lin' ++ rx_held (us_uart s') = lin ++ rx_held (us_uart s) /\
    tx_held (us_uart s') = tx_held (us_uart s) /\ sm_metas (us_mem s') = sm_metas (us_mem s)) s.
Proof.
  intros (Hc&Ha&Hlin&Hlout). unfold uart_forward. wp_step. wp_step. unfold rx_held at 2.
  destruct (ua_rx_pending (us_uart s)) eqn:Hp.
  2:{ wp_step. exists lin. unfold uart_at, rx_held. rewrite Hp. by split_and?. }
  wp_step. apply wp_ua_in_mem. rewrite Hc. eapply wp_mono; [apply wp_serial_write; [exact Hlin|simpl; lia]|].
  intros r m' [Ht Hr]. assert (serial_list m' (sch_from_guest c) lout) as Hlout'.
  { destruct Ha. eapply serial_list_touch; [exact Ht|not_in_list|not_in_list|done]. }
  destruct (_ <=? _).
  - destruct Hr as [-> Hl]. simpl. wp_step. wp_step. wp_step. exists (lin ++ [ua_rx (us_uart s)]).
    unfold uart_at, rx_held. simpl. rewrite app_nil_r. destruct Ht as [Hm _]. by split_and?.
  - destruct Hr as [-> ->]. simpl. wp_step. exists lin. unfold uart_at, rx_held. simpl. rewrite Hp. by split_and?.
Qed.

Lemma wp_uart_admitted s c lin lout :
  uart_at s c lin lout ->
  wp (uart_step_admitted io) (fun _ s' => uart_moved io s s' c lin lout) s.
Proof.
  intros Hs. unfold uart_step_admitted. wp_step. eapply wp_mono; [by eapply wp_uart_take|].
  intros [valid ch] s1 [Hv (lout1&Hs1&Htx1&Hrx1&Hm1)]. simpl in Hv. subst valid. simpl.
  assert (forall s2 (P : Prop), uart_at s2 c lin lout1 -> us_uart s2 = us_uart s1 -> us_mem s2 = us_mem s1 ->
    uart_moved io s s2 c lin lout) as Hstop.
  { intros s2 P Hs2 Hu Hmem. exists [], [], lin, lout1. rewrite Hu, Hmem, Hrx1, app_nil_r. split_and?; auto. }
  wp_step. apply wp_ua_in_env. set (s2 := {| us_uart := us_uart s1; us_mem := us_mem s1 |}).
  assert (uart_at s2 c lin lout1) as Hs2 by done.
  destruct (fst _) as [status|]; [|wp_step; by apply (Hstop s2 True)].
  case_cmp; [wp_step; by apply (Hstop s2 True)|].
  wp_step. eapply wp_mono; [by eapply wp_uart_transmit|].
  intros sent_ok s3 (Hs3&(sent&Hsent&Hsw)&Hrx3&Hm3).
  assert (forall s4 got, (got = [] \/ exists b e, got = [b] /\ fst (io_read io 0 e) = Some b) ->
    forall lin4, uart_at s4 c lin4 lout1 -> tx_held (us_uart s4) = tx_held (us_uart s3) ->
    lin4 ++ rx_held (us_uart s4) = lin ++ rx_held (us_uart s3) ++ got ->
    sm_metas (us_mem s4) = sm_metas (us_mem s3) -> uart_moved io s s4 c lin lout) as Hdone.
  { intros s4 got Hgot lin4 Hs4 Htx4 Hrx4 Hm4. exists sent, got, lin4, lout1. rewrite Htx4, Hm4, Hm3.
    split_and?; auto; [by rewrite app_assoc, Hsent|]. by rewrite Hrx4, Hrx3, <- Hrx1. }
  destruct sent_ok; cbn [negb]; [|wp_step; apply (Hdone s3 [] ltac:(auto) lin); auto; by rewrite app_nil_r].
  wp_step. eapply wp_mono; [by eapply wp_uart_receive|].
  intros rec_ok s4 (Hs4&(got&Hg&Hgr)&Htx4&Hm4).
  destruct rec_ok; cbn [negb]; [|wp_step; apply (Hdone s4 got Hgr lin); auto; by rewrite Hg].
  eapply wp_mono; [by eapply wp_uart_forward|]. intros r s5 (lin5&Hs5&Hrx5&Htx5&Hm5).
  apply (Hdone s5 got Hgr lin5); [done|congruence| |congruence]. by rewrite Hrx5, Hg.
Qed.
End uart_lemmas.

(** ** Demonstration instance: the demonstration channel at address 40 *)

(** An environment that is a list of bytes: the guest's output, or the bytes
    arriving at the port; input is always accepted. *)
Definition demo_ops : aos_serial_endpoint_ops (list Z) :=
  {| ops_output := fun buf cap e =>
       let n := Nat.min (Z.to_nat cap) (Nat.min (length buf) (length e)) in
       (Z.of_nat n, list_inserts 0 (take n e) buf, drop n e);
     ops_input := fun _ _ e => (true, e) |}.
Definition demo_io : aos_serial_uart_io (list Z) :=
  {| io_read := fun off e =>
       if off =? 5 then (Some (match e with [] => 0x20 | _ => 0x21 end), e)
       else match e with [] => (None, e) | b :: e => (Some b, e) end;
     io_write := fun _ _ e => (true, e) |}.
Definition demo_endpoint : endpoint_state (list Z) :=
  {| es_ep := {| ep_channel := serial_demo_chan 40; ep_input := replicate 256 0;
                 ep_output := replicate 256 0; ep_input_length := 0; ep_output_length := 0 |};
     es_mem := serial_demo_shared; es_env := [1; 2; 3] |}.
Definition demo_uart : uart_state (list Z) :=
  {| us_uart := {| ua_channel := serial_demo_chan 40; ua_tx := 0; ua_rx := 0;
                   ua_tx_pending := false; ua_rx_pending := false |};
     us_mem := serial_demo_shared; us_env := [1; 2; 3] |}.

Lemma demo_empty h :
  h = sch_to_guest (serial_demo_chan 40) \/ h = sch_from_guest (serial_demo_chan 40) ->
  serial_list serial_demo_shared h [].
Proof.
  intros Hh. apply (serial_list_zero _ _ [0; 0; 0; 0]). unfold serial_mapped.
  destruct Hh as [->| ->]; split_and?; vm_compute; (reflexivity || discriminate || (split; (reflexivity || discriminate))).
Qed.

Lemma demo_ops_lawful : ops_lawful demo_ops.
Proof.
  intros buf cap e n buf' e' Hcap [= <- <- <-]. split; [lia|apply length_inserts].
Qed.

(** ** Properties *)

(** C16. The service and the frontend never work on a channel's queues at
    the same time across a reset. In every interleaving of the frontend's
    admission, queue access and release with the service's detach, gate
    check, wipe and reopening, started with the gate open, the frontend is
    never inside its critical section while the service wipes the channel;
    and while the client is retired the frontend is outside and every
    attempt to enter is refused as closed without changing memory. *)
Theorem frontend_gate_excludes c m t s :
  sch_meta c <> NULL -> sm_metas m !! sch_meta c = Some t -> scm_frontend_gate t = 0 ->
  rtc (gate_step c) {| gs_mem := m; gs_front := FIdle; gs_svc := SIdle; gs_retired := false |} s ->
  ~ (gs_front s = FInside /\ gs_svc s = SWiping) /\
  (gs_retired s = true -> gs_front s = FIdle /\
     aos_serial_frontend_begin c (gs_mem s) = Some (AOS_SERIAL_PUMP_INVALID, gs_mem s)).
Proof.
  intros Hn Ht Hg Hsteps.
  assert (gate_inv c s) as (t'&Ht'&Hin&Hid&Hret&Hw).
  { remember {| gs_mem := m |} as s0 eqn:Hs0.
    assert (gate_inv c s0) as Hinv by (subst s0; exists t; simpl; rewrite Hg; gate_cases).
    clear Hs0 Ht Hg. induction Hsteps as [|s1 s2 s3 Hstep _ IH]; [done|].
    apply IH. by eapply gate_step_inv. }
  split.
  - intros [Hf Hs]. specialize (Hret (Hw Hs)). destruct (Hin Hf); lia.
  - intros Hr. specialize (Hret Hr). split.
    + destruct (gs_front s); [done|]. destruct (Hin eq_refl); lia.
    + rewrite (frontend_begin_run c _ t' Ht' Hn), Hret. done.
Qed.

Lemma frontend_gate_excludes_witness :
  exists s, rtc (gate_step (serial_demo_chan 40))
    {| gs_mem := serial_demo_shared; gs_front := FIdle; gs_svc := SIdle; gs_retired := false |} s /\
    gs_retired s = true /\ gs_front s = FIdle.
Proof.
  destruct (gate_fetch_or 40 AOS_SERIAL_FRONTEND_CLOSED serial_demo_shared) as [[gate m]|] eqn:Hrun;
    [|vm_compute in Hrun; discriminate Hrun].
  assert (gate = 0) as -> by (vm_compute in Hrun; by injection Hrun as <- _).
  set (s := {| gs_mem := m; gs_front := FIdle; gs_svc := SIdle; gs_retired := true |}).
  assert (rtc (gate_step (serial_demo_chan 40))
    {| gs_mem := serial_demo_shared; gs_front := FIdle; gs_svc := SIdle; gs_retired := false |} s) as Hsteps.
  { apply rtc_once. exact (gate_detach (serial_demo_chan 40) _ _ FIdle 0 Hrun). }
  exists s. split; [exact Hsteps|]. split; [reflexivity|].
  eapply (frontend_gate_excludes (serial_demo_chan 40) serial_demo_shared); [..|exact Hsteps|reflexivity];
    [discriminate|vm_compute; reflexivity|reflexivity].
Defined.

(** An endpoint step loses no byte. Every byte the guest produced
    leaves through the queue in order or stays held; every byte taken from
    the queue was accepted by the guest or stays held, in order; a paused
    guest's input stays queued; and a held chunk is never overwritten. *)
Theorem endpoint_step_conserves {E} (ops : aos_serial_endpoint_ops E) s c lin lout running :
  ops_lawful ops -> endpoint_at s c lin lout ->
  exists b s' delivered lin' lout', aos_serial_endpoint_step ops running s = Some (b, s') /\
    endpoint_at s' c lin' lout' /\
    lout' ++ pending_out (es_ep s') = lout ++ pending_out (es_ep s) ++ fetched ops s /\
    delivered ++ pending_in (es_ep s') ++ lin' = pending_in (es_ep s) ++ lin /\
    (delivered = [] \/ running = true /\ exists buf n e,
       delivered = take (Z.to_nat n) buf /\ fst (ops_input ops buf n e) = true) /\
    (running = false -> lin' = lin).
Proof.
  intros Hlaw Hs. pose proof Hs as (_&_&_&_&?&?&_). cut (wp (aos_serial_endpoint_step ops running)
    (fun b s' => exists delivered lin' lout', endpoint_at s' c lin' lout' /\
      lout' ++ pending_out (es_ep s') = lout ++ pending_out (es_ep s) ++ fetched ops s /\
      delivered ++ pending_in (es_ep s') ++ lin' = pending_in (es_ep s) ++ lin /\
      (delivered = [] \/ running = true /\ exists buf n e,
         delivered = take (Z.to_nat n) buf /\ fst (ops_input ops buf n e) = true) /\
      (running = false -> lin' = lin)) s).
  { intros (b&s'&Hrun&d&l1&l2&?)%wp_run. by exists b, s', d, l1, l2. }
  unfold aos_serial_endpoint_step. wp_step. wp_step. wp_step; [lia|]. wp_step.
  eapply wp_mono; [by eapply wp_endpoint_fetch|]. intros ok s1 (->&Hs1&Ho1&Hi1). simpl. wp_step.
  eapply wp_mono; [by eapply wp_endpoint_send|]. intros ch s2 (lout'&Hs2&Ho2&Hi2).
  rewrite Ho1 in Ho2. rewrite Hi1 in Hi2. destruct running; cbn [negb].
  2:{ wp_step. exists [], lin, lout'. rewrite Hi2. split_and?; auto. }
  wp_step. eapply wp_mono; [by eapply wp_endpoint_receive|]. intros ch2 s3 (lin'&Hs3&Hi3&Ho3).
  wp_step. eapply wp_mono; [by eapply wp_endpoint_deliver|]. intros ? s4 (Hs4&_&Hi4&Ho4). wp_step.
  destruct Hi4 as [Hi4|[Hi4 Htaken]].
  - exists [], lin', lout'. rewrite Ho4, Ho3, Ho2, Hi4. simpl. rewrite Hi3, Hi2. split_and?; auto. done.
  - exists (pending_in (es_ep s3)), lin', lout'. rewrite Ho4, Ho3, Ho2, Hi4. simpl. rewrite Hi3, Hi2.
    split_and?; auto; [|done]. right. split; [done|]. eexists _, _, _. by split.
Qed.

Lemma endpoint_step_conserves_witness :
  exists b s' delivered lin' lout', aos_serial_endpoint_step demo_ops true demo_endpoint = Some (b, s') /\
    endpoint_at s' (serial_demo_chan 40) lin' lout' /\ lout' ++ pending_out (es_ep s') = [1; 2; 3] /\
    delivered ++ pending_in (es_ep s') ++ lin' = [].
Proof.
  destruct (endpoint_step_conserves demo_ops demo_endpoint (serial_demo_chan 40) [] [] true demo_ops_lawful)
    as (b&s'&d&l1&l2&Hrun&Hat&Ho&Hi&_).
  { unfold endpoint_at. split_and?; try (apply demo_empty; auto);
      vm_compute; (reflexivity || discriminate || (split; discriminate)). }
  exists b, s', d, l1, l2. split_and?; [exact Hrun|exact Hat|exact Ho|exact Hi].
Defined.

(** The UART adapter respects the gate and loses no byte. With the gate
    open, one step moves at most one byte each way between port and queues,
    keeps everything it could not pass on, and leaves the gate open; with
    the gate closed or busy it touches neither memory nor port, and a closed
    gate drops the bytes held for the retired guest. *)
Theorem uart_step_gated {E} (io : aos_serial_uart_io E) s c lin lout t :
  uart_at s c lin lout -> sch_meta c <> NULL -> sm_metas (us_mem s) !! sch_meta c = Some t ->
  exists r s', aos_serial_uart_step io s = Some (r, s') /\
    if scm_frontend_gate t =? 0 then uart_moved io s s' c lin lout
    else
      let closed := negb (Z.land (scm_frontend_gate t) AOS_SERIAL_FRONTEND_CLOSED =? 0) in
      r = (true, false) /\ us_mem s' = us_mem s /\ us_env s' = us_env s /\
      tx_held (us_uart s') = (if closed then [] else tx_held (us_uart s)) /\
      rx_held (us_uart s') = (if closed then [] else rx_held (us_uart s)).
Proof.
  intros Hs Hn Ht. pose proof Hs as (Hc&Ha&Hlin&Hlout). apply wp_run. unfold aos_serial_uart_step.
  wp_step. wp_step. rewrite Hc, (proj2 (Z.eqb_neq _ _) Hn). wp_step. apply wp_ua_in_mem. unfold wp at 1.
  rewrite (frontend_begin_run c _ t Ht Hn). destruct (Z.eqb_spec (scm_frontend_gate t) 0) as [Hz|Hz].
  - simpl. wp_step. set (m1 := set_meta _ _ (us_mem s)).
    set (s1 := {| us_uart := us_uart s; us_mem := m1; us_env := us_env s |}).
    eapply wp_mono; [by apply (wp_uart_admitted io s1 c lin lout)|].
    intros r s2 (sent&got&lin'&lout'&(Hc2&_&Hlin2&Hlout2)&Hm2&Htx&Hrx&Hsent&Hgot).
    wp_step. apply wp_ua_in_mem. unfold wp at 1.
    rewrite (frontend_end_run c _ (meta_gate t AOS_SERIAL_FRONTEND_BUSY)) by (rewrite Hm2; apply lookup_insert_eq).
    wp_step. exists sent, got, lin', lout'. split_and?; auto; [by unfold uart_at|]. simpl. rewrite Hm2. simpl.
    rewrite insert_insert_eq. apply insert_id. rewrite Ht. by destruct t; simpl in Hz; subst.
  - assert (forall b : bool, negb ((if b then AOS_SERIAL_PUMP_INVALID else AOS_SERIAL_PUMP_FULL) =? AOS_SERIAL_PUMP_OK) = true)
      as -> by (by intros []).
    wp_step. apply wp_ua_in_mem. eapply wp_load_meta; [exact Ht|]. wp_step.
    destruct (negb _); wp_step; wp_step; destruct s; simpl; by split_and?.
Qed.

Lemma uart_step_gated_witness :
  exists r s', aos_serial_uart_step demo_io demo_uart = Some (r, s') /\
    uart_moved demo_io demo_uart s' (serial_demo_chan 40) [] [].
Proof.
  apply (uart_step_gated demo_io demo_uart (serial_demo_chan 40) [] []
    {| scm_guest_state := 0; scm_attached := 0; scm_frontend_gate := 0 |}).
  - unfold uart_at. split_and?; try (apply demo_empty; auto);
      vm_compute; (reflexivity || discriminate || (split; discriminate)).
  - discriminate.
  - vm_compute. reflexivity.
Defined.
