(* ===== verification/Kernel.v ===== *)
(** * The seL4 kernel as the agentOS user-level code sees it

    The kernel itself is not part of the repository. Its error codes, object
    types and invocations are named here; what an invocation does is the
    parameter [kinvoke] of the class [Kernel], an arbitrary function on an
    arbitrary kernel state. Every invocation that the code makes is recorded,
    newest first, so that theorems can speak of what was asked for and what
    was answered, in order, for every possible kernel. *)

From S2P Require Import Prelude.
From stdpp Require Import options.

(** seL4_Error. *)
Inductive seL4_Error :=
  | seL4_NoError
  | seL4_InvalidArgument
  | seL4_InvalidCapability
  | seL4_IllegalOperation
  | seL4_RangeError
  | seL4_AlignmentError
  | seL4_FailedLookup
  | seL4_TruncatedMessage
  | seL4_DeleteFirst
  | seL4_RevokeFirst
  | seL4_NotEnoughMemory.

#[global] Instance seL4_Error_eq_dec : EqDecision seL4_Error.
Proof. solve_decision. Defined.

(** The object types that the modelled code retypes. *)
Inductive kobject :=
  | seL4_UntypedObject
  | seL4_TCBObject
  | seL4_EndpointObject
  | seL4_NotificationObject
  | seL4_ReplyObject
  | seL4_SchedContextObject
  | seL4_CapTableObject
  | seL4_VCPUObject
  | seL4_SmallPageObject
  | seL4_LargePageObject
  | seL4_PageTableObject
  | seL4_VSpaceObject.

#[global] Instance kobject_eq_dec : EqDecision kobject.
Proof. solve_decision. Defined.

(** seL4_CapRights_t. *)
Record seL4_CapRights := mk_rights {
  capAllowGrantReply : bool; capAllowGrant : bool; capAllowRead : bool; capAllowWrite : bool }.

#[global] Instance seL4_CapRights_eq_dec : EqDecision seL4_CapRights.
Proof. solve_decision. Defined.

Definition seL4_AllRights : seL4_CapRights := mk_rights true true true true.

(** The registers that the code sets before a thread starts; every other one
    is zero. *)
Record seL4_UserContext := mk_context { ctx_pc : Z; ctx_sp : Z; ctx_arg0 : Z; ctx_arg1 : Z }.

#[global] Instance seL4_UserContext_eq_dec : EqDecision seL4_UserContext.
Proof. solve_decision. Defined.

(** The invocations, with the capability invoked first. Mappings are always
    made with all rights and the default attributes, and copies with all
    rights, so these arguments are not repeated. [IPC_Call] is a message to a
    user-level service that transfers one capability; its answer is the label
    of the reply, as for every invocation ([seL4_NoError] is label 0, and the
    code only tells 0 from the rest). *)
Inductive kcall :=
  | Untyped_Retype (untyped : Z) (type : kobject) (size_bits root node_index node_depth
      node_offset num_objects : Z)
  | CNode_Copy (dest_root dest_index dest_depth src_root src_index src_depth : Z)
  | CNode_Mint (dest_root dest_index dest_depth src_root src_index src_depth : Z)
      (rights : seL4_CapRights) (badge : Z)
  | CNode_Move (dest_root dest_index dest_depth src_root src_index src_depth : Z)
  | CNode_Delete (root index depth : Z)
  | CNode_Revoke (root index depth : Z)
  | Page_Map (frame vspace vaddr : Z)
  | Page_Unmap (frame : Z)
  | PageTable_Map (table vspace vaddr : Z)
  | ASIDPool_Assign (pool vspace : Z)
  | TCB_Configure (tcb cspace_root cspace_data vspace vspace_data buffer frame : Z)
  | VCPU_SetTCB (vcpu tcb : Z)
  | TCB_WriteRegisters (tcb : Z) (resume : bool) (regs : seL4_UserContext)
  | TCB_SetSchedParams (tcb authority mcp priority sched_context fault_ep : Z)
  | SchedControl_ConfigureFlags (sched_control sched_context budget period extra_refills
      badge flags : Z)
  | SchedContext_Bind (sched_context cap : Z)
  | IPC_Call (service label cap : Z).

#[global] Instance kcall_eq_dec : EqDecision kcall.
Proof. solve_decision. Defined.

Definition seL4_CapNull : Z := 0.
Definition seL4_WordBits : Z := 64.

(** The kernel: an arbitrary deterministic machine, and the object sizes of
    its configuration. *)
Class Kernel (K : Type) := {
  kinvoke : kcall -> K -> seL4_Error * K;
  kbits : kobject -> Z }.

Definition kevent : Type := kcall * seL4_Error.

Record kworld (K : Type) := mk_kworld { kw_kernel : K; kw_log : list kevent }.
Arguments mk_kworld {K}.
Arguments kw_kernel {K}.
Arguments kw_log {K}.

(** Code with local state [S] that invokes the kernel. *)
Definition kprog (K S A : Type) : Type := prog (kworld K * S) A.

Section kernel.
Context {K S : Type} `{Kernel K}.

Definition kworld_next (c : kcall) (w : kworld K) : kworld K :=
  let r := kinvoke c (kw_kernel w) in
  {| kw_kernel := r.2; kw_log := (c, r.1) :: kw_log w |}.

Definition ksys (c : kcall) : kprog K S seL4_Error := fun ws =>
  Some ((kinvoke c (kw_kernel ws.1)).1, (kworld_next c ws.1, ws.2)).

(** The user-level part of the state. *)
Definition kget : kprog K S S := fun ws => Some (ws.2, ws).
Definition kmodify (f : S -> S) : kprog K S unit := fun ws => Some (tt, (ws.1, f ws.2)).

(** An invocation extends the record by itself, whatever it answers. *)
Lemma wp_ksys c (Q : seL4_Error -> kworld K * S -> Prop) w s :
  (forall e k, Q e (mk_kworld k ((c, e) :: kw_log w), s)) -> wp (ksys c) Q (w, s).
Proof. intros HQ. apply HQ. Qed.

(** The same, with the kernel's transition. *)
Lemma wp_ksys_step c (Q : seL4_Error -> kworld K * S -> Prop) w s :
  (forall e k, kinvoke c (kw_kernel w) = (e, k) -> Q e (mk_kworld k ((c, e) :: kw_log w), s)) ->
  wp (ksys c) Q (w, s).
Proof. intros HQ. apply HQ. simpl. destruct (kinvoke c (kw_kernel w)); reflexivity. Qed.

Lemma wp_kget (Q : S -> kworld K * S -> Prop) ws : Q ws.2 ws -> wp kget Q ws.
Proof. done. Qed.

Lemma wp_kmodify f (Q : unit -> kworld K * S -> Prop) ws :
  Q tt (ws.1, f ws.2) -> wp (kmodify f) Q ws.
Proof. done. Qed.
End kernel.

(** ** Reading the record *)

(** The invocations after the last one that satisfies [p]. *)
Fixpoint since (p : kevent -> bool) (log : list kevent) : list kevent :=
  match log with
  | [] => []
  | e :: log => if p e then [] else e :: since p log
  end.

(** [asked log c]: the invocation [c] is in the record and succeeded. *)
Definition asked (log : list kevent) (c : kcall) : Prop := (c, seL4_NoError) ∈ log.

Lemma since_app p d log :
  Forall (fun e => p e = false) d -> since p (d ++ log) = d ++ since p log.
Proof. induction 1 as [|e d He _ IH]; simpl; [done|by rewrite He, IH]. Qed.

Lemma asked_app_l d log c : asked d c -> asked (d ++ log) c.
Proof. intros. apply elem_of_app. by left. Qed.

Lemma asked_app_r d log c : asked log c -> asked (d ++ log) c.
Proof. intros. apply elem_of_app. by right. Qed.

(** An inner program on a part of the local state. *)
Definition zoom {K S T A} (get : S -> T) (set : T -> S -> S) (m : kprog K T A) : kprog K S A :=
  fun ws => match m (ws.1, get ws.2) with
            | Some (a, (w, t)) => Some (a, (w, set t ws.2))
            | None => None
            end.

Lemma wp_zoom {K S T A} (get : S -> T) (set : T -> S -> S) (m : kprog K T A) Q w s :
  wp m (fun a wt => Q a (wt.1, set wt.2 s)) (w, get s) -> wp (zoom get set m) Q (w, s).
Proof. unfold wp, zoom. simpl. by destruct (m (w, get s)) as [[a [w' t]]|]. Qed.

Create HintDb kdb.
#[export] Hint Resolve asked_app_l asked_app_r : kdb.

(** One step of a program that invokes the kernel. *)
Ltac kstep :=
  lazymatch goal with
  | |- wp (ksys _) _ _ => apply wp_ksys; intros ? ?
  | |- wp kget _ _ => apply wp_kget
  | |- wp (kmodify _) _ _ => apply wp_kmodify
  | |- wp (if _ then _ else _) _ _ => apply wp_if; intros ?
  | |- _ => wp_step
  end.
