(* ===== verification/GuestRam.v ===== *)
(** * Guest RAM, paging and execution objects of a VMM

    Models platform/guest-ram (gpa_translate.c, vmm_guest_ram.c,
    vmm_guest_paging.c, vmm_guest_execution.c) and the guest-memory copies of
    libvmm/src/virtio/gpa.c: translation of guest-physical addresses to VMM
    addresses, and the release and reconstruction of a guest's frames, page
    tables and execution objects through kernel invocations on the VMM's own
    capabilities. The kernel is the parameter of Kernel.v. *)

From S2P Require Import Prelude Kernel.
From stdpp Require Import options.

(** ** Capability slots: contracts/guest_*_caps.h *)

Definition AOS_GUEST_RAM_CNODE_BITS : Z := 12.
Definition AOS_GUEST_RAM_SELF_CNODE : Z := 458.
Definition AOS_GUEST_RAM_VMM_VSPACE : Z := 459.
Definition AOS_GUEST_RAM_GUEST_VSPACE : Z := 460.
Definition AOS_GUEST_RAM_POOL_BASE : Z := 512.
Definition AOS_GUEST_RAM_MAX_FRAMES : Z := 1024.
Definition AOS_GUEST_RAM_FRAME_BASE : Z := 1536.
Definition AOS_GUEST_RAM_ALIAS_BASE : Z := 2560.
Definition AOS_GUEST_RAM_FRAME_BITS : Z := 21.
Definition AOS_GUEST_PAGING_POOL_CAP : Z := 463.
Definition AOS_GUEST_ASID_POOL_CAP : Z := 464.
Definition AOS_GUEST_PAGING_TABLE_BASE : Z := 3600.
Definition AOS_GUEST_PAGING_TABLE_COUNT : Z := 254.
Definition AOS_GUEST_TCB_CAP_BASE : Z := 266.
Definition AOS_GUEST_VCPU_CAP_BASE : Z := 330.
Definition AOS_GUEST_SC_CAP_BASE : Z := 394.
Definition AOS_GUEST_EXECUTION_POOL_CAP : Z := 461.
Definition AOS_GUEST_IPC_FRAME_CAP : Z := 462.
Definition AOS_GUEST_IPC_BUFFER_VA : Z := 0x10002000.
Definition AOS_GUEST_SCHED_EXCHANGE_CAP : Z := 494.
Definition AOS_GUEST_SCHED_EXCHANGE_BITS : Z := 2.
Definition AOS_GUEST_SCHED_TCB : Z := 0.
Definition AOS_GUEST_SCHED_SC : Z := 1.
Definition AOS_GUEST_GIC_VSPACE_EXCHANGE_SLOT : Z := 3.
Definition AOS_GUEST_GIC_IPA : Z := 0x08010000.

(** ** Translation: gpa_translate.c *)

Record aos_guest_ram := mk_guest_ram { gpa_base : Z; hva_base : Z; size : Z }.

(** The VMM's static variables: [g_emulated_ram], [g_emulated_ram_ok],
    whether libvmm's translation hook is installed, and [next_table]. *)
Record vmm := mk_vmm {
  v_ram : aos_guest_ram;
  v_ram_ok : Z;
  v_translate : bool;
  v_next_table : Z }.

(** [ram] is [None] for a null argument; the result is a VMM address. *)
Definition aos_gpa_to_hva (ram : option aos_guest_ram) (gpa len : Z) : Z :=
  match ram with
  | None => NULL
  | Some ram =>
      if size ram =? 0 then NULL else
      let ram_end := u64 (gpa_base ram + size ram) in
      if ram_end <? gpa_base ram then NULL else
      if len =? 0 then
        if (gpa <? gpa_base ram) || (ram_end <? gpa) then NULL
        else u64 (hva_base ram + u64 (gpa - gpa_base ram))
      else
        let gpa_end := u64 (gpa + len) in
        if gpa_end <? gpa then NULL else
        if (gpa <? gpa_base ram) || (ram_end <? gpa_end) then NULL
        else u64 (hva_base ram + u64 (gpa - gpa_base ram))
  end.

Definition aos_guest_ram_configure (gpa hva sz : Z) (s : vmm) : vmm :=
  mk_vmm (mk_guest_ram gpa hva sz) (if 0 <? sz then 1 else 0) (v_translate s) (v_next_table s).

Definition aos_gpa_to_hva_configured (s : vmm) (gpa len : Z) : Z :=
  if v_ram_ok s =? 0 then NULL else aos_gpa_to_hva (Some (v_ram s)) gpa len.

(** ** libvmm/src/virtio/gpa.c *)

(** The only hook that the VMM installs is [aos_gpa_to_hva_configured]. *)
Definition virtio_gpa_set_translate (s : vmm) : vmm :=
  mk_vmm (v_ram s) (v_ram_ok s) true (v_next_table s).

Definition virtio_gpa_to_hva (s : vmm) (gpa len : Z) : Z :=
  if v_translate s then aos_gpa_to_hva_configured s gpa len else NULL.

Definition gpa_add_off (gpa off : Z) : option Z :=
  if negb (off =? 0) && (UINT64_MAX - off <? gpa) then None else Some (u64 (gpa + off)).

(** VMM memory: the bytes of the addresses that are mapped. [mem_read] and
    [mem_write] are memcpy, which faults on an unmapped address. *)
Abbreviation vmem := (gmap Z Z).

Definition mem_read (m : vmem) (a n : Z) : option (list Z) :=
  mapM (fun i => m !! i) (seqZ a n).

Fixpoint mem_write (m : vmem) (a : Z) (bs : list Z) : option vmem :=
  match bs with
  | [] => Some m
  | b :: bs =>
      match m !! a with
      | None => None
      | Some _ => mem_write (<[a := b]> m) (a + 1) bs
      end
  end.

(** The result code, and the bytes stored at [dst] ([dst_null]: [dst] is
    NULL); [None] is a fault. *)
Definition virtio_copy_from_gpa (s : vmm) (m : vmem) (gpa off : Z) (dst_null : bool)
    (len : Z) : option (Z * list Z) :=
  if len =? 0 then Some (0, []) else
  if dst_null then Some (-1, []) else
  match gpa_add_off gpa off with
  | None => Some (-1, [])
  | Some start =>
      let src := virtio_gpa_to_hva s start len in
      if src =? NULL then Some (-1, []) else
      bs ← mem_read m src len; Some (0, bs)
  end.

(** [src] is the array of [len] bytes to copy, or [None] for NULL. *)
Definition virtio_copy_to_gpa (s : vmm) (m : vmem) (gpa off : Z) (src : option (list Z))
    (len : Z) : option (Z * vmem) :=
  if len =? 0 then Some (0, m) else
  match src, gpa_add_off gpa off with
  | Some bs, Some start =>
      let dst := virtio_gpa_to_hva s start len in
      if dst =? NULL then Some (-1, m) else
      m' ← mem_write m dst bs; Some (0, m')
  | _, _ => Some (-1, m)
  end.

Record virtq := mk_virtq { vq_num : Z; vq_desc : Z; vq_avail : Z; vq_used : Z }.

Definition SIZEOF_VIRTQ_DESC : Z := 16.
Definition SIZEOF_VIRTQ_USED_ELEM : Z := 8.

Definition desc_len (num : Z) : Z := num * SIZEOF_VIRTQ_DESC.
Definition avail_len (num : Z) : Z := 2 * (3 + num).
Definition used_len (num : Z) : Z := 2 * 3 + SIZEOF_VIRTQ_USED_ELEM * num.

Definition virtio_queue_map_guest_rings (s : vmm) (q : option virtq) : bool * option virtq :=
  match q with
  | None => (false, q)
  | Some v =>
      if (vq_num v =? 0) || (32768 <? vq_num v) then (false, q) else
      if negb (Z.land (vq_desc v) 15 =? 0) || negb (Z.land (vq_avail v) 1 =? 0)
         || negb (Z.land (vq_used v) 3 =? 0) then (false, q) else
      let desc := virtio_gpa_to_hva s (vq_desc v) (desc_len (vq_num v)) in
      let avail := virtio_gpa_to_hva s (vq_avail v) (avail_len (vq_num v)) in
      let used := virtio_gpa_to_hva s (vq_used v) (used_len (vq_num v)) in
      if (desc =? NULL) || (avail =? NULL) || (used =? NULL) then (false, q)
      else (true, Some (mk_virtq (vq_num v) desc avail used))
  end.

Record virtio_queue_handler := mk_handler { vh_virtq : virtq; vh_ready : bool; vh_last_idx : Z }.

Definition virtio_queue_reset_guest_rings (h : option virtio_queue_handler) :
    option virtio_queue_handler :=
  match h with
  | None => None
  | Some _ => Some (mk_handler (mk_virtq 0 0 0 0) false 0)
  end.

(** ** Frames: vmm_guest_ram.c and vmm_guest_paging.c *)

Definition frame_size : Z := Z.shiftl 1 AOS_GUEST_RAM_FRAME_BITS.

Definition ram_frame_count (sz : Z) : Z :=
  if (sz =? 0) || negb (Z.land sz (frame_size - 1) =? 0)
     || (AOS_GUEST_RAM_MAX_FRAMES <? sz / frame_size) then 0
  else sz / frame_size.

Definition aos_vmm_guest_ram_bind (gpa hva sz : Z) (s : vmm) : vmm :=
  virtio_gpa_set_translate (aos_guest_ram_configure gpa hva sz s).

Definition set_next_table (n : Z) (s : vmm) : vmm :=
  mk_vmm (v_ram s) (v_ram_ok s) (v_translate s) n.

Definition err_ne (e e' : seL4_Error) : bool := negb (bool_decide (e = e')).

Section ops.
Context {K : Type} `{Kernel K}.

(** The loop variable is the early return: [Some r] once the function has
    returned [r]. *)
Definition aos_vmm_guest_page_map (frame guest_address : Z) : kprog K vmm bool :=
  r ← for_loop 4 0 None (fun attempt _ =>
    err ← ksys (Page_Map frame AOS_GUEST_RAM_GUEST_VSPACE guest_address);
    if bool_decide (err = seL4_NoError) then mret (Break, Some true) else
    s ← kget;
    if err_ne err seL4_FailedLookup || (attempt =? 3)
       || (AOS_GUEST_PAGING_TABLE_COUNT <=? v_next_table s) then mret (Break, Some false) else
    let table := AOS_GUEST_PAGING_TABLE_BASE + v_next_table s in
    err ← ksys (Untyped_Retype AOS_GUEST_PAGING_POOL_CAP seL4_PageTableObject 0
                  AOS_GUEST_RAM_SELF_CNODE 0 0 table 1);
    if err_ne err seL4_NoError then mret (Break, Some false) else
    kmodify (fun s => set_next_table (u32 (v_next_table s + 1)) s);;
    err ← ksys (PageTable_Map table AOS_GUEST_RAM_GUEST_VSPACE guest_address);
    if err_ne err seL4_NoError then mret (Break, Some false) else
    mret (Continue, None));
  mret (default false r).

Definition aos_vmm_guest_paging_release : kprog K vmm bool :=
  err ← ksys (CNode_Revoke AOS_GUEST_RAM_SELF_CNODE AOS_GUEST_PAGING_POOL_CAP
                AOS_GUEST_RAM_CNODE_BITS);
  if err_ne err seL4_NoError then mret false else
  kmodify (set_next_table 0);;
  mret true.

Definition aos_vmm_guest_paging_rebuild : kprog K vmm bool :=
  err ← ksys (Untyped_Retype AOS_GUEST_PAGING_POOL_CAP seL4_VSpaceObject 0
                AOS_GUEST_RAM_SELF_CNODE 0 0 AOS_GUEST_RAM_GUEST_VSPACE 1);
  if err_ne err seL4_NoError then mret false else
  err ← ksys (ASIDPool_Assign AOS_GUEST_ASID_POOL_CAP AOS_GUEST_RAM_GUEST_VSPACE);
  mret (bool_decide (err = seL4_NoError)).

Definition aos_vmm_guest_ram_release (sz : Z) : kprog K vmm bool :=
  let count := ram_frame_count sz in
  if count =? 0 then mret false else
  kmodify (aos_guest_ram_configure 0 0 0);;
  r ← for_loop (Z.to_nat count) 0 None (fun i _ =>
    err ← ksys (CNode_Revoke AOS_GUEST_RAM_SELF_CNODE (AOS_GUEST_RAM_POOL_BASE + i)
                  AOS_GUEST_RAM_CNODE_BITS);
    if err_ne err seL4_NoError then mret (Break, Some false) else mret (Continue, None));
  mret (default true r).

(** The body of the rebuild loop, for frame [i]. *)
Definition rebuild_frame (gpa hva i : Z) : kprog K vmm (loop_ctl * option bool) :=
  let frame := AOS_GUEST_RAM_FRAME_BASE + i in
  let alias := AOS_GUEST_RAM_ALIAS_BASE + i in
  err ← ksys (Untyped_Retype (AOS_GUEST_RAM_POOL_BASE + i) seL4_LargePageObject 0
                AOS_GUEST_RAM_SELF_CNODE 0 0 frame 1);
  if err_ne err seL4_NoError then mret (Break, Some false) else
  err ← ksys (CNode_Copy AOS_GUEST_RAM_SELF_CNODE alias AOS_GUEST_RAM_CNODE_BITS
                AOS_GUEST_RAM_SELF_CNODE frame AOS_GUEST_RAM_CNODE_BITS);
  if err_ne err seL4_NoError then mret (Break, Some false) else
  mapped ← aos_vmm_guest_page_map frame (u64 (gpa + i * frame_size));
  if negb mapped then mret (Break, Some false) else
  err ← ksys (Page_Map alias AOS_GUEST_RAM_VMM_VSPACE (u64 (hva + i * frame_size)));
  if err_ne err seL4_NoError then mret (Break, Some false) else
  mret (Continue, None).

Definition aos_vmm_guest_ram_rebuild (gpa hva sz : Z) : kprog K vmm bool :=
  let count := ram_frame_count sz in
  if (count =? 0) || negb (Z.land gpa (frame_size - 1) =? 0)
     || negb (Z.land hva (frame_size - 1) =? 0)
     || (UINT64_MAX - sz <? gpa) || (UINT64_MAX - sz <? hva) then mret false else
  r ← for_loop (Z.to_nat count) 0 None (fun i _ => rebuild_frame gpa hva i);
  match r with
  | Some r => mret r
  | None => kmodify (aos_vmm_guest_ram_bind gpa hva sz);; mret true
  end.

(** ** Execution objects: vmm_guest_execution.c *)

Definition aos_vmm_guest_execution_release : kprog K vmm bool :=
  err ← ksys (CNode_Revoke AOS_GUEST_RAM_SELF_CNODE AOS_GUEST_EXECUTION_POOL_CAP
                AOS_GUEST_RAM_CNODE_BITS);
  mret (bool_decide (err = seL4_NoError)).

Definition allocate (type : kobject) (bits slot : Z) : kprog K vmm bool :=
  err ← ksys (Untyped_Retype AOS_GUEST_EXECUTION_POOL_CAP type bits
                AOS_GUEST_RAM_SELF_CNODE 0 0 slot 1);
  mret (bool_decide (err = seL4_NoError)).

Definition publish (object slot : Z) : kprog K vmm bool :=
  err ← ksys (CNode_Copy AOS_GUEST_SCHED_EXCHANGE_CAP slot AOS_GUEST_SCHED_EXCHANGE_BITS
                AOS_GUEST_RAM_SELF_CNODE object AOS_GUEST_RAM_CNODE_BITS);
  mret (bool_decide (err = seL4_NoError)).

(** [m1 && m2]: [m2] runs only when [m1] returned true. *)
Definition and_then (m1 m2 : kprog K vmm bool) : kprog K vmm bool :=
  b ← m1; if negb b then mret false else m2.

Definition succeeds (c : kcall) : kprog K vmm bool :=
  err ← ksys c; mret (bool_decide (err = seL4_NoError)).

Definition aos_vmm_guest_execution_rebuild : kprog K vmm bool :=
  and_then (allocate seL4_TCBObject 0 AOS_GUEST_TCB_CAP_BASE)
  (and_then (allocate seL4_VCPUObject 0 AOS_GUEST_VCPU_CAP_BASE)
  (and_then (allocate seL4_SchedContextObject (kbits seL4_SchedContextObject)
               AOS_GUEST_SC_CAP_BASE)
  (and_then (allocate seL4_SmallPageObject 0 AOS_GUEST_IPC_FRAME_CAP)
  (and_then (aos_vmm_guest_page_map AOS_GUEST_IPC_FRAME_CAP AOS_GUEST_GIC_IPA)
  (and_then (succeeds (Page_Unmap AOS_GUEST_IPC_FRAME_CAP))
  (and_then (aos_vmm_guest_page_map AOS_GUEST_IPC_FRAME_CAP AOS_GUEST_IPC_BUFFER_VA)
  (and_then (succeeds (TCB_Configure AOS_GUEST_TCB_CAP_BASE AOS_GUEST_RAM_SELF_CNODE
                         (seL4_WordBits - AOS_GUEST_RAM_CNODE_BITS)
                         AOS_GUEST_RAM_GUEST_VSPACE 0 AOS_GUEST_IPC_BUFFER_VA
                         AOS_GUEST_IPC_FRAME_CAP))
  (and_then (succeeds (VCPU_SetTCB AOS_GUEST_VCPU_CAP_BASE AOS_GUEST_TCB_CAP_BASE))
  (and_then (publish AOS_GUEST_TCB_CAP_BASE AOS_GUEST_SCHED_TCB)
  (and_then (publish AOS_GUEST_SC_CAP_BASE AOS_GUEST_SCHED_SC)
            (publish AOS_GUEST_RAM_GUEST_VSPACE
               AOS_GUEST_GIC_VSPACE_EXCHANGE_SLOT))))))))))).
End ops.

(** ** What the operations may ask for, and when a frame is backed *)

(** [c] only names capabilities that the VMM owns: its frame pools and their
    frames and aliases, its paging pool and tables, its execution pool and
    objects, and its own exchange CNode. *)
Definition ram_slot (base x : Z) : bool := (base <=? x) && (x <? base + AOS_GUEST_RAM_MAX_FRAMES).

Definition private_retype (ut : Z) (ty : kobject) (slot : Z) : bool :=
  match ty with
  | seL4_LargePageObject =>
      ram_slot AOS_GUEST_RAM_POOL_BASE ut
      && (slot =? ut - AOS_GUEST_RAM_POOL_BASE + AOS_GUEST_RAM_FRAME_BASE)
  | seL4_PageTableObject =>
      (ut =? AOS_GUEST_PAGING_POOL_CAP) && (AOS_GUEST_PAGING_TABLE_BASE <=? slot)
      && (slot <? AOS_GUEST_PAGING_TABLE_BASE + AOS_GUEST_PAGING_TABLE_COUNT)
  | seL4_VSpaceObject =>
      (ut =? AOS_GUEST_PAGING_POOL_CAP) && (slot =? AOS_GUEST_RAM_GUEST_VSPACE)
  | seL4_TCBObject => (ut =? AOS_GUEST_EXECUTION_POOL_CAP) && (slot =? AOS_GUEST_TCB_CAP_BASE)
  | seL4_VCPUObject => (ut =? AOS_GUEST_EXECUTION_POOL_CAP) && (slot =? AOS_GUEST_VCPU_CAP_BASE)
  | seL4_SchedContextObject =>
      (ut =? AOS_GUEST_EXECUTION_POOL_CAP) && (slot =? AOS_GUEST_SC_CAP_BASE)
  | seL4_SmallPageObject =>
      (ut =? AOS_GUEST_EXECUTION_POOL_CAP) && (slot =? AOS_GUEST_IPC_FRAME_CAP)
  | _ => false
  end.

Definition private_call (c : kcall) : bool :=
  match c with
  | Untyped_Retype ut ty _ root index depth slot num =>
      (root =? AOS_GUEST_RAM_SELF_CNODE) && (index =? 0) && (depth =? 0) && (num =? 1)
      && private_retype ut ty slot
  | CNode_Copy droot dest _ sroot src _ =>
      (sroot =? AOS_GUEST_RAM_SELF_CNODE)
      && ((droot =? AOS_GUEST_RAM_SELF_CNODE) && ram_slot AOS_GUEST_RAM_FRAME_BASE src
          && (dest =? src - AOS_GUEST_RAM_FRAME_BASE + AOS_GUEST_RAM_ALIAS_BASE)
          || (droot =? AOS_GUEST_SCHED_EXCHANGE_CAP) && (0 <=? dest)
             && (dest <? 2 ^ AOS_GUEST_SCHED_EXCHANGE_BITS)
             && ((src =? AOS_GUEST_TCB_CAP_BASE) || (src =? AOS_GUEST_SC_CAP_BASE)
                 || (src =? AOS_GUEST_RAM_GUEST_VSPACE)))
  | CNode_Revoke root slot _ =>
      (root =? AOS_GUEST_RAM_SELF_CNODE)
      && (ram_slot AOS_GUEST_RAM_POOL_BASE slot || (slot =? AOS_GUEST_PAGING_POOL_CAP)
          || (slot =? AOS_GUEST_EXECUTION_POOL_CAP))
  | Page_Map frame vspace _ =>
      (vspace =? AOS_GUEST_RAM_GUEST_VSPACE)
      && (ram_slot AOS_GUEST_RAM_FRAME_BASE frame || (frame =? AOS_GUEST_IPC_FRAME_CAP))
      || (vspace =? AOS_GUEST_RAM_VMM_VSPACE) && ram_slot AOS_GUEST_RAM_ALIAS_BASE frame
  | Page_Unmap frame => frame =? AOS_GUEST_IPC_FRAME_CAP
  | PageTable_Map table vspace _ =>
      (vspace =? AOS_GUEST_RAM_GUEST_VSPACE) && (AOS_GUEST_PAGING_TABLE_BASE <=? table)
      && (table <? AOS_GUEST_PAGING_TABLE_BASE + AOS_GUEST_PAGING_TABLE_COUNT)
  | ASIDPool_Assign pool vspace =>
      (pool =? AOS_GUEST_ASID_POOL_CAP) && (vspace =? AOS_GUEST_RAM_GUEST_VSPACE)
  | TCB_Configure tcb root _ vspace _ _ frame =>
      (tcb =? AOS_GUEST_TCB_CAP_BASE) && (root =? AOS_GUEST_RAM_SELF_CNODE)
      && (vspace =? AOS_GUEST_RAM_GUEST_VSPACE) && (frame =? AOS_GUEST_IPC_FRAME_CAP)
  | VCPU_SetTCB vcpu tcb => (vcpu =? AOS_GUEST_VCPU_CAP_BASE) && (tcb =? AOS_GUEST_TCB_CAP_BASE)
  | _ => false
  end.

(** Frame [j] of the guest: retyped from pool [j], copied to its alias, the
    frame mapped for the guest at [ga] and the alias for the VMM at [ha],
    and neither pool [j] nor the paging pool asked to be revoked since. *)
Definition unbacks (j : Z) (e : kevent) : bool :=
  match e.1 with
  | CNode_Revoke _ slot _ =>
      (slot =? AOS_GUEST_RAM_POOL_BASE + j) || (slot =? AOS_GUEST_PAGING_POOL_CAP)
  | _ => false
  end.

Definition frame_backed (log : list kevent) (j ga ha : Z) : Prop :=
  let l := since (unbacks j) log in
  let frame := AOS_GUEST_RAM_FRAME_BASE + j in
  let alias := AOS_GUEST_RAM_ALIAS_BASE + j in
  asked l (Untyped_Retype (AOS_GUEST_RAM_POOL_BASE + j) seL4_LargePageObject 0
             AOS_GUEST_RAM_SELF_CNODE 0 0 frame 1) /\
  asked l (CNode_Copy AOS_GUEST_RAM_SELF_CNODE alias AOS_GUEST_RAM_CNODE_BITS
             AOS_GUEST_RAM_SELF_CNODE frame AOS_GUEST_RAM_CNODE_BITS) /\
  asked l (Page_Map frame AOS_GUEST_RAM_GUEST_VSPACE ga) /\
  asked l (Page_Map alias AOS_GUEST_RAM_VMM_VSPACE ha).

(** The slots that hold a page table: those retyped since the paging pool was
    last revoked, newest first. *)
Definition paging_reset (e : kevent) : bool :=
  match e with
  | (CNode_Revoke _ slot _, seL4_NoError) => slot =? AOS_GUEST_PAGING_POOL_CAP
  | _ => false
  end.

Definition table_slot (e : kevent) : option Z :=
  match e with
  | (Untyped_Retype _ seL4_PageTableObject _ _ _ _ slot _, seL4_NoError) => Some slot
  | _ => None
  end.

Definition table_slots (log : list kevent) : list Z := omap table_slot (since paging_reset log).

Definition page_of (a : Z) : Z := a - a mod frame_size.

(** ** The operations as a transition system

    Each transition is one operation run to completion, with any kernel
    answers. The two side conditions are the callers' obligations of
    platform/guest_ram.h and contracts/guest_paging_caps.h: rebuilding needs
    translation to be off, and so does revoking the paging pool. *)
Section system.
Context {K : Type} `{Kernel K}.

Inductive guest_step : kworld K * vmm -> kworld K * vmm -> Prop :=
  | step_ram_release sz r ws ws' :
      is_u64 sz -> aos_vmm_guest_ram_release sz ws = Some (r, ws') -> guest_step ws ws'
  | step_ram_rebuild gpa hva sz r ws ws' :
      is_u64 gpa -> is_u64 hva -> is_u64 sz -> v_ram_ok ws.2 = 0 ->
      aos_vmm_guest_ram_rebuild gpa hva sz ws = Some (r, ws') -> guest_step ws ws'
  | step_paging_release r ws ws' :
      v_ram_ok ws.2 = 0 ->
      aos_vmm_guest_paging_release ws = Some (r, ws') -> guest_step ws ws'
  | step_paging_rebuild r ws ws' :
      aos_vmm_guest_paging_rebuild ws = Some (r, ws') -> guest_step ws ws'
  | step_execution_release r ws ws' :
      aos_vmm_guest_execution_release ws = Some (r, ws') -> guest_step ws ws'
  | step_execution_rebuild r ws ws' :
      aos_vmm_guest_execution_rebuild ws = Some (r, ws') -> guest_step ws ws'.

(** No invocation made, translation off and no table allocated. *)
Definition guest_start (ws : kworld K * vmm) : Prop :=
  kw_log ws.1 = [] /\ v_ram_ok ws.2 = 0 /\ v_next_table ws.2 = 0.

(** What holds at every point of every operation. *)
Definition guest_calls_ok (ws : kworld K * vmm) : Prop :=
  Forall (fun e => private_call e.1 = true) (kw_log ws.1) /\
  0 <= v_next_table ws.2 <= AOS_GUEST_PAGING_TABLE_COUNT /\
  table_slots (kw_log ws.1)
    = reverse (seqZ AOS_GUEST_PAGING_TABLE_BASE (v_next_table ws.2)).

(** A window that is being translated is backed frame by frame. *)
Definition window_ok (ram : aos_guest_ram) : Prop :=
  is_u64 (gpa_base ram) /\ is_u64 (hva_base ram) /\ is_u64 (size ram) /\
  gpa_base ram mod frame_size = 0 /\ hva_base ram mod frame_size = 0 /\
  gpa_base ram + size ram < 2 ^ 64 /\ hva_base ram + size ram < 2 ^ 64.

Definition window_backed (log : list kevent) (gpa hva n : Z) : Prop :=
  forall j, 0 <= j < n ->
    frame_backed log j (gpa + j * frame_size) (hva + j * frame_size).

Definition guest_ram_ok (ws : kworld K * vmm) : Prop :=
  v_ram_ok ws.2 <> 0 ->
  let ram := v_ram ws.2 in
  window_ok ram /\ ram_frame_count (size ram) * frame_size = size ram /\
  0 < ram_frame_count (size ram) <= AOS_GUEST_RAM_MAX_FRAMES /\
  window_backed (kw_log ws.1) (gpa_base ram) (hva_base ram) (ram_frame_count (size ram)).

Definition guest_inv (ws : kworld K * vmm) : Prop := guest_calls_ok ws /\ guest_ram_ok ws.
End system.

(** ** Translation *)

(** The window as a range of unbounded integers. *)
Definition in_window (ram : aos_guest_ram) (gpa len : Z) : Prop :=
  0 < size ram /\ gpa_base ram + size ram < 2 ^ 64 /\
  gpa_base ram <= gpa /\ gpa + len <= gpa_base ram + size ram.

#[global] Instance in_window_dec ram gpa len : Decision (in_window ram gpa len).
Proof. unfold in_window. apply _. Defined.

Definition ram_fits (ram : aos_guest_ram) : Prop :=
  is_u64 (gpa_base ram) /\ is_u64 (hva_base ram) /\ is_u64 (size ram).

Lemma gpa_to_hva_in ram gpa len :
  ram_fits ram -> is_u64 gpa -> is_u64 len -> in_window ram gpa len ->
  aos_gpa_to_hva (Some ram) gpa len = u64 (hva_base ram + (gpa - gpa_base ram)).
Proof.
  unfold ram_fits, is_u64, in_window, aos_gpa_to_hva. intros Hf Hg Hl Hw.
  rewrite (u64_small (gpa_base ram + size ram)), (u64_small (gpa + len)),
    (u64_small (gpa - gpa_base ram)) by (unfold is_u64; lia).
  destruct (Z.eqb_spec (size ram) 0); [lia|].
  repeat case_cmp; try lia; try done; exfalso;
    match goal with H : (_ || _) = true |- _ => apply orb_true_iff in H; lia end.
Qed.

Lemma gpa_to_hva_out ram gpa len :
  ram_fits ram -> is_u64 gpa -> is_u64 len -> ~ in_window ram gpa len ->
  aos_gpa_to_hva (Some ram) gpa len = NULL.
Proof.
  unfold ram_fits, is_u64, in_window, aos_gpa_to_hva. intros Hf Hg Hl Hw.
  destruct (Z.eqb_spec (size ram) 0); [done|].
  destruct (Z.ltb_spec (u64 (gpa_base ram + size ram)) (gpa_base ram)) as [|Hend]; [done|].
  assert (gpa_base ram + size ram < 2 ^ 64) as Hnw by mod_lia.
  rewrite (u64_small (gpa_base ram + size ram)) by (unfold is_u64; lia).
  destruct (Z.eqb_spec len 0).
  - case_cmp; [done|]. rewrite orb_false_iff in *. lia.
  - destruct (Z.ltb_spec (u64 (gpa + len)) gpa); [done|].
    assert (gpa + len < 2 ^ 64) by mod_lia.
    rewrite (u64_small (gpa + len)) by (unfold is_u64; lia).
    case_cmp; [done|]. rewrite orb_false_iff in *. lia.
Qed.

(** Guest-physical translation is exact: for every window and every
    64-bit address and length, [aos_gpa_to_hva] yields the VMM address at the
    same offset when the whole range lies inside the window (no address
    arithmetic wraps), and NULL in every other case; a range that is refused
    is never partly translated. *)
Theorem gpa_to_hva_exact ram gpa len :
  ram_fits ram -> is_u64 gpa -> is_u64 len ->
  aos_gpa_to_hva (Some ram) gpa len
    = if bool_decide (in_window ram gpa len)
      then u64 (hva_base ram + (gpa - gpa_base ram)) else NULL.
Proof.
  intros. case_bool_decide; [by apply gpa_to_hva_in|by apply gpa_to_hva_out].
Qed.

Lemma gpa_to_hva_exact_witness :
  aos_gpa_to_hva (Some (mk_guest_ram 0x40000000 0x80000000 0x200000)) 0x40000010 4 = 0x80000010
  /\ aos_gpa_to_hva (Some (mk_guest_ram 0x40000000 0x80000000 0x200000)) 0x401ffffe 4 = NULL.
Proof.
  split.
  - rewrite (gpa_to_hva_exact _ 0x40000010 4) by by_compute. vm_compute. reflexivity.
  - rewrite (gpa_to_hva_exact _ 0x401ffffe 4) by by_compute. vm_compute. reflexivity.
Defined.

(** A translation that succeeds is in the configured window. *)
Lemma virtio_gpa_to_hva_inv s gpa len :
  ram_fits (v_ram s) -> is_u64 gpa -> is_u64 len ->
  virtio_gpa_to_hva s gpa len <> NULL ->
  v_ram_ok s <> 0 /\ in_window (v_ram s) gpa len /\
  virtio_gpa_to_hva s gpa len = u64 (hva_base (v_ram s) + (gpa - gpa_base (v_ram s))).
Proof.
  unfold virtio_gpa_to_hva, aos_gpa_to_hva_configured. intros Hf Hg Hl.
  destruct (v_translate s); [|done].
  destruct (Z.eqb_spec (v_ram_ok s) 0) as [|Hok]; [done|]. intros Hne.
  destruct (decide (in_window (v_ram s) gpa len)) as [Hw|Hw].
  - by rewrite gpa_to_hva_in.
  - by rewrite gpa_to_hva_out in Hne.
Qed.

(** Translation is off while the window is not configured. *)
Lemma virtio_gpa_to_hva_off s gpa len : v_ram_ok s = 0 -> virtio_gpa_to_hva s gpa len = NULL.
Proof.
  unfold virtio_gpa_to_hva, aos_gpa_to_hva_configured. intros ->.
  by destruct (v_translate s).
Qed.

(** ** Copies to and from guest memory *)

(** The configured window is mapped in the VMM and does not contain NULL. *)
Definition window_mapped (s : vmm) (m : vmem) : Prop :=
  ram_fits (v_ram s) /\ 0 < hva_base (v_ram s) /\
  hva_base (v_ram s) + size (v_ram s) < 2 ^ 64 /\
  forall a, hva_base (v_ram s) <= a < hva_base (v_ram s) + size (v_ram s) -> is_Some (m !! a).

Lemma mem_write_spec bs : forall m a,
  (forall x, a <= x < a + Z.of_nat (length bs) -> is_Some (m !! x)) ->
  exists m', mem_write m a bs = Some m' /\
    (forall i b, bs !! i = Some b -> m' !! (a + Z.of_nat i) = Some b) /\
    (forall x, ~ (a <= x < a + Z.of_nat (length bs)) -> m' !! x = m !! x).
Proof.
  induction bs as [|b bs IH]; intros m a Hm; simpl in *.
  { exists m. split_and!; [done|intros ? ? ?; done|done]. }
  destruct (Hm a) as [x ->]; [lia|].
  destruct (IH (<[a := b]> m) (a + 1)) as (m' & -> & Hin & Hout).
  { intros y Hy. rewrite lookup_insert_ne by lia. apply Hm. lia. }
  exists m'. split_and!; [done| |].
  - intros [|i] c Hc; simpl in Hc.
    + simplify_eq. rewrite Z.add_0_r, Hout by lia. apply lookup_insert_eq.
    + replace (a + Z.of_nat (S i)) with (a + 1 + Z.of_nat i) by lia. by apply Hin.
  - intros y Hy. rewrite Hout by lia. apply lookup_insert_ne. lia.
Qed.

Lemma mem_read_total n : forall m a,
  (forall x, a <= x < a + Z.of_nat n -> is_Some (m !! x)) ->
  exists bs, mem_read m a (Z.of_nat n) = Some bs /\ length bs = n /\
    forall i, (i < n)%nat -> bs !! i = m !! (a + Z.of_nat i).
Proof.
  unfold mem_read. induction n as [|n IH]; intros m a Hm; [exists []; split_and!; [done..|lia]|].
  rewrite Nat2Z.inj_succ, seqZ_cons, Z.pred_succ by lia. simpl.
  destruct (Hm a) as [b Hb]; [lia|]. rewrite Hb. simpl.
  destruct (IH m (Z.succ a)) as (bs & Hbs & Hl & Hget); [intros x Hx; apply Hm; lia|]. rewrite Hbs. simpl.
  exists (b :: bs). split_and!; [done|simpl; lia|]. intros [|i] Hi; simpl; [by rewrite Z.add_0_r|].
  rewrite Hget by lia. f_equal. lia.
Qed.

(** What a guest may name: translation is on and all of the range lies in the
    guest's RAM, as unbounded integers. Then it stands for the VMM addresses
    from [copy_address] on. *)
Definition copy_allowed (s : vmm) (gpa off len : Z) : Prop :=
  v_translate s = true /\ v_ram_ok s <> 0 /\ in_window (v_ram s) (gpa + off) len.

#[global] Instance copy_allowed_dec s gpa off len : Decision (copy_allowed s gpa off len).
Proof. unfold copy_allowed. apply _. Defined.

Definition copy_address (s : vmm) (gpa off : Z) : Z := hva_base (v_ram s) + (gpa + off - gpa_base (v_ram s)).

(** The addresses of a range are all in the VMM's window onto guest RAM. *)
Definition confined (s : vmm) (a n : Z) : Prop :=
  forall x, a <= x < a + n -> hva_base (v_ram s) <= x < hva_base (v_ram s) + size (v_ram s).

(** [m'] is [m] with the bytes [bs] at [a]. *)
Definition stored (m : vmem) (a : Z) (bs : list Z) (m' : vmem) : Prop :=
  (forall i b, bs !! i = Some b -> m' !! (a + Z.of_nat i) = Some b) /\
  (forall x, ~ (a <= x < a + Z.of_nat (length bs)) -> m' !! x = m !! x).

Section copies.
Context (s : vmm) (m : vmem) (gpa off : Z).
Context (Hwin : window_mapped s m) (Hg : is_u64 gpa) (Ho : is_u64 off).

Lemma copy_confined len : 0 < len -> copy_allowed s gpa off len -> confined s (copy_address s gpa off) len.
Proof using. unfold copy_address. intros Hl (_ & _ & ? & ? & ? & ?) x Hx. lia. Qed.

(** The address that the copies compute, wrap-around included. *)
Lemma copy_start len :
  0 < len < 2 ^ 64 ->
  match gpa_add_off gpa off with Some start => virtio_gpa_to_hva s start len | None => NULL end
  = if bool_decide (copy_allowed s gpa off len) then copy_address s gpa off else NULL.
Proof using Hwin Hg Ho.
  destruct Hwin as (Hf & Hh & Hfit & _). intros Hl. assert (is_u64 len) as Hlen by (unfold is_u64; lia).
  unfold gpa_add_off, UINT64_MAX, copy_allowed. pose proof Hf as (? & ? & ?). unfold is_u64 in Hg, Ho.
  case_bool_decide as Hok.
  - destruct Hok as (Ht & Hr & Hw). pose proof Hw as (? & ? & ? & ?). case_cmp; [lia|].
    rewrite (u64_small (gpa + off)) by (unfold is_u64; lia). unfold virtio_gpa_to_hva, aos_gpa_to_hva_configured.
    rewrite Ht, (proj2 (Z.eqb_neq _ _) Hr), gpa_to_hva_in by (done || unfold is_u64; lia).
    unfold copy_address. apply u64_small. unfold is_u64. lia.
  - case_cmp; [done|]. rewrite (u64_small (gpa + off)) by (unfold is_u64; lia).
    unfold virtio_gpa_to_hva, aos_gpa_to_hva_configured. destruct (v_translate s); [|done].
    destruct (Z.eqb_spec (v_ram_ok s) 0); [done|].
    apply gpa_to_hva_out; [done|unfold is_u64; lia|done|]. intros Hw. by apply Hok.
Qed.

Lemma copy_to_exact bs :
  is_u64 (Z.of_nat (length bs)) ->
  let n := Z.of_nat (length bs) in
  let a := copy_address s gpa off in
  exists rc m', virtio_copy_to_gpa s m gpa off (Some bs) n = Some (rc, m') /\
    if bool_decide (n = 0 \/ copy_allowed s gpa off n)
    then rc = 0 /\ confined s a n /\ stored m a bs m' else rc = -1 /\ m' = m.
Proof using Hwin Hg Ho.
  intros Hl n a. unfold virtio_copy_to_gpa. destruct (Z.eqb_spec n 0) as [Hz|Hz].
  { exists 0, m. rewrite bool_decide_true by auto. unfold confined, stored.
    split_and!; [done..|lia| |done]. intros i b Hi%lookup_lt_Some. lia. }
  pose proof (copy_start n ltac:(unfold is_u64 in Hl; lia)) as Hs. case_bool_decide as Hok.
  - rewrite bool_decide_true by auto. fold a in Hs. pose proof (copy_confined n ltac:(lia) Hok) as Hin. fold a in Hin.
    destruct Hwin as (_ & Hh & _ & Hmap). destruct (gpa_add_off gpa off) as [st|]; [|specialize (Hin a); unfold NULL in *; lia].
    rewrite Hs, (proj2 (Z.eqb_neq _ _)) by (specialize (Hin a); unfold NULL; lia).
    destruct (mem_write_spec bs m a) as (m' & Hw & ?); [intros x Hx; by apply Hmap, Hin|]. rewrite Hw. by exists 0, m'.
  - rewrite bool_decide_false by tauto. exists (-1), m. split; [|done]. destruct (gpa_add_off gpa off); [|done]. by rewrite Hs.
Qed.

Lemma copy_from_exact len :
  is_u64 len ->
  let a := copy_address s gpa off in
  exists rc out, virtio_copy_from_gpa s m gpa off false len = Some (rc, out) /\
    if bool_decide (len = 0 \/ copy_allowed s gpa off len)
    then rc = 0 /\ confined s a len /\ Z.of_nat (length out) = len /\
         forall i, (i < length out)%nat -> out !! i = m !! (a + Z.of_nat i)
    else rc = -1 /\ out = [].
Proof using Hwin Hg Ho.
  intros Hl a. unfold virtio_copy_from_gpa. destruct (Z.eqb_spec len 0) as [->|Hz].
  { exists 0, []. rewrite bool_decide_true by auto. unfold confined. split_and!; [done..|lia|done|simpl; lia]. }
  unfold is_u64 in Hl. pose proof (copy_start len ltac:(lia)) as Hs. case_bool_decide as Hok.
  - rewrite bool_decide_true by auto. fold a in Hs. pose proof (copy_confined len ltac:(lia) Hok) as Hin. fold a in Hin.
    destruct Hwin as (_ & Hh & _ & Hmap). destruct (gpa_add_off gpa off) as [st|]; [|specialize (Hin a); unfold NULL in *; lia].
    rewrite Hs, (proj2 (Z.eqb_neq _ _)) by (specialize (Hin a); unfold NULL; lia).
    destruct (mem_read_total (Z.to_nat len) m a) as (bs & Hr & Hn & Hget); [intros x Hx; apply Hmap, Hin; lia|].
    rewrite Z2Nat.id in Hr by lia. rewrite Hr. exists 0, bs. split_and!; [done..|lia|by rewrite Hn].
  - rewrite bool_decide_false by tauto. exists (-1), []. split; [|done]. destruct (gpa_add_off gpa off); [|done]. by rewrite Hs.
Qed.
End copies.

(** Storing inside the window keeps it mapped. *)
Lemma window_mapped_stored s m m' a bs : window_mapped s m -> stored m a bs m' -> window_mapped s m'.
Proof.
  intros (? & ? & ? & Hmap) [Hin Hout]. split_and!; [done..|]. intros x Hx.
  destruct (decide (a <= x < a + Z.of_nat (length bs))) as [Hr|Hr]; [|rewrite Hout by done; by apply Hmap].
  destruct (lookup_lt_is_Some_2 bs (Z.to_nat (x - a))) as [b Hb]; [lia|].
  apply Hin in Hb. replace (a + Z.of_nat (Z.to_nat (x - a))) with x in Hb by lia. eauto.
Qed.

(** C34. Device emulation cannot be steered out of guest RAM, and serves
    every request inside it. Whatever guest-physical address, offset and
    length a guest supplies, neither copy faults. [virtio_copy_to_gpa]
    succeeds exactly when the range is empty or wholly in the guest's RAM;
    then the addresses it touches are in the VMM's window, they hold exactly
    the bytes, all others are as before, and [virtio_copy_from_gpa] reads the
    bytes back. [virtio_copy_from_gpa] succeeds, on any memory, under exactly
    the same condition; then it delivers the bytes of the window at that
    place, all of them. A refused copy reports -1, stores nothing and reads
    nothing, and so does one from or to NULL. *)
Theorem virtio_copy_confined s m gpa off bs len :
  window_mapped s m -> is_u64 gpa -> is_u64 off -> is_u64 (Z.of_nat (length bs)) -> is_u64 len ->
  let n := Z.of_nat (length bs) in
  let a := copy_address s gpa off in
  (exists rc m', virtio_copy_to_gpa s m gpa off (Some bs) n = Some (rc, m') /\
     if bool_decide (n = 0 \/ copy_allowed s gpa off n)
     then rc = 0 /\ confined s a n /\ stored m a bs m' /\
          virtio_copy_from_gpa s m' gpa off false n = Some (0, bs)
     else rc = -1 /\ m' = m) /\
  (exists rc out, virtio_copy_from_gpa s m gpa off false len = Some (rc, out) /\
     if bool_decide (len = 0 \/ copy_allowed s gpa off len)
     then rc = 0 /\ confined s a len /\ Z.of_nat (length out) = len /\
          forall i, (i < length out)%nat -> out !! i = m !! (a + Z.of_nat i)
     else rc = -1 /\ out = []) /\
  (len <> 0 -> virtio_copy_to_gpa s m gpa off None len = Some (-1, m) /\
               virtio_copy_from_gpa s m gpa off true len = Some (-1, [])).
Proof.
  intros Hwin Hg Ho Hn Hl n a. split_and!.
  - destruct (copy_to_exact s m gpa off Hwin Hg Ho bs Hn) as (rc & m' & Hto & Hpost). exists rc, m'. split; [done|].
    fold n a in Hpost. case_bool_decide as Hok; [|done]. destruct Hpost as (? & Hc & Hst). split_and!; [done..|].
    destruct (copy_from_exact s m' gpa off) with (len := n) as (rc' & out & Hf & Hres); [|done..|].
    { by apply (window_mapped_stored s m m' a bs). }
    rewrite bool_decide_true in Hres by done. destruct Hres as (-> & _ & Hlen & Hget). rewrite Hf. do 2 f_equal.
    apply list_eq_same_length with (length bs); [lia..|]. intros i x y Hi Hx Hy.
    rewrite Hget in Hx by lia. apply Hst in Hy. fold a in Hx. congruence.
  - by apply copy_from_exact.
  - intros Hz. unfold virtio_copy_to_gpa, virtio_copy_from_gpa. by rewrite (proj2 (Z.eqb_neq _ _) Hz).
Qed.

Definition vmm_example : vmm := mk_vmm (mk_guest_ram 0x40000000 16 4) 1 true 0.
Definition vmem_example : vmem :=
  list_to_map [(15, 7); (16, 0); (17, 0); (18, 0); (19, 0); (20, 7)].

Lemma vmm_example_mapped : window_mapped vmm_example vmem_example.
Proof.
  split_and!; [by_compute..|]. intros a Ha. simpl in Ha.
  assert (a = 16 \/ a = 17 \/ a = 18 \/ a = 19) as [->|[->|[->| ->]]] by lia;
    eexists; vm_compute; reflexivity.
Qed.

(** Two bytes at offset 1 fit in the four of the window, four do not. *)
Lemma virtio_copy_confined_witness :
  (exists m', virtio_copy_to_gpa vmm_example vmem_example 0x40000000 1 (Some [5; 6]) 2 = Some (0, m') /\
     stored vmem_example 17 [5; 6] m' /\
     virtio_copy_from_gpa vmm_example m' 0x40000000 1 false 2 = Some (0, [5; 6])) /\
  virtio_copy_from_gpa vmm_example vmem_example 0x40000000 1 false 4 = Some (-1, []).
Proof.
  destruct (virtio_copy_confined vmm_example vmem_example 0x40000000 1 [5; 6] 4)
    as ((rc & m' & Hto & Hres) & (rc' & out & Hfrom & Hres') & _); [apply vmm_example_mapped|by_compute..|].
  rewrite bool_decide_true in Hres by (right; by_compute). destruct Hres as (-> & _ & Hst & Hback).
  rewrite bool_decide_false in Hres' by (intros [|(_ & _ & _ & _ & _ & Hw)]; [lia|vm_compute in Hw; congruence]).
  destruct Hres' as [-> ->]. split; [|exact Hfrom]. exists m'. split_and!; [exact Hto|exact Hst|exact Hback].
Defined.

(** ** Virtqueue rings *)

Lemma ring_in_window s gpa len :
  ram_fits (v_ram s) -> hva_base (v_ram s) + size (v_ram s) < 2 ^ 64 ->
  is_u64 gpa -> is_u64 len -> virtio_gpa_to_hva s gpa len <> NULL ->
  hva_base (v_ram s) <= virtio_gpa_to_hva s gpa len /\
  virtio_gpa_to_hva s gpa len + len <= hva_base (v_ram s) + size (v_ram s) /\
  virtio_gpa_to_hva s gpa len - hva_base (v_ram s) = gpa - gpa_base (v_ram s).
Proof.
  intros Hf Hfit Hg Hl Hne.
  destruct (virtio_gpa_to_hva_inv s gpa len) as (_ & (? & ? & ? & ?) & ->); [done..|].
  destruct Hf as (? & ? & ?). rewrite u64_small by (unfold is_u64 in *; lia). lia.
Qed.

(** Guest rings are adopted whole or not at all: with addresses and a
    size chosen by the guest, [virtio_queue_map_guest_rings] either leaves
    the queue as it was and reports failure, or replaces the three ring
    addresses by VMM addresses such that all of the descriptor table, the
    available ring with its event word and the used ring lie inside the
    window onto guest RAM, at the offsets the guest named, with the queue
    size in 1..32768. *)
Theorem virtio_rings_in_window s v :
  ram_fits (v_ram s) -> hva_base (v_ram s) + size (v_ram s) < 2 ^ 64 ->
  is_u32 (vq_num v) -> is_u64 (vq_desc v) -> is_u64 (vq_avail v) -> is_u64 (vq_used v) ->
  virtio_queue_map_guest_rings s (Some v) = (false, Some v) \/
  exists v', virtio_queue_map_guest_rings s (Some v) = (true, Some v') /\
    vq_num v' = vq_num v /\ 0 < vq_num v <= 32768 /\
    let lo := hva_base (v_ram s) in
    let hi := hva_base (v_ram s) + size (v_ram s) in
    let shift := hva_base (v_ram s) - gpa_base (v_ram s) in
    (lo <= vq_desc v' /\ vq_desc v' + 16 * vq_num v <= hi /\ vq_desc v' = vq_desc v + shift) /\
    (lo <= vq_avail v' /\ vq_avail v' + 6 + 2 * vq_num v <= hi /\
     vq_avail v' = vq_avail v + shift) /\
    (lo <= vq_used v' /\ vq_used v' + 6 + 8 * vq_num v <= hi /\ vq_used v' = vq_used v + shift).
Proof.
  intros Hf Hfit Hn Hd Ha Hu. unfold virtio_queue_map_guest_rings.
  destruct ((vq_num v =? 0) || (32768 <? vq_num v)) eqn:En; [by left|].
  apply orb_false_iff in En as [?%Z.eqb_neq ?%Z.ltb_ge]. unfold is_u32 in Hn.
  case_cmp; [by left|]. case_cmp; [by left|].
  rewrite !orb_false_iff, !Z.eqb_neq in Heqb0. destruct Heqb0 as [[Nd Na] Nu].
  unfold desc_len, avail_len, used_len, SIZEOF_VIRTQ_DESC, SIZEOF_VIRTQ_USED_ELEM in *.
  right. eexists. split; [done|].
  pose proof (ring_in_window _ _ (vq_num v * 16) Hf Hfit Hd ltac:(unfold is_u64; lia) Nd).
  pose proof (ring_in_window _ _ (2 * (3 + vq_num v)) Hf Hfit Ha ltac:(unfold is_u64; lia) Na).
  pose proof (ring_in_window _ _ (2 * 3 + 8 * vq_num v) Hf Hfit Hu ltac:(unfold is_u64; lia) Nu).
  simpl. lia.
Qed.

Definition virtq_example : virtq := mk_virtq 2 0x40000010 0x40000040 0x40000080.
Definition vmm_ring_example : vmm := mk_vmm (mk_guest_ram 0x40000000 0x80000000 4096) 1 true 0.

Lemma virtio_rings_in_window_witness :
  virtio_queue_map_guest_rings vmm_ring_example (Some virtq_example)
    = (false, Some virtq_example) \/
  exists v', virtio_queue_map_guest_rings vmm_ring_example (Some virtq_example)
    = (true, Some v') /\ vq_num v' = 2 /\ 0 < 2 <= 32768 /\
    let shift := 0x80000000 - 0x40000000 in
    (0x80000000 <= vq_desc v' /\ vq_desc v' + 16 * 2 <= 0x80000000 + 4096 /\
     vq_desc v' = 0x40000010 + shift) /\
    (0x80000000 <= vq_avail v' /\ vq_avail v' + 6 + 2 * 2 <= 0x80000000 + 4096 /\
     vq_avail v' = 0x40000040 + shift) /\
    (0x80000000 <= vq_used v' /\ vq_used v' + 6 + 8 * 2 <= 0x80000000 + 4096 /\
     vq_used v' = 0x40000080 + shift).
Proof. apply (virtio_rings_in_window vmm_ring_example virtq_example); by_compute. Defined.

(** ** Invocations keep the invariant *)

(** A private invocation that neither revokes nor allocates a table. *)
Definition quiet_call (c : kcall) : bool :=
  private_call c &&
  match c with
  | CNode_Revoke _ _ _ => false
  | Untyped_Retype _ seL4_PageTableObject _ _ _ _ _ _ => false
  | _ => true
  end.

Section preservation.
Context {K : Type} `{Kernel K}.
Implicit Types (ws : kworld K * vmm) (w : kworld K).

(** [ws'] follows [ws] by invocations after which every frame that was backed
    still is, with the translation window untouched. *)
Definition quiet (ws ws' : kworld K * vmm) : Prop :=
  guest_calls_ok ws' /\
  (forall j c, asked (since (unbacks j) (kw_log ws.1)) c ->
     asked (since (unbacks j) (kw_log ws'.1)) c) /\
  v_ram ws'.2 = v_ram ws.2 /\ v_ram_ok ws'.2 = v_ram_ok ws.2.

Definition fresh_asked ws c : Prop := forall j, asked (since (unbacks j) (kw_log ws.1)) c.

Lemma quiet_refl ws : guest_calls_ok ws -> quiet ws ws.
Proof. by intros. Qed.

Lemma quiet_trans ws1 ws2 ws3 : quiet ws1 ws2 -> quiet ws2 ws3 -> quiet ws1 ws3.
Proof.
  intros (_ & Ha & Hr & Ho) (Hc & Ha' & Hr' & Ho'). split_and!; [done| |congruence..].
  intros j c Hj. by apply Ha', Ha.
Qed.

Lemma fresh_asked_quiet ws ws' c : quiet ws ws' -> fresh_asked ws c -> fresh_asked ws' c.
Proof. intros (_ & Ha & _) Hf j. apply Ha, Hf. Qed.

Lemma guest_calls_ok_cons w s c e (k : K) :
  guest_calls_ok (w, s) -> private_call c = true ->
  paging_reset (c, e) = false -> table_slot (c, e) = None ->
  guest_calls_ok (mk_kworld k ((c, e) :: kw_log w), s).
Proof.
  intros (Hp & Hn & Ht) Hc Hr Hs. simpl in *. split_and!; simpl; [by constructor|lia..|].
  unfold table_slots in *. simpl. rewrite Hr. simpl. by rewrite Hs.
Qed.

Lemma asked_since_cons j c e log c' :
  unbacks j (c, e) = false -> asked (since (unbacks j) log) c' ->
  asked (since (unbacks j) ((c, e) :: log)) c'.
Proof. intros Hu Ha. simpl. rewrite Hu. by apply list_elem_of_further. Qed.

Lemma fresh_asked_cons (k : K) c log s :
  (forall j, unbacks j (c, seL4_NoError) = false) ->
  fresh_asked (mk_kworld k ((c, seL4_NoError) :: log), s) c.
Proof. intros Hu j. simpl. rewrite Hu. apply list_elem_of_here. Qed.

Lemma quiet_call_unbacks j c e : quiet_call c = true -> unbacks j (c, e) = false.
Proof. by intros [_ ?]%andb_true_iff; destruct c. Qed.

Lemma wp_quiet_call c (Q : seL4_Error -> kworld K * vmm -> Prop) ws :
  guest_calls_ok ws -> quiet_call c = true ->
  (forall e ws', quiet ws ws' -> (e = seL4_NoError -> fresh_asked ws' c) ->
     v_next_table ws'.2 = v_next_table ws.2 -> Q e ws') ->
  wp (ksys c) Q ws.
Proof.
  destruct ws as [w s]. intros Hok Hc HQ. apply wp_ksys. intros e k.
  pose proof (fun j => quiet_call_unbacks j c e Hc) as Hu.
  apply HQ; [|intros ->; by apply fresh_asked_cons|done]. split_and!; [|simpl..].
  - apply andb_true_iff in Hc as [Hc Hm]. apply guest_calls_ok_cons; [done..| |];
      destruct c as [? []| | | | | | | | | | | | | | | |]; done.
  - intros j c' Hj. apply (asked_since_cons j c e); [apply Hu|done].
  - done.
  - done.
Qed.

(** Allocating one more page table. *)
Lemma wp_table_call (Q : seL4_Error -> kworld K * vmm -> Prop) ws :
  guest_calls_ok ws -> v_next_table ws.2 < AOS_GUEST_PAGING_TABLE_COUNT ->
  (forall e ws', quiet ws ws' -> e <> seL4_NoError -> Q e ws') ->
  (forall w', quiet ws (w', set_next_table (u32 (v_next_table ws.2 + 1)) ws.2) ->
     Q seL4_NoError (w', ws.2)) ->
  wp (ksys (Untyped_Retype AOS_GUEST_PAGING_POOL_CAP seL4_PageTableObject 0
       AOS_GUEST_RAM_SELF_CNODE 0 0 (AOS_GUEST_PAGING_TABLE_BASE + v_next_table ws.2) 1)) Q ws.
Proof.
  destruct ws as [w s]. simpl. intros Hok Hlt Hbad Hgood. apply wp_ksys. intros e k.
  assert (private_call (Untyped_Retype AOS_GUEST_PAGING_POOL_CAP seL4_PageTableObject 0
       AOS_GUEST_RAM_SELF_CNODE 0 0 (AOS_GUEST_PAGING_TABLE_BASE + v_next_table s) 1) = true) as Hp.
  { destruct Hok as (_ & [? ?] & _). simpl in *.
    unfold AOS_GUEST_PAGING_TABLE_BASE, AOS_GUEST_PAGING_TABLE_COUNT in *. simpl.
    apply andb_true_iff. split; lia. }
  destruct (decide (e = seL4_NoError)) as [->|Hne].
  - apply Hgood. destruct Hok as (Hpr & Hn & Ht). simpl in *.
    refine (conj _ (conj _ (conj eq_refl eq_refl)));
      [|intros j c' Hj; by apply asked_since_cons].
    unfold AOS_GUEST_PAGING_TABLE_COUNT in *.
    rewrite (u32_small (v_next_table s + 1)) by (unfold is_u32; lia).
    split_and!; simpl; [by constructor|unfold AOS_GUEST_PAGING_TABLE_COUNT; lia..|].
    rewrite seqZ_app by lia. rewrite reverse_app, <-Ht. done.
  - apply Hbad; [|done]. refine (conj _ (conj _ (conj eq_refl eq_refl)));
      [|intros j c' Hj; by apply asked_since_cons].
    apply guest_calls_ok_cons; [done..| |]; by destruct e.
Qed.

Lemma err_ne_false e e' : err_ne e e' = false -> e = e'.
Proof. unfold err_ne. by intros ?%negb_false_iff%bool_decide_eq_true. Qed.

(** [aos_vmm_guest_page_map]: at most four attempts, and success only when the
    kernel has accepted the mapping. *)
Lemma wp_page_map frame addr ws :
  guest_calls_ok ws ->
  ram_slot AOS_GUEST_RAM_FRAME_BASE frame || (frame =? AOS_GUEST_IPC_FRAME_CAP) = true ->
  wp (aos_vmm_guest_page_map frame addr) (fun r ws' => quiet ws ws' /\
    (r = true -> fresh_asked ws' (Page_Map frame AOS_GUEST_RAM_GUEST_VSPACE addr))) ws.
Proof.
  intros Hok Hf. unfold aos_vmm_guest_page_map. apply wp_bind.
  apply (wp_for (fun _ a ws' => quiet ws ws' /\ a = None)).
  { split; [by apply quiet_refl|done]. }
  - intros i a ws' Hi [Hq ->]. apply wp_bind. apply wp_quiet_call; [apply Hq| |].
    { unfold quiet_call. simpl. by rewrite Hf. }
    intros e ws1 Hq1 He _. assert (quiet ws ws1) as Hq2 by (eapply quiet_trans; done).
    kstep; [apply wp_ret; split; [done|]; intros _; apply He; by eapply bool_decide_eq_true_1|].
    apply wp_bind, wp_kget. kstep; [by apply wp_ret; split|].
    apply orb_false_iff in H1 as [_ Hlt]. apply Z.leb_gt in Hlt.
    apply wp_bind. apply wp_table_call; [apply Hq2|done| |].
    + intros e1 ws2 Hq3 Hne. kstep; [|by apply err_ne_false in H1].
      apply wp_ret. split; [by eapply quiet_trans|done].
    + intros w3 Hq3. simpl. apply wp_bind, wp_kmodify. simpl. apply wp_bind.
      assert (quiet ws (w3, set_next_table (u32 (v_next_table ws1.2 + 1)) ws1.2)) as Hq4
        by (eapply quiet_trans; done).
      apply wp_quiet_call; [apply Hq4| |].
      { destruct Hq2 as ((_ & ? & _) & _). unfold quiet_call. simpl.
        unfold AOS_GUEST_PAGING_TABLE_COUNT, AOS_GUEST_PAGING_TABLE_BASE in *.
        rewrite andb_true_r. apply andb_true_iff. lia. }
      intros e1 ws4 Hq5 _ _. assert (quiet ws ws4) by (eapply quiet_trans; done).
      kstep; apply wp_ret; by split.
  - intros a ws' [Hq ->]. apply wp_ret. by split.
Qed.

Lemma quiet_frame_backed ws ws' j ga ha :
  quiet ws ws' -> frame_backed (kw_log ws.1) j ga ha -> frame_backed (kw_log ws'.1) j ga ha.
Proof. intros (_ & Ha & _) (? & ? & ? & ?). split_and!; by apply Ha. Qed.

Lemma quiet_window_backed ws ws' gpa hva n :
  quiet ws ws' -> window_backed (kw_log ws.1) gpa hva n ->
  window_backed (kw_log ws'.1) gpa hva n.
Proof. intros Hq Hw j Hj. eapply quiet_frame_backed; [done|by apply Hw]. Qed.

Lemma quiet_inv ws ws' : guest_inv ws -> quiet ws ws' -> guest_inv ws'.
Proof.
  intros [_ Hram] Hq. split; [apply Hq|]. unfold guest_ram_ok.
  pose proof Hq as (_ & _ & -> & ->). intros Hok.
  destruct (Hram Hok) as (Hw & Hc & Hn & Hb). refine (conj Hw (conj Hc (conj Hn _))).
  by eapply quiet_window_backed.
Qed.

Lemma inv_off ws : guest_calls_ok ws -> v_ram_ok ws.2 = 0 -> guest_inv ws.
Proof. intros Hc Ho. split; [done|]. intros ?. by exfalso. Qed.

(** Programs all of whose invocations are quiet. *)
Definition quiet_prog {A} (m : kprog K vmm A) : Prop :=
  forall ws, guest_calls_ok ws -> wp m (fun _ => quiet ws) ws.

Lemma quiet_prog_and_then m1 m2 :
  quiet_prog m1 -> quiet_prog m2 -> quiet_prog (and_then m1 m2).
Proof.
  intros H1 H2 ws Hok. apply wp_bind. eapply wp_mono; [by apply H1|].
  intros b ws1 Hq. kstep; [by apply wp_ret|].
  eapply wp_mono; [apply H2, Hq|]. intros b2 ws2 Hq2. exact (quiet_trans _ _ _ Hq Hq2).
Qed.

Lemma quiet_prog_succeeds c : quiet_call c = true -> quiet_prog (succeeds c).
Proof.
  intros Hc ws Hok. apply wp_bind, wp_quiet_call; [done..|].
  intros e ws' Hq _ _. by apply wp_ret.
Qed.

Lemma quiet_prog_page_map frame addr :
  ram_slot AOS_GUEST_RAM_FRAME_BASE frame || (frame =? AOS_GUEST_IPC_FRAME_CAP) = true ->
  quiet_prog (aos_vmm_guest_page_map frame addr).
Proof.
  intros Hf ws Hok. eapply wp_mono; [by apply wp_page_map|]. by intros ? ? [? _].
Qed.

Lemma quiet_execution_rebuild : quiet_prog aos_vmm_guest_execution_rebuild.
Proof.
  unfold aos_vmm_guest_execution_rebuild.
  repeat apply quiet_prog_and_then;
    first [apply quiet_prog_page_map; reflexivity | apply quiet_prog_succeeds; reflexivity].
Qed.

Lemma quiet_paging_rebuild : quiet_prog aos_vmm_guest_paging_rebuild.
Proof.
  intros ws Hok. apply wp_bind, wp_quiet_call; [done..|]. intros e ws1 Hq _ _.
  kstep; [by apply wp_ret|]. apply wp_bind, wp_quiet_call; [apply Hq|done|].
  intros e1 ws2 Hq2 _ _. apply wp_ret. exact (quiet_trans _ _ _ Hq Hq2).
Qed.

(** Sizes that the frame pools can back. *)
Lemma ram_frame_count_spec sz :
  is_u64 sz -> ram_frame_count sz <> 0 ->
  ram_frame_count sz * frame_size = sz /\
  0 < ram_frame_count sz <= AOS_GUEST_RAM_MAX_FRAMES.
Proof.
  unfold ram_frame_count, is_u64. intros Hs. case_cmp; [done|]. intros Hne.
  rewrite !orb_false_iff, negb_false_iff in *. destruct Heqb as [[_ Hl%Z.eqb_eq] Hm%Z.ltb_ge].
  change (frame_size - 1) with (Z.ones 21) in Hl. rewrite Z.land_ones in Hl by lia.
  change frame_size with (2 ^ 21) in *. mod_lia.
Qed.

Lemma aligned_mod x : Z.land x (frame_size - 1) = 0 -> x mod frame_size = 0.
Proof. change (frame_size - 1) with (Z.ones 21). by rewrite Z.land_ones by lia. Qed.

(** Revoking frame pools only happens while translation is off. *)
Lemma wp_ram_release sz ws :
  guest_inv ws -> is_u64 sz -> wp (aos_vmm_guest_ram_release sz) (fun r ws' => guest_inv ws' /\
    (ram_frame_count sz <> 0 -> v_ram_ok ws'.2 = 0)) ws.
Proof.
  intros Hinv Hs. unfold aos_vmm_guest_ram_release.
  destruct (Z.eqb_spec (ram_frame_count sz) 0) as [|Hne]; [by apply wp_ret|].
  destruct (ram_frame_count_spec sz Hs Hne) as [_ Hcount].
  apply wp_bind, wp_kmodify, wp_bind.
  eapply wp_mono with (P := fun _ ws' => guest_calls_ok ws' /\ v_ram_ok ws'.2 = 0).
  2:{ intros r ws' [? ?]. apply wp_ret. split; [by apply inv_off|done]. }
  apply (wp_for (fun _ _ ws' => guest_calls_ok ws' /\ v_ram_ok ws'.2 = 0)); [|clear Hinv ws|done].
  { split; [apply Hinv|done]. }
  intros i a [w s] Hi [Hok Ho]. apply wp_bind, wp_ksys. intros e k.
  assert (guest_calls_ok (mk_kworld k ((CNode_Revoke AOS_GUEST_RAM_SELF_CNODE
    (AOS_GUEST_RAM_POOL_BASE + i) AOS_GUEST_RAM_CNODE_BITS, e) :: kw_log w), s)).
  { unfold AOS_GUEST_RAM_MAX_FRAMES in *.
    apply guest_calls_ok_cons; [done| | |done]; simpl;
      unfold ram_slot, AOS_GUEST_RAM_POOL_BASE, AOS_GUEST_PAGING_POOL_CAP,
        AOS_GUEST_RAM_MAX_FRAMES.
    - rewrite !orb_true_iff, andb_true_iff. lia.
    - destruct e; lia. }
  kstep; by apply wp_ret.
Qed.

Lemma rebuild_frame_calls hva i :
  0 <= i < AOS_GUEST_RAM_MAX_FRAMES ->
  quiet_call (Untyped_Retype (AOS_GUEST_RAM_POOL_BASE + i) seL4_LargePageObject 0
    AOS_GUEST_RAM_SELF_CNODE 0 0 (AOS_GUEST_RAM_FRAME_BASE + i) 1) = true /\
  quiet_call (CNode_Copy AOS_GUEST_RAM_SELF_CNODE (AOS_GUEST_RAM_ALIAS_BASE + i)
    AOS_GUEST_RAM_CNODE_BITS AOS_GUEST_RAM_SELF_CNODE (AOS_GUEST_RAM_FRAME_BASE + i)
    AOS_GUEST_RAM_CNODE_BITS) = true /\
  ram_slot AOS_GUEST_RAM_FRAME_BASE (AOS_GUEST_RAM_FRAME_BASE + i)
    || (AOS_GUEST_RAM_FRAME_BASE + i =? AOS_GUEST_IPC_FRAME_CAP) = true /\
  quiet_call (Page_Map (AOS_GUEST_RAM_ALIAS_BASE + i) AOS_GUEST_RAM_VMM_VSPACE
    (u64 (hva + i * frame_size))) = true.
Proof.
  unfold quiet_call. simpl. unfold ram_slot, AOS_GUEST_RAM_POOL_BASE, AOS_GUEST_RAM_FRAME_BASE,
    AOS_GUEST_RAM_ALIAS_BASE, AOS_GUEST_RAM_MAX_FRAMES, AOS_GUEST_IPC_FRAME_CAP.
  rewrite !andb_true_iff, !orb_true_iff, !andb_true_iff. lia.
Qed.

Lemma wp_rebuild_frame gpa hva i ws :
  guest_calls_ok ws -> 0 <= i < AOS_GUEST_RAM_MAX_FRAMES ->
  is_u64 (gpa + i * frame_size) -> is_u64 (hva + i * frame_size) ->
  wp (rebuild_frame gpa hva i) (fun r ws' => quiet ws ws' /\
    match r with
    | (Continue, a) => a = None /\
        frame_backed (kw_log ws'.1) i (gpa + i * frame_size) (hva + i * frame_size)
    | (Break, a) => a = Some false
    end) ws.
Proof.
  intros Hok Hi Hg Hh. destruct (rebuild_frame_calls hva i Hi) as (C1 & C2 & C3 & C4).
  unfold rebuild_frame. apply wp_bind, wp_quiet_call; [done..|]. intros e1 ws1 Q1 A1 _.
  kstep; [by apply wp_ret|]. specialize (A1 (err_ne_false _ _ H0)).
  apply wp_bind, wp_quiet_call; [apply Q1|done|]. intros e2 ws2 Q2 A2 _.
  pose proof (quiet_trans _ _ _ Q1 Q2) as Q12.
  kstep; [by apply wp_ret|]. specialize (A2 (err_ne_false _ _ H1)).
  apply wp_bind. eapply wp_mono; [apply wp_page_map; [apply Q2|done]|].
  intros r ws3 [Q3 A3]. pose proof (quiet_trans _ _ _ Q12 Q3) as Q13.
  kstep; [by apply wp_ret|]. specialize (A3 (proj1 (negb_false_iff _) H2)).
  apply wp_bind, wp_quiet_call; [apply Q3|done|]. intros e4 ws4 Q4 A4 _.
  pose proof (quiet_trans _ _ _ Q13 Q4) as Q14.
  kstep; [by apply wp_ret|]. specialize (A4 (err_ne_false _ _ H3)).
  apply wp_ret. split; [done|]. split; [done|].
  pose proof (quiet_trans _ _ _ Q3 Q4) as Q34. pose proof (quiet_trans _ _ _ Q2 Q34) as Q24.
  rewrite !u64_small in * by done.
  split_and!; [by eapply fresh_asked_quiet, A1|by eapply fresh_asked_quiet, A2|
    by eapply fresh_asked_quiet, A3|apply A4].
Qed.

Lemma wp_ram_rebuild gpa hva sz ws :
  guest_inv ws -> is_u64 gpa -> is_u64 hva -> is_u64 sz -> v_ram_ok ws.2 = 0 ->
  wp (aos_vmm_guest_ram_rebuild gpa hva sz) (fun _ => guest_inv) ws.
Proof.
  intros Hinv Hg Hh Hs Hoff. unfold aos_vmm_guest_ram_rebuild.
  apply wp_if; intros Hguard; [by apply wp_ret|].
  rewrite !orb_false_iff, !negb_false_iff, !Z.eqb_eq, Z.eqb_neq, !Z.ltb_ge in Hguard.
  destruct Hguard as [[[[Hne Hga%aligned_mod] Hha%aligned_mod] Hgs] Hhs].
  destruct (ram_frame_count_spec sz Hs Hne) as [Hsz Hcount].
  unfold UINT64_MAX, is_u64 in *.
  apply wp_bind. apply (wp_for (fun i a ws' => quiet ws ws' /\ a = None /\
    window_backed (kw_log ws'.1) gpa hva i)).
  - split; [apply quiet_refl, Hinv|]. split; [done|]. intros j ?. lia.
  - intros i a ws' Hi (Hq & -> & Hb). eapply wp_mono.
    { apply wp_rebuild_frame; [apply Hq|lia|unfold is_u64; nia..]. }
    intros [c r] ws1 [Hq1 Hr]. pose proof (quiet_trans _ _ _ Hq Hq1) as Hq2.
    destruct c; simpl.
    + destruct Hr as [-> Hi']. split; [done|]. split; [done|]. intros j Hj.
      destruct (decide (j = i)) as [->|]; [done|].
      apply (quiet_window_backed _ _ _ _ _ Hq1 Hb). lia.
    + subst r. apply wp_ret. by eapply quiet_inv.
  - intros a ws' (Hq & -> & Hb). apply wp_bind, wp_kmodify, wp_ret.
    split; [apply Hq|]. intros _. simpl. rewrite Z2Nat.id in Hb by lia.
    refine (conj _ (conj Hsz (conj Hcount Hb))). unfold window_ok, is_u64. simpl.
    split_and!; lia.
Qed.

Lemma wp_paging_release ws :
  guest_calls_ok ws -> v_ram_ok ws.2 = 0 ->
  wp aos_vmm_guest_paging_release (fun _ => guest_inv) ws.
Proof.
  destruct ws as [w s]. intros Hok Hoff. apply wp_bind, wp_ksys. intros e k.
  destruct Hok as (Hp & Hn & Ht). kstep.
  - apply wp_ret, inv_off; [|done]. apply guest_calls_ok_cons; [done..| |done].
    by destruct e.
  - apply err_ne_false in H0 as ->. apply wp_bind, wp_kmodify, wp_ret, inv_off; [|done].
    split_and!; simpl; [by constructor|done..].
Qed.

Lemma wp_execution_release ws :
  guest_inv ws -> wp aos_vmm_guest_execution_release (fun _ => guest_inv) ws.
Proof.
  destruct ws as [w s]. intros [Hok Hram]. apply wp_bind, wp_ksys. intros e k. apply wp_ret.
  split; [apply guest_calls_ok_cons; [done..|by destruct e|done]|].
  intros Ho. destruct (Hram Ho) as (Hw & Hc & Hn & Hb). refine (conj Hw (conj Hc (conj Hn _))).
  intros j Hj. destruct (Hb j Hj) as (? & ? & ? & ?).
  split_and!; (apply asked_since_cons; [|done]); simpl in *;
    unfold unbacks, AOS_GUEST_RAM_POOL_BASE, AOS_GUEST_EXECUTION_POOL_CAP,
      AOS_GUEST_PAGING_POOL_CAP; cbn [fst]; apply orb_false_iff;
      (split; [apply Z.eqb_neq; lia|done]).
Qed.

Lemma quiet_prog_inv {A} (m : kprog K vmm A) ws :
  quiet_prog m -> guest_inv ws -> wp m (fun _ => guest_inv) ws.
Proof.
  intros Hm Hi. eapply wp_mono; [apply Hm, Hi|]. intros a ws' Hq. by eapply quiet_inv.
Qed.

Lemma guest_step_inv ws ws' : guest_step ws ws' -> guest_inv ws -> guest_inv ws'.
Proof.
  intros Hst Hi. destruct Hst as [? ? ? ? ? Hr|? ? ? ? ? ? ? ? ? ? Hr|? ? ? ? Hr|? ? ? Hr|? ? ? Hr|? ? ? Hr];
    (eapply (wp_result _ (fun _ => guest_inv)); [|exact Hr]).
  - eapply wp_mono; [by apply wp_ram_release|]. by intros ? ? [? _].
  - by apply wp_ram_rebuild.
  - apply wp_paging_release; [apply Hi|done].
  - by apply quiet_prog_inv; [apply quiet_paging_rebuild|].
  - by apply wp_execution_release.
  - by apply quiet_prog_inv; [apply quiet_execution_rebuild|].
Qed.

Lemma guest_reachable_inv ws ws' : guest_start ws -> rtc guest_step ws ws' -> guest_inv ws'.
Proof.
  intros (Hl & Ho & Hn) Hr. assert (guest_inv ws) as Hi.
  { apply inv_off; [|done]. unfold guest_calls_ok. rewrite Hl, Hn. by split_and!. }
  clear Hl Ho Hn. induction Hr as [|ws1 ws2 ws3 Hs _ IH]; [done|].
  apply IH. by eapply guest_step_inv.
Qed.
End preservation.

(** A translated address lies in a frame that is backed at both ends. *)
Lemma window_page base n x :
  base mod frame_size = 0 -> base <= x < base + n * frame_size -> exists j,
    0 <= j < n /\ page_of x = base + j * frame_size /\ x mod frame_size = x - base - j * frame_size.
Proof.
  intros Hb Hx. assert (0 < frame_size) as Hf by done. unfold page_of.
  exists ((x - base) / frame_size).
  pose proof (Z.div_mod (x - base) frame_size).
  assert ((x - base) mod frame_size = x mod frame_size) as Hm.
  { rewrite Zminus_mod, Hb, Z.sub_0_r. apply Zmod_mod. }
  split; [|rewrite <-Hm; lia]. split; [apply Z.div_pos; lia|].
  apply Z.div_lt_upper_bound; lia.
Qed.

(** A kernel for the examples: it counts the page tables mapped, refuses a
    guest mapping until there are two, and grants everything else. *)
#[local] Instance kernel_two_tables : Kernel Z :=
  { kinvoke := fun c k =>
      match c with
      | PageTable_Map _ _ _ => (seL4_NoError, k + 1)
      | Page_Map _ vspace _ =>
          if (vspace =? AOS_GUEST_RAM_GUEST_VSPACE) && (k <? 2)
          then (seL4_FailedLookup, k) else (seL4_NoError, k)
      | _ => (seL4_NoError, k)
      end;
    kbits := fun _ => 12 }.

Definition guest_example : kworld Z * vmm :=
  (mk_kworld 0 [], mk_vmm (mk_guest_ram 0 0 0) 0 false 0).

(** The example guest with one 2 MiB frame at 0x40000000, seen by the VMM at
    0x80000000. *)
Definition guest_example_built : kworld Z * vmm :=
  match aos_vmm_guest_ram_rebuild 0x40000000 0x80000000 0x200000 guest_example with
  | Some (_, ws) => ws
  | None => guest_example
  end.

Lemma guest_example_reachable : rtc guest_step guest_example guest_example_built.
Proof.
  apply rtc_once. apply (step_ram_rebuild 0x40000000 0x80000000 0x200000 true);
    [by_compute..|vm_compute; reflexivity].
Qed.

(** Translation never outlives its memory. In every state that the
    release and rebuild operations can reach, with any kernel answers and any
    failures on the way, an address range that translates to [p] is backed
    byte by byte: byte [k] lies in a frame that was retyped from the VMM's
    own pool, mapped for the guest at its guest-physical page and mapped for
    the VMM, through the alias of that same frame, at the page of [p + k]
    with the same offset, and that frame's pool and the paging pool have not
    been revoked since. *)
Theorem guest_translation_backed {K} `{Kernel K} (ws0 ws : kworld K * vmm) gpa len :
  guest_start ws0 -> rtc guest_step ws0 ws -> is_u64 gpa -> is_u64 len ->
  let p := virtio_gpa_to_hva ws.2 gpa len in
  p <> NULL ->
  forall k, 0 <= k < len -> exists j,
    0 <= j < AOS_GUEST_RAM_MAX_FRAMES /\
    frame_backed (kw_log ws.1) j (page_of (gpa + k)) (page_of (p + k)) /\
    (gpa + k) mod frame_size = (p + k) mod frame_size.
Proof.
  intros Hst Hr Hg Hl p Hp k Hk.
  destruct (guest_reachable_inv _ _ Hst Hr) as [_ Hram]. subst p.
  destruct (decide (v_ram_ok ws.2 = 0)) as [Ho|Ho]; [by rewrite virtio_gpa_to_hva_off in Hp|].
  destruct (Hram Ho) as ((Hgb & Hhb & Hs & Hga & Hha & Hgs & Hhs) & Hc & Hn & Hb).
  destruct (virtio_gpa_to_hva_inv ws.2 gpa len) as (_ & (_ & _ & Hlo & Hhi) & ->); [done..|].
  unfold is_u64 in *. rewrite u64_small by (unfold is_u64; lia).
  destruct (window_page (gpa_base (v_ram ws.2)) (ram_frame_count (size (v_ram ws.2))) (gpa + k))
    as (j & Hj & Hpg & Hm); [done|lia|].
  destruct (window_page (hva_base (v_ram ws.2)) (ram_frame_count (size (v_ram ws.2)))
    (hva_base (v_ram ws.2) + (gpa - gpa_base (v_ram ws.2)) + k)) as (j' & Hj' & Hpg' & Hm');
    [done|lia|].
  assert (j' = j) as ->.
  { pose proof (Z.mod_pos_bound (gpa + k) frame_size eq_refl).
    pose proof (Z.mod_pos_bound (hva_base (v_ram ws.2) + (gpa - gpa_base (v_ram ws.2)) + k)
      frame_size eq_refl). nia. }
  exists j. rewrite Hpg, Hpg', Hm, Hm'. split; [lia|]. split; [by apply Hb|lia].
Qed.

Lemma guest_translation_backed_witness : exists j,
  0 <= j < 1024 /\
  frame_backed (kw_log guest_example_built.1) j (page_of (0x40000010 + 3)) (page_of (0x80000010 + 3))
  /\ (0x40000010 + 3) mod frame_size = (0x80000010 + 3) mod frame_size.
Proof.
  apply (guest_translation_backed guest_example guest_example_built 0x40000010 8);
    [by split_and!|apply guest_example_reachable|by_compute..].
Defined.

(** C33. Authority stays private and page-table slots are never reused: along
    every run of the operations, with any kernel answers, every invocation
    names only the VMM's own pools, frames, tables and execution objects; at
    most 254 tables are allocated; and the tables retyped since the paging
    pool was last revoked occupy distinct consecutive slots, so that none is
    overwritten. *)
Theorem guest_calls_private {K} `{Kernel K} (ws0 ws : kworld K * vmm) :
  guest_start ws0 -> rtc guest_step ws0 ws ->
  Forall (fun e => private_call e.1 = true) (kw_log ws.1) /\
  (length (table_slots (kw_log ws.1)) <= 254)%nat /\
  NoDup (table_slots (kw_log ws.1)) /\
  forall t, t ∈ table_slots (kw_log ws.1) <->
    AOS_GUEST_PAGING_TABLE_BASE <= t < AOS_GUEST_PAGING_TABLE_BASE + v_next_table ws.2.
Proof.
  intros Hst Hr. destruct (guest_reachable_inv _ _ Hst Hr) as [(Hp & Hn & Ht) _].
  unfold AOS_GUEST_PAGING_TABLE_COUNT in Hn. rewrite Ht. split_and!; [done|..].
  - rewrite length_reverse, length_seqZ. lia.
  - rewrite reverse_Permutation. apply NoDup_seqZ.
  - intros t. rewrite elem_of_reverse, elem_of_seqZ. done.
Qed.

Lemma guest_calls_private_witness :
  Forall (fun e => private_call e.1 = true) (kw_log guest_example_built.1) /\
  (length (table_slots (kw_log guest_example_built.1)) <= 254)%nat /\
  NoDup (table_slots (kw_log guest_example_built.1)) /\
  forall t, t ∈ table_slots (kw_log guest_example_built.1) <->
    AOS_GUEST_PAGING_TABLE_BASE <= t
      < AOS_GUEST_PAGING_TABLE_BASE + v_next_table guest_example_built.2.
Proof.
  apply (guest_calls_private guest_example); [by split_and!|apply guest_example_reachable].
Defined.
