(* ===== verification/UtAlloc.v ===== *)
(** * The root task's untyped and slot allocator

    Models kernel/agentos-root-task/src/ut_alloc.c: the tables of ordinary and
    device untyped capabilities built from BootInfo, the cursor over the free
    slots of the root CNode, and every allocation routine, over the kernel
    parameter of Kernel.v. What seL4 documents of [seL4_Untyped_Retype] (the
    watermark of an untyped capability) is the class [UntypedKernel], used
    only by the theorems about physical placement. *)

From S2P Require Import Prelude Kernel.
From stdpp Require Import sorting options.

#[local] Open Scope Z_scope.

(** ** Data *)

Record ut_entry := mk_ut_entry {
  ue_cap : Z; ue_paddr : Z; ue_pages_used : Z; ue_size_bits : Z }.

(** The static variables. [g_ut] and [g_dev_ut] hold the entries in use; the
    counts [g_ut_count] and [g_dev_ut_count] are their lengths. *)
Record ut_state := mk_ut_state {
  g_ut : list ut_entry;
  g_ut_next : Z;
  g_dev_ut : list ut_entry;
  g_slot_base : Z;
  g_slot_cur : Z;
  g_slot_end : Z }.

Definition g_ut_count (s : ut_state) : Z := Z.of_nat (length (g_ut s)).
Definition g_dev_ut_count (s : ut_state) : Z := Z.of_nat (length (g_dev_ut s)).

Definition set_ut (l : list ut_entry) (s : ut_state) : ut_state :=
  mk_ut_state l (g_ut_next s) (g_dev_ut s) (g_slot_base s) (g_slot_cur s) (g_slot_end s).
Definition set_ut_next (n : Z) (s : ut_state) : ut_state :=
  mk_ut_state (g_ut s) n (g_dev_ut s) (g_slot_base s) (g_slot_cur s) (g_slot_end s).
Definition set_dev_ut (l : list ut_entry) (s : ut_state) : ut_state :=
  mk_ut_state (g_ut s) (g_ut_next s) l (g_slot_base s) (g_slot_cur s) (g_slot_end s).
Definition set_slot_cur (c : Z) (s : ut_state) : ut_state :=
  mk_ut_state (g_ut s) (g_ut_next s) (g_dev_ut s) (g_slot_base s) c (g_slot_end s).

Definition set_pages_used (n : Z) (e : ut_entry) : ut_entry :=
  mk_ut_entry (ue_cap e) (ue_paddr e) n (ue_size_bits e).

(** The part of BootInfo that is read. *)
Record seL4_UntypedDesc := mk_desc { ud_paddr : Z; ud_sizeBits : Z; ud_isDevice : Z }.
Record seL4_BootInfo := mk_bi {
  empty_start : Z; empty_end : Z; untyped_start : Z; untyped_end : Z;
  untypedList : list seL4_UntypedDesc }.

Definition seL4_CapInitThreadCNode : Z := 2.

(** Build options that select cases of [ut_object_bits]. *)
Class UtConfig := { config_kernel_mcs : bool; config_vcpu_case : bool }.

(** ** Pure operations *)

(** The array [untypedList] has [UT_MAX_CAPS] elements. *)
Definition UT_MAX_CAPS (bi : seL4_BootInfo) : Z := Z.of_nat (length (untypedList bi)).

Definition ut_state_zero : ut_state := mk_ut_state [] 0 [] 0 0 0.

(** One descriptor; the loop breaks when the ordinary table is full. *)
Definition ut_init_desc (bi : seL4_BootInfo) (i : Z) (s : ut_state) :
    prog unit (loop_ctl * ut_state) :=
  d ← lift (aget (untypedList bi) i);
  let e := mk_ut_entry (u64 (untyped_start bi + i)) (ud_paddr d) 0 (ud_sizeBits d) in
  if negb (ud_isDevice d =? 0) then
    mret (Continue, if g_dev_ut_count s <? UT_MAX_CAPS bi
                    then set_dev_ut (g_dev_ut s ++ [e]) s else s)
  else
    let s' := set_ut (g_ut s ++ [e]) s in
    mret (if UT_MAX_CAPS bi <=? g_ut_count s' then Break else Continue, s').

Definition ut_alloc_init (bi : option seL4_BootInfo) : prog unit ut_state :=
  match bi with
  | None => mret ut_state_zero
  | Some bi =>
      let s0 := mk_ut_state [] 0 [] (empty_start bi) (empty_start bi) (empty_end bi) in
      let n := u32 (untyped_end bi - untyped_start bi) in
      let n := if UT_MAX_CAPS bi <? n then u32 (UT_MAX_CAPS bi) else n in
      for_loop (Z.to_nat n) 0 s0 (ut_init_desc bi)
  end.

(** [*total] and [*accounted_pages]. *)
Definition ut_alloc_observe (s : ut_state) : Z * Z :=
  foldl (fun acc e => (u64 (acc.1 + u64 (Z.shiftl 1 (ue_size_bits e))),
                       u64 (acc.2 + u64 (Z.shiftl (ue_pages_used e) 12)))) (0, 0) (g_ut s).

Definition ut_free_slot_base (s : ut_state) : Z := g_slot_base s.

Definition ut_advance_slot_cursor (n_slots : Z) (s : ut_state) : ut_state :=
  let cur := u64 (g_slot_cur s + n_slots) in
  set_slot_cur (if g_slot_end s <? cur then g_slot_end s else cur) s.

Definition ut_object_bits `{UtConfig} {K} `{Kernel K} (type : kobject) (size_bits : Z) : Z :=
  if negb (size_bits =? 0) then u8 size_bits else
  match type with
  | seL4_TCBObject => u8 (kbits seL4_TCBObject)
  | seL4_EndpointObject => u8 (kbits seL4_EndpointObject)
  | seL4_NotificationObject => u8 (kbits seL4_NotificationObject)
  | seL4_ReplyObject => if config_kernel_mcs then u8 (kbits seL4_ReplyObject) else 0
  | seL4_VCPUObject => if config_vcpu_case then u8 (kbits seL4_VCPUObject) else 0
  | seL4_SmallPageObject => 12
  | seL4_LargePageObject => u8 (kbits seL4_LargePageObject)
  | seL4_PageTableObject | seL4_VSpaceObject => u8 (kbits seL4_PageTableObject)
  | _ => 0
  end.

(** The inner loop of [device_advance]: the largest power of two of pages
    that fits the remainder and to which the watermark is aligned. *)
Fixpoint advance_chunk (fuel : nat) (used remaining pages bits : Z) : Z * Z :=
  match fuel with
  | O => (pages, bits)
  | S fuel =>
      if (pages <=? remaining / 2) && (Z.land used (Z.shiftl pages 1 - 1) =? 0)
      then advance_chunk fuel used remaining (Z.shiftl pages 1) (bits + 1)
      else (pages, bits)
  end.

(** ** Allocation *)
Section alloc.
Context {K : Type} `{Kernel K} `{UtConfig}.

Definition ut_alloc_slot : kprog K ut_state Z :=
  s ← kget;
  if g_slot_end s <=? g_slot_cur s then mret seL4_CapNull else
  kmodify (set_slot_cur (u64 (g_slot_cur s + 1)));;
  mret (g_slot_cur s).

(** Retype into a slot of the root CNode. *)
Definition retype_root (cap : Z) (type : kobject) (bits slot : Z) : kprog K ut_state seL4_Error :=
  ksys (Untyped_Retype cap type bits seL4_CapInitThreadCNode 0 0 slot 1).

Definition get_ut (i : Z) : kprog K ut_state ut_entry :=
  s ← kget; lift (aget (g_ut s) i).
Definition put_ut (i : Z) (e : ut_entry) : kprog K ut_state unit :=
  s ← kget; l ← lift (aset (g_ut s) i e); kmodify (set_ut l).
Definition get_dev (i : Z) : kprog K ut_state ut_entry :=
  s ← kget; lift (aget (g_dev_ut s) i).
Definition put_dev (i : Z) (e : ut_entry) : kprog K ut_state unit :=
  s ← kget; l ← lift (aset (g_dev_ut s) i e); kmodify (set_dev_ut l).

Definition ut_alloc (type : kobject) (size_bits dest_cnode dest_index dest_depth : Z) :
    kprog K ut_state seL4_Error :=
  s ← kget;
  let count := g_ut_count s in
  if count =? 0 then mret seL4_NotEnoughMemory else
  let start := g_ut_next s in
  r ← for_loop (Z.to_nat count) 0 None (fun i _ =>
    let idx := u32 (start + i) mod count in
    e ← get_ut idx;
    err ← ksys (Untyped_Retype (ue_cap e) type size_bits dest_cnode 0 0 dest_index 1);
    match err with
    | seL4_NoError =>
        let bits := ut_object_bits type size_bits in
        (if 12 <=? bits
         then put_ut idx (set_pages_used
                (u64 (ue_pages_used e + Z.shiftr (u64 (Z.shiftl 1 bits)) 12)) e)
         else mret tt);;
        mret (Break, Some seL4_NoError)
    | seL4_NotEnoughMemory | seL4_InvalidArgument =>
        kmodify (set_ut_next (u32 (idx + 1) mod count));;
        mret (Continue, None)
    | err => mret (Break, Some err)
    end);
  mret (default seL4_NotEnoughMemory r).

(** The results of the routines with an output parameter are the error and
    the value stored in [*cap_out], if any; [out_null]: [cap_out] is NULL. *)
Definition ut_alloc_cap (type : kobject) (size_bits : Z) : kprog K ut_state (seL4_Error * option Z) :=
  slot ← ut_alloc_slot;
  if slot =? seL4_CapNull then mret (seL4_NotEnoughMemory, Some seL4_CapNull) else
  err ← ut_alloc type size_bits seL4_CapInitThreadCNode slot 64;
  if bool_decide (err = seL4_NoError) then mret (seL4_NoError, Some slot)
  else mret (err, Some seL4_CapNull).

(** Skipping to [target_page] of an ordinary untyped, one page at a time. *)
Fixpoint phys_skip (fuel : nat) (i target_page : Z) : kprog K ut_state seL4_Error :=
  e ← get_ut i;
  if negb (ue_pages_used e <? target_page) then mret seL4_NoError else
  match fuel with
  | O => fault
  | S fuel =>
      dummy ← ut_alloc_slot;
      if dummy =? seL4_CapNull then mret seL4_NotEnoughMemory else
      err ← retype_root (ue_cap e) seL4_SmallPageObject 0 dummy;
      if negb (bool_decide (err = seL4_NoError)) then mret err else
      put_ut i (set_pages_used (u64 (ue_pages_used e + 1)) e);;
      phys_skip fuel i target_page
  end.

Definition range_misses (e : ut_entry) (paddr object_bytes : Z) : bool :=
  let ut_end := u64 (ue_paddr e + u64 (Z.shiftl 1 (ue_size_bits e))) in
  (paddr <? ue_paddr e) || (ut_end <? u64 (paddr + object_bytes)).

Definition ut_alloc_phys_cap_typed (out_null : bool) (paddr : Z) (object_type : kobject)
    (page_bits : Z) : kprog K ut_state (seL4_Error * option Z) :=
  if out_null then mret (seL4_InvalidArgument, None) else
  if (page_bits <? 12) || (64 <=? page_bits) then
    mret (seL4_InvalidArgument, Some seL4_CapNull) else
  let object_bytes := Z.shiftl 1 page_bits in
  let object_pages := Z.shiftr object_bytes 12 in
  if negb (Z.land paddr (object_bytes - 1) =? 0) then
    mret (seL4_InvalidArgument, Some seL4_CapNull) else
  s ← kget;
  r ← for_loop (length (g_ut s)) 0 None (fun i _ =>
    e ← get_ut i;
    if range_misses e paddr object_bytes then mret (Continue, None) else
    let target_page := Z.shiftr (u64 (paddr - ue_paddr e)) 12 in
    if target_page <? ue_pages_used e
    then mret (Break, Some (seL4_InvalidArgument, Some seL4_CapNull)) else
    skip_err ← phys_skip (Z.to_nat (target_page - ue_pages_used e)) i target_page;
    if negb (bool_decide (skip_err = seL4_NoError))
    then mret (Break, Some (skip_err, Some seL4_CapNull)) else
    e ← get_ut i;
    if negb (Z.land (ue_pages_used e) (object_pages - 1) =? 0)
    then mret (Break, Some (seL4_InvalidArgument, Some seL4_CapNull)) else
    slot ← ut_alloc_slot;
    if slot =? seL4_CapNull
    then mret (Break, Some (seL4_NotEnoughMemory, Some seL4_CapNull)) else
    err ← retype_root (ue_cap e) object_type 0 slot;
    if negb (bool_decide (err = seL4_NoError))
    then mret (Break, Some (err, Some seL4_CapNull)) else
    put_ut i (set_pages_used (u64 (ue_pages_used e + object_pages)) e);;
    mret (Break, Some (seL4_NoError, Some slot)));
  mret (default (seL4_InvalidArgument, Some seL4_CapNull) r).

(** ** Device untypeds *)

Definition page_misses (e : ut_entry) (paddr : Z) : bool :=
  let ut_end := u64 (ue_paddr e + u64 (Z.shiftl 1 (ue_size_bits e))) in
  (paddr <? ue_paddr e) || (ut_end <=? paddr).

Definition ut_alloc_device_frame (paddr pd_cnode target_slot : Z) : kprog K ut_state seL4_Error :=
  s ← kget;
  r ← for_loop (length (g_dev_ut s)) 0 None (fun i _ =>
    e ← get_dev i;
    if page_misses e paddr then mret (Continue, None) else
    err ← ksys (Untyped_Retype (ue_cap e) seL4_SmallPageObject 0 seL4_CapInitThreadCNode
                  pd_cnode 64 target_slot 1);
    mret (Break, Some err));
  mret (default seL4_InvalidArgument r).

(** The outer loop of [device_advance]; running out of [fuel] is a fault. *)
Fixpoint device_advance_loop (fuel : nat) (i target_page : Z) : kprog K ut_state seL4_Error :=
  e ← get_dev i;
  if negb (ue_pages_used e <? target_page) then mret seL4_NoError else
  match fuel with
  | O => fault
  | S fuel =>
      let remaining := u64 (target_page - ue_pages_used e) in
      let '(pages, bits) := advance_chunk 64 (ue_pages_used e) remaining 1 12 in
      slot ← ut_alloc_slot;
      if slot =? seL4_CapNull then mret seL4_NotEnoughMemory else
      err ← retype_root (ue_cap e) seL4_UntypedObject bits slot;
      if negb (bool_decide (err = seL4_NoError)) then mret err else
      put_dev i (set_pages_used (u64 (ue_pages_used e + pages)) e);;
      device_advance_loop fuel i target_page
  end.

(** [entry] is [&g_dev_ut[i]]. Twice the word width bounds the number of
    child untypeds. *)
Definition device_advance (i target_page : Z) : kprog K ut_state seL4_Error :=
  e ← get_dev i;
  if target_page <? ue_pages_used e then mret seL4_InvalidArgument else
  device_advance_loop (2 * 64) i target_page.

(** Retypes entry [i] into [slot] and adds [pages] to its watermark; the loop
    result is the routine's return value. *)
Definition retype_and_count (i : Z) (type : kobject) (pages slot : Z) :
    kprog K ut_state (loop_ctl * option (seL4_Error * option Z)) :=
  e ← get_dev i;
  err ← retype_root (ue_cap e) type 0 slot;
  if negb (bool_decide (err = seL4_NoError)) then mret (Break, Some (err, Some seL4_CapNull)) else
  e ← get_dev i;
  put_dev i (set_pages_used (u64 (ue_pages_used e + pages)) e);;
  mret (Break, Some (seL4_NoError, Some slot)).

Definition ut_alloc_device_cap_typed (out_null : bool) (paddr : Z) (object_type : kobject)
    (page_bits : Z) : kprog K ut_state (seL4_Error * option Z) :=
  if out_null then mret (seL4_InvalidArgument, None) else
  if (page_bits <? 12) || (64 <=? page_bits) then
    mret (seL4_InvalidArgument, Some seL4_CapNull) else
  let object_bytes := Z.shiftl 1 page_bits in
  let object_pages := Z.shiftr object_bytes 12 in
  if negb (Z.land paddr (object_bytes - 1) =? 0) then
    mret (seL4_InvalidArgument, Some seL4_CapNull) else
  s ← kget;
  r ← for_loop (length (g_dev_ut s)) 0 None (fun i _ =>
    e ← get_dev i;
    if range_misses e paddr object_bytes then mret (Continue, None) else
    let target_page := Z.shiftr (u64 (paddr - ue_paddr e)) 12 in
    if target_page <? ue_pages_used e
    then mret (Break, Some (seL4_InvalidArgument, Some seL4_CapNull)) else
    skip_err ← device_advance i target_page;
    if negb (bool_decide (skip_err = seL4_NoError))
    then mret (Break, Some (skip_err, Some seL4_CapNull)) else
    e ← get_dev i;
    if negb (Z.land (ue_pages_used e) (object_pages - 1) =? 0)
    then mret (Break, Some (seL4_InvalidArgument, Some seL4_CapNull)) else
    slot ← ut_alloc_slot;
    if slot =? seL4_CapNull
    then mret (Break, Some (seL4_NotEnoughMemory, Some seL4_CapNull)) else
    retype_and_count i object_type object_pages slot);
  mret (default (seL4_InvalidArgument, Some seL4_CapNull) r).

Definition ut_alloc_device_cap (paddr : Z) : kprog K ut_state (seL4_Error * option Z) :=
  slot ← ut_alloc_slot;
  if slot =? seL4_CapNull then mret (seL4_NotEnoughMemory, Some seL4_CapNull) else
  s ← kget;
  r ← for_loop (length (g_dev_ut s)) 0 None (fun i _ =>
    e ← get_dev i;
    if page_misses e paddr then mret (Continue, None) else
    let target_page := Z.shiftr (u64 (paddr - ue_paddr e)) 12 in
    if target_page <? ue_pages_used e
    then mret (Break, Some (seL4_InvalidArgument, Some seL4_CapNull)) else
    skip_err ← device_advance i target_page;
    if negb (bool_decide (skip_err = seL4_NoError))
    then mret (Break, Some (skip_err, Some seL4_CapNull)) else
    retype_and_count i seL4_SmallPageObject 1 slot);
  mret (default (seL4_InvalidArgument, Some seL4_CapNull) r).
End alloc.

(** ** What seL4 documents of retyping

    The size in bits of the object that a retype creates. *)
Definition retype_bits {K} `{Kernel K} (ty : kobject) (size_bits : Z) : Z :=
  match ty with
  | seL4_UntypedObject | seL4_SchedContextObject => size_bits
  | seL4_CapTableObject => size_bits + 5
  | _ => kbits ty
  end.

Definition align_up (x b : Z) : Z := (x + 2 ^ b - 1) / 2 ^ b * 2 ^ b.

(** [k_free k cap] is the offset of the free space of an untyped capability
    and [k_place k slot] the untyped and offset of the object whose
    capability is in [slot] of the root CNode. A retype puts the object at
    the free offset rounded up to the object's size and moves the free
    offset past it; a refused retype changes nothing. *)
Class UntypedKernel (K : Type) `{Kernel K} := {
  k_free : K -> Z -> Z;
  k_place : K -> Z -> option (Z * Z);
  retype_done : forall k k' ut ty bits root index depth slot,
    kinvoke (Untyped_Retype ut ty bits root index depth slot 1) k = (seL4_NoError, k') ->
    k_free k' ut = align_up (k_free k ut) (retype_bits ty bits) + 2 ^ retype_bits ty bits /\
    (forall ut', ut' <> ut -> k_free k' ut' = k_free k ut');
  retype_placed : forall k k' ut ty bits slot,
    kinvoke (Untyped_Retype ut ty bits seL4_CapInitThreadCNode 0 0 slot 1) k
      = (seL4_NoError, k') ->
    k_place k' slot = Some (ut, align_up (k_free k ut) (retype_bits ty bits));
  retype_refused : forall k k' e ut ty bits root index depth slot,
    kinvoke (Untyped_Retype ut ty bits root index depth slot 1) k = (e, k') ->
    e <> seL4_NoError -> forall ut', k_free k' ut' = k_free k ut' }.

(** ** Well-formed allocator states *)

Definition entry_wf (e : ut_entry) : Prop :=
  0 <= ue_paddr e /\ 0 <= ue_size_bits e < 64 /\ ue_paddr e + 2 ^ ue_size_bits e < 2 ^ 64 /\
  0 <= ue_pages_used e < 2 ^ 64 /\ ue_paddr e mod 2 ^ ue_size_bits e = 0.

Definition ut_caps (s : ut_state) : list Z := (ue_cap <$> g_ut s) ++ (ue_cap <$> g_dev_ut s).

Record ut_wf (s : ut_state) : Prop := {
  wf_slots : 0 < g_slot_cur s <= g_slot_end s /\ g_slot_end s < 2 ^ 63;
  wf_next : 0 <= g_ut_next s /\ (g_ut_next s < g_ut_count s \/ g_ut_next s = 0);
  wf_count : g_ut_count s < 2 ^ 31;
  wf_ut : Forall entry_wf (g_ut s);
  wf_dev : Forall entry_wf (g_dev_ut s);
  wf_caps : NoDup (ut_caps s) }.

(** What never changes of an entry. *)
Definition shape (e : ut_entry) : Z * Z * Z := (ue_cap e, ue_paddr e, ue_size_bits e).

(** [s'] follows [s]: the cursor only moves forward and the tables keep
    their entries. *)
Record ut_le (s s' : ut_state) : Prop := {
  le_end : g_slot_end s' = g_slot_end s;
  le_cur : g_slot_cur s <= g_slot_cur s';
  le_ut : shape <$> g_ut s' = shape <$> g_ut s;
  le_dev : shape <$> g_dev_ut s' = shape <$> g_dev_ut s }.

#[global] Instance ut_le_preorder : PreOrder ut_le.
Proof.
  split; [by intros s|]. intros s1 s2 s3 [] []. split; [congruence|lia|congruence..].
Qed.

(** ** The decomposition used by [device_advance] *)

Lemma advance_chunk_spec fuel : forall used rem k,
  0 <= k -> used mod 2 ^ k = 0 -> 2 ^ k <= rem -> rem < 2 ^ (k + Z.of_nat fuel) ->
  exists k', k <= k' /\
    advance_chunk fuel used rem (2 ^ k) (12 + k) = (2 ^ k', 12 + k') /\
    used mod 2 ^ k' = 0 /\ 2 ^ k' <= rem /\
    (rem < 2 ^ (k' + 1) \/ used mod 2 ^ (k' + 1) <> 0).
Proof.
  induction fuel as [|fuel IH]; intros used rem k Hk Hm Hle Hlt; simpl.
  { rewrite Z.add_0_r in Hlt. lia. }
  rewrite Z.shiftl_mul_pow2, Z.pow_1_r by lia.
  assert (2 ^ k * 2 = 2 ^ (k + 1)) as Hp by (rewrite Z.pow_add_r by lia; lia). rewrite Hp.
  rewrite Z.sub_1_r, <-Z.ones_equiv, Z.land_ones by lia.
  destruct (Z.leb_spec (2 ^ k) (rem / 2)) as [Hfit|Hbig]; simpl.
  - assert (2 ^ (k + 1) <= rem) by (Z.div_mod_to_equations; lia).
    destruct (Z.eqb_spec (used mod 2 ^ (k + 1)) 0) as [Hz|Hz].
    + destruct (IH used rem (k + 1)) as (k' & ? & Heq & ?); [lia|done|done| |].
      { by replace (k + 1 + Z.of_nat fuel) with (k + Z.of_nat (S fuel)) by lia. }
      exists k'. split; [lia|]. by replace (12 + k + 1) with (12 + (k + 1)) by lia.
    + exists k. split; [lia|]. split; [done|]. auto.
  - exists k. split; [lia|]. split; [done|]. split; [done|]. split; [done|].
    left. Z.div_mod_to_equations. lia.
Qed.

#[local] Arguments advance_chunk : simpl never.

(** [n] more chunks are enough: the remainder has [L] bits, the watermark is
    aligned to [2^j], and each chunk either raises the alignment or, once it
    is limited by the remainder, clears the top bit of the remainder. *)
Definition advance_budget (n : nat) (used rem : Z) : Prop :=
  exists L j, 0 <= j <= L /\ rem < 2 ^ L /\ used mod 2 ^ j = 0 /\ 2 * L - j <= Z.of_nat n.

Lemma mod_pow_le u j k : 0 <= j <= k -> u mod 2 ^ k = 0 -> u mod 2 ^ j = 0.
Proof.
  intros Hjk Hm. apply Z.mod_divide; [lia|]. apply Z.mod_divide in Hm; [|lia].
  transitivity (2 ^ k); [|done]. exists (2 ^ (k - j)). rewrite <-Z.pow_add_r by lia.
  f_equal. lia.
Qed.

Lemma mod_pow_add u k :
  0 <= k -> u mod 2 ^ k = 0 -> u mod 2 ^ (k + 1) <> 0 -> (u + 2 ^ k) mod 2 ^ (k + 1) = 0.
Proof.
  intros Hk Hm Hne. apply Z.mod_divide in Hm as [q ->]; [|lia].
  rewrite Z.pow_add_r, Z.pow_1_r in * by lia.
  replace (q * 2 ^ k + 2 ^ k) with ((q + 1) * 2 ^ k) by lia.
  rewrite (Z.mul_comm (2 ^ k) 2) in *. rewrite !Z.mul_mod_distr_r in * by lia.
  assert (q mod 2 <> 0) by (intros E; apply Hne; by rewrite E).
  assert ((q + 1) mod 2 = 0) as -> by (Z.div_mod_to_equations; lia). done.
Qed.

Lemma pow2_lt_inv a b : 0 <= a -> 2 ^ a < 2 ^ b -> a < b.
Proof.
  intros Ha Hlt. destruct (Z.lt_ge_cases a b) as [|Hge]; [done|].
  pose proof (Z.pow_le_mono_r 2 b a ltac:(lia) Hge). lia.
Qed.

Lemma advance_budget_step n used rem k :
  advance_budget n used rem -> 0 <= k -> used mod 2 ^ k = 0 -> 2 ^ k <= rem ->
  (rem < 2 ^ (k + 1) \/ used mod 2 ^ (k + 1) <> 0) ->
  exists n', n = S n' /\ advance_budget n' (used + 2 ^ k) (rem - 2 ^ k).
Proof.
  intros (L & j & Hj & HL & Hm & Hn) Hk Hu Hle Hmax.
  assert (k < L) by (apply pow2_lt_inv; lia).
  destruct n as [|n]; [lia|]. exists n. split; [done|].
  destruct (Z.lt_ge_cases rem (2 ^ (k + 1))) as [Hs|Hs].
  - exists k, k. rewrite Z.pow_add_r, Z.pow_1_r in Hs by lia.
    split; [lia|]. split; [lia|]. split; [|lia].
    rewrite <-Zplus_mod_idemp_l, Hu, Z.add_0_l. apply Z.mod_same. lia.
  - assert (used mod 2 ^ (k + 1) <> 0) as Hne by (destruct Hmax; [lia|done]).
    assert (j <= k).
    { destruct (Z.le_gt_cases j k) as [|Hgt]; [done|]. destruct Hne.
      apply (mod_pow_le used (k + 1) j); [lia|done]. }
    assert (k + 1 < L) by (apply pow2_lt_inv; lia).
    exists L, (k + 1). split; [lia|]. split; [lia|]. split; [by apply mod_pow_add|lia].
Qed.

(** ** Specifications of the allocation routines

    They are proved once, for any relation [acc k cap pages] between the
    kernel state, an untyped capability and its recorded watermark that
    retyping maintains: the trivial relation gives the theorems that hold for
    every kernel, and [k_free k cap = pages * 4096] those about placement. *)
Definition acc_maintained {K} `{Kernel K} (acc : K -> Z -> Z -> Prop) : Prop :=
  forall k k' e cap ty bits root index depth slot,
    kinvoke (Untyped_Retype cap ty bits root index depth slot 1) k = (e, k') ->
    (forall cap' n, cap' <> cap -> acc k cap' n -> acc k' cap' n) /\
    (e <> seL4_NoError -> forall n, acc k cap n -> acc k' cap n) /\
    (e = seL4_NoError -> forall n, 12 <= retype_bits ty bits ->
       n mod 2 ^ (retype_bits ty bits - 12) = 0 ->
       acc k cap n -> acc k' cap (n + 2 ^ (retype_bits ty bits - 12))).

Section specs.
Context {K : Type} `{Kernel K} `{UtConfig}.
Variable acc : K -> Z -> Z -> Prop.
Hypothesis Hacc : acc_maintained acc.
Implicit Types (w : kworld K) (s : ut_state) (e : ut_entry).

Record ut_ok (ws : kworld K * ut_state) : Prop := {
  ok_wf : ut_wf ws.2;
  ok_acc : forall e, e ∈ g_dev_ut ws.2 -> acc (kw_kernel ws.1) (ue_cap e) (ue_pages_used e) }.

Lemma set_slot_cur_wf s c :
  ut_wf s -> g_slot_cur s <= c <= g_slot_end s -> ut_wf (set_slot_cur c s).
Proof. intros [] ?. split; simpl; try done. lia. Qed.

Lemma set_slot_cur_le s c : g_slot_cur s <= c -> ut_le s (set_slot_cur c s).
Proof. by split. Qed.

(** A slot is fresh, or there is none. *)
Lemma wp_alloc_slot ws (Q : Z -> kworld K * ut_state -> Prop) :
  ut_ok ws ->
  Q seL4_CapNull ws ->
  (g_slot_cur ws.2 < g_slot_end ws.2 ->
   ut_ok (ws.1, set_slot_cur (g_slot_cur ws.2 + 1) ws.2) ->
   ut_le ws.2 (set_slot_cur (g_slot_cur ws.2 + 1) ws.2) ->
   g_slot_cur ws.2 <> seL4_CapNull ->
   Q (g_slot_cur ws.2) (ws.1, set_slot_cur (g_slot_cur ws.2 + 1) ws.2)) ->
  wp ut_alloc_slot Q ws.
Proof.
  intros [Hwf Ha] Hnull Hslot. unfold ut_alloc_slot. apply wp_bind, wp_kget.
  destruct (Z.leb_spec (g_slot_end ws.2) (g_slot_cur ws.2)); [by apply wp_ret|].
  destruct (wf_slots _ Hwf). apply wp_bind, wp_kmodify, wp_ret.
  rewrite u64_small by (unfold is_u64; lia). apply Hslot; [done| | |].
  - split; [apply set_slot_cur_wf; [done|lia]|done].
  - apply set_slot_cur_le. lia.
  - unfold seL4_CapNull. lia.
Qed.

Lemma wp_get_dev i e ws (Q : ut_entry -> kworld K * ut_state -> Prop) :
  aget (g_dev_ut ws.2) i = Some e -> Q e ws -> wp (get_dev i) Q ws.
Proof. intros. apply wp_bind, wp_kget. by eapply wp_lift. Qed.

Lemma wp_get_ut i e ws (Q : ut_entry -> kworld K * ut_state -> Prop) :
  aget (g_ut ws.2) i = Some e -> Q e ws -> wp (get_ut i) Q ws.
Proof. intros. apply wp_bind, wp_kget. by eapply wp_lift. Qed.

Lemma wp_put_dev i e e' ws (Q : unit -> kworld K * ut_state -> Prop) :
  aget (g_dev_ut ws.2) i = Some e ->
  Q tt (ws.1, set_dev_ut (<[Z.to_nat i := e']> (g_dev_ut ws.2)) ws.2) ->
  wp (put_dev i e') Q ws.
Proof.
  intros Hi HQ. apply wp_bind, wp_kget, wp_bind.
  eapply wp_lift; [apply aset_Some; by eapply aget_bound|]. by apply wp_kmodify.
Qed.

Lemma wp_put_ut i e e' ws (Q : unit -> kworld K * ut_state -> Prop) :
  aget (g_ut ws.2) i = Some e ->
  Q tt (ws.1, set_ut (<[Z.to_nat i := e']> (g_ut ws.2)) ws.2) ->
  wp (put_ut i e') Q ws.
Proof.
  intros Hi HQ. apply wp_bind, wp_kget, wp_bind.
  eapply wp_lift; [apply aset_Some; by eapply aget_bound|]. by apply wp_kmodify.
Qed.

(** Changing the watermark of one entry. *)
Lemma shape_insert (l : list ut_entry) i e n :
  l !! i = Some e -> shape <$> <[i := set_pages_used n e]> l = shape <$> l.
Proof.
  intros Hi. rewrite list_fmap_insert. apply list_insert_id.
  by rewrite list_lookup_fmap, Hi.
Qed.

Lemma shape_caps (l l' : list ut_entry) : shape <$> l' = shape <$> l -> ue_cap <$> l' = ue_cap <$> l.
Proof.
  intros E. apply (f_equal (fmap (fun x => x.1.1))) in E.
  by rewrite <-!list_fmap_compose in E.
Qed.

Lemma shape_length (l l' : list ut_entry) : shape <$> l' = shape <$> l -> length l' = length l.
Proof. intros E. apply (f_equal length) in E. by rewrite !length_fmap in E. Qed.

Lemma entry_wf_used e n : entry_wf e -> 0 <= n < 2 ^ 64 -> entry_wf (set_pages_used n e).
Proof. intros (? & ? & ? & ? & ?) ?. by split_and!; simpl; try lia. Qed.

Lemma set_dev_wf s i e n :
  ut_wf s -> g_dev_ut s !! i = Some e -> 0 <= n < 2 ^ 64 ->
  ut_wf (set_dev_ut (<[i := set_pages_used n e]> (g_dev_ut s)) s).
Proof.
  intros [] Hi Hn. split; simpl; try done.
  - apply Forall_insert; [done|]. apply entry_wf_used; [|done].
    by eapply Forall_lookup_1.
  - unfold ut_caps in *. simpl. by rewrite (shape_caps _ _ (shape_insert _ _ _ n Hi)).
Qed.

Lemma set_ut_wf s i e n :
  ut_wf s -> g_ut s !! i = Some e -> 0 <= n < 2 ^ 64 ->
  ut_wf (set_ut (<[i := set_pages_used n e]> (g_ut s)) s).
Proof.
  intros [] Hi Hn. split; simpl; unfold g_ut_count in *; simpl; rewrite ?length_insert; try done.
  - apply Forall_insert; [done|]. apply entry_wf_used; [|done].
    eapply (Forall_lookup_1 _ _ _ _ wf_ut0 Hi).
  - unfold ut_caps in *. simpl. by rewrite (shape_caps _ _ (shape_insert _ _ _ n Hi)).
Qed.

Lemma set_dev_le s i e n :
  g_dev_ut s !! i = Some e -> ut_le s (set_dev_ut (<[i := set_pages_used n e]> (g_dev_ut s)) s).
Proof. intros Hi. split; simpl; [done|lia|done|by apply shape_insert]. Qed.

Lemma set_ut_le s i e n :
  g_ut s !! i = Some e -> ut_le s (set_ut (<[i := set_pages_used n e]> (g_ut s)) s).
Proof. intros Hi. split; simpl; [done|lia|by apply shape_insert|done]. Qed.

(** Two device entries with one capability are the same entry. *)
Lemma dev_caps_inj s i j e e' :
  ut_wf s -> g_dev_ut s !! i = Some e -> g_dev_ut s !! j = Some e' ->
  ue_cap e = ue_cap e' -> i = j.
Proof.
  intros [] Hi Hj He. unfold ut_caps in *.
  apply NoDup_app in wf_caps0 as (_ & _ & Hnd).
  eapply NoDup_lookup; [exact Hnd| |]; rewrite list_lookup_fmap.
  - by rewrite Hi.
  - by rewrite Hj, He.
Qed.

Lemma ut_dev_caps_ne s i j e e' :
  ut_wf s -> g_ut s !! i = Some e -> g_dev_ut s !! j = Some e' -> ue_cap e' <> ue_cap e.
Proof.
  intros [] Hi Hj He. unfold ut_caps in *.
  apply NoDup_app in wf_caps0 as (_ & Hd & _). apply (Hd (ue_cap e)).
  - apply list_elem_of_fmap. exists e. split; [done|]. by eapply list_elem_of_lookup_2.
  - rewrite <-He. apply list_elem_of_fmap. exists e'. split; [done|].
    by eapply list_elem_of_lookup_2.
Qed.

(** A retype of a device untyped at an aligned watermark: recording the new
    watermark afterwards restores the invariant. *)
Lemma wp_retype_dev i e ty bits slot ws (Q : seL4_Error -> kworld K * ut_state -> Prop) :
  let p := retype_bits ty bits - 12 in
  ut_ok ws -> g_dev_ut ws.2 !! i = Some e ->
  0 <= p -> ue_pages_used e mod 2 ^ p = 0 -> ue_pages_used e + 2 ^ p < 2 ^ 64 ->
  (forall r ws', r <> seL4_NoError -> ut_ok ws' -> ws'.2 = ws.2 ->
     length (kw_log ws'.1) = S (length (kw_log ws.1)) -> Q r ws') ->
  (forall w', kinvoke (Untyped_Retype (ue_cap e) ty bits seL4_CapInitThreadCNode 0 0 slot 1)
        (kw_kernel ws.1) = (seL4_NoError, kw_kernel w') ->
     ut_ok (w', set_dev_ut (<[i := set_pages_used (ue_pages_used e + 2 ^ p) e]>
                  (g_dev_ut ws.2)) ws.2) ->
     length (kw_log w') = S (length (kw_log ws.1)) -> Q seL4_NoError (w', ws.2)) ->
  wp (retype_root (ue_cap e) ty bits slot) Q ws.
Proof using Hacc.
  destruct ws as [w s]. simpl. intros [Hwf Ha] Hi Hp Hal Hlt Hbad Hgood. simpl in *.
  apply wp_ksys_step. intros r k Hk. destruct (Hacc _ _ _ _ _ _ _ _ _ _ Hk) as (Ho & Hr & Hd).
  destruct (decide (r = seL4_NoError)) as [->|Hne].
  - apply Hgood; [done| |done]. pose proof (Forall_lookup_1 _ _ _ _ (wf_dev _ Hwf) Hi) as He.
    destruct He as (_ & _ & _ & Hu & _). split.
    { apply set_dev_wf; [done..|]. lia. }
    intros e' Hin. cbn [fst kw_kernel]. cbn [snd set_dev_ut g_dev_ut] in Hin.
    apply list_elem_of_lookup in Hin as [j Hj].
    apply list_lookup_insert_Some in Hj as [(<- & <- & _)|[Hne Hj]].
    + apply (Hd eq_refl); [lia|done|]. apply Ha. by eapply list_elem_of_lookup_2.
    + apply Ho; [|apply Ha; by eapply list_elem_of_lookup_2].
      intros E. apply Hne. symmetry. by eapply dev_caps_inj.
  - apply Hbad; [done| |done|done]. split; [done|]. intros e' Hin. simpl in *.
    destruct (decide (ue_cap e' = ue_cap e)) as [E|E]; [|by apply Ho; [|apply Ha]].
    rewrite E. apply Hr; [done|]. rewrite <-E. by apply Ha.
Qed.

Lemma aget_lookup {A} (l : list A) i x :
  aget l i = Some x -> l !! Z.to_nat i = Some x /\ 0 <= i < Z.of_nat (length l).
Proof.
  intros Hi. split; [by apply aget_Some in Hi as [_ ?]|by eapply aget_bound].
Qed.

Lemma dev_entry_insert s i e e' :
  aget (g_dev_ut s) i = Some e -> aget (<[Z.to_nat i := e']> (g_dev_ut s)) i = Some e'.
Proof.
  intros Hi%aget_lookup. apply aget_Some. split; [lia|].
  apply list_lookup_insert_eq. lia.
Qed.

(** [device_advance] ends within its fuel, and on success the watermark is
    exactly the target. *)
Lemma wp_device_advance_loop fuel : forall i target e ws,
  ut_ok ws -> aget (g_dev_ut ws.2) i = Some e -> target < 2 ^ 64 ->
  ue_pages_used e <= target ->
  advance_budget fuel (ue_pages_used e) (target - ue_pages_used e) ->
  wp (device_advance_loop fuel i target) (fun r ws' =>
    ut_ok ws' /\ ut_le ws.2 ws'.2 /\
    (length (kw_log ws'.1) <= length (kw_log ws.1) + fuel)%nat /\
    (r = seL4_NoError -> exists e', aget (g_dev_ut ws'.2) i = Some e' /\
       shape e' = shape e /\ ue_pages_used e' = target)) ws.
Proof using Hacc.
  induction fuel as [|fuel IH]; intros i target e ws Hok Hi Ht Hle Hb; simpl;
    apply wp_bind; (eapply wp_get_dev; [exact Hi|]).
  all: pose proof (proj1 (aget_lookup _ _ _ Hi)) as Hi'.
  all: pose proof (Forall_lookup_1 _ _ _ _ (wf_dev _ (ok_wf _ Hok)) Hi') as (_ & _ & _ & Hu & _).
  all: destruct (Z.ltb_spec (ue_pages_used e) target) as [Hlt|Hge]; simpl.
  all: try (apply wp_ret; split_and!; [done..|lia|]; intros _; exists e; split_and!; [done..|lia]).
  { destruct Hb as (L & j & ? & HL & _ & ?). assert (L = 0) as -> by lia. lia. }
  rewrite u64_small by (unfold is_u64; lia).
  destruct (advance_chunk_spec 64 (ue_pages_used e) (target - ue_pages_used e) 0)
    as (k & Hk & Hch & Hmod & Hfit & Hmax);
    [done|by rewrite Z.mod_1_r|simpl; lia|simpl Z.add; lia|].
  change (2 ^ 0) with 1 in Hch. change (12 + 0) with 12 in Hch. rewrite Hch.
  destruct (advance_budget_step _ _ _ _ Hb Hk Hmod Hfit Hmax) as (n' & [= <-] & Hb').
  apply wp_bind, wp_alloc_slot; [done| |].
  { apply wp_ret. split_and!; [done..|lia|done]. }
  intros _ Hok1 Hle1 Hnz. rewrite (proj2 (Z.eqb_neq _ _) Hnz).
  assert (retype_bits seL4_UntypedObject (12 + k) - 12 = k) as Hbits by (simpl; lia).
  apply wp_bind. apply (wp_retype_dev (Z.to_nat i) e);
    [done|done|rewrite Hbits; done|rewrite Hbits; done|rewrite Hbits; lia| |].
  - intros r ws2 Hr Hok2 Hs2 Hl2. rewrite bool_decide_eq_false_2 by done. simpl.
    apply wp_ret. rewrite Hs2, Hl2. split_and!; [done..|simpl; lia|done].
  - intros w' _ Hok2 Hl2. rewrite Hbits in Hok2. simpl.
    apply wp_bind. rewrite u64_small by (unfold is_u64; lia).
    eapply wp_put_dev; [exact Hi|]. eapply wp_mono.
    { apply (IH i target (set_pages_used (ue_pages_used e + 2 ^ k) e)); simpl.
      - exact Hok2.
      - by eapply dev_entry_insert.
      - done.
      - lia.
      - by replace (target - (ue_pages_used e + 2 ^ k))
          with (target - ue_pages_used e - 2 ^ k) by lia. }
    intros r ws3 (Hok3 & Hle3 & Hl3 & Hr3). split_and!; [done| | |done].
    + etrans; [exact Hle1|]. etrans; [|exact Hle3].
      apply (set_dev_le (set_slot_cur _ _)). exact Hi'.
    + simpl in *. lia.
Qed.

Lemma wp_device_advance i target e ws :
  ut_ok ws -> aget (g_dev_ut ws.2) i = Some e -> 0 <= target < 2 ^ 64 ->
  wp (device_advance i target) (fun r ws' =>
    ut_ok ws' /\ ut_le ws.2 ws'.2 /\
    (length (kw_log ws'.1) <= length (kw_log ws.1) + 128)%nat /\
    (r = seL4_NoError -> exists e', aget (g_dev_ut ws'.2) i = Some e' /\
       shape e' = shape e /\ ue_pages_used e' = target)) ws.
Proof using Hacc.
  intros Hok Hi Ht. unfold device_advance. apply wp_bind. eapply wp_get_dev; [exact Hi|].
  pose proof (Forall_lookup_1 _ _ _ _ (wf_dev _ (ok_wf _ Hok)) (proj1 (aget_lookup _ _ _ Hi)))
    as (_ & _ & _ & Hu & _).
  destruct (Z.ltb_spec target (ue_pages_used e)).
  { apply wp_ret. split_and!; [done..|lia|done]. }
  apply wp_device_advance_loop; [done..|lia|lia|].
  exists 64, 0. split; [lia|]. split; [lia|]. split; [by rewrite Z.mod_1_r|done].
Qed.

(** What an allocation that returns a root slot guarantees. *)
Definition fresh_result (ws ws' : kworld K * ut_state) (r : seL4_Error * option Z) : Prop :=
  forall c, r.2 = Some c -> c <> seL4_CapNull ->
    g_slot_cur ws.2 <= c < g_slot_cur ws'.2 /\ c < g_slot_end ws.2.

(** The capability [c] was made by a retype of a device untyped that covers
    [paddr], at the moment its recorded watermark was at [paddr]. *)
Definition retyped_at (ty : kobject) (paddr : Z) (ws ws' : kworld K * ut_state) (c : Z) : Prop :=
  exists e n k, e ∈ g_dev_ut ws.2 /\ ue_paddr e <= paddr < ue_paddr e + 2 ^ ue_size_bits e /\
    n = (paddr - ue_paddr e) / 4096 /\ acc k (ue_cap e) n /\
    n mod 2 ^ (retype_bits ty 0 - 12) = 0 /\
    kinvoke (Untyped_Retype (ue_cap e) ty 0 seL4_CapInitThreadCNode 0 0 c 1) k
      = (seL4_NoError, kw_kernel ws'.1).

Lemma page_hit e paddr :
  entry_wf e -> page_misses e paddr = false ->
  ue_paddr e <= paddr < ue_paddr e + 2 ^ ue_size_bits e.
Proof.
  intros (Hp & Hs & Hfit & _). unfold page_misses.
  rewrite Z.shiftl_1_l, (u64_small (2 ^ _)), (u64_small (ue_paddr e + _))
    by (unfold is_u64; lia).
  intros [? ?]%orb_false_iff. lia.
Qed.

Lemma range_hit e paddr bytes :
  entry_wf e -> 0 < bytes -> paddr + bytes < 2 ^ 64 -> range_misses e paddr bytes = false ->
  ue_paddr e <= paddr /\ paddr + bytes <= ue_paddr e + 2 ^ ue_size_bits e.
Proof.
  intros (Hp & Hs & Hfit & _) Hb Hlt. unfold range_misses.
  rewrite Z.shiftl_1_l, (u64_small (2 ^ _)), (u64_small (ue_paddr e + _))
    by (unfold is_u64; lia).
  intros [? Hend]%orb_false_iff. rewrite u64_small in Hend by (unfold is_u64; lia). lia.
Qed.

Lemma target_page_eq e paddr :
  entry_wf e -> ue_paddr e <= paddr < ue_paddr e + 2 ^ ue_size_bits e ->
  Z.shiftr (u64 (paddr - ue_paddr e)) 12 = (paddr - ue_paddr e) / 4096 /\
  0 <= (paddr - ue_paddr e) / 4096 < 2 ^ 52.
Proof.
  intros (Hp & Hs & Hfit & _) Hin. rewrite u64_small by (unfold is_u64; lia).
  rewrite Z.shiftr_div_pow2 by lia. change (2 ^ 12) with 4096. split; [done|].
  split; [apply Z.div_pos; lia|]. apply Z.div_lt_upper_bound; lia.
Qed.

(** Retyping at the watermark that an advance reached, and recording it. *)
Lemma wp_retype_and_count i e0 e target ty slot ws ws1
    (Q : loop_ctl * option (seL4_Error * option Z) -> kworld K * ut_state -> Prop) :
  let p := retype_bits ty 0 - 12 in
  ut_ok ws1 -> ut_le ws.2 ws1.2 -> aget (g_dev_ut ws.2) i = Some e0 ->
  ue_paddr e0 <= target * 4096 + ue_paddr e0 < ue_paddr e0 + 2 ^ ue_size_bits e0 ->
  aget (g_dev_ut ws1.2) i = Some e -> shape e = shape e0 ->
  ue_pages_used e = target -> 0 <= target < 2 ^ 52 -> 0 <= p < 52 -> target mod 2 ^ p = 0 ->
  (forall r ws', ut_ok ws' -> ut_le ws.2 ws'.2 -> g_slot_cur ws'.2 = g_slot_cur ws1.2 ->
     r <> seL4_NoError -> Q (Break, Some (r, Some seL4_CapNull)) ws') ->
  (forall ws', ut_ok ws' -> ut_le ws.2 ws'.2 -> g_slot_cur ws'.2 = g_slot_cur ws1.2 ->
     (forall paddr, ue_paddr e0 <= paddr < ue_paddr e0 + 2 ^ ue_size_bits e0 ->
        (paddr - ue_paddr e0) / 4096 = target -> retyped_at ty paddr ws ws' slot) ->
     Q (Break, Some (seL4_NoError, Some slot)) ws') ->
  wp (retype_and_count i ty (2 ^ p) slot) Q ws1.
Proof using Hacc.
  intros p Hok1 Hle Hi0 Hcov Hi Hsh Hu Ht Hp Hmod Hbad Hgood. subst target.
  assert (2 ^ p < 2 ^ 52) by (apply Z.pow_lt_mono_r; lia).
  unfold retype_and_count. apply wp_bind. eapply wp_get_dev; [exact Hi|].
  apply wp_bind. apply (wp_retype_dev (Z.to_nat i) e); fold p;
    [done|by apply aget_lookup|lia|done|lia| |].
  - intros r ws2 Hr Hok2 Hs2 _. rewrite bool_decide_eq_false_2 by done.
    apply wp_ret, Hbad; [done|by rewrite Hs2|by rewrite Hs2|done].
  - intros w' Hk Hok2 _. fold p in Hok2. simpl. apply wp_bind. eapply wp_get_dev; [exact Hi|].
    apply wp_bind. rewrite u64_small by (unfold is_u64; lia).
    eapply wp_put_dev; [exact Hi|]. apply wp_ret. simpl.
    apply Hgood; [done| |done|].
    + etrans; [exact Hle|]. apply set_dev_le. by apply aget_lookup.
    + intros paddr Hin Hpg. injection Hsh as Hc _ _.
      exists e0, (ue_pages_used e), (kw_kernel ws1.1). rewrite <-Hc, Hpg.
      split; [eapply list_elem_of_lookup_2; by apply aget_lookup|].
      split; [done|]. split; [done|]. split; [|by split].
      apply (ok_acc _ Hok1). eapply list_elem_of_lookup_2. by apply aget_lookup.
Qed.

Definition alloc_post (ty : kobject) (paddr : Z) (ws : kworld K * ut_state)
    (r : seL4_Error * option Z) (ws' : kworld K * ut_state) : Prop :=
  ut_ok ws' /\ ut_le ws.2 ws'.2 /\ fresh_result ws ws' r /\
  (r.1 = seL4_NoError -> exists c,
     r.2 = Some c /\ c <> seL4_CapNull /\ retyped_at ty paddr ws ws' c) /\
  (r.1 <> seL4_NoError -> r.2 = None \/ r.2 = Some seL4_CapNull).

Lemma alloc_post_fail ty paddr (ws ws' : kworld K * ut_state) err o :
  ut_ok ws' -> ut_le ws.2 ws'.2 -> err <> seL4_NoError -> o = None \/ o = Some seL4_CapNull ->
  alloc_post ty paddr ws (err, o) ws'.
Proof.
  intros Hok Hle He Ho. split; [done|]. split; [done|]. split; [|by split].
  intros c Hc. simpl in Hc. destruct Ho as [-> | ->]; naive_solver.
Qed.

Ltac refused := apply alloc_post_fail; [done|done|done|auto].

(** The loops over the device table stop at the first entry that is hit; the
    state is unchanged until then. *)
Lemma wp_dev_scan (miss : ut_entry -> bool) (ty : kobject) (paddr : Z) ws0 ws
    (hit : Z -> ut_entry -> kprog K ut_state (loop_ctl * option (seL4_Error * option Z))) :
  ut_ok ws -> ut_le ws0.2 ws.2 ->
  (forall i e, aget (g_dev_ut ws.2) i = Some e -> miss e = false ->
     wp (hit i e) (fun r ws' => exists x, r = (Break, Some x) /\ alloc_post ty paddr ws0 x ws') ws) ->
  wp (r ← for_loop (length (g_dev_ut ws.2)) 0 None (fun i _ =>
        e ← get_dev i;
        if miss e then mret (Continue, None) else hit i e);
      mret (default (seL4_InvalidArgument, Some seL4_CapNull) r)) (alloc_post ty paddr ws0) ws.
Proof.
  intros Hok Hle Hhit. apply wp_bind.
  apply (wp_for (fun _ a ws' => a = None /\ ws' = ws)); [done| |].
  - intros i a ws' Hi [-> ->]. destruct (aget_lt (g_dev_ut ws.2) i) as [e He]; [lia|].
    apply wp_bind. eapply wp_get_dev; [exact He|].
    destruct (miss e) eqn:Hm; [by apply wp_ret|].
    eapply wp_mono; [by apply Hhit|]. intros r ws' (x & -> & Hx). by apply wp_ret.
  - intros a ws' [-> ->]. apply wp_ret. refused.
Qed.

Lemma wp_device_cap_typed out_null paddr ty page_bits ws :
  ut_ok ws -> 0 <= paddr -> paddr + 2 ^ page_bits < 2 ^ 64 -> retype_bits ty 0 = page_bits ->
  wp (ut_alloc_device_cap_typed out_null paddr ty page_bits) (alloc_post ty paddr ws) ws.
Proof using Hacc.
  intros Hok Hp Hfit Hty. unfold ut_alloc_device_cap_typed.
  kstep; [apply wp_ret; refused|].
  kstep; [apply wp_ret; refused|]. apply orb_false_iff in H2 as [Hlo Hhi].
  assert (12 <= page_bits < 64) as Hpb by lia. rewrite Z.shiftl_1_l.
  kstep; [apply wp_ret; refused|].
  assert (Z.shiftr (2 ^ page_bits) 12 = 2 ^ (page_bits - 12)) as ->.
  { rewrite Z.shiftr_div_pow2, <-Z.pow_sub_r by lia. done. }
  apply wp_bind, wp_kget. apply (wp_dev_scan _ ty paddr ws ws); [done..|].
  intros i e Hi Hm. pose proof (aget_lookup _ _ _ Hi) as [Hi' _].
  pose proof (Forall_lookup_1 _ _ _ _ (wf_dev _ (ok_wf _ Hok)) Hi') as Hwf.
  assert (0 < 2 ^ page_bits) by lia.
  destruct (range_hit e paddr (2 ^ page_bits)) as [Hc1 Hc2]; [done..|].
  destruct (target_page_eq e paddr) as [-> Htp]; [done|lia|].
  kstep; [apply wp_ret; eexists; split; [done|refused]|].
  apply wp_bind. eapply wp_mono; [apply (wp_device_advance i _ e); [done..|lia]|].
  intros r ws1 (Hok1 & Hle1 & _ & Hr). kstep.
  { apply wp_ret. eexists. split; [done|]. apply alloc_post_fail; [done|done| |auto].
    intros ->. by rewrite bool_decide_eq_true_2 in H5. }
  apply negb_false_iff in H5. apply bool_decide_eq_true_1 in H5.
  destruct (Hr H5) as (e1 & Hi1 & Hsh & Hu). apply wp_bind. eapply wp_get_dev; [exact Hi1|].
  kstep; [apply wp_ret; eexists; split; [done|refused]|].
  apply wp_bind, wp_alloc_slot; [done| |].
  { apply wp_ret. eexists. split; [done|]. refused. }
  intros Hlt Hok2 Hle2 Hnz. rewrite (proj2 (Z.eqb_neq _ _) Hnz).
  rewrite <-Hty. eapply (wp_retype_and_count i e e1 ((paddr - ue_paddr e) / 4096) ty _ ws);
    [done|by etrans|done| |done..| | | |].
  all: rewrite ?Hty.
  - Z.div_mod_to_equations; lia.
  - lia.
  - apply negb_false_iff, Z.eqb_eq in H6. rewrite Z.sub_1_r, <-Z.ones_equiv in H6.
    by rewrite Z.land_ones, Hu in H6 by lia.
  - intros r' ws' Hok' Hle' _ Hr'. eexists. split; [done|]. refused.
  - intros ws' Hok' Hle' Hcur Hat. eexists. split; [done|]. split; [done|]. split; [done|]. split_and!.
    + intros c [= <-] _. rewrite Hcur, <-(le_end _ _ Hle1). simpl.
      pose proof (le_cur _ _ Hle1). lia.
    + intros _. eexists. split_and!; [done..|]. apply Hat; [lia|done].
    + done.
Qed.

Lemma wp_device_cap paddr ws :
  ut_ok ws -> kbits seL4_SmallPageObject = 12 ->
  wp (ut_alloc_device_cap paddr) (alloc_post seL4_SmallPageObject paddr ws) ws.
Proof using Hacc.
  intros Hok Hbits. unfold ut_alloc_device_cap. apply wp_bind, wp_alloc_slot; [done| |].
  { apply wp_ret. refused. }
  intros Hlt Hok1 Hle1 Hnz. rewrite (proj2 (Z.eqb_neq _ _) Hnz).
  apply wp_bind, wp_kget. set (ws1 := (ws.1, set_slot_cur (g_slot_cur ws.2 + 1) ws.2)) in *.
  apply (wp_dev_scan _ _ paddr ws ws1); [done..|].
  intros i e Hi Hm. pose proof (aget_lookup _ _ _ Hi) as [Hi' _].
  pose proof (Forall_lookup_1 _ _ _ _ (wf_dev _ (ok_wf _ Hok1)) Hi') as Hwf.
  pose proof (page_hit e paddr Hwf Hm) as Hc.
  destruct (target_page_eq e paddr) as [-> Htp]; [done|lia|].
  kstep; [apply wp_ret; eexists; split; [done|refused]|].
  apply wp_bind. eapply wp_mono; [apply (wp_device_advance i _ e); [done..|lia]|].
  intros r ws2 (Hok2 & Hle2 & _ & Hr). pose proof (transitivity Hle1 Hle2 : ut_le ws.2 ws2.2).
  kstep.
  { apply wp_ret. eexists. split; [done|]. apply alloc_post_fail; [done|done| |auto].
    intros ->. by rewrite bool_decide_eq_true_2 in H3. }
  apply negb_false_iff in H3. apply bool_decide_eq_true_1 in H3.
  destruct (Hr H3) as (e2 & Hi2 & Hsh & Hu).
  replace 1 with (2 ^ (retype_bits seL4_SmallPageObject 0 - 12)) by (simpl; by rewrite Hbits).
  eapply (wp_retype_and_count i e e2 ((paddr - ue_paddr e) / 4096) _ _ ws);
    [done..| |done|done|done|done| | | |]; simpl; rewrite ?Hbits.
  - Z.div_mod_to_equations; lia.
  - lia.
  - by rewrite Z.mod_1_r.
  - intros r' ws' Hok' Hle' _ Hr'. eexists. split; [done|]. refused.
  - intros ws' Hok' Hle' Hcur Hat. eexists. split; [done|]. split; [done|]. split; [done|]. split_and!.
    + intros c [= <-] _. rewrite Hcur. pose proof (le_cur _ _ Hle2). subst ws1. simpl in *. lia.
    + intros _. eexists. split_and!; [done..|]. apply Hat; [lia|done].
    + done.
Qed.

(** Retyping an ordinary untyped leaves the device accounting alone. *)
Lemma wp_retype_ut i e ty bits root index depth slot ws
    (Q : seL4_Error -> kworld K * ut_state -> Prop) :
  ut_ok ws -> g_ut ws.2 !! i = Some e ->
  (forall r w', ut_ok (w', ws.2) -> Q r (w', ws.2)) ->
  wp (ksys (Untyped_Retype (ue_cap e) ty bits root index depth slot 1)) Q ws.
Proof using Hacc.
  destruct ws as [w s]. simpl. intros [Hwf Ha] Hi HQ. simpl in *.
  apply wp_ksys_step. intros r k Hk. destruct (Hacc _ _ _ _ _ _ _ _ _ _ Hk) as (Ho & _ & _).
  apply HQ. split; [done|]. intros e' He'. simpl in *. apply Ho; [|by apply Ha].
  apply list_elem_of_lookup in He' as [j Hj]. by eapply ut_dev_caps_ne.
Qed.

Lemma ut_ok_set_ut w s i e n :
  ut_ok (w, s) -> g_ut s !! i = Some e -> 0 <= n < 2 ^ 64 ->
  ut_ok (w, set_ut (<[i := set_pages_used n e]> (g_ut s)) s).
Proof. intros [Hwf Ha] Hi Hn. split; [by apply set_ut_wf|done]. Qed.

Lemma wp_ut_alloc ty bits cnode index depth ws :
  ut_ok ws ->
  wp (ut_alloc ty bits cnode index depth) (fun _ ws' =>
    ut_ok ws' /\ ut_le ws.2 ws'.2 /\ g_slot_cur ws'.2 = g_slot_cur ws.2) ws.
Proof using Hacc.
  intros Hok. unfold ut_alloc. apply wp_bind, wp_kget. kstep; [by apply wp_ret|].
  assert (0 < g_ut_count ws.2) as Hpos by (unfold g_ut_count in *; lia).
  apply wp_bind. apply (wp_for (fun _ _ ws' => ut_ok ws' /\ ut_le ws.2 ws'.2 /\
    g_slot_cur ws'.2 = g_slot_cur ws.2)); [done| |by intros; apply wp_ret].
  intros i a [w s] Hi (Hok' & Hle & Hcur). simpl in *.
  set (idx := u32 (g_ut_next ws.2 + i) mod g_ut_count ws.2).
  assert (0 <= idx < g_ut_count ws.2) as Hidx by (apply Z.mod_pos_bound; lia).
  assert (g_ut_count s = g_ut_count ws.2) as Hcnt.
  { unfold g_ut_count. by rewrite (shape_length _ _ (le_ut _ _ Hle)). }
  destruct (aget_lt (g_ut s) idx) as [e He]; [unfold g_ut_count in *; lia|].
  pose proof (aget_lookup _ _ _ He) as [He' _].
  apply wp_bind. eapply wp_get_ut; [exact He|]. apply wp_bind.
  eapply wp_retype_ut; [done..|]. intros r w' Hok2.
  assert (wp (kmodify (set_ut_next (u32 (idx + 1) mod g_ut_count ws.2));; mret (Continue, None))
    (fun (r : loop_ctl * option seL4_Error) ws' => r.1 = Continue /\ ut_ok ws' /\
       ut_le ws.2 ws'.2 /\ g_slot_cur ws'.2 = g_slot_cur ws.2) (w', s)) as Hnext.
  { apply wp_bind, wp_kmodify, wp_ret. split; [done|]. destruct Hok2 as [[] Ha].
    split; [split; [split|]|split; [|done]]; try done.
    - simpl. change (g_ut_count (set_ut_next _ s)) with (g_ut_count s). rewrite Hcnt.
      pose proof (Z.mod_pos_bound (u32 (idx + 1)) (g_ut_count ws.2)). lia.
    - etrans; [exact Hle|by split]. }
  destruct r; try (apply wp_ret, wp_ret; by split).
  - apply wp_bind. apply wp_if; intros Hb.
    + eapply wp_put_ut; [exact He|]. apply wp_ret, wp_ret. split_and!; [|etrans; [exact Hle|]|done].
      * apply ut_ok_set_ut; [done..|apply u64_range].
      * by apply set_ut_le.
    + apply wp_ret, wp_ret. by split.
  - eapply wp_mono; [exact Hnext|]. intros [c x] ws' (Hc & H3 & H4 & H5). simpl in Hc. by subst c.
  - eapply wp_mono; [exact Hnext|]. intros [c x] ws' (Hc & H3 & H4 & H5). simpl in Hc. by subst c.
Qed.

Definition slot_post (ws : kworld K * ut_state) (r : seL4_Error * option Z)
    (ws' : kworld K * ut_state) : Prop :=
  ut_ok ws' /\ ut_le ws.2 ws'.2 /\ fresh_result ws ws' r.

Lemma slot_post_null ws ws' err o :
  ut_ok ws' -> ut_le ws.2 ws'.2 -> o = None \/ o = Some seL4_CapNull ->
  slot_post ws (err, o) ws'.
Proof. intros ? ? [-> | ->]; split_and!; try done; intros ? ?; naive_solver. Qed.

Ltac no_slot := apply slot_post_null; [done|done|auto].

Lemma wp_ut_alloc_cap ty bits ws : ut_ok ws -> wp (ut_alloc_cap ty bits) (slot_post ws) ws.
Proof using Hacc.
  intros Hok. unfold ut_alloc_cap. apply wp_bind, wp_alloc_slot; [done|apply wp_ret; no_slot|].
  intros Hlt Hok1 Hle1 Hnz. rewrite (proj2 (Z.eqb_neq _ _) Hnz).
  apply wp_bind. eapply wp_mono; [by apply wp_ut_alloc|].
  intros r ws2 (Hok2 & Hle2 & Hcur). pose proof (transitivity Hle1 Hle2 : ut_le ws.2 ws2.2).
  kstep; apply wp_ret; [|no_slot]. split_and!; [done..|].
  intros c [= <-] _. rewrite Hcur. simpl. lia.
Qed.

Lemma ut_entry_insert s i e e' :
  aget (g_ut s) i = Some e -> aget (<[Z.to_nat i := e']> (g_ut s)) i = Some e'.
Proof.
  intros Hi%aget_lookup. apply aget_Some. split; [lia|].
  apply list_lookup_insert_eq. lia.
Qed.

Lemma wp_phys_skip fuel : forall i target e ws,
  ut_ok ws -> aget (g_ut ws.2) i = Some e -> target < 2 ^ 64 ->
  ue_pages_used e <= target -> target - ue_pages_used e <= Z.of_nat fuel ->
  wp (phys_skip fuel i target) (fun r ws' => ut_ok ws' /\ ut_le ws.2 ws'.2 /\
    (r = seL4_NoError -> exists e', aget (g_ut ws'.2) i = Some e' /\
       shape e' = shape e /\ ue_pages_used e' = target)) ws.
Proof using Hacc.
  induction fuel as [|fuel IH]; intros i target e ws Hok Hi Ht Hle Hf; simpl;
    apply wp_bind; (eapply wp_get_ut; [exact Hi|]).
  all: pose proof (aget_lookup _ _ _ Hi) as [Hi' _].
  all: pose proof (Forall_lookup_1 _ _ _ _ (wf_ut _ (ok_wf _ Hok)) Hi') as (_ & _ & _ & Hu & _).
  all: destruct (Z.ltb_spec (ue_pages_used e) target) as [Hlt|Hge]; simpl; [try lia|].
  all: try (apply wp_ret; split_and!; [done..|]; intros _; exists e; split_and!; [done..|lia]).
  apply wp_bind, wp_alloc_slot; [done|apply wp_ret; by split_and!|].
  intros _ Hok1 Hle1 Hnz. rewrite (proj2 (Z.eqb_neq _ _) Hnz).
  apply wp_bind. eapply wp_retype_ut; [done|exact Hi'|]. intros r w' Hok2.
  kstep.
  { apply wp_ret. split_and!; [done..|]. intros ->. by rewrite bool_decide_eq_true_2 in H1. }
  apply wp_bind. rewrite u64_small by (unfold is_u64; lia).
  eapply wp_put_ut; [exact Hi|]. eapply wp_mono.
  { apply (IH i target (set_pages_used (ue_pages_used e + 1) e)); simpl; [|by eapply ut_entry_insert|lia..].
    apply (ut_ok_set_ut _ (set_slot_cur _ _)); [done|exact Hi'|lia]. }
  intros r2 ws3 (Hok3 & Hle3 & Hr3). split_and!; [done| |done].
  etrans; [exact Hle1|]. etrans; [|exact Hle3]. apply (set_ut_le (set_slot_cur _ _)). exact Hi'.
Qed.

Lemma wp_phys_cap_typed out_null paddr ty page_bits ws :
  ut_ok ws -> wp (ut_alloc_phys_cap_typed out_null paddr ty page_bits) (slot_post ws) ws.
Proof using Hacc.
  intros Hok. unfold ut_alloc_phys_cap_typed.
  do 3 (kstep; [apply wp_ret; no_slot|]). apply wp_bind, wp_kget, wp_bind.
  apply (wp_for (fun _ a ws' => a = None /\ ws' = ws)); [done| |].
  2:{ intros a ws' [-> ->]. apply wp_ret. no_slot. }
  intros i a ws' Hi [-> ->]. destruct (aget_lt (g_ut ws.2) i) as [e He]; [lia|].
  apply wp_bind. eapply wp_get_ut; [exact He|]. kstep; [by apply wp_ret|].
  set (t := Z.shiftr (u64 (paddr - ue_paddr e)) 12).
  assert (0 <= t < 2 ^ 64) as Ht.
  { subst t. rewrite Z.shiftr_div_pow2 by lia. pose proof (u64_range (paddr - ue_paddr e)).
    unfold is_u64 in *. Z.div_mod_to_equations. lia. }
  kstep; [apply wp_ret, wp_ret; no_slot|]. apply Z.ltb_ge in H5.
  apply wp_bind. eapply wp_mono; [apply (wp_phys_skip _ i t e); [done..|lia|lia|lia]|].
  intros r ws1 (Hok1 & Hle1 & Hr). kstep; [apply wp_ret, wp_ret; no_slot|].
  apply negb_false_iff in H6. apply bool_decide_eq_true_1 in H6.
  destruct (Hr H6) as (e1 & He1 & _ & _). pose proof (aget_lookup _ _ _ He1) as [He1' _].
  apply wp_bind. eapply wp_get_ut; [exact He1|]. kstep; [apply wp_ret, wp_ret; no_slot|].
  apply wp_bind, wp_alloc_slot; [done|apply wp_ret, wp_ret; no_slot|].
  intros Hlt Hok2 Hle2 Hnz. rewrite (proj2 (Z.eqb_neq _ _) Hnz).
  pose proof (transitivity Hle1 Hle2 : ut_le ws.2 _).
  apply wp_bind. eapply wp_retype_ut; [done|exact He1'|]. intros r2 w3 Hok3.
  kstep; [apply wp_ret, wp_ret; no_slot|]. apply wp_bind. eapply wp_put_ut; [exact He1|].
  apply wp_ret, wp_ret. split_and!.
  - apply (ut_ok_set_ut _ (set_slot_cur _ _)); [done|exact He1'|apply u64_range].
  - etrans; [done|]. apply (set_ut_le (set_slot_cur _ _)). exact He1'.
  - intros c [= <-] _. rewrite <-(le_end _ _ Hle1). simpl. pose proof (le_cur _ _ Hle1). lia.
Qed.
End specs.

(** ** Runs of the allocator *)

Inductive ut_op :=
  | OpSlot
  | OpAdvance (n : Z)
  | OpAlloc (ty : kobject) (bits cnode index depth : Z)
  | OpCap (ty : kobject) (bits : Z)
  | OpPhys (out_null : bool) (paddr : Z) (ty : kobject) (page_bits : Z)
  | OpDeviceFrame (paddr cnode slot : Z)
  | OpDeviceTyped (out_null : bool) (paddr : Z) (ty : kobject) (page_bits : Z)
  | OpDevice (paddr : Z).

(** The slot that the caller received, if any. *)
Definition received (o : option Z) : list Z :=
  match o with
  | Some c => if c =? seL4_CapNull then [] else [c]
  | None => []
  end.

Definition ut_exec {K} `{Kernel K} `{UtConfig} (op : ut_op) : kprog K ut_state (list Z) :=
  match op with
  | OpSlot => c ← ut_alloc_slot; mret (received (Some c))
  | OpAdvance n => kmodify (ut_advance_slot_cursor n);; mret []
  | OpAlloc ty bits cnode index depth => ut_alloc ty bits cnode index depth;; mret []
  | OpCap ty bits => r ← ut_alloc_cap ty bits; mret (received r.2)
  | OpPhys null paddr ty pb => r ← ut_alloc_phys_cap_typed null paddr ty pb; mret (received r.2)
  | OpDeviceFrame paddr cnode slot => ut_alloc_device_frame paddr cnode slot;; mret []
  | OpDeviceTyped null paddr ty pb =>
      r ← ut_alloc_device_cap_typed null paddr ty pb; mret (received r.2)
  | OpDevice paddr => r ← ut_alloc_device_cap paddr; mret (received r.2)
  end.

Fixpoint ut_run {K} `{Kernel K} `{UtConfig} (ops : list ut_op) : kprog K ut_state (list Z) :=
  match ops with
  | [] => mret []
  | op :: ops => cs ← ut_exec op; cs' ← ut_run ops; mret (cs ++ cs')
  end.

(** The arguments that callers may pass. *)
Definition op_valid {K} `{Kernel K} (op : ut_op) : Prop :=
  match op with
  | OpAdvance n => 0 <= n < 2 ^ 63
  | OpDeviceTyped _ paddr ty pb =>
      0 <= paddr /\ paddr + 2 ^ pb < 2 ^ 64 /\ retype_bits ty 0 = pb
  | OpDevice _ => kbits seL4_SmallPageObject = 12
  | _ => True
  end.

Definition no_acc {K : Type} (k : K) (cap n : Z) : Prop := True.

Lemma no_acc_maintained {K} `{Kernel K} : acc_maintained (no_acc (K := K)).
Proof. intros k k' e cap ty bits root index depth slot _. by split_and!. Qed.

Section runs.
Context {K : Type} `{Kernel K} `{UtConfig}.
Implicit Types ws : kworld K * ut_state.

Lemma advance_cursor_ok ws n :
  ut_wf ws.2 -> 0 <= n < 2 ^ 63 ->
  ut_wf (ut_advance_slot_cursor n ws.2) /\ ut_le ws.2 (ut_advance_slot_cursor n ws.2).
Proof.
  intros Hwf Hn. destruct (wf_slots _ Hwf). unfold ut_advance_slot_cursor.
  rewrite u64_small by (unfold is_u64; lia).
  case_cmp; (split; [apply set_slot_cur_wf|apply set_slot_cur_le]); (done || lia).
Qed.

Lemma wp_device_frame paddr cnode slot ws :
  ut_ok no_acc ws ->
  wp (ut_alloc_device_frame paddr cnode slot) (fun _ ws' =>
    ut_ok no_acc ws' /\ ws'.2 = ws.2) ws.
Proof.
  intros Hok. unfold ut_alloc_device_frame. apply wp_bind, wp_kget, wp_bind.
  apply (wp_for (fun _ _ ws' => ut_ok no_acc ws' /\ ws'.2 = ws.2)); [done| |by intros; apply wp_ret].
  intros i a [w s] Hi [Hok' Hs]. simpl in Hs. subst s.
  destruct (aget_lt (g_dev_ut ws.2) i) as [e He]; [lia|].
  apply wp_bind. eapply wp_get_dev; [exact He|]. kstep; [by apply wp_ret|].
  apply wp_bind, wp_ksys. intros r k. apply wp_ret, wp_ret. split; [|done].
  split; [apply Hok|done].
Qed.

(** Every slot that an operation gives out lies between the cursor before and
    the cursor after. *)
Definition exec_post ws (cs : list Z) (ws' : kworld K * ut_state) : Prop :=
  ut_ok no_acc ws' /\ ut_le ws.2 ws'.2 /\
  (cs = [] \/ exists c, cs = [c] /\ g_slot_cur ws.2 <= c < g_slot_cur ws'.2).

Lemma exec_post_received ws r ws' :
  slot_post no_acc ws r ws' -> exec_post ws (received r.2) ws'.
Proof.
  intros (Hok & Hle & Hf). split; [done|]. split; [done|].
  unfold received. destruct r.2 as [c|] eqn:E; [|by left].
  destruct (Z.eqb_spec c seL4_CapNull); [by left|]. right. exists c. split; [done|].
  by apply Hf.
Qed.

Lemma alloc_slot_post ty paddr ws r ws' : alloc_post no_acc ty paddr ws r ws' -> slot_post no_acc ws r ws'.
Proof. by intros (? & ? & ? & _). Qed.

Lemma wp_ut_exec op ws : ut_ok no_acc ws -> op_valid op -> wp (ut_exec op) (exec_post ws) ws.
Proof.
  pose proof (no_acc_maintained (K := K)) as Ha. intros Hok Hv. destruct op; simpl; apply wp_bind.
  - apply (wp_alloc_slot no_acc); [done|apply wp_ret; by split_and!; [done..|left]|].
    intros Hlt Hok1 Hle Hnz. apply wp_ret. unfold received. rewrite (proj2 (Z.eqb_neq _ _) Hnz).
    split; [done|]. split; [done|]. right. eexists. split; [done|]. simpl. lia.
  - destruct (advance_cursor_ok ws n) as [Hwf Hle]; [apply Hok|done|].
    apply wp_kmodify, wp_ret. split; [by split|]. by split; [|left].
  - eapply wp_mono; [by apply (wp_ut_alloc no_acc)|]. intros r ws' (? & ? & _).
    apply wp_ret. split; [done|]. by split; [|left].
  - eapply wp_mono; [by apply (wp_ut_alloc_cap no_acc)|]. intros r ws' Hp.
    by apply wp_ret, exec_post_received.
  - eapply wp_mono; [by apply (wp_phys_cap_typed no_acc)|]. intros r ws' Hp.
    by apply wp_ret, exec_post_received.
  - eapply wp_mono; [by apply wp_device_frame|]. intros r ws' [? E].
    apply wp_ret. split; [done|]. rewrite E. by split; [|left].
  - destruct Hv as (? & ? & ?). eapply wp_mono; [by apply (wp_device_cap_typed no_acc)|].
    intros r ws' Hp. by eapply wp_ret, exec_post_received, alloc_slot_post.
  - eapply wp_mono; [by apply (wp_device_cap no_acc)|].
    intros r ws' Hp. by eapply wp_ret, exec_post_received, alloc_slot_post.
Qed.

Lemma wp_ut_run ops : forall ws,
  ut_ok no_acc ws -> Forall op_valid ops ->
  wp (ut_run ops) (fun cs ws' => ut_ok no_acc ws' /\ ut_le ws.2 ws'.2 /\
    StronglySorted Z.lt cs /\ Forall (fun c => g_slot_cur ws.2 <= c < g_slot_cur ws'.2) cs) ws.
Proof.
  induction ops as [|op ops IH]; intros ws Hok Hv; simpl.
  { apply wp_ret. split; [done|]. split; [done|]. by split; constructor. }
  apply Forall_cons in Hv as [Hv Hvs]. apply wp_bind. eapply wp_mono; [by apply wp_ut_exec|].
  intros cs ws1 (Hok1 & Hle1 & Hcs). apply wp_bind. eapply wp_mono; [by apply IH|].
  intros cs' ws2 (Hok2 & Hle2 & Hsort & Hall). apply wp_ret.
  split; [done|]. split; [by etrans|].
  pose proof (le_cur _ _ Hle1) as Hc1. pose proof (le_cur _ _ Hle2) as Hc2.
  assert (Forall (fun c => g_slot_cur ws.2 <= c < g_slot_cur ws2.2) cs') as Hall'.
  { eapply Forall_impl; [exact Hall|]. simpl. lia. }
  destruct Hcs as [->|(c & -> & Hc)]; simpl; [by split|]. split.
  - constructor; [done|]. eapply Forall_impl; [exact Hall|]. simpl. lia.
  - constructor; [lia|done].
Qed.
End runs.

(** ** The theorems *)

(** C35. Slots are handed out once. Whatever sequence of allocations the root
    task makes, and whatever the kernel answers, the run completes without
    reading outside a table, and the root-CNode slots that callers receive
    are strictly increasing, hence distinct, never null, and inside the free
    region of BootInfo from the cursor on. *)
Theorem ut_slots_fresh {K} `{Kernel K} `{UtConfig} (ws : kworld K * ut_state) ops :
  ut_wf ws.2 -> Forall op_valid ops ->
  exists cs ws', ut_run ops ws = Some (cs, ws') /\ ut_wf ws'.2 /\
    StronglySorted Z.lt cs /\
    Forall (fun c => c <> seL4_CapNull /\ g_slot_cur ws.2 <= c < g_slot_end ws.2) cs.
Proof.
  intros Hwf Hv. assert (ut_ok no_acc ws) as Hok by by split.
  destruct (wp_run _ _ _ (wp_ut_run ops ws Hok Hv)) as (cs & ws' & Hrun & Hok' & Hle & Hs & Hf).
  exists cs, ws'. split; [done|]. split; [apply Hok'|]. split; [done|].
  eapply Forall_impl; [exact Hf|]. simpl. intros c Hc.
  pose proof (wf_slots _ (ok_wf _ _ Hok')) as [[_ Hcur] _]. rewrite (le_end _ _ Hle) in Hcur.
  pose proof (wf_slots _ Hwf) as [[Hpos _] _]. unfold seL4_CapNull. lia.
Qed.

(** C37. Skipping in device memory is bounded and exact. For every kernel, a
    call of [device_advance] returns after at most 128 retypes (twice the
    word width, however many pages are skipped) and when it reports success
    the recorded watermark of the entry is exactly the target page, with the
    entry's capability and range unchanged. *)
Theorem device_advance_bounded {K} `{Kernel K} `{UtConfig} (ws : kworld K * ut_state) i target e :
  ut_wf ws.2 -> aget (g_dev_ut ws.2) i = Some e -> 0 <= target < 2 ^ 64 ->
  exists r ws', device_advance i target ws = Some (r, ws') /\
    (length (kw_log ws'.1) <= length (kw_log ws.1) + 2 * 64)%nat /\
    (r = seL4_NoError -> exists e', aget (g_dev_ut ws'.2) i = Some e' /\
       shape e' = shape e /\ ue_pages_used e' = target).
Proof.
  intros Hwf Hi Ht. assert (ut_ok no_acc ws) as Hok by by split.
  destruct (wp_run _ _ _ (wp_device_advance no_acc no_acc_maintained i target e ws Hok Hi Ht))
    as (r & ws' & Hrun & _ & _ & Hl & Hr). eauto.
Qed.

(** The recorded watermarks of the device untypeds are the kernel's. *)
Definition watermark {K} `{UntypedKernel K} (k : K) (cap n : Z) : Prop := k_free k cap = n * 4096.

Definition dev_accounted {K} `{UntypedKernel K} (ws : kworld K * ut_state) : Prop :=
  forall e, e ∈ g_dev_ut ws.2 -> k_free (kw_kernel ws.1) (ue_cap e) = ue_pages_used e * 4096.

Lemma align_up_id n b : 12 <= b -> n mod 2 ^ (b - 12) = 0 -> align_up (n * 4096) b = n * 4096.
Proof.
  intros Hb Hm. unfold align_up. apply Z.mod_divide in Hm as [q ->]; [|lia].
  assert (2 ^ (b - 12) * 4096 = 2 ^ b) as Hp.
  { change 4096 with (2 ^ 12). rewrite <-Z.pow_add_r by lia. f_equal. lia. }
  replace (q * 2 ^ (b - 12) * 4096) with (q * 2 ^ b) by lia.
  replace (q * 2 ^ b + 2 ^ b - 1) with (2 ^ b - 1 + q * 2 ^ b) by lia.
  rewrite Z.div_add, Z.div_small by lia. lia.
Qed.

Lemma watermark_maintained {K} `{UntypedKernel K} : acc_maintained (watermark (K := K)).
Proof.
  intros k k' e cap ty bits root index depth slot Hk. unfold watermark. split_and!.
  - intros cap' n Hne Hn. destruct (decide (e = seL4_NoError)) as [->|He].
    + destruct (retype_done _ _ _ _ _ _ _ _ _ Hk) as [_ Ho]. by rewrite Ho.
    + by rewrite (retype_refused _ _ _ _ _ _ _ _ _ _ Hk He).
  - intros He n Hn. by rewrite (retype_refused _ _ _ _ _ _ _ _ _ _ Hk He).
  - intros -> n Hb Hm Hn. destruct (retype_done _ _ _ _ _ _ _ _ _ Hk) as [-> _].
    rewrite Hn, align_up_id by done.
    assert (2 ^ retype_bits ty bits = 2 ^ (retype_bits ty bits - 12) * 4096) as ->; [|lia].
    change 4096 with (2 ^ 12). rewrite <-Z.pow_add_r by lia. f_equal. lia.
Qed.

(** Capability [c] is for the object at physical address [paddr]. *)
Definition placed_at_paddr {K} `{UntypedKernel K} (s : ut_state) (k : K) (paddr c : Z) : Prop :=
  exists e, e ∈ g_dev_ut s /\ ue_paddr e <= paddr < ue_paddr e + 2 ^ ue_size_bits e /\
    k_place k c = Some (ue_cap e, paddr - ue_paddr e).

Lemma retyped_placed {K} `{UntypedKernel K} ty paddr (ws ws' : kworld K * ut_state) c :
  ut_wf ws.2 -> Forall (fun e => 12 <= ue_size_bits e) (g_dev_ut ws.2) ->
  paddr mod 4096 = 0 -> 12 <= retype_bits ty 0 ->
  retyped_at watermark ty paddr ws ws' c -> placed_at_paddr ws.2 (kw_kernel ws'.1) paddr c.
Proof.
  intros Hwf Hsz Hal Hb (e & n & k & He & Hc & -> & Hk & Hm & Hinv).
  exists e. split; [done|]. split; [done|]. rewrite (retype_placed _ _ _ _ _ _ Hinv).
  unfold watermark in Hk. rewrite Hk, align_up_id by done. do 2 f_equal.
  rewrite Forall_forall in Hsz. pose proof (Hsz e He).
  pose proof (wf_dev _ Hwf) as Hd. rewrite Forall_forall in Hd.
  destruct (Hd e He) as (_ & _ & _ & _ & Hp).
  apply (mod_pow_le _ 12) in Hp; [|lia]. change (2 ^ 12) with 4096 in Hp.
  Z.div_mod_to_equations. lia.
Qed.

(** C36. Device frames are at the address asked for. With a kernel that
    allocates from untyped memory at a watermark, as seL4 documents, both
    device allocators return, keep the recorded watermarks equal to the
    kernel's on every path including errors, store a null capability on
    error, and on success store the capability of an object whose physical
    address is exactly [paddr], inside the device untyped that covers it. *)
Theorem device_caps_placed {K} `{UntypedKernel K} `{UtConfig} (ws : kworld K * ut_state)
    paddr ty page_bits :
  ut_wf ws.2 -> dev_accounted ws -> Forall (fun e => 12 <= ue_size_bits e) (g_dev_ut ws.2) ->
  kbits seL4_SmallPageObject = 12 ->
  0 <= paddr -> paddr mod 4096 = 0 ->
  12 <= page_bits -> paddr + 2 ^ page_bits < 2 ^ 64 -> retype_bits ty 0 = page_bits ->
  forall routine, routine = ut_alloc_device_cap paddr \/
    routine = ut_alloc_device_cap_typed false paddr ty page_bits ->
  exists r ws', routine ws = Some (r, ws') /\ ut_wf ws'.2 /\ dev_accounted ws' /\
    match r with
    | (seL4_NoError, Some c) =>
        c <> seL4_CapNull /\ placed_at_paddr ws.2 (kw_kernel ws'.1) paddr c
    | (seL4_NoError, None) => False
    | (_, o) => o = Some seL4_CapNull \/ o = None
    end.
Proof.
  intros Hwf Hd Hsz Hsmall Hp Hal Hpb Hfit Hty routine Hr.
  assert (ut_ok watermark ws) as Hok by by split.
  assert (exists t, 12 <= retype_bits t 0 /\ wp routine (alloc_post watermark t paddr ws) ws)
    as (t & Ht & Hwp).
  { destruct Hr as [-> | ->].
    - exists seL4_SmallPageObject. split; [simpl; lia|].
      by apply (wp_device_cap _ watermark_maintained).
    - exists ty. split; [lia|]. by apply (wp_device_cap_typed _ watermark_maintained). }
  destruct (wp_run _ _ _ Hwp) as ([err o] & ws' & Hrun & Hok' & Hle & _ & Hs & Hf).
  exists (err, o), ws'. split; [done|]. split; [apply Hok'|]. split; [exact (ok_acc _ _ Hok')|]. simpl in *.
  destruct err; try (destruct (Hf ltac:(done)); auto).
  destruct (Hs eq_refl) as (c & -> & Hnz & Hat). split; [done|]. by eapply retyped_placed.
Qed.

(** ** A kernel with watermarks, for the examples *)

Record wm_kernel := mk_wm { wm_free : gmap Z Z; wm_place : gmap Z (Z * Z) }.

Definition wm_bits (ty : kobject) : Z :=
  match ty with seL4_SmallPageObject => 12 | seL4_LargePageObject => 21 | _ => 10 end.

Definition wm_obj_bits (ty : kobject) (size_bits : Z) : Z :=
  match ty with
  | seL4_UntypedObject | seL4_SchedContextObject => size_bits
  | seL4_CapTableObject => size_bits + 5
  | _ => wm_bits ty
  end.

#[global] Instance wm_kernel_kernel : Kernel wm_kernel :=
  { kinvoke := fun c k =>
      match c with
      | Untyped_Retype ut ty bits root index depth slot _ =>
          let b := wm_obj_bits ty bits in
          let off := align_up (default 0 (wm_free k !! ut)) b in
          (seL4_NoError, mk_wm (<[ut := off + 2 ^ b]> (wm_free k))
             (if (root =? seL4_CapInitThreadCNode) && (depth =? 0)
              then <[slot := (ut, off)]> (wm_place k) else wm_place k))
      | _ => (seL4_NoError, k)
      end;
    kbits := wm_bits }.

#[global] Program Instance wm_kernel_untyped : UntypedKernel wm_kernel :=
  { k_free := fun k cap => default 0 (wm_free k !! cap);
    k_place := fun k slot => wm_place k !! slot }.
Next Obligation.
  intros k k' ut ty bits root index depth slot [= <-]. simpl. rewrite lookup_insert_eq.
  split; [by destruct ty|]. intros ut' Hne. by rewrite lookup_insert_ne by done.
Qed.
Next Obligation.
  intros k k' ut ty bits slot [= <-]. simpl. rewrite lookup_insert_eq. by destruct ty.
Qed.
Next Obligation. intros k k' e ut ty bits root index depth slot [= <- _] He. done. Qed.

#[global] Instance ut_config_example : UtConfig :=
  { config_kernel_mcs := true; config_vcpu_case := false }.

(** One ordinary untyped and one device untyped of 256 KiB at 0x9000000. *)
Definition ut_example : kworld wm_kernel * ut_state :=
  (mk_kworld (mk_wm ∅ ∅) [],
   mk_ut_state [mk_ut_entry 40 0x40000000 0 24] 0 [mk_ut_entry 41 0x9000000 0 18] 100 100 200).

Lemma ut_example_wf : ut_wf ut_example.2.
Proof.
  split; [by_compute..| | |by_compute].
  - constructor; [|constructor]. by_compute.
  - constructor; [|constructor]. by_compute.
Qed.

Lemma ut_slots_fresh_witness :
  exists cs ws', ut_run [OpCap seL4_TCBObject 0; OpDevice 0x9003000; OpSlot] ut_example
      = Some (cs, ws') /\ ut_wf ws'.2 /\ StronglySorted Z.lt cs /\
    Forall (fun c => c <> seL4_CapNull /\ 100 <= c < 200) cs.
Proof.
  apply (ut_slots_fresh ut_example); [apply ut_example_wf|].
  repeat constructor.
Defined.

Lemma device_advance_bounded_witness :
  exists r ws', device_advance 0 45 ut_example = Some (r, ws') /\
    (length (kw_log ws'.1) <= 128)%nat /\
    (r = seL4_NoError -> exists e', aget (g_dev_ut ws'.2) 0 = Some e' /\
       shape e' = (41, 0x9000000, 18) /\ ue_pages_used e' = 45).
Proof.
  apply (device_advance_bounded ut_example 0 45 (mk_ut_entry 41 0x9000000 0 18));
    [apply ut_example_wf|reflexivity|by_compute].
Defined.

Lemma device_caps_placed_witness :
  exists r ws', ut_alloc_device_cap 0x9003000 ut_example = Some (r, ws') /\ ut_wf ws'.2 /\
    dev_accounted ws' /\
    match r with
    | (seL4_NoError, Some c) =>
        c <> seL4_CapNull /\ placed_at_paddr ut_example.2 (kw_kernel ws'.1) 0x9003000 c
    | (seL4_NoError, None) => False
    | (_, o) => o = Some seL4_CapNull \/ o = None
    end.
Proof.
  apply (device_caps_placed ut_example 0x9003000 seL4_SmallPageObject 12);
    [apply ut_example_wf| |constructor; [by_compute|constructor]|by_compute..|by left].
  intros e He. apply list_elem_of_singleton in He as ->. reflexivity.
Defined.

(** ** Initialisation *)

(** The entries of the descriptors [ds] whose device flag is [dev], in order,
    where descriptor [i] is the capability [start + i]. *)
Definition desc_entry (start : Z) (dev : bool) (i : nat) (d : seL4_UntypedDesc) : option ut_entry :=
  if bool_decide (negb (ud_isDevice d =? 0) = dev)
  then Some (mk_ut_entry (start + Z.of_nat i) (ud_paddr d) 0 (ud_sizeBits d)) else None.

Definition desc_entries (start : Z) (dev : bool) (ds : list seL4_UntypedDesc) : list ut_entry :=
  omap id (imap (desc_entry start dev) ds).

Lemma desc_entries_snoc start dev ds d :
  desc_entries start dev (ds ++ [d])
    = desc_entries start dev ds ++
      (if bool_decide (negb (ud_isDevice d =? 0) = dev)
       then [mk_ut_entry (start + Z.of_nat (length ds)) (ud_paddr d) 0 (ud_sizeBits d)] else []).
Proof.
  unfold desc_entries. rewrite imap_app, omap_app. f_equal. simpl. rewrite Nat.add_0_r.
  unfold desc_entry. by case_bool_decide.
Qed.

Lemma desc_entries_length start dev ds : (length (desc_entries start dev ds) <= length ds)%nat.
Proof.
  induction ds as [|d ds IH] using rev_ind; [done|].
  rewrite desc_entries_snoc, !length_app. case_bool_decide; simpl; lia.
Qed.

(** Initialisation loses no memory and invents none: from a BootInfo whose
    untyped region fits its descriptor table, the ordinary and the device
    table hold exactly the ordinary and the device descriptors, in order,
    each with its own capability and an empty watermark, and the slot cursor
    stands at the start of the free region. *)
Theorem ut_init_exact bi :
  let n := untyped_end bi - untyped_start bi in
  0 <= untyped_start bi -> untyped_end bi < 2 ^ 64 ->
  0 <= n <= Z.of_nat (length (untypedList bi)) -> n < 2 ^ 32 ->
  ut_alloc_init (Some bi) tt = Some
    (mk_ut_state (desc_entries (untyped_start bi) false (aslice (untypedList bi) 0 n)) 0
       (desc_entries (untyped_start bi) true (aslice (untypedList bi) 0 n))
       (empty_start bi) (empty_start bi) (empty_end bi), tt).
Proof.
  intros n Hs He Hn Hn32. unfold ut_alloc_init, UT_MAX_CAPS. fold n.
  rewrite (u32_small n) by (unfold is_u32; lia).
  destruct (Z.ltb_spec (Z.of_nat (length (untypedList bi))) n); [lia|].
  set (st := fun i => mk_ut_state
    (desc_entries (untyped_start bi) false (take i (untypedList bi))) 0
    (desc_entries (untyped_start bi) true (take i (untypedList bi)))
    (empty_start bi) (empty_start bi) (empty_end bi)).
  unfold aslice. rewrite drop_0. change (_ = _) with
    (for_loop (Z.to_nat n) 0 (st 0%nat) (ut_init_desc bi) tt = Some (st (Z.to_nat n), tt)).
  destruct (wp_run (for_loop (Z.to_nat n) 0 (st 0%nat) (ut_init_desc bi))
    (fun s _ => s = st (Z.to_nat n)) tt) as (s & [] & Hrun & ->); [|done].
  apply (wp_for (fun i s _ => s = st (Z.to_nat i))); [done| |].
  2:{ intros s [] ->. f_equal. lia. }
  intros i s [] Hi ->. unfold ut_init_desc. apply wp_bind.
  destruct (aget_lt (untypedList bi) i) as [d Hd]; [lia|].
  eapply wp_lift; [exact Hd|]. apply aget_Some in Hd as [_ Hd].
  assert (take (Z.to_nat (i + 1)) (untypedList bi)
    = take (Z.to_nat i) (untypedList bi) ++ [d]) as Htk.
  { rewrite Z2Nat.inj_add, Nat.add_1_r by lia. by apply take_S_r. }
  assert (st (Z.to_nat (i + 1)) = if negb (ud_isDevice d =? 0)
    then set_dev_ut (g_dev_ut (st (Z.to_nat i)) ++
           [mk_ut_entry (untyped_start bi + i) (ud_paddr d) 0 (ud_sizeBits d)]) (st (Z.to_nat i))
    else set_ut (g_ut (st (Z.to_nat i)) ++
           [mk_ut_entry (untyped_start bi + i) (ud_paddr d) 0 (ud_sizeBits d)]) (st (Z.to_nat i)))
    as Hst.
  { unfold st at 1. rewrite Htk, !desc_entries_snoc, length_take_le, Z2Nat.id by lia.
    destruct (negb (ud_isDevice d =? 0)); simpl; by rewrite app_nil_r. }
  rewrite u64_small by (unfold is_u64; lia). unfold UT_MAX_CAPS, g_dev_ut_count, g_ut_count.
  destruct (negb (ud_isDevice d =? 0)); apply wp_ret; cbn [fst snd].
  - pose proof (desc_entries_length (untyped_start bi) true (take (Z.to_nat i) (untypedList bi))).
    rewrite length_take in *. case_cmp; [by rewrite Hst|]. simpl in *. lia.
  - rewrite <-Hst.
    pose proof (desc_entries_length (untyped_start bi) false
      (take (Z.to_nat (i + 1)) (untypedList bi))).
    rewrite length_take in *. case_cmp; [|done]. simpl in *. f_equal. lia.
Qed.

Lemma ut_init_exact_witness :
  ut_alloc_init (Some (mk_bi 100 200 40 42 [mk_desc 0x40000000 24 0; mk_desc 0x9000000 18 1])) tt
    = Some (mk_ut_state [mk_ut_entry 40 0x40000000 0 24] 0 [mk_ut_entry 41 0x9000000 0 18]
              100 100 200, tt).
Proof.
  rewrite (ut_init_exact (mk_bi 100 200 40 42 [mk_desc 0x40000000 24 0; mk_desc 0x9000000 18 1]))
    by by_compute.
  reflexivity.
Defined.

(** ** Two routines that ignore part of the accounting *)

(** [ut_alloc_device_frame] retypes at the watermark of the untyped that covers
    the address and does not record it: asked for the page at 0x9003000 it
    consumes the page at 0x9000000, and the recorded watermark is then wrong. *)
Lemma device_frame_at_watermark :
  exists ws', ut_alloc_device_frame 0x9003000 7 3 ut_example = Some (seL4_NoError, ws') /\
    k_free (kw_kernel ws'.1) 41 = 0x1000 /\ ~ dev_accounted ws'.
Proof.
  eexists. split; [vm_compute; reflexivity|]. split; [reflexivity|]. intros Hd.
  specialize (Hd (mk_ut_entry 41 0x9000000 0 18) ltac:(left)). discriminate Hd.
Qed.

(** Objects smaller than a page are not counted by [ut_alloc], so that after
    one [ut_alloc_phys_cap_typed] places the frame asked for at 0x40001000
    one page too high. *)
Lemma phys_cap_misplaced :
  exists cs ws', ut_run [OpCap seL4_TCBObject 0; OpPhys false 0x40001000 seL4_SmallPageObject 12]
      ut_example = Some (cs, ws') /\
    cs = [100; 102] /\ k_place (kw_kernel ws'.1) 102 = Some (40, 0x2000).
Proof. do 2 eexists. split; [vm_compute; reflexivity|]. split; reflexivity. Qed.
