(* ===== verification/EpAlloc.v ===== *)
(** * The root task's endpoint pool

    Models kernel/agentos-root-task/src/ep_alloc.c on top of the untyped
    allocator of UtAlloc.v: endpoints are created on demand in a reserved
    range of root-CNode slots and registered under a service number. *)

From S2P Require Import Prelude Kernel UtAlloc.
From stdpp Require Import options.

Definition EP_SERVICE_TABLE_SIZE : Z := 64.

Record ep_service_entry := mk_svc { service_id : Z; ep_cap : Z }.

(** The static variables; [g_svc_table] holds the [g_svc_count] entries in
    use. *)
Record ep_state := mk_ep {
  g_root_cnode : Z; g_next_slot : Z; g_slot_limit : Z; g_svc_table : list ep_service_entry }.

Definition g_svc_count (p : ep_state) : Z := Z.of_nat (length (g_svc_table p)).

Definition ep_alloc_init (root_cnode first_slot pool_size : Z) : ep_state :=
  mk_ep root_cnode first_slot (u64 (first_slot + pool_size)) [].

Definition set_next_slot (n : Z) (p : ep_state) : ep_state :=
  mk_ep (g_root_cnode p) n (g_slot_limit p) (g_svc_table p).
Definition set_svc_table (l : list ep_service_entry) (p : ep_state) : ep_state :=
  mk_ep (g_root_cnode p) (g_next_slot p) (g_slot_limit p) l.

(** The first entry registered for [id]. *)
Fixpoint svc_lookup (l : list ep_service_entry) (id : Z) : Z :=
  match l with
  | [] => seL4_CapNull
  | e :: l => if service_id e =? id then ep_cap e else svc_lookup l id
  end.

Definition ep_find_by_service_id (p : ep_state) (id : Z) : Z :=
  if id =? 0 then seL4_CapNull else svc_lookup (g_svc_table p) id.

(** Both modules' state. *)
Abbreviation boot_state := (ut_state * ep_state)%type.

Section ops.
Context {K : Type} `{Kernel K} `{UtConfig}.

(** A call into ut_alloc.c. *)
Definition in_ut {A} (m : kprog K ut_state A) : kprog K boot_state A := fun ws =>
  match m (ws.1, ws.2.1) with
  | Some (a, (w, u)) => Some (a, (w, (u, ws.2.2)))
  | None => None
  end.

Definition ep_set (f : ep_state -> ep_state) : kprog K boot_state unit :=
  kmodify (fun s => (s.1, f s.2)).

Definition ep_alloc : kprog K boot_state Z :=
  s ← kget;
  if g_slot_limit s.2 <=? g_next_slot s.2 then mret seL4_CapNull else
  let slot := g_next_slot s.2 in
  err ← in_ut (ut_alloc seL4_EndpointObject 0 (g_root_cnode s.2) slot 64);
  if negb (bool_decide (err = seL4_NoError)) then mret seL4_CapNull else
  ep_set (set_next_slot (u64 (slot + 1)));;
  mret slot.

Definition ep_mint_badge (src_ep badge dest_cnode dest_slot dest_depth : Z) :
    kprog K boot_state seL4_Error :=
  s ← kget;
  ksys (CNode_Mint dest_cnode dest_slot (u8 dest_depth) (g_root_cnode s.2) src_ep 64
          seL4_AllRights badge).

Definition ep_alloc_for_service (id : Z) : kprog K boot_state Z :=
  s ← kget;
  let existing := ep_find_by_service_id s.2 id in
  if negb (existing =? seL4_CapNull) then mret existing else
  ep ← ep_alloc;
  if ep =? seL4_CapNull then mret seL4_CapNull else
  s ← kget;
  if EP_SERVICE_TABLE_SIZE <=? g_svc_count s.2 then mret ep else
  ep_set (fun p => set_svc_table (g_svc_table p ++ [mk_svc id ep]) p);;
  mret ep.

(** ** Runs *)

Inductive ep_step : kworld K * boot_state -> kworld K * boot_state -> Prop :=
  | step_ep_alloc r ws ws' : ep_alloc ws = Some (r, ws') -> ep_step ws ws'
  | step_ep_service id r ws ws' :
      is_u16 id -> ep_alloc_for_service id ws = Some (r, ws') -> ep_step ws ws'
  | step_ep_mint src badge cnode slot depth r ws ws' :
      ep_mint_badge src badge cnode slot depth ws = Some (r, ws') -> ep_step ws ws'.
End ops.

(** Registered endpoints are distinct slots of the pool, below the next free
    one, and no service is registered twice. *)
Record ep_wf (p : ep_state) : Prop := {
  ep_slots : 0 < g_next_slot p /\ g_slot_limit p < 2 ^ 64;
  ep_caps : Forall (fun e => 0 < ep_cap e < g_next_slot p) (g_svc_table p);
  ep_caps_nodup : NoDup (ep_cap <$> g_svc_table p);
  ep_ids_nodup : NoDup (filter (fun i => i <> 0) (service_id <$> g_svc_table p));
  ep_size : g_svc_count p <= EP_SERVICE_TABLE_SIZE }.

Definition boot_ok {K} (ws : kworld K * boot_state) : Prop := ut_wf ws.2.1 /\ ep_wf ws.2.2.

(** A later pool: it keeps every registration. *)
Definition ep_le (p p' : ep_state) : Prop :=
  g_next_slot p <= g_next_slot p' /\ g_svc_table p `prefix_of` g_svc_table p'.

#[global] Instance ep_le_preorder : PreOrder ep_le.
Proof.
  split; [by intros p; split|]. intros p1 p2 p3 [? ?] [? ?]. split; [lia|by etrans].
Qed.

(** ** Lemmas *)

Lemma svc_lookup_Some l id :
  svc_lookup l id <> seL4_CapNull -> exists e, e ∈ l /\ service_id e = id /\ ep_cap e = svc_lookup l id.
Proof.
  induction l as [|e l IH]; simpl; [done|]. intros Hne.
  destruct (Z.eqb_spec (service_id e) id); [exists e; by split; [left|]|].
  destruct (IH Hne) as (e' & ? & ? & ?). exists e'. by split; [right|].
Qed.

Lemma svc_lookup_None l id :
  Forall (fun e => 0 < ep_cap e) l ->
  svc_lookup l id = seL4_CapNull -> id ∉ (service_id <$> l).
Proof.
  induction 1 as [|e l He _ IH]; simpl; [intros _; apply not_elem_of_nil|].
  destruct (Z.eqb_spec (service_id e) id); intros Hl; [unfold seL4_CapNull in *; lia|].
  apply not_elem_of_cons. split; [congruence|by apply IH].
Qed.

Lemma svc_lookup_prefix l l' id :
  l `prefix_of` l' -> svc_lookup l id <> seL4_CapNull -> svc_lookup l' id = svc_lookup l id.
Proof.
  intros [k ->]. induction l as [|e l IH]; simpl; [done|]. intros Hne.
  case_cmp; [done|]. by apply IH.
Qed.

Section proofs.
Context {K : Type} `{Kernel K} `{UtConfig}.
Implicit Types ws : kworld K * boot_state.

Lemma wp_in_ut {A} (m : kprog K ut_state A) (Q : A -> kworld K * boot_state -> Prop) ws :
  wp m (fun a r => Q a (r.1, (r.2, ws.2.2))) (ws.1, ws.2.1) -> wp (in_ut m) Q ws.
Proof. unfold wp, in_ut. by destruct (m (ws.1, ws.2.1)) as [[a [w u]]|]. Qed.

Lemma set_next_slot_wf p n : ep_wf p -> g_next_slot p <= n -> ep_wf (set_next_slot n p).
Proof.
  intros [] Hn. split; try done; simpl; [lia|].
  eapply Forall_impl; [exact ep_caps0|]. simpl. lia.
Qed.

(** An endpoint is new, and the pool then starts after it. *)
Lemma wp_ep_alloc ws :
  boot_ok ws ->
  wp ep_alloc (fun r ws' => boot_ok ws' /\ g_svc_table ws'.2.2 = g_svc_table ws.2.2 /\
    (r = seL4_CapNull /\ ws'.2.2 = ws.2.2 \/
     r = g_next_slot ws.2.2 /\ g_next_slot ws'.2.2 = r + 1 /\ r < g_slot_limit ws.2.2)) ws.
Proof.
  intros [Hu Hp]. unfold ep_alloc. apply wp_bind, wp_kget.
  destruct (Z.leb_spec (g_slot_limit ws.2.2) (g_next_slot ws.2.2)).
  { apply wp_ret. split; [done|]. by split; [|left]. }
  apply wp_bind, wp_in_ut. eapply wp_mono.
  { apply (wp_ut_alloc no_acc no_acc_maintained). by split. }
  intros r [w u] (Hok & _ & _). pose proof (ep_slots _ Hp) as [? ?]. kstep.
  { apply wp_ret. split; [split; [apply Hok|done]|]. by split; [|left]. }
  apply wp_bind, wp_kmodify, wp_ret. simpl. rewrite u64_small by (unfold is_u64; lia).
  split; [split; [apply Hok|apply set_next_slot_wf; [done|lia]]|]. split; [done|]. by right.
Qed.

Lemma register_wf p id c :
  ep_wf p -> 0 < c < g_next_slot p -> Forall (fun e => ep_cap e < c) (g_svc_table p) ->
  (id <> 0 -> id ∉ (service_id <$> g_svc_table p)) -> g_svc_count p < EP_SERVICE_TABLE_SIZE ->
  ep_wf (set_svc_table (g_svc_table p ++ [mk_svc id c]) p).
Proof.
  intros [] Hc Hlt Hid Hn. unfold EP_SERVICE_TABLE_SIZE in *. split; simpl; [done|..].
  - apply Forall_app. split; [done|]. by constructor.
  - rewrite fmap_app. apply NoDup_app. split; [done|]. split; [|apply NoDup_singleton].
    intros x (e & -> & He)%list_elem_of_fmap Hx. apply list_elem_of_singleton in Hx.
    rewrite Forall_forall in Hlt. specialize (Hlt e He). simpl in Hx. lia.
  - rewrite fmap_app, filter_app. simpl. destruct (decide (id = 0)) as [->|Hne].
    + rewrite filter_cons_False by tauto. by rewrite app_nil_r.
    + rewrite filter_cons_True by done. apply NoDup_app. split; [done|].
      split; [|apply NoDup_singleton].
      intros x [_ Hx]%list_elem_of_filter ->%list_elem_of_singleton. by apply Hid.
  - unfold g_svc_count in *. simpl. rewrite length_app. unfold EP_SERVICE_TABLE_SIZE. simpl. lia.
Qed.

Lemma find_registered p id c :
  id <> 0 -> c <> seL4_CapNull -> id ∉ (service_id <$> g_svc_table p) ->
  ep_find_by_service_id (set_svc_table (g_svc_table p ++ [mk_svc id c]) p) id = c.
Proof.
  intros Hid Hc. unfold ep_find_by_service_id. simpl.
  rewrite (proj2 (Z.eqb_neq _ _) Hid).
  induction (g_svc_table p) as [|e l IH]; simpl; [by rewrite Z.eqb_refl|].
  rewrite not_elem_of_cons. intros [Hne Hl].
  destruct (Z.eqb_spec (service_id e) id); [congruence|by apply IH].
Qed.

Lemma wp_ep_service id ws :
  boot_ok ws ->
  wp (ep_alloc_for_service id) (fun r ws' => boot_ok ws' /\ ep_le ws.2.2 ws'.2.2 /\
    (ep_find_by_service_id ws.2.2 id <> seL4_CapNull ->
       r = ep_find_by_service_id ws.2.2 id /\ ws' = ws) /\
    (id <> 0 -> r <> seL4_CapNull -> g_svc_count ws.2.2 < EP_SERVICE_TABLE_SIZE ->
       ep_find_by_service_id ws'.2.2 id = r)) ws.
Proof.
  intros Hok. unfold ep_alloc_for_service. apply wp_bind, wp_kget.
  destruct (Z.eqb_spec (ep_find_by_service_id ws.2.2 id) seL4_CapNull) as [Hnone|Hsome]; simpl.
  2:{ apply wp_ret. split; [done|]. split; [done|]. by split. }
  pose proof Hok as [_ Hp]. assert (id <> 0 -> id ∉ (service_id <$> g_svc_table ws.2.2)) as Hid.
  { intros Hne. apply svc_lookup_None.
    - eapply Forall_impl; [apply (ep_caps _ Hp)|]. simpl. lia.
    - unfold ep_find_by_service_id in Hnone. by rewrite (proj2 (Z.eqb_neq _ _) Hne) in Hnone. }
  apply wp_bind. eapply wp_mono; [by apply wp_ep_alloc|]. intros r ws1 (Hok1 & Ht & Hr).
  destruct Hr as [[-> Heq]|(-> & Hnext & Hlim)].
  { apply wp_ret. rewrite Heq. split; [done|]. split; [done|]. by split. }
  pose proof (ep_slots _ Hp) as [Hpos _].
  assert (g_next_slot ws.2.2 <> seL4_CapNull) as Hnz by (unfold seL4_CapNull; lia).
  rewrite (proj2 (Z.eqb_neq _ _) Hnz). apply wp_bind, wp_kget. unfold g_svc_count. rewrite Ht.
  fold (g_svc_count ws.2.2). destruct (Z.leb_spec EP_SERVICE_TABLE_SIZE (g_svc_count ws.2.2)).
  { apply wp_ret. split; [done|]. split; [split; [lia|by rewrite Ht]|]. split; [done|lia]. }
  apply wp_bind, wp_kmodify, wp_ret. simpl. destruct Hok1 as [Hu1 Hp1].
  assert (g_svc_count ws1.2.2 = g_svc_count ws.2.2) as Hcnt by (unfold g_svc_count; by rewrite Ht).
  split; [split; [done|]|].
  { apply register_wf; rewrite ?Ht, ?Hcnt; try done; simpl; [lia|].
    eapply Forall_impl; [apply (ep_caps _ Hp)|]. simpl. lia. }
  split; [split; simpl; [lia|rewrite Ht; by eexists]|]. split; [done|].
  intros Hne _ _. apply find_registered; rewrite ?Ht; auto.
Qed.

Lemma ep_step_ok ws ws' : ep_step ws ws' -> boot_ok ws -> boot_ok ws' /\ ep_le ws.2.2 ws'.2.2.
Proof.
  intros Hst Hok. destruct Hst as [r ws ws' Hr|id r ws ws' _ Hr|? ? ? ? ? r ws ws' Hr];
    eapply (wp_result _ (fun _ ws' => boot_ok ws' /\ ep_le ws.2.2 ws'.2.2)); try exact Hr.
  - eapply wp_mono; [by apply wp_ep_alloc|]. intros a ws1 (? & Ht & Hcase).
    split; [done|]. split; [|by rewrite Ht]. destruct Hcase as [[_ ->]|(? & ? & _)]; lia.
  - eapply wp_mono; [by apply wp_ep_service|]. by intros a ws1 (? & ? & _).
  - destruct ws as [w s]. apply wp_bind, wp_kget, wp_ksys. by intros e k.
Qed.

Lemma ep_run_ok ws ws' : rtc ep_step ws ws' -> boot_ok ws -> boot_ok ws' /\ ep_le ws.2.2 ws'.2.2.
Proof.
  induction 1 as [|ws1 ws2 ws3 Hs _ IH]; intros Hok; [by split|].
  destruct (ep_step_ok _ _ Hs Hok) as [Hok2 Hle]. destruct (IH Hok2) as [? ?].
  split; [done|by etrans].
Qed.

(** Two services never share an endpoint. *)
Lemma find_inj p a b :
  ep_wf p -> ep_find_by_service_id p a <> seL4_CapNull ->
  ep_find_by_service_id p a = ep_find_by_service_id p b -> a = b.
Proof.
  unfold ep_find_by_service_id. intros Hp Ha Heq.
  destruct (Z.eqb_spec a 0); [done|]. destruct (Z.eqb_spec b 0); [congruence|].
  destruct (svc_lookup_Some _ _ Ha) as (e & He & Hia & Hca).
  rewrite Heq in Ha. destruct (svc_lookup_Some _ _ Ha) as (e' & He' & Hib & Hcb).
  apply list_elem_of_lookup in He as [i Hi], He' as [j Hj].
  assert (i = j) as ->; [|congruence].
  eapply NoDup_lookup; [apply (ep_caps_nodup _ Hp)| |]; rewrite list_lookup_fmap.
  - by rewrite Hi.
  - rewrite Hj. simpl. by rewrite Hcb, <-Heq, <-Hca.
Qed.
End proofs.

(** A service keeps one endpoint, and no two services share one. Along
    every run of endpoint allocations, registrations and mints, for every
    kernel, a registered service keeps its endpoint; distinct services have
    distinct endpoints; and in the state reached a further request for a
    service completes, returns the registered endpoint without asking the
    kernel for anything when there is one, and otherwise registers what it
    returns while the table has room. *)
Theorem ep_services_stable {K} `{Kernel K} `{UtConfig} (ws0 ws : kworld K * boot_state) :
  boot_ok ws0 -> rtc ep_step ws0 ws ->
  (forall id, ep_find_by_service_id ws0.2.2 id <> seL4_CapNull ->
     ep_find_by_service_id ws.2.2 id = ep_find_by_service_id ws0.2.2 id) /\
  (forall a b, ep_find_by_service_id ws.2.2 a <> seL4_CapNull ->
     ep_find_by_service_id ws.2.2 a = ep_find_by_service_id ws.2.2 b -> a = b) /\
  (forall id, exists r ws', ep_alloc_for_service id ws = Some (r, ws') /\
     (ep_find_by_service_id ws.2.2 id <> seL4_CapNull ->
        r = ep_find_by_service_id ws.2.2 id /\ ws' = ws) /\
     (id <> 0 -> r <> seL4_CapNull -> g_svc_count ws.2.2 < EP_SERVICE_TABLE_SIZE ->
        ep_find_by_service_id ws'.2.2 id = r)).
Proof.
  intros Hok Hr. destruct (ep_run_ok _ _ Hr Hok) as [Hok' [_ Hpre]]. split_and!.
  - intros id. unfold ep_find_by_service_id. case_cmp; [done|]. by apply svc_lookup_prefix.
  - intros a b. apply find_inj, Hok'.
  - intros id. destruct (wp_run _ _ _ (wp_ep_service id ws Hok')) as (r & ws' & ? & _ & _ & ? & ?).
    eauto.
Qed.

(** A pool of eight endpoints at slot 60 over the example allocator, with
    service 7 registered. *)
Definition ep_example : kworld wm_kernel * boot_state :=
  (ut_example.1, (ut_example.2, ep_alloc_init 2 60 8)).

Definition ep_example_7 : kworld wm_kernel * boot_state :=
  match ep_alloc_for_service 7 ep_example with Some (_, ws) => ws | None => ep_example end.

Lemma ep_services_stable_witness :
  (forall id, ep_find_by_service_id ep_example.2.2 id <> seL4_CapNull ->
     ep_find_by_service_id ep_example_7.2.2 id = ep_find_by_service_id ep_example.2.2 id) /\
  (forall a b, ep_find_by_service_id ep_example_7.2.2 a <> seL4_CapNull ->
     ep_find_by_service_id ep_example_7.2.2 a = ep_find_by_service_id ep_example_7.2.2 b -> a = b) /\
  (forall id, exists r ws', ep_alloc_for_service id ep_example_7 = Some (r, ws') /\
     (ep_find_by_service_id ep_example_7.2.2 id <> seL4_CapNull ->
        r = ep_find_by_service_id ep_example_7.2.2 id /\ ws' = ep_example_7) /\
     (id <> 0 -> r <> seL4_CapNull -> g_svc_count ep_example_7.2.2 < EP_SERVICE_TABLE_SIZE ->
        ep_find_by_service_id ws'.2.2 id = r)).
Proof.
  apply (ep_services_stable ep_example).
  - split; [apply ut_example_wf|]. split; [by_compute|constructor|constructor|constructor|by_compute].
  - apply rtc_once. apply (step_ep_service 7 60); [by_compute|vm_compute; reflexivity].
Defined.
