(* ===== verification/BootManifest.v ===== *)
(** * The signed boot manifest: structural validation and lookup

    Models kernel/agentos-root-task/src/boot_manifest.c: the bounds-safe
    validator of an untrusted manifest and the lookup of a protection
    domain's entry by name. A blob is its bytes; reading past them faults. *)

From S2P Require Import Prelude Bytes.
From stdpp Require Import options.

Definition AOS_BOOT_MANIFEST_MAGIC : Z := 0x314e414d42534f41.
Definition AOS_BOOT_MANIFEST_VERSION : Z := 1.
Definition AOS_BOOT_MANIFEST_MAX_PDS : Z := 32.
Definition AOS_BOOT_MANIFEST_SIG_LEN : Z := 64.
Definition AOS_BOOT_MANIFEST_NAME_LEN : Z := 48.

Definition AOS_BOOT_MANIFEST_OK : Z := 0.
Definition AOS_BOOT_MANIFEST_ERR_TOO_SHORT : Z := -1.
Definition AOS_BOOT_MANIFEST_ERR_MAGIC : Z := -2.
Definition AOS_BOOT_MANIFEST_ERR_VERSION : Z := -3.
Definition AOS_BOOT_MANIFEST_ERR_COUNT_ZERO : Z := -4.
Definition AOS_BOOT_MANIFEST_ERR_COUNT_MAX : Z := -5.
Definition AOS_BOOT_MANIFEST_ERR_TRUNCATED : Z := -6.
Definition AOS_BOOT_MANIFEST_ERR_BAD_ARGS : Z := -7.

(** sizeof(aos_boot_manifest_hdr_t) and sizeof(aos_boot_manifest_entry_t). *)
Definition SIZEOF_HDR : Z := 32.
Definition SIZEOF_ENTRY : Z := 80.

Record aos_boot_manifest_hdr := mk_hdr { hdr_magic : Z; hdr_version : Z; hdr_count : Z }.

(** A little-endian integer of [n] bytes at [off]. *)
Fixpoint read_le (blob : list Z) (off : Z) (n : nat) : option Z :=
  match n with
  | O => Some 0
  | S n => b ← aget blob off; r ← read_le blob (off + 1) n; Some (b + 256 * r)
  end.

(** memcpy of the whole header; the reserved bytes are read too. *)
Definition read_hdr (blob : list Z) : option aos_boot_manifest_hdr :=
  magic ← read_le blob 0 8;
  version ← read_le blob 8 4;
  count ← read_le blob 12 4;
  reserved ← read_le blob 16 16;
  Some (mk_hdr magic version count).

Definition required_size (count : Z) : Z :=
  u64 (u64 (SIZEOF_HDR + u64 (count * SIZEOF_ENTRY)) + AOS_BOOT_MANIFEST_SIG_LEN).

(** [blob] is [None] for NULL; the result is [None] when the code would read
    outside the blob. *)
Definition aos_boot_manifest_validate (blob : option (list Z)) (len : Z) : option Z :=
  match blob with
  | None => Some AOS_BOOT_MANIFEST_ERR_BAD_ARGS
  | Some blob =>
      if len <? SIZEOF_HDR then Some AOS_BOOT_MANIFEST_ERR_TOO_SHORT else
      hdr ← read_hdr blob;
      Some (if negb (hdr_magic hdr =? AOS_BOOT_MANIFEST_MAGIC) then AOS_BOOT_MANIFEST_ERR_MAGIC
      else if negb (hdr_version hdr =? AOS_BOOT_MANIFEST_VERSION)
      then AOS_BOOT_MANIFEST_ERR_VERSION
      else if hdr_count hdr =? 0 then AOS_BOOT_MANIFEST_ERR_COUNT_ZERO
      else if AOS_BOOT_MANIFEST_MAX_PDS <? hdr_count hdr then AOS_BOOT_MANIFEST_ERR_COUNT_MAX
      else if len <? required_size (hdr_count hdr) then AOS_BOOT_MANIFEST_ERR_TRUNCATED
      else AOS_BOOT_MANIFEST_OK)
  end.

(** The search key is a C string: [name] followed by its terminator. *)
Definition key_at (name : list Z) (i : Z) : option Z := aget (name ++ [0]) i.

(** The length of the key, capped at the field width. *)
Fixpoint key_length (fuel : nat) (name : list Z) (i : Z) : option Z :=
  match fuel with
  | O => Some i
  | S fuel => c ← key_at name i; if c =? 0 then Some i else key_length fuel name (i + 1)
  end.

(** The comparison loop: the index at which it stops. *)
Fixpoint match_prefix (fuel : nat) (blob : list Z) (entry : Z) (name : list Z) (j : Z) : option Z :=
  match fuel with
  | O => Some j
  | S fuel =>
      a ← aget blob (entry + j);
      b ← key_at name j;
      if negb (a =? b) then Some j else match_prefix fuel blob entry name (j + 1)
  end.

Fixpoint rest_is_nul (fuel : nat) (blob : list Z) (entry k : Z) : option bool :=
  match fuel with
  | O => Some true
  | S fuel =>
      a ← aget blob (entry + k);
      if negb (a =? 0) then Some false else rest_is_nul fuel blob entry (k + 1)
  end.

Definition entry_offset (i : Z) : Z := SIZEOF_HDR + i * SIZEOF_ENTRY.

(** The loop over the entries from [i]; the result is the offset of the entry
    in the blob, or [None] for NULL. *)
Fixpoint find_entry (fuel : nat) (blob name : list Z) (name_len i : Z) : option (option Z) :=
  match fuel with
  | O => Some None
  | S fuel =>
      let e := entry_offset i in
      j ← match_prefix (Z.to_nat name_len) blob e name 0;
      if negb (j =? name_len) then find_entry fuel blob name name_len (i + 1) else
      rest ← rest_is_nul (Z.to_nat (AOS_BOOT_MANIFEST_NAME_LEN - name_len)) blob e name_len;
      if negb rest then find_entry fuel blob name name_len (i + 1) else Some (Some e)
  end.

Definition aos_boot_manifest_find (blob : option (list Z)) (len : Z) (name : option (list Z)) :
    option (option Z) :=
  match blob, name with
  | Some blob, Some name =>
      if len <? SIZEOF_HDR then Some None else
      hdr ← read_hdr blob;
      if negb (hdr_magic hdr =? AOS_BOOT_MANIFEST_MAGIC)
         || negb (hdr_version hdr =? AOS_BOOT_MANIFEST_VERSION)
         || (hdr_count hdr =? 0) || (AOS_BOOT_MANIFEST_MAX_PDS <? hdr_count hdr)
      then Some None else
      if len <? required_size (hdr_count hdr) then Some None else
      name_len ← key_length (Z.to_nat AOS_BOOT_MANIFEST_NAME_LEN) name 0;
      c ← key_at name name_len;
      if negb (c =? 0) then Some None else
      find_entry (Z.to_nat (hdr_count hdr)) blob name name_len 0
  | _, _ => Some None
  end.

(** ** Specification *)

Definition is_byte (b : Z) : Prop := 0 <= b < 256.

(** The name field of entry [i]: 48 bytes. *)
Definition entry_name (blob : list Z) (i : Z) : list Z :=
  aslice blob (entry_offset i) AOS_BOOT_MANIFEST_NAME_LEN.

(** A key as it is stored: padded with zero bytes to the field width. *)
Definition stored_name (name : list Z) : list Z := name ++ replicate (48 - length name) 0.

Definition well_formed (blob : list Z) (hdr : aos_boot_manifest_hdr) : Prop :=
  hdr_magic hdr = AOS_BOOT_MANIFEST_MAGIC /\ hdr_version hdr = AOS_BOOT_MANIFEST_VERSION /\
  1 <= hdr_count hdr <= 32 /\ 32 + 80 * hdr_count hdr + 64 <= Z.of_nat (length blob).

(** What can be wrong with a blob, read off the layout of the format: eight
    bytes of magic, a 32-bit version and a 32-bit count of entries, sixteen
    reserved bytes, 80 bytes per entry and a signature of 64 bytes. Each
    defect is listed with the code that reports it, in the order of the
    layout. *)
Definition declared_count (blob : list Z) : Z := le_val (aslice blob 12 4).

Definition manifest_defects (blob : list Z) : list (Z * Prop) :=
  let len := Z.of_nat (length blob) in
  [(AOS_BOOT_MANIFEST_ERR_TOO_SHORT, len < 32);
   (AOS_BOOT_MANIFEST_ERR_MAGIC, aslice blob 0 8 <> [0x41; 0x4f; 0x53; 0x42; 0x4d; 0x41; 0x4e; 0x31]);
   (AOS_BOOT_MANIFEST_ERR_VERSION, aslice blob 8 4 <> [1; 0; 0; 0]);
   (AOS_BOOT_MANIFEST_ERR_COUNT_ZERO, declared_count blob = 0);
   (AOS_BOOT_MANIFEST_ERR_COUNT_MAX, 32 < declared_count blob);
   (AOS_BOOT_MANIFEST_ERR_TRUNCATED, len < 32 + 80 * declared_count blob + 64)].

(** [r] is the code of the first defect that holds, or the success code when
    none does. *)
Fixpoint first_defect (ds : list (Z * Prop)) (r : Z) : Prop :=
  match ds with
  | [] => r = AOS_BOOT_MANIFEST_OK
  | (code, defect) :: ds => (defect /\ r = code) \/ (~ defect /\ first_defect ds r)
  end.

(** [r] is the offset of the first entry with index in [lo, hi) that stores
    the key, or [None] when there is none. *)
Definition first_match (blob name : list Z) (lo hi : Z) (r : option Z) : Prop :=
  match r with
  | Some o => exists j, lo <= j < hi /\ o = entry_offset j /\
      entry_name blob j = stored_name name /\
      forall j', lo <= j' < j -> entry_name blob j' <> stored_name name
  | None => forall j, lo <= j < hi -> entry_name blob j <> stored_name name
  end.

(** ** Lemmas *)

Lemma read_le_total blob n : forall off,
  0 <= off -> off + Z.of_nat n <= Z.of_nat (length blob) -> Forall is_byte blob ->
  exists r, read_le blob off n = Some r /\ 0 <= r < 256 ^ Z.of_nat n.
Proof.
  induction n as [|n IH]; intros off Ho Hl Hb; simpl; [exists 0; split; [done|lia]|].
  destruct (aget_lt blob off) as [b Hg]; [lia|]. rewrite Hg. simpl.
  destruct (IH (off + 1)) as (r & -> & Hr); [lia|lia|done|]. simpl. eexists. split; [done|].
  apply aget_Some in Hg as [_ Hg]. pose proof (Forall_lookup_1 _ _ _ _ Hb Hg) as Hbb.
  unfold is_byte in Hbb. rewrite Nat2Z.inj_succ, Z.pow_succ_r by lia. nia.
Qed.

(** The header's fields are the little-endian values of its bytes. *)
Lemma read_le_eq blob n : forall off,
  0 <= off -> off + Z.of_nat n <= Z.of_nat (length blob) ->
  read_le blob off n = Some (le_val (aslice blob off (Z.of_nat n))).
Proof.
  induction n as [|n IH]; intros off Ho Hl; cbn [read_le]; [done|].
  destruct (aget_lt blob off) as [b Hg]; [lia|]. rewrite Hg, IH by lia. cbn [mbind option_bind].
  by rewrite Nat2Z.inj_succ, <- Z.add_1_r, (aslice_cons _ _ _ b) by (done || lia).
Qed.

Lemma field_bytes blob off n : Forall is_byte blob -> Forall is_u8 (aslice blob off n).
Proof. intros Hb. by apply Forall_take, Forall_drop. Qed.

Lemma field_bound blob off n :
  0 <= off -> 0 <= n -> off + n <= Z.of_nat (length blob) -> Forall is_byte blob ->
  0 <= le_val (aslice blob off n) < 256 ^ n.
Proof.
  intros ??? Hb. pose proof (le_val_bound _ (field_bytes blob off n Hb)) as Hv.
  rewrite length_aslice, Z2Nat.id in Hv by lia. done.
Qed.

(** A field has the value [v] exactly when its bytes are those of [v]. *)
Lemma field_eqb blob off n v :
  0 <= off -> 0 <= n -> off + n <= Z.of_nat (length blob) -> Forall is_byte blob -> 0 <= v < 256 ^ n ->
  le_val (aslice blob off n) = v <-> aslice blob off n = le_bytes (Z.to_nat n) v.
Proof.
  intros ??? Hb Hv. split.
  - intros <-. rewrite <- (length_aslice blob off n) by lia. symmetry. by apply le_bytes_val, field_bytes.
  - intros ->. rewrite le_val_bytes, Z2Nat.id by lia. by apply Z.mod_small.
Qed.

Lemma read_hdr_eq blob :
  32 <= Z.of_nat (length blob) ->
  read_hdr blob = Some (mk_hdr (le_val (aslice blob 0 8)) (le_val (aslice blob 8 4)) (declared_count blob)).
Proof. intros Hl. unfold read_hdr. by rewrite !read_le_eq by lia. Qed.

Lemma read_hdr_total blob :
  32 <= Z.of_nat (length blob) -> Forall is_byte blob ->
  exists hdr, read_hdr blob = Some hdr /\ is_u32 (hdr_count hdr).
Proof.
  intros Hl Hb. unfold read_hdr.
  destruct (read_le_total blob 8 0) as (a & -> & _); [lia|lia|done|].
  destruct (read_le_total blob 4 8) as (b & -> & _); [lia|lia|done|].
  destruct (read_le_total blob 4 12) as (c & -> & Hc); [lia|lia|done|].
  destruct (read_le_total blob 16 16) as (d & -> & _); [lia|lia|done|].
  simpl. eexists. split; [done|]. simpl. unfold is_u32. lia.
Qed.

Lemma required_size_eq count : is_u32 count -> required_size count = 32 + count * 80 + 64.
Proof.
  unfold required_size, is_u32, SIZEOF_HDR, SIZEOF_ENTRY, AOS_BOOT_MANIFEST_SIG_LEN. intros Hc.
  rewrite (u64_small (count * 80)), (u64_small (32 + count * 80)), u64_small
    by (unfold is_u64; lia). lia.
Qed.

Lemma key_length_spec name : forall fuel i,
  0 <= i <= Z.of_nat (length name) -> Forall (fun c => c <> 0) name ->
  key_length fuel name i
    = Some (Z.min (i + Z.of_nat fuel) (Z.of_nat (length name))).
Proof.
  induction fuel as [|fuel IH]; intros i Hi Hnz; simpl; [f_equal; lia|].
  unfold key_at. destruct (decide (i = Z.of_nat (length name))) as [->|Hne].
  - rewrite (proj2 (aget_Some _ _ 0)); [simpl; f_equal; lia|].
    split; [lia|]. rewrite Nat2Z.id. by apply list_lookup_middle.
  - destruct (aget_lt name i) as [c Hc]; [lia|]. apply aget_Some in Hc as [_ Hc].
    rewrite (proj2 (aget_Some _ _ c)); simpl.
    2:{ split; [lia|]. by apply lookup_app_l_Some. }
    pose proof (Forall_lookup_1 _ _ _ _ Hnz Hc) as Hc0. rewrite (proj2 (Z.eqb_neq _ _) Hc0).
    rewrite IH by (done || lia). f_equal. lia.
Qed.

(** The comparison stops at the end of the key exactly when the field starts
    with the key. *)
Lemma match_prefix_spec blob e name : forall fuel j,
  0 <= e -> 0 <= j -> e + j + Z.of_nat fuel <= Z.of_nat (length blob) ->
  j + Z.of_nat fuel = Z.of_nat (length name) ->
  exists r, match_prefix fuel blob e name j = Some r /\ j <= r /\
    (r = Z.of_nat (length name) <->
     aslice blob (e + j) (Z.of_nat fuel) = drop (Z.to_nat j) name).
Proof.
  induction fuel as [|fuel IH]; intros j He Hj Hb Hn; simpl.
  { exists j. split; [done|]. split; [lia|]. unfold aslice. simpl.
    split; [|lia]. intros _. symmetry. apply nil_length_inv. rewrite length_drop. lia. }
  destruct (aget_lt blob (e + j)) as [a Ha]; [lia|]. rewrite Ha. simpl.
  destruct (aget_lt name j) as [b Hb']; [lia|]. apply aget_Some in Hb' as [_ Hbn].
  unfold key_at. rewrite (proj2 (aget_Some _ _ b)); simpl.
  2:{ split; [done|]. by apply lookup_app_l_Some. }
  apply aget_Some in Ha as [_ Ha].
  assert (aslice blob (e + j) (Z.of_nat (S fuel))
    = a :: aslice blob (e + (j + 1)) (Z.of_nat fuel)) as Hsl.
  { unfold aslice. rewrite Nat2Z.id, (drop_S _ _ _ Ha). rewrite Nat2Z.id. simpl. f_equal.
    f_equal. f_equal. lia. }
  rewrite Hsl, (drop_S _ _ _ Hbn). destruct (Z.eqb_spec a b) as [->|Hne]; simpl.
  - destruct (IH (j + 1)) as (r & -> & Hr & Heq); [lia..|]. exists r. split; [done|].
    split; [lia|]. rewrite Heq. replace (Z.to_nat (j + 1)) with (S (Z.to_nat j)) by lia.
    split; [by intros ->|by intros [= ?]].
  - exists j. split; [done|]. split; [lia|]. split; [lia|]. congruence.
Qed.

Lemma rest_is_nul_spec blob e : forall fuel k,
  0 <= e + k -> e + k + Z.of_nat fuel <= Z.of_nat (length blob) ->
  exists r, rest_is_nul fuel blob e k = Some r /\
    (r = true <-> aslice blob (e + k) (Z.of_nat fuel) = replicate fuel 0).
Proof.
  induction fuel as [|fuel IH]; intros k Hk Hb; simpl; [by exists true|].
  destruct (aget_lt blob (e + k)) as [a Ha]; [lia|]. rewrite Ha. simpl.
  apply aget_Some in Ha as [_ Ha].
  assert (aslice blob (e + k) (Z.of_nat (S fuel))
    = a :: aslice blob (e + (k + 1)) (Z.of_nat fuel)) as ->.
  { unfold aslice. rewrite Nat2Z.id, (drop_S _ _ _ Ha). rewrite Nat2Z.id. simpl. f_equal.
    f_equal. f_equal. lia. }
  destruct (Z.eqb_spec a 0) as [->|Hne]; simpl.
  - destruct (IH (k + 1)) as (r & -> & Heq); [lia..|]. exists r. split; [done|].
    rewrite Heq. split; [by intros ->|by intros [= ?]].
  - exists false. split; [done|]. split; [done|]. congruence.
Qed.

Lemma aslice_split (l : list Z) i n m :
  0 <= i -> 0 <= n -> 0 <= m -> i + n + m <= Z.of_nat (length l) ->
  aslice l i (n + m) = aslice l i n ++ aslice l (i + n) m.
Proof.
  intros. unfold aslice. rewrite Z2Nat.inj_add by lia.
  rewrite <-take_take_drop, drop_drop. do 3 f_equal. lia.
Qed.

(** [find_entry] finds the first entry from [i] whose field is the stored
    key. *)
Lemma find_entry_spec blob name : forall fuel i,
  0 <= i -> (length name <= 48)%nat ->
  32 + 80 * (i + Z.of_nat fuel) <= Z.of_nat (length blob) ->
  exists r, find_entry fuel blob name (Z.of_nat (length name)) i = Some r /\
    first_match blob name i (i + Z.of_nat fuel) r.
Proof.
  induction fuel as [|fuel IH]; intros i Hi Hn Hb; cbn [find_entry].
  { exists None. split; [done|]. simpl. lia. }
  assert (entry_offset i + 80 <= Z.of_nat (length blob)) as Hoff
    by (unfold entry_offset, SIZEOF_HDR, SIZEOF_ENTRY; lia).
  assert (0 <= entry_offset i) as Hpos by (unfold entry_offset, SIZEOF_HDR, SIZEOF_ENTRY; lia).
  rewrite Nat2Z.id.
  destruct (match_prefix_spec blob (entry_offset i) name (length name) 0)
    as (j & Hj & _ & Hpre); [lia..|]. rewrite Hj. cbn [mbind option_bind].
  rewrite Z.add_0_r in Hpre. change (drop (Z.to_nat 0) name) with name in Hpre.
  replace (Z.to_nat (AOS_BOOT_MANIFEST_NAME_LEN - Z.of_nat (length name)))
    with (48 - length name)%nat by (unfold AOS_BOOT_MANIFEST_NAME_LEN; lia).
  destruct (rest_is_nul_spec blob (entry_offset i) (48 - length name) (Z.of_nat (length name)))
    as (b & Hr & Hrest); [lia..|]. rewrite Hr. cbn [mbind option_bind].
  assert (entry_name blob i = stored_name name <->
    j = Z.of_nat (length name) /\ b = true) as Hiff.
  { unfold entry_name, stored_name. change AOS_BOOT_MANIFEST_NAME_LEN with 48.
    replace 48 with (Z.of_nat (length name) + Z.of_nat (48 - length name)) at 1 by lia.
    rewrite aslice_split by lia. rewrite Hpre, Hrest. split; [|by intros [-> ->]].
    apply app_inj_1. rewrite length_aslice; lia. }
  assert (exists r, find_entry fuel blob name (Z.of_nat (length name)) (i + 1) = Some r /\
    (entry_name blob i <> stored_name name ->
     first_match blob name i (i + Z.of_nat (S fuel)) r)) as (r & Hnext & Hspec).
  { destruct (IH (i + 1)) as (r & -> & Hr'); [lia|lia|lia|]. exists r. split; [done|].
    intros Hne. destruct r as [o|].
    - destruct Hr' as (j0 & ? & -> & ? & Hmin). exists j0. split_and!; [lia|lia|done..|].
      intros j' Hj'. destruct (decide (j' = i)) as [->|]; [done|]. apply Hmin. lia.
    - intros j0 Hj0. destruct (decide (j0 = i)) as [->|]; [done|]. apply Hr'. lia. }
  destruct (Z.eqb_spec j (Z.of_nat (length name))) as [->|Hne]; cbn [negb].
  - destruct b; cbn [negb].
    + exists (Some (entry_offset i)). split; [done|]. exists i. split_and!; [lia|lia|done|tauto|lia].
    + exists r. split; [done|]. apply Hspec. rewrite Hiff. by intros [? ?].
  - exists r. split; [done|]. apply Hspec. rewrite Hiff. by intros [? ?].
Qed.

(** ** The theorems *)

(** C40. Validation is total, and reports the first defect: on any bytes
    whatsoever it returns without reading outside the blob. It succeeds on a
    blob with none of the defects of the format, and otherwise returns the
    code of the first one, in the order too short, wrong magic, wrong version,
    no entries, too many entries, truncated; a NULL blob has a code of its
    own. *)
Theorem manifest_validate_exact blob :
  Forall is_byte blob -> is_u32 (Z.of_nat (length blob)) ->
  (exists r, aos_boot_manifest_validate (Some blob) (Z.of_nat (length blob)) = Some r /\
     first_defect (manifest_defects blob) r) /\
  (forall len, aos_boot_manifest_validate None len = Some AOS_BOOT_MANIFEST_ERR_BAD_ARGS).
Proof.
  intros Hb Hl. split; [|done]. unfold aos_boot_manifest_validate, manifest_defects, SIZEOF_HDR.
  cbn [first_defect]. case_cmp; [eexists; split; [done|]; left; split; [lia|done]|].
  rewrite read_hdr_eq by (done || lia). cbn [mbind option_bind hdr_magic hdr_version hdr_count].
  assert (is_u32 (declared_count blob)) as Hc by (apply (field_bound blob 12 4); done || lia).
  rewrite required_size_eq by done. unfold AOS_BOOT_MANIFEST_MAX_PDS. eexists. split; [done|].
  right. split; [lia|].
  pose proof (field_eqb blob 0 8 AOS_BOOT_MANIFEST_MAGIC ltac:(lia) ltac:(lia) ltac:(lia) Hb ltac:(done)) as Hm.
  pose proof (field_eqb blob 8 4 AOS_BOOT_MANIFEST_VERSION ltac:(lia) ltac:(lia) ltac:(lia) Hb ltac:(done)) as Hv.
  change (le_bytes _ AOS_BOOT_MANIFEST_MAGIC) with [0x41; 0x4f; 0x53; 0x42; 0x4d; 0x41; 0x4e; 0x31] in Hm.
  change (le_bytes _ AOS_BOOT_MANIFEST_VERSION) with [1; 0; 0; 0] in Hv.
  destruct (Z.eqb_spec (le_val (aslice blob 0 8)) AOS_BOOT_MANIFEST_MAGIC); cbn [negb]; [right; split; [tauto|]|left; tauto].
  destruct (Z.eqb_spec (le_val (aslice blob 8 4)) AOS_BOOT_MANIFEST_VERSION); cbn [negb]; [right; split; [tauto|]|left; tauto].
  repeat (case_cmp; [left; split; [lia|done]|right; split; [lia|]]). done.
Qed.

Definition manifest_example : list Z :=
  [0x41; 0x4f; 0x53; 0x42; 0x4d; 0x41; 0x4e; 0x31; 1; 0; 0; 0; 1; 0; 0; 0] ++ replicate 16 0
  ++ [102; 111; 111] ++ replicate 45 0 ++ replicate 32 9 ++ replicate 64 7.

(** The example has no defect; without its last byte it is truncated, and
    with another version that is what is reported, before the truncation. *)
Definition manifest_cut : list Z := take 175 manifest_example.
Definition manifest_old : list Z := <[8%nat := 0]> manifest_cut.

Lemma manifest_validate_exact_witness :
  (exists r, aos_boot_manifest_validate (Some manifest_example) 176 = Some r /\
     first_defect (manifest_defects manifest_example) r /\ r = AOS_BOOT_MANIFEST_OK) /\
  (exists r, aos_boot_manifest_validate (Some manifest_cut) 175 = Some r /\
     first_defect (manifest_defects manifest_cut) r /\ r = AOS_BOOT_MANIFEST_ERR_TRUNCATED) /\
  (exists r, aos_boot_manifest_validate (Some manifest_old) 175 = Some r /\
     first_defect (manifest_defects manifest_old) r /\ r = AOS_BOOT_MANIFEST_ERR_VERSION).
Proof.
  split_and!.
  - destruct (manifest_validate_exact manifest_example) as [(r & Hr & Hd) _]; [unfold is_byte; by_compute|by_compute|].
    exists r. split; [exact Hr|]. split; [exact Hd|]. vm_compute in Hr. by injection Hr as <-.
  - destruct (manifest_validate_exact manifest_cut) as [(r & Hr & Hd) _]; [unfold is_byte; by_compute|by_compute|].
    exists r. split; [exact Hr|]. split; [exact Hd|]. vm_compute in Hr. by injection Hr as <-.
  - destruct (manifest_validate_exact manifest_old) as [(r & Hr & Hd) _]; [unfold is_byte; by_compute|by_compute|].
    exists r. split; [exact Hr|]. split; [exact Hd|]. vm_compute in Hr. by injection Hr as <-.
Defined.

(** Lookup is total and exact: on any bytes it returns without reading
    outside the blob, and the entry it returns is the first one whose 48-byte
    name field is the key padded with zeros (so neither a prefix nor an
    extension of a name matches, and a 48-byte name without terminator
    does); it returns NULL exactly when the blob is malformed, the key is
    longer than the field, or no entry stores it. *)
Theorem manifest_find_exact blob name :
  Forall is_byte blob -> is_u32 (Z.of_nat (length blob)) -> Forall (fun c => c <> 0) name ->
  exists r, aos_boot_manifest_find (Some blob) (Z.of_nat (length blob)) (Some name) = Some r /\
    ((exists hdr, read_hdr blob = Some hdr /\ well_formed blob hdr /\
        (length name <= 48)%nat /\ first_match blob name 0 (hdr_count hdr) r) \/
     r = None /\ ((forall hdr, read_hdr blob = Some hdr -> ~ well_formed blob hdr) \/
                  (48 < length name)%nat)).
Proof.
  intros Hb Hl Hnz. unfold aos_boot_manifest_find, SIZEOF_HDR, well_formed.
  destruct (Z.ltb_spec (Z.of_nat (length blob)) 32) as [Hs|Hs].
  { eexists. split; [done|]. right. split; [done|]. left. intros hdr _ (_ & _ & ? & ?). lia. }
  destruct (read_hdr_total blob) as (hdr & -> & Hc); [lia|done|].
  cbn [mbind option_bind]. rewrite required_size_eq by done. unfold is_u32 in Hc.
  match goal with |- context [if ?b then Some None else _] => destruct b eqn:Heqb end.
  { eexists. split; [done|]. right. split; [done|]. left. intros h [= <-] (Hm & Hv & Hn & _).
    rewrite Hm, Hv, !Z.eqb_refl in Heqb. unfold AOS_BOOT_MANIFEST_MAX_PDS in Heqb.
    simpl in Heqb. apply orb_true_iff in Heqb. lia. }
  rewrite !orb_false_iff, !negb_false_iff, !Z.eqb_eq in Heqb.
  destruct Heqb as [[[Hm Hv] ?%Z.eqb_neq] ?%Z.ltb_ge]. unfold AOS_BOOT_MANIFEST_MAX_PDS in *.
  destruct (Z.ltb_spec (Z.of_nat (length blob)) (32 + hdr_count hdr * 80 + 64)).
  { eexists. split; [done|]. right. split; [done|]. left. intros h [= <-] (_ & _ & _ & ?). lia. }
  rewrite key_length_spec by (done || lia). cbn [mbind option_bind].
  change (0 + Z.of_nat (Z.to_nat AOS_BOOT_MANIFEST_NAME_LEN)) with 48.
  destruct (Z.le_gt_cases (Z.of_nat (length name)) 48) as [Hle|Hgt].
  - rewrite Z.min_r by done. unfold key_at at 1.
    rewrite (proj2 (aget_Some _ _ 0)) by (split; [lia|]; rewrite Nat2Z.id;
      by apply list_lookup_middle). simpl.
    destruct (find_entry_spec blob name (Z.to_nat (hdr_count hdr)) 0) as (r & -> & Hr); [lia..|].
    exists r. split; [done|]. left. exists hdr. rewrite Z2Nat.id in Hr by lia.
    split_and!; [done|done|done|lia|lia|lia|lia|done].
  - rewrite Z.min_l by lia. destruct (aget_lt name 48) as [c Hk]; [lia|].
    apply aget_Some in Hk as [_ Hk]. unfold key_at at 1.
    rewrite (proj2 (aget_Some _ _ c)) by (split; [lia|]; by apply lookup_app_l_Some).
    cbn [mbind option_bind]. pose proof (Forall_lookup_1 _ _ _ _ Hnz Hk) as Hc0.
    rewrite (proj2 (Z.eqb_neq _ _) Hc0). eexists. split; [done|]. right. split; [done|]. right. lia.
Qed.

Lemma manifest_find_exact_witness :
  exists r, aos_boot_manifest_find (Some manifest_example) 176 (Some [102; 111; 111]) = Some r /\
    ((exists hdr, read_hdr manifest_example = Some hdr /\ well_formed manifest_example hdr /\
        (3 <= 48)%nat /\ first_match manifest_example [102; 111; 111] 0 (hdr_count hdr) r) \/
     r = None /\ ((forall hdr, read_hdr manifest_example = Some hdr ->
                     ~ well_formed manifest_example hdr) \/ (48 < 3)%nat)).
Proof.
  apply (manifest_find_exact manifest_example [102; 111; 111]); [|by_compute..].
  unfold is_byte. by_compute.
Defined.
