(* ===== verification/CapLease.v ===== *)
(** * Capability leases and loans

    Models libs/pd-support/cap_lease.c (the lender's table of leases, whose
    identifiers carry a generation against reuse) and libs/pd-support/
    cap_lend.c (minting a reduced derivative of a capability for a borrower
    and withdrawing it again), over the kernel parameter of Kernel.v. *)

From S2P Require Import Prelude Kernel.
From stdpp Require Import options.

(** ** Leases: contracts/lease_contract.h and cap_lease.c *)

Definition AOS_LEASE_MAX_ACTIVE : Z := 8.
Definition AOS_LEASE_SLOT_BITS : Z := 8.
Definition AOS_LEASE_GEN_BITS : Z := 32 - AOS_LEASE_SLOT_BITS.
Definition AOS_LEASE_SLOT_MASK : Z := Z.shiftl 1 AOS_LEASE_SLOT_BITS - 1.
Definition AOS_LEASE_GEN_MASK : Z := Z.shiftl 1 AOS_LEASE_GEN_BITS - 1.

Inductive aos_lease_state := AOS_LEASE_FREE | AOS_LEASE_ACTIVE | AOS_LEASE_REVOKED.

#[global] Instance aos_lease_state_eq_dec : EqDecision aos_lease_state.
Proof. solve_decision. Defined.

Record aos_lease := mk_lease {
  lease_id : Z; borrower_pd : Z; lease_rights : Z; lease_state : aos_lease_state }.

(** The slots of a table; there are [AOS_LEASE_MAX_ACTIVE] of them. *)
Abbreviation aos_lease_table := (list aos_lease).

Definition lease_make_id (slot_idx generation : Z) : Z :=
  Z.lor (Z.land slot_idx AOS_LEASE_SLOT_MASK)
    (u32 (Z.shiftl (Z.land generation AOS_LEASE_GEN_MASK) AOS_LEASE_SLOT_BITS)).

Definition lease_id_slot (id : Z) : Z := Z.land id AOS_LEASE_SLOT_MASK.

Definition lease_id_gen (id : Z) : Z := Z.land (Z.shiftr id AOS_LEASE_SLOT_BITS) AOS_LEASE_GEN_MASK.

Definition aos_lease_table_init (table : option aos_lease_table) : option aos_lease_table :=
  match table with
  | None => None
  | Some _ => Some ((fun i => mk_lease (lease_make_id i 0) 0 0 AOS_LEASE_FREE)
                    <$> seqZ 0 AOS_LEASE_MAX_ACTIVE)
  end.

(** The identifier that slot [i] takes when it is claimed. *)
Definition claim_id (i : Z) (slot : aos_lease) : Z :=
  let generation := lease_id_gen (lease_id slot) in
  lease_make_id i
    (match lease_state slot with
     | AOS_LEASE_REVOKED => Z.land (u32 (generation + 1)) AOS_LEASE_GEN_MASK
     | _ => generation
     end).

(** The loop of [aos_lease_open] from slot [i] on: the identifier and the
    slots afterwards, or [None] when every slot is active. *)
Fixpoint lease_claim (i : Z) (slots : list aos_lease) (borrower rights : Z) :
    option (Z * list aos_lease) :=
  match slots with
  | [] => None
  | slot :: rest =>
      if negb (bool_decide (lease_state slot = AOS_LEASE_ACTIVE))
      then Some (claim_id i slot, mk_lease (claim_id i slot) borrower rights AOS_LEASE_ACTIVE :: rest)
      else
        match lease_claim (i + 1) rest borrower rights with
        | Some (id, rest') => Some (id, slot :: rest')
        | None => None
        end
  end.

(** The result code, [*out_id] if it is written, and the table. *)
Definition aos_lease_open (table : option aos_lease_table) (borrower rights : Z)
    (out_null : bool) : Z * option Z * option aos_lease_table :=
  match table with
  | Some slots =>
      if out_null then (-1, None, table) else
      match lease_claim 0 slots borrower rights with
      | Some (id, slots') => (0, Some id, Some slots')
      | None => (-1, None, table)
      end
  | None => (-1, None, table)
  end.

Definition set_lease_state (st : aos_lease_state) (l : aos_lease) : aos_lease :=
  mk_lease (lease_id l) (borrower_pd l) (lease_rights l) st.

(** [None] is an access outside the table. *)
Definition aos_lease_close (table : option aos_lease_table) (id : Z) :
    option (Z * option aos_lease_table) :=
  match table with
  | None => Some (-1, table)
  | Some slots =>
      let idx := lease_id_slot id in
      if AOS_LEASE_MAX_ACTIVE <=? idx then Some (-1, table) else
      slot ← aget slots idx;
      if negb (bool_decide (lease_state slot = AOS_LEASE_ACTIVE)) then Some (-1, table) else
      if negb (lease_id slot =? id) then Some (-1, table) else
      slots' ← aset slots idx (set_lease_state AOS_LEASE_REVOKED slot);
      Some (0, Some slots')
  end.

(** The slot returned, or [None] inside for NULL. *)
Definition aos_lease_get (table : option aos_lease_table) (id : Z) : option (option aos_lease) :=
  match table with
  | None => Some None
  | Some slots =>
      let idx := lease_id_slot id in
      if AOS_LEASE_MAX_ACTIVE <=? idx then Some None else
      slot ← aget slots idx;
      Some (if negb (lease_id slot =? id) then None else Some slot)
  end.

(** ** Leases: specification

    What a lender may rely on: identifiers are never issued twice, at most
    eight leases are active, closing works exactly on active leases. *)
Record lease_spec := mk_lspec { issued : gset Z; active : gmap Z (Z * Z) }.

Inductive lease_op := LOpen (borrower rights : Z) | LClose (id : Z) | LGet (id : Z).

Inductive lease_out :=
  | Opened (id : Z) | NotOpened | Closed | NotClosed | Got (v : option (Z * Z)).

Inductive lspec_step : lease_spec -> lease_op -> lease_out -> lease_spec -> Prop :=
  | spec_open a b r id :
      id ∉ issued a -> (size (active a) < 8)%nat ->
      lspec_step a (LOpen b r) (Opened id)
        (mk_lspec ({[id]} ∪ issued a) (<[id := (b, r)]> (active a)))
  | spec_full a b r :
      (8 <= size (active a))%nat -> lspec_step a (LOpen b r) NotOpened a
  | spec_close a id v :
      active a !! id = Some v ->
      lspec_step a (LClose id) Closed (mk_lspec (issued a) (delete id (active a)))
  | spec_stale a id :
      active a !! id = None -> lspec_step a (LClose id) NotClosed a
  | spec_get a id :
      lspec_step a (LGet id) (Got (active a !! id)) a.

Inductive lspec_run : lease_spec -> list lease_op -> list lease_out -> lease_spec -> Prop :=
  | lrun_nil a : lspec_run a [] [] a
  | lrun_cons a op o a' ops os a'' :
      lspec_step a op o a' -> lspec_run a' ops os a'' -> lspec_run a (op :: ops) (o :: os) a''.

(** The code, with the same operations and observations; a lease that is
    found is observed while it is active. *)
Definition lease_exec (op : lease_op) (t : aos_lease_table) : option (lease_out * aos_lease_table) :=
  match op with
  | LOpen b r =>
      match aos_lease_open (Some t) b r false with
      | (0, Some id, Some t') => Some (Opened id, t')
      | (_, _, t') => Some (NotOpened, default t t')
      end
  | LClose id =>
      match aos_lease_close (Some t) id with
      | Some (0, t') => Some (Closed, default t t')
      | Some (_, t') => Some (NotClosed, default t t')
      | None => None
      end
  | LGet id =>
      match aos_lease_get (Some t) id with
      | Some (Some l) =>
          Some (Got (match lease_state l with
                     | AOS_LEASE_ACTIVE => Some (borrower_pd l, lease_rights l)
                     | _ => None
                     end), t)
      | Some None => Some (Got None, t)
      | None => None
      end
  end.

Fixpoint lease_run (ops : list lease_op) (t : aos_lease_table) :
    option (list lease_out * aos_lease_table) :=
  match ops with
  | [] => Some ([], t)
  | op :: ops =>
      match lease_exec op t with
      | Some (o, t') =>
          match lease_run ops t' with
          | Some (os, t'') => Some (o :: os, t'')
          | None => None
          end
      | None => None
      end
  end.

Fixpoint opens (ops : list lease_op) : Z :=
  match ops with
  | [] => 0
  | LOpen _ _ :: ops => 1 + opens ops
  | _ :: ops => opens ops
  end.

(** ** Leases: refinement *)

(** Slot [i] holds generation [g], at most the number [n] of leases opened so
    far, which is the newest generation issued for the slot. *)
Definition slot_rel (a : lease_spec) (n : Z) (i : nat) (slot : aos_lease) : Prop :=
  exists g, 0 <= g <= n /\ lease_id slot = Z.of_nat i + 256 * g /\
    (forall id, id ∈ issued a -> id mod 256 = Z.of_nat i ->
       lease_state slot <> AOS_LEASE_FREE /\ id <= lease_id slot) /\
    active a !! lease_id slot
      = match lease_state slot with
        | AOS_LEASE_ACTIVE => Some (borrower_pd slot, lease_rights slot)
        | _ => None
        end.

Record lease_rel (a : lease_spec) (n : Z) (t : aos_lease_table) : Prop := {
  rel_len : length t = 8%nat;
  rel_slot : forall i slot, t !! i = Some slot -> slot_rel a n i slot;
  rel_active : forall id, is_Some (active a !! id) ->
    exists i slot, t !! i = Some slot /\ lease_id slot = id;
  rel_issued : forall id, id ∈ issued a -> 0 <= id }.

Lemma lease_make_id_eq i g :
  0 <= i < 256 -> 0 <= g < 2 ^ 24 -> lease_make_id i g = i + 256 * g.
Proof.
  intros Hi Hg. unfold lease_make_id.
  change AOS_LEASE_SLOT_MASK with (Z.ones 8). change AOS_LEASE_GEN_MASK with (Z.ones 24).
  change AOS_LEASE_SLOT_BITS with 8.
  rewrite !Z.land_ones, (Z.mod_small i), (Z.mod_small g) by lia.
  rewrite u32_small by (unfold is_u32; rewrite Z.shiftl_mul_pow2 by lia; lia).
  assert (Z.land i (Z.shiftl g 8) = 0) as H0.
  { rewrite <-(Z.mod_small i (2 ^ 8)), <-Z.land_ones, <-Z.land_assoc by lia.
    rewrite (Z.land_comm (Z.ones 8)), Z.land_ones, Z.shiftl_mul_pow2, Z.mod_mul by lia.
    apply Z.land_0_r. }
  pose proof (Z.add_lor_land i (Z.shiftl g 8)) as E. rewrite H0, Z.shiftl_mul_pow2 in * by lia. lia.
Qed.

Lemma lease_id_slot_eq id : lease_id_slot id = id mod 256.
Proof.
  unfold lease_id_slot. change AOS_LEASE_SLOT_MASK with (Z.ones 8). by rewrite Z.land_ones.
Qed.

Lemma lease_id_gen_eq i g :
  0 <= i < 256 -> 0 <= g < 2 ^ 24 -> lease_id_gen (i + 256 * g) = g.
Proof.
  intros Hi Hg. unfold lease_id_gen. change AOS_LEASE_GEN_MASK with (Z.ones 24).
  change AOS_LEASE_SLOT_BITS with 8. rewrite Z.land_ones, Z.shiftr_div_pow2 by lia.
  change (2 ^ 8) with 256. rewrite Z.mul_comm, Z.div_add, Z.div_small by lia.
  apply Z.mod_small. lia.
Qed.

Lemma slot_id_mod i g : 0 <= i < 256 -> (i + 256 * g) mod 256 = i.
Proof. intros. rewrite Z.mul_comm, Z.mod_add by lia. by apply Z.mod_small. Qed.

(** Which slot [lease_claim] takes. *)
Lemma lease_claim_spec b r slots : forall i,
  match lease_claim i slots b r with
  | Some (id, slots') => exists j slot, slots !! j = Some slot /\
      lease_state slot <> AOS_LEASE_ACTIVE /\ id = claim_id (i + Z.of_nat j) slot /\
      slots' = <[j := mk_lease id b r AOS_LEASE_ACTIVE]> slots
  | None => Forall (fun slot => lease_state slot = AOS_LEASE_ACTIVE) slots
  end.
Proof.
  induction slots as [|s rest IH]; intros i; simpl; [constructor|].
  case_bool_decide as Hs; simpl.
  - specialize (IH (i + 1)). destruct (lease_claim (i + 1) rest b r) as [[id rest']|].
    + destruct IH as (j & slot & ? & ? & -> & ->). exists (S j), slot. split_and!; [done..| |done].
      f_equal. lia.
    + by constructor.
  - exists 0%nat, s. split_and!; [done..| |done]. by rewrite Z.add_0_r.
Qed.

(** The identifiers of the slots are distinct. *)
Lemma rel_ids_inj a n t i j s s' :
  lease_rel a n t -> t !! i = Some s -> t !! j = Some s' -> lease_id s = lease_id s' -> i = j.
Proof.
  intros Hr Hi Hj He. pose proof (rel_len _ _ _ Hr) as Hl.
  pose proof (lookup_lt_Some _ _ _ Hi). pose proof (lookup_lt_Some _ _ _ Hj).
  destruct (rel_slot _ _ _ Hr i s Hi) as (g & _ & Eg & _).
  destruct (rel_slot _ _ _ Hr j s' Hj) as (g' & _ & Eg' & _). lia.
Qed.

Lemma rel_ids_nodup a n t : lease_rel a n t -> NoDup (lease_id <$> t).
Proof.
  intros Hr. apply NoDup_alt. intros i j x Hi Hj. rewrite list_lookup_fmap in Hi, Hj.
  destruct (t !! i) as [s|] eqn:Es; [|done]. destruct (t !! j) as [s'|] eqn:Es'; [|done].
  simplify_eq/=. eapply rel_ids_inj; [exact Hr|done..|congruence].
Qed.

(** Eight leases are active exactly when no slot can be claimed. *)
Lemma rel_full a n t :
  lease_rel a n t -> Forall (fun s => lease_state s = AOS_LEASE_ACTIVE) t ->
  (8 <= size (active a))%nat.
Proof.
  intros Hr Hall. rewrite <-size_dom.
  transitivity (size ((list_to_set (lease_id <$> t)) : gset Z)).
  { rewrite size_list_to_set by (by eapply rel_ids_nodup).
    rewrite length_fmap, (rel_len _ _ _ Hr). lia. }
  apply subseteq_size. intros x Hx. apply elem_of_list_to_set in Hx.
  apply list_elem_of_fmap in Hx as (s & -> & Hs).
  rewrite Forall_forall in Hall. specialize (Hall s Hs).
  apply list_elem_of_lookup in Hs as [i Hi].
  destruct (rel_slot _ _ _ Hr i s Hi) as (g & _ & _ & _ & Ha). rewrite Hall in Ha.
  apply elem_of_dom. by rewrite Ha.
Qed.

Lemma rel_not_full a n t j s :
  lease_rel a n t -> t !! j = Some s -> lease_state s <> AOS_LEASE_ACTIVE ->
  (size (active a) < 8)%nat.
Proof.
  intros Hr Hj Hs. rewrite <-size_dom.
  set (L := (list_to_set (lease_id <$> t) : gset Z)).
  assert (size L = 8%nat) as HL.
  { subst L. rewrite size_list_to_set by (by eapply rel_ids_nodup).
    rewrite length_fmap. apply Hr. }
  assert (lease_id s ∈ L) as HsL.
  { subst L. apply elem_of_list_to_set, list_elem_of_fmap. exists s. split; [done|].
    by eapply list_elem_of_lookup_2. }
  assert (dom (active a) ⊆ L ∖ {[lease_id s]}) as Hsub.
  { intros x Hx. apply elem_of_dom in Hx as Hx'.
    destruct (rel_active _ _ _ Hr x Hx') as (i & s' & Hi & <-).
    apply elem_of_difference. split.
    - subst L. apply elem_of_list_to_set, list_elem_of_fmap. exists s'. split; [done|].
      by eapply list_elem_of_lookup_2.
    - rewrite elem_of_singleton. intros E.
      assert (i = j) as -> by (by eapply rel_ids_inj). simplify_eq.
      destruct (rel_slot _ _ _ Hr j s Hj) as (g & _ & _ & _ & Ha).
      rewrite Ha in Hx'. destruct (lease_state s); by destruct Hx'. }
  apply subseteq_size in Hsub. rewrite size_difference in Hsub by set_solver.
  rewrite size_singleton in Hsub. lia.
Qed.

(** The claimed identifier is new. *)
Lemma claim_id_fresh a n t j s :
  lease_rel a n t -> n < 2 ^ 24 - 1 -> t !! j = Some s -> lease_state s <> AOS_LEASE_ACTIVE ->
  exists g, 0 <= g <= n + 1 /\ claim_id (Z.of_nat j) s = Z.of_nat j + 256 * g /\
    (claim_id (Z.of_nat j) s ∉ issued a) /\
    (forall id, id ∈ issued a -> id mod 256 = Z.of_nat j -> id <= claim_id (Z.of_nat j) s).
Proof.
  intros Hr Hn Hj Hs. pose proof (rel_len _ _ _ Hr) as Hl. pose proof (lookup_lt_Some _ _ _ Hj).
  destruct (rel_slot _ _ _ Hr j s Hj) as (g & Hg & Eg & Hiss & _).
  unfold claim_id. rewrite Eg, lease_id_gen_eq by lia.
  change AOS_LEASE_GEN_MASK with (Z.ones 24).
  destruct (lease_state s) eqn:Est; [|done|].
  - rewrite lease_make_id_eq by lia. exists g. split; [lia|]. split; [done|]. split.
    + intros Hin. by destruct (Hiss _ Hin ltac:(apply slot_id_mod; lia)).
    + intros id Hin Hm. by destruct (Hiss id Hin Hm).
  - rewrite u32_small, Z.land_ones, Z.mod_small, lease_make_id_eq
      by (unfold is_u32; lia). exists (g + 1). split; [lia|]. split; [done|]. split.
    + intros Hin. destruct (Hiss _ Hin ltac:(apply slot_id_mod; lia)). lia.
    + intros id Hin Hm. destruct (Hiss id Hin Hm). lia.
Qed.

Lemma lease_rel_open a n t j s b r :
  lease_rel a n t -> n < 2 ^ 24 - 1 -> t !! j = Some s -> lease_state s <> AOS_LEASE_ACTIVE ->
  let id := claim_id (Z.of_nat j) s in
  lease_rel (mk_lspec ({[id]} ∪ issued a) (<[id := (b, r)]> (active a))) (n + 1)
    (<[j := mk_lease id b r AOS_LEASE_ACTIVE]> t).
Proof.
  intros Hr Hn Hj Hs id. pose proof (rel_len _ _ _ Hr) as Hl.
  pose proof (lookup_lt_Some _ _ _ Hj) as Hlt.
  destruct (claim_id_fresh a n t j s) as (g & Hg & Eg & Hfresh & Hmax); [done..|].
  fold id in Eg, Hfresh, Hmax. split; simpl.
  - by rewrite length_insert.
  - intros i slot Hi. apply list_lookup_insert_Some in Hi as [(<- & <- & _)|[Hne Hi]].
    + exists g. split; [lia|]. split; [done|]. simpl. split; [|apply lookup_insert_eq].
      intros id' Hin Hm. split; [done|]. apply elem_of_union in Hin as [->%elem_of_singleton|Hin];
        [lia|by apply Hmax].
    + destruct (rel_slot _ _ _ Hr i slot Hi) as (g' & Hg' & Eg' & Hiss & Ha).
      pose proof (lookup_lt_Some _ _ _ Hi). exists g'. split; [lia|]. split; [done|]. split.
      * intros id' Hin Hm. apply elem_of_union in Hin as [->%elem_of_singleton|Hin]; [|by apply Hiss].
        rewrite Eg, slot_id_mod in Hm by lia. lia.
      * rewrite <-Ha. apply lookup_insert_ne. rewrite Eg, Eg'. lia.
  - intros x Hx. destruct (decide (x = id)) as [->|Hne].
    + exists j. eexists. split; [apply list_lookup_insert_eq; lia|done].
    + rewrite lookup_insert_ne in Hx by done.
      destruct (rel_active _ _ _ Hr x Hx) as (i & slot & Hi & <-).
      destruct (decide (i = j)) as [->|Hij].
      * destruct (rel_slot _ _ _ Hr j slot Hi) as (g' & _ & _ & _ & Ha).
        rewrite Ha in Hx. assert (slot = s) as -> by congruence.
        destruct (lease_state s); by destruct Hx.
      * exists i, slot. by rewrite list_lookup_insert_ne.
  - intros x [->%elem_of_singleton|Hx]%elem_of_union; [lia|by apply Hr].
Qed.

Lemma lease_rel_close a n t j s :
  lease_rel a n t -> t !! j = Some s -> lease_state s = AOS_LEASE_ACTIVE ->
  lease_rel (mk_lspec (issued a) (delete (lease_id s) (active a))) n
    (<[j := set_lease_state AOS_LEASE_REVOKED s]> t).
Proof.
  intros Hr Hj Hs. split; simpl.
  - rewrite length_insert. apply Hr.
  - intros i slot Hi. apply list_lookup_insert_Some in Hi as [(<- & <- & _)|[Hne Hi]].
    + destruct (rel_slot _ _ _ Hr j s Hj) as (g & Hg & Eg & Hiss & Ha). exists g. simpl.
      split; [done|]. split; [done|]. split; [|apply lookup_delete_eq].
      intros id Hin Hm. split; [done|]. by destruct (Hiss id Hin Hm).
    + destruct (rel_slot _ _ _ Hr i slot Hi) as (g & Hg & Eg & Hiss & Ha).
      exists g. split; [done|]. split; [done|]. split; [done|]. simpl. rewrite <-Ha.
      apply lookup_delete_ne. intros E. apply Hne. by eapply rel_ids_inj.
  - intros x Hx. destruct (decide (x = lease_id s)) as [->|Hne].
    { rewrite lookup_delete_eq in Hx. by destruct Hx. }
    rewrite lookup_delete_ne in Hx by done.
    destruct (rel_active _ _ _ Hr x Hx) as (i & slot & Hi & <-). exists i, slot. split; [|done].
    rewrite list_lookup_insert_ne; [done|]. intros ->. by simplify_eq.
  - apply Hr.
Qed.

(** The slot that an identifier names; it is the identifier's own slot exactly
    when the stored identifier matches. *)
Lemma lease_slot_of a n t id :
  lease_rel a n t -> lease_id_slot id < AOS_LEASE_MAX_ACTIVE ->
  exists j s, aget t (lease_id_slot id) = Some s /\ t !! j = Some s /\
    Z.to_nat (lease_id_slot id) = j /\
    (lease_id s <> id -> active a !! id = None).
Proof.
  intros Hr Hlt. pose proof (rel_len _ _ _ Hr) as Hl. rewrite lease_id_slot_eq in *.
  pose proof (Z.mod_pos_bound id 256 ltac:(lia)). unfold AOS_LEASE_MAX_ACTIVE in Hlt.
  destruct (aget_lt t (id mod 256)) as [s Hs]; [lia|]. exists (Z.to_nat (id mod 256)), s.
  pose proof Hs as [_ Hs']%aget_Some. split_and!; [done..|].
  intros Hne. destruct (active a !! id) as [v|] eqn:Ha; [|done].
  destruct (rel_active _ _ _ Hr id) as (i & s' & Hi & Hid); [by rewrite Ha|].
  destruct (rel_slot _ _ _ Hr i s' Hi) as (g & _ & Eg & _).
  pose proof (lookup_lt_Some _ _ _ Hi).
  assert (id mod 256 = Z.of_nat i) as E by (rewrite <-Hid, Eg; apply slot_id_mod; lia).
  rewrite E, Nat2Z.id in Hs'. congruence.
Qed.

Lemma lease_slot_none a n t id :
  lease_rel a n t -> AOS_LEASE_MAX_ACTIVE <= lease_id_slot id -> active a !! id = None.
Proof.
  intros Hr Hge. rewrite lease_id_slot_eq in Hge. unfold AOS_LEASE_MAX_ACTIVE in Hge.
  destruct (active a !! id) as [v|] eqn:Ha; [|done].
  destruct (rel_active _ _ _ Hr id) as (i & s' & Hi & Hid); [by rewrite Ha|].
  destruct (rel_slot _ _ _ Hr i s' Hi) as (g & _ & Eg & _).
  pose proof (lookup_lt_Some _ _ _ Hi). pose proof (rel_len _ _ _ Hr).
  rewrite <-Hid, Eg, slot_id_mod in Hge by lia. lia.
Qed.

Lemma lease_exec_refines a n t op :
  lease_rel a n t -> n + opens [op] < 2 ^ 24 ->
  exists o t' a', lease_exec op t = Some (o, t') /\ lspec_step a op o a' /\
    lease_rel a' (n + opens [op]) t'.
Proof.
  intros Hr Hn. destruct op as [b r|id|id]; simpl in *.
  - pose proof (lease_claim_spec b r t 0) as Hc. destruct (lease_claim 0 t b r) as [[id t']|].
    + destruct Hc as (j & s & Hj & Hs & Hid & ->). simpl in Hid. subst id.
      destruct (claim_id_fresh a n t j s) as (g & _ & _ & Hf & _); [done|lia|done..|].
      do 3 eexists. split; [done|]. split; [|apply lease_rel_open; [done|lia|done..]].
      constructor; [done|by eapply rel_not_full].
    + do 3 eexists. split; [done|]. split; [constructor; by eapply rel_full|].
      destruct Hr as [? Hsl ? ?]. split; [done| |done..]. intros i s Hi.
      destruct (Hsl i s Hi) as (g & ? & ?). exists g. split; [lia|done].
  - rewrite Z.add_0_r. destruct (Z.leb_spec AOS_LEASE_MAX_ACTIVE (lease_id_slot id)) as [Hge|Hlt].
    { do 3 eexists. split; [done|]. split; [|done]. constructor. by eapply lease_slot_none. }
    destruct (lease_slot_of _ _ _ _ Hr Hlt) as (j & s & Hg & Hj & Hidx & Hna). rewrite Hg. simpl.
    destruct (rel_slot _ _ _ Hr j s Hj) as (g & _ & _ & _ & Ha).
    case_bool_decide as Hst; simpl.
    + destruct (Z.eqb_spec (lease_id s) id) as [<-|Hne]; simpl.
      * rewrite aset_Some by (by eapply aget_bound). simpl. rewrite Hidx.
        do 3 eexists. split; [done|]. split; [|by apply lease_rel_close].
        econstructor. rewrite Ha, Hst. done.
      * do 3 eexists. split; [done|]. split; [|done]. constructor. auto.
    + do 3 eexists. split; [done|]. split; [|done]. constructor.
      destruct (decide (lease_id s = id)) as [<-|]; [|auto].
      rewrite Ha. by destruct (lease_state s).
  - rewrite Z.add_0_r. destruct (Z.leb_spec AOS_LEASE_MAX_ACTIVE (lease_id_slot id)) as [Hge|Hlt].
    { do 3 eexists. split; [done|]. split; [|done].
      rewrite <-(lease_slot_none _ _ _ _ Hr Hge). constructor. }
    destruct (lease_slot_of _ _ _ _ Hr Hlt) as (j & s & Hg & Hj & Hidx & Hna). rewrite Hg. simpl.
    destruct (rel_slot _ _ _ Hr j s Hj) as (g & _ & _ & _ & Ha).
    destruct (Z.eqb_spec (lease_id s) id) as [<-|Hne]; simpl.
    + do 3 eexists. split; [done|]. split; [|done]. rewrite <-Ha. constructor.
    + do 3 eexists. split; [done|]. split; [|done]. rewrite <-(Hna Hne). constructor.
Qed.

Lemma opens_cons op ops : opens (op :: ops) = opens [op] + opens ops.
Proof. by destruct op; simpl; lia. Qed.

Lemma opens_nonneg ops : 0 <= opens ops.
Proof. induction ops as [|[] ops IH]; simpl; lia. Qed.

Lemma lease_run_refines ops : forall a n t,
  lease_rel a n t -> n + opens ops < 2 ^ 24 ->
  exists os t' a', lease_run ops t = Some (os, t') /\ lspec_run a ops os a'.
Proof.
  induction ops as [|op ops IH]; intros a n t Hr Hn; cbn [lease_run].
  { do 3 eexists. split; [done|constructor]. }
  rewrite opens_cons in Hn. pose proof (opens_nonneg ops).
  destruct (lease_exec_refines a n t op) as (o & t' & a' & -> & Hs & Hr'); [done|lia|].
  destruct (IH a' _ t' Hr') as (os & t'' & a'' & -> & Hrun); [lia|].
  do 3 eexists. split; [done|]. by econstructor.
Qed.

Definition lease_table_fresh : aos_lease_table :=
  default [] (aos_lease_table_init (Some [])).

Lemma lease_rel_fresh : lease_rel (mk_lspec ∅ ∅) 0 lease_table_fresh.
Proof.
  split; simpl; [done| | |set_solver].
  - intros i slot Hi. assert (i < 8)%nat as Hlt by (by apply lookup_lt_Some in Hi).
    do 8 (destruct i as [|i]; [injection Hi as <-; exists 0; by repeat split|]). lia.
  - intros id [v Hv]. by rewrite lookup_empty in Hv.
Qed.

(** C17. Lease identifiers protect against reuse. Every sequence of opens,
    closes and lookups on a fresh table, up to the 2^24 - 1 opens that the
    generation width allows, behaves as the specification: no access is
    outside the table, an identifier is never issued twice, an open fails
    exactly when eight leases are active, a close succeeds exactly on an
    active lease and never on a stale identifier of its slot, and a lookup
    shows the borrower and rights of exactly the active leases. *)
Theorem lease_table_refines ops :
  opens ops < 2 ^ 24 ->
  exists os t a, lease_run ops lease_table_fresh = Some (os, t) /\
    lspec_run (mk_lspec ∅ ∅) ops os a.
Proof. intros Hn. by apply (lease_run_refines ops _ 0 _ lease_rel_fresh). Qed.

Lemma lease_table_refines_witness :
  exists os t a, lease_run [LOpen 5 3; LClose 0; LOpen 6 1; LClose 0; LGet 256] lease_table_fresh
      = Some (os, t) /\
    lspec_run (mk_lspec ∅ ∅) [LOpen 5 3; LClose 0; LOpen 6 1; LClose 0; LGet 256] os a.
Proof.
  apply (lease_table_refines [LOpen 5 3; LClose 0; LOpen 6 1; LClose 0; LGet 256]). by_compute.
Defined.

(** ** Loans: cap_lend.c *)

Definition AOS_CAP_LEND_OK : Z := 0.
Definition AOS_CAP_LEND_ERR_RIGHTS : Z := -1.
Definition AOS_CAP_LEND_ERR_LEASE : Z := -2.
Definition AOS_CAP_LEND_ERR_MINT : Z := -3.
Definition AOS_CAP_LEND_ERR_NOT_FOUND : Z := -4.
Definition AOS_CAP_LEND_ERR_REVOKE : Z := -5.
Definition AOS_CAP_LEND_ERR_LEASE_CLOSE : Z := -6.

Record cap_lend_record := mk_lend_record {
  in_use : bool; original : Z; src_root : Z; src_depth : Z; rec_lease_id : Z }.

Definition lend_record_zero : cap_lend_record := mk_lend_record false 0 0 0 0.

(** [g_lend_leases], [g_lend_records] and [g_lend_initialized]. *)
Record lend_state := mk_lend {
  g_lend_leases : aos_lease_table;
  g_lend_records : list cap_lend_record;
  g_lend_initialized : bool }.

Definition aos_cap_lend_init (s : lend_state) : lend_state :=
  mk_lend (default (g_lend_leases s) (aos_lease_table_init (Some (g_lend_leases s))))
    (replicate 8 lend_record_zero) true.

Definition cap_lend_ensure_init (s : lend_state) : lend_state :=
  if negb (g_lend_initialized s) then aos_cap_lend_init s else s.

Definition cap_lend_rights_is_strict_subset (r : seL4_CapRights) : bool :=
  negb (capAllowGrantReply r && capAllowGrant r && capAllowRead r && capAllowWrite r).

Definition cap_lend_pack_rights (r : seL4_CapRights) : Z :=
  Z.lor (Z.lor (Z.lor (if capAllowGrantReply r then Z.shiftl 1 3 else 0)
                      (if capAllowGrant r then Z.shiftl 1 2 else 0))
               (if capAllowRead r then Z.shiftl 1 1 else 0))
        (if capAllowWrite r then Z.shiftl 1 0 else 0).

(** Pointers to records are their indices. *)
Fixpoint lend_find_from (i : nat) (l : list cap_lend_record) (p : cap_lend_record -> bool) :
    option nat :=
  match l with
  | [] => None
  | r :: l => if p r then Some i else lend_find_from (S i) l p
  end.

Definition cap_lend_find (s : lend_state) (orig : Z) : option nat :=
  lend_find_from 0 (g_lend_records s) (fun r => in_use r && (original r =? orig)).

Definition cap_lend_find_free (s : lend_state) : option nat :=
  lend_find_from 0 (g_lend_records s) (fun r => negb (in_use r)).

Definition set_leases (t : aos_lease_table) (s : lend_state) : lend_state :=
  mk_lend t (g_lend_records s) (g_lend_initialized s).
Definition set_record (i : nat) (r : cap_lend_record) (s : lend_state) : lend_state :=
  mk_lend (g_lend_leases s) (<[i := r]> (g_lend_records s)) (g_lend_initialized s).

Section lend.
Context {K : Type} `{Kernel K}.

Definition lend_close (id : Z) : kprog K lend_state Z :=
  s ← kget;
  r ← lift (aos_lease_close (Some (g_lend_leases s)) id);
  kmodify (set_leases (default (g_lend_leases s) r.2));;
  mret r.1.

Definition aos_cap_lend (root orig depth dest_cnode dest_slot dest_depth : Z)
    (rights : seL4_CapRights) (badge : Z) : kprog K lend_state Z :=
  kmodify cap_lend_ensure_init;;
  if negb (cap_lend_rights_is_strict_subset rights) then mret AOS_CAP_LEND_ERR_RIGHTS else
  s ← kget;
  match cap_lend_find s orig with
  | Some _ => mret AOS_CAP_LEND_ERR_LEASE
  | None =>
      match cap_lend_find_free s with
      | None => mret AOS_CAP_LEND_ERR_LEASE
      | Some rec =>
          match aos_lease_open (Some (g_lend_leases s)) (u32 badge)
                  (cap_lend_pack_rights rights) false with
          | (0, Some id, Some t) =>
              kmodify (set_leases t);;
              err ← ksys (CNode_Mint dest_cnode dest_slot (u8 dest_depth) root orig (u8 depth)
                            rights badge);
              if negb (bool_decide (err = seL4_NoError)) then
                lend_close id;; mret AOS_CAP_LEND_ERR_MINT
              else
                kmodify (set_record rec (mk_lend_record true orig root depth id));;
                mret AOS_CAP_LEND_OK
          | _ => mret AOS_CAP_LEND_ERR_LEASE
          end
      end
  end.

Definition aos_cap_lend_revoke (orig : Z) : kprog K lend_state Z :=
  kmodify cap_lend_ensure_init;;
  s ← kget;
  match cap_lend_find s orig with
  | None => mret AOS_CAP_LEND_ERR_NOT_FOUND
  | Some i =>
      rec ← lift (g_lend_records s !! i);
      err ← ksys (CNode_Revoke (src_root rec) orig (u8 (src_depth rec)));
      if negb (bool_decide (err = seL4_NoError)) then mret AOS_CAP_LEND_ERR_REVOKE else
      r ← lend_close (rec_lease_id rec);
      if negb (r =? 0) then mret AOS_CAP_LEND_ERR_LEASE_CLOSE else
      kmodify (set_record i lend_record_zero);;
      mret AOS_CAP_LEND_OK
  end.

Definition aos_cap_lend_lookup (orig : Z) : kprog K lend_state (option aos_lease) :=
  kmodify cap_lend_ensure_init;;
  s ← kget;
  match cap_lend_find s orig with
  | None => mret None
  | Some i =>
      rec ← lift (g_lend_records s !! i);
      lift (aos_lease_get (Some (g_lend_leases s)) (rec_lease_id rec))
  end.
End lend.

(** ** Loans: specification *)

(** An outstanding loan: where the original is, and what was lent. *)
Record loan := mk_loan { ln_root : Z; ln_depth : Z; ln_borrower : Z; ln_rights : Z }.

(** Record [r], in use, and the active lease it names stand for loan [l]. *)
Definition record_loan (t : aos_lease_table) (r : cap_lend_record) (l : loan) : Prop :=
  in_use r = true /\ src_root r = ln_root l /\ src_depth r = ln_depth l /\
  exists j slot, t !! j = Some slot /\ lease_id slot = rec_lease_id r /\
    lease_state slot = AOS_LEASE_ACTIVE /\ borrower_pd slot = ln_borrower l /\
    lease_rights slot = ln_rights l.

Record lend_rel (L : gmap Z loan) (s : lend_state) : Prop := {
  lr_init : g_lend_initialized s = true;
  lr_leases : length (g_lend_leases s) = 8%nat;
  lr_ids : forall j slot, g_lend_leases s !! j = Some slot ->
    exists g, 0 <= g < 2 ^ 24 /\ lease_id slot = Z.of_nat j + 256 * g;
  lr_records : length (g_lend_records s) = 8%nat;
  lr_used : forall i r, g_lend_records s !! i = Some r -> in_use r = true ->
    exists l, L !! original r = Some l /\ record_loan (g_lend_leases s) r l;
  lr_loans : forall o l, L !! o = Some l ->
    exists i r, g_lend_records s !! i = Some r /\ in_use r = true /\ original r = o;
  lr_inj : forall i j r r', g_lend_records s !! i = Some r -> g_lend_records s !! j = Some r' ->
    in_use r = true -> in_use r' = true ->
    original r = original r' \/ rec_lease_id r = rec_lease_id r' -> i = j;
  lr_owned : forall j slot, g_lend_leases s !! j = Some slot ->
    lease_state slot = AOS_LEASE_ACTIVE ->
    exists i r, g_lend_records s !! i = Some r /\ in_use r = true /\ rec_lease_id r = lease_id slot }.

Inductive lend_op :=
  | Lend (root orig depth dest_cnode dest_slot dest_depth : Z) (rights : seL4_CapRights) (badge : Z)
  | Revoke (orig : Z).

(** What each operation asks of the kernel, answers, and does to the set of
    outstanding loans. *)
Inductive lend_spec (L : gmap Z loan) : lend_op -> list kevent -> Z -> gmap Z loan -> Prop :=
  | spec_rights root o d dc ds dd badge :
      lend_spec L (Lend root o d dc ds dd seL4_AllRights badge) [] AOS_CAP_LEND_ERR_RIGHTS L
  | spec_lease root o d dc ds dd rights badge :
      rights <> seL4_AllRights -> is_Some (L !! o) \/ (8 <= size L)%nat ->
      lend_spec L (Lend root o d dc ds dd rights badge) [] AOS_CAP_LEND_ERR_LEASE L
  | spec_mint root o d dc ds dd rights badge e :
      rights <> seL4_AllRights -> L !! o = None -> (size L < 8)%nat ->
      lend_spec L (Lend root o d dc ds dd rights badge)
        [(CNode_Mint dc ds (u8 dd) root o (u8 d) rights badge, e)]
        (if decide (e = seL4_NoError) then AOS_CAP_LEND_OK else AOS_CAP_LEND_ERR_MINT)
        (if decide (e = seL4_NoError)
         then <[o := mk_loan root d (u32 badge) (cap_lend_pack_rights rights)]> L else L)
  | spec_not_found o :
      L !! o = None -> lend_spec L (Revoke o) [] AOS_CAP_LEND_ERR_NOT_FOUND L
  | spec_revoke o l e :
      L !! o = Some l ->
      lend_spec L (Revoke o) [(CNode_Revoke (ln_root l) o (u8 (ln_depth l)), e)]
        (if decide (e = seL4_NoError) then AOS_CAP_LEND_OK else AOS_CAP_LEND_ERR_REVOKE)
        (if decide (e = seL4_NoError) then delete o L else L).

(** ** Loans: lemmas *)

Lemma lend_find_from_spec p l : forall i,
  match lend_find_from i l p with
  | Some k => exists j r, k = (i + j)%nat /\ l !! j = Some r /\ p r = true
  | None => forall j r, l !! j = Some r -> p r = false
  end.
Proof.
  induction l as [|x l IH]; intros i; simpl; [by intros j r; rewrite lookup_nil|].
  destruct (p x) eqn:Hp; [exists 0%nat, x; rewrite Nat.add_0_r; done|].
  specialize (IH (S i)). destruct (lend_find_from (S i) l p) as [k|].
  - destruct IH as (j & r & -> & ? & ?). exists (S j), r. split_and!; [lia|done..].
  - intros [|j] r Hj; simpl in Hj; [by simplify_eq|by eapply IH].
Qed.

Lemma strict_subset_spec r : cap_lend_rights_is_strict_subset r = true <-> r <> seL4_AllRights.
Proof. by destruct r as [[] [] [] []]. Qed.

Section lend_lemmas.
Context (L : gmap Z loan) (s : lend_state).
Hypothesis Hrel : lend_rel L s.

Lemma lease_ids_inj i j x y :
  g_lend_leases s !! i = Some x -> g_lend_leases s !! j = Some y -> lease_id x = lease_id y -> i = j.
Proof using Hrel.
  intros Hi Hj He. pose proof (lr_leases _ _ Hrel).
  pose proof (lookup_lt_Some _ _ _ Hi). pose proof (lookup_lt_Some _ _ _ Hj).
  destruct (lr_ids _ _ Hrel i x Hi) as (g & _ & Eg).
  destruct (lr_ids _ _ Hrel j y Hj) as (g' & _ & Eg'). lia.
Qed.

(** The record of a loan is found exactly when there is one. *)
Lemma lend_find_loan o :
  match cap_lend_find s o with
  | Some i => exists r l, g_lend_records s !! i = Some r /\ original r = o /\
      L !! o = Some l /\ record_loan (g_lend_leases s) r l
  | None => L !! o = None
  end.
Proof using Hrel.
  unfold cap_lend_find. pose proof (lend_find_from_spec
    (fun r => in_use r && (original r =? o)) (g_lend_records s) 0) as Hf.
  destruct (lend_find_from 0 _ _) as [k|].
  - destruct Hf as (j & r & -> & Hj & [Hu Ho%Z.eqb_eq]%andb_true_iff). simpl.
    destruct (lr_used _ _ Hrel j r Hj Hu) as (l & Hl & Hr). subst o. eauto 10.
  - destruct (L !! o) as [l|] eqn:Hl; [|done].
    destruct (lr_loans _ _ Hrel o l Hl) as (i & r & Hi & Hu & Ho).
    specialize (Hf i r Hi). simpl in Hf. rewrite Hu, Ho, Z.eqb_refl in Hf. done.
Qed.

(** Loans are counted by the records in use. *)
Lemma lend_full :
  (forall i r, g_lend_records s !! i = Some r -> in_use r = true) -> (8 <= size L)%nat.
Proof using Hrel.
  intros Hall. rewrite <-size_dom.
  assert (NoDup (original <$> g_lend_records s)) as Hnd.
  { apply NoDup_alt. intros i j x Hi Hj. rewrite list_lookup_fmap in Hi, Hj.
    destruct (g_lend_records s !! i) as [r|] eqn:Er; [|done].
    destruct (g_lend_records s !! j) as [r'|] eqn:Er'; [|done]. simplify_eq/=.
    eapply (lr_inj _ _ Hrel); eauto. }
  transitivity (size ((list_to_set (original <$> g_lend_records s)) : gset Z)).
  { rewrite size_list_to_set by done. rewrite length_fmap, (lr_records _ _ Hrel). lia. }
  apply subseteq_size. intros x Hx. apply elem_of_list_to_set in Hx.
  apply list_elem_of_fmap in Hx as (r & -> & Hr). apply list_elem_of_lookup in Hr as [i Hi].
  destruct (lr_used _ _ Hrel i r Hi (Hall i r Hi)) as (l & Hl & _). apply elem_of_dom. by eexists.
Qed.

Lemma lend_not_full i r :
  g_lend_records s !! i = Some r -> in_use r = false -> (size L < 8)%nat.
Proof using Hrel.
  intros Hi Hf. rewrite <-size_dom.
  assert (dom L ⊆ list_to_set (original <$> delete i (g_lend_records s))) as Hsub.
  { intros o Ho. apply elem_of_dom in Ho as [l Hl].
    destruct (lr_loans _ _ Hrel o l Hl) as (j & r' & Hj & Hu & <-).
    apply elem_of_list_to_set, list_elem_of_fmap. exists r'. split; [done|].
    eapply elem_delete; [exact Hj|]. intros ->. congruence. }
  apply subseteq_size in Hsub. pose proof (size_list_to_set_le (original <$> delete i (g_lend_records s))) as Hsz.
  rewrite length_fmap, length_delete in Hsz by (by eexists).
  rewrite (lr_records _ _ Hrel) in Hsz. lia.
Qed.

(** While a record is free, so is a lease. *)
Lemma lend_lease_free i r :
  g_lend_records s !! i = Some r -> in_use r = false ->
  ~ Forall (fun x => lease_state x = AOS_LEASE_ACTIVE) (g_lend_leases s).
Proof using Hrel.
  intros Hi Hf Hall. rewrite Forall_forall in Hall.
  assert (NoDup (lease_id <$> g_lend_leases s)) as Hnd.
  { apply NoDup_alt. intros a b x Ha Hb. rewrite list_lookup_fmap in Ha, Hb.
    destruct (g_lend_leases s !! a) as [y|] eqn:Ey; [|done].
    destruct (g_lend_leases s !! b) as [z|] eqn:Ez; [|done]. simplify_eq/=.
    by eapply lease_ids_inj. }
  assert (lease_id <$> g_lend_leases s ⊆ rec_lease_id <$> delete i (g_lend_records s)) as Hsub.
  { intros x Hx. apply list_elem_of_fmap in Hx as (y & -> & Hy). pose proof (Hall y Hy) as Hst.
    apply list_elem_of_lookup in Hy as [j Hj].
    destruct (lr_owned _ _ Hrel j y Hj Hst) as (k & r' & Hk & Hu & <-).
    apply list_elem_of_fmap. exists r'. split; [done|].
    eapply elem_delete; [exact Hk|]. intros ->. congruence. }
  apply NoDup_submseteq, submseteq_length in Hsub; [|done].
  rewrite !length_fmap, length_delete in Hsub by (by eexists).
  rewrite (lr_records _ _ Hrel), (lr_leases _ _ Hrel) in Hsub. lia.
Qed.

(** Slot identifiers keep their form when a slot is claimed. *)
Lemma claim_id_form j slot :
  g_lend_leases s !! j = Some slot ->
  exists g, 0 <= g < 2 ^ 24 /\ claim_id (Z.of_nat j) slot = Z.of_nat j + 256 * g.
Proof using Hrel.
  intros Hj. destruct (lr_ids _ _ Hrel j slot Hj) as (g & Hg & Eg).
  pose proof (lookup_lt_Some _ _ _ Hj). pose proof (lr_leases _ _ Hrel).
  unfold claim_id. rewrite Eg, lease_id_gen_eq by lia. change AOS_LEASE_GEN_MASK with (Z.ones 24).
  destruct (lease_state slot); try (exists g; split; [done|]; apply lease_make_id_eq; lia).
  rewrite Z.land_ones by lia. exists (u32 (g + 1) mod 2 ^ 24).
  pose proof (Z.mod_pos_bound (u32 (g + 1)) (2 ^ 24) ltac:(lia)).
  split; [done|]. apply lease_make_id_eq; lia.
Qed.

Lemma lease_close_run j slot :
  g_lend_leases s !! j = Some slot -> lease_state slot = AOS_LEASE_ACTIVE ->
  aos_lease_close (Some (g_lend_leases s)) (lease_id slot)
    = Some (0, Some (<[j := set_lease_state AOS_LEASE_REVOKED slot]> (g_lend_leases s))).
Proof using Hrel.
  intros Hj Hst. destruct (lr_ids _ _ Hrel j slot Hj) as (g & _ & Eg).
  pose proof (lookup_lt_Some _ _ _ Hj). pose proof (lr_leases _ _ Hrel).
  unfold aos_lease_close. rewrite lease_id_slot_eq, Eg, slot_id_mod by lia.
  unfold AOS_LEASE_MAX_ACTIVE. rewrite (proj2 (Z.leb_gt _ _)) by lia.
  rewrite (proj2 (aget_Some _ _ slot)) by (split; [lia|]; by rewrite Nat2Z.id). simpl.
  rewrite bool_decide_eq_true_2 by done. simpl. rewrite <-Eg, Z.eqb_refl. simpl.
  rewrite aset_Some by lia. by rewrite Nat2Z.id.
Qed.

Lemma record_loan_slot j x y r l :
  g_lend_leases s !! j = Some x -> lease_state x <> AOS_LEASE_ACTIVE ->
  record_loan (g_lend_leases s) r l -> record_loan (<[j := y]> (g_lend_leases s)) r l.
Proof using Type.
  intros Hj Hx (Hu & Hr & Hd & k & slot & Hk & Hs). split_and!; [done..|]. exists k, slot.
  split; [|done]. rewrite list_lookup_insert_ne; [done|]. intros ->. naive_solver.
Qed.

(** A slot that is not active can be rewritten while it stays inactive. *)
Lemma lend_rel_slot j x y g :
  g_lend_leases s !! j = Some x -> lease_state x <> AOS_LEASE_ACTIVE ->
  0 <= g < 2 ^ 24 -> lease_id y = Z.of_nat j + 256 * g -> lease_state y <> AOS_LEASE_ACTIVE ->
  lend_rel L (set_leases (<[j := y]> (g_lend_leases s)) s).
Proof using Hrel.
  intros Hj Hx Hg Hy Hys. split; try apply Hrel; simpl.
  - rewrite length_insert. apply Hrel.
  - intros k slot Hk. apply list_lookup_insert_Some in Hk as [(<- & <- & _)|[_ Hk]];
      [eauto|by eapply lr_ids].
  - intros i r Hi Hu. destruct (lr_used _ _ Hrel i r Hi Hu) as (l & Hl & Hrec).
    exists l. split; [done|]. by eapply record_loan_slot.
  - intros k slot Hk Hst. apply list_lookup_insert_Some in Hk as [(_ & <- & _)|[_ Hk]];
      [done|by eapply lr_owned].
Qed.

(** A new loan. *)
Lemma lend_rel_add j x y g i r0 r l :
  g_lend_leases s !! j = Some x -> lease_state x <> AOS_LEASE_ACTIVE ->
  0 <= g < 2 ^ 24 -> lease_id y = Z.of_nat j + 256 * g -> lease_state y = AOS_LEASE_ACTIVE ->
  g_lend_records s !! i = Some r0 -> in_use r0 = false ->
  L !! original r = None -> rec_lease_id r = lease_id y -> in_use r = true ->
  src_root r = ln_root l -> src_depth r = ln_depth l ->
  borrower_pd y = ln_borrower l -> lease_rights y = ln_rights l ->
  lend_rel (<[original r := l]> L)
    (set_record i r (set_leases (<[j := y]> (g_lend_leases s)) s)).
Proof using Hrel.
  intros Hj Hx Hg Hy Hys Hi Hfree Hnone Hid Hu Hroot Hdepth Hb Hrt.
  pose proof (lookup_lt_Some _ _ _ Hj). pose proof (lookup_lt_Some _ _ _ Hi).
  assert (forall k r', g_lend_records s !! k = Some r' -> in_use r' = true ->
    original r' <> original r /\ rec_lease_id r' <> rec_lease_id r) as Hother.
  { intros k r' Hk Hu'. destruct (lr_used _ _ Hrel k r' Hk Hu') as (l' & Hl' & Hrec).
    split; [congruence|]. destruct Hrec as (_ & _ & _ & m & z & Hm & Hz & Hzs & _).
    destruct (lr_ids _ _ Hrel m z Hm) as (g' & _ & Eg').
    pose proof (lookup_lt_Some _ _ _ Hm). pose proof (lr_leases _ _ Hrel).
    assert (m <> j) by (intros ->; naive_solver). rewrite <-Hz, Hid, Hy, Eg'. lia. }
  split; simpl; rewrite ?length_insert; try apply Hrel.
  - intros k slot Hk. apply list_lookup_insert_Some in Hk as [(<- & <- & _)|[_ Hk]];
      [eauto|by eapply lr_ids].
  - intros k r' Hk Hu'. apply list_lookup_insert_Some in Hk as [(<- & <- & _)|[_ Hk]].
    + exists l. split; [apply lookup_insert_eq|]. split_and!; [done..|]. exists j, y.
      split; [by apply list_lookup_insert_eq|by split_and!].
    + destruct (lr_used _ _ Hrel k r' Hk Hu') as (l' & Hl' & Hrec). exists l'.
      destruct (Hother k r' Hk Hu'). rewrite lookup_insert_ne by done.
      split; [done|]. by eapply record_loan_slot.
  - intros o l' Ho. apply lookup_insert_Some in Ho as [(<- & _)|[Hne Ho]].
    + exists i, r. split; [by apply list_lookup_insert_eq|done].
    + destruct (lr_loans _ _ Hrel o l' Ho) as (k & r' & Hk & Hu' & <-). exists k, r'.
      rewrite list_lookup_insert_ne; [done|]. intros ->. congruence.
  - intros a b ra rb Ha Hb' Hua Hub Heq.
    apply list_lookup_insert_Some in Ha as [(<- & <- & _)|[_ Ha]];
      apply list_lookup_insert_Some in Hb' as [(? & <- & _)|[_ Hb']]; [done|..].
    + destruct (Hother b rb Hb' Hub). naive_solver.
    + destruct (Hother a ra Ha Hua). naive_solver.
    + by eapply (lr_inj _ _ Hrel).
  - intros k slot Hk Hst. apply list_lookup_insert_Some in Hk as [(_ & <- & _)|[_ Hk]].
    + exists i, r. split; [by apply list_lookup_insert_eq|done].
    + destruct (lr_owned _ _ Hrel k slot Hk Hst) as (m & r' & Hm & Hu' & Hr'). exists m, r'.
      rewrite list_lookup_insert_ne; [done|]. intros ->. congruence.
Qed.

(** A loan withdrawn. *)
Lemma lend_rel_remove i r j slot :
  g_lend_records s !! i = Some r -> in_use r = true ->
  g_lend_leases s !! j = Some slot -> lease_id slot = rec_lease_id r ->
  lend_rel (delete (original r) L)
    (set_record i lend_record_zero
       (set_leases (<[j := set_lease_state AOS_LEASE_REVOKED slot]> (g_lend_leases s)) s)).
Proof using Hrel.
  intros Hi Hu Hj Hid. split; simpl; rewrite ?length_insert; try apply Hrel.
  - intros k x Hk. apply list_lookup_insert_Some in Hk as [(<- & <- & _)|[_ Hk]];
      [by apply (lr_ids _ _ Hrel j slot)|by eapply lr_ids].
  - intros k r' Hk Hu'. apply list_lookup_insert_Some in Hk as [(_ & <- & _)|[Hne Hk]]; [done|].
    destruct (lr_used _ _ Hrel k r' Hk Hu') as (l' & Hl' & Hrec). exists l'. split.
    + rewrite lookup_delete_ne; [done|]. intros E. apply Hne.
      by eapply (lr_inj _ _ Hrel); [..|left].
    + destruct Hrec as (Hr0 & Hr1 & Hr2 & m & z & Hm & Hz & Hzs). split_and!; [done..|].
      exists m, z. split; [|done]. rewrite list_lookup_insert_ne; [done|]. intros ->. apply Hne.
      eapply (lr_inj _ _ Hrel); [done..|]. right. congruence.
  - intros o l Ho. apply lookup_delete_Some in Ho as [Hne Ho].
    destruct (lr_loans _ _ Hrel o l Ho) as (k & r' & Hk & Hu' & <-). exists k, r'.
    rewrite list_lookup_insert_ne; [done|]. intros ->. congruence.
  - intros a b ra rb Ha Hb Hua Hub Heq.
    apply list_lookup_insert_Some in Ha as [(_ & <- & _)|[_ Ha]]; [done|].
    apply list_lookup_insert_Some in Hb as [(_ & <- & _)|[_ Hb]]; [done|].
    by eapply (lr_inj _ _ Hrel).
  - intros k x Hk Hst. apply list_lookup_insert_Some in Hk as [(_ & <- & _)|[Hne Hk]]; [done|].
    destruct (lr_owned _ _ Hrel k x Hk Hst) as (m & r' & Hm & Hu' & Hr'). exists m, r'.
    rewrite list_lookup_insert_ne; [done|]. intros ->. apply Hne.
    eapply lease_ids_inj; [done..|]. congruence.
Qed.
End lend_lemmas.

(** ** Loans: refinement *)
Section lend_refines.
Context {K : Type} `{Kernel K}.

(** [m] behaves as the specification of [op] on the loans [L]. *)
Definition lend_sim (op : lend_op) (L : gmap Z loan) (ws : kworld K * lend_state) (r : Z)
    (ws' : kworld K * lend_state) : Prop :=
  exists evs L', lend_spec L op evs r L' /\ kw_log ws'.1 = evs ++ kw_log ws.1 /\
    lend_rel L' (cap_lend_ensure_init ws'.2).

Lemma ensure_init_id L s : lend_rel L s -> cap_lend_ensure_init s = s.
Proof. intros Hr. unfold cap_lend_ensure_init. by rewrite (lr_init _ _ Hr). Qed.

Lemma lend_sim_intro op L ws r w' s' evs L' :
  lend_spec L op evs r L' -> kw_log w' = evs ++ kw_log ws.1 -> lend_rel L' s' ->
  lend_sim op L ws r (w', s').
Proof.
  intros ? ? Hr. exists evs, L'. split; [done|]. split; [done|].
  simpl. by rewrite (ensure_init_id _ _ Hr).
Qed.

Lemma wp_cap_lend L root o d dc ds dd rights badge ws :
  lend_rel L (cap_lend_ensure_init ws.2) ->
  wp (aos_cap_lend root o d dc ds dd rights badge)
    (lend_sim (Lend root o d dc ds dd rights badge) L ws) ws.
Proof.
  intros Hr. unfold aos_cap_lend. apply wp_bind, wp_kmodify.
  set (s := cap_lend_ensure_init ws.2) in *. destruct ws as [w s0]. simpl in *.
  destruct (cap_lend_rights_is_strict_subset rights) eqn:Hstrict; simpl.
  2:{ apply wp_ret. assert (rights = seL4_AllRights) as -> by (by destruct rights as [[] [] [] []]).
      eapply lend_sim_intro; [apply spec_rights|done|done]. }
  apply strict_subset_spec in Hstrict. apply wp_bind, wp_kget. simpl.
  pose proof (lend_find_loan L s Hr o) as Hfind.
  destruct (cap_lend_find s o) as [i|].
  { destruct Hfind as (r & l & _ & _ & Hl & _). apply wp_ret.
    eapply lend_sim_intro; [apply spec_lease; [done|left; by eexists]|done|done]. }
  unfold cap_lend_find_free. pose proof (lend_find_from_spec (fun r => negb (in_use r))
    (g_lend_records s) 0) as Hfree.
  destruct (lend_find_from 0 (g_lend_records s) _) as [k|].
  2:{ apply wp_ret. eapply lend_sim_intro; [apply spec_lease; [done|right]|done|done].
      apply (lend_full L s Hr). intros i r Hi. by apply negb_false_iff, (Hfree i r). }
  destruct Hfree as (i & r0 & -> & Hi & Hu%negb_true_iff). simpl.
  pose proof (lend_not_full L s Hr i r0 Hi Hu) as Hsize.
  pose proof (lease_claim_spec (u32 badge) (cap_lend_pack_rights rights) (g_lend_leases s) 0) as Hc.
  destruct (lease_claim 0 _ _ _) as [[id t]|];
    [|by destruct (lend_lease_free L s Hr i r0 Hi Hu)].
  destruct Hc as (j & slot & Hj & Hst & Hid & ->). rewrite Z.add_0_l in Hid.
  destruct (claim_id_form L s Hr j slot Hj) as (g & Hg & Eg). rewrite <-Hid in Eg.
  pose proof (lookup_lt_Some _ _ _ Hj) as Hlt.
  apply wp_bind, wp_kmodify, wp_bind, wp_ksys. intros e k.
  destruct (bool_decide_reflect (e = seL4_NoError)) as [->|Hne]; simpl.
  - apply wp_bind, wp_kmodify, wp_ret. eapply lend_sim_intro.
    + by apply spec_mint with (e := seL4_NoError).
    + done.
    + apply (lend_rel_add L s Hr j slot (mk_lease id (u32 badge) (cap_lend_pack_rights rights)
        AOS_LEASE_ACTIVE) g i r0 (mk_lend_record true o root d id)
        (mk_loan root d (u32 badge) (cap_lend_pack_rights rights))); done.
  - apply wp_bind, wp_bind, wp_kget. simpl.
    set (y := mk_lease id (u32 badge) (cap_lend_pack_rights rights) AOS_LEASE_ACTIVE).
    assert (aos_lease_close (Some (<[j:=y]> (g_lend_leases s))) id = Some (0,
      Some (<[j := set_lease_state AOS_LEASE_REVOKED y]> (g_lend_leases s)))) as Hclose.
    { pose proof (lend_rel_add L s Hr j slot y g i r0 (mk_lend_record true o root d id)
        (mk_loan root d (u32 badge) (cap_lend_pack_rights rights)) Hj Hst Hg Eg eq_refl Hi Hu
        Hfind eq_refl eq_refl eq_refl eq_refl eq_refl eq_refl) as Hadd.
      pose proof (lease_close_run _ _ Hadd j y) as Hcl. simpl in Hcl.
      rewrite list_insert_insert_eq in Hcl. apply Hcl; [|done]. by apply list_lookup_insert_eq. }
    apply wp_bind. eapply wp_lift; [exact Hclose|]. apply wp_bind, wp_kmodify, wp_ret, wp_ret.
    simpl. pose proof (spec_mint L root o d dc ds dd rights badge e Hstrict Hfind Hsize) as Hsp.
    rewrite !decide_False in Hsp by done. eapply lend_sim_intro; [exact Hsp|done|].
      by apply (lend_rel_slot L s Hr j slot (set_lease_state AOS_LEASE_REVOKED y) g).
Qed.

Lemma wp_cap_revoke L o ws :
  lend_rel L (cap_lend_ensure_init ws.2) ->
  wp (aos_cap_lend_revoke o) (lend_sim (Revoke o) L ws) ws.
Proof.
  intros Hr. unfold aos_cap_lend_revoke. apply wp_bind, wp_kmodify.
  set (s := cap_lend_ensure_init ws.2) in *. destruct ws as [w s0]. simpl in *.
  apply wp_bind, wp_kget. simpl. pose proof (lend_find_loan L s Hr o) as Hfind.
  destruct (cap_lend_find s o) as [i|].
  2:{ apply wp_ret. eapply lend_sim_intro; [by apply spec_not_found|done|done]. }
  destruct Hfind as (r & l & Hi & <- & Hl & Hrec).
  destruct Hrec as (Hu & Hroot & Hdepth & j & slot & Hj & Hid & Hst & _).
  apply wp_bind. eapply wp_lift; [exact Hi|]. rewrite Hroot, Hdepth.
  apply wp_bind, wp_ksys. intros e k.
  destruct (bool_decide_reflect (e = seL4_NoError)) as [->|Hne]; simpl.
  - apply wp_bind, wp_bind, wp_kget. simpl. apply wp_bind.
    eapply wp_lift; [rewrite <-Hid; by apply (lease_close_run L s Hr j)|].
    apply wp_bind, wp_kmodify, wp_ret. simpl. apply wp_bind, wp_kmodify, wp_ret. simpl.
    eapply lend_sim_intro; [by apply spec_revoke with (e := seL4_NoError)|done|].
    by apply (lend_rel_remove L s Hr i r j slot).
  - apply wp_ret. pose proof (spec_revoke L _ l e Hl) as Hsp.
    rewrite !decide_False in Hsp by done. by eapply lend_sim_intro; [exact Hsp|done|].
Qed.

(** A loan is reported, with its borrower and rights, exactly while it is
    outstanding. *)
Lemma wp_cap_lookup L o (ws : kworld K * lend_state) :
  lend_rel L (cap_lend_ensure_init ws.2) ->
  wp (aos_cap_lend_lookup o) (fun r ws' =>
    ws' = (ws.1, cap_lend_ensure_init ws.2) /\
    match L !! o with
    | None => r = None
    | Some l => exists x, r = Some x /\ lease_state x = AOS_LEASE_ACTIVE /\
        borrower_pd x = ln_borrower l /\ lease_rights x = ln_rights l
    end) ws.
Proof.
  intros Hr. unfold aos_cap_lend_lookup. apply wp_bind, wp_kmodify.
  set (s := cap_lend_ensure_init ws.2) in *. destruct ws as [w s0]. simpl in *.
  apply wp_bind, wp_kget. simpl. pose proof (lend_find_loan L s Hr o) as Hfind.
  destruct (cap_lend_find s o) as [i|]; [|apply wp_ret; by rewrite Hfind].
  destruct Hfind as (r & l & Hi & <- & -> & Hrec).
  destruct Hrec as (_ & _ & _ & j & slot & Hj & Hid & Hst & Hb & Hrt).
  apply wp_bind. eapply wp_lift; [exact Hi|].
  destruct (lr_ids _ _ Hr j slot Hj) as (g & _ & Eg).
  pose proof (lookup_lt_Some _ _ _ Hj). pose proof (lr_leases _ _ Hr).
  eapply (wp_lift _ (Some slot)); [|split; [done|]; by exists slot].
  unfold aos_lease_get. rewrite <-Hid, lease_id_slot_eq, Eg, slot_id_mod by lia.
  unfold AOS_LEASE_MAX_ACTIVE. rewrite (proj2 (Z.leb_gt _ _)) by lia.
  rewrite (proj2 (aget_Some _ _ slot)) by (split; [lia|]; by rewrite Nat2Z.id). simpl.
  by rewrite <-Eg, Z.eqb_refl.
Qed.

Definition lend_exec (op : lend_op) : kprog K lend_state Z :=
  match op with
  | Lend root o d dc ds dd rights badge => aos_cap_lend root o d dc ds dd rights badge
  | Revoke o => aos_cap_lend_revoke o
  end.

Fixpoint lend_run (ops : list lend_op) : kprog K lend_state (list Z) :=
  match ops with
  | [] => mret []
  | op :: ops => r ← lend_exec op; rs ← lend_run ops; mret (r :: rs)
  end.

(** The specification run: the results, and the invocations newest first. *)
Inductive lend_spec_run : gmap Z loan -> list lend_op -> list kevent -> list Z -> gmap Z loan -> Prop :=
  | lsr_nil L : lend_spec_run L [] [] [] L
  | lsr_cons L op evs r L' ops evs' rs L'' :
      lend_spec L op evs r L' -> lend_spec_run L' ops evs' rs L'' ->
      lend_spec_run L (op :: ops) (evs' ++ evs) (r :: rs) L''.

Lemma wp_lend_exec L op ws :
  lend_rel L (cap_lend_ensure_init ws.2) -> wp (lend_exec op) (lend_sim op L ws) ws.
Proof. destruct op; [apply wp_cap_lend|apply wp_cap_revoke]. Qed.

Lemma wp_lend_run ops : forall L ws,
  lend_rel L (cap_lend_ensure_init ws.2) ->
  wp (lend_run ops) (fun rs ws' => exists evs L', lend_spec_run L ops evs rs L' /\
    kw_log ws'.1 = evs ++ kw_log ws.1 /\ lend_rel L' (cap_lend_ensure_init ws'.2)) ws.
Proof.
  induction ops as [|op ops IH]; intros L ws Hr; simpl.
  { apply wp_ret. exists [], L. split; [constructor|done]. }
  apply wp_bind. eapply wp_mono; [by apply wp_lend_exec|].
  intros r ws1 (evs & L1 & Hs & Hl & Hr1). apply wp_bind. eapply wp_mono; [by apply (IH L1)|].
  intros rs ws2 (evs' & L2 & Hs2 & Hl2 & Hr2). apply wp_ret. exists (evs' ++ evs), L2.
  split; [by econstructor|]. split; [|done]. by rewrite Hl2, Hl, app_assoc.
Qed.
End lend_refines.

(** The module's zero-initialised static storage. *)
Definition lend_boot : lend_state :=
  mk_lend (replicate 8 (mk_lease 0 0 0 AOS_LEASE_FREE)) (replicate 8 lend_record_zero) false.

Lemma lend_rel_boot : lend_rel ∅ (cap_lend_ensure_init lend_boot).
Proof.
  change (cap_lend_ensure_init lend_boot)
    with (mk_lend lease_table_fresh (replicate 8 lend_record_zero) true).
  assert (forall (i : nat) r, replicate 8 lend_record_zero !! i = Some r -> in_use r = false) as Hr.
  { intros i r [-> _]%lookup_replicate. done. }
  split; simpl; try done.
  - intros j slot Hj. destruct (rel_slot _ _ _ lease_rel_fresh j slot Hj) as (g & ? & ? & _).
    exists g. split; [lia|done].
  - intros i r Hi Hu. by rewrite (Hr i r Hi) in Hu.
  - intros i j r r' Hi _ Hu. by rewrite (Hr i r Hi) in Hu.
  - intros j slot Hj Hst. destruct (rel_slot _ _ _ lease_rel_fresh j slot Hj) as (g & _ & _ & _ & Ha).
    rewrite Hst in Ha. simpl in Ha. by rewrite lookup_empty in Ha.
Qed.

(** C18. Lending is revocable and never total. Any sequence of lends and
    revocations from boot, with any kernel answers, completes and follows the
    specification exactly: a request for all rights never reaches the kernel;
    an original is lent to at most one borrower and at most eight loans are
    open; the kernel sees precisely one mint per accepted loan, with the
    rights asked for, and a failed mint leaves no loan; a revocation of an
    outstanding loan revokes the original itself at the place recorded when
    it was lent, exactly once, and removes the loan only when the kernel has
    done so. The bookkeeping error of cap_lend.h is never returned. *)
Theorem cap_lend_refines {K} `{Kernel K} ops (w : kworld K) :
  exists rs ws' evs L', lend_run ops (w, lend_boot) = Some (rs, ws') /\
    lend_spec_run ∅ ops evs rs L' /\ kw_log ws'.1 = evs ++ kw_log w /\
    AOS_CAP_LEND_ERR_LEASE_CLOSE ∉ rs.
Proof.
  destruct (wp_run _ _ _ (wp_lend_run ops ∅ (w, lend_boot) lend_rel_boot))
    as (rs & ws' & Hrun & evs & L' & Hs & Hl & _).
  exists rs, ws', evs, L'. split_and!; [done..|]. clear Hrun Hl.
  induction Hs as [|L op evs r L1 ops evs' rs L2 Hop _ IH]; [apply not_elem_of_nil|].
  apply not_elem_of_cons. split; [|done]. destruct Hop; try done; by case_decide.
Qed.
