(* ===== verification/Text.v ===== *)
(** * Text

    String literals as the bytes they are in C, shared by the components that
    write names: the authority snapshot, device trees and the registration
    messages of the services. *)

From Stdlib Require Import String Ascii.
From S2P Require Import Prelude.

(** The characters of a string literal. *)
Definition chars (s : string) : list Z :=
  (fun c => Z.of_N (N_of_ascii c)) <$> list_ascii_of_string s.

(** The bytes of a C string before its terminator. *)
Definition text_ok (s : list Z) : Prop := Forall (fun x => 1 <= x < 256) s.

Lemma c_string_text s l : text_ok s -> c_string (s ++ [0] ++ l) = s.
Proof.
  induction s as [|x s IH]; [done|]. intros [? Hs]%Forall_cons. cbn [app c_string].
  rewrite (proj2 (Z.eqb_neq x 0)) by lia. f_equal. by apply IH.
Qed.
