(* ===== verification/Authority.v ===== *)
(** * The authority snapshot

    Models platform/inspect/authority.c: the per-domain, per-kind count of the
    capabilities that the root task granted, and its text form. *)

From Stdlib Require Import String Ascii.
From S2P Require Import Prelude Text.
From stdpp Require Import options.

#[local] Open Scope Z_scope.

(** ** Data: platform/authority.h *)

Definition AOS_AUTHORITY_VERSION : Z := 1.
Definition AOS_AUTHORITY_MAX_PDS : Z := 32.
Definition AOS_AUTHORITY_NAME_LEN : Z := 32.
Definition AOS_AUTHORITY_KIND_ENDPOINT : Z := 2.
Definition AOS_AUTHORITY_KIND_NOTIFICATION : Z := 3.
Definition AOS_AUTHORITY_KIND_OTHER : Z := 10.
Definition AOS_AUTHORITY_KIND_COUNT : Z := 11.
Definition AOS_AUTHORITY_OK : Z := 0.
Definition AOS_AUTHORITY_ERR_NULL : Z := -1.
Definition AOS_AUTHORITY_ERR_VERSION : Z := -2.
Definition AOS_AUTHORITY_ERR_TRUNC : Z := -3.
Definition AOS_AUTHORITY_ERR_INVALID : Z := -6.

Record aos_authority_pd := mk_pd { pd_index : Z; pd_name : list Z; pd_counts : list Z }.

Record aos_authority_snapshot := mk_snap {
  version : Z; pd_count : Z; total_recorded : Z; truncated_adds : Z; saturated : Z;
  pds : list aos_authority_pd }.

Definition pd_zero : aos_authority_pd := mk_pd 0 (replicate 32 0) (replicate 11 0).

(** The 32-byte name field; [src] is [None] for NULL. *)
Definition copy_name (src : option (list Z)) : list Z :=
  match src with
  | None => replicate 32 0
  | Some s => let t := take 31 (c_string s) in t ++ replicate (32 - length t) 0
  end.

Definition clamp_kind (kind : Z) : Z :=
  if AOS_AUTHORITY_KIND_COUNT <=? kind then AOS_AUTHORITY_KIND_OTHER else kind.

(** ** Building a snapshot *)

Definition aos_authority_init (snap : option aos_authority_snapshot) : option aos_authority_snapshot :=
  match snap with
  | None => None
  | Some _ => Some (mk_snap AOS_AUTHORITY_VERSION 0 0 0 0 (replicate 32 pd_zero))
  end.

(** The index of the row of [pd], among the first [n] rows from [i] on; the
    outer [None] is a read outside the table. *)
Fixpoint find_row (n : nat) (i : Z) (rows : list aos_authority_pd) (pd : Z) : option (option Z) :=
  match n with
  | O => Some None
  | S n =>
      row ← aget rows i;
      if pd_index row =? pd then Some (Some i) else find_row n (i + 1) rows pd
  end.

Definition set_counts (c : list Z) (row : aos_authority_pd) : aos_authority_pd :=
  mk_pd (pd_index row) (pd_name row) c.

(** Counts one capability of kind [k] in row [i]. *)
Definition count_in_row (snap : aos_authority_snapshot) (i k : Z) : option (Z * aos_authority_snapshot) :=
  row ← aget (pds snap) i;
  c ← aget (pd_counts row) k;
  if c =? 0xFFFF then
    Some (AOS_AUTHORITY_OK,
      mk_snap (version snap) (pd_count snap) (u32 (total_recorded snap + 1))
        (truncated_adds snap) 1 (pds snap))
  else
    counts ← aset (pd_counts row) k (u16 (c + 1));
    rows ← aset (pds snap) i (set_counts counts row);
    Some (AOS_AUTHORITY_OK,
      mk_snap (version snap) (pd_count snap) (u32 (total_recorded snap + 1))
        (truncated_adds snap) (saturated snap) rows).

Definition aos_authority_add (snap : option aos_authority_snapshot) (pd : Z)
    (name : option (list Z)) (kind : Z) : option (Z * option aos_authority_snapshot) :=
  match snap with
  | None => Some (AOS_AUTHORITY_ERR_NULL, None)
  | Some snap =>
      let k := clamp_kind kind in
      found ← find_row (Z.to_nat (pd_count snap)) 0 (pds snap) pd;
      match found with
      | Some i => '(rc, snap) ← count_in_row snap i k; Some (rc, Some snap)
      | None =>
          if pd_count snap <? AOS_AUTHORITY_MAX_PDS then
            rows ← aset (pds snap) (pd_count snap)
                     (mk_pd pd (copy_name name) (replicate 11 0));
            '(rc, snap) ← count_in_row
              (mk_snap (version snap) (u32 (pd_count snap + 1)) (total_recorded snap)
                 (truncated_adds snap) (saturated snap) rows) (pd_count snap) k;
            Some (rc, Some snap)
          else
            Some (AOS_AUTHORITY_OK,
              Some (mk_snap (version snap) (pd_count snap) (u32 (total_recorded snap + 1))
                (u32 (truncated_adds snap + 1)) (saturated snap) (pds snap)))
      end
  end.

Definition aos_authority_validate (snap : option aos_authority_snapshot) : Z :=
  match snap with
  | None => AOS_AUTHORITY_ERR_NULL
  | Some snap =>
      if negb (version snap =? AOS_AUTHORITY_VERSION) then AOS_AUTHORITY_ERR_VERSION
      else if AOS_AUTHORITY_MAX_PDS <? pd_count snap then AOS_AUTHORITY_ERR_INVALID
      else AOS_AUTHORITY_OK
  end.

(** ** Formatting *)

(** The output buffer and the position [p - buf]; [last] is [end - buf]. The
    writers return whether they succeeded (0 in the code). *)
Definition out : Type := list Z * Z.

Definition putc_raw (last c : Z) : prog out bool :=
  '(buf, p) ← get_state;
  if last <=? p then mret false else
  buf' ← lift (aset buf p c);
  put_state (buf', p + 1);;
  mret true.

(** [f() != 0 || g() != 0]: [g] is called only when [f] succeeded. *)
Definition then_ (m1 m2 : prog out bool) : prog out bool :=
  b ← m1; if negb b then mret false else m2.

Fixpoint puts_raw (last : Z) (s : list Z) : prog out bool :=
  match s with
  | [] => mret true
  | c :: s => then_ (putc_raw last c) (puts_raw last s)
  end.

(** The contents of [tmp]: the digits of [v], least significant first. *)
Fixpoint digits_rev (fuel : nat) (v : Z) : list Z :=
  match fuel with
  | O => []
  | S fuel => if 0 <? v then (48 + v mod 10) :: digits_rev fuel (v / 10) else []
  end.

Definition put_u64 (last v : Z) : prog out bool :=
  if v =? 0 then putc_raw last 48 else puts_raw last (reverse (digits_rev 20 v)).

Definition line_u64 (last : Z) (key : list Z) (val : Z) : prog out bool :=
  then_ (puts_raw last key) (then_ (putc_raw last 61) (then_ (put_u64 last val) (putc_raw last 10))).

Definition kind_name (kind : Z) : list Z :=
  chars (match kind with
         | 0 => "untyped" | 1 => "tcb" | 2 => "endpoint" | 3 => "notification"
         | 4 => "cnode" | 5 => "frame" | 6 => "vspace" | 7 => "irq_handler"
         | 8 => "sched_context" | 9 => "reply" | _ => "other"
         end%string).

(** The counts of kinds [k], [k + 1], ... of a row. *)
Fixpoint put_kinds (last k : Z) (counts : list Z) : prog out bool :=
  match counts with
  | [] => mret true
  | c :: counts =>
      then_ (then_ (putc_raw last 32) (then_ (puts_raw last (kind_name k))
        (then_ (putc_raw last 61) (put_u64 last c)))) (put_kinds last (k + 1) counts)
  end.

Definition put_row (last : Z) (row : aos_authority_pd) : prog out bool :=
  then_ (puts_raw last (chars "pd="))
  (then_ (puts_raw last (c_string (pd_name row)))
  (then_ (then_ (puts_raw last (chars " index=")) (put_u64 last (pd_index row)))
  (then_ (put_kinds last 0 (pd_counts row)) (putc_raw last 10)))).

Fixpoint put_rows (last : Z) (rows : list aos_authority_pd) : prog out bool :=
  match rows with
  | [] => mret true
  | row :: rows => then_ (put_row last row) (put_rows last rows)
  end.

Definition put_snapshot (last : Z) (snap : aos_authority_snapshot) : prog out bool :=
  then_ (put_rows last (take (Z.to_nat (pd_count snap)) (pds snap)))
  (then_ (line_u64 last (chars "total") (total_recorded snap))
  (then_ (line_u64 last (chars "truncated_adds") (truncated_adds snap))
         (line_u64 last (chars "saturated") (saturated snap)))).

(** The result code and the buffer; [buf] is [None] for NULL, and has
    [buflen] bytes otherwise. *)
Definition aos_authority_format (snap : option aos_authority_snapshot) (buf : option (list Z))
    (buflen : Z) : option (Z * option (list Z)) :=
  match snap, buf with
  | Some s, Some b =>
      if buflen <? 1 then Some (AOS_AUTHORITY_ERR_TRUNC, buf) else
      let valid := aos_authority_validate snap in
      if negb (valid =? AOS_AUTHORITY_OK) then b' ← aset b 0 0; Some (valid, Some b') else
      '(ok, (b', p)) ← put_snapshot (buflen - 1) s (b, 0);
      b'' ← aset b' p 0;
      Some (if (ok : bool) then p else AOS_AUTHORITY_ERR_TRUNC, Some b'')
  | _, _ => Some (AOS_AUTHORITY_ERR_NULL, buf)
  end.

(** ** Specification of the counts *)

Record grant := mk_grant { gr_pd : Z; gr_name : option (list Z); gr_kind : Z }.

(** The domains that have a row: the first 32 distinct ones, in the order in
    which they were first granted something, each with the name it had then. *)
Definition add_domain (ds : list (Z * option (list Z))) (g : grant) : list (Z * option (list Z)) :=
  if decide (gr_pd g ∈ ds.*1) then ds
  else if decide (length ds < 32)%nat then ds ++ [(gr_pd g, gr_name g)] else ds.

Definition domains (l : list grant) : list (Z * option (list Z)) := foldl add_domain [] l.

(** How often [pd] was granted a capability of kind [k]. *)
Definition granted (l : list grant) (pd k : Z) : Z :=
  Z.of_nat (length (filter (fun g => gr_pd g = pd /\ clamp_kind (gr_kind g) = k) l)).

(** How many grants went to domains without a row. *)
Definition dropped_grants (l : list grant) : Z :=
  Z.of_nat (length (filter (fun g => gr_pd g ∉ (domains l).*1) l)).

Fixpoint authority_run (snap : aos_authority_snapshot) (l : list grant) : option aos_authority_snapshot :=
  match l with
  | [] => Some snap
  | g :: l =>
      match aos_authority_add (Some snap) (gr_pd g) (gr_name g) (gr_kind g) with
      | Some (_, Some snap') => authority_run snap' l
      | _ => None
      end
  end.

Definition snap_fresh : aos_authority_snapshot :=
  mk_snap AOS_AUTHORITY_VERSION 0 0 0 0 (replicate 32 pd_zero).

(** The row of domain [pd] after the grants [l]. *)
Definition row_exact (l : list grant) (d : Z * option (list Z)) (row : aos_authority_pd) : Prop :=
  pd_index row = d.1 /\ pd_name row = copy_name d.2 /\ length (pd_counts row) = 11%nat /\
  forall k, 0 <= k < 11 -> aget (pd_counts row) k = Some (Z.min 65535 (granted l d.1 k)).

Definition any_saturated (l : list grant) : Prop :=
  exists d k, d ∈ domains l /\ 0 <= k < 11 /\ 65535 < granted l d.1 k.

Record authority_inv (l : list grant) (snap : aos_authority_snapshot) : Prop := {
  ai_version : version snap = AOS_AUTHORITY_VERSION;
  ai_rows : length (pds snap) = 32%nat;
  ai_count : pd_count snap = Z.of_nat (length (domains l));
  ai_exact : forall i d, domains l !! i = Some d ->
    exists row, pds snap !! i = Some row /\ row_exact l d row;
  ai_total : total_recorded snap = u32 (Z.of_nat (length l));
  ai_dropped : truncated_adds snap = u32 (dropped_grants l);
  ai_saturated : saturated snap <> 0 <-> any_saturated l }.

(** ** Lemmas on the specification *)

Lemma domains_snoc l g : domains (l ++ [g]) = add_domain (domains l) g.
Proof. unfold domains. by rewrite foldl_app. Qed.

Lemma domains_nodup l : NoDup (domains l).*1.
Proof.
  induction l as [|g l IH] using rev_ind; [constructor|]. rewrite domains_snoc. unfold add_domain.
  case_decide; [done|]. case_decide; [|done]. rewrite fmap_app. apply NoDup_app.
  split; [done|]. split; [|apply NoDup_singleton].
  intros x Hx ->%list_elem_of_singleton. done.
Qed.

Lemma domains_bound l : (length (domains l) <= 32)%nat.
Proof.
  induction l as [|g l IH] using rev_ind; [simpl; lia|]. rewrite domains_snoc. unfold add_domain.
  case_decide; [done|]. case_decide; [|done]. rewrite length_app. simpl. lia.
Qed.

Lemma granted_snoc l g pd k :
  granted (l ++ [g]) pd k
    = granted l pd k + (if decide (gr_pd g = pd /\ clamp_kind (gr_kind g) = k) then 1 else 0).
Proof.
  unfold granted. rewrite filter_app, length_app, Nat2Z.inj_add. f_equal.
  rewrite filter_cons, filter_nil. by case_decide.
Qed.

(** A domain without a row was never granted anything while there was room. *)
Lemma domains_complete l g :
  g ∈ l -> (length (domains l) < 32)%nat -> gr_pd g ∈ (domains l).*1.
Proof.
  induction l as [|g' l IH] using rev_ind; [by intros ?%not_elem_of_nil|].
  rewrite domains_snoc. unfold add_domain. intros Hin Hlt.
  apply elem_of_app in Hin as [Hin| ->%list_elem_of_singleton].
  - repeat case_decide; [by apply IH| |lia]. rewrite fmap_app. apply elem_of_app. left.
    apply IH; [done|lia].
  - repeat case_decide; [done| |lia]. rewrite fmap_app. apply elem_of_app. right. simpl. left.
Qed.

Lemma filter_agree {A} (P Q : A -> Prop) `{!forall x, Decision (P x)}
    `{!forall x, Decision (Q x)} (l : list A) :
  (forall x, x ∈ l -> P x <-> Q x) -> filter P l = filter Q l.
Proof.
  induction l as [|x l IH]; intros Hag; [done|]. rewrite !filter_cons.
  rewrite IH by (intros y Hy; apply Hag; by right).
  destruct (Hag x ltac:(left)). repeat case_decide; naive_solver.
Qed.

Lemma granted_absent l pd k :
  (length (domains l) < 32)%nat -> pd ∉ (domains l).*1 -> granted l pd k = 0.
Proof.
  intros Hlt Hpd. unfold granted.
  rewrite (filter_agree _ (fun _ => False)).
  - clear Hlt Hpd. induction l as [|g l IH]; [done|]. rewrite filter_cons_False by tauto. exact IH.
  - intros g Hg. split; [|done]. intros [<- _]. apply Hpd. by apply domains_complete.
Qed.

Lemma dropped_snoc l g :
  dropped_grants (l ++ [g]) = dropped_grants l +
    (if decide (gr_pd g ∈ (domains (l ++ [g])).*1) then 0 else 1).
Proof.
  unfold dropped_grants. rewrite filter_app, length_app, Nat2Z.inj_add. f_equal.
  - do 2 f_equal. apply filter_agree. intros g' Hg'. rewrite domains_snoc. unfold add_domain.
    repeat case_decide; [done| |done]. rewrite fmap_app, not_elem_of_app.
    pose proof (domains_complete l g' Hg' ltac:(done)). naive_solver.
  - rewrite filter_cons, filter_nil. repeat case_decide; naive_solver.
Qed.

(** ** The code keeps the counts *)

Lemma find_row_spec rows pd : forall n i,
  0 <= i -> (Z.to_nat i + n <= length rows)%nat ->
  exists r, find_row n i rows pd = Some r /\
    match r with
    | Some j => i <= j < i + Z.of_nat n /\ exists row, aget rows j = Some row /\ pd_index row = pd
    | None => forall j row, i <= j < i + Z.of_nat n -> aget rows j = Some row -> pd_index row <> pd
    end.
Proof.
  induction n as [|n IH]; intros i Hi Hn; simpl; [exists None; split; [done|lia]|].
  destruct (aget_lt rows i) as [row Hrow]; [lia|]. rewrite Hrow. simpl.
  destruct (Z.eqb_spec (pd_index row) pd) as [He|Hne].
  - exists (Some i). split; [done|]. split; [lia|]. eauto.
  - destruct (IH (i + 1)) as (r & -> & Hr); [lia|lia|]. exists r. split; [done|].
    destruct r as [j|].
    + destruct Hr as [? ?]. split; [lia|done].
    + intros j row' Hj Hrow'. destruct (decide (j = i)) as [->|]; [congruence|].
      apply (Hr j); [lia|done].
Qed.

Lemma clamp_kind_range kind : 0 <= kind -> 0 <= clamp_kind kind < 11.
Proof.
  unfold clamp_kind, AOS_AUTHORITY_KIND_COUNT, AOS_AUTHORITY_KIND_OTHER. intros. case_cmp; lia.
Qed.

Lemma granted_nonneg l pd k : 0 <= granted l pd k.
Proof. unfold granted. lia. Qed.

Lemma domains_lookup_inj l i j d d' :
  domains l !! i = Some d -> domains l !! j = Some d' -> d.1 = d'.1 -> i = j.
Proof.
  intros Hi Hj He. eapply NoDup_lookup; [apply (domains_nodup l)| |]; rewrite list_lookup_fmap.
  - by rewrite Hi.
  - rewrite Hj. simpl. by f_equal.
Qed.

Lemma any_saturated_snoc l g i nm :
  0 <= gr_kind g -> domains (l ++ [g]) !! i = Some (gr_pd g, nm) ->
  any_saturated (l ++ [g]) <->
  any_saturated l \/ 65535 <= granted l (gr_pd g) (clamp_kind (gr_kind g)).
Proof.
  intros Hk Hi. unfold any_saturated. split.
  - intros (d & k & Hd & Hkk & Hlt). rewrite granted_snoc in Hlt. case_decide as He.
    + destruct He as [-> ->]. right. lia.
    + left. exists d, k. split; [|lia]. rewrite domains_snoc in Hd. unfold add_domain in Hd.
      repeat case_decide; try done. apply elem_of_app in Hd as [?|Hd%list_elem_of_singleton]; [done|].
      subst d. simpl in *. rewrite granted_absent in Hlt by done. lia.
  - intros [(d & k & Hd & Hkk & Hlt)|Hge].
    + exists d, k. split; [|split; [done|]].
      * rewrite domains_snoc. unfold add_domain. repeat case_decide; [done| |done].
        apply elem_of_app. by left.
      * rewrite granted_snoc. case_decide; lia.
    + exists (gr_pd g, nm), (clamp_kind (gr_kind g)).
      split; [by eapply list_elem_of_lookup_2|]. split; [by apply clamp_kind_range|].
      simpl. rewrite granted_snoc, decide_True by done. lia.
Qed.

(** Counting one more capability in the row of its domain. *)
Lemma count_in_row_exact l g snap i nm :
  0 <= gr_kind g ->
  domains (l ++ [g]) !! i = Some (gr_pd g, nm) ->
  version snap = AOS_AUTHORITY_VERSION -> length (pds snap) = 32%nat ->
  pd_count snap = Z.of_nat (length (domains (l ++ [g]))) ->
  (forall j d, domains (l ++ [g]) !! j = Some d ->
     exists row, pds snap !! j = Some row /\ row_exact l d row) ->
  total_recorded snap = u32 (Z.of_nat (length l)) ->
  truncated_adds snap = u32 (dropped_grants (l ++ [g])) ->
  (saturated snap <> 0 <-> any_saturated l) ->
  exists snap', count_in_row snap (Z.of_nat i) (clamp_kind (gr_kind g)) = Some (AOS_AUTHORITY_OK, snap')
    /\ authority_inv (l ++ [g]) snap'.
Proof.
  intros Hkind Hi Hv Hl Hc Hrows Ht Hd Hs. pose proof (clamp_kind_range _ Hkind) as Hk.
  set (k := clamp_kind (gr_kind g)) in *.
  destruct (Hrows i _ Hi) as (row & Hrow & Hidx & Hname & Hlen & Hcounts). simpl in *.
  pose proof (lookup_lt_Some _ _ _ Hrow) as Hlt.
  assert (u32 (total_recorded snap + 1) = u32 (Z.of_nat (length (l ++ [g])))) as Htot.
  { rewrite Ht, length_app. simpl. unfold u32. rewrite Zplus_mod_idemp_l. f_equal. lia. }
  assert (aget (pds snap) (Z.of_nat i) = Some row) as Hget
    by (apply aget_Some; split; [lia|by rewrite Nat2Z.id]).
  unfold count_in_row. rewrite Hget. simpl. rewrite (Hcounts k Hk). simpl.
  pose proof (granted_nonneg l (gr_pd g) k) as Hnn.
  pose proof (any_saturated_snoc l g i nm Hkind Hi) as Hsat. fold k in Hsat.
  assert (forall j d row', j <> i -> domains (l ++ [g]) !! j = Some d -> row_exact l d row' ->
    row_exact (l ++ [g]) d row') as Hother.
  { intros j d row' Hji Hj (? & ? & ? & Hcnt). split_and!; [done..|]. intros k' Hk'.
    rewrite granted_snoc, decide_False, Z.add_0_r by
      (intros [He _]; apply Hji; by eapply domains_lookup_inj). by apply Hcnt. }
  destruct (Z.eqb_spec (Z.min 65535 (granted l (gr_pd g) k)) 65535) as [Hmax|Hmax].
  - eexists. split; [done|]. split; simpl; try done.
    + intros j d Hj. destruct (Hrows j d Hj) as (row' & Hrow' & Hex). exists row'. split; [done|].
      destruct (decide (j = i)) as [->|Hji]; [|by eapply Hother].
      destruct Hex as (? & ? & ? & Hcnt). split_and!; [done..|]. intros k' Hk'.
      rewrite Hi in Hj. injection Hj as <-. simpl in *. rewrite (Hcnt k' Hk'), granted_snoc.
      fold k. case_decide as He; [|by rewrite Z.add_0_r]. destruct He as [_ <-]. f_equal. lia.
    + rewrite Hsat. split; [|done]. intros _. right. lia.
  - rewrite u16_small by (unfold is_u16; lia).
    rewrite aset_Some by (rewrite Hlen; lia). simpl. rewrite aset_Some by lia. simpl.
    rewrite Nat2Z.id. eexists. split; [done|]. split; simpl; try done.
    + by rewrite length_insert.
    + intros j d Hj. destruct (decide (j = i)) as [->|Hji].
      * eexists. split; [apply list_lookup_insert_eq; lia|]. rewrite Hi in Hj. injection Hj as <-.
        split_and!; simpl; [done..|by rewrite length_insert|]. intros k' Hk'.
        rewrite granted_snoc. fold k. apply aget_Some. split; [lia|].
        case_decide as He.
        -- destruct He as [_ <-]. rewrite list_lookup_insert_eq by (rewrite Hlen; lia). f_equal. lia.
        -- rewrite list_lookup_insert_ne by (intros E; apply He; split; [done|lia]).
           rewrite Z.add_0_r. by apply aget_Some, Hcounts.
      * destruct (Hrows j d Hj) as (row' & Hrow' & Hex). exists row'.
        rewrite list_lookup_insert_ne by done. split; [done|]. by eapply Hother.
    + rewrite Hs, Hsat. split; [by left|]. intros [?|?]; [done|lia].
Qed.

(** The row of a domain, if it has one. *)
Lemma find_row_domain l snap pd :
  authority_inv l snap ->
  match find_row (Z.to_nat (pd_count snap)) 0 (pds snap) pd with
  | Some (Some j) => exists i nm, j = Z.of_nat i /\ domains l !! i = Some (pd, nm)
  | Some None => pd ∉ (domains l).*1
  | None => False
  end.
Proof.
  intros Hinv. pose proof (ai_count _ _ Hinv) as Hc. pose proof (domains_bound l).
  destruct (find_row_spec (pds snap) pd (Z.to_nat (pd_count snap)) 0) as (r & -> & Hr);
    [lia|rewrite (ai_rows _ _ Hinv); lia|].
  rewrite Hc, Nat2Z.id in Hr. destruct r as [j|].
  - destruct Hr as (Hj & row & [_ Hrow]%aget_Some & <-).
    destruct (lookup_lt_is_Some_2 (domains l) (Z.to_nat j)) as [d Hd]; [lia|].
    destruct (ai_exact _ _ Hinv _ d Hd) as (row' & Hrow' & Hidx & _).
    exists (Z.to_nat j), d.2. split; [lia|]. rewrite Hrow in Hrow'. injection Hrow' as <-.
    rewrite Hidx. by destruct d.
  - intros Hin. apply list_elem_of_fmap in Hin as (d & -> & Hd).
    apply list_elem_of_lookup in Hd as [i Hi]. pose proof (lookup_lt_Some _ _ _ Hi).
    destruct (ai_exact _ _ Hinv i d Hi) as (row & Hrow & Hidx & _).
    apply (Hr (Z.of_nat i) row); [lia| |done]. apply aget_Some. split; [lia|by rewrite Nat2Z.id].
Qed.

(** The three outcomes of a grant: the domain has a row, gets one, or the
    table is full. *)
Lemma authority_add_known l snap g i nm :
  authority_inv l snap -> 0 <= gr_kind g -> domains l !! i = Some (gr_pd g, nm) ->
  exists snap', count_in_row snap (Z.of_nat i) (clamp_kind (gr_kind g))
      = Some (AOS_AUTHORITY_OK, snap') /\ authority_inv (l ++ [g]) snap'.
Proof.
  intros Hinv Hk Hi. pose proof (domains_snoc l g) as Hds. pose proof (dropped_snoc l g) as Hdr.
  assert (Hin : gr_pd g ∈ (domains l).*1).
  { apply list_elem_of_fmap. exists (gr_pd g, nm). split; [done|]. by eapply list_elem_of_lookup_2. }
  unfold add_domain in Hds. rewrite decide_True in Hds by done.
  rewrite Hds, decide_True, Z.add_0_r in Hdr by done.
  apply (count_in_row_exact l g snap i nm); rewrite ?Hds, ?Hdr; try done; apply Hinv.
Qed.

Lemma authority_add_new l snap g :
  authority_inv l snap -> 0 <= gr_kind g -> gr_pd g ∉ (domains l).*1 -> (length (domains l) < 32)%nat ->
  let n := length (domains l) in
  exists snap', count_in_row
      (mk_snap (version snap) (Z.of_nat n + 1) (total_recorded snap) (truncated_adds snap) (saturated snap)
        (<[n := mk_pd (gr_pd g) (copy_name (gr_name g)) (replicate 11 0)]> (pds snap)))
      (Z.of_nat n) (clamp_kind (gr_kind g))
      = Some (AOS_AUTHORITY_OK, snap') /\ authority_inv (l ++ [g]) snap'.
Proof.
  intros Hinv Hk Hf Hlt n. pose proof (domains_snoc l g) as Hds. pose proof (dropped_snoc l g) as Hdr.
  unfold add_domain in Hds. rewrite decide_False, decide_True in Hds by done.
  rewrite Hds, decide_True, Z.add_0_r in Hdr by (rewrite fmap_app; apply elem_of_app; right; left).
  apply (count_in_row_exact l g _ n (gr_name g)); simpl; rewrite ?Hds, ?Hdr, ?length_insert;
    try done; try apply Hinv.
  - by apply list_lookup_middle.
  - rewrite length_app. simpl. lia.
  - intros j d Hj. apply lookup_snoc_Some in Hj as [[Hj Hd]|[-> <-]].
    + rewrite list_lookup_insert_ne by lia. by apply Hinv.
    + eexists. split; [apply list_lookup_insert_eq; rewrite (ai_rows _ _ Hinv); lia|].
      split_and!; [done..|]. intros k Hk'. simpl.
      rewrite granted_absent by done. apply aget_Some. split; [lia|].
      exact (lookup_replicate_2 11 0 (Z.to_nat k) ltac:(lia)).
Qed.

Lemma authority_add_full l snap g :
  authority_inv l snap -> gr_pd g ∉ (domains l).*1 -> ~ (length (domains l) < 32)%nat ->
  authority_inv (l ++ [g]) (mk_snap (version snap) (pd_count snap) (u32 (total_recorded snap + 1))
    (u32 (truncated_adds snap + 1)) (saturated snap) (pds snap)).
Proof.
  intros Hinv Hf Hge. pose proof (domains_snoc l g) as Hds. pose proof (dropped_snoc l g) as Hdr.
  unfold add_domain in Hds. rewrite decide_False, decide_False in Hds by done.
  rewrite Hds, decide_False in Hdr by done.
  assert (forall d k, d ∈ domains l -> granted (l ++ [g]) d.1 k = granted l d.1 k) as Hgr.
  { intros d k Hd. rewrite granted_snoc, decide_False, Z.add_0_r; [done|].
    intros [He _]. apply Hf. rewrite He. by apply list_elem_of_fmap_2. }
  split; simpl; rewrite ?Hds; try apply Hinv.
  - intros i d Hi. destruct (ai_exact _ _ Hinv i d Hi) as (row & Hrow & ? & ? & ? & Hcnt).
    exists row. split; [done|]. split_and!; [done..|]. intros k Hk'.
    rewrite Hgr by (by eapply list_elem_of_lookup_2). by apply Hcnt.
  - rewrite (ai_total _ _ Hinv), length_app. simpl. unfold u32. rewrite Zplus_mod_idemp_l.
    f_equal. lia.
  - rewrite (ai_dropped _ _ Hinv), Hdr. unfold u32. by rewrite Zplus_mod_idemp_l.
  - rewrite (ai_saturated _ _ Hinv). unfold any_saturated. rewrite Hds.
    split; intros (d & k & Hd & ? & ?); exists d, k; (split; [done|]);
      [rewrite Hgr by done|rewrite <-Hgr by done]; done.
Qed.

Lemma authority_add_inv l snap g :
  authority_inv l snap -> 0 <= gr_kind g ->
  exists snap', aos_authority_add (Some snap) (gr_pd g) (gr_name g) (gr_kind g)
      = Some (AOS_AUTHORITY_OK, Some snap') /\ authority_inv (l ++ [g]) snap'.
Proof.
  intros Hinv Hk. unfold aos_authority_add. pose proof (find_row_domain l snap (gr_pd g) Hinv) as Hf.
  pose proof (ai_count _ _ Hinv) as Hc.
  destruct (find_row _ 0 (pds snap) (gr_pd g)) as [[j|]|]; [|cbn [mbind option_bind]|done].
  - destruct Hf as (i & nm & -> & Hi).
    destruct (authority_add_known l snap g i nm Hinv Hk Hi) as (snap' & Hrun & Hinv').
    cbn [mbind option_bind]. rewrite Hrun. simpl. eauto.
  - unfold AOS_AUTHORITY_MAX_PDS. destruct (Z.ltb_spec (pd_count snap) 32) as [Hlt|Hge].
    + destruct (authority_add_new l snap g Hinv Hk Hf ltac:(lia)) as (snap' & Hrun & Hinv').
      rewrite aset_Some by (rewrite (ai_rows _ _ Hinv); lia). cbn [mbind option_bind].
      rewrite Hc, Nat2Z.id, u32_small by (unfold is_u32; lia). rewrite Hrun. simpl. eauto.
    + eexists. split; [done|]. apply authority_add_full; [done..|lia].
Qed.

Lemma authority_run_inv l' : forall l snap,
  authority_inv l snap -> Forall (fun g => 0 <= gr_kind g) l' ->
  exists snap', authority_run snap l' = Some snap' /\ authority_inv (l ++ l') snap'.
Proof.
  induction l' as [|g l' IH]; intros l snap Hinv Hk; cbn [authority_run].
  { exists snap. by rewrite app_nil_r. }
  apply Forall_cons in Hk as [Hg Hk].
  destruct (authority_add_inv l snap g Hinv Hg) as (snap1 & -> & Hinv1).
  destruct (IH _ _ Hinv1 Hk) as (snap2 & -> & Hinv2). exists snap2. split; [done|].
  by rewrite <-app_assoc in Hinv2.
Qed.

Lemma authority_inv_fresh : authority_inv [] snap_fresh.
Proof.
  split; try done; simpl.
  split; [done|]. intros (d & k & Hd & _). by apply not_elem_of_nil in Hd.
Qed.

(** The authority snapshot tells exactly what was granted. After any
    sequence of grants from a fresh snapshot every access has been inside the
    table; the rows are the first 32 distinct domains in order of first
    sight, under the name given then; each count is the number of grants of
    that kind to that domain, capped at 65535; the saturation flag is set
    exactly when some row's true count exceeds the cap; and the totals are
    the number of grants and of grants to domains without a row, modulo
    2^32. *)
Theorem authority_counts_exact l :
  Forall (fun g => 0 <= gr_kind g) l ->
  exists snap, authority_run snap_fresh l = Some snap /\ authority_inv l snap.
Proof. intros Hk. exact (authority_run_inv l [] snap_fresh authority_inv_fresh Hk). Qed.

Definition grants_example : list grant :=
  [mk_grant 3 (Some (chars "net")) 2; mk_grant 7 None 99; mk_grant 3 None 2].

Lemma authority_counts_exact_witness :
  exists snap, authority_run snap_fresh grants_example = Some snap /\
    authority_inv grants_example snap.
Proof. apply (authority_counts_exact grants_example). repeat constructor; done. Defined.

(** ** The text form *)

(** A number in decimal, and back. *)
Definition decimal (v : Z) : list Z := if v =? 0 then [48] else reverse (digits_rev 20 v).

Definition undecimal (ds : list Z) : Z := foldl (fun acc d => 10 * acc + (d - 48)) 0 ds.

Fixpoint kinds_text (k : Z) (counts : list Z) : list Z :=
  match counts with
  | [] => []
  | c :: counts => ([32] ++ kind_name k ++ [61] ++ decimal c) ++ kinds_text (k + 1) counts
  end.

Definition row_text (row : aos_authority_pd) : list Z :=
  chars "pd=" ++ c_string (pd_name row) ++ (chars " index=" ++ decimal (pd_index row))
  ++ kinds_text 0 (pd_counts row) ++ [10].

Definition line_text (key : list Z) (v : Z) : list Z := key ++ [61] ++ decimal v ++ [10].

Definition snapshot_text (snap : aos_authority_snapshot) : list Z :=
  concat (row_text <$> take (Z.to_nat (pd_count snap)) (pds snap))
  ++ line_text (chars "total") (total_recorded snap)
  ++ line_text (chars "truncated_adds") (truncated_adds snap)
  ++ line_text (chars "saturated") (saturated snap).

(** [buf] with [t] written at [p]. *)
Definition written (buf : list Z) (p : nat) (t : list Z) : list Z :=
  take p buf ++ t ++ drop (p + length t) buf.

(** Writer [m] emits the text [t]: as much of it as fits before [last], and it
    succeeds when all of it does. *)
Definition emits (last : nat) (m : prog out bool) (t : list Z) : Prop :=
  forall buf p, (p <= last)%nat -> (last < length buf)%nat ->
    m (buf, Z.of_nat p)
      = let t' := take (last - p) t in
        Some (bool_decide (length t <= last - p)%nat, (written buf p t', Z.of_nat (p + length t'))).

Lemma written_app buf p t1 t2 :
  (p + length t1 <= length buf)%nat ->
  written (written buf p t1) (p + length t1) t2 = written buf p (t1 ++ t2).
Proof.
  intros Hlen. unfold written.
  assert (Hq : length (take p buf ++ t1) = (p + length t1)%nat)
    by (rewrite length_app, length_take; lia).
  rewrite (app_assoc (take p buf) t1), take_app_length' by done.
  rewrite drop_app_add' by done. rewrite drop_drop, length_app, Nat.add_assoc.
  by rewrite <- !app_assoc.
Qed.

Lemma length_written buf p t :
  (p + length t <= length buf)%nat -> length (written buf p t) = length buf.
Proof. intros H. unfold written. rewrite !length_app, length_take, length_drop. lia. Qed.

Lemma written_nil buf p : written buf p [] = buf.
Proof. unfold written. simpl. by rewrite Nat.add_0_r, take_drop. Qed.

Lemma emits_nil last : emits last (mret true) [].
Proof.
  intros buf p Hp Hl. cbn zeta. rewrite take_nil, written_nil, Nat.add_0_r.
  by rewrite bool_decide_eq_true_2 by (simpl; lia).
Qed.

Lemma emits_app last m1 m2 t1 t2 :
  emits last m1 t1 -> emits last m2 t2 -> emits last (then_ m1 m2) (t1 ++ t2).
Proof.
  intros H1 H2 buf p Hp Hl. unfold then_, mbind, prog_bind. rewrite H1 by done. cbn zeta.
  rewrite length_app, take_app. case_bool_decide as Hfit.
  - rewrite (take_ge t1) by lia. rewrite H2 by (rewrite ?length_written; lia). cbn zeta.
    replace (last - (p + length t1))%nat with (last - p - length t1)%nat by lia.
    rewrite written_app by lia. rewrite length_app, Nat.add_assoc.
    do 2 f_equal. apply bool_decide_ext. lia.
  - replace (last - p - length t1)%nat with 0%nat by lia. rewrite take_0, app_nil_r.
    by rewrite (bool_decide_eq_false_2 (length t1 + length t2 <= _)%nat) by lia.
Qed.

Lemma emits_char last c : emits last (putc_raw (Z.of_nat last) c) [c].
Proof.
  intros buf p Hp Hl. cbn zeta. unfold putc_raw, mbind, prog_bind, get_state, put_state, lift, mret, prog_ret.
  destruct (Z.leb_spec (Z.of_nat last) (Z.of_nat p)).
  - replace (last - p)%nat with 0%nat by lia. rewrite take_0, written_nil, Nat.add_0_r.
    by rewrite bool_decide_eq_false_2 by (simpl; lia).
  - rewrite (take_ge [c]) by (simpl; lia). rewrite aset_Some by lia. rewrite Nat2Z.id.
    rewrite bool_decide_eq_true_2 by (simpl; lia). unfold written. rewrite insert_take_drop by lia.
    simpl length. rewrite Nat.add_1_r. do 3 f_equal. lia.
Qed.

Lemma emits_string last s : emits last (puts_raw (Z.of_nat last) s) s.
Proof.
  induction s as [|c s IH]; [apply emits_nil|].
  exact (emits_app _ _ _ _ _ (emits_char last c) IH).
Qed.

Lemma emits_u64 last v : emits last (put_u64 (Z.of_nat last) v) (decimal v).
Proof. unfold put_u64, decimal. destruct (v =? 0); [apply emits_char|apply emits_string]. Qed.

Create HintDb emits.
#[export] Hint Resolve emits_nil emits_app emits_char emits_string emits_u64 : emits.

Lemma emits_line last key v :
  emits last (line_u64 (Z.of_nat last) key v) (line_text key v).
Proof. unfold line_u64, line_text. auto 6 with emits. Qed.

Lemma emits_kinds last k counts :
  emits last (put_kinds (Z.of_nat last) k counts) (kinds_text k counts).
Proof.
  revert k. induction counts as [|c counts IH]; intros k; [apply emits_nil|].
  cbn [put_kinds kinds_text]. auto 8 with emits.
Qed.
#[export] Hint Resolve emits_line emits_kinds : emits.

Lemma emits_row last row : emits last (put_row (Z.of_nat last) row) (row_text row).
Proof.
  unfold put_row, row_text. auto 8 with emits.
Qed.

Lemma emits_rows last rows :
  emits last (put_rows (Z.of_nat last) rows) (concat (row_text <$> rows)).
Proof.
  induction rows as [|row rows IH]; [apply emits_nil|].
  exact (emits_app _ _ _ _ _ (emits_row last row) IH).
Qed.
#[export] Hint Resolve emits_row emits_rows : emits.

Lemma emits_snapshot last snap :
  emits last (put_snapshot (Z.of_nat last) snap) (snapshot_text snap).
Proof. unfold put_snapshot, snapshot_text. auto 6 with emits. Qed.

(** Decimal texts read back. *)
Lemma undecimal_snoc ds d : undecimal (ds ++ [d]) = 10 * undecimal ds + (d - 48).
Proof. unfold undecimal. by rewrite foldl_app. Qed.

Lemma digits_rev_value fuel v :
  0 <= v < 10 ^ Z.of_nat fuel -> undecimal (reverse (digits_rev fuel v)) = v.
Proof.
  revert v. induction fuel as [|fuel IH]; intros v Hv.
  - change (10 ^ Z.of_nat 0) with 1 in Hv. assert (v = 0) as -> by lia. done.
  - rewrite Nat2Z.inj_succ, Z.pow_succ_r in Hv by lia. simpl digits_rev.
    destruct (Z.ltb_spec 0 v); [|assert (v = 0) as -> by lia; done].
    rewrite reverse_cons, undecimal_snoc, IH by
      (split; [apply Z.div_pos; lia|apply Z.div_lt_upper_bound; lia]).
    pose proof (Z.div_mod v 10). lia.
Qed.

Lemma decimal_value v : is_u64 v -> undecimal (decimal v) = v.
Proof.
  unfold is_u64, decimal. intros Hv. destruct (Z.eqb_spec v 0) as [->|]; [done|].
  apply digits_rev_value. change (10 ^ Z.of_nat 20) with 100000000000000000000. lia.
Qed.

Lemma format_valid snap buf :
  aos_authority_validate (Some snap) = AOS_AUTHORITY_OK -> (1 <= length buf)%nat ->
  let text := snapshot_text snap in
  aos_authority_format (Some snap) (Some buf) (Z.of_nat (length buf))
    = Some (if (length text <? length buf)%nat then Z.of_nat (length text) else AOS_AUTHORITY_ERR_TRUNC,
            Some (let t := take (length buf - 1) text in t ++ [0] ++ drop (length t + 1) buf)).
Proof.
  intros Hv Hlen text. unfold aos_authority_format. rewrite Hv.
  destruct (Z.ltb_spec (Z.of_nat (length buf)) 1); [lia|]. cbn [negb Z.eqb AOS_AUTHORITY_OK].
  replace (Z.of_nat (length buf) - 1) with (Z.of_nat (length buf - 1)) by lia.
  pose proof (emits_snapshot (length buf - 1) snap buf 0%nat ltac:(lia) ltac:(lia)) as He.
  change (Z.of_nat 0) with 0 in He. unfold mbind, option_bind. rewrite He. clear He.
  cbn zeta. fold text. rewrite Nat.sub_0_r. set (t := take (length buf - 1) text).
  assert (Ht : (length t <= length buf - 1)%nat) by (unfold t; rewrite length_take; lia).
  rewrite aset_Some by (rewrite length_written; lia). rewrite Nat2Z.id, Nat.add_0_l.
  rewrite insert_take_drop by (rewrite length_written; lia).
  unfold written. simpl take. rewrite app_nil_l, Nat.add_0_l.
  rewrite take_app_length, drop_app_ge, drop_drop by lia.
  replace (length t + (S (length t) - length t))%nat with (length t + 1)%nat by lia.
  do 3 f_equal. unfold t. rewrite length_take. case_bool_decide as Hb;
    destruct (Nat.ltb_spec (length text) (length buf)); [f_equal|..]; lia.
Qed.

(** The error answers: nothing but the first byte is written. *)
Lemma format_invalid snap buf :
  aos_authority_validate (Some snap) <> AOS_AUTHORITY_OK -> (1 <= length buf)%nat ->
  aos_authority_format (Some snap) (Some buf) (Z.of_nat (length buf))
    = Some (aos_authority_validate (Some snap), Some (0 :: drop 1 buf)).
Proof.
  intros Hv Hlen. unfold aos_authority_format.
  destruct (Z.ltb_spec (Z.of_nat (length buf)) 1); [lia|].
  rewrite (proj2 (Z.eqb_neq _ _) Hv). cbn [negb]. unfold mbind, option_bind.
  rewrite aset_Some by lia. destruct buf; [simpl in Hlen; lia|done].
Qed.

Definition sample_snapshot : aos_authority_snapshot :=
  mk_snap AOS_AUTHORITY_VERSION 1 3 0 0
    (mk_pd 7 (copy_name (Some (chars "net"))) [1; 0; 2; 0; 0; 0; 0; 0; 0; 0; 0] :: replicate 31 pd_zero).

(** Formatting a snapshot writes exactly its text. Into a buffer with
    room the whole text is written, NUL-terminated, and its length returned;
    into a shorter one as much of it as fits, NUL-terminated, and the
    truncation reported; a malformed snapshot writes the empty string. No
    byte after the terminator changes, and every number printed reads back. *)
Theorem authority_format_exact snap buf :
  (1 <= length buf)%nat ->
  let valid := aos_authority_validate (Some snap) in
  let text := snapshot_text snap in
  let t := if valid =? AOS_AUTHORITY_OK then take (length buf - 1) text else [] in
  let rc := if negb (valid =? AOS_AUTHORITY_OK) then valid
            else if (length text <? length buf)%nat then Z.of_nat (length text)
            else AOS_AUTHORITY_ERR_TRUNC in
  aos_authority_format (Some snap) (Some buf) (Z.of_nat (length buf))
    = Some (rc, Some (t ++ [0] ++ drop (length t + 1) buf))
  /\ forall v, is_u64 v -> undecimal (decimal v) = v.
Proof.
  intros Hlen valid text t rc. split; [|exact decimal_value]. subst valid text t rc.
  destruct (Z.eqb_spec (aos_authority_validate (Some snap)) AOS_AUTHORITY_OK).
  - by apply format_valid.
  - by apply format_invalid.
Qed.

Lemma authority_format_exact_witness :
  exists b, aos_authority_format (Some sample_snapshot) (Some (replicate 170 7)) 170
    = Some (165, Some b) /\ take 12 b = chars "pd=net index".
Proof.
  destruct (authority_format_exact sample_snapshot (replicate 170 7) ltac:(simpl; lia)) as [H _].
  eexists. split; [vm_compute in H; vm_compute; exact H|by vm_compute].
Defined.
