(* ===== verification/Endowment.v ===== *)
(** * Endowments: the subsetting check and the delegator's ledger

    Models libs/pd-support/endowment.c (the check, made before any kernel
    object is touched, that a requested endowment asks for nothing its parent
    does not declare to hold) and platform/inspect/endow_ledger.c (the
    delegating domain's own record of what it minted into its children, with
    marks, rollback and the fold into an authority snapshot). *)

From S2P Require Import Prelude Authority.
From stdpp Require Import options.

#[local] Open Scope Z_scope.

(** ** contracts/endowment_contract.h *)

Definition AOS_ENDOWMENT_VERSION : Z := 1.
Definition AOS_ENDOWMENT_MAX_CAPS : Z := 8.

Record aos_endow_cap := mk_endow_cap { ec_kind : Z; ec_rights : Z; ec_parent_slot : Z }.

(** [caps] has eight elements. *)
Record aos_endowment := mk_endowment { en_version : Z; en_count : Z; en_caps : list aos_endow_cap }.

(** ** libs/pd-support/endowment.c *)

(** [req & ~held] on 32-bit words. *)
Definition rights_excess (req held : Z) : Z := Z.land req (Z.lnot held).

(** The inner loop from [j] on, for at most [n] entries: the answer is -1 at
    the first matching entry that lacks a requested right, 0 at the first
    that has them all, and [None] when nothing matches. *)
Fixpoint endow_find (n : nat) (j : Z) (caps : list aos_endow_cap) (rc : aos_endow_cap) :
    option (option Z) :=
  match n with
  | O => Some None
  | S n =>
      pc ← aget caps j;
      if negb (ec_parent_slot pc =? ec_parent_slot rc) || negb (ec_kind pc =? ec_kind rc)
      then endow_find n (j + 1) caps rc
      else if negb (rights_excess (ec_rights rc) (ec_rights pc) =? 0) then Some (Some (-1))
      else Some (Some 0)
  end.

(** The outer loop. *)
Fixpoint endow_check (n : nat) (i : Z) (req held : aos_endowment) : option Z :=
  match n with
  | O => Some 0
  | S n =>
      rc ← aget (en_caps req) i;
      found ← endow_find (Z.to_nat (Z.min (en_count held) AOS_ENDOWMENT_MAX_CAPS)) 0 (en_caps held) rc;
      match found with
      | Some 0 => endow_check n (i + 1) req held
      | _ => Some (-1)
      end
  end.

(** [None] is an access outside an array; NULL pointers are [None]
    arguments. *)
Definition aos_endowment_validate (req parent_holdings : option aos_endowment) : option Z :=
  match req, parent_holdings with
  | Some req, Some held =>
      if negb (en_version req =? AOS_ENDOWMENT_VERSION) then Some (-1)
      else if en_count req =? 0 then Some (-1)
      else if AOS_ENDOWMENT_MAX_CAPS <? en_count req then Some (-1)
      else endow_check (Z.to_nat (en_count req)) 0 req held
  | _, _ => Some (-1)
  end.

(** ** platform/endow_ledger.h *)

Definition AOS_ENDOW_LEDGER_VERSION : Z := 1.
Definition AOS_ENDOW_LEDGER_MAX_ENTRIES : Z := 16.
Definition AOS_ENDOW_LEDGER_OK : Z := 0.
Definition AOS_ENDOW_LEDGER_ERR_NULL : Z := -1.
Definition AOS_ENDOW_LEDGER_ERR_VERSION : Z := -2.
Definition AOS_ENDOW_LEDGER_ERR_FULL : Z := -3.
Definition AOS_ENDOW_LEDGER_ERR_INVALID : Z := -4.

Record aos_endow_ledger_entry := mk_lentry {
  le_child_index : Z; le_child_name : list Z; le_kind : Z; le_rights : Z; le_badge : Z }.

(** [led_entries] has sixteen elements. *)
Record aos_endow_ledger := mk_ledger {
  led_version : Z; led_count : Z; led_dropped : Z; led_entries : list aos_endow_ledger_entry }.

Record aos_endow_ledger_mark_t := mk_mark { mark_count : Z; mark_dropped : Z }.

Definition lentry_zero : aos_endow_ledger_entry := mk_lentry 0 (replicate 32 0) 0 0 0.

(** ** platform/inspect/endow_ledger.c

    Its [copy_name] is the one of authority.c. *)

Definition kind_carries_badge (kind : Z) : bool :=
  (kind =? AOS_AUTHORITY_KIND_ENDPOINT) || (kind =? AOS_AUTHORITY_KIND_NOTIFICATION)
  || (AOS_AUTHORITY_KIND_COUNT <=? kind) || (kind =? AOS_AUTHORITY_KIND_OTHER).

Definition aos_endow_ledger_init (led : option aos_endow_ledger) : option aos_endow_ledger :=
  match led with
  | None => None
  | Some _ => Some (mk_ledger AOS_ENDOW_LEDGER_VERSION 0 0 (replicate 16 lentry_zero))
  end.

(** The entry that a mint is recorded as. *)
Definition ledger_entry (child : Z) (name : option (list Z)) (kind rights badge : Z) :
    aos_endow_ledger_entry :=
  mk_lentry child (copy_name name) kind rights (if kind_carries_badge kind then badge else 0).

Definition aos_endow_ledger_record (led : option aos_endow_ledger) (child : Z)
    (name : option (list Z)) (kind rights badge : Z) : option (Z * option aos_endow_ledger) :=
  match led with
  | None => Some (AOS_ENDOW_LEDGER_ERR_NULL, None)
  | Some l =>
      if negb (led_version l =? AOS_ENDOW_LEDGER_VERSION) then Some (AOS_ENDOW_LEDGER_ERR_VERSION, led)
      else if AOS_ENDOW_LEDGER_MAX_ENTRIES <=? led_count l then
        Some (AOS_ENDOW_LEDGER_ERR_FULL,
          Some (mk_ledger (led_version l) (led_count l) (u32 (led_dropped l + 1)) (led_entries l)))
      else
        es ← aset (led_entries l) (led_count l) (ledger_entry child name kind rights badge);
        Some (AOS_ENDOW_LEDGER_OK,
          Some (mk_ledger (led_version l) (u32 (led_count l + 1)) (led_dropped l) es))
  end.

Definition aos_endow_ledger_mark (led : option aos_endow_ledger) : aos_endow_ledger_mark_t :=
  match led with
  | None => mk_mark 0 0
  | Some l => mk_mark (led_count l) (led_dropped l)
  end.

(** [memset] of the entries [from, from + n). *)
Definition zero_entries (from n : Z) (es : list aos_endow_ledger_entry) :
    option (list aos_endow_ledger_entry) :=
  if (0 <=? from) && (from + n <=? Z.of_nat (length es))
  then Some (take (Z.to_nat from) es ++ replicate (Z.to_nat n) lentry_zero
             ++ drop (Z.to_nat (from + n)) es)
  else None.

Definition aos_endow_ledger_rollback (led : option aos_endow_ledger) (mark : aos_endow_ledger_mark_t) :
    option (option aos_endow_ledger) :=
  match led with
  | None => Some None
  | Some l =>
      if (led_count l <? mark_count mark) || (led_dropped l <? mark_dropped mark) then Some led
      else
        es ← zero_entries (mark_count mark) (led_count l - mark_count mark) (led_entries l);
        Some (Some (mk_ledger (led_version l) (mark_count mark) (mark_dropped mark) es))
  end.

Definition aos_endow_ledger_validate (led : option aos_endow_ledger) : Z :=
  match led with
  | None => AOS_ENDOW_LEDGER_ERR_NULL
  | Some l =>
      if negb (led_version l =? AOS_ENDOW_LEDGER_VERSION) then AOS_ENDOW_LEDGER_ERR_VERSION
      else if AOS_ENDOW_LEDGER_MAX_ENTRIES <? led_count l then AOS_ENDOW_LEDGER_ERR_INVALID
      else AOS_ENDOW_LEDGER_OK
  end.

(** The merge loop from [i] on. *)
Fixpoint merge_entries (n : nat) (i : Z) (es : list aos_endow_ledger_entry)
    (snap : option aos_authority_snapshot) : option (option aos_authority_snapshot) :=
  match n with
  | O => Some snap
  | S n =>
      e ← aget es i;
      '(_, snap') ← aos_authority_add snap (le_child_index e) (Some (le_child_name e)) (le_kind e);
      merge_entries n (i + 1) es snap'
  end.

Definition aos_endow_ledger_merge (led : option aos_endow_ledger)
    (snap : option aos_authority_snapshot) : option (Z * option aos_authority_snapshot) :=
  match snap with
  | None => Some (AOS_ENDOW_LEDGER_ERR_NULL, None)
  | Some _ =>
      let rc := aos_endow_ledger_validate led in
      if negb (rc =? AOS_ENDOW_LEDGER_OK) then Some (rc, snap) else
      match led with
      | None => None
      | Some l =>
          snap' ← merge_entries (Z.to_nat (led_count l)) 0 (led_entries l) snap;
          Some (AOS_ENDOW_LEDGER_OK, snap')
      end
  end.

(** ** Specification *)

(** The entry of the parent that a requested capability names. *)
Definition same_cap (rc pc : aos_endow_cap) : Prop :=
  ec_parent_slot pc = ec_parent_slot rc /\ ec_kind pc = ec_kind rc.

#[global] Instance same_cap_dec rc pc : Decision (same_cap rc pc).
Proof. unfold same_cap. apply _. Defined.

Definition rights_subset (r r' : Z) : Prop :=
  forall b, Z.testbit r b = true -> Z.testbit r' b = true.

Definition declared (held : aos_endowment) : list aos_endow_cap :=
  take (Z.to_nat (Z.min (en_count held) AOS_ENDOWMENT_MAX_CAPS)) (en_caps held).

(** [rc] names a declared capability of the parent and asks for no right that
    its first declaration lacks. *)
Definition covered (held : aos_endowment) (rc : aos_endow_cap) : Prop :=
  exists j pc, list_find (same_cap rc) (declared held) = Some (j, pc)
    /\ rights_subset (ec_rights rc) (ec_rights pc).

Definition endowable (req held : aos_endowment) : Prop :=
  en_version req = AOS_ENDOWMENT_VERSION /\ 0 < en_count req <= AOS_ENDOWMENT_MAX_CAPS
  /\ Forall (covered held) (take (Z.to_nat (en_count req)) (en_caps req)).

Definition ledger_of (es : list aos_endow_ledger_entry) (dropped : Z) : aos_endow_ledger :=
  mk_ledger AOS_ENDOW_LEDGER_VERSION (Z.of_nat (length es)) dropped
    (es ++ replicate (16 - length es) lentry_zero).

(** A sequence of records. *)
Record mint := mk_mint {
  mt_child : Z; mt_name : option (list Z); mt_kind : Z; mt_rights : Z; mt_badge : Z }.

Definition mint_entry (m : mint) : aos_endow_ledger_entry :=
  ledger_entry (mt_child m) (mt_name m) (mt_kind m) (mt_rights m) (mt_badge m).

Fixpoint record_all (led : option aos_endow_ledger) (ms : list mint) : option (option aos_endow_ledger) :=
  match ms with
  | [] => Some led
  | m :: ms =>
      '(_, led') ← aos_endow_ledger_record led (mt_child m) (mt_name m) (mt_kind m)
                     (mt_rights m) (mt_badge m);
      record_all led' ms
  end.

Definition entry_grant (e : aos_endow_ledger_entry) : grant :=
  mk_grant (le_child_index e) (Some (le_child_name e)) (le_kind e).

(** ** The subsetting check *)

Lemma rights_excess_zero r h :
  rights_excess r h = 0 <-> rights_subset r h.
Proof.
  unfold rights_excess, rights_subset. rewrite <- Z.ldiff_land. split.
  - intros Hz b Hb. pose proof (f_equal (fun x => Z.testbit x b) Hz) as Hbit. simpl in Hbit.
    rewrite Z.ldiff_spec, Hb, Z.testbit_0_l in Hbit. by destruct (Z.testbit h b).
  - intros Hsub. apply Z.bits_inj. intros b. rewrite Z.ldiff_spec, Z.testbit_0_l.
    destruct (Z.testbit r b) eqn:Hb; [|done]. by rewrite (Hsub b Hb).
Qed.

Lemma endow_find_spec caps rc n j :
  0 <= j -> j + Z.of_nat n <= Z.of_nat (length caps) ->
  endow_find n j caps rc = Some
    (match list_find (same_cap rc) (take n (drop (Z.to_nat j) caps)) with
     | Some (_, pc) => Some (if rights_excess (ec_rights rc) (ec_rights pc) =? 0 then 0 else -1)
     | None => None
     end).
Proof.
  revert j. induction n as [|n IH]; intros j Hj Hlen; [done|]. cbn [endow_find].
  destruct (aget_lt caps j) as [pc Hpc]; [lia|]. rewrite Hpc. cbn [mbind option_bind].
  apply aget_Some in Hpc as [_ Hpc]. rewrite (drop_S _ _ _ Hpc). cbn [take list_find].
  rewrite IH by lia. replace (Z.to_nat (j + 1)) with (S (Z.to_nat j)) by lia.
  case_decide as Hs.
  - destruct Hs as [-> ->]. rewrite !Z.eqb_refl. simpl. by destruct (_ =? 0).
  - replace (negb (ec_parent_slot pc =? ec_parent_slot rc) || negb (ec_kind pc =? ec_kind rc))
      with true.
    2:{ symmetry. unfold same_cap in Hs.
        destruct (Z.eqb_spec (ec_parent_slot pc) (ec_parent_slot rc)),
          (Z.eqb_spec (ec_kind pc) (ec_kind rc)); simpl; tauto. }
    by destruct (list_find _ (take n _)) as [[]|].
Qed.

Lemma endow_check_spec req held n i :
  length (en_caps held) = 8%nat -> 0 <= i -> i + Z.of_nat n <= Z.of_nat (length (en_caps req)) ->
  exists r, endow_check n i req held = Some r /\ (r = 0 \/ r = -1) /\
    (r = 0 <-> Forall (covered held) (take n (drop (Z.to_nat i) (en_caps req)))).
Proof.
  intros Hh. revert i. induction n as [|n IH]; intros i Hi Hlen.
  { exists 0. split_and!; [done|by left|]. by split. }
  cbn [endow_check]. destruct (aget_lt (en_caps req) i) as [rc Hrc]; [lia|]. rewrite Hrc.
  cbn [mbind option_bind]. apply aget_Some in Hrc as [_ Hrc].
  rewrite endow_find_spec by (unfold AOS_ENDOWMENT_MAX_CAPS; lia). rewrite drop_0.
  fold (declared held). cbn [mbind option_bind]. rewrite (drop_S _ _ _ Hrc). cbn [take].
  setoid_rewrite Forall_cons. destruct (list_find _ (declared held)) as [[j pc]|] eqn:Hf.
  - assert (covered held rc <-> rights_excess (ec_rights rc) (ec_rights pc) = 0) as Hcov.
    { rewrite rights_excess_zero. unfold covered. rewrite Hf. naive_solver. }
    destruct (Z.eqb_spec (rights_excess (ec_rights rc) (ec_rights pc)) 0).
    + destruct (IH (i + 1)) as (r & Hr & Hv & Hiff); [lia..|].
      replace (Z.to_nat (i + 1)) with (S (Z.to_nat i)) in Hiff by lia.
      exists r. naive_solver.
    + exists (-1). naive_solver.
  - exists (-1). split_and!; [done|by right|]. split; [done|].
    intros [(j & pc & Hc & _) _]. congruence.
Qed.

Lemma endowment_validate_spec req held :
  length (en_caps req) = 8%nat -> length (en_caps held) = 8%nat -> 0 <= en_count req ->
  exists r, aos_endowment_validate (Some req) (Some held) = Some r /\ (r = 0 \/ r = -1)
    /\ (r = 0 <-> endowable req held).
Proof.
  intros Hr Hh Hc. unfold aos_endowment_validate, endowable, AOS_ENDOWMENT_MAX_CAPS.
  assert (Hbad : forall P : Prop, ~ P ->
    exists r, Some (-1) = Some r /\ (r = 0 \/ r = -1) /\ (r = 0 <-> P)).
  { intros P HP. exists (-1). split_and!; [done|by right|]. by split. }
  destruct (Z.eqb_spec (en_version req) AOS_ENDOWMENT_VERSION); [simpl negb; cbn iota|apply Hbad; tauto].
  destruct (Z.eqb_spec (en_count req) 0); [apply Hbad; lia|].
  destruct (Z.ltb_spec 8 (en_count req)); [apply Hbad; lia|].
  destruct (endow_check_spec req held (Z.to_nat (en_count req)) 0) as (r & -> & Hv & Hiff);
    [done|lia|lia|].
  exists r. split; [done|]. split; [done|]. rewrite Hiff, drop_0. intuition lia.
Qed.

(** ** The ledger *)

Lemma ledger_of_entries es d :
  (length es <= 16)%nat -> length (led_entries (ledger_of es d)) = 16%nat.
Proof. intros. simpl. rewrite length_app, length_replicate. lia. Qed.

Lemma ledger_record_room es d m :
  (length es < 16)%nat ->
  aos_endow_ledger_record (Some (ledger_of es d)) (mt_child m) (mt_name m) (mt_kind m)
    (mt_rights m) (mt_badge m)
    = Some (AOS_ENDOW_LEDGER_OK, Some (ledger_of (es ++ [mint_entry m]) d)).
Proof.
  intros Hlen. unfold aos_endow_ledger_record, AOS_ENDOW_LEDGER_MAX_ENTRIES.
  cbn [led_version led_count led_dropped led_entries ledger_of]. rewrite Z.eqb_refl. cbn [negb].
  destruct (Z.leb_spec 16 (Z.of_nat (length es))); [lia|].
  rewrite aset_Some by (rewrite length_app, length_replicate; lia).
  cbn [mbind option_bind]. rewrite u32_small by (unfold is_u32; lia). unfold ledger_of, mint_entry.
  rewrite Nat2Z.id, length_app, insert_app_r_alt, Nat.sub_diag by lia. simpl length.
  replace (16 - length es)%nat with (S (16 - (length es + 1))) by lia.
  cbn [replicate]. rewrite <- app_assoc. do 4 f_equal. lia.
Qed.

Lemma ledger_record_full es d m :
  length es = 16%nat -> 0 <= d < 2 ^ 32 - 1 ->
  aos_endow_ledger_record (Some (ledger_of es d)) (mt_child m) (mt_name m) (mt_kind m)
    (mt_rights m) (mt_badge m)
    = Some (AOS_ENDOW_LEDGER_ERR_FULL, Some (ledger_of es (d + 1))).
Proof.
  intros Hlen Hd. unfold aos_endow_ledger_record, AOS_ENDOW_LEDGER_MAX_ENTRIES, ledger_of.
  cbn [led_version led_count led_dropped led_entries]. rewrite Hlen.
  by rewrite u32_small by (unfold is_u32; lia).
Qed.

Lemma record_all_spec ms es d :
  (length es <= 16)%nat -> 0 <= d -> d + Z.of_nat (length ms) < 2 ^ 32 ->
  let fit := take (16 - length es) (mint_entry <$> ms) in
  record_all (Some (ledger_of es d)) ms
    = Some (Some (ledger_of (es ++ fit) (d + Z.of_nat (length ms - length fit)))).
Proof.
  revert es d. induction ms as [|m ms IH]; intros es d Hes Hd Hlt fit; subst fit.
  { rewrite fmap_nil, take_nil, app_nil_r. simpl. by rewrite Z.add_0_r. }
  cbn [record_all]. cbn [length] in Hlt. destruct (decide (length es = 16%nat)) as [Hfull|].
  - rewrite ledger_record_full by lia. cbn [mbind option_bind]. rewrite IH by lia.
    replace (16 - length es)%nat with 0%nat by lia. rewrite !take_0. do 3 f_equal.
    cbn [length]. lia.
  - rewrite ledger_record_room by lia. cbn [mbind option_bind].
    rewrite IH by (rewrite ?length_app; simpl; lia). rewrite length_app. cbn [length].
    replace (16 - length es)%nat with (S (16 - (length es + 1))) by lia.
    rewrite fmap_cons. cbn [take length]. rewrite <- app_assoc. do 3 f_equal.
Qed.

Lemma ledger_rollback_spec es more d d' :
  (length (es ++ more) <= 16)%nat -> d <= d' ->
  aos_endow_ledger_rollback (Some (ledger_of (es ++ more) d')) (aos_endow_ledger_mark (Some (ledger_of es d)))
    = Some (Some (ledger_of es d)).
Proof.
  intros Hlen Hd. rewrite length_app in Hlen.
  unfold aos_endow_ledger_rollback, aos_endow_ledger_mark, zero_entries.
  cbn [led_version led_count led_dropped led_entries ledger_of mark_count mark_dropped].
  rewrite !length_app, length_replicate.
  destruct (Z.ltb_spec (Z.of_nat (length es + length more)) (Z.of_nat (length es))); [lia|].
  destruct (Z.ltb_spec d' d); [lia|]. cbn [orb].
  destruct (Z.leb_spec 0 (Z.of_nat (length es))); [|lia].
  destruct (Z.leb_spec (Z.of_nat (length es) + (Z.of_nat (length es + length more) - Z.of_nat (length es)))
    (Z.of_nat (length es + length more + (16 - (length es + length more))))); [|lia].
  cbn [andb mbind option_bind]. unfold ledger_of. do 3 f_equal.
  rewrite Nat2Z.id, <- app_assoc, take_app_length.
  replace (Z.to_nat (Z.of_nat (length es + length more) - Z.of_nat (length es))) with (length more) by lia.
  replace (Z.to_nat (Z.of_nat (length es) + (Z.of_nat (length es + length more) - Z.of_nat (length es))))
    with (length (es ++ more)) by (rewrite length_app; lia).
  rewrite (app_assoc es more), drop_app_length, <- replicate_add. do 2 f_equal. lia.
Qed.

Lemma merge_entries_run es rest snap snap' :
  authority_run snap (entry_grant <$> es) = Some snap' ->
  forall pre, merge_entries (length es) (Z.of_nat (length pre)) (pre ++ es ++ rest) (Some snap)
    = Some (Some snap').
Proof.
  revert snap. induction es as [|e es IH]; intros snap Hrun pre.
  { injection Hrun as <-. done. }
  cbn [fmap list_fmap authority_run] in Hrun. cbn [length merge_entries].
  assert (aget (pre ++ (e :: es) ++ rest) (Z.of_nat (length pre)) = Some e) as ->.
  { apply aget_Some. split; [lia|]. rewrite Nat2Z.id. by apply list_lookup_middle. }
  cbn [mbind option_bind]. cbn [entry_grant gr_pd gr_name gr_kind] in Hrun.
  destruct (aos_authority_add (Some snap) (le_child_index e) (Some (le_child_name e)) (le_kind e))
    as [[rc [s1|]]|]; [|done..].
  specialize (IH s1 Hrun (pre ++ [e])). rewrite length_app in IH. simpl length in IH.
  rewrite <- !app_assoc in IH. simpl in IH. rewrite <- IH. simpl.
  by replace (Z.of_nat (length pre + 1)) with (Z.of_nat (length pre) + 1) by lia.
Qed.

Lemma ledger_merge_spec es d :
  (length es <= 16)%nat -> Forall (fun e => 0 <= le_kind e) es ->
  exists snap, aos_endow_ledger_merge (Some (ledger_of es d)) (Some snap_fresh)
      = Some (AOS_ENDOW_LEDGER_OK, Some snap) /\ authority_inv (entry_grant <$> es) snap.
Proof.
  intros Hlen Hk. destruct (authority_run_inv (entry_grant <$> es) [] snap_fresh)
    as (snap & Hrun & Hinv); [apply authority_inv_fresh| |].
  { apply Forall_fmap. eapply Forall_impl; [exact Hk|]. done. }
  exists snap. split; [|done]. unfold aos_endow_ledger_merge, aos_endow_ledger_validate.
  unfold AOS_ENDOW_LEDGER_MAX_ENTRIES, ledger_of. cbn [led_version led_count led_entries].
  rewrite Z.eqb_refl. cbn [negb]. destruct (Z.ltb_spec 16 (Z.of_nat (length es))); [lia|].
  cbn [negb Z.eqb AOS_ENDOW_LEDGER_OK]. rewrite Nat2Z.id.
  pose proof (merge_entries_run es (replicate (16 - length es) lentry_zero) _ _ Hrun []) as Hm.
  change (Z.of_nat (length [])) with 0 in Hm. rewrite app_nil_l in Hm.
  cbn [mbind option_bind]. by rewrite Hm.
Qed.

(** The subsetting check accepts exactly the endowments that ask for
    nothing beyond the parent's declaration: the version matches, between one
    and eight capabilities are named, and for each one the parent's first
    declaration of the same slot and kind has every right asked for, bit by
    bit. It returns for every content of the two descriptors, whatever count
    they claim, without reading outside their arrays. *)
Theorem endowment_validate_exact req held :
  length (en_caps req) = 8%nat -> length (en_caps held) = 8%nat -> 0 <= en_count req ->
  exists r, aos_endowment_validate (Some req) (Some held) = Some r
    /\ (r = 0 \/ r = -1) /\ (r = 0 <-> endowable req held).
Proof. apply endowment_validate_spec. Qed.

Definition holdings_example : aos_endowment :=
  mk_endowment 1 2 (mk_endow_cap 5 3 40 :: mk_endow_cap 2 1 41 :: replicate 6 (mk_endow_cap 0 0 0)).
Definition request_example : aos_endowment :=
  mk_endowment 1 1 (mk_endow_cap 5 2 40 :: replicate 7 (mk_endow_cap 0 0 0)).

Lemma endowment_validate_exact_witness : endowable request_example holdings_example.
Proof.
  destruct (endowment_validate_exact request_example holdings_example eq_refl eq_refl ltac:(done))
    as (r & Hr & _ & Hiff).
  apply Hiff. vm_compute in Hr. by injection Hr as <-.
Defined.

(** The ledger is exact. Recording mints appends their entries while
    there is room and counts the rest as dropped; rolling back to a mark
    taken before them restores the whole ledger, bit for bit, the drops that
    were outstanding at the mark included; and merging the ledger into a
    fresh snapshot counts exactly the recorded mints. *)
Theorem endow_ledger_exact es d ms :
  (length es <= 16)%nat -> 0 <= d -> d + Z.of_nat (length ms) < 2 ^ 32 ->
  Forall (fun e => 0 <= le_kind e) es -> Forall (fun m => 0 <= mt_kind m) ms ->
  let es' := es ++ take (16 - length es) (mint_entry <$> ms) in
  let d' := d + Z.of_nat (length es + length ms - length es') in
  record_all (Some (ledger_of es d)) ms = Some (Some (ledger_of es' d'))
  /\ aos_endow_ledger_rollback (Some (ledger_of es' d')) (aos_endow_ledger_mark (Some (ledger_of es d)))
     = Some (Some (ledger_of es d))
  /\ exists snap, aos_endow_ledger_merge (Some (ledger_of es' d')) (Some snap_fresh)
       = Some (AOS_ENDOW_LEDGER_OK, Some snap) /\ authority_inv (entry_grant <$> es') snap.
Proof.
  intros Hes Hd Hlt Hk Hm es' d'.
  assert (length es' <= 16)%nat by (unfold es'; rewrite length_app, length_take; lia).
  split_and!.
  - rewrite record_all_spec by done. unfold d', es'. rewrite length_app. do 4 f_equal. lia.
  - apply ledger_rollback_spec; [done|lia].
  - apply ledger_merge_spec; [done|]. apply Forall_app. split; [done|].
    apply Forall_take, Forall_fmap. exact Hm.
Qed.

Definition mints_example : list mint :=
  [mk_mint 1 (Some [99; 104]) 2 3 7; mk_mint 1 None 5 1 9].

Lemma endow_ledger_exact_witness :
  exists led, record_all (Some (ledger_of [] 0)) mints_example = Some (Some led) /\
    aos_endow_ledger_rollback (Some led) (mk_mark 0 0) = Some (Some (ledger_of [] 0)) /\
    le_badge <$> take 2 (led_entries led) = [7; 0].
Proof.
  destruct (endow_ledger_exact [] 0 mints_example) as (H1 & H2 & _);
    [simpl; lia|done|done|constructor|by repeat constructor|].
  eexists. split; [exact H1|]. split; [exact H2|]. by vm_compute.
Defined.
