(* ===== verification/ChildSpawn.v ===== *)
(** * Run-time creation of a child domain

    Models libs/pd-support/child_spawn.c: a parent retypes a CNode, a VSpace,
    frames, a TCB and a scheduling context from its own untyped pool, maps
    memory, endows the child by minting from its own capabilities, records the
    mints in its ledger, and only then makes the child runnable. Every step
    can fail; the failure path unmaps the caller's frames, deletes what was
    staged and rolls the ledger back. The kernel, and the service that
    installs a fault handler, are arbitrary. *)

From S2P Require Import Prelude Kernel Authority Endowment.
From stdpp Require Import options.

#[local] Open Scope Z_scope.

(** ** child_spawn.h *)

Definition AOS_CHILD_SPAWN_OK : Z := 0.
Definition AOS_CHILD_SPAWN_ERR_VALIDATE : Z := -1.
Definition AOS_CHILD_SPAWN_ERR_SCRATCH : Z := -2.
Definition AOS_CHILD_SPAWN_ERR_RETYPE : Z := -3.
Definition AOS_CHILD_SPAWN_ERR_ASID : Z := -4.
Definition AOS_CHILD_SPAWN_ERR_MAP : Z := -5.
Definition AOS_CHILD_SPAWN_ERR_CONFIGURE : Z := -6.
Definition AOS_CHILD_SPAWN_ERR_ENDOW : Z := -7.
Definition AOS_CHILD_SPAWN_ERR_START : Z := -8.
Definition AOS_CHILD_SPAWN_SCRATCH_SLOTS : Z := 24.
Definition AOS_CHILD_SPAWN_MAX_PT_LEVELS : nat := 4.

(** The step identifiers of child_spawn.c, in the order of the enumeration. *)
Inductive spawn_step :=
  | STEP_NONE | STEP_CNODE | STEP_VSPACE | STEP_ASID | STEP_CONTENT_MAP | STEP_EXTRA_MAP
  | STEP_STACK_FRAME | STEP_STACK_MAP | STEP_IPC_FRAME | STEP_IPC_MAP | STEP_TCB
  | STEP_CONFIGURE | STEP_REGS | STEP_SC | STEP_SC_CONFIGURE | STEP_SCHED_PARAMS
  | STEP_ENDOW | STEP_START | STEP_FAULT_INSTALL.

Record aos_pt_scratch := mk_scratch {
  sc_pool_ut : Z; sc_self_cnode : Z; sc_self_cnode_bits : Z;
  sc_base_slot : Z; sc_next_slot : Z; sc_limit_slot : Z }.

Record aos_child_spawn_map := mk_map { cm_frame : Z; cm_va : Z }.

(** Pointers are [None] when NULL; [extra_maps] and [endow_cptrs] are arrays.
    The ledger is part of the program state. *)
Record aos_child_spawn_req := mk_req {
  pool_ut : Z; self_cnode : Z; self_cnode_bits : Z; self_tcb : Z; asid_pool : Z;
  sched_control : Z; scratch_slot : Z; scratch_count : Z; content_frame : Z; content_va : Z;
  extra_maps : option (list aos_child_spawn_map); extra_map_count : Z;
  fault_ep : Z; fault_install_ep : Z; fault_install_label : Z;
  entry_point : Z; stack_va_top : Z; ipc_buf_va : Z; arg0 : Z; arg1 : Z;
  cnode_size_bits : Z; priority : Z;
  endow : option aos_endowment; parent_holdings : option aos_endowment;
  endow_cptrs : option (list Z); endow_child_base_slot : Z; endow_badge : Z;
  child_index : Z; child_name : option (list Z) }.

Record aos_child_spawn_result := mk_result {
  r_cnode : Z; r_vspace : Z; r_tcb : Z; r_error : Z; r_failed_step : spawn_step;
  r_failed_endow_index : Z; r_scratch_base : Z; r_scratch_next : Z }.

(** The caller's ledger and the local variables [st], [content_mapped] and
    [extra_mapped]. *)
Record spawn_state := mk_spawn {
  ss_ledger : option aos_endow_ledger; ss_st : aos_pt_scratch;
  ss_content_mapped : bool; ss_extra_mapped : Z }.

Definition set_next (n : Z) (sc : aos_pt_scratch) : aos_pt_scratch :=
  mk_scratch (sc_pool_ut sc) (sc_self_cnode sc) (sc_self_cnode_bits sc) (sc_base_slot sc) n
    (sc_limit_slot sc).
Definition set_st (st : aos_pt_scratch) (s : spawn_state) : spawn_state :=
  mk_spawn (ss_ledger s) st (ss_content_mapped s) (ss_extra_mapped s).
Definition set_ledger (led : option aos_endow_ledger) (s : spawn_state) : spawn_state :=
  mk_spawn led (ss_st s) (ss_content_mapped s) (ss_extra_mapped s).
Definition set_content_mapped (b : bool) (s : spawn_state) : spawn_state :=
  mk_spawn (ss_ledger s) (ss_st s) b (ss_extra_mapped s).
Definition set_extra_mapped (n : Z) (s : spawn_state) : spawn_state :=
  mk_spawn (ss_ledger s) (ss_st s) (ss_content_mapped s) n.

Definition failed (e : seL4_Error) : bool := negb (bool_decide (e = seL4_NoError)).

Definition aos_pt_scratch_init (pool self bits base count : Z) : aos_pt_scratch :=
  mk_scratch pool self bits base base (u64 (base + count)).

Definition unpack_rights (bits : Z) : seL4_CapRights :=
  mk_rights (Z.testbit bits 3) (Z.testbit bits 2) (Z.testbit bits 1) (Z.testbit bits 0).

Section spawn.
Context {K : Type} `{Kernel K}.

(** ** The scratch allocator *)

Definition pt_scratch_claim : kprog K aos_pt_scratch Z :=
  sc ← kget;
  if sc_limit_slot sc <=? sc_next_slot sc then mret seL4_CapNull else
  kmodify (set_next (u64 (sc_next_slot sc + 1)));;
  mret (sc_next_slot sc).

(** The slot retyped into, or the error. *)
Definition retype_one (type : kobject) (size_bits : Z) : kprog K aos_pt_scratch (seL4_Error + Z) :=
  slot ← pt_scratch_claim;
  if slot =? seL4_CapNull then mret (inl seL4_NotEnoughMemory) else
  sc ← kget;
  err ← ksys (Untyped_Retype (sc_pool_ut sc) type size_bits (sc_self_cnode sc) 0 0 slot 1);
  if failed err then
    kmodify (fun sc => set_next (u64 (sc_next_slot sc - 1)) sc);;
    mret (inl err)
  else mret (inr slot).

(** [n] attempts are left. *)
Fixpoint map_attempts (n : nat) (frame vspace va : Z) : kprog K aos_pt_scratch seL4_Error :=
  match n with
  | O => mret seL4_FailedLookup
  | S n =>
      err ← ksys (Page_Map frame vspace va);
      if negb (failed err) then mret seL4_NoError else
      if negb (bool_decide (err = seL4_FailedLookup)) || bool_decide (n = 0%nat) then mret err else
      pt ← retype_one seL4_PageTableObject 0;
      match pt with
      | inl rt => mret rt
      | inr pt =>
          mt ← ksys (PageTable_Map pt vspace va);
          if failed mt then mret mt else map_attempts n frame vspace va
      end
  end.

Definition aos_pt_map_retrying (frame vspace va : Z) : kprog K aos_pt_scratch seL4_Error :=
  map_attempts AOS_CHILD_SPAWN_MAX_PT_LEVELS frame vspace va.

(** The loop of [staging_teardown], which runs [next_slot - base_slot] times. *)
Fixpoint delete_slots (n : nat) : kprog K aos_pt_scratch unit :=
  match n with
  | O => mret tt
  | S n =>
      kmodify (fun sc => set_next (u64 (sc_next_slot sc - 1)) sc);;
      sc ← kget;
      _ ← ksys (CNode_Delete (sc_self_cnode sc) (sc_next_slot sc) (sc_self_cnode_bits sc));
      delete_slots n
  end.

Definition staging_teardown : kprog K aos_pt_scratch unit :=
  sc ← kget;
  delete_slots (Z.to_nat (sc_next_slot sc - sc_base_slot sc)).

Definition in_scratch {A} (m : kprog K aos_pt_scratch A) : kprog K spawn_state A :=
  zoom ss_st set_st m.

(** Unmaps the first [n] extra frames, last first. *)
Fixpoint unmap_extras (n : nat) (maps : list aos_child_spawn_map) : kprog K spawn_state unit :=
  match n with
  | O => mret tt
  | S n =>
      m ← lift (maps !! n);
      _ ← ksys (Page_Unmap (cm_frame m));
      unmap_extras n maps
  end.

Definition fail_teardown (req : aos_child_spawn_req) : kprog K spawn_state unit :=
  s ← kget;
  unmap_extras (Z.to_nat (ss_extra_mapped s)) (default [] (extra_maps req));;
  (if ss_content_mapped s then _ ← ksys (Page_Unmap (content_frame req)); mret tt else mret tt);;
  in_scratch staging_teardown.

(** [fail_teardown] and the code at [done_fail]. *)
Definition spawn_fail (req : aos_child_spawn_req) (mark : aos_endow_ledger_mark_t) (error : Z)
    (step : spawn_step) (index : Z) : kprog K spawn_state aos_child_spawn_result :=
  fail_teardown req;;
  s ← kget;
  led ← lift (aos_endow_ledger_rollback (ss_ledger s) mark);
  kmodify (set_ledger led);;
  mret (mk_result 0 0 0 error step index (sc_base_slot (ss_st s)) (sc_base_slot (ss_st s))).

(** ** aos_child_spawn *)

(** [if (m != seL4_NoError) { ...; goto done_fail; }] *)
Definition attempt (m : kprog K spawn_state seL4_Error) (on_fail k : kprog K spawn_state aos_child_spawn_result) :
    kprog K spawn_state aos_child_spawn_result :=
  e ← m; if failed e then on_fail else k.

Definition attempt_cap (m : kprog K spawn_state (seL4_Error + Z))
    (on_fail : kprog K spawn_state aos_child_spawn_result)
    (k : Z -> kprog K spawn_state aos_child_spawn_result) : kprog K spawn_state aos_child_spawn_result :=
  r ← m; match r with inl _ => on_fail | inr cap => k cap end.

(** Maps [n] extra frames from index [i] on; the first error, if any. *)
Fixpoint map_extras (n : nat) (i : Z) (maps : list aos_child_spawn_map) (vspace : Z) :
    kprog K spawn_state seL4_Error :=
  match n with
  | O => mret seL4_NoError
  | S n =>
      m ← lift (aget maps i);
      e ← in_scratch (aos_pt_map_retrying (cm_frame m) vspace (cm_va m));
      if failed e then mret e else
      kmodify (fun s => set_extra_mapped (u64 (ss_extra_mapped s + 1)) s);;
      map_extras n (i + 1) maps vspace
  end.

(** Mints [n] capabilities from index [i] on; the index that failed, if any. *)
Fixpoint endow_loop (n : nat) (i : Z) (req : aos_child_spawn_req) (caps : list aos_endow_cap)
    (cptrs : list Z) (cnode : Z) : kprog K spawn_state (option Z) :=
  match n with
  | O => mret None
  | S n =>
      c ← lift (aget caps i);
      src ← lift (aget cptrs i);
      e ← ksys (CNode_Mint cnode (u64 (endow_child_base_slot req + i)) (cnode_size_bits req)
             (self_cnode req) src (self_cnode_bits req) (unpack_rights (ec_rights c)) (endow_badge req));
      if failed e then mret (Some i) else
      s ← kget;
      '(_, led) ← lift (aos_endow_ledger_record (ss_ledger s) (child_index req) (child_name req)
                     (ec_kind c) (ec_rights c) (endow_badge req));
      kmodify (set_ledger led);;
      endow_loop n (i + 1) req caps cptrs cnode
  end.

Definition spawn_regs (req : aos_child_spawn_req) : seL4_UserContext :=
  mk_context (entry_point req) (stack_va_top req) (arg0 req) (arg1 req).

(** From the endowment to the end: the child is configured and inactive. *)
Definition spawn_endow_start (req : aos_child_spawn_req) (en : aos_endowment) (cptrs : list Z)
    (mark : aos_endow_ledger_mark_t) (cnode vspace tcb : Z) : kprog K spawn_state aos_child_spawn_result :=
  bad ← endow_loop (Z.to_nat (en_count en)) 0 req (en_caps en) cptrs cnode;
  match bad with
  | Some i => spawn_fail req mark AOS_CHILD_SPAWN_ERR_ENDOW STEP_ENDOW i
  | None =>
      e ← ksys (TCB_WriteRegisters tcb true (spawn_regs req));
      if failed e then
        s ← kget;
        led ← lift (aos_endow_ledger_rollback (ss_ledger s) mark);
        kmodify (set_ledger led);;
        mret (mk_result cnode vspace tcb AOS_CHILD_SPAWN_ERR_START STEP_START 0
                (sc_base_slot (ss_st s)) (sc_next_slot (ss_st s)))
      else
        s ← kget;
        mret (mk_result cnode vspace tcb AOS_CHILD_SPAWN_OK STEP_NONE 0
                (sc_base_slot (ss_st s)) (sc_next_slot (ss_st s)))
  end.

(** The fault handler and the scheduling context. *)
Definition install_fault_handler (req : aos_child_spawn_req) (tcb : Z) : kprog K spawn_state seL4_Error :=
  if negb (fault_install_ep req =? seL4_CapNull) then
    ksys (IPC_Call (fault_install_ep req) (Z.land (fault_install_label req) 0xfffffffffffff) tcb)
  else mret seL4_NoError.

Definition bind_sched_context (req : aos_child_spawn_req) (tcb sc : Z) : kprog K spawn_state seL4_Error :=
  if negb (fault_install_ep req =? seL4_CapNull) then ksys (SchedContext_Bind sc tcb)
  else ksys (TCB_SetSchedParams tcb (self_tcb req) 255 (priority req) sc (fault_ep req)).

(** From the TCB on: the address space is built. *)
Definition spawn_thread (req : aos_child_spawn_req) (en : aos_endowment) (cptrs : list Z)
    (mark : aos_endow_ledger_mark_t) (cnode vspace ipc_frame : Z) :
    kprog K spawn_state aos_child_spawn_result :=
  let fail := spawn_fail req mark in
  attempt_cap (in_scratch (retype_one seL4_TCBObject 0))
    (fail AOS_CHILD_SPAWN_ERR_RETYPE STEP_TCB 0) (fun tcb =>
  attempt (ksys (TCB_Configure tcb cnode (u32 (seL4_WordBits - cnode_size_bits req)) vspace 0
                   (ipc_buf_va req) ipc_frame))
    (fail AOS_CHILD_SPAWN_ERR_CONFIGURE STEP_CONFIGURE 0) (
  attempt (ksys (TCB_WriteRegisters tcb false (spawn_regs req)))
    (fail AOS_CHILD_SPAWN_ERR_CONFIGURE STEP_REGS 0) (
  attempt (install_fault_handler req tcb)
    (fail AOS_CHILD_SPAWN_ERR_CONFIGURE STEP_FAULT_INSTALL 0) (
  attempt_cap (in_scratch (retype_one seL4_SchedContextObject (kbits seL4_SchedContextObject)))
    (fail AOS_CHILD_SPAWN_ERR_RETYPE STEP_SC 0) (fun sc =>
  attempt (ksys (SchedControl_ConfigureFlags (sched_control req) sc 10000 1000000 0 0 0))
    (fail AOS_CHILD_SPAWN_ERR_CONFIGURE STEP_SC_CONFIGURE 0) (
  attempt (bind_sched_context req tcb sc)
    (fail AOS_CHILD_SPAWN_ERR_CONFIGURE STEP_SCHED_PARAMS 0) (
  spawn_endow_start req en cptrs mark cnode vspace tcb))))))).

(** The address space and everything after it. *)
Definition spawn_domain (req : aos_child_spawn_req) (en : aos_endowment) (cptrs : list Z) :
    kprog K spawn_state aos_child_spawn_result :=
  kmodify (fun s => mk_spawn (ss_ledger s) (aos_pt_scratch_init (pool_ut req) (self_cnode req)
    (self_cnode_bits req) (scratch_slot req) (scratch_count req)) false 0);;
  s ← kget;
  let mark := aos_endow_ledger_mark (ss_ledger s) in
  let fail := spawn_fail req mark in
  attempt_cap (in_scratch (retype_one seL4_CapTableObject (cnode_size_bits req)))
    (fail AOS_CHILD_SPAWN_ERR_RETYPE STEP_CNODE 0) (fun cnode =>
  attempt_cap (in_scratch (retype_one seL4_VSpaceObject 0))
    (fail AOS_CHILD_SPAWN_ERR_RETYPE STEP_VSPACE 0) (fun vspace =>
  attempt (ksys (ASIDPool_Assign (asid_pool req) vspace))
    (fail AOS_CHILD_SPAWN_ERR_ASID STEP_ASID 0) (
  attempt (in_scratch (aos_pt_map_retrying (content_frame req) vspace (content_va req)))
    (fail AOS_CHILD_SPAWN_ERR_MAP STEP_CONTENT_MAP 0) (
  kmodify (set_content_mapped true);;
  attempt (map_extras (Z.to_nat (extra_map_count req)) 0 (default [] (extra_maps req)) vspace)
    (fail AOS_CHILD_SPAWN_ERR_MAP STEP_EXTRA_MAP 0) (
  attempt_cap (in_scratch (retype_one seL4_SmallPageObject 0))
    (fail AOS_CHILD_SPAWN_ERR_RETYPE STEP_STACK_FRAME 0) (fun stack_frame =>
  attempt (in_scratch (aos_pt_map_retrying stack_frame vspace (u64 (stack_va_top req - 0x1000))))
    (fail AOS_CHILD_SPAWN_ERR_MAP STEP_STACK_MAP 0) (
  attempt_cap (in_scratch (retype_one seL4_SmallPageObject 0))
    (fail AOS_CHILD_SPAWN_ERR_RETYPE STEP_IPC_FRAME 0) (fun ipc_frame =>
  attempt (in_scratch (aos_pt_map_retrying ipc_frame vspace (ipc_buf_va req)))
    (fail AOS_CHILD_SPAWN_ERR_MAP STEP_IPC_MAP 0) (
  spawn_thread req en cptrs mark cnode vspace ipc_frame))))))))).

Definition spawn_reject (error : Z) : aos_child_spawn_result :=
  mk_result 0 0 0 error STEP_NONE 0 0 0.

(** The value of [*out] on return; the return value is its [error] field. An
    [out] of NULL is answered with the code of a request that does not
    validate and is not modelled further. *)
Definition aos_child_spawn (req : option aos_child_spawn_req) :
    kprog K spawn_state aos_child_spawn_result :=
  match req with
  | None => mret (spawn_reject AOS_CHILD_SPAWN_ERR_VALIDATE)
  | Some req =>
      v ← lift (aos_endowment_validate (endow req) (parent_holdings req));
      if negb (v =? 0) then mret (spawn_reject AOS_CHILD_SPAWN_ERR_VALIDATE) else
      en ← lift (endow req);
      if bool_decide (endow_cptrs req = None) && negb (en_count en =? 0)
      then mret (spawn_reject AOS_CHILD_SPAWN_ERR_VALIDATE) else
      if scratch_count req <? AOS_CHILD_SPAWN_SCRATCH_SLOTS
      then mret (spawn_reject AOS_CHILD_SPAWN_ERR_SCRATCH) else
      if negb (extra_map_count req =? 0) && bool_decide (extra_maps req = None)
      then mret (spawn_reject AOS_CHILD_SPAWN_ERR_VALIDATE) else
      spawn_domain req en (default [] (endow_cptrs req))
  end.
End spawn.

(** ** Specification *)

(** What the invocations [d], newest first, created; what of it they have not
    deleted since; and which frames they mapped and have not unmapped since.
    A deletion or an unmapping counts when it was issued: the code does not
    look at its result. *)
Fixpoint created (d : list kevent) : list Z :=
  match d with
  | [] => []
  | (Untyped_Retype _ _ _ _ _ _ slot _, seL4_NoError) :: d => slot :: created d
  | _ :: d => created d
  end.

Fixpoint live (d : list kevent) : list Z :=
  match d with
  | [] => []
  | (Untyped_Retype _ _ _ _ _ _ slot _, seL4_NoError) :: d => slot :: live d
  | (CNode_Delete _ slot _, _) :: d => filter (fun x => x <> slot) (live d)
  | _ :: d => live d
  end.

Fixpoint mapped (d : list kevent) : list Z :=
  match d with
  | [] => []
  | (Page_Map frame _ _, seL4_NoError) :: d => frame :: mapped d
  | (Page_Unmap frame, _) :: d => filter (fun x => x <> frame) (mapped d)
  | _ :: d => mapped d
  end.

(** The invocation that makes a thread runnable. *)
Definition resumes (c : kcall) : bool :=
  match c with TCB_WriteRegisters _ resume _ => resume | _ => false end.

Definition maps_of (req : aos_child_spawn_req) : list aos_child_spawn_map := default [] (extra_maps req).

(** A slot of the range that the caller gave for staging. *)
Definition staging (req : aos_child_spawn_req) (slot : Z) : Prop :=
  scratch_slot req <= slot < u64 (scratch_slot req + scratch_count req).

(** The [i]-th mint of the endowment into [cnode]. *)
Definition endow_mint (req : aos_child_spawn_req) (cnode : Z) (i : nat) (c : aos_endow_cap) (src : Z) : kcall :=
  CNode_Mint cnode (u64 (endow_child_base_slot req + Z.of_nat i)) (cnode_size_bits req)
    (self_cnode req) src (self_cnode_bits req) (unpack_rights (ec_rights c)) (endow_badge req).

Definition requested (req : aos_child_spawn_req) (i : nat) (c : aos_endow_cap) (src : Z) : Prop :=
  exists en cptrs, endow req = Some en /\ endow_cptrs req = Some cptrs /\
    (Z.of_nat i < en_count en) /\ en_caps en !! i = Some c /\ cptrs !! i = Some src.

(** The invocations that a spawn may make at all: it retypes only from the
    caller's pool into the staging range, operates only on objects there, maps
    what it was given, mints only the requested capabilities with the
    requested rights, deletes only in the staging range, and never revokes,
    copies or moves anything. *)
Definition spawn_call_ok (req : aos_child_spawn_req) (c : kcall) : Prop :=
  match c with
  | Untyped_Retype ut _ _ root index depth slot n =>
      ut = pool_ut req /\ root = self_cnode req /\ index = 0 /\ depth = 0 /\ n = 1 /\ staging req slot
  | CNode_Mint cnode _ _ _ _ _ _ _ =>
      staging req cnode /\ exists i cap src, requested req i cap src /\ c = endow_mint req cnode i cap src
  | CNode_Delete root slot depth =>
      root = self_cnode req /\ depth = self_cnode_bits req /\ staging req slot
  | Page_Map frame vspace _ =>
      staging req vspace /\ (staging req frame \/ frame = content_frame req \/ frame ∈ cm_frame <$> maps_of req)
  | Page_Unmap frame => frame = content_frame req \/ frame ∈ cm_frame <$> maps_of req
  | PageTable_Map table vspace _ => staging req table /\ staging req vspace
  | ASIDPool_Assign pool vspace => pool = asid_pool req /\ staging req vspace
  | TCB_Configure tcb cnode _ vspace _ buffer frame =>
      staging req tcb /\ staging req cnode /\ staging req vspace /\ buffer = ipc_buf_va req /\ staging req frame
  | TCB_WriteRegisters tcb _ regs => staging req tcb /\ regs = spawn_regs req
  | TCB_SetSchedParams tcb auth _ prio sc fault =>
      staging req tcb /\ auth = self_tcb req /\ prio = priority req /\ staging req sc /\ fault = fault_ep req
  | SchedControl_ConfigureFlags ctl sc _ _ _ _ _ => ctl = sched_control req /\ staging req sc
  | SchedContext_Bind sc tcb => staging req sc /\ staging req tcb
  | IPC_Call service _ cap =>
      service = fault_install_ep req /\ fault_install_ep req <> seL4_CapNull /\ staging req cap
  | CNode_Copy _ _ _ _ _ _ | CNode_Move _ _ _ _ _ _ | CNode_Revoke _ _ _ | VCPU_SetTCB _ _ => False
  end.

(** ** The staging invariant *)

(** Invocations that create, delete, map and resume nothing. *)
Definition plain (c : kcall) : bool :=
  match c with
  | Untyped_Retype _ _ _ _ _ _ _ _ | CNode_Delete _ _ _ | Page_Map _ _ _ | Page_Unmap _ => false
  | TCB_WriteRegisters _ resume _ => negb resume
  | _ => true
  end.

(** After the invocations [d] of this call the scratch allocator is [sc]; the
    caller's frames that may be mapped are [M]. *)
Record staged (req : aos_child_spawn_req) (M : list Z) (d : list kevent) (sc : aos_pt_scratch) : Prop := {
  sg_fix : sc = mk_scratch (pool_ut req) (self_cnode req) (self_cnode_bits req) (scratch_slot req)
    (sc_next_slot sc) (u64 (scratch_slot req + scratch_count req));
  sg_next : scratch_slot req <= sc_next_slot sc
    <= Z.max (scratch_slot req) (u64 (scratch_slot req + scratch_count req));
  sg_calls : Forall (fun e => spawn_call_ok req e.1) d;
  sg_idle : Forall (fun e => resumes e.1 = false) d;
  sg_live : forall x, x ∈ live d -> scratch_slot req <= x < sc_next_slot sc;
  sg_mapped : forall x, x ∈ mapped d -> x ∈ created d \/ x ∈ M }.

Lemma created_app dd d : created (dd ++ d) = created dd ++ created d.
Proof. induction dd as [|[[] []] dd IH]; simpl; by rewrite ?IH. Qed.

Lemma created_mono dd d x : x ∈ created d -> x ∈ created (dd ++ d).
Proof. intros. rewrite created_app. apply elem_of_app. by right. Qed.

Lemma created_cons ev d x : x ∈ created d -> x ∈ created (ev :: d).
Proof. apply (created_mono [ev]). Qed.

#[local] Hint Resolve created_mono created_cons : kdb.

Lemma plain_neutral c e d :
  plain c = true -> created ((c, e) :: d) = created d /\ live ((c, e) :: d) = live d /\
    mapped ((c, e) :: d) = mapped d /\ resumes c = false.
Proof. by destruct c; try destruct resume. Qed.

(** A refused invocation changes nothing of this either, unless it deletes
    or unmaps. *)
Lemma refused_neutral c e d :
  e <> seL4_NoError -> (match c with CNode_Delete _ _ _ | Page_Unmap _ => False | _ => True end) ->
  created ((c, e) :: d) = created d /\ live ((c, e) :: d) = live d /\ mapped ((c, e) :: d) = mapped d.
Proof. by destruct c, e. Qed.

Lemma staged_plain req M d sc c e :
  staged req M d sc -> spawn_call_ok req c -> plain c = true -> staged req M ((c, e) :: d) sc.
Proof.
  intros [] Hok Hp. destruct (plain_neutral c e d Hp) as (Hc & Hl & Hm & Hr).
  split; rewrite ?Hc, ?Hl, ?Hm; try done; by constructor.
Qed.

Lemma staged_refused req M d sc c e :
  staged req M d sc -> spawn_call_ok req c -> e <> seL4_NoError -> resumes c = false ->
  (match c with CNode_Delete _ _ _ | Page_Unmap _ => False | _ => True end) ->
  staged req M ((c, e) :: d) sc.
Proof.
  intros [] Hok He Hr Hc'. destruct (refused_neutral c e d He Hc') as (Hc & Hl & Hm).
  split; rewrite ?Hc, ?Hl, ?Hm; try done; by constructor.
Qed.

Lemma staged_mono req M M' d sc :
  staged req M d sc -> (forall x, x ∈ M -> x ∈ created d \/ x ∈ M') -> staged req M' d sc.
Proof. intros [] HM. split; try done. naive_solver. Qed.

Lemma failed_spec e : failed e = false <-> e = seL4_NoError.
Proof. unfold failed. by destruct e. Qed.
Lemma failed_true e : failed e = true <-> e <> seL4_NoError.
Proof. unfold failed. by destruct e. Qed.

(** ** The scratch allocator keeps it *)

Lemma staged_claim req M d sc :
  staged req M d sc -> sc_next_slot sc < sc_limit_slot sc ->
  staged req M d (set_next (sc_next_slot sc + 1) sc).
Proof.
  intros [Hfix ? ? ? Hlive ?] Hlt. rewrite Hfix in *. simpl in *. split; simpl; try done; try lia.
  intros x Hx. apply Hlive in Hx. lia.
Qed.

Lemma staged_retyped req M d sc ty bits :
  staged req M d sc -> sc_next_slot sc < sc_limit_slot sc ->
  staged req M ((Untyped_Retype (pool_ut req) ty bits (self_cnode req) 0 0 (sc_next_slot sc) 1,
                 seL4_NoError) :: d) (set_next (sc_next_slot sc + 1) sc).
Proof.
  intros Hs Hlt. pose proof (staged_claim _ _ _ _ Hs Hlt) as [Hfix Hn Hc Hi Hl Hm].
  destruct Hs as [Hfix' Hn' _ _ Hl' _]. rewrite Hfix' in Hlt. simpl in *. split; simpl; try done.
  - constructor; [|done]. unfold spawn_call_ok, staging. simpl. split_and!; try done; lia.
  - by constructor.
  - intros x [->|Hx]%elem_of_cons; [lia|]. auto.
  - intros x Hx. destruct (Hm x Hx); [left; by right|by right].
Qed.

Definition mappable (req : aos_child_spawn_req) (frame : Z) : Prop :=
  staging req frame \/ frame = content_frame req \/ frame ∈ cm_frame <$> maps_of req.

Lemma staged_mapped req M d sc frame vspace va :
  staged req M d sc -> staging req vspace -> mappable req frame ->
  staged req (frame :: M) ((Page_Map frame vspace va, seL4_NoError) :: d) sc.
Proof.
  intros [] Hv Hf. split; simpl; try done; try by constructor.
  intros x [->|Hx]%elem_of_cons; [right; left|].
  destruct (sg_mapped0 x Hx); [by left|right; by right].
Qed.

Lemma staged_unmapped req M d sc frame e :
  staged req M d sc -> frame = content_frame req \/ frame ∈ cm_frame <$> maps_of req ->
  staged req (filter (fun x => x <> frame) M) ((Page_Unmap frame, e) :: d) sc.
Proof.
  intros [] Hf. split; simpl; try done; try by constructor.
  intros x [Hne Hx]%list_elem_of_filter. destruct (sg_mapped0 x Hx); [by left|right].
  by apply list_elem_of_filter.
Qed.

Lemma staged_deleted req M d sc e :
  staged req M d sc -> scratch_slot req < sc_next_slot sc ->
  staged req M ((CNode_Delete (sc_self_cnode sc) (sc_next_slot sc - 1) (sc_self_cnode_bits sc), e) :: d)
    (set_next (sc_next_slot sc - 1) sc).
Proof.
  intros [Hfix Hn Hc Hi Hl Hm] Hlt. rewrite Hfix. simpl. split; simpl; try done; try lia.
  - constructor; [|done]. simpl. unfold staging. split_and!; done || lia.
  - by constructor.
  - intros x [Hne Hx]%list_elem_of_filter. apply Hl in Hx. lia.
Qed.

Section scratch_specs.
Context {K : Type} `{Kernel K} (req : aos_child_spawn_req) (log0 : list kevent).
Hypothesis Hslot : is_u64 (scratch_slot req).

Lemma staged_bounds M d sc :
  staged req M d sc -> sc_limit_slot sc < 2 ^ 64 /\ 0 <= sc_next_slot sc < 2 ^ 64.
Proof using Hslot.
  intros [Hfix Hn _ _ _ _]. rewrite Hfix. simpl.
  pose proof (u64_range (scratch_slot req + scratch_count req)) as Hr. unfold is_u64 in *. lia.
Qed.

Lemma wp_retype_one M d ty bits (w : kworld K) sc :
  kw_log w = d ++ log0 -> staged req M d sc ->
  wp (retype_one ty bits) (fun r ws => exists dd, kw_log ws.1 = dd ++ d ++ log0 /\
    staged req M (dd ++ d) ws.2 /\
    match r with inl _ => True | inr slot => staging req slot /\ slot ∈ created dd end) (w, sc).
Proof using Hslot.
  intros Hlog Hs. pose proof (staged_bounds _ _ _ Hs) as [Hlim Hnext].
  pose proof (sg_next _ _ _ _ Hs) as Hn. pose proof (sg_fix _ _ _ _ Hs) as Hfix.
  destruct sc as [p self bits' base n lim]. simpl in *. injection Hfix as -> -> -> -> ->.
  unfold retype_one, pt_scratch_claim. do 3 kstep. simpl. kstep.
  { kstep. rewrite Z.eqb_refl. kstep. by exists []. }
  apply Z.leb_gt in H0. do 3 kstep. simpl. unfold set_next at 1. simpl.
  rewrite u64_small by (unfold is_u64; lia).
  kstep. { kstep. exists []. split; [done|]. split; [exact (staged_claim _ _ _ _ Hs H0)|done]. }
  do 4 kstep. simpl. kstep.
  - apply failed_true in H2. do 3 kstep. eexists [_]. simpl. rewrite Hlog. split; [done|].
    unfold set_next. simpl. rewrite Z.add_simpl_r, u64_small by (unfold is_u64; lia).
    split; [|done]. apply staged_refused; try done. simpl. unfold staging. split_and!; done || lia.
  - apply failed_spec in H2. subst. kstep. eexists [_]. simpl. rewrite Hlog. split; [done|].
    split; [|split; [unfold staging; lia|left]]. exact (staged_retyped _ _ _ _ ty bits Hs H0).
Qed.

Lemma wp_map_attempts n M d frame vspace va (w : kworld K) sc :
  kw_log w = d ++ log0 -> staged req M d sc -> staging req vspace -> mappable req frame ->
  wp (map_attempts n frame vspace va) (fun e ws => exists dd, kw_log ws.1 = dd ++ d ++ log0 /\
    staged req (if failed e then M else frame :: M) (dd ++ d) ws.2) (w, sc).
Proof using Hslot.
  revert d w sc. induction n as [|n IH]; intros d w sc Hlog Hs Hv Hf; simpl.
  { kstep. by exists []. }
  assert (Hok : spawn_call_ok req (Page_Map frame vspace va)) by done.
  do 2 kstep. kstep.
  { apply negb_true_iff, failed_spec in H0. subst. kstep. eexists [_]. simpl. rewrite Hlog.
    split; [done|]. by apply staged_mapped. }
  apply negb_false_iff in H0.
  assert (Hs1 : staged req M ((Page_Map frame vspace va, e) :: d) sc)
    by (apply staged_refused; try done; by apply failed_true).
  kstep; [kstep; eexists [_]; simpl; rewrite Hlog, H0; done|]. kstep.
  eapply wp_mono; [apply (wp_retype_one M ((Page_Map frame vspace va, e) :: d)); [simpl; by rewrite Hlog|done]|].
  intros r [w2 sc2] (dd & Hlog2 & Hs2 & Hr). simpl in Hlog2, Hs2. destruct r as [rt|pt].
  - kstep. exists (dd ++ [(Page_Map frame vspace va, e)]). simpl. rewrite <- !app_assoc. simpl.
    split; [done|]. destruct (failed rt); [done|]. eapply staged_mono; [done|]. intros. right. by right.
  - destruct Hr as [Hpt _]. do 2 kstep.
    assert (Hs3 : staged req M ((PageTable_Map pt vspace va, e0) :: dd ++ (Page_Map frame vspace va, e) :: d) sc2)
      by (by apply staged_plain).
    set (dd3 := (PageTable_Map pt vspace va, e0) :: dd ++ [(Page_Map frame vspace va, e)]).
    assert (Hd3 : forall l, (PageTable_Map pt vspace va, e0) :: dd ++ (Page_Map frame vspace va, e) :: l = dd3 ++ l)
      by (intros l; unfold dd3; simpl; by rewrite <- app_assoc).
    simpl. rewrite Hlog2. simpl. rewrite !Hd3 in *. kstep.
    + kstep. exists dd3. simpl. by rewrite H2.
    + eapply wp_mono; [apply (IH (dd3 ++ d)); [exact (app_assoc _ _ _)|exact Hs3|exact Hv|exact Hf]|].
      intros e' ws (dd4 & Hlog4 & Hs4). exists (dd4 ++ dd3). rewrite <- !app_assoc in *. done.
Qed.

Lemma wp_staging_teardown M d (w : kworld K) sc :
  kw_log w = d ++ log0 -> staged req M d sc ->
  wp staging_teardown (fun _ ws => exists dd, kw_log ws.1 = dd ++ d ++ log0 /\
    staged req M (dd ++ d) ws.2 /\ live (dd ++ d) = []) (w, sc).
Proof using Hslot.
  intros Hlog Hs. unfold staging_teardown. do 2 kstep. simpl.
  pose proof (sg_fix _ _ _ _ Hs) as Hfix.
  assert (Hn : Z.of_nat (Z.to_nat (sc_next_slot sc - sc_base_slot sc)) = sc_next_slot sc - scratch_slot req).
  { rewrite Hfix. simpl. pose proof (sg_next _ _ _ _ Hs). lia. }
  clear Hfix. revert Hn. generalize (Z.to_nat (sc_next_slot sc - sc_base_slot sc)) as n. intros n Hn.
  revert d w sc Hlog Hs Hn. induction n as [|n IH]; intros d w sc Hlog Hs Hn; simpl.
  { kstep. exists []. split; [done|]. split; [done|]. simpl. destruct (live d) as [|x l] eqn:Hl; [done|].
    pose proof (sg_live _ _ _ _ Hs x) as Hx. rewrite Hl in Hx. specialize (Hx ltac:(left)). lia. }
  pose proof (staged_bounds _ _ _ Hs) as [_ Hb].
  do 6 kstep. simpl. unfold set_next at 1. simpl. rewrite u64_small by (unfold is_u64 in *; lia).
  set (ev := (CNode_Delete (sc_self_cnode sc) (sc_next_slot sc - 1) (sc_self_cnode_bits sc), e)).
  eapply wp_mono; [apply (IH (ev :: d))|].
  - simpl. by rewrite Hlog.
  - unfold ev. apply staged_deleted; [done|lia].
  - simpl. lia.
  - intros _ ws (dd & Hlog' & Hs' & Hl). exists (dd ++ [ev]). by rewrite <- !app_assoc.
Qed.
End scratch_specs.

(** ** Outcomes *)

(** The caller's frames that the local variables say are mapped. *)
Definition caller_frames (req : aos_child_spawn_req) (s : spawn_state) : list Z :=
  (if ss_content_mapped s then [content_frame req] else [])
  ++ take (Z.to_nat (ss_extra_mapped s)) (cm_frame <$> maps_of req).

Record stage {K} (req : aos_child_spawn_req) (log0 : list kevent) (led : option aos_endow_ledger)
    (d : list kevent) (w : kworld K) (s : spawn_state) : Prop := {
  st_log : kw_log w = d ++ log0;
  st_staged : staged req (caller_frames req s) d (ss_st s);
  st_extra : 0 <= ss_extra_mapped s <= Z.of_nat (length (maps_of req));
  st_ledger : ss_ledger s = led }.

(** The child's thread is configured with its CNode and VSpace, and every
    requested capability has been minted into that CNode. *)
Definition ready (req : aos_child_spawn_req) (d : list kevent) (cnode vspace tcb : Z) : Prop :=
  (exists frame, asked d (TCB_Configure tcb cnode (u32 (seL4_WordBits - cnode_size_bits req)) vspace 0
                            (ipc_buf_va req) frame))
  /\ (forall i c src, requested req i c src -> asked d (endow_mint req cnode i c src))
  /\ cnode ∈ created d /\ vspace ∈ created d /\ tcb ∈ created d.

(** The mints of the endowment, as the ledger records them. *)
Definition endow_mints (req : aos_child_spawn_req) (caps : list aos_endow_cap) : list mint :=
  (fun c => mk_mint (child_index req) (child_name req) (ec_kind c) (ec_rights c) (endow_badge req)) <$> caps.

Definition requested_caps (req : aos_child_spawn_req) : list aos_endow_cap :=
  match endow req with Some en => take (Z.to_nat (en_count en)) (en_caps en) | None => [] end.

(** How a spawn can end, [d] being the invocations it made before the last
    one that matters, newest first. *)
Inductive spawn_outcome {K} (req : aos_child_spawn_req) (log0 : list kevent)
    (led0 : option aos_endow_ledger) (r : aos_child_spawn_result) (ws : kworld K * spawn_state) : Prop :=
  | so_rejected error :
      error = AOS_CHILD_SPAWN_ERR_VALIDATE \/ error = AOS_CHILD_SPAWN_ERR_SCRATCH ->
      r = spawn_reject error -> kw_log ws.1 = log0 -> ss_ledger ws.2 = led0 ->
      spawn_outcome req log0 led0 r ws
  | so_undone d error step index :
      AOS_CHILD_SPAWN_ERR_ENDOW <= error <= AOS_CHILD_SPAWN_ERR_RETYPE ->
      r = mk_result 0 0 0 error step index (scratch_slot req) (scratch_slot req) ->
      kw_log ws.1 = d ++ log0 -> Forall (fun e => spawn_call_ok req e.1) d ->
      Forall (fun e => resumes e.1 = false) d -> live d = [] -> mapped d ⊆ created d ->
      ss_ledger ws.2 = led0 -> spawn_outcome req log0 led0 r ws
  | so_stuck d e cnode vspace tcb next :
      r = mk_result cnode vspace tcb AOS_CHILD_SPAWN_ERR_START STEP_START 0 (scratch_slot req) next ->
      kw_log ws.1 = (TCB_WriteRegisters tcb true (spawn_regs req), e) :: d ++ log0 ->
      e <> seL4_NoError -> Forall (fun e => spawn_call_ok req e.1) d ->
      Forall (fun e => resumes e.1 = false) d -> ready req d cnode vspace tcb ->
      (forall x, x ∈ live d -> scratch_slot req <= x < next) ->
      ss_ledger ws.2 = led0 -> spawn_outcome req log0 led0 r ws
  | so_running d cnode vspace tcb next :
      r = mk_result cnode vspace tcb AOS_CHILD_SPAWN_OK STEP_NONE 0 (scratch_slot req) next ->
      kw_log ws.1 = (TCB_WriteRegisters tcb true (spawn_regs req), seL4_NoError) :: d ++ log0 ->
      Forall (fun e => spawn_call_ok req e.1) d -> Forall (fun e => resumes e.1 = false) d ->
      ready req d cnode vspace tcb -> (forall x, x ∈ live d -> scratch_slot req <= x < next) ->
      record_all led0 (endow_mints req (requested_caps req)) = Some (ss_ledger ws.2) ->
      spawn_outcome req log0 led0 r ws.

(** ** Failing undoes everything *)

Section spawn_specs.
Context {K : Type} `{Kernel K} (req : aos_child_spawn_req) (log0 : list kevent).
Hypothesis Hslot : is_u64 (scratch_slot req).

Lemma wp_unmap_extras n M d (w : kworld K) s :
  (n <= length (maps_of req))%nat -> kw_log w = d ++ log0 ->
  staged req (M ++ take n (cm_frame <$> maps_of req)) d (ss_st s) ->
  wp (unmap_extras n (maps_of req)) (fun _ ws => exists dd, kw_log ws.1 = dd ++ d ++ log0 /\
    staged req M (dd ++ d) (ss_st ws.2) /\ ws.2 = s) (w, s).
Proof.
  revert d w. induction n as [|n IH]; intros d w Hn Hlog Hs; simpl.
  { rewrite take_0, app_nil_r in Hs. kstep. by exists []. }
  destruct (lookup_lt_is_Some_2 (maps_of req) n) as [m Hm]; [lia|]. kstep. eapply wp_lift; [done|].
  do 2 kstep. assert (Hf : (cm_frame <$> maps_of req) !! n = Some (cm_frame m)) by (by rewrite list_lookup_fmap, Hm).
  set (ev := (Page_Unmap (cm_frame m), e)).
  eapply wp_mono; [apply (IH (ev :: d)); [lia|simpl; by rewrite Hlog|]|].
  - eapply staged_mono; [apply staged_unmapped; [exact Hs|right; by eapply list_elem_of_lookup_2]|].
    intros x [Hne Hx]%list_elem_of_filter. right. rewrite (take_S_r _ _ _ Hf), app_assoc in Hx.
    apply elem_of_app in Hx as [Hx|Hx%list_elem_of_singleton]; done.
  - intros _ [w1 s1] (dd & Hlog' & Hs' & Heq). simpl in *. subst s1. exists (dd ++ [ev]).
    rewrite <- !app_assoc. done.
Qed.

Lemma wp_fail_teardown led d (w : kworld K) s :
  stage req log0 led d w s ->
  wp (fail_teardown req) (fun _ ws => exists dd, kw_log ws.1 = dd ++ d ++ log0 /\
    staged req [] (dd ++ d) (ss_st ws.2) /\ live (dd ++ d) = [] /\ ss_ledger ws.2 = led) (w, s).
Proof using Hslot.
  intros [Hlog Hs He Hl]. unfold fail_teardown. do 3 kstep. simpl.
  eapply wp_mono; [apply (wp_unmap_extras _ (if ss_content_mapped s then [content_frame req] else []) d);
    [lia|done|exact Hs]|].
  intros _ [w1 s1] (dd1 & Hlog1 & Hs1 & Heq). simpl in *. subst s1. kstep.
  assert (Hrest : forall dd w2, kw_log w2 = dd ++ d ++ log0 -> staged req [] (dd ++ d) (ss_st s) ->
    wp (in_scratch staging_teardown) (fun _ ws => exists dd, kw_log ws.1 = dd ++ d ++ log0 /\
      staged req [] (dd ++ d) (ss_st ws.2) /\ live (dd ++ d) = [] /\ ss_ledger ws.2 = led) (w2, s)).
  { intros dd w2 Hlog2 Hs2. unfold in_scratch. apply wp_zoom.
    eapply wp_mono; [apply (wp_staging_teardown req log0 Hslot [] (dd ++ d)); [by rewrite <- app_assoc|done]|].
    intros _ [w3 sc3] (dd3 & Hlog3 & Hs3 & Hl3). exists (dd3 ++ dd). rewrite <- !app_assoc in *. simpl in *.
    done. }
  destruct (ss_content_mapped s).
  - do 3 kstep. set (ev := (Page_Unmap (content_frame req), e)). apply (Hrest (ev :: dd1)).
    + simpl. by rewrite Hlog1.
    + eapply staged_mono; [apply staged_unmapped; [exact Hs1|by left]|].
      intros x [Hne Hx%list_elem_of_singleton]%list_elem_of_filter. done.
  - kstep. by apply (Hrest dd1).
Qed.

Lemma wp_spawn_fail led led0 mark error step index d (w : kworld K) s :
  AOS_CHILD_SPAWN_ERR_ENDOW <= error <= AOS_CHILD_SPAWN_ERR_RETYPE ->
  stage req log0 led d w s -> aos_endow_ledger_rollback led mark = Some led0 ->
  wp (spawn_fail req mark error step index) (spawn_outcome req log0 led0) (w, s).
Proof using Hslot.
  intros Herr Hst Hroll. unfold spawn_fail. kstep.
  eapply wp_mono; [by apply (wp_fail_teardown led d)|].
  intros _ [w1 s1] (dd & Hlog1 & Hs1 & Hl1 & Hled). simpl in *. do 3 kstep. simpl.
  eapply wp_lift; [by rewrite Hled|]. do 3 kstep. simpl.
  eapply (so_undone _ _ _ _ _ (dd ++ d) error step index); simpl; try done; try apply Hs1.
  - rewrite (sg_fix _ _ _ _ Hs1). done.
  - by rewrite <- app_assoc.
  - intros x Hx. destruct (sg_mapped _ _ _ _ Hs1 x Hx) as [|Hn]; [done|]. by apply not_elem_of_nil in Hn.
Qed.
End spawn_specs.

(** ** The caller's obligations *)

Definition ledger_wf (led : option aos_endow_ledger) : Prop :=
  led = None \/ exists es d, led = Some (ledger_of es d) /\ (length es <= 16)%nat /\ 0 <= d /\ d + 8 < 2 ^ 32.

(** The request is a well-formed object in memory; nothing is assumed of
    what it asks for. *)
Record req_wf (req : aos_child_spawn_req) : Prop := {
  rw_slot : is_u64 (scratch_slot req);
  rw_maps : 0 <= extra_map_count req < 2 ^ 64 /\
    (extra_maps req <> None -> extra_map_count req <= Z.of_nat (length (maps_of req)));
  rw_endow : forall en, endow req = Some en -> length (en_caps en) = 8%nat /\ is_u32 (en_count en);
  rw_holdings : forall h, parent_holdings req = Some h -> length (en_caps h) = 8%nat;
  rw_cptrs : forall en cptrs, endow req = Some en -> endow_cptrs req = Some cptrs ->
    en_count en <= 8 -> en_count en <= Z.of_nat (length cptrs) }.

(** Rolling back after any of the mints restores the ledger. *)
Lemma ledger_wf_rollback led0 ms led :
  ledger_wf led0 -> (length ms <= 8)%nat -> record_all led0 ms = Some led ->
  aos_endow_ledger_rollback led (aos_endow_ledger_mark led0) = Some led0.
Proof.
  intros [->|(es & d & -> & Hes & Hd & Hd8)] Hms Hrec.
  - replace led with (@None aos_endow_ledger); [done|]. clear Hms. induction ms as [|m ms IH];
      [by injection Hrec|exact (IH Hrec)].
  - rewrite record_all_spec in Hrec by lia. injection Hrec as <-. apply ledger_rollback_spec; [|lia].
    rewrite length_app, length_take. lia.
Qed.

Lemma record_all_snoc led ms led1 m :
  record_all led ms = Some led1 ->
  record_all led (ms ++ [m]) =
    '(_, led2) ← aos_endow_ledger_record led1 (mt_child m) (mt_name m) (mt_kind m) (mt_rights m) (mt_badge m);
    Some led2.
Proof.
  revert led. induction ms as [|m' ms IH]; intros led Hrec; simpl in *.
  - by injection Hrec as ->.
  - destruct (aos_endow_ledger_record led _ _ _ _ _) as [[rc led']|]; [|done]. simpl in *. by apply IH.
Qed.

(** Recording a mint never faults on a well-formed ledger. *)
Lemma ledger_wf_record led0 ms led m :
  ledger_wf led0 -> (length ms < 8)%nat -> record_all led0 ms = Some led ->
  exists rc led', aos_endow_ledger_record led (mt_child m) (mt_name m) (mt_kind m) (mt_rights m) (mt_badge m)
      = Some (rc, led') /\ record_all led0 (ms ++ [m]) = Some led'.
Proof.
  intros Hwf Hms Hrec. pose proof (record_all_snoc _ _ _ m Hrec) as Hsnoc.
  assert (is_Some (record_all led0 (ms ++ [m]))) as [led' Hl].
  { destruct Hwf as [->|(es & d & -> & Hes & Hd & Hd8)].
    - clear. induction ms as [|m' ms IH]; [by eexists|exact IH].
    - eexists. apply record_all_spec; rewrite ?length_app; simpl; lia. }
  rewrite Hl in Hsnoc. destruct (aos_endow_ledger_record led _ _ _ _ _) as [[rc led2]|]; [|done].
  injection Hsnoc as ->. eauto.
Qed.

(** ** The steps *)

Section steps.
Context {K : Type} `{Kernel K} (req : aos_child_spawn_req) (log0 : list kevent)
  (led0 : option aos_endow_ledger).
Hypothesis Hwf : req_wf req.
Hypothesis Hled : ledger_wf led0.

#[local] Abbreviation mark := (aos_endow_ledger_mark led0).
#[local] Abbreviation Q := (@spawn_outcome K req log0 led0).

Lemma wp_fail_first error step d (w : kworld K) s :
  AOS_CHILD_SPAWN_ERR_ENDOW <= error <= AOS_CHILD_SPAWN_ERR_RETYPE ->
  stage req log0 led0 d w s -> wp (spawn_fail req mark error step 0) Q (w, s).
Proof using Hwf Hled.
  intros Herr Hst. apply (wp_spawn_fail req log0 (rw_slot _ Hwf) led0 led0 _ error step 0 d w s); [done..|].
  exact (ledger_wf_rollback led0 [] led0 Hled ltac:(simpl; lia) eq_refl).
Qed.

Lemma stage_plain led c e d (w : kworld K) (k : K) s :
  stage req log0 led d w s -> spawn_call_ok req c -> plain c = true ->
  stage req log0 led ((c, e) :: d) (mk_kworld k ((c, e) :: kw_log w)) s.
Proof.
  intros [Hlog Hs He Hl] Hok Hp. split; [simpl; by rewrite Hlog|by apply staged_plain|done..].
Qed.

(** A step that is one invocation. *)
Lemma wp_step_sys c error step k d (w : kworld K) s :
  stage req log0 led0 d w s -> spawn_call_ok req c -> plain c = true ->
  AOS_CHILD_SPAWN_ERR_ENDOW <= error <= AOS_CHILD_SPAWN_ERR_RETYPE ->
  (forall w', stage req log0 led0 ((c, seL4_NoError) :: d) w' s -> wp k Q (w', s)) ->
  wp (attempt (ksys c) (spawn_fail req mark error step 0) k) Q (w, s).
Proof using Hwf Hled.
  intros Hst Hok Hp Herr Hk. unfold attempt. do 2 kstep. kstep.
  - eapply wp_fail_first; [done|]. by apply stage_plain.
  - apply failed_spec in H0. subst. apply Hk. by apply stage_plain.
Qed.

(** A step that makes an object. *)
Lemma wp_step_retype ty bits error step k d (w : kworld K) s :
  stage req log0 led0 d w s -> AOS_CHILD_SPAWN_ERR_ENDOW <= error <= AOS_CHILD_SPAWN_ERR_RETYPE ->
  (forall dd cap w' sc', stage req log0 led0 (dd ++ d) w' (set_st sc' s) -> staging req cap ->
     cap ∈ created (dd ++ d) -> wp (k cap) Q (w', set_st sc' s)) ->
  wp (attempt_cap (in_scratch (retype_one ty bits)) (spawn_fail req mark error step 0) k) Q (w, s).
Proof using Hwf Hled.
  intros [Hlog Hs He Hl] Herr Hk. unfold attempt_cap, in_scratch. kstep. apply wp_zoom.
  eapply wp_mono; [by apply (wp_retype_one req log0 (rw_slot _ Hwf) (caller_frames req s) d)|].
  intros r [w1 sc1] (dd & Hlog1 & Hs1 & Hr). simpl in *.
  assert (Hst1 : stage req log0 led0 (dd ++ d) w1 (set_st sc1 s)).
  { split; try done. by rewrite <- app_assoc. }
  destruct r as [e|cap].
  - by eapply wp_fail_first.
  - destruct Hr as [Hcap Hin]. eapply Hk; [exact Hst1|done|]. rewrite created_app. apply elem_of_app. by left.
Qed.

(** Mapping a frame. *)
Lemma wp_map_frame frame vspace va d (w : kworld K) s :
  stage req log0 led0 d w s -> staging req vspace -> mappable req frame ->
  wp (in_scratch (aos_pt_map_retrying frame vspace va)) (fun e ws => exists dd sc',
    ws.2 = set_st sc' s /\ kw_log ws.1 = dd ++ d ++ log0 /\
    staged req (if failed e then caller_frames req s else frame :: caller_frames req s) (dd ++ d) sc') (w, s).
Proof using Hwf.
  intros [Hlog Hs He Hl] Hv Hf. unfold in_scratch. apply wp_zoom.
  eapply wp_mono; [by apply (wp_map_attempts req log0 (rw_slot _ Hwf) _ (caller_frames req s) d)|].
  intros e [w1 sc1] (dd & Hlog1 & Hs1). by exists dd, sc1.
Qed.

(** A step that maps an object of this call. *)
Lemma wp_step_map frame vspace va error step k d (w : kworld K) s :
  stage req log0 led0 d w s -> staging req vspace -> staging req frame -> frame ∈ created d ->
  AOS_CHILD_SPAWN_ERR_ENDOW <= error <= AOS_CHILD_SPAWN_ERR_RETYPE ->
  (forall dd w' sc', stage req log0 led0 (dd ++ d) w' (set_st sc' s) -> wp k Q (w', set_st sc' s)) ->
  wp (attempt (in_scratch (aos_pt_map_retrying frame vspace va)) (spawn_fail req mark error step 0) k) Q (w, s).
Proof using Hwf Hled.
  intros Hst Hv Hf Hin Herr Hk. unfold attempt. kstep.
  eapply wp_mono; [apply (wp_map_frame frame vspace va d); [done..|by left]|].
  intros e [w1 s1] (dd & sc1 & Heq & Hlog1 & Hs1). simpl in *. subst s1.
  assert (Hst1 : stage req log0 led0 (dd ++ d) w1 (set_st sc1 s)).
  { destruct Hst. split; try done; [by rewrite <- app_assoc|]. simpl.
    destruct (failed e); [done|]. eapply staged_mono; [done|]. intros x [->|Hx]%elem_of_cons; [|by right].
    left. rewrite created_app. apply elem_of_app. by right. }
  kstep; [by eapply wp_fail_first|by eapply Hk].
Qed.

(** The step that maps the image. *)
Lemma wp_step_content vspace va error step k d (w : kworld K) s :
  stage req log0 led0 d w s -> ss_content_mapped s = false -> staging req vspace ->
  AOS_CHILD_SPAWN_ERR_ENDOW <= error <= AOS_CHILD_SPAWN_ERR_RETYPE ->
  (forall dd w' sc', let s' := set_content_mapped true (set_st sc' s) in
     stage req log0 led0 (dd ++ d) w' s' -> wp k Q (w', s')) ->
  wp (attempt (in_scratch (aos_pt_map_retrying (content_frame req) vspace va))
        (spawn_fail req mark error step 0) (kmodify (set_content_mapped true);; k)) Q (w, s).
Proof using Hwf Hled.
  intros Hst Hcm Hv Herr Hk. unfold attempt. kstep.
  eapply wp_mono; [apply (wp_map_frame (content_frame req) vspace va d); [done..|right; by left]|].
  intros e [w1 s1] (dd & sc1 & Heq & Hlog1 & Hs1). simpl in *. subst s1. destruct Hst as [Hlog Hs He Hl].
  kstep.
  - rewrite H0 in Hs1. apply (wp_fail_first error step (dd ++ d)); [done|]. split; try done. by rewrite <- app_assoc.
  - rewrite H0 in Hs1. do 2 kstep. apply (Hk dd). split; try done; [by rewrite <- app_assoc|].
    unfold caller_frames in *. rewrite Hcm in Hs1. exact Hs1.
Qed.

(** The loop that maps the caller's other frames. *)
Lemma wp_map_extras vspace n i d (w : kworld K) s :
  stage req log0 led0 d w s -> ss_extra_mapped s = i -> staging req vspace ->
  i + Z.of_nat n <= Z.of_nat (length (maps_of req)) -> i + Z.of_nat n < 2 ^ 64 ->
  wp (map_extras n i (maps_of req) vspace) (fun _ ws => exists dd, stage req log0 led0 (dd ++ d) ws.1 ws.2) (w, s).
Proof using Hwf.
  revert i d w s. induction n as [|n IH]; intros i d w s Hst Hi Hv Hn H64; simpl.
  { kstep. by exists []. }
  pose proof Hst as [Hlog Hs He Hl].
  destruct (aget_lt (maps_of req) i) as [m Hm]; [lia|]. kstep. eapply wp_lift; [done|]. kstep.
  apply aget_Some in Hm as [_ Hm].
  assert (Hf : (cm_frame <$> maps_of req) !! Z.to_nat i = Some (cm_frame m)) by (by rewrite list_lookup_fmap, Hm).
  eapply wp_mono; [apply (wp_map_frame (cm_frame m) vspace (cm_va m) d); [done..|]|].
  { right. right. by eapply list_elem_of_lookup_2. }
  intros e [w1 s1] (dd & sc1 & Heq & Hlog1 & Hs1). simpl in *. subst s1. kstep.
  - kstep. exists dd. rewrite H0 in Hs1. split; try done. by rewrite <- app_assoc.
  - rewrite H0 in Hs1. do 2 kstep. simpl. rewrite Hi, u64_small by (unfold is_u64; lia).
    eapply wp_mono; [apply (IH (i + 1) (dd ++ d)); [|done|done|lia|lia]|].
    + split; simpl; [by rewrite <- app_assoc| |lia|done]. eapply staged_mono; [exact Hs1|].
      intros x Hx. right. unfold caller_frames in *. simpl. rewrite Hi in Hx.
      replace (Z.to_nat (i + 1)) with (S (Z.to_nat i)) by lia. rewrite (take_S_r _ _ _ Hf), app_assoc.
      apply elem_of_cons in Hx as [->|Hx]; apply elem_of_app; [right; left|by left].
    + intros _ ws (dd2 & Hst2). exists (dd2 ++ dd). by rewrite <- app_assoc.
Qed.

(** The endowment loop. *)
Lemma wp_endow_loop en cptrs cnode n i led d (w : kworld K) s :
  endow req = Some en -> endow_cptrs req = Some cptrs -> en_count en <= 8 ->
  staging req cnode -> 0 <= i -> i + Z.of_nat n = en_count en -> stage req log0 led d w s ->
  record_all led0 (endow_mints req (take (Z.to_nat i) (en_caps en))) = Some led ->
  (forall j c src, Z.of_nat j < i -> requested req j c src -> asked d (endow_mint req cnode j c src)) ->
  wp (endow_loop n i req (en_caps en) cptrs cnode) (fun bad ws => exists dd led' j,
    stage req log0 led' (dd ++ d) ws.1 ws.2 /\
    record_all led0 (endow_mints req (take j (en_caps en))) = Some led' /\
    match bad with
    | Some _ => True
    | None => j = Z.to_nat (en_count en) /\
        forall j c src, requested req j c src -> asked (dd ++ d) (endow_mint req cnode j c src)
    end) (w, s).
Proof using Hwf Hled.
  intros Hen Hcp H8 Hcn. revert i led d w s.
  destruct (rw_endow _ Hwf en Hen) as [Hlen _]. pose proof (rw_cptrs _ Hwf en cptrs Hen Hcp H8) as Hcl.
  induction n as [|n IH]; intros i led d w s Hi Hn Hst Hrec Hask; simpl.
  { kstep. exists [], led, (Z.to_nat i). split; [done|]. split; [done|]. split; [f_equal; lia|].
    intros j c src Hr. apply Hask; [|done]. destruct Hr as (en' & ? & ? & ? & ? & _). simplify_eq. lia. }
  destruct (aget_lt (en_caps en) i) as [c Hc]; [lia|]. kstep. eapply wp_lift; [done|]. kstep.
  destruct (aget_lt cptrs i) as [src Hsrc]; [lia|]. eapply wp_lift; [done|].
  apply aget_Some in Hc as [_ Hc]. apply aget_Some in Hsrc as [_ Hsrc].
  set (call := CNode_Mint _ _ _ _ _ _ _ _).
  assert (Hreq : requested req (Z.to_nat i) c src) by (exists en, cptrs; split_and!; done || lia).
  assert (Hcall : call = endow_mint req cnode (Z.to_nat i) c src).
  { unfold call, endow_mint. by rewrite Z2Nat.id by lia. }
  assert (Hok : spawn_call_ok req call).
  { simpl. split; [done|]. exists (Z.to_nat i), c, src. split; [done|]. by rewrite <- Hcall. }
  do 2 kstep. kstep.
  - kstep. exists [(call, e)], led, (Z.to_nat i). split; [|done]. by apply stage_plain.
  - apply failed_spec in H0. subst e. do 2 kstep. simpl. kstep.
    destruct (ledger_wf_record led0 (endow_mints req (take (Z.to_nat i) (en_caps en))) led
      (mk_mint (child_index req) (child_name req) (ec_kind c) (ec_rights c) (endow_badge req)))
      as (rc & led' & Hr & Hrec'); [done| |done|].
    { unfold endow_mints. rewrite length_fmap, length_take. lia. }
    eapply wp_lift; [rewrite (st_ledger _ _ _ _ _ _ Hst); exact Hr|]. cbn beta iota. do 2 kstep. simpl.
    eapply wp_mono; [apply (IH (i + 1) led' ((call, seL4_NoError) :: d)); [lia|lia| | |]|].
    + pose proof (stage_plain led call seL4_NoError d w k s Hst Hok eq_refl) as [].
      split; try done.
    + replace (Z.to_nat (i + 1)) with (S (Z.to_nat i)) by lia. rewrite (take_S_r _ _ _ Hc).
      unfold endow_mints in *. by rewrite fmap_app.
    + intros j c' src' Hj Hr'. destruct (decide (j = Z.to_nat i)) as [->|].
      * destruct Hr' as (en' & cp' & ? & ? & _ & ? & ?). simplify_eq. rewrite <- Hcall. left.
      * apply (asked_app_r [(call, seL4_NoError)]), Hask; [lia|done].
    + intros bad ws (dd & led2 & j & Hst2 & Hrec2 & Hbad). exists (dd ++ [(call, seL4_NoError)]), led2, j.
      rewrite <- app_assoc. done.
Qed.

Lemma wp_endow_start en cptrs cnode vspace tcb d (w : kworld K) s :
  endow req = Some en -> endow_cptrs req = Some cptrs -> 0 <= en_count en <= 8 ->
  stage req log0 led0 d w s -> staging req cnode -> staging req tcb ->
  cnode ∈ created d -> vspace ∈ created d -> tcb ∈ created d ->
  (exists frame, asked d (TCB_Configure tcb cnode (u32 (seL4_WordBits - cnode_size_bits req)) vspace 0
                            (ipc_buf_va req) frame)) ->
  wp (spawn_endow_start req en cptrs mark cnode vspace tcb) Q (w, s).
Proof using Hwf Hled.
  intros Hen Hcp H8 Hst Hcn Htcb Hc1 Hc2 Hc3 [frame Hconf]. unfold spawn_endow_start. kstep.
  eapply wp_mono; [apply (wp_endow_loop en cptrs cnode _ 0 led0 d); try done; lia|].
  intros bad [w1 s1] (dd & led1 & j & Hst1 & Hrec & Hbad). simpl in Hst1.
  assert (Hroll : aos_endow_ledger_rollback led1 mark = Some led0).
  { eapply (ledger_wf_rollback led0 _ _ Hled); [|exact Hrec]. unfold endow_mints.
    rewrite length_fmap, length_take. destruct (rw_endow _ Hwf en Hen). lia. }
  destruct bad as [i|].
  { eapply (wp_spawn_fail req log0 (rw_slot _ Hwf)); [done|exact Hst1|exact Hroll]. }
  destruct Hbad as [-> Hmint]. destruct Hst1 as [Hlog1 Hs1 _ Hl1].
  assert (Hready : ready req (dd ++ d) cnode vspace tcb).
  { split; [exists frame; auto with kdb|]. split; [done|]. auto with kdb. }
  pose proof (sg_fix _ _ _ _ Hs1) as Hfix. do 2 kstep. kstep.
  - apply failed_true in H0. do 3 kstep. simpl. eapply wp_lift; [by rewrite Hl1|]. do 3 kstep. simpl.
    eapply (so_stuck _ _ _ _ _ (dd ++ d)); simpl; try apply Hs1; try done.
    + by rewrite Hfix.
    + by rewrite Hlog1, <- app_assoc.
  - apply failed_spec in H0. subst. do 3 kstep. simpl.
    eapply (so_running _ _ _ _ _ (dd ++ d)); simpl; try apply Hs1; try done.
    + by rewrite Hfix.
    + by rewrite Hlog1, <- app_assoc.
    + unfold requested_caps. by rewrite Hen.
Qed.

Lemma wp_spawn_thread en cptrs cnode vspace frame d (w : kworld K) s :
  endow req = Some en -> endow_cptrs req = Some cptrs -> 0 <= en_count en <= 8 ->
  stage req log0 led0 d w s -> staging req cnode -> staging req vspace -> staging req frame ->
  cnode ∈ created d -> vspace ∈ created d ->
  wp (spawn_thread req en cptrs mark cnode vspace frame) Q (w, s).
Proof using Hwf Hled.
  intros Hen Hcp H8 Hst Hcn Hvs Hfr Hc1 Hc2. unfold spawn_thread.
  eapply wp_step_retype; [done|done|]. intros dd1 tcb w1 sc1 Hst1 Htcb Hc3. clear Hst.
  eapply wp_step_sys; [done|done|done|done|]. intros w2 Hst2.
  eapply wp_step_sys; [done|done|done|done|]. intros w3 Hst3. clear Hst1 Hst2.
  assert (Hrest : forall dd w s, stage req log0 led0 (dd ++ (TCB_WriteRegisters tcb false (spawn_regs req), seL4_NoError)
      :: (TCB_Configure tcb cnode (u32 (seL4_WordBits - cnode_size_bits req)) vspace 0 (ipc_buf_va req) frame,
          seL4_NoError) :: dd1 ++ d) w s ->
    wp (spawn_endow_start req en cptrs mark cnode vspace tcb) Q (w, s)).
  { intros dd w4 s4 Hst4. eapply wp_endow_start; try done; auto 7 with kdb.
    exists frame. apply asked_app_r. right. left. }
  unfold install_fault_handler, bind_sched_context. case_cmp; simpl.
  - apply negb_true_iff, Z.eqb_neq in Heqb.
    eapply wp_step_sys; [done|by simpl|done|done|]. intros w4 Hst4.
    eapply wp_step_retype; [done|done|]. intros dd5 sc w5 sc5 Hst5 Hsc _.
    eapply wp_step_sys; [done|by simpl|done|done|]. intros w6 Hst6.
    eapply wp_step_sys; [done|by simpl|done|done|]. intros w7 Hst7.
    match type of Hst7 with stage _ _ _ (?a :: ?b :: ?dd ++ ?c :: ?rest) _ _ =>
      apply (Hrest (a :: b :: dd ++ [c])); simpl; by rewrite <- app_assoc end.
  - unfold attempt at 1. do 2 kstep. simpl.
    eapply wp_step_retype; [done|done|]. intros dd5 sc w5 sc5 Hst5 Hsc _.
    eapply wp_step_sys; [done|by simpl|done|done|]. intros w6 Hst6.
    eapply wp_step_sys; [done|by simpl|done|done|]. intros w7 Hst7.
    match type of Hst7 with stage _ _ _ (?a :: ?b :: ?dd ++ ?rest) _ _ =>
      by apply (Hrest (a :: b :: dd)) end.
Qed.

Lemma wp_spawn_domain en cptrs (w : kworld K) s :
  endow req = Some en -> endow_cptrs req = Some cptrs -> 0 <= en_count en <= 8 ->
  extra_map_count req <= Z.of_nat (length (maps_of req)) ->
  kw_log w = log0 -> ss_ledger s = led0 ->
  wp (spawn_domain req en cptrs) Q (w, s).
Proof using Hwf Hled.
  intros Hen Hcp H8 Hmaps Hlog Hl. unfold spawn_domain. do 4 kstep. simpl.
  set (s0 := mk_spawn _ _ _ _). rewrite Hl.
  assert (Hst0 : stage req log0 led0 [] w s0).
  { split; simpl; try done; [|lia]. split; simpl; try done; [lia|constructor..|set_solver|set_solver]. }
  eapply wp_step_retype; [done|done|]. intros dd1 cnode w1 sc1 Hst1 Hcn Hc1.
  eapply wp_step_retype; [done|done|]. intros dd2 vspace w2 sc2 Hst2 Hvs Hc2.
  eapply wp_step_sys; [done|done|done|done|]. intros w3 Hst3.
  eapply wp_step_content; [done|done|done|done|]. intros dd4 w4 sc4 s4 Hst4.
  unfold attempt at 1. kstep. destruct (rw_maps _ Hwf) as [Hm _].
  eapply wp_mono; [eapply (wp_map_extras vspace _ 0); [done|done|done|lia..]|].
  intros e [w5 s5] (dd5 & Hst5). simpl in Hst5. kstep; [by eapply wp_fail_first|].
  eapply wp_step_retype; [done|done|]. intros dd6 stack w6 sc6 Hst6 Hsf Hc6.
  eapply wp_step_map; [done|done|done|done|done|]. intros dd7 w7 sc7 Hst7.
  eapply wp_step_retype; [done|done|]. intros dd8 ipc w8 sc8 Hst8 Hif Hc8.
  eapply wp_step_map; [done|done|done|done|done|]. intros dd9 w9 sc9 Hst9.
  eapply wp_spawn_thread; try done; auto 12 with kdb.
Qed.

(** Every request, whatever it asks for and whatever the kernel answers. *)
Lemma wp_child_spawn (w : kworld K) s :
  kw_log w = log0 -> ss_ledger s = led0 ->
  wp (aos_child_spawn (Some req)) (fun r ws => Q r ws /\
    (r_error r <> AOS_CHILD_SPAWN_ERR_VALIDATE -> exists en held,
       endow req = Some en /\ parent_holdings req = Some held /\ endowable en held)) (w, s).
Proof using Hwf Hled.
  intros Hlog Hl. unfold aos_child_spawn.
  assert (Hrej : forall e, e = AOS_CHILD_SPAWN_ERR_VALIDATE \/ e = AOS_CHILD_SPAWN_ERR_SCRATCH ->
    Q (spawn_reject e) (w, s)) by (intros e He; by eapply so_rejected).
  assert (Hval : forall P : Prop, Q (spawn_reject AOS_CHILD_SPAWN_ERR_VALIDATE) (w, s) /\
    (r_error (spawn_reject AOS_CHILD_SPAWN_ERR_VALIDATE) <> AOS_CHILD_SPAWN_ERR_VALIDATE -> P))
    by (split; [apply Hrej; by left|done]).
  kstep. destruct (endow req) as [en|] eqn:Hen; [|eapply wp_lift; [done|]; kstep; [kstep; apply Hval|done]].
  destruct (parent_holdings req) as [held|] eqn:Hheld; [|eapply wp_lift; [done|]; kstep; [kstep; apply Hval|done]].
  destruct (rw_endow _ Hwf en Hen) as [Hlen Hcnt]. pose proof (rw_holdings _ Hwf held Hheld) as Hhl.
  destruct (endowment_validate_spec en held Hlen Hhl ltac:(apply Hcnt)) as (v & Hv & _ & Hiff).
  eapply wp_lift; [done|]. kstep; [kstep; apply Hval|]. apply negb_false_iff, Z.eqb_eq, Hiff in H0.
  kstep. eapply wp_lift; [done|]. pose proof H0 as (_ & Hc8 & _). unfold AOS_ENDOWMENT_MAX_CAPS in Hc8.
  kstep; [kstep; apply Hval|]. destruct (endow_cptrs req) as [cptrs|] eqn:Hcp.
  2:{ simpl in H1. apply negb_false_iff, Z.eqb_eq in H1. lia. }
  kstep; [kstep; split; [apply Hrej; by right|eauto]|]. kstep; [kstep; apply Hval|].
  eapply wp_mono; [apply wp_spawn_domain; try done; [lia|]|intros r ws HQ; split; [exact HQ|eauto]].
  apply andb_false_iff in H3 as [H3|H3].
  - apply negb_false_iff, Z.eqb_eq in H3. lia.
  - apply (rw_maps _ Hwf). by apply bool_decide_eq_false_1 in H3.
Qed.
End steps.

(** ** Properties *)

Definition rights_le (r r' : seL4_CapRights) : Prop :=
  (capAllowGrantReply r = true -> capAllowGrantReply r' = true) /\
  (capAllowGrant r = true -> capAllowGrant r' = true) /\
  (capAllowRead r = true -> capAllowRead r' = true) /\
  (capAllowWrite r = true -> capAllowWrite r' = true).

Lemma unpack_rights_mono a b : rights_subset a b -> rights_le (unpack_rights a) (unpack_rights b).
Proof. intros Hs. refine (conj (Hs 3) (conj (Hs 2) (conj (Hs 1) (Hs 0)))). Qed.

Lemma created_staging req d x :
  Forall (fun e => spawn_call_ok req e.1) d -> x ∈ created d -> staging req x.
Proof.
  induction 1 as [|[c e] d Hok _ IH]; simpl; [by intros ?%not_elem_of_nil|].
  destruct c; try done. destruct e; try done. intros [->|Hx]%elem_of_cons; [|by apply IH]. apply Hok.
Qed.

(** All invocations of an outcome are allowed ones. *)
Lemma outcome_calls {K} req log0 led0 r (ws : kworld K * spawn_state) :
  spawn_outcome req log0 led0 r ws ->
  exists d, kw_log ws.1 = d ++ log0 /\ Forall (fun e => spawn_call_ok req e.1) d /\
    (d <> [] -> r_error r <> AOS_CHILD_SPAWN_ERR_VALIDATE).
Proof.
  intros [error He -> Hlog _|d error step index He -> Hlog Hc _ _ _ _
    |d e cnode vspace tcb next -> Hlog _ Hc _ (_ & _ & _ & _ & Htcb) _ _
    |d cnode vspace tcb next -> Hlog Hc _ (_ & _ & _ & _ & Htcb) _ _].
  - exists []. split; [done|]. split; [constructor|done].
  - exists d. split; [done|]. split; [done|]. simpl.
    unfold AOS_CHILD_SPAWN_ERR_ENDOW, AOS_CHILD_SPAWN_ERR_RETYPE, AOS_CHILD_SPAWN_ERR_VALIDATE in *. lia.
  - eexists (_ :: d). split; [exact Hlog|]. split; [|done]. constructor; [|done].
    split; [by eapply created_staging|done].
  - eexists (_ :: d). split; [exact Hlog|]. split; [|done]. constructor; [|done].
    split; [by eapply created_staging|done].
Qed.

(** C19. Creating a child is all or nothing, for every kernel. A call returns
    in one of four ways. Either the request was refused and nothing was
    invoked; or some step failed, and then no thread was made runnable, every
    object made by the call was deleted again, every caller frame it mapped
    was unmapped again, and the ledger is what it was; or only the very last
    invocation, the resume, failed, and the ledger is what it was; or the last
    invocation made runnable, as the only one ever to do so, a thread that had
    been configured with the new CNode and VSpace, after every requested
    capability had been minted into that CNode, and the ledger has recorded
    exactly these mints. *)
Theorem child_spawn_atomic {K} `{Kernel K} req (w : kworld K) s :
  req_wf req -> ledger_wf (ss_ledger s) ->
  exists r ws, aos_child_spawn (Some req) (w, s) = Some (r, ws) /\
    spawn_outcome req (kw_log w) (ss_ledger s) r ws.
Proof.
  intros Hwf Hled. destruct (wp_run _ _ _ (wp_child_spawn req (kw_log w) (ss_ledger s) Hwf Hled w s eq_refl eq_refl))
    as (r & ws & Hrun & HQ & _). eauto.
Qed.

(** A child never receives more than its parent declares to hold. Every
    capability that a spawn mints, on whatever path, comes from the slot the
    caller named for a requested capability, goes into a CNode made by this
    call, and carries only rights that the parent's declaration of that
    capability has; and nothing the spawn invokes reaches outside the pool,
    the staging slots and the frames it was given. *)
Theorem child_spawn_confined {K} `{Kernel K} req (w : kworld K) s :
  req_wf req -> ledger_wf (ss_ledger s) ->
  exists r ws d, aos_child_spawn (Some req) (w, s) = Some (r, ws) /\ kw_log ws.1 = d ++ kw_log w /\
    Forall (fun e => spawn_call_ok req e.1) d /\
    forall cnode index depth root src depth' rights badge e,
      (CNode_Mint cnode index depth root src depth' rights badge, e) ∈ d ->
      exists i c held pc, requested req i c src /\ staging req cnode /\ root = self_cnode req /\
        parent_holdings req = Some held /\ pc ∈ declared held /\ same_cap c pc /\
        rights_le rights (unpack_rights (ec_rights pc)).
Proof.
  intros Hwf Hled. destruct (wp_run _ _ _ (wp_child_spawn req (kw_log w) (ss_ledger s) Hwf Hled w s eq_refl eq_refl))
    as (r & ws & Hrun & HQ & Hend). destruct (outcome_calls _ _ _ _ _ HQ) as (d & Hlog & Hd & Hne).
  exists r, ws, d. split_and!; [done..|]. intros cnode index depth root src depth' rights badge e Hin.
  destruct Hend as (en & held & Hen & Hheld & _ & _ & Hcov). { apply Hne. intros ->. by apply not_elem_of_nil in Hin. }
  rewrite Forall_forall in Hd. destruct (Hd _ Hin) as [Hcn (i & c & src' & Hreq & Heq)].
  injection Heq as -> -> -> -> -> -> ->. destruct Hreq as (en' & cptrs & Hen' & Hcp & Hi & Hc & Hs).
  rewrite Hen in Hen'. injection Hen' as <-. rewrite Forall_forall in Hcov.
  destruct (Hcov c) as (j & pc & Hf & Hsub).
  { apply (list_elem_of_lookup_2 _ i). rewrite lookup_take_lt by lia. exact Hc. }
  apply list_find_Some in Hf as (Hpc & Hsame & _). exists i, c, held, pc.
  split_and!; try done; [by exists en, cptrs|by eapply list_elem_of_lookup_2|by apply unpack_rights_mono].
Qed.

(** A kernel that grants everything, and one that refuses to mint. *)
Definition granting_kernel : Kernel unit := {| kinvoke := fun _ k => (seL4_NoError, k); kbits := fun _ => 7 |}.
Definition mintless_kernel : Kernel unit :=
  {| kinvoke := fun c k => (match c with CNode_Mint _ _ _ _ _ _ _ _ => seL4_InvalidCapability
                            | _ => seL4_NoError end, k);
     kbits := fun _ => 7 |}.

Definition spawn_example : aos_child_spawn_req := mk_req 1 2 10 3 4 5 100 24 6 0x400000 None 0 7 0 0
  0x400000 0x800000 0x900000 0 0 6 50 (Some request_example) (Some holdings_example) (Some [40]) 8 0
  1 None.

Definition spawn_example_state : spawn_state :=
  mk_spawn (Some (ledger_of [] 0)) (aos_pt_scratch_init 0 0 0 0 0) false 0.

Lemma spawn_example_wf : req_wf spawn_example /\ ledger_wf (ss_ledger spawn_example_state).
Proof.
  split; [split|].
  - by_compute.
  - done.
  - intros en [= <-]. split; [done|by_compute].
  - by intros h [= <-].
  - by intros en cptrs [= <-] [= <-].
  - right. exists [], 0. simpl. split; [done|lia].
Qed.

Lemma child_spawn_atomic_witness :
  exists r ws, @aos_child_spawn unit mintless_kernel (Some spawn_example) (mk_kworld tt [], spawn_example_state)
      = Some (r, ws) /\ r_error r = AOS_CHILD_SPAWN_ERR_ENDOW /\ ss_ledger ws.2 = Some (ledger_of [] 0).
Proof.
  destruct spawn_example_wf as [Hwf Hled].
  destruct (@child_spawn_atomic unit mintless_kernel spawn_example (mk_kworld tt []) spawn_example_state Hwf Hled)
    as (r & ws & Hrun & Hout).
  exists r, ws. split; [exact Hrun|]. vm_compute in Hrun. injection Hrun as <- <-. done.
Defined.

Lemma child_spawn_confined_witness :
  exists r ws d, @aos_child_spawn unit granting_kernel (Some spawn_example) (mk_kworld tt [], spawn_example_state)
      = Some (r, ws) /\ r_error r = AOS_CHILD_SPAWN_OK /\ kw_log ws.1 = d ++ [] /\
    exists pc, pc ∈ declared holdings_example /\ rights_le (unpack_rights 2) (unpack_rights (ec_rights pc)).
Proof.
  destruct spawn_example_wf as [Hwf Hled].
  destruct (@child_spawn_confined unit granting_kernel spawn_example (mk_kworld tt []) spawn_example_state Hwf Hled)
    as (r & ws & d & Hrun & Hlog & _ & Hmint).
  exists r, ws, d. split; [exact Hrun|]. vm_compute in Hrun. injection Hrun as <- <-. split; [done|].
  split; [exact Hlog|]. simpl in Hlog. rewrite app_nil_r in Hlog. subst d.
  edestruct Hmint as (i & c & held & pc & _ & _ & _ & [= <-] & Hpc & _ & Hle); [right; left|].
  exists pc. split; [exact Hpc|exact Hle].
Defined.
