(* ===== verification/Sha256.v ===== *)
(** * SHA-256

    Models libs/pd-support/sha256_mini.c, the digest with which the root task
    checks every protection domain's image and the guest profile checks a
    kernel, and proves it equal to the hash function of FIPS 180-4. *)

From Stdlib Require Import Zdiv.
From S2P Require Import Prelude.
From stdpp Require Import options.

#[local] Open Scope Z_scope.

(** ** sha256_mini.c *)

(** The table, in the rows of the source. *)
Definition K : list Z := concat [
  [0x428a2f98; 0x71374491; 0xb5c0fbcf; 0xe9b5dba5];
  [0x3956c25b; 0x59f111f1; 0x923f82a4; 0xab1c5ed5];
  [0xd807aa98; 0x12835b01; 0x243185be; 0x550c7dc3];
  [0x72be5d74; 0x80deb1fe; 0x9bdc06a7; 0xc19bf174];
  [0xe49b69c1; 0xefbe4786; 0x0fc19dc6; 0x240ca1cc];
  [0x2de92c6f; 0x4a7484aa; 0x5cb0a9dc; 0x76f988da];
  [0x983e5152; 0xa831c66d; 0xb00327c8; 0xbf597fc7];
  [0xc6e00bf3; 0xd5a79147; 0x06ca6351; 0x14292967];
  [0x27b70a85; 0x2e1b2138; 0x4d2c6dfc; 0x53380d13];
  [0x650a7354; 0x766a0abb; 0x81c2c92e; 0x92722c85];
  [0xa2bfe8a1; 0xa81a664b; 0xc24b8b70; 0xc76c51a3];
  [0xd192e819; 0xd6990624; 0xf40e3585; 0x106aa070];
  [0x19a4c116; 0x1e376c08; 0x2748774c; 0x34b0bcb5];
  [0x391c0cb3; 0x4ed8aa4a; 0x5b9cca4f; 0x682e6ff3];
  [0x748f82ee; 0x78a5636f; 0x84c87814; 0x8cc70208];
  [0x90befffa; 0xa4506ceb; 0xbef9a3f7; 0xc67178f2]].

Definition H0 : list Z := [
  0x6a09e667; 0xbb67ae85; 0x3c6ef372; 0xa54ff53a; 0x510e527f; 0x9b05688c; 0x1f83d9ab; 0x5be0cd19].

Definition ror32 (x n : Z) : Z := Z.lor (Z.shiftr x n) (u32 (Z.shiftl x (32 - n))).

(** [w[i]] of the first loop of [sha256_block]. *)
Definition load_be32 (blk : list Z) (i : nat) : Z :=
  Z.lor (Z.lor (Z.lor (u32 (Z.shiftl (blk !!! (i * 4 + 0)%nat) 24)) (u32 (Z.shiftl (blk !!! (i * 4 + 1)%nat) 16)))
    (u32 (Z.shiftl (blk !!! (i * 4 + 2)%nat) 8))) (blk !!! (i * 4 + 3)%nat).

(** One iteration of the second loop: [w] holds [w[0], ..., w[i - 1]]. *)
Definition schedule_next (w : list Z) : list Z :=
  let i := length w in
  let w15 := w !!! (i - 15)%nat in
  let w2 := w !!! (i - 2)%nat in
  let s0 := Z.lxor (Z.lxor (ror32 w15 7) (ror32 w15 18)) (Z.shiftr w15 3) in
  let s1 := Z.lxor (Z.lxor (ror32 w2 17) (ror32 w2 19)) (Z.shiftr w2 10) in
  w ++ [u32 (u32 (u32 (w !!! (i - 16)%nat + s0) + w !!! (i - 7)%nat) + s1)].

Definition schedule (blk : list Z) : list Z :=
  Nat.iter 48 schedule_next (load_be32 blk <$> seq 0 16).

(** The working variables. *)
Record vars := mk_vars { va : Z; vb : Z; vc : Z; vd : Z; ve : Z; vf : Z; vg : Z; vh : Z }.

Definition round (w : list Z) (v : vars) (i : nat) : vars :=
  let S1 := Z.lxor (Z.lxor (ror32 (ve v) 6) (ror32 (ve v) 11)) (ror32 (ve v) 25) in
  let ch := Z.lxor (Z.land (ve v) (vf v)) (Z.land (u32 (Z.lnot (ve v))) (vg v)) in
  let t1 := u32 (u32 (u32 (u32 (vh v + S1) + ch) + K !!! i) + w !!! i) in
  let S0 := Z.lxor (Z.lxor (ror32 (va v) 2) (ror32 (va v) 13)) (ror32 (va v) 22) in
  let maj := Z.lxor (Z.lxor (Z.land (va v) (vb v)) (Z.land (va v) (vc v))) (Z.land (vb v) (vc v)) in
  let t2 := u32 (S0 + maj) in
  mk_vars (u32 (t1 + t2)) (va v) (vb v) (vc v) (u32 (vd v + t1)) (ve v) (vf v) (vg v).

(** [h] has eight words. *)
Definition sha256_block (h blk : list Z) : list Z :=
  let w := schedule blk in
  let v0 := mk_vars (h !!! 0%nat) (h !!! 1%nat) (h !!! 2%nat) (h !!! 3%nat)
              (h !!! 4%nat) (h !!! 5%nat) (h !!! 6%nat) (h !!! 7%nat) in
  let v := foldl (round w) v0 (seq 0 64) in
  [u32 (h !!! 0%nat + va v); u32 (h !!! 1%nat + vb v); u32 (h !!! 2%nat + vc v); u32 (h !!! 3%nat + vd v);
   u32 (h !!! 4%nat + ve v); u32 (h !!! 5%nat + vf v); u32 (h !!! 6%nat + vg v); u32 (h !!! 7%nat + vh v)].

(** [n] bytes of [data] from [pos] on; [None] outside the buffer. *)
Definition read_bytes (data : list Z) (pos n : Z) : option (list Z) :=
  if (0 <=? pos) && (pos + n <=? Z.of_nat (length data)) then Some (aslice data pos n) else None.

(** The loop over the full blocks; [None] also when [fuel] iterations do not
    end it. *)
Fixpoint full_blocks (fuel : nat) (data : list Z) (len pos : Z) (h : list Z) : option (Z * list Z) :=
  match fuel with
  | O => None
  | S fuel =>
      if u32 (pos + 64) <=? len then
        blk ← read_bytes data pos 64;
        full_blocks fuel data len (u32 (pos + 64)) (sha256_block h blk)
      else Some (pos, h)
  end.

(** [for (i = a; i < b; i++) buf[i] = v[i - a];] *)
Definition put_bytes (buf : list Z) (a : nat) (v : list Z) : list Z :=
  take a buf ++ v ++ drop (a + length v) buf.

Definition be64 (x : Z) : list Z :=
  (fun s => Z.shiftr x s mod 256) <$> [56; 48; 40; 32; 24; 16; 8; 0].

Definition be32 (x : Z) : list Z := (fun s => Z.shiftr x s mod 256) <$> [24; 16; 8; 0].

(** Padding the last [tail] bytes in [buf] and hashing the block or blocks. *)
Definition finish (h buf : list Z) (tail : nat) (len : Z) : list Z :=
  let buf := put_bytes buf tail [0x80] in
  let '(h, buf) :=
    if (tail <? 56)%nat then (h, put_bytes buf (tail + 1) (replicate (56 - (tail + 1)) 0))
    else
      let buf := put_bytes buf (tail + 1) (replicate (64 - (tail + 1)) 0) in
      (sha256_block h buf, put_bytes buf 0 (replicate 56 0)) in
  let buf := put_bytes buf 56 (be64 (len * 8)) in
  sha256_block h buf.

(** [buf0] is the indeterminate initial content of [buf]. *)
Definition sha256_mini (fuel : nat) (buf0 data : list Z) (len : Z) : option (list Z) :=
  '(pos, h) ← full_blocks fuel data len 0 H0;
  let tail := len - pos in
  last ← read_bytes data pos tail;
  let buf := put_bytes buf0 0 last in
  Some (concat (be32 <$> finish h buf (Z.to_nat tail) len)).

(** ** FIPS 180-4 *)

Module fips.

(** Sections 4.2.2 and 5.3.3: the constants are the first 32 bits of the
    fractional parts of the cube roots of the first 64 primes, and of the
    square roots of the first eight. *)
Definition is_prime (n : nat) : bool := forallb (fun d => negb (n mod d =? 0)%nat) (seq 2 (n - 2)).
Definition primes : list Z := Z.of_nat <$> List.filter is_prime (seq 2 310).

(** The integer cube root of [x], below [acc + 2 ^ n], bit by bit. *)
Fixpoint cbrt (n : nat) (x acc : Z) : Z :=
  match n with
  | O => acc
  | S n => let a := acc + 2 ^ Z.of_nat n in cbrt n x (if a ^ 3 <=? x then a else acc)
  end.

Definition constants : list Z := (fun p => cbrt 36 (p * 2 ^ 96) 0 mod 2 ^ 32) <$> primes.
Definition initial : list Z := (fun p => Z.sqrt (p * 2 ^ 64) mod 2 ^ 32) <$> take 8 primes.

(** Section 3.2 and 4.1.2, on words in [0, 2^32). *)
Definition rotr (n x : Z) : Z := x / 2 ^ n + (x mod 2 ^ n) * 2 ^ (32 - n).
Definition shr (n x : Z) : Z := x / 2 ^ n.
Definition Ch (x y z : Z) : Z := Z.lor (Z.land x y) (Z.ldiff z x).
Definition Maj (x y z : Z) : Z := Z.lor (Z.lor (Z.land x y) (Z.land x z)) (Z.land y z).
Definition Sigma0 (x : Z) : Z := Z.lxor (rotr 2 x) (Z.lxor (rotr 13 x) (rotr 22 x)).
Definition Sigma1 (x : Z) : Z := Z.lxor (rotr 6 x) (Z.lxor (rotr 11 x) (rotr 25 x)).
Definition sigma0 (x : Z) : Z := Z.lxor (rotr 7 x) (Z.lxor (rotr 18 x) (shr 3 x)).
Definition sigma1 (x : Z) : Z := Z.lxor (rotr 17 x) (Z.lxor (rotr 19 x) (shr 10 x)).

(** Section 5.1.1: a one bit, the least number of zeros, the length in bits. *)
Definition pad (m : list Z) : list Z :=
  let l := Z.of_nat (length m) in
  m ++ [0x80] ++ replicate (Z.to_nat ((55 - l) mod 64)) 0
    ++ ((fun s => (8 * l / 2 ^ s) mod 256) <$> [56; 48; 40; 32; 24; 16; 8; 0]).

(** Section 6.2.2, the message schedule of a block of 64 bytes: [W t], and
    the sixteen words up to it. *)
Definition M (blk : list Z) (t : nat) : Z :=
  blk !!! (4 * t)%nat * 2 ^ 24 + blk !!! (4 * t + 1)%nat * 2 ^ 16
  + blk !!! (4 * t + 2)%nat * 2 ^ 8 + blk !!! (4 * t + 3)%nat.

(** [Ws blk n] is [W_{n+15}, ..., W_n]. *)
Fixpoint Ws (blk : list Z) (n : nat) : list Z :=
  match n with
  | O => reverse (M blk <$> seq 0 16)
  | S n =>
      let ws := Ws blk n in
      (sigma1 (ws !!! 1%nat) + ws !!! 6%nat + sigma0 (ws !!! 14%nat) + ws !!! 15%nat) mod 2 ^ 32 :: take 15 ws
  end.

Definition W (blk : list Z) (t : nat) : Z := Ws blk t !!! 15%nat.

Definition step (blk : list Z) (v : vars) (t : nat) : vars :=
  let T1 := vh v + Sigma1 (ve v) + Ch (ve v) (vf v) (vg v) + constants !!! t + W blk t in
  let T2 := Sigma0 (va v) + Maj (va v) (vb v) (vc v) in
  mk_vars ((T1 + T2) mod 2 ^ 32) (va v) (vb v) (vc v) ((vd v + T1) mod 2 ^ 32) (ve v) (vf v) (vg v).

Definition add_vars (v v' : vars) : vars :=
  mk_vars ((va v + va v') mod 2 ^ 32) ((vb v + vb v') mod 2 ^ 32) ((vc v + vc v') mod 2 ^ 32)
    ((vd v + vd v') mod 2 ^ 32) ((ve v + ve v') mod 2 ^ 32) ((vf v + vf v') mod 2 ^ 32)
    ((vg v + vg v') mod 2 ^ 32) ((vh v + vh v') mod 2 ^ 32).

Definition compress (v : vars) (blk : list Z) : vars := add_vars v (foldl (step blk) v (seq 0 64)).

Definition words (v : vars) : list Z := [va v; vb v; vc v; vd v; ve v; vf v; vg v; vh v].

Fixpoint blocks (n : nat) (m : list Z) : list (list Z) :=
  match n with
  | O => []
  | S n => take 64 m :: blocks n (drop 64 m)
  end.

Definition init : vars :=
  let h i := initial !!! i in
  mk_vars (h 0%nat) (h 1%nat) (h 2%nat) (h 3%nat) (h 4%nat) (h 5%nat) (h 6%nat) (h 7%nat).

Definition sha256 (m : list Z) : list Z :=
  let p := pad m in
  let v := foldl compress init (blocks (length p / 64) p) in
  concat ((fun x => [(x / 2 ^ 24) mod 256; (x / 2 ^ 16) mod 256; (x / 2 ^ 8) mod 256; x mod 256]) <$> words v).

End fips.

(** ** The tables *)

(** [fips.cbrt] is the cube root rounded down. *)
Lemma cbrt_floor n x acc :
  0 <= acc -> acc ^ 3 <= x < (acc + 2 ^ Z.of_nat n) ^ 3 ->
  fips.cbrt n x acc ^ 3 <= x < (fips.cbrt n x acc + 1) ^ 3.
Proof.
  revert acc. induction n as [|n IH]; intros acc Ha Hx; [exact Hx|]. cbn [fips.cbrt].
  pose proof (Z.pow_pos_nonneg 2 (Z.of_nat n)) as Hp. rewrite Nat2Z.inj_succ, Z.pow_succ_r in Hx by lia.
  case_cmp; apply IH; lia.
Qed.

Lemma constants_floor i p :
  fips.primes !! i = Some p ->
  exists r, r ^ 3 <= p * 2 ^ 96 < (r + 1) ^ 3 /\ fips.constants !! i = Some (r mod 2 ^ 32).
Proof.
  intros Hp. exists (fips.cbrt 36 (p * 2 ^ 96) 0). split.
  - apply cbrt_floor; [lia|]. assert (2 <= p <= 311) as Hr; [|lia].
    revert i p Hp. apply (proj1 (Forall_lookup (fun p => 2 <= p <= 311) fips.primes)). by_compute.
  - unfold fips.constants. by rewrite list_lookup_fmap, Hp.
Qed.

Lemma K_constants : K = fips.constants.
Proof. vm_compute. reflexivity. Qed.

Lemma H0_init : H0 = fips.words fips.init.
Proof. vm_compute. reflexivity. Qed.

(** ** Words *)

#[local] Existing Instance eqm_setoid.
#[local] Existing Instance Zplus_eqm.

(** Equality of two reduced sums, whatever is reduced inside them. *)
Ltac mod_ring :=
  unfold u32;
  match goal with |- ?a mod ?n = ?b mod ?n => change (eqm n a b) end;
  repeat setoid_rewrite Zmod_eqm; unfold eqm; f_equal; ring.

Lemma land_low_high k a c : 0 <= k -> 0 <= a < 2 ^ k -> Z.land a (c * 2 ^ k) = 0.
Proof.
  intros Hk Ha. apply Z.bits_inj'. intros i Hi. rewrite Z.land_spec, Z.bits_0.
  destruct (Z.ltb_spec i k).
  - rewrite Z.mul_pow2_bits_low by done. apply andb_false_r.
  - replace a with (a mod 2 ^ k) by (by apply Z.mod_small). by rewrite Z.mod_pow2_bits_high by lia.
Qed.

Lemma lor_low_high k a c : 0 <= k -> 0 <= a < 2 ^ k -> Z.lor (c * 2 ^ k) a = c * 2 ^ k + a.
Proof.
  intros Hk Ha. pose proof (land_low_high k a c Hk Ha) as Hz. rewrite Z.land_comm in Hz.
  rewrite <- Z.lxor_lor by done. by rewrite <- Z.add_nocarry_lxor.
Qed.

Lemma ror32_rotr x n : is_u32 x -> 0 < n < 32 -> ror32 x n = fips.rotr n x.
Proof.
  unfold is_u32, ror32, fips.rotr, u32. intros Hx Hn. rewrite Z.shiftr_div_pow2, Z.shiftl_mul_pow2 by lia.
  assert (Hp : 2 ^ 32 = 2 ^ n * 2 ^ (32 - n)) by (rewrite <- Z.pow_add_r by lia; f_equal; lia).
  assert (0 < 2 ^ n /\ 0 < 2 ^ (32 - n)) as [] by (split; apply Z.pow_pos_nonneg; lia).
  rewrite Hp, Z.mul_mod_distr_r by lia. rewrite Z.lor_comm, lor_low_high by
    (first [lia | split; [apply Z.div_pos; lia|apply Z.div_lt_upper_bound; lia]]). lia.
Qed.

Lemma u32_testbit_high x i : is_u32 x -> 32 <= i -> Z.testbit x i = false.
Proof.
  intros Hx Hi. rewrite <- (u32_small x Hx). unfold u32. by apply Z.mod_pow2_bits_high.
Qed.

Lemma ch_Ch e f g : is_u32 g ->
  Z.lxor (Z.land e f) (Z.land (u32 (Z.lnot e)) g) = fips.Ch e f g.
Proof.
  intros Hg. unfold fips.Ch. apply Z.bits_inj'. intros i Hi.
  rewrite Z.lxor_spec, Z.lor_spec, Z.ldiff_spec, !Z.land_spec. destruct (Z.ltb_spec i 32).
  - unfold u32. rewrite Z.mod_pow2_bits_low, Z.lnot_spec by lia.
    by destruct (Z.testbit e i), (Z.testbit f i), (Z.testbit g i).
  - rewrite (u32_testbit_high g) by (done || lia). rewrite !andb_false_r. by destruct (_ && _).
Qed.

Lemma maj_Maj a b c :
  Z.lxor (Z.lxor (Z.land a b) (Z.land a c)) (Z.land b c) = fips.Maj a b c.
Proof.
  unfold fips.Maj. apply Z.bits_inj'. intros i Hi. rewrite !Z.lxor_spec, !Z.lor_spec, !Z.land_spec.
  by destruct (Z.testbit a i), (Z.testbit b i), (Z.testbit c i).
Qed.

Lemma Sigma1_eq x : is_u32 x -> Z.lxor (Z.lxor (ror32 x 6) (ror32 x 11)) (ror32 x 25) = fips.Sigma1 x.
Proof. intros Hx. rewrite !ror32_rotr by (done || lia). apply Z.lxor_assoc. Qed.
Lemma Sigma0_eq x : is_u32 x -> Z.lxor (Z.lxor (ror32 x 2) (ror32 x 13)) (ror32 x 22) = fips.Sigma0 x.
Proof. intros Hx. rewrite !ror32_rotr by (done || lia). apply Z.lxor_assoc. Qed.
Lemma sigma0_eq x : is_u32 x -> Z.lxor (Z.lxor (ror32 x 7) (ror32 x 18)) (Z.shiftr x 3) = fips.sigma0 x.
Proof. intros Hx. rewrite !ror32_rotr, Z.shiftr_div_pow2 by (done || lia). apply Z.lxor_assoc. Qed.
Lemma sigma1_eq x : is_u32 x -> Z.lxor (Z.lxor (ror32 x 17) (ror32 x 19)) (Z.shiftr x 10) = fips.sigma1 x.
Proof. intros Hx. rewrite !ror32_rotr, Z.shiftr_div_pow2 by (done || lia). apply Z.lxor_assoc. Qed.

Lemma load_be32_M blk i :
  Forall is_u8 blk -> (4 * i + 3 < length blk)%nat -> load_be32 blk i = fips.M blk i.
Proof.
  intros Hb Hlen. unfold load_be32, fips.M.
  assert (Hr : forall j, (j < length blk)%nat -> 0 <= blk !!! j < 256).
  { intros j Hj. rewrite Forall_lookup in Hb. apply (Hb j). by apply list_lookup_lookup_total_lt. }
  replace (i * 4 + 0)%nat with (4 * i)%nat by lia. replace (i * 4)%nat with (4 * i)%nat by lia.
  set (b0 := blk !!! (4 * i)%nat). set (b1 := blk !!! (4 * i + 1)%nat).
  set (b2 := blk !!! (4 * i + 2)%nat). set (b3 := blk !!! (4 * i + 3)%nat).
  assert (0 <= b0 < 256 /\ 0 <= b1 < 256 /\ 0 <= b2 < 256 /\ 0 <= b3 < 256) as (? & ? & ? & ?)
    by (split_and!; apply Hr; lia).
  rewrite !Z.shiftl_mul_pow2 by lia. rewrite !u32_small by (unfold is_u32; lia).
  rewrite (lor_low_high 24) by lia.
  replace (b0 * 2 ^ 24 + b1 * 2 ^ 16) with ((b0 * 256 + b1) * 2 ^ 16) by lia. rewrite (lor_low_high 16) by lia.
  replace ((b0 * 256 + b1) * 2 ^ 16 + b2 * 2 ^ 8) with ((b0 * 65536 + b1 * 256 + b2) * 2 ^ 8) by lia.
  rewrite (lor_low_high 8) by lia. lia.
Qed.

(** ** The message schedule *)

Definition sched (blk : list Z) (n : nat) : list Z :=
  Nat.iter n schedule_next (load_be32 blk <$> seq 0 16).

Lemma sched_S blk n : sched blk (S n) = schedule_next (sched blk n).
Proof. done. Qed.

Lemma length_sched blk n : length (sched blk n) = (16 + n)%nat.
Proof.
  induction n as [|n IH]; [done|]. rewrite sched_S. unfold schedule_next. rewrite length_app, IH.
  simpl. lia.
Qed.

Lemma M_u32 blk i : Forall is_u8 blk -> (4 * i + 3 < length blk)%nat -> is_u32 (fips.M blk i).
Proof.
  intros Hb Hlen. unfold fips.M.
  assert (Hr : forall j, (j < length blk)%nat -> 0 <= blk !!! j < 256).
  { intros j Hj. rewrite Forall_lookup in Hb. apply (Hb j). by apply list_lookup_lookup_total_lt. }
  pose proof (Hr (4 * i)%nat ltac:(lia)). pose proof (Hr (4 * i + 1)%nat ltac:(lia)).
  pose proof (Hr (4 * i + 2)%nat ltac:(lia)). pose proof (Hr (4 * i + 3)%nat ltac:(lia)).
  unfold is_u32. lia.
Qed.

Lemma sched_0 blk : Forall is_u8 blk -> length blk = 64%nat -> sched blk 0 = fips.M blk <$> seq 0 16.
Proof.
  intros Hb Hl. apply list_fmap_ext. intros i x [-> Hx]%lookup_seq. apply load_be32_M; [done|lia].
Qed.

Lemma sched_u32 blk n : Forall is_u8 blk -> length blk = 64%nat -> Forall is_u32 (sched blk n).
Proof.
  intros Hb Hl. induction n as [|n IH].
  - rewrite sched_0 by done. apply Forall_fmap, Forall_forall. intros i Hi%elem_of_seq.
    apply M_u32; [done|lia].
  - rewrite sched_S. apply Forall_app. split; [done|]. constructor; [|done]. apply u32_range.
Qed.

(** The array is the recurrence of the standard, read backwards. *)
Lemma lookup_total_reverse (l : list Z) i :
  (i < length l)%nat -> reverse l !!! i = l !!! (length l - 1 - i)%nat.
Proof.
  intros Hi. rewrite !list_lookup_total_alt. f_equal. rewrite reverse_lookup by done. f_equal. lia.
Qed.

Lemma lookup_total_take_lt (l : list Z) n i : (i < n)%nat -> take n l !!! i = l !!! i.
Proof. intros. by rewrite !list_lookup_total_alt, lookup_take_lt. Qed.

Lemma Ws_sched blk n :
  Forall is_u8 blk -> length blk = 64%nat -> fips.Ws blk n = take 16 (reverse (sched blk n)).
Proof.
  intros Hb Hl. induction n as [|n IH].
  { rewrite sched_0 by done. simpl fips.Ws. by rewrite take_ge by (rewrite length_reverse; done). }
  rewrite sched_S. unfold schedule_next. rewrite reverse_app, reverse_singleton. cbn [fips.Ws app]. rewrite IH.
  pose proof (length_sched blk n) as Hlen. pose proof (sched_u32 blk n Hb Hl) as Hu.
  set (w := sched blk n) in *. rewrite Forall_lookup in Hu.
  assert (Hw : forall i, (i < length w)%nat -> is_u32 (w !!! i))
    by (intros i Hi; apply (Hu i); by apply list_lookup_lookup_total_lt).
  rewrite !lookup_total_take_lt, !lookup_total_reverse by lia.
  replace (length w - 1 - 1)%nat with (length w - 2)%nat by lia.
  replace (length w - 1 - 6)%nat with (length w - 7)%nat by lia.
  replace (length w - 1 - 14)%nat with (length w - 15)%nat by lia.
  replace (length w - 1 - 15)%nat with (length w - 16)%nat by lia.
  rewrite sigma0_eq, sigma1_eq by (apply Hw; lia). rewrite take_take. cbn [take Nat.min]. f_equal.
  mod_ring.
Qed.

(** A longer array extends a shorter one. *)
Lemma sched_prefix blk n m : (n <= m)%nat -> sched blk n `prefix_of` sched blk m.
Proof.
  induction 1 as [|m _ IH]; [done|]. etrans; [exact IH|]. rewrite sched_S. by eexists.
Qed.

Lemma schedule_W blk t :
  Forall is_u8 blk -> length blk = 64%nat -> (t < 64)%nat -> schedule blk !!! t = fips.W blk t.
Proof.
  intros Hb Hl Ht. unfold fips.W. rewrite Ws_sched by done.
  pose proof (length_sched blk t). rewrite lookup_total_take_lt, lookup_total_reverse by lia.
  replace (length (sched blk t) - 1 - 15)%nat with t by lia.
  assert (schedule blk = sched blk 48) as -> by (unfold schedule, sched; reflexivity).
  pose proof (length_sched blk 48).
  rewrite !list_lookup_total_alt. f_equal.
  destruct (lookup_lt_is_Some_2 (sched blk 48) t) as [x Hx]; [lia|].
  destruct (lookup_lt_is_Some_2 (sched blk t) t) as [y Hy]; [lia|]. rewrite Hx, Hy. f_equal.
  pose proof (prefix_lookup_Some _ _ _ _ Hx (sched_prefix blk 48 (48 + t) ltac:(lia))).
  pose proof (prefix_lookup_Some _ _ _ _ Hy (sched_prefix blk t (48 + t) ltac:(lia))). congruence.
Qed.

(** ** One block *)

Definition vars_ok (v : vars) : Prop :=
  is_u32 (va v) /\ is_u32 (vb v) /\ is_u32 (vc v) /\ is_u32 (vd v) /\
  is_u32 (ve v) /\ is_u32 (vf v) /\ is_u32 (vg v) /\ is_u32 (vh v).

Lemma step_ok blk v t : vars_ok v -> vars_ok (fips.step blk v t).
Proof. intros (? & ? & ? & ? & ? & ? & ? & ?). repeat (split; [done || apply u32_range|]). done. Qed.

Lemma round_step blk v t :
  Forall is_u8 blk -> length blk = 64%nat -> (t < 64)%nat -> vars_ok v ->
  round (schedule blk) v t = fips.step blk v t.
Proof.
  intros Hb Hl Ht (Ha & _ & _ & _ & He & _ & Hg & _). unfold round, fips.step. rewrite K_constants, schedule_W by done.
  rewrite Sigma1_eq, Sigma0_eq, ch_Ch, maj_Maj by done.
  f_equal; mod_ring.
Qed.

Lemma rounds_steps blk v ts :
  Forall is_u8 blk -> length blk = 64%nat -> Forall (fun t => (t < 64)%nat) ts -> vars_ok v ->
  foldl (round (schedule blk)) v ts = foldl (fips.step blk) v ts.
Proof.
  intros Hb Hl Hts. revert v. induction Hts as [|t ts Ht _ IH]; intros v Hv; [done|]. cbn [foldl].
  rewrite round_step by done. by apply IH, step_ok.
Qed.

Lemma block_compress blk v :
  Forall is_u8 blk -> length blk = 64%nat -> vars_ok v ->
  sha256_block (fips.words v) blk = fips.words (fips.compress v blk).
Proof.
  intros Hb Hl Hv. unfold sha256_block, fips.compress, fips.words. cbn [lookup_total list_lookup_total nth].
  rewrite <- rounds_steps by (try done; apply Forall_forall; intros t Ht%elem_of_seq; lia).
  by destruct v.
Qed.

Lemma compress_ok v blk : vars_ok (fips.compress v blk).
Proof.
  unfold fips.compress. generalize (foldl (fips.step blk) v (seq 0 64)). intros v'.
  unfold vars_ok. split_and!; apply Z.mod_pos_bound; lia.
Qed.

#[local] Opaque sha256_block fips.compress.

(** ** Blocks of a message *)

Lemma blocks_app n k a b :
  length a = (64 * n)%nat -> fips.blocks (n + k) (a ++ b) = fips.blocks n a ++ fips.blocks k b.
Proof.
  revert a. induction n as [|n IH]; intros a Ha.
  - destruct a; [done|simpl in Ha; lia].
  - cbn [Nat.add fips.blocks app]. rewrite take_app_le, drop_app_le by lia.
    f_equal. apply IH. rewrite length_drop. lia.
Qed.

Lemma foldl_compress_ok bs v : vars_ok v -> vars_ok (foldl fips.compress v bs).
Proof. revert v. induction bs as [|b bs IH]; intros v Hv; [done|]. cbn [foldl]. apply IH, compress_ok. Qed.

(** The loop over the full blocks, from block [i] on. *)
Lemma full_blocks_spec data len k fuel i v :
  Forall is_u8 data -> 0 <= len < 2 ^ 32 - 64 -> len <= Z.of_nat (length data) ->
  (len / 64 = Z.of_nat (i + k)) -> (k < fuel)%nat -> vars_ok v ->
  full_blocks fuel data len (64 * Z.of_nat i) (fips.words v)
    = Some (64 * (len / 64), fips.words (foldl fips.compress v (fips.blocks k (drop (64 * i) data)))).
Proof.
  intros Hb Hlen Hd. revert i v fuel. induction k as [|k IH]; intros i v fuel Hq Hf Hv;
    (destruct fuel as [|fuel]; [lia|]); cbn [full_blocks fips.blocks foldl];
    pose proof (Z.div_mod len 64 ltac:(lia)); pose proof (Z.mod_pos_bound len 64 ltac:(lia));
    rewrite u32_small by (unfold is_u32; lia).
  - destruct (Z.leb_spec (64 * Z.of_nat i + 64) len); [lia|]. do 2 f_equal. lia.
  - destruct (Z.leb_spec (64 * Z.of_nat i + 64) len); [|lia].
    unfold read_bytes. destruct (Z.leb_spec 0 (64 * Z.of_nat i)); [|lia].
    destruct (Z.leb_spec (64 * Z.of_nat i + 64) (Z.of_nat (length data))); [|lia].
    cbn [andb mbind option_bind]. unfold aslice.
    replace (Z.to_nat (64 * Z.of_nat i)) with (64 * i)%nat by lia. change (Z.to_nat 64) with 64%nat.
    rewrite block_compress; [|by apply Forall_take, Forall_drop| |done].
    2:{ rewrite length_take, length_drop. lia. }
    replace (64 * Z.of_nat i + 64) with (64 * Z.of_nat (S i)) by lia.
    rewrite (IH (S i)); [|lia|lia|apply compress_ok].
    rewrite drop_drop. by replace (64 * i + 64)%nat with (64 * S i)%nat by lia.
Qed.

(** ** Padding *)

Lemma put_bytes_at a b v :
  put_bytes (a ++ b) (length a) v = a ++ v ++ drop (length v) b.
Proof.
  unfold put_bytes. rewrite take_app_length, drop_app_ge by lia. do 3 f_equal. lia.
Qed.

Lemma put_bytes_at' a b v n : n = length a -> put_bytes (a ++ b) n v = a ++ v ++ drop (length v) b.
Proof. intros ->. apply put_bytes_at. Qed.

(** What the last block or blocks of the standard hold, after the full ones. *)
Definition padding (rest : list Z) (len : Z) : list Z :=
  rest ++ [0x80] ++ replicate (Z.to_nat ((55 - len) mod 64)) 0 ++ be64 (len * 8).

Lemma be64_length x : length (be64 x) = 8%nat.
Proof. done. Qed.

Lemma be64_u8 x : Forall is_u8 (be64 x).
Proof. apply Forall_fmap, Forall_forall. intros s _. apply Z.mod_pos_bound. lia. Qed.

Lemma replicate_u8 n : Forall is_u8 (replicate n 0).
Proof. apply Forall_replicate. unfold is_u8. lia. Qed.

Lemma finish_short v rest buf1 len :
  Forall is_u8 rest -> vars_ok v -> len mod 64 = Z.of_nat (length rest) ->
  (length rest + length buf1 = 64)%nat -> (length rest < 56)%nat ->
  let p := padding rest len in
  finish (fips.words v) (rest ++ buf1) (length rest) len = fips.words (fips.compress v p)
  /\ length p = 64%nat.
Proof.
  intros Hb Hv Hmod Hlen Hlt p. pose proof (Z.mod_pos_bound len 64 ltac:(lia)).
  unfold finish. rewrite put_bytes_at. cbn [length].
  destruct (Nat.ltb_spec (length rest) 56); [|lia].
  assert (Hz : Z.to_nat ((55 - len) mod 64) = (56 - (length rest + 1))%nat).
  { rewrite <- (Z.mod_unique (55 - len) 64 (- (len / 64)) (55 - len mod 64)); [lia|left; lia|].
    pose proof (Z.div_mod len 64). lia. }
  set (z := replicate (56 - (length rest + 1)) 0).
  assert (Hp : p = rest ++ [128] ++ z ++ be64 (len * 8)) by (unfold p, padding; by rewrite Hz).
  assert (Hpl : length p = 64%nat).
  { rewrite Hp, !length_app, be64_length. unfold z. rewrite length_replicate. simpl. lia. }
  split; [|done]. rewrite <- block_compress; [|..|done]; [|rewrite Hp|done].
  2:{ repeat (apply Forall_app; split); [done|by repeat constructor|apply replicate_u8|apply be64_u8]. }
  f_equal. rewrite Hp. rewrite (app_assoc rest), put_bytes_at' by (rewrite length_app; simpl; lia).
  rewrite (app_assoc _ z), put_bytes_at' by (unfold z; rewrite !length_app, length_replicate; simpl; lia).
  rewrite <- !app_assoc. do 3 f_equal. rewrite drop_ge; [by rewrite app_nil_r|].
  unfold z. rewrite be64_length, !length_drop, length_replicate. simpl. lia.
Qed.

Lemma finish_long v rest buf1 len :
  Forall is_u8 rest -> vars_ok v -> len mod 64 = Z.of_nat (length rest) ->
  (length rest + length buf1 = 64)%nat -> (56 <= length rest)%nat ->
  exists p1 p2, padding rest len = p1 ++ p2 /\ length p1 = 64%nat /\ length p2 = 64%nat /\
  finish (fips.words v) (rest ++ buf1) (length rest) len
    = fips.words (fips.compress (fips.compress v p1) p2).
Proof.
  intros Hb Hv Hmod Hlen Hge. pose proof (Z.mod_pos_bound len 64 ltac:(lia)).
  unfold finish. rewrite put_bytes_at. cbn [length].
  destruct (Nat.ltb_spec (length rest) 56); [lia|].
  assert (Hz : Z.to_nat ((55 - len) mod 64) = (64 - (length rest + 1) + 56)%nat).
  { rewrite <- (Z.mod_unique (55 - len) 64 (- (len / 64) - 1) (119 - len mod 64)); [lia|left; lia|].
    pose proof (Z.div_mod len 64). lia. }
  set (z := replicate (64 - (length rest + 1)) 0).
  exists (rest ++ [128] ++ z), (replicate 56 0 ++ be64 (len * 8)).
  assert (Hpl : length (rest ++ [128] ++ z) = 64%nat).
  { rewrite !length_app. unfold z. rewrite length_replicate. simpl. lia. }
  split_and!; [|done..|].
  { unfold padding. rewrite Hz, replicate_add. unfold z. by rewrite <- !app_assoc. }
  assert (Hb1 : Forall is_u8 (rest ++ [128] ++ z)).
  { repeat (apply Forall_app; split); [done|by repeat constructor|apply replicate_u8]. }
  assert (Hb2 : Forall is_u8 (replicate 56 0 ++ be64 (len * 8))).
  { apply Forall_app. split; [apply replicate_u8|apply be64_u8]. }
  rewrite <- (block_compress _ _ Hb2 eq_refl (compress_ok _ _)), <- (block_compress _ _ Hb1 Hpl Hv).
  rewrite (app_assoc rest), put_bytes_at' by (rewrite length_app; simpl; lia).
  rewrite (drop_ge (drop 1 buf1)), app_nil_r, <- app_assoc by
    (unfold z; rewrite length_drop, length_replicate; lia).
  set (A := rest ++ [128] ++ z) in *. refine (f_equal (sha256_block _) _).
  rewrite <- (app_nil_l A), (put_bytes_at' [] A _ 0), app_nil_l by done.
  rewrite (put_bytes_at' (replicate 56 0)) by (by rewrite length_replicate).
  rewrite (drop_ge (drop _ A)), app_nil_r; [done|].
  rewrite length_drop, length_replicate, be64_length. lia.
Qed.

Lemma finish_spec v rest buf1 len :
  Forall is_u8 rest -> vars_ok v -> len mod 64 = Z.of_nat (length rest) ->
  (length rest + length buf1 = 64)%nat ->
  let p := padding rest len in
  exists k, length p = (64 * k)%nat /\
  finish (fips.words v) (rest ++ buf1) (length rest) len
    = fips.words (foldl fips.compress v (fips.blocks k p)).
Proof.
  intros Hb Hv Hmod Hlen p. destruct (decide (length rest < 56)%nat) as [Hlt|Hge].
  - destruct (finish_short v rest buf1 len) as [-> Hp]; [done..|]. exists 1%nat. split; [done|].
    cbn [fips.blocks foldl]. fold p. by rewrite take_ge by (unfold p; lia).
  - destruct (finish_long v rest buf1 len) as (p1 & p2 & Hp & H1 & H2 & ->); [done..|lia|].
    exists 2%nat. unfold p. rewrite Hp. split; [rewrite length_app; lia|].
    rewrite (blocks_app 1 1) by done. cbn [fips.blocks app foldl]. by rewrite !take_ge by lia.
Qed.

Lemma pad_split m k :
  (64 * k <= length m)%nat ->
  fips.pad m = take (64 * k) m ++ padding (drop (64 * k) m) (Z.of_nat (length m)).
Proof.
  intros Hk. unfold fips.pad, padding, be64. rewrite (app_assoc (take _ _)), take_drop. do 3 f_equal.
  apply list_fmap_ext. intros i s Hs. rewrite Z.shiftr_div_pow2.
  - do 2 f_equal. lia.
  - apply list_elem_of_lookup_2 in Hs. repeat (apply elem_of_cons in Hs as [->|Hs]; [lia|]).
    by apply not_elem_of_nil in Hs.
Qed.

Lemma blocks_prefix k m : (64 * k <= length m)%nat -> fips.blocks k (take (64 * k) m) = fips.blocks k m.
Proof.
  intros Hk. rewrite <- (take_drop (64 * k) m) at 2. rewrite <- (Nat.add_0_r k) at 3.
  rewrite blocks_app by (rewrite length_take; lia). by rewrite app_nil_r.
Qed.

(** ** The digest *)

Lemma sha256_mini_spec fuel buf0 data len :
  Forall is_u8 data -> length buf0 = 64%nat -> 0 <= len < 2 ^ 32 - 64 -> len <= Z.of_nat (length data) ->
  (Z.to_nat (len / 64) < fuel)%nat ->
  sha256_mini fuel buf0 data len = Some (fips.sha256 (take (Z.to_nat len) data)).
Proof.
  intros Hb Hbuf Hlen Hd Hf. unfold sha256_mini.
  pose proof (Z.div_mod len 64 ltac:(lia)) as Hdm. pose proof (Z.mod_pos_bound len 64 ltac:(lia)) as Hmb.
  assert (Hq0 : 0 <= len / 64) by (apply Z.div_pos; lia).
  set (k := Z.to_nat (len / 64)) in *. set (m := take (Z.to_nat len) data).
  assert (Hml : length m = Z.to_nat len) by (unfold m; rewrite length_take; lia).
  rewrite H0_init.
  pose proof (full_blocks_spec data len k fuel 0 fips.init Hb Hlen Hd) as Hfull.
  change (64 * Z.of_nat 0) with 0 in Hfull. rewrite Hfull by (try lia; by_compute). clear Hfull.
  cbn [mbind option_bind]. unfold read_bytes.
  destruct (Z.leb_spec 0 (64 * (len / 64))); [|lia].
  destruct (Z.leb_spec (64 * (len / 64) + (len - 64 * (len / 64))) (Z.of_nat (length data))); [|lia].
  cbn [andb mbind option_bind]. unfold aslice.
  replace (Z.to_nat (64 * (len / 64))) with (64 * k)%nat by lia.
  assert (Hrest : take (Z.to_nat (len - 64 * (len / 64))) (drop (64 * k) data) = drop (64 * k) m).
  { unfold m. rewrite take_drop_commute. do 2 f_equal. lia. }
  rewrite Hrest. set (rest := drop (64 * k) m).
  assert (Hrl : Z.of_nat (length rest) = len mod 64) by (unfold rest; rewrite length_drop; lia).
  replace (Z.to_nat (len - 64 * (len / 64))) with (length rest) by lia.
  unfold put_bytes at 1. rewrite take_0, app_nil_l, Nat.add_0_l.
  set (v := foldl fips.compress fips.init (fips.blocks k (drop (64 * 0) data))).
  destruct (finish_spec v rest (drop (length rest) buf0) len) as (k' & Hpl & ->).
  - unfold rest, m. by apply Forall_drop, Forall_take.
  - apply foldl_compress_ok. by_compute.
  - done.
  - rewrite length_drop. lia.
  - assert (Hpad : fips.pad m = take (64 * k) m ++ padding rest len).
    { rewrite (pad_split m k) by lia. do 2 f_equal. lia. }
    assert (Hv : v = foldl fips.compress fips.init (fips.blocks k (take (64 * k) m))).
    { unfold v, m. rewrite drop_0, take_take. f_equal. rewrite <- (blocks_prefix k data) by lia.
      do 2 f_equal. lia. }
    f_equal. unfold fips.sha256. rewrite Hpad, length_app, Hpl.
    replace (length (take (64 * k) m)) with (64 * k)%nat by (rewrite length_take; lia).
    rewrite <- Nat.mul_add_distr_l, Nat.mul_comm, Nat.div_mul by done.
    rewrite blocks_app, foldl_app, <- Hv by (rewrite length_take; lia).
    f_equal. apply list_fmap_ext. intros i x _. unfold be32. simpl. rewrite !Z.shiftr_div_pow2 by lia.
    by rewrite Z.div_1_r.
Qed.

(** Lengths at the top of the range: the loop condition wraps around and
    holds at every block. *)
Lemma full_blocks_stuck data len fuel pos h :
  2 ^ 32 - 64 <= len < 2 ^ 32 -> is_u32 pos -> pos mod 64 = 0 -> full_blocks fuel data len pos h = None.
Proof.
  intros Hlen. revert pos h. induction fuel as [|fuel IH]; intros pos h Hp Hm; [done|]. cbn [full_blocks].
  assert (Hm' : u32 (pos + 64) mod 64 = 0).
  { unfold u32. rewrite Z.mod_mod_divide by (by exists (2 ^ 26)).
    rewrite <- Zplus_mod_idemp_l, Hm. done. }
  destruct (Z.leb_spec (u32 (pos + 64)) len) as [Hle|Hgt].
  - destruct (read_bytes data pos 64); [|done]. cbn [mbind option_bind]. apply IH; [apply u32_range|done].
  - exfalso. pose proof (u32_range (pos + 64)) as Hr. unfold is_u32 in Hr.
    pose proof (Z.div_mod (u32 (pos + 64)) 64). lia.
Qed.

(** C22. The digest routine computes SHA-256 as FIPS 180-4 defines it, of the
    first [len] bytes of its input, whatever its scratch buffer held before;
    it returns, having read nothing outside the input. The standard's hash is
    defined by its padding rule, its schedule recurrence, its functions on
    words, and its constants, which are computed here from the roots of the
    primes and not taken from the code. For the last 64 values of the 32-bit length the loop condition of
    the code wraps around, and the routine does not return a digest. *)
Theorem sha256_mini_fips fuel buf0 data len :
  Forall is_u8 data -> length buf0 = 64%nat -> 0 <= len < 2 ^ 32 -> len <= Z.of_nat (length data) ->
  (Z.to_nat (len / 64) < fuel)%nat ->
  (len < 2 ^ 32 - 64 -> sha256_mini fuel buf0 data len = Some (fips.sha256 (take (Z.to_nat len) data)))
  /\ (2 ^ 32 - 64 <= len -> sha256_mini fuel buf0 data len = None).
Proof.
  intros Hb Hbuf Hlen Hd Hf. split; intros Hl.
  - apply sha256_mini_spec; try done. lia.
  - unfold sha256_mini.
    assert (full_blocks fuel data len 0 H0 = None) as ->; [|done].
    apply full_blocks_stuck; [lia|unfold is_u32; lia|done].
Qed.

Lemma sha256_mini_fips_witness :
  sha256_mini 1 (replicate 64 7) [97; 98; 99] 3
    = Some [186; 120; 22; 191; 143; 1; 207; 234; 65; 65; 64; 222; 93; 174; 34; 35;
            176; 3; 97; 163; 150; 23; 122; 156; 180; 16; 255; 97; 242; 0; 21; 173].
Proof.
  destruct (sha256_mini_fips 1 (replicate 64 7) [97; 98; 99] 3) as [H _].
  - by repeat constructor.
  - done.
  - done.
  - done.
  - by_compute.
  - rewrite (H eq_refl). vm_compute. reflexivity.
Defined.
