(* ===== verification/Ipc.v ===== *)
(** * Messages and the server loop

    Models include/sel4_msg_types.h (the fixed-size message with its 32-bit
    accessors), include/sel4_ipc.h (its encoding in message registers) and
    include/sel4_server.h (the handler table, the dispatch and the
    receive/reply loop that every service runs). A handler may read the
    message registers directly, so it gets them as [mr]. *)

From S2P Require Import Prelude Bytes.
From stdpp Require Import options.

#[local] Open Scope Z_scope.

(** ** sel4_msg_types.h *)

Definition SEL4_MSG_DATA_BYTES : Z := 48.
Definition SEL4_ERR_OK : Z := 0.
Definition SEL4_ERR_INVALID_OP : Z := 1.
Definition SEL4_ERR_NOT_FOUND : Z := 2.
Definition SEL4_ERR_BAD_ARG : Z := 4.
Definition SEL4_ERR_NO_MEM : Z := 5.

(** [m_data] has 48 bytes. *)
Record sel4_msg := mk_msg { m_opcode : Z; m_length : Z; m_data : list Z }.

Definition msg_u32 (m : sel4_msg) (off : Z) : Z :=
  if SEL4_MSG_DATA_BYTES <? u32 (off + 4) then 0 else le_val (aslice (m_data m) off 4).

Definition rep_u32 (m : sel4_msg) (off v : Z) : sel4_msg :=
  if SEL4_MSG_DATA_BYTES <? u32 (off + 4) then m
  else mk_msg (m_opcode m) (m_length m) (list_inserts (Z.to_nat off) (le_bytes 4 v) (m_data m)).

Definition set_length (n : Z) (m : sel4_msg) : sel4_msg := mk_msg (m_opcode m) n (m_data m).
Definition set_opcode (n : Z) (m : sel4_msg) : sel4_msg := mk_msg n (m_length m) (m_data m).

(** ** sel4_ipc.h, with 64-bit words *)

(** [word |= src[b] << (b * 8)], from bit [sh] on. *)
Fixpoint pack_word (sh : Z) (src : list Z) : Z :=
  match src with [] => 0 | b :: src => Z.lor (Z.shiftl b sh) (pack_word (sh + 8) src) end.

Definition unpack_word (word : Z) : list Z :=
  (fun b => Z.land (Z.shiftr word (b * 8)) 0xFF) <$> [0; 1; 2; 3; 4; 5; 6; 7].

Definition sel4_msg_to_mrs (m : sel4_msg) : list Z :=
  m_opcode m :: m_length m ::
  ((fun w => pack_word 0 (aslice (m_data m) (w * 8) 8)) <$> [0; 1; 2; 3; 4; 5]).

(** [mr i] is message register [i]. *)
Definition sel4_mrs_to_msg (mr : Z -> Z) : sel4_msg :=
  let length := u32 (mr 1) in
  mk_msg (u32 (mr 0)) (if SEL4_MSG_DATA_BYTES <? length then SEL4_MSG_DATA_BYTES else length)
    (concat ((fun w => unpack_word (mr (2 + w))) <$> [0; 1; 2; 3; 4; 5])).

(** ** sel4_server.h *)

Definition SEL4_SERVER_MAX_HANDLERS : Z := 32.
Definition SEL4_SERVER_OPCODE_ANY : Z := 0xFFFFFFFF.

(** A handler with its context, on the state [S] of the service: from the
    message registers, the badge, the request and the reply to fill, it makes
    the status and the reply. *)
Definition sel4_handler_fn (S : Type) : Type :=
  (Z -> Z) -> Z -> sel4_msg -> sel4_msg -> prog S (Z * sel4_msg).

(** The registered handlers, in order. *)
Definition sel4_server (S : Type) : Type := list (Z * sel4_handler_fn S).

Definition sel4_server_init {S} : sel4_server S := [].

Definition sel4_server_register {S} (srv : sel4_server S) (opcode : Z) (fn : sel4_handler_fn S) :
    Z * sel4_server S :=
  if SEL4_SERVER_MAX_HANDLERS <=? Z.of_nat (length srv) then (-1, srv) else (0, srv ++ [(opcode, fn)]).

(** The scan of the table: the first exact match, or else the first wildcard,
    [any] being the one seen so far. *)
Fixpoint find_handler {S} (srv : sel4_server S) (opcode : Z) (any : option (sel4_handler_fn S)) :
    option (sel4_handler_fn S) :=
  match srv with
  | [] => any
  | (op, fn) :: srv =>
      if op =? SEL4_SERVER_OPCODE_ANY
      then find_handler srv opcode (match any with None => Some fn | Some _ => any end)
      else if op =? opcode then Some fn
      else find_handler srv opcode any
  end.

Definition sel4_server_dispatch {S} (srv : sel4_server S) : sel4_handler_fn S := fun mr badge req rep =>
  match find_handler srv (m_opcode req) None with
  | Some fn => '(rc, rep) ← fn mr badge req rep; mret (rc, set_opcode rc rep)
  | None => mret (SEL4_ERR_INVALID_OP, mk_msg SEL4_ERR_INVALID_OP 0 (m_data rep))
  end.

(** One round of the loop of [sel4_server_run]: a message with registers [mr]
    and badge [badge] has arrived, the reply is what the last round left, and
    the result is the reply that the next round sends. *)
Definition sel4_server_round {S} (srv : sel4_server S) (mr : Z -> Z) (badge : Z) (rep : sel4_msg) :
    prog S sel4_msg :=
  let req := sel4_mrs_to_msg mr in
  '(_, rep) ← sel4_server_dispatch srv mr badge req (mk_msg 0 0 (m_data rep));
  mret rep.

(** The loop on a sequence of arrivals: the replies, in order. *)
Fixpoint sel4_server_run {S} (srv : sel4_server S) (arrivals : list ((Z -> Z) * Z)) (rep : sel4_msg) :
    prog S (list sel4_msg) :=
  match arrivals with
  | [] => mret []
  | (mr, badge) :: arrivals =>
      rep ← sel4_server_round srv mr badge rep;
      reps ← sel4_server_run srv arrivals rep;
      mret (rep :: reps)
  end.

(** ** Bytes and words *)

Record msg_wf (m : sel4_msg) : Prop := {
  mw_opcode : is_u32 (m_opcode m);
  mw_length : is_u32 (m_length m);
  mw_data : length (m_data m) = 48%nat;
  mw_bytes : Forall is_u8 (m_data m) }.

(** Packing with shifts is the little-endian value. *)
Lemma pack_word_val sh src :
  Forall is_u8 src -> 0 <= sh -> pack_word sh src = le_val src * 2 ^ sh.
Proof.
  intros Hs. revert sh. induction Hs as [|b bs Hb Hs IH]; intros sh Hsh; [done|]. cbn [pack_word le_val].
  rewrite IH, Z.shiftl_mul_pow2 by lia. unfold is_u8 in Hb.
  assert (Hz : Z.land (b * 2 ^ sh) (le_val bs * 2 ^ (sh + 8)) = 0).
  { apply Z.bits_inj'. intros i Hi. rewrite Z.land_spec, Z.bits_0. destruct (Z.ltb_spec i (sh + 8)).
    - rewrite (Z.mul_pow2_bits_low _ (sh + 8)) by done. apply andb_false_r.
    - rewrite Z.mul_pow2_bits by done. replace b with (b mod 2 ^ 8) by (apply Z.mod_small; lia).
      rewrite Z.mod_pow2_bits_high by lia. done. }
  rewrite <- Z.lxor_lor, <- Z.add_nocarry_lxor by done. rewrite Z.pow_add_r by lia. lia.
Qed.

Lemma unpack_word_bytes word : unpack_word word = le_bytes 8 word.
Proof.
  unfold unpack_word. cbn [fmap list_fmap le_bytes]. change 0xFF with (Z.ones 8).
  rewrite !Z.land_ones, !Z.shiftr_div_pow2 by lia. change (2 ^ 8) with 256. rewrite !Z.div_div by lia.
  by rewrite Z.div_1_r.
Qed.

Lemma unpack_pack src : Forall is_u8 src -> length src = 8%nat -> unpack_word (pack_word 0 src) = src.
Proof.
  intros Hs Hl. rewrite unpack_word_bytes, pack_word_val, Z.mul_1_r by done. rewrite <- Hl. by apply le_bytes_val.
Qed.

(** ** Accessors *)

Lemma msg_u32_same m off v :
  length (m_data m) = 48%nat -> 0 <= off <= 44 -> msg_u32 (rep_u32 m off v) off = u32 v.
Proof.
  intros Hl Ho. unfold msg_u32, rep_u32, SEL4_MSG_DATA_BYTES. rewrite u32_small by (unfold is_u32; lia).
  destruct (Z.ltb_spec 48 (off + 4)); [lia|]. cbn [m_data].
  rewrite aslice_inserts by (rewrite ?length_le_bytes; lia). by rewrite le_val_bytes.
Qed.

Lemma msg_u32_other m off off' v :
  0 <= off <= 44 -> 0 <= off' <= 44 -> off + 4 <= off' \/ off' + 4 <= off ->
  msg_u32 (rep_u32 m off v) off' = msg_u32 m off'.
Proof.
  intros Ho Ho' Hd. unfold msg_u32, rep_u32, SEL4_MSG_DATA_BYTES. rewrite !u32_small by (unfold is_u32; lia).
  destruct (Z.ltb_spec 48 (off' + 4)); [done|]. destruct (Z.ltb_spec 48 (off + 4)); [done|]. cbn [m_data].
  rewrite aslice_inserts_ne; [done|lia|lia|]. rewrite length_le_bytes. lia.
Qed.

(** ** Replies made of words *)

(** [rep_u32(rep, off, w0); rep_u32(rep, off + 4, w1); ...] *)
Fixpoint rep_words (off : Z) (ws : list Z) (m : sel4_msg) : sel4_msg :=
  match ws with [] => m | w :: ws => rep_words (off + 4) ws (rep_u32 m off w) end.

(** The words and then [rep->length = 4 * n]. *)
Definition reply (ws : list Z) (m : sel4_msg) : sel4_msg :=
  set_length (4 * Z.of_nat (length ws)) (rep_words 0 ws m).

Definition word_bytes (ws : list Z) : list Z := concat (le_bytes 4 <$> ws).

Lemma length_word_bytes ws : length (word_bytes ws) = (4 * length ws)%nat.
Proof.
  unfold word_bytes. induction ws as [|w ws IH]; [done|]. cbn [fmap list_fmap concat length].
  rewrite length_app, length_le_bytes, IH. lia.
Qed.

Lemma list_inserts_split {A} (pre k : list A) l :
  (length l <= length k)%nat -> list_inserts (length pre) l (pre ++ k) = pre ++ l ++ drop (length l) k.
Proof.
  revert pre k. induction l as [|x l IH]; intros pre k Hlen; [by rewrite drop_0|]. cbn [list_inserts].
  destruct k as [|y k]; [simpl in Hlen; lia|]. specialize (IH (pre ++ [y]) k). rewrite length_app in IH.
  simpl length in IH. rewrite Nat.add_1_r, <- !app_assoc in IH. cbn [app] in IH.
  rewrite IH by (simpl in Hlen; lia). change (drop (length (x :: l)) (y :: k)) with (drop (length l) k).
  by rewrite insert_app_r_alt, Nat.sub_diag by lia.
Qed.

Lemma rep_words_spec ws pre k m :
  m_data m = pre ++ k -> length (m_data m) = 48%nat -> (4 * length ws <= length k)%nat ->
  rep_words (Z.of_nat (length pre)) ws m
    = mk_msg (m_opcode m) (m_length m) (pre ++ word_bytes ws ++ drop (4 * length ws) k).
Proof.
  revert pre k m. induction ws as [|w ws IH]; intros pre k m Hd Hl Hws; cbn [rep_words].
  { destruct m. simpl in *. by rewrite Hd, drop_0. }
  rewrite Hd, length_app in Hl. cbn [length] in Hws.
  assert (Hone : rep_u32 m (Z.of_nat (length pre)) w
    = mk_msg (m_opcode m) (m_length m) ((pre ++ le_bytes 4 w) ++ drop 4 k)).
  { unfold rep_u32, SEL4_MSG_DATA_BYTES. rewrite u32_small by (unfold is_u32; lia).
    destruct (Z.ltb_spec 48 (Z.of_nat (length pre) + 4)); [lia|]. f_equal.
    rewrite Nat2Z.id, Hd, list_inserts_split by (rewrite length_le_bytes; lia).
    by rewrite length_le_bytes, app_assoc. }
  replace (Z.of_nat (length pre) + 4) with (Z.of_nat (length (pre ++ le_bytes 4 w)))
    by (rewrite length_app, length_le_bytes; lia).
  rewrite Hone, (IH _ (drop 4 k)); cbn [m_opcode m_length m_data]; [|done| |rewrite length_drop; lia].
  - unfold word_bytes. cbn [fmap list_fmap concat]. rewrite <- !app_assoc, drop_drop. do 5 f_equal. cbn [length]. lia.
  - rewrite !length_app, length_drop, length_le_bytes. lia.
Qed.

(** A reply holds its words, and after them whatever was there before. *)
Lemma reply_spec ws m :
  length (m_data m) = 48%nat -> (length ws <= 12)%nat ->
  reply ws m = mk_msg (m_opcode m) (4 * Z.of_nat (length ws)) (word_bytes ws ++ drop (4 * length ws) (m_data m)).
Proof.
  intros Hl Hws. unfold reply. change 0 with (Z.of_nat (length (@nil Z))).
  rewrite (rep_words_spec ws [] (m_data m)) by (done || lia). done.
Qed.

(** ** The registers carry the message *)

Lemma aslice_u8 l i n : Forall is_u8 l -> Forall is_u8 (aslice l i n).
Proof. intros. by apply Forall_take, Forall_drop. Qed.

(** The 48 bytes are their six groups of eight. *)
Lemma data_words (data : list Z) :
  length data = 48%nat ->
  concat ((fun w => aslice data (w * 8) 8) <$> [0; 1; 2; 3; 4; 5]) = data.
Proof.
  intros Hl. do 49 (destruct data as [|? data]; [done|]). done.
Qed.

Lemma mrs_roundtrip m :
  msg_wf m ->
  sel4_mrs_to_msg (fun i => sel4_msg_to_mrs m !!! Z.to_nat i)
    = mk_msg (m_opcode m) (Z.min 48 (m_length m)) (m_data m).
Proof.
  intros [Ho Hn Hl Hb]. unfold sel4_mrs_to_msg, SEL4_MSG_DATA_BYTES. f_equal.
  - by rewrite u32_small.
  - change (sel4_msg_to_mrs m !!! Z.to_nat 1) with (m_length m). rewrite u32_small by done.
    case_cmp; lia.
  - etrans; [|exact (data_words (m_data m) Hl)]. f_equal. apply list_fmap_ext. intros i w Hw.
    assert (sel4_msg_to_mrs m !!! Z.to_nat (2 + w) = pack_word 0 (aslice (m_data m) (w * 8) 8)) as ->
      by (do 6 (destruct i as [|i]; [by injection Hw as <-|]); done).
    apply unpack_pack; [by apply aslice_u8|].
    assert (0 <= w <= 5) by (do 6 (destruct i as [|i]; [injection Hw as <-; lia|]); done).
    rewrite length_aslice by lia. done.
Qed.

(** Messages survive the trip through the message registers, and words
    survive in messages. A well-formed message that is packed into registers
    and unpacked by the receiver arrives as it was, its length clamped to the
    payload; and a word written at an offset inside the payload reads back,
    reduced to 32 bits, leaving every word that does not overlap it alone. *)
Theorem ipc_roundtrip m off off' v :
  msg_wf m -> 0 <= off <= 44 -> 0 <= off' <= 44 -> off + 4 <= off' \/ off' + 4 <= off ->
  sel4_mrs_to_msg (fun i => sel4_msg_to_mrs m !!! Z.to_nat i)
    = mk_msg (m_opcode m) (Z.min 48 (m_length m)) (m_data m)
  /\ msg_u32 (rep_u32 m off v) off = u32 v
  /\ msg_u32 (rep_u32 m off v) off' = msg_u32 m off'.
Proof.
  intros Hwf Ho Ho' Hd. split_and!.
  - by apply mrs_roundtrip.
  - apply msg_u32_same; [apply Hwf|done].
  - by apply msg_u32_other.
Qed.

Lemma ipc_roundtrip_witness :
  let m := mk_msg 7 60 (replicate 48 1) in
  sel4_mrs_to_msg (fun i => sel4_msg_to_mrs m !!! Z.to_nat i) = mk_msg 7 48 (replicate 48 1) /\
  msg_u32 (rep_u32 m 4 0x1234567890) 4 = 0x34567890.
Proof.
  intros m. destruct (ipc_roundtrip m 4 8 0x1234567890) as (H1 & H2 & _).
  - split; [by_compute|by_compute|done|apply Forall_replicate; by_compute].
  - lia.
  - lia.
  - lia.
  - split; [exact H1|exact H2].
Defined.
