(* ===== verification/Nameserver.v ===== *)
(** * The name server

    Models services/nameserver/nameserver.c and include/nameserver.h: the
    table of services, every operation on it, and the dispatch of a request.
    What it writes to the debug log is not modelled. The table refines a
    finite map from names to services. *)

From S2P Require Import Prelude Ipc.
From stdpp Require Import options.

#[local] Open Scope Z_scope.

(** ** nameserver.h *)

Definition NS_NAME_MAX : nat := 32.
Definition NS_MAX_ENTRIES : nat := 64.
Definition NS_STATUS_UNKNOWN : Z := 0.
Definition OP_NS_REGISTER : Z := 0xD0.
Definition OP_NS_LOOKUP : Z := 0xD1.
Definition OP_NS_UPDATE_STATUS : Z := 0xD2.
Definition OP_NS_LIST : Z := 0xD3.
Definition OP_NS_DEREGISTER : Z := 0xD4.
Definition OP_NS_HEALTH : Z := 0xD5.
Definition OP_NS_LOOKUP_GATED : Z := 0xD6.
Definition NS_OK : Z := 0.
Definition NS_ERR_FULL : Z := 1.
Definition NS_ERR_NOT_FOUND : Z := 2.
Definition NS_ERR_DUPLICATE : Z := 3.
Definition NS_ERR_UNKNOWN_OP : Z := 4.
Definition NS_ERR_BAD_ARGS : Z := 5.
Definition NS_ERR_FORBIDDEN : Z := 6.
Definition NS_VERSION : Z := 1.
Definition NS_LIST_MAGIC : Z := 0x4E534C53.

Record ns_entry := mk_entry {
  e_active : bool; e_name : list Z; e_channel_id : Z; e_pd_id : Z; e_cap_classes : Z;
  e_version : Z; e_status : Z; e_registered_at : Z }.

Record ns_list_entry := mk_list_entry {
  l_name : list Z; l_channel_id : Z; l_pd_id : Z; l_cap_classes : Z; l_version : Z;
  l_status : Z; l_flags : Z; l_pad : list Z; l_registered_at : Z }.

(** [h_entries] is the flexible array, as long as the mapped region allows:
    127 entries in 8 KiB. *)
Record ns_list_header := mk_list_header {
  h_magic : Z; h_count : Z; h_pad : list Z; h_entries : list ns_list_entry }.

(** The globals; [shmem] is [None] when the region is not mapped. *)
Record ns_state := mk_ns {
  registry : list ns_entry; reg_count : Z; boot_tick : Z; shmem : option ns_list_header }.

(** ** Strings *)

Definition ns_strlen (s : list Z) : Z := Z.of_nat (length (c_string (take NS_NAME_MAX s))).

Fixpoint strcmp_from (n : nat) (a b : list Z) : Z :=
  match n, a, b with
  | S n, x :: a, y :: b => if negb (x =? y) then x - y else if x =? 0 then 0 else strcmp_from n a b
  | _, _, _ => 0
  end.

Definition ns_strcmp (a b : list Z) : Z := strcmp_from NS_NAME_MAX a b.

(** The first 31 bytes and a terminator. *)
Definition ns_copy_name_from_data (req : sel4_msg) (off : nat) : list Z :=
  ((fun i => if (off + i <? 48)%nat then m_data req !!! (off + i)%nat else 0) <$> seq 0 31) ++ [0].

Definition ns_unpack_name (mr : Z -> Z) (mr_start : Z) : list Z :=
  take 31 (concat ((fun w => unpack_word (mr (mr_start + w))) <$> [0; 1; 2; 3])) ++ [0].

Definition ns_read_name (mr : Z -> Z) (req : sel4_msg) (raw_off legacy_off : nat) (legacy_mr_start : Z) : list Z :=
  if negb (m_opcode req =? 0) then ns_copy_name_from_data req raw_off
  else
    let name := ns_copy_name_from_data req legacy_off in
    if ns_strlen name =? 0 then ns_unpack_name mr legacy_mr_start else name.

Definition ns_req_op (req : sel4_msg) : Z := if negb (m_opcode req =? 0) then m_opcode req else msg_u32 req 0.

Definition ns_req_u32 (req : sel4_msg) (raw_off legacy_off : Z) : Z :=
  msg_u32 req (if negb (m_opcode req =? 0) then raw_off else legacy_off).

(** ** The registry *)

(** The loop [for (i = 0; i < NS_MAX_ENTRIES; i++) if (p) return i; return -1]. *)
Fixpoint find_slot (p : ns_entry -> bool) (i : Z) (l : list ns_entry) : Z :=
  match l with
  | [] => -1
  | e :: l => if p e then i else find_slot p (i + 1) l
  end.

Definition registry_find_by_name (st : ns_state) (name : list Z) : Z :=
  find_slot (fun e => e_active e && (ns_strcmp (e_name e) name =? 0)) 0 (registry st).

Definition registry_find_by_channel (st : ns_state) (channel_id : Z) : Z :=
  find_slot (fun e => e_active e && (e_channel_id e =? channel_id)) 0 (registry st).

Definition registry_alloc (st : ns_state) : Z := find_slot (fun e => negb (e_active e)) 0 (registry st).

Definition set_registry (l : list ns_entry) (st : ns_state) : ns_state :=
  mk_ns l (reg_count st) (boot_tick st) (shmem st).
Definition set_reg_count (n : Z) (st : ns_state) : ns_state :=
  mk_ns (registry st) n (boot_tick st) (shmem st).
Definition set_boot_tick (n : Z) (st : ns_state) : ns_state :=
  mk_ns (registry st) (reg_count st) n (shmem st).
Definition set_shmem (h : ns_list_header) (st : ns_state) : ns_state :=
  mk_ns (registry st) (reg_count st) (boot_tick st) (Some h).

(** ** Operations; each fills the reply and returns [SEL4_ERR_OK]. *)

Definition answer (ws : list Z) (rep : sel4_msg) : prog ns_state (Z * sel4_msg) :=
  mret (SEL4_ERR_OK, reply ws rep).

(** [&registry[slot]] read and written. *)
Definition get_slot (slot : Z) : prog ns_state ns_entry :=
  st ← get_state; lift (aget (registry st) slot).
Definition put_slot (slot : Z) (e : ns_entry) : prog ns_state unit :=
  st ← get_state; l ← lift (aset (registry st) slot e); put_state (set_registry l st).

Definition handle_register (mr : Z -> Z) (req rep : sel4_msg) : prog ns_state (Z * sel4_msg) :=
  let channel_id := ns_req_u32 req 0 4 in
  let pd_id := ns_req_u32 req 4 8 in
  let cap_classes := ns_req_u32 req 8 12 in
  let version := ns_req_u32 req 12 16 in
  let name := ns_read_name mr req 16 20 5 in
  if ns_strlen name =? 0 then answer [NS_ERR_BAD_ARGS] rep else
  st ← get_state;
  if 0 <=? registry_find_by_name st name then answer [NS_ERR_DUPLICATE] rep else
  let slot := registry_alloc st in
  if slot <? 0 then answer [NS_ERR_FULL] rep else
  let tick := u64 (boot_tick st + 1) in
  modify (set_boot_tick tick);;
  put_slot slot (mk_entry true name channel_id pd_id cap_classes version NS_STATUS_UNKNOWN tick);;
  modify (fun st => set_reg_count (u32 (reg_count st + 1)) st);;
  answer [NS_OK] rep.

Definition lookup_reply (e : ns_entry) : list Z :=
  [NS_OK; e_channel_id e; e_pd_id e; e_status e; e_cap_classes e; e_version e].

Definition handle_lookup (mr : Z -> Z) (req rep : sel4_msg) : prog ns_state (Z * sel4_msg) :=
  let name := ns_read_name mr req 0 4 1 in
  if ns_strlen name =? 0 then answer [NS_ERR_BAD_ARGS] rep else
  st ← get_state;
  let slot := registry_find_by_name st name in
  if slot <? 0 then answer [NS_ERR_NOT_FOUND] rep else
  e ← get_slot slot;
  answer (lookup_reply e) rep.

Definition set_status (s : Z) (e : ns_entry) : ns_entry :=
  mk_entry (e_active e) (e_name e) (e_channel_id e) (e_pd_id e) (e_cap_classes e) (e_version e) s
    (e_registered_at e).
Definition set_inactive (e : ns_entry) : ns_entry :=
  mk_entry false (e_name e) (e_channel_id e) (e_pd_id e) (e_cap_classes e) (e_version e) (e_status e)
    (e_registered_at e).

Definition handle_update_status (req rep : sel4_msg) : prog ns_state (Z * sel4_msg) :=
  let channel_id := ns_req_u32 req 0 4 in
  let new_status := u8 (ns_req_u32 req 4 8) in
  st ← get_state;
  let slot := registry_find_by_channel st channel_id in
  if slot <? 0 then answer [NS_ERR_NOT_FOUND] rep else
  e ← get_slot slot;
  put_slot slot (set_status new_status e);;
  answer [NS_OK] rep.

Definition list_entry (e : ns_entry) : ns_list_entry :=
  mk_list_entry (e_name e) (e_channel_id e) (e_pd_id e) (e_cap_classes e) (e_version e) (e_status e)
    0 (replicate 6 0) (e_registered_at e).

(** The dump loop over the remaining slots: how many entries were written,
    and the entries of the page. *)
Fixpoint dump (l : list ns_entry) (count written : Z) (out : list ns_list_entry) :
    option (Z * list ns_list_entry) :=
  match l with
  | [] => Some (written, out)
  | e :: l =>
      if negb (written <? count) then Some (written, out)
      else if negb (e_active e) then dump l count written out
      else out' ← aset out written (list_entry e); dump l count (written + 1) out'
  end.

Definition handle_list (rep : sel4_msg) : prog ns_state (Z * sel4_msg) :=
  st ← get_state;
  match shmem st with
  | None => answer [NS_OK; reg_count st] rep
  | Some h =>
      '(written, out) ← lift (dump (registry st) (reg_count st) 0 (h_entries h));
      modify (set_shmem (mk_list_header NS_LIST_MAGIC written (replicate 8 0) out));;
      answer [NS_OK; written] rep
  end.

Definition handle_deregister (req rep : sel4_msg) : prog ns_state (Z * sel4_msg) :=
  let channel_id := ns_req_u32 req 0 4 in
  st ← get_state;
  let slot := registry_find_by_channel st channel_id in
  if slot <? 0 then answer [NS_ERR_NOT_FOUND] rep else
  e ← get_slot slot;
  put_slot slot (set_inactive e);;
  modify (fun st => set_reg_count (u32 (reg_count st - 1)) st);;
  answer [NS_OK] rep.

Definition handle_health (rep : sel4_msg) : prog ns_state (Z * sel4_msg) :=
  st ← get_state; answer [NS_OK; reg_count st; NS_VERSION] rep.

Definition handle_lookup_gated (mr : Z -> Z) (badge : Z) (req rep : sel4_msg) : prog ns_state (Z * sel4_msg) :=
  let allowed_cats := u16 (Z.shiftr badge 16) in
  let name := ns_read_name mr req 0 4 1 in
  if ns_strlen name =? 0 then answer [NS_ERR_BAD_ARGS] rep else
  st ← get_state;
  let slot := registry_find_by_name st name in
  if slot <? 0 then answer [NS_ERR_NOT_FOUND] rep else
  e ← get_slot slot;
  if (allowed_cats =? 0) || (Z.land (e_cap_classes e) allowed_cats =? 0)
  then answer [NS_ERR_FORBIDDEN] rep
  else answer (lookup_reply e) rep.

Definition nameserver_pd_init (st : ns_state) : ns_state :=
  mk_ns (set_inactive <$> registry st) 0 0 (shmem st).

Definition nameserver_h_dispatch : sel4_handler_fn ns_state := fun mr b req rep =>
  let op := ns_req_op req in
  if op =? OP_NS_REGISTER then handle_register mr req rep
  else if op =? OP_NS_LOOKUP then handle_lookup mr req rep
  else if op =? OP_NS_UPDATE_STATUS then handle_update_status req rep
  else if op =? OP_NS_LIST then handle_list rep
  else if op =? OP_NS_DEREGISTER then handle_deregister req rep
  else if op =? OP_NS_HEALTH then handle_health rep
  else if op =? OP_NS_LOOKUP_GATED then handle_lookup_gated mr (u32 b) req rep
  else answer [NS_ERR_UNKNOWN_OP] rep.

(** [nameserver_main], on the messages that arrive: the replies it sends. *)
Definition nameserver_main (arrivals : list ((Z -> Z) * Z)) : prog ns_state (list sel4_msg) :=
  modify nameserver_pd_init;;
  let srv := (sel4_server_register sel4_server_init SEL4_SERVER_OPCODE_ANY nameserver_h_dispatch).2 in
  sel4_server_run srv arrivals (mk_msg 0 0 (replicate 48 0)).

(** ** What it promises

    A directory from names to services, the number of registrations so far,
    and the directory at the last listing. *)

Record svc := mk_svc {
  s_channel : Z; s_pd : Z; s_caps : Z; s_version : Z; s_status : Z; s_since : Z }.

Record directory := mk_dir {
  d_services : gmap (list Z) svc; d_ticks : Z; d_listed : option (gmap (list Z) svc) }.

Inductive request :=
  | Register (name : list Z) (channel pd caps version : Z)
  | Lookup (name : list Z)
  | UpdateStatus (channel status : Z)
  | ListAll
  | Deregister (channel : Z)
  | Health
  | LookupGated (cats : Z) (name : list Z)
  | Unknown.

(** The request that a message makes. *)
Definition decode (mr : Z -> Z) (badge : Z) : request :=
  let req := sel4_mrs_to_msg mr in
  let op := ns_req_op req in
  let asked_name := c_string (ns_read_name mr req 0 4 1) in
  if op =? OP_NS_REGISTER then
    Register (c_string (ns_read_name mr req 16 20 5)) (ns_req_u32 req 0 4) (ns_req_u32 req 4 8)
      (ns_req_u32 req 8 12) (ns_req_u32 req 12 16)
  else if op =? OP_NS_LOOKUP then Lookup asked_name
  else if op =? OP_NS_UPDATE_STATUS then UpdateStatus (ns_req_u32 req 0 4) (u8 (ns_req_u32 req 4 8))
  else if op =? OP_NS_LIST then ListAll
  else if op =? OP_NS_DEREGISTER then Deregister (ns_req_u32 req 0 4)
  else if op =? OP_NS_HEALTH then Health
  else if op =? OP_NS_LOOKUP_GATED then LookupGated (u16 (Z.shiftr (u32 badge) 16)) asked_name
  else Unknown.

Definition with_services (d : directory) (m : gmap (list Z) svc) : directory :=
  mk_dir m (d_ticks d) (d_listed d).
Definition with_status (s : svc) (status : Z) : svc :=
  mk_svc (s_channel s) (s_pd s) (s_caps s) (s_version s) status (s_since s).
Definition found (s : svc) : list Z := [NS_OK; s_channel s; s_pd s; s_status s; s_caps s; s_version s].
Definition count (m : gmap (list Z) svc) : Z := Z.of_nat (size m).
Definition absent (d : directory) (channel : Z) : Prop :=
  forall k s, d_services d !! k = Some s -> s_channel s <> channel.

(** One request: the words of the answer and the directory after it. An
    update or a removal by channel acts on one service with that channel. *)
Inductive step (d : directory) : request -> list Z -> directory -> Prop :=
  | step_register_empty ch pd caps ver : step d (Register [] ch pd caps ver) [NS_ERR_BAD_ARGS] d
  | step_register_dup k s ch pd caps ver :
      k <> [] -> d_services d !! k = Some s -> step d (Register k ch pd caps ver) [NS_ERR_DUPLICATE] d
  | step_register_full k ch pd caps ver :
      k <> [] -> d_services d !! k = None -> size (d_services d) = NS_MAX_ENTRIES ->
      step d (Register k ch pd caps ver) [NS_ERR_FULL] d
  | step_register k ch pd caps ver :
      k <> [] -> d_services d !! k = None -> (size (d_services d) < NS_MAX_ENTRIES)%nat ->
      let t := u64 (d_ticks d + 1) in
      step d (Register k ch pd caps ver) [NS_OK]
        (mk_dir (<[k := mk_svc ch pd caps ver NS_STATUS_UNKNOWN t]> (d_services d)) t (d_listed d))
  | step_lookup_empty : step d (Lookup []) [NS_ERR_BAD_ARGS] d
  | step_lookup_none k : k <> [] -> d_services d !! k = None -> step d (Lookup k) [NS_ERR_NOT_FOUND] d
  | step_lookup k s : k <> [] -> d_services d !! k = Some s -> step d (Lookup k) (found s) d
  | step_update_none ch st : absent d ch -> step d (UpdateStatus ch st) [NS_ERR_NOT_FOUND] d
  | step_update k s st :
      d_services d !! k = Some s ->
      step d (UpdateStatus (s_channel s) st) [NS_OK]
        (with_services d (<[k := with_status s st]> (d_services d)))
  | step_list :
      step d ListAll [NS_OK; count (d_services d)]
        (mk_dir (d_services d) (d_ticks d) (Some (d_services d)))
  | step_deregister_none ch : absent d ch -> step d (Deregister ch) [NS_ERR_NOT_FOUND] d
  | step_deregister k s :
      d_services d !! k = Some s ->
      step d (Deregister (s_channel s)) [NS_OK] (with_services d (delete k (d_services d)))
  | step_health : step d Health [NS_OK; count (d_services d); NS_VERSION] d
  | step_gated_empty cats : step d (LookupGated cats []) [NS_ERR_BAD_ARGS] d
  | step_gated_none cats k :
      k <> [] -> d_services d !! k = None -> step d (LookupGated cats k) [NS_ERR_NOT_FOUND] d
  | step_gated_forbidden cats k s :
      k <> [] -> d_services d !! k = Some s -> Z.land (s_caps s) cats = 0 ->
      step d (LookupGated cats k) [NS_ERR_FORBIDDEN] d
  | step_gated cats k s :
      k <> [] -> d_services d !! k = Some s -> Z.land (s_caps s) cats <> 0 ->
      step d (LookupGated cats k) (found s) d
  | step_unknown : step d Unknown [NS_ERR_UNKNOWN_OP] d.

Inductive steps : directory -> list request -> list (list Z) -> directory -> Prop :=
  | steps_nil d : steps d [] [] d
  | steps_cons d r ws d' rs wss d'' :
      step d r ws d' -> steps d' rs wss d'' -> steps d (r :: rs) (ws :: wss) d''.

(** The messages that carry the answers: the payload of a message beyond its
    words is that of the message before it. *)
Fixpoint framed (data : list Z) (wss : list (list Z)) : list sel4_msg :=
  match wss with
  | [] => []
  | ws :: wss =>
      let data' := word_bytes ws ++ drop (4 * length ws) data in
      mk_msg SEL4_ERR_OK (4 * Z.of_nat (length ws)) data' :: framed data' wss
  end.

(** ** The table as a directory *)

Definition svc_of (e : ns_entry) : svc :=
  mk_svc (e_channel_id e) (e_pd_id e) (e_cap_classes e) (e_version e) (e_status e) (e_registered_at e).
Definition slot_of (e : ns_entry) : list (list Z * svc) :=
  if e_active e then [(c_string (e_name e), svc_of e)] else [].
Definition actives (l : list ns_entry) : list (list Z * svc) := l ≫= slot_of.

(** A 32-byte name with a terminator. *)
Definition name_ok (name : list Z) : Prop := length name = NS_NAME_MAX /\ last name = Some 0.

(** What the page shows. *)
Definition shown (e : ns_list_entry) : list Z * svc :=
  (c_string (l_name e),
   mk_svc (l_channel_id e) (l_pd_id e) (l_cap_classes e) (l_version e) (l_status e) (l_registered_at e)).

Definition page_ok (d : directory) (h : ns_list_header) : Prop :=
  (NS_MAX_ENTRIES <= length (h_entries h))%nat /\
  forall m, d_listed d = Some m ->
    h_magic h = NS_LIST_MAGIC /\ h_count h = count m /\
    shown <$> take (size m) (h_entries h) ≡ₚ map_to_list m.

Record refines (st : ns_state) (d : directory) : Prop := {
  rf_len : length (registry st) = NS_MAX_ENTRIES;
  rf_services : actives (registry st) ≡ₚ map_to_list (d_services d);
  rf_names : Forall (fun e => e_active e = true -> name_ok (e_name e)) (registry st);
  rf_count : reg_count st = count (d_services d);
  rf_tick : boot_tick st = d_ticks d;
  rf_page : forall h, shmem st = Some h -> page_ok d h }.

(** ** Names *)

Lemma strlen_zero name : name_ok name -> (ns_strlen name =? 0) = bool_decide (c_string name = []).
Proof.
  intros [Hl _]. unfold ns_strlen. rewrite <- Hl, firstn_all. destruct (c_string name); done.
Qed.

Lemma strcmp_from_eq n a b :
  length a = n -> length b = n -> last a = Some 0 -> last b = Some 0 ->
  strcmp_from n a b = 0 <-> c_string a = c_string b.
Proof.
  revert a b. induction n as [|n IH]; intros a b Ha Hb Hla Hlb; [by destruct a|].
  destruct a as [|x a]; [done|]. destruct b as [|y b]; [done|]. cbn [strcmp_from c_string].
  destruct (Z.eqb_spec x y) as [->|Hne]; cbn [negb].
  - destruct (Z.eqb_spec y 0); [done|].
    assert (Hl : forall l, last (y :: l) = Some 0 -> last l = Some 0)
      by (intros [|z l]; [intros [= ->]; done|done]).
    rewrite (IH a b) by (simpl in Ha, Hb; auto with lia). split; [by intros ->|by intros [= ->]].
  - destruct (Z.eqb_spec x 0), (Z.eqb_spec y 0); split; try lia; congruence.
Qed.

Lemma strcmp_eq a b : name_ok a -> name_ok b -> ns_strcmp a b = 0 <-> c_string a = c_string b.
Proof. intros [? ?] [? ?]. by apply strcmp_from_eq. Qed.

Lemma read_name_ok mr req raw legacy start : name_ok (ns_read_name mr req raw legacy start).
Proof.
  assert (forall off, name_ok (ns_copy_name_from_data req off)) as Hcopy.
  { intros off. unfold ns_copy_name_from_data. split; [|apply last_snoc].
    by rewrite length_app, length_fmap, length_seq. }
  unfold ns_read_name. repeat case_cmp; try apply Hcopy. split; [done|apply last_snoc].
Qed.

(** ** Slots *)

Lemma find_slot_spec p i l :
  (find_slot p i l = -1 /\ Forall (fun e => p e = false) l) \/
  exists k e, find_slot p i l = i + Z.of_nat k /\ l !! k = Some e /\ p e = true.
Proof.
  revert i. induction l as [|e l IH]; intros i; [by left|]. cbn [find_slot].
  destruct (p e) eqn:Hp.
  - right. exists O, e. split_and!; [lia|done..].
  - destruct (IH (i + 1)) as [[Hf Hl]|(k & e' & Hf & Hk & He)]; [left; by auto|].
    right. exists (S k), e'. split_and!; [lia|done..].
Qed.

Lemma elem_actives k s l :
  (k, s) ∈ actives l <-> exists e, e ∈ l /\ e_active e = true /\ k = c_string (e_name e) /\ s = svc_of e.
Proof.
  unfold actives. rewrite list_elem_of_bind. unfold slot_of. split.
  - intros (e & Hs & He). destruct (e_active e) eqn:Ha; [|by apply not_elem_of_nil in Hs].
    apply list_elem_of_singleton in Hs. injection Hs as -> ->. eauto.
  - intros (e & He & Ha & -> & ->). exists e. rewrite Ha. split; [by apply list_elem_of_singleton|done].
Qed.

(** Replacing an entry exchanges what it contributes. *)
Lemma actives_insert l i e e' :
  l !! i = Some e -> slot_of e ++ actives (<[i := e']> l) ≡ₚ slot_of e' ++ actives l.
Proof.
  intros Hi. rewrite insert_take_drop by (by eapply lookup_lt_Some).
  rewrite <- (take_drop_middle l i e Hi) at 3. unfold actives. rewrite !bind_app, !bind_cons.
  rewrite !(Permutation_app_comm (take i l ≫= slot_of)), <- !(assoc (++)).
  rewrite (assoc (++) (slot_of e)), (Permutation_app_comm (slot_of e)). by rewrite <- (assoc (++)).
Qed.

Lemma length_actives l : (length (actives l) <= length l)%nat.
Proof.
  unfold actives. induction l as [|e l IH]; [done|]. rewrite bind_cons, length_app. unfold slot_of at 1.
  destruct (e_active e); simpl; lia.
Qed.

Lemma actives_full l : Forall (fun e => negb (e_active e) = false) l -> length (actives l) = length l.
Proof.
  unfold actives. induction 1 as [|e l He _ IH]; [done|]. rewrite bind_cons, length_app, IH. unfold slot_of.
  by destruct (e_active e).
Qed.

Lemma actives_fill l i e e' :
  l !! i = Some e -> e_active e = false -> e_active e' = true ->
  actives (<[i := e']> l) ≡ₚ (c_string (e_name e'), svc_of e') :: actives l.
Proof. intros Hi He He'. pose proof (actives_insert l i e e' Hi) as H. unfold slot_of in H. by rewrite He, He' in H. Qed.

Lemma actives_not_full l i e :
  l !! i = Some e -> e_active e = false -> (length (actives l) < length l)%nat.
Proof.
  intros Hi He. set (e' := mk_entry true [] 0 0 0 0 0 0).
  pose proof (actives_fill l i e e' Hi He eq_refl) as H%Permutation_length.
  pose proof (length_actives (<[i := e']> l)) as Hl. rewrite length_insert in Hl. simpl in H. lia.
Qed.

(** ** Searching the table is searching the directory *)

Section searches.
Context (st : ns_state) (d : directory) (R : refines st d).

Lemma services_elem k s : d_services d !! k = Some s <-> (k, s) ∈ actives (registry st).
Proof using R. by rewrite (rf_services _ _ R), elem_of_map_to_list. Qed.

Lemma entry_service i e :
  registry st !! i = Some e -> e_active e = true -> d_services d !! c_string (e_name e) = Some (svc_of e).
Proof using R.
  intros Hi He. apply services_elem, elem_actives. exists e. eauto using list_elem_of_lookup_2.
Qed.

Lemma size_actives : size (d_services d) = length (actives (registry st)).
Proof using R. by rewrite <- length_map_to_list, <- (rf_services _ _ R). Qed.

Lemma count_bound : (size (d_services d) <= NS_MAX_ENTRIES)%nat.
Proof using R. rewrite size_actives, <- (rf_len _ _ R). apply length_actives. Qed.

Lemma find_by_name_spec name :
  name_ok name ->
  (registry_find_by_name st name = -1 /\ d_services d !! c_string name = None) \/
  exists i e, registry_find_by_name st name = Z.of_nat i /\ registry st !! i = Some e /\
    d_services d !! c_string name = Some (svc_of e).
Proof using R.
  intros Hn. unfold registry_find_by_name.
  destruct (find_slot_spec (fun e => e_active e && (ns_strcmp (e_name e) name =? 0)) 0 (registry st))
    as [[-> Hall]|(i & e & -> & Hi & [Ha Hc]%andb_true_iff)]; [left|right].
  - split; [done|]. destruct (d_services d !! c_string name) as [s|] eqn:Hs; [|done]. exfalso.
    apply services_elem, elem_actives in Hs as (e & He & Ha & Hk & _).
    pose proof (proj1 (Forall_forall _ _) Hall e He) as Hf. pose proof (proj1 (Forall_forall _ _) (rf_names _ _ R) e He Ha).
    cbn beta in Hf. rewrite Ha in Hf. apply Z.eqb_neq in Hf. apply Hf. by apply strcmp_eq.
  - exists i, e. split_and!; [lia|done|]. apply Z.eqb_eq, strcmp_eq in Hc; [|by eapply (Forall_lookup_1 _ _ _ _ (rf_names _ _ R))|done].
    rewrite <- Hc. by eapply entry_service.
Qed.

Lemma find_by_channel_spec ch :
  (registry_find_by_channel st ch = -1 /\ absent d ch) \/
  exists i e, registry_find_by_channel st ch = Z.of_nat i /\ registry st !! i = Some e /\
    e_active e = true /\ s_channel (svc_of e) = ch.
Proof using R.
  unfold registry_find_by_channel.
  destruct (find_slot_spec (fun e => e_active e && (e_channel_id e =? ch)) 0 (registry st))
    as [[-> Hall]|(i & e & -> & Hi & [Ha Hc]%andb_true_iff)]; [left|right].
  - split; [done|]. intros k s Hs Hch. apply services_elem, elem_actives in Hs as (e & He & Ha & _ & ->).
    pose proof (proj1 (Forall_forall _ _) Hall e He) as Hf. cbn beta in Hf. rewrite Ha in Hf.
    by apply Z.eqb_neq in Hf.
  - exists i, e. split_and!; [lia|done|done|]. by apply Z.eqb_eq.
Qed.

Lemma alloc_spec :
  (registry_alloc st = -1 /\ size (d_services d) = NS_MAX_ENTRIES) \/
  exists i e, registry_alloc st = Z.of_nat i /\ registry st !! i = Some e /\ e_active e = false /\
    (size (d_services d) < NS_MAX_ENTRIES)%nat.
Proof using R.
  unfold registry_alloc. rewrite size_actives, <- (rf_len _ _ R).
  destruct (find_slot_spec (fun e => negb (e_active e)) 0 (registry st))
    as [[-> Hall]|(i & e & -> & Hi & Ha%negb_true_iff)]; [left|right].
  - split; [done|]. by apply actives_full.
  - exists i, e. split_and!; [lia|done|done|]. by eapply actives_not_full.
Qed.
End searches.

(** ** Changing the table is changing the directory *)

Lemma wp_get_slot i e Q st : registry st !! i = Some e -> Q e st -> wp (get_slot (Z.of_nat i)) Q st.
Proof.
  intros Hi HQ. unfold get_slot. do 2 wp_step. eapply wp_lift; [|exact HQ].
  apply aget_Some. rewrite Nat2Z.id. split; [lia|done].
Qed.

Lemma wp_put_slot i e e' Q st :
  registry st !! i = Some e -> Q tt (set_registry (<[i := e']> (registry st)) st) ->
  wp (put_slot (Z.of_nat i) e') Q st.
Proof.
  intros Hi%lookup_lt_Some HQ. unfold put_slot. do 2 wp_step. wp_step.
  eapply wp_lift; [by apply aset_Some; lia|]. rewrite Nat2Z.id. by wp_step.
Qed.

(** The page does not depend on the services, only on what was listed. *)
Lemma refines_page st d d' :
  refines st d -> d_listed d' = d_listed d -> forall h, shmem st = Some h -> page_ok d' h.
Proof. intros R Hl h Hh. unfold page_ok. rewrite Hl. by apply (rf_page _ _ R). Qed.

Lemma refines_fill st d i e e' t :
  refines st d -> registry st !! i = Some e -> e_active e = false -> e_active e' = true ->
  name_ok (e_name e') -> d_services d !! c_string (e_name e') = None ->
  (size (d_services d) < NS_MAX_ENTRIES)%nat ->
  refines (mk_ns (<[i := e']> (registry st)) (u32 (reg_count st + 1)) t (shmem st))
    (mk_dir (<[c_string (e_name e') := svc_of e']> (d_services d)) t (d_listed d)).
Proof.
  intros R Hi He He' Hn Hk Hsz. pose proof R as [Hlen Hsv Hnm Hcnt _ _]. split; cbn; [| | | |done|].
  - by rewrite length_insert.
  - by rewrite (actives_fill _ _ _ _ Hi He He'), map_to_list_insert, Hsv.
  - by apply Forall_insert.
  - rewrite Hcnt. unfold count, NS_MAX_ENTRIES in *. rewrite map_size_insert_None by done.
    rewrite u32_small by (unfold is_u32; lia). lia.
  - by apply (refines_page st d).
Qed.

Lemma refines_status st d i e s :
  refines st d -> registry st !! i = Some e -> e_active e = true ->
  refines (set_registry (<[i := set_status s e]> (registry st)) st)
    (with_services d (<[c_string (e_name e) := with_status (svc_of e) s]> (d_services d))).
Proof.
  intros R Hi He. pose proof R as [Hlen Hsv Hnm Hcnt Ht _]. pose proof (entry_service _ _ R _ _ Hi He) as Hk.
  split; cbn; [| | | |done|].
  - by rewrite length_insert.
  - pose proof (actives_insert _ _ _ (set_status s e) Hi) as Hp. unfold slot_of in Hp. cbn in Hp.
    rewrite He, Hsv in Hp. cbn in Hp. rewrite <- (insert_id _ _ _ Hk), <- insert_delete_eq in Hp at 1.
    rewrite map_to_list_insert in Hp by apply lookup_delete_eq. rewrite perm_swap in Hp.
    apply Permutation_cons_inv in Hp. rewrite Hp, <- insert_delete_eq.
    by rewrite map_to_list_insert by apply lookup_delete_eq.
  - apply Forall_insert; [done|]. exact (Forall_lookup_1 _ _ _ _ Hnm Hi).
  - rewrite Hcnt. unfold count. by rewrite map_size_insert_Some.
  - by apply (refines_page st d).
Qed.

Lemma refines_remove st d i e :
  refines st d -> registry st !! i = Some e -> e_active e = true ->
  refines (mk_ns (<[i := set_inactive e]> (registry st)) (u32 (reg_count st - 1)) (boot_tick st) (shmem st))
    (with_services d (delete (c_string (e_name e)) (d_services d))).
Proof.
  intros R Hi He. pose proof R as [Hlen Hsv Hnm Hcnt Ht _]. pose proof (entry_service _ _ R _ _ Hi He) as Hk.
  pose proof (count_bound _ _ R) as Hb. split; cbn; [| | | |done|].
  - by rewrite length_insert.
  - pose proof (actives_insert _ _ _ (set_inactive e) Hi) as Hp. unfold slot_of in Hp. cbn in Hp.
    rewrite He, Hsv, <- (map_to_list_delete _ _ _ Hk) in Hp. by apply Permutation_cons_inv in Hp.
  - by apply Forall_insert.
  - assert (size (d_services d) <> 0%nat) by (intros H0%map_size_empty_inv; rewrite H0 in Hk; done).
    rewrite Hcnt. unfold count, NS_MAX_ENTRIES in *. rewrite map_size_delete_Some by (by eexists).
    rewrite u32_small by (unfold is_u32; lia). lia.
  - by apply (refines_page st d).
Qed.

(** ** Listing *)

Lemma dump_spec l c w out :
  0 <= w -> c = w + Z.of_nat (length (actives l)) -> c <= Z.of_nat (length out) ->
  exists out', dump l c w out = Some (c, out') /\ length out' = length out /\
    shown <$> take (Z.to_nat c) out' = (shown <$> take (Z.to_nat w) out) ++ actives l.
Proof.
  revert w out. induction l as [|e l IH]; intros w out Hw Hc Ho.
  { exists out. simpl in Hc. rewrite app_nil_r. replace c with w by lia. done. }
  unfold actives in *. cbn [dump]. rewrite bind_cons in Hc |- *. rewrite length_app in Hc.
  destruct (Z.ltb_spec w c); cbn [negb].
  - assert (Hse : slot_of e = if e_active e then [shown (list_entry e)] else []) by done.
    rewrite Hse in Hc |- *. destruct (e_active e); cbn [negb length app] in Hc |- *; [|apply IH; lia].
    rewrite aset_Some by lia. cbn [mbind option_bind].
    destruct (IH (w + 1) (<[Z.to_nat w := list_entry e]> out)) as (out' & -> & Hl & Hs); [lia|lia|by rewrite length_insert|].
    exists out'. split_and!; [done|by rewrite Hl, length_insert|]. rewrite Hs.
    replace (Z.to_nat (w + 1)) with (S (Z.to_nat w)) by lia.
    rewrite (take_S_r _ _ (list_entry e)) by (apply list_lookup_insert_eq; lia).
    rewrite take_insert_ge by lia. by rewrite fmap_app, <- app_assoc.
  - exists out. assert (length (slot_of e) = O /\ length (l ≫= slot_of) = O) as [->%nil_length_inv ->%nil_length_inv] by lia.
    rewrite !app_nil_r. by replace c with w by lia.
Qed.

Lemma refines_listed st d h out :
  refines st d -> shmem st = Some h -> length out = length (h_entries h) ->
  shown <$> take (Z.to_nat (reg_count st)) out = actives (registry st) ->
  refines (set_shmem (mk_list_header NS_LIST_MAGIC (reg_count st) (replicate 8 0) out) st)
    (mk_dir (d_services d) (d_ticks d) (Some (d_services d))).
Proof.
  intros R Hh Hl Hs. pose proof R as [? ? ? Hcnt ? Hp]. split; cbn; [done..|].
  intros h' [= <-]. split; cbn; [rewrite Hl; by apply Hp|]. intros m [= <-]. split_and!; [done..|].
  rewrite Hcnt in Hs. unfold count in Hs. rewrite Nat2Z.id in Hs. by rewrite Hs.
Qed.

(** ** Each handler takes its step *)

Definition answered (d : directory) (r : request) (rep : sel4_msg) (a : Z * sel4_msg) (st' : ns_state) : Prop :=
  exists ws d', step d r ws d' /\ (length ws <= 12)%nat /\ a = (SEL4_ERR_OK, reply ws rep) /\ refines st' d'.

Lemma wp_answer ws d d' r rep st :
  step d r ws d' -> (length ws <= 12)%nat -> refines st d' -> wp (answer ws rep) (answered d r rep) st.
Proof. intros ???. apply wp_ret. exists ws, d'. done. Qed.

Ltac answer_with c := eapply wp_answer; [eapply c; eauto|simpl; lia|done].

Section handlers.
Context (st : ns_state) (d : directory) (R : refines st d) (mr : Z -> Z) (req rep : sel4_msg).

Lemma wp_handle_register :
  wp (handle_register mr req rep)
    (answered d (Register (c_string (ns_read_name mr req 16 20 5)) (ns_req_u32 req 0 4) (ns_req_u32 req 4 8)
       (ns_req_u32 req 8 12) (ns_req_u32 req 12 16)) rep) st.
Proof using R.
  unfold handle_register. set (name := ns_read_name mr req 16 20 5).
  assert (Hn : name_ok name) by apply read_name_ok. rewrite strlen_zero by done.
  case_bool_decide as Hk; [rewrite Hk; answer_with step_register_empty|]. do 2 wp_step.
  destruct (find_by_name_spec _ _ R name Hn) as [[-> Hnone]|(i & e & -> & _ & Hs)].
  2:{ rewrite (proj2 (Z.leb_le 0 (Z.of_nat i))) by lia. answer_with step_register_dup. }
  cbn [Z.leb Z.compare]. destruct (alloc_spec _ _ R) as [[-> Hfull]|(i & e & -> & Hi & He & Hsz)].
  { answer_with step_register_full. }
  rewrite (proj2 (Z.ltb_ge (Z.of_nat i) 0)) by lia. do 3 wp_step. eapply wp_put_slot; [exact Hi|]. do 2 wp_step.
  eapply wp_answer; [by apply step_register|simpl; lia|]. rewrite <- (rf_tick _ _ R).
  by apply (refines_fill st d i e (mk_entry true name _ _ _ _ _ _)).
Qed.

Lemma wp_handle_lookup :
  wp (handle_lookup mr req rep) (answered d (Lookup (c_string (ns_read_name mr req 0 4 1))) rep) st.
Proof using R.
  unfold handle_lookup. set (name := ns_read_name mr req 0 4 1).
  assert (Hn : name_ok name) by apply read_name_ok. rewrite strlen_zero by done.
  case_bool_decide as Hk; [rewrite Hk; answer_with step_lookup_empty|]. do 2 wp_step.
  destruct (find_by_name_spec _ _ R name Hn) as [[-> Hnone]|(i & e & -> & Hi & Hs)].
  { answer_with step_lookup_none. }
  rewrite (proj2 (Z.ltb_ge (Z.of_nat i) 0)) by lia. wp_step. eapply wp_get_slot; [exact Hi|].
  eapply wp_answer; [by apply (step_lookup _ _ (svc_of e))|simpl; lia|done].
Qed.

Lemma wp_handle_lookup_gated badge :
  wp (handle_lookup_gated mr badge req rep)
    (answered d (LookupGated (u16 (Z.shiftr badge 16)) (c_string (ns_read_name mr req 0 4 1))) rep) st.
Proof using R.
  unfold handle_lookup_gated. set (name := ns_read_name mr req 0 4 1). set (cats := u16 _).
  assert (Hn : name_ok name) by apply read_name_ok. rewrite strlen_zero by done.
  case_bool_decide as Hk; [rewrite Hk; answer_with step_gated_empty|]. do 2 wp_step.
  destruct (find_by_name_spec _ _ R name Hn) as [[-> Hnone]|(i & e & -> & Hi & Hs)].
  { answer_with step_gated_none. }
  rewrite (proj2 (Z.ltb_ge (Z.of_nat i) 0)) by lia. wp_step. eapply wp_get_slot; [exact Hi|].
  destruct (Z.eqb_spec cats 0) as [H0|H0]; cbn [orb].
  - eapply wp_answer; [apply (step_gated_forbidden _ _ _ (svc_of e)); [done..|]|simpl; lia|done].
    by rewrite H0, Z.land_0_r.
  - case_cmp.
    + eapply wp_answer; [by apply (step_gated_forbidden _ _ _ (svc_of e))|simpl; lia|done].
    + eapply wp_answer; [by apply (step_gated _ _ _ (svc_of e))|simpl; lia|done].
Qed.

Lemma wp_handle_update_status :
  wp (handle_update_status req rep)
    (answered d (UpdateStatus (ns_req_u32 req 0 4) (u8 (ns_req_u32 req 4 8))) rep) st.
Proof using R.
  unfold handle_update_status. do 2 wp_step.
  destruct (find_by_channel_spec _ _ R (ns_req_u32 req 0 4)) as [[-> Hnone]|(i & e & -> & Hi & He & <-)].
  { answer_with step_update_none. }
  rewrite (proj2 (Z.ltb_ge (Z.of_nat i) 0)) by lia. wp_step. eapply wp_get_slot; [exact Hi|]. wp_step.
  eapply wp_put_slot; [exact Hi|].
  eapply wp_answer; [by eapply step_update, entry_service|simpl; lia|by apply refines_status].
Qed.

Lemma wp_handle_deregister :
  wp (handle_deregister req rep) (answered d (Deregister (ns_req_u32 req 0 4)) rep) st.
Proof using R.
  unfold handle_deregister. do 2 wp_step.
  destruct (find_by_channel_spec _ _ R (ns_req_u32 req 0 4)) as [[-> Hnone]|(i & e & -> & Hi & He & <-)].
  { answer_with step_deregister_none. }
  rewrite (proj2 (Z.ltb_ge (Z.of_nat i) 0)) by lia. wp_step. eapply wp_get_slot; [exact Hi|]. wp_step.
  eapply wp_put_slot; [exact Hi|]. do 2 wp_step.
  eapply wp_answer; [by eapply step_deregister, entry_service|simpl; lia|exact (refines_remove st d i e R Hi He)].
Qed.

Lemma wp_handle_list : wp (handle_list rep) (answered d ListAll rep) st.
Proof using R.
  unfold handle_list. do 2 wp_step. pose proof (step_list d) as Hstep. rewrite <- (rf_count _ _ R) in Hstep.
  destruct (shmem st) as [h|] eqn:Hh.
  - pose proof (rf_page _ _ R h Hh) as [Hcap _]. pose proof (count_bound _ _ R). pose proof (rf_count _ _ R) as Hc.
    unfold count in Hc. rewrite (size_actives _ _ R) in *.
    destruct (dump_spec (registry st) (reg_count st) 0 (h_entries h)) as (out & Hd & Hl & Hs); [lia..|].
    wp_step. eapply wp_lift; [exact Hd|]. cbn beta iota. do 2 wp_step.
    eapply wp_answer; [exact Hstep|simpl; lia|]. by apply (refines_listed st d h).
  - eapply wp_answer; [exact Hstep|simpl; lia|]. destruct R. split; cbn; try done. by rewrite Hh.
Qed.

Lemma wp_handle_health : wp (handle_health rep) (answered d Health rep) st.
Proof using R.
  unfold handle_health. do 2 wp_step. rewrite (rf_count _ _ R). answer_with step_health.
Qed.
End handlers.

Lemma wp_dispatch mr badge rep st d :
  refines st d ->
  wp (nameserver_h_dispatch mr badge (sel4_mrs_to_msg mr) rep) (answered d (decode mr badge) rep) st.
Proof.
  intros R. unfold nameserver_h_dispatch, decode.
  case_cmp; [by apply wp_handle_register|]. case_cmp; [by apply wp_handle_lookup|].
  case_cmp; [by apply wp_handle_update_status|]. case_cmp; [by apply wp_handle_list|].
  case_cmp; [by apply wp_handle_deregister|]. case_cmp; [by apply wp_handle_health|].
  case_cmp; [by apply wp_handle_lookup_gated|]. answer_with step_unknown.
Qed.

(** ** The loop *)

Definition decode_all (arrivals : list ((Z -> Z) * Z)) : list request :=
  (fun a => decode a.1 a.2) <$> arrivals.

Lemma wp_server_run arrivals rep st d :
  refines st d -> length (m_data rep) = 48%nat ->
  wp (sel4_server_run [(SEL4_SERVER_OPCODE_ANY, nameserver_h_dispatch)] arrivals rep)
    (fun reps st' => exists wss d', steps d (decode_all arrivals) wss d' /\
       reps = framed (m_data rep) wss /\ refines st' d') st.
Proof.
  revert rep st d. induction arrivals as [|[mr badge] arrivals IH]; intros rep st d R Hl.
  { apply wp_ret. exists [], d. split_and!; [constructor|done..]. }
  cbn [sel4_server_run]. unfold sel4_server_round, sel4_server_dispatch.
  cbn [find_handler]. rewrite Z.eqb_refl. cbn zeta iota. repeat wp_step. eapply wp_mono; [by apply wp_dispatch|].
  intros [rc rep'] st' (ws & d' & Hs & Hws & [= -> ->] & R'). cbn beta iota. do 2 wp_step.
  rewrite reply_spec by done. cbn [set_opcode m_data m_length m_opcode]. wp_step.
  eapply wp_mono; [apply (IH _ st' d'); [done|]|].
  { unfold set_opcode. cbn [m_data]. rewrite length_app, length_drop, length_word_bytes, Hl. lia. }
  intros reps st'' (wss & d'' & Hss & -> & R''). wp_step. exists (ws :: wss), d''.
  split_and!; [by econstructor|done|done].
Qed.

Lemma refines_init st :
  length (registry st) = NS_MAX_ENTRIES ->
  (forall h, shmem st = Some h -> (NS_MAX_ENTRIES <= length (h_entries h))%nat) ->
  refines (nameserver_pd_init st) (mk_dir ∅ 0 None).
Proof.
  intros Hl Hp. split; cbn; [by rewrite length_fmap| | |done|done|].
  - rewrite map_to_list_empty. clear. induction (registry st) as [|e l IH]; [done|exact IH].
  - by apply Forall_fmap, Forall_true.
  - intros h Hh. split; [by apply Hp|done].
Qed.

(** C20. The name server is a directory. Whatever messages arrive, with
    whatever register contents and badges, and whatever its memory held before
    (a table of 64 entries, and a shared page that is not mapped or has room
    for 64), it never faults, and it answers every message. Its answers are
    those of a finite map from names to services: registration of a name that
    is neither empty nor taken while fewer than 64 services are there, lookup
    of exactly the service registered under the name, a gated lookup that
    answers only when the service's classes meet those in the badge, update
    and removal of a service with the given channel, and counts that are the
    size of the map. After a listing the page holds exactly the services of
    that moment. The bytes of a reply beyond its words are those of the reply
    before it, which went to another client. *)
Theorem nameserver_refines arrivals st :
  length (registry st) = NS_MAX_ENTRIES ->
  (forall h, shmem st = Some h -> (NS_MAX_ENTRIES <= length (h_entries h))%nat) ->
  wp (nameserver_main arrivals)
    (fun reps st' => exists wss d, steps (mk_dir ∅ 0 None) (decode_all arrivals) wss d /\
       reps = framed (replicate 48 0) wss /\ refines st' d) st.
Proof.
  intros Hl Hp. unfold nameserver_main. do 2 wp_step.
  apply (wp_server_run arrivals (mk_msg 0 0 (replicate 48 0))); [by apply refines_init|done].
Qed.

(** A service [A] of class 1 on channel 7 is registered and found; then a
    client whose badge allows class 2 asks for it, is refused, and still gets
    the channel in the bytes after the refusal. *)
Definition demo_arrivals : list ((Z -> Z) * Z) :=
  let at_mr (l : list Z) (i : Z) := l !!! Z.to_nat i in
  [(at_mr [OP_NS_REGISTER; 48; 7 + 2 ^ 32 * 3; 1 + 2 ^ 32; 65; 0; 0; 0], 0);
   (at_mr [OP_NS_LOOKUP; 48; 65; 0; 0; 0; 0; 0], 0);
   (at_mr [OP_NS_LOOKUP_GATED; 48; 65; 0; 0; 0; 0; 0], 2 * 2 ^ 16);
   (at_mr [OP_NS_LIST; 48; 0; 0; 0; 0; 0; 0], 0)].

Definition demo_start : ns_state :=
  mk_ns (replicate 64 (mk_entry false (replicate 32 0) 0 0 0 0 0 0)) 0 0
    (Some (mk_list_header 0 0 [] (replicate 127 (mk_list_entry [] 0 0 0 0 0 0 [] 0)))).

Lemma nameserver_refines_witness :
  wp (nameserver_main demo_arrivals)
    (fun reps st' => exists wss d, steps (mk_dir ∅ 0 None) (decode_all demo_arrivals) wss d /\
       reps = framed (replicate 48 0) wss /\ refines st' d) demo_start /\
  decode_all demo_arrivals = [Register [65] 7 3 1 1; Lookup [65]; LookupGated 2 [65]; ListAll] /\
  ((fun r => (m_length r, take 8 (m_data r))) <$> from_option fst [] (nameserver_main demo_arrivals demo_start))
    = [(4, [0; 0; 0; 0; 0; 0; 0; 0]); (24, [0; 0; 0; 0; 7; 0; 0; 0]);
       (4, [6; 0; 0; 0; 7; 0; 0; 0]); (8, [0; 0; 0; 0; 1; 0; 0; 0])].
Proof.
  split_and!; [|vm_compute; reflexivity..].
  apply nameserver_refines; [done|]. intros h [= <-]. apply (bool_decide_eq_true_1 _). vm_compute. reflexivity.
Defined.
