(* ===== verification/PixelMem.v ===== *)
(** * Large byte objects

    Surface arenas, scanout banks and payload windows are megabytes long. An
    object of that kind is a size and the bytes that are not zero; an access
    outside the object has no result. [smem_copy], [smem_move] and
    [smem_zero] are [memcpy] between two objects, [memcpy] within one object
    (which C defines only for disjoint ranges) and [memset] to zero.
    [copy_rows] is the loop over the rows of a rectangle that the
    framebuffer service and its observer share, and [copy_rows_affine] says
    which byte it leaves where. [holds] says that an object holds given bytes
    at an offset, and [keeps] that a write leaves all other bytes alone; the
    users of fields at fixed offsets (Fdt.v, EventBus.v) reason with these. *)

From S2P Require Import Prelude.

Record smem := mk_smem { sm_size : Z; sm_bytes : gmap Z Z }.

(** The byte at [k]; an object starts out zeroed. *)
Definition mbyte (m : smem) (k : Z) : Z := default 0 (sm_bytes m !! k).

Definition smem_zeroed (size : Z) : smem := mk_smem size ∅.

Definition in_object (m : smem) (off n : Z) : bool :=
  (0 <=? off) && (0 <=? n) && (off + n <=? sm_size m).

(** [l] stored from [off]. *)
Fixpoint store_bytes (b : gmap Z Z) (off : Z) (l : list Z) : gmap Z Z :=
  match l with
  | [] => b
  | x :: l => store_bytes (<[off := x]> b) (off + 1) l
  end.

Definition load_bytes (m : smem) (off n : Z) : list Z := mbyte m <$> seqZ off n.

Definition smem_write (m : smem) (off : Z) (l : list Z) : option smem :=
  if in_object m off (Z.of_nat (length l)) then Some (mk_smem (sm_size m) (store_bytes (sm_bytes m) off l))
  else None.

(** One byte. *)
Definition sbyte (m : smem) (k : Z) : option Z := if in_object m k 1 then Some (mbyte m k) else None.

Definition smem_read (m : smem) (off n : Z) : option (list Z) :=
  if in_object m off n then Some (load_bytes m off n) else None.

Definition smem_copy (dst : smem) (d : Z) (src : smem) (s n : Z) : option smem :=
  l ← smem_read src s n; smem_write dst d l.

Definition smem_move (m : smem) (d s n : Z) : option smem :=
  if (d + n <=? s) || (s + n <=? d) then smem_copy m d m s n else None.

Definition smem_zero (m : smem) (off n : Z) : option smem :=
  smem_write m off (replicate (Z.to_nat n) 0).

(** [for (row = ...; rows more; ++row) memcpy(dst + d(row), src + s(row), n)] *)
Fixpoint copy_rows (rows : nat) (row : Z) (d s : Z -> Z) (n : Z) (dst src : smem) : option smem :=
  match rows with
  | O => Some dst
  | S rows => dst' ← smem_copy dst (d row) src (s row) n; copy_rows rows (row + 1) d s n dst' src
  end.

(** ** What the accesses leave *)

Lemma lookup_store_bytes l : forall b off k,
  store_bytes b off l !! k =
  if decide (off <= k < off + Z.of_nat (length l)) then l !! Z.to_nat (k - off) else b !! k.
Proof.
  induction l as [|x l IH]; intros b off k; simpl.
  - rewrite decide_False by lia. done.
  - rewrite IH. destruct (decide (off + 1 <= k < off + 1 + Z.of_nat (length l))).
    + rewrite decide_True by lia. replace (k - off) with (Z.succ (k - (off + 1))) by lia.
      by rewrite Z2Nat.inj_succ by lia.
    + destruct (decide (k = off)) as [->|].
      * rewrite lookup_insert_eq, decide_True by lia. by rewrite Z.sub_diag.
      * rewrite lookup_insert_ne by done. rewrite decide_False by lia. done.
Qed.

Lemma in_object_true m off n : 0 <= off -> 0 <= n -> off + n <= sm_size m -> in_object m off n = true.
Proof. unfold in_object. intros. rewrite !andb_true_iff, !Z.leb_le. lia. Qed.

Lemma length_load_bytes m off n : 0 <= n -> Z.of_nat (length (load_bytes m off n)) = n.
Proof. intros. unfold load_bytes. rewrite length_fmap, length_seqZ. lia. Qed.

Lemma lookup_load_bytes m off n k :
  0 <= k < n -> load_bytes m off n !! Z.to_nat k = Some (mbyte m (off + k)).
Proof.
  intros. unfold load_bytes. rewrite list_lookup_fmap, lookup_seqZ_lt by lia. simpl. do 2 f_equal. lia.
Qed.

Lemma smem_write_ok m off l :
  0 <= off -> off + Z.of_nat (length l) <= sm_size m ->
  exists m', smem_write m off l = Some m' /\ sm_size m' = sm_size m /\
    forall k, mbyte m' k =
      if decide (off <= k < off + Z.of_nat (length l)) then default 0 (l !! Z.to_nat (k - off)) else mbyte m k.
Proof.
  intros. unfold smem_write. rewrite in_object_true by lia. eexists. split_and!; [done|done|].
  intros k. unfold mbyte. cbn. rewrite lookup_store_bytes. by case_decide.
Qed.

Lemma smem_copy_ok dst d src s n :
  0 <= d -> 0 <= s -> 0 <= n -> d + n <= sm_size dst -> s + n <= sm_size src ->
  exists m, smem_copy dst d src s n = Some m /\ sm_size m = sm_size dst /\
    forall k, mbyte m k = if decide (d <= k < d + n) then mbyte src (s + (k - d)) else mbyte dst k.
Proof.
  intros. unfold smem_copy, smem_read. rewrite in_object_true by lia. cbn.
  destruct (smem_write_ok dst d (load_bytes src s n)) as (m & -> & Hs & Hm);
    rewrite ?length_load_bytes in * by lia; [lia..|].
  exists m. split_and!; [done..|]. intros k. rewrite Hm. case_decide; [|done].
  by rewrite lookup_load_bytes by lia.
Qed.

Lemma smem_move_ok m d s n :
  0 <= d -> 0 <= s -> 0 <= n -> d + n <= sm_size m -> s + n <= sm_size m ->
  d + n <= s \/ s + n <= d ->
  exists m', smem_move m d s n = Some m' /\ sm_size m' = sm_size m /\
    forall k, mbyte m' k = if decide (d <= k < d + n) then mbyte m (s + (k - d)) else mbyte m k.
Proof.
  intros ????? Hd. unfold smem_move.
  replace ((d + n <=? s) || (s + n <=? d)) with true; [by apply smem_copy_ok|].
  symmetry. rewrite orb_true_iff, !Z.leb_le. done.
Qed.

Lemma smem_zero_ok m off n :
  0 <= off -> 0 <= n -> off + n <= sm_size m ->
  exists m', smem_zero m off n = Some m' /\ sm_size m' = sm_size m /\
    forall k, mbyte m' k = if decide (off <= k < off + n) then 0 else mbyte m k.
Proof.
  intros. unfold smem_zero.
  destruct (smem_write_ok m off (replicate (Z.to_nat n) 0)) as (m' & -> & Hs & Hm);
    rewrite ?length_replicate in *; [lia..|].
  exists m'. split_and!; [done..|]. intros k. rewrite Hm.
  destruct (decide (off <= k < off + n)); [|by rewrite decide_False by lia].
  rewrite decide_True, lookup_replicate_2 by lia. done.
Qed.

(** Rows at a fixed distance: the byte at [k] is in row [(k - d0) / ds] of
    the destination, [(k - d0) mod ds] bytes from its start. *)
Lemma copy_rows_affine rows : forall row d s n d0 ds s0 ss dst src,
  (forall r, row <= r < row + Z.of_nat rows ->
     d r = d0 + r * ds /\ s r = s0 + r * ss /\ 0 <= d r /\ 0 <= s r /\
     d r + n <= sm_size dst /\ s r + n <= sm_size src) ->
  0 < n <= ds ->
  exists m, copy_rows rows row d s n dst src = Some m /\ sm_size m = sm_size dst /\
    forall k, mbyte m k =
      if decide (row <= (k - d0) / ds < row + Z.of_nat rows /\ (k - d0) mod ds < n)
      then mbyte src (s0 + (k - d0) / ds * ss + (k - d0) mod ds) else mbyte dst k.
Proof.
  induction rows as [|rows IH]; intros row d s n d0 ds s0 ss dst src Hr Hn; cbn [copy_rows].
  { exists dst. split_and!; [done..|]. intros k. rewrite decide_False by lia. done. }
  destruct (Hr row) as (Hd & Hs & ? & ? & ? & ?); [lia|].
  destruct (smem_copy_ok dst (d row) src (s row) n) as (m1 & -> & Hs1 & Hm1); [lia..|]. cbn [mbind option_bind].
  destruct (IH (row + 1) d s n d0 ds s0 ss m1 src) as (m & -> & Hsz & Hm); [|lia|].
  { intros r ?. rewrite Hs1. apply Hr. lia. }
  exists m. split_and!; [done|lia|]. intros k. rewrite Hm, Hm1, Hd, Hs.
  pose proof (Z.div_mod (k - d0) ds ltac:(lia)) as Hk.
  pose proof (Z.mod_pos_bound (k - d0) ds ltac:(lia)) as Hb.
  set (q := (k - d0) / ds) in *. set (i := (k - d0) mod ds) in *.
  destruct (decide (row + 1 <= q < row + 1 + Z.of_nat rows /\ i < n)).
  { rewrite decide_True by lia. done. }
  destruct (decide (d0 + row * ds <= k < d0 + row * ds + n)).
  - assert (q = row) as -> by nia. rewrite decide_True by nia. f_equal. nia.
  - destruct (decide (_ /\ _)) as [[? ?]|]; [|done]. assert (q = row) as -> by lia. nia.
Qed.

(** ** Reading ranges *)

Lemma load_bytes_app m off a b :
  0 <= a -> 0 <= b -> load_bytes m off (a + b) = load_bytes m off a ++ load_bytes m (off + a) b.
Proof. intros. unfold load_bytes. by rewrite seqZ_app, fmap_app by lia. Qed.

Lemma load_bytes_ext m m' off off' n :
  (forall k, 0 <= k < n -> mbyte m (off + k) = mbyte m' (off' + k)) -> load_bytes m off n = load_bytes m' off' n.
Proof.
  intros He. unfold load_bytes. rewrite <- (Z.add_0_r off), <- (Z.add_0_r off'), <- !fmap_add_seqZ.
  rewrite <- !list_fmap_compose. apply list_fmap_ext. intros i k [-> Hk]%lookup_seqZ. cbn. apply He. lia.
Qed.

(** A range that was just written. *)
Lemma load_bytes_written m m' off l n :
  (forall k, mbyte m' k =
     if decide (off <= k < off + Z.of_nat (length l)) then default 0 (l !! Z.to_nat (k - off)) else mbyte m k) ->
  n = Z.of_nat (length l) -> load_bytes m' off n = l.
Proof.
  intros Hm ->. apply list_eq. intros i.
  destruct (decide (i < length l)%nat).
  - pose proof (lookup_load_bytes m' off (Z.of_nat (length l)) (Z.of_nat i) ltac:(lia)) as Hl.
    rewrite Nat2Z.id in Hl. rewrite Hl, Hm, decide_True by lia. replace (Z.to_nat _) with i by lia.
    destruct (lookup_lt_is_Some_2 l i) as [x ->]; [lia|done].
  - rewrite !lookup_ge_None_2; [done|lia|]. pose proof (length_load_bytes m' off (Z.of_nat (length l))). lia.
Qed.

Lemma load_bytes_unwritten m m' off n off' n' :
  (forall k, k < off \/ off + n <= k -> mbyte m' k = mbyte m k) -> off' + n' <= off \/ off + n <= off' ->
  load_bytes m' off' n' = load_bytes m off' n'.
Proof. intros Hm Hd. apply load_bytes_ext. intros. apply Hm. lia. Qed.

Lemma load_bytes_slice m n off k :
  0 <= off -> 0 <= k -> off + k <= n -> aslice (load_bytes m 0 n) off k = load_bytes m off k.
Proof.
  intros. replace n with (off + (k + (n - off - k))) by lia. rewrite !load_bytes_app by lia. unfold aslice.
  rewrite drop_app_length' by (pose proof (length_load_bytes m 0 off); lia).
  rewrite take_app_length' by (pose proof (length_load_bytes m (0 + off) k); lia). by rewrite Z.add_0_l.
Qed.

(** ** Bytes in place *)

(** The object holds [l] from [k]. *)
Definition holds (m : smem) (k : Z) (l : list Z) : Prop :=
  0 <= k /\ k + Z.of_nat (length l) <= sm_size m /\ forall i x, l !! i = Some x -> mbyte m (k + Z.of_nat i) = x.

Lemma holds_app m k a b : holds m k (a ++ b) <-> holds m k a /\ holds m (k + Z.of_nat (length a)) b.
Proof.
  unfold holds. rewrite length_app. split.
  - intros (? & ? & H). split_and!; try lia.
    + intros i x Hi. apply H. by apply lookup_app_l_Some.
    + intros i x Hi. rewrite <- Z.add_assoc, <- Nat2Z.inj_add. apply H. rewrite lookup_app_r by lia.
      rewrite <- Hi. f_equal. lia.
  - intros ((? & ? & Ha) & ? & ? & Hb). split_and!; try lia.
    intros i x [Hi|[? Hi]]%lookup_app_Some; [by apply Ha|].
    rewrite <- (Hb _ _ Hi). f_equal. lia.
Qed.

Lemma holds_cons m k x l : holds m k (x :: l) -> sbyte m k = Some x /\ holds m (k + 1) l.
Proof.
  intros [(? & Hk & Hx) ?]%(holds_app m k [x] l). split; [|done]. cbn [length] in Hk.
  unfold sbyte. rewrite in_object_true by lia. f_equal. rewrite <- (Hx 0%nat x eq_refl). f_equal. lia.
Qed.

Lemma holds_load m k l : holds m k l -> load_bytes m k (Z.of_nat (length l)) = l.
Proof.
  intros (? & ? & H). apply list_eq. intros i. destruct (l !! i) as [x|] eqn:Hi.
  - pose proof (lookup_lt_Some _ _ _ Hi). rewrite <- (Nat2Z.id i), lookup_load_bytes by lia. f_equal. by apply H.
  - apply lookup_ge_None in Hi. apply lookup_ge_None.
    pose proof (length_load_bytes m k (Z.of_nat (length l)) ltac:(lia)). lia.
Qed.

(** A write puts its bytes in place and disturbs no other range. *)
Definition keeps (m m' : smem) (off n : Z) : Prop :=
  sm_size m' = sm_size m /\
  forall k l, holds m k l -> k + Z.of_nat (length l) <= off \/ off + n <= k -> holds m' k l.

Lemma holds_write m off l :
  0 <= off -> off + Z.of_nat (length l) <= sm_size m ->
  exists m', smem_write m off l = Some m' /\ holds m' off l /\ keeps m m' off (Z.of_nat (length l)).
Proof.
  intros. destruct (smem_write_ok m off l) as (m' & Hw & Hs & Hm); [lia..|]. exists m'. split_and!; [done|..].
  - split_and!; [lia..|]. intros i x Hi. pose proof (lookup_lt_Some _ _ _ Hi). rewrite Hm, decide_True by lia.
    replace (Z.to_nat _) with i by lia. by rewrite Hi.
  - split; [done|]. intros k l' (? & ? & Hl) Hd. split_and!; [lia..|]. intros i x Hi.
    pose proof (lookup_lt_Some _ _ _ Hi). rewrite Hm, decide_False by lia. by apply Hl.
Qed.

(** Replacing bytes inside a known range. *)
Lemma holds_overwrite m pre old l post k :
  holds m 0 (pre ++ old ++ post) -> length old = length l -> k = Z.of_nat (length pre) ->
  exists m', smem_write m k l = Some m' /\ holds m' 0 (pre ++ l ++ post) /\ keeps m m' k (Z.of_nat (length l)).
Proof.
  intros (Hp & Ho & Hq)%(fun H => conj (proj1 (proj1 (holds_app _ _ _ _) H))
    (proj1 (holds_app _ _ _ _) (proj2 (proj1 (holds_app _ _ _ _) H)))) Hl ->.
  destruct (holds_write m (Z.of_nat (length pre)) l) as (m' & Hw & Hn & Hk);
    [destruct Ho as (? & ? & ?); lia..|].
  exists m'. split_and!; [done| |done]. destruct Hk as [_ Hk]. rewrite !holds_app. split_and!; [..|done|].
  - apply Hk; [done|lia].
  - rewrite <- Hl. apply Hk; [done|lia].
Qed.

Lemma keeps_trans m m1 m2 off n n' :
  0 <= n -> 0 <= n' -> keeps m m1 off n -> keeps m1 m2 (off + n) n' -> keeps m m2 off (n + n').
Proof.
  intros ?? [Hs Hk] [Hs' Hk']. split; [congruence|]. intros k l Hh Hd. apply Hk'; [apply Hk; [done|lia]|lia].
Qed.
