(* ===== verification/Framebuffer.v ===== *)
(** * The framebuffer service

    platform/framebuffer/service.c and rebind.c, with their contracts
    include/platform/framebuffer.h and framebuffer_rebind.h: up to four
    surfaces per client, each with a staging and a committed frame in an
    arena private to the service, driven by a request ring and a payload
    window that the client shares.

    The detailed definitions work on linear byte addresses. The
    specification is a finite map from handles to pictures, whose frames are
    functions of the coordinates ([screen], [spec_execute]); the main
    theorem is that a pump is the specification run over the pending
    requests. *)

From S2P Require Import Prelude Ring VirtAuthority PixelMem.

Definition AOS_FB_VERSION : Z := 1.
Definition AOS_FB_DETACH_VERSION : Z := 1.
Definition AOS_FB_QUEUE_CAPACITY : Z := 16.
Definition AOS_FB_DATA_BYTES : Z := 65536.
Definition AOS_FB_MAX_SURFACES : Z := 4.
Definition AOS_FB_MAX_WIDTH : Z := 1024.
Definition AOS_FB_MAX_HEIGHT : Z := 768.
Definition AOS_FB_PIXEL_BYTES : Z := 4.
Definition AOS_FB_SURFACE_BYTES : Z := AOS_FB_MAX_WIDTH * AOS_FB_MAX_HEIGHT * AOS_FB_PIXEL_BYTES.
Definition AOS_FB_ARENA_BYTES : Z := 2 * AOS_FB_MAX_SURFACES * AOS_FB_SURFACE_BYTES.
Definition AOS_FB_CLIENTS : Z := 2.

(** enum aos_fb_operation *)
Definition AOS_FB_CREATE : Z := 1.
Definition AOS_FB_WRITE : Z := 2.
Definition AOS_FB_FLIP : Z := 3.
Definition AOS_FB_STATUS : Z := 4.
Definition AOS_FB_READ : Z := 5.
Definition AOS_FB_DESTROY : Z := 6.
Definition AOS_FB_SELECT : Z := 7.

(** enum aos_fb_status *)
Definition AOS_FB_OK : Z := 0.
Definition AOS_FB_BAD_VERSION : Z := 1.
Definition AOS_FB_BAD_OPERATION : Z := 2.
Definition AOS_FB_BAD_HANDLE : Z := 3.
Definition AOS_FB_BAD_BOUNDS : Z := 4.
Definition AOS_FB_NO_SPACE : Z := 5.

Record fb_request := mk_fbreq {
  fq_version : Z; fq_operation : Z; fq_id : Z; fq_reserved : Z; fq_handle : Z;
  fq_x : Z; fq_y : Z; fq_width : Z; fq_height : Z; fq_data_offset : Z; fq_data_length : Z }.

Record fb_response := mk_fbresp {
  fp_version : Z; fp_status : Z; fp_id : Z; fp_reserved : Z; fp_handle : Z;
  fp_sequence : Z; fp_width : Z; fp_height : Z }.

#[global] Instance fb_request_inhabited : Inhabited fb_request := populate (mk_fbreq 0 0 0 0 0 0 0 0 0 0 0).
#[global] Instance fb_response_inhabited : Inhabited fb_response := populate (mk_fbresp 0 0 0 0 0 0 0 0).

(** A region shared with a client. *)
Record fb_region := mk_fbregion {
  fr_req_head : Z; fr_req_tail : Z; fr_resp_head : Z; fr_resp_tail : Z;
  fr_requests : list fb_request; fr_responses : list fb_response; fr_data : smem;
  fr_detach_version : Z; fr_detach_request : Z; fr_detach_ack : Z }.

(** A pointer into an arena: the arena's address and an offset. *)
Definition pixels_ptr : Type := Z * Z.

Record fb_surface := mk_surface {
  su_handle : Z; su_sequence : Z; su_width : Z; su_height : Z;
  su_staging : pixels_ptr; su_committed : pixels_ptr }.

Record fb_client := mk_fbclient {
  fc_region : Z; fc_next_handle : Z; fc_generation : Z; fc_retired : Z;
  fc_selected_handle : Z; fc_selected_x : Z; fc_selected_y : Z;
  fc_selected_width : Z; fc_selected_height : Z; fc_surfaces : list fb_surface }.

(** The memory the service maps: shared regions and private arenas, by
    address. *)
Record fb_world := mk_fbworld { fw_regions : gmap Z fb_region; fw_arenas : gmap Z smem }.

(** ** Updates of single fields *)

Definition set_surfaces (l : list fb_surface) (c : fb_client) : fb_client :=
  mk_fbclient (fc_region c) (fc_next_handle c) (fc_generation c) (fc_retired c) (fc_selected_handle c)
    (fc_selected_x c) (fc_selected_y c) (fc_selected_width c) (fc_selected_height c) l.
Definition set_next_handle (n : Z) (c : fb_client) : fb_client :=
  mk_fbclient (fc_region c) n (fc_generation c) (fc_retired c) (fc_selected_handle c)
    (fc_selected_x c) (fc_selected_y c) (fc_selected_width c) (fc_selected_height c) (fc_surfaces c).
Definition set_generation (g : Z) (c : fb_client) : fb_client :=
  mk_fbclient (fc_region c) (fc_next_handle c) g (fc_retired c) (fc_selected_handle c)
    (fc_selected_x c) (fc_selected_y c) (fc_selected_width c) (fc_selected_height c) (fc_surfaces c).
Definition set_selected_handle (h : Z) (c : fb_client) : fb_client :=
  mk_fbclient (fc_region c) (fc_next_handle c) (fc_generation c) (fc_retired c) h
    (fc_selected_x c) (fc_selected_y c) (fc_selected_width c) (fc_selected_height c) (fc_surfaces c).
Definition set_selection (h x y w hh : Z) (c : fb_client) : fb_client :=
  mk_fbclient (fc_region c) (fc_next_handle c) (fc_generation c) (fc_retired c) h x y w hh (fc_surfaces c).

Definition set_fr_data (d : smem) (r : fb_region) : fb_region :=
  mk_fbregion (fr_req_head r) (fr_req_tail r) (fr_resp_head r) (fr_resp_tail r) (fr_requests r)
    (fr_responses r) d (fr_detach_version r) (fr_detach_request r) (fr_detach_ack r).

Definition set_fw_region (p : Z) (r : fb_region) (w : fb_world) : fb_world :=
  mk_fbworld (<[p := r]> (fw_regions w)) (fw_arenas w).
Definition set_fw_arenas (a : gmap Z smem) (w : fb_world) : fb_world := mk_fbworld (fw_regions w) a.

Definition null_surface : fb_surface := mk_surface 0 0 0 0 (NULL, 0) (NULL, 0).

(** [memset(c, 0, sizeof *c)] *)
Definition zero_client : fb_client :=
  mk_fbclient NULL 0 0 0 0 0 0 0 0 (replicate (Z.to_nat AOS_FB_MAX_SURFACES) null_surface).

(** [memset] and [memcpy] through pointers into the arenas. *)
Definition arena_zero (mem : gmap Z smem) (p : pixels_ptr) (n : Z) : option (gmap Z smem) :=
  m ← mem !! p.1; m' ← smem_zero m p.2 n; Some (<[p.1 := m']> mem).

Definition arena_copy (mem : gmap Z smem) (dst src : pixels_ptr) (n : Z) : option (gmap Z smem) :=
  md ← mem !! dst.1;
  ms ← mem !! src.1;
  m' ← (if dst.1 =? src.1 then smem_move md dst.2 src.2 n else smem_copy md dst.2 ms src.2 n);
  Some (<[dst.1 := m']> mem).

(** ** The client's side of the ring *)

Definition aos_fb_submit (r : fb_region) (request : fb_request) : option (Z * fb_region) :=
  let tail := fr_req_tail r in
  let head := fr_req_head r in
  if AOS_FB_QUEUE_CAPACITY <=? u32 (tail - head) then Some (-1, r)
  else
    reqs ← aset (fr_requests r) (tail mod AOS_FB_QUEUE_CAPACITY) request;
    Some (0, mk_fbregion (fr_req_head r) (u32 (tail + 1)) (fr_resp_head r) (fr_resp_tail r) reqs
               (fr_responses r) (fr_data r) (fr_detach_version r) (fr_detach_request r) (fr_detach_ack r)).

Definition aos_fb_receive (r : fb_region) : option (option fb_response * fb_region) :=
  let tail := fr_resp_tail r in
  let head := fr_resp_head r in
  if (tail =? head) || (AOS_FB_QUEUE_CAPACITY <? u32 (tail - head)) then Some (None, r)
  else
    response ← aget (fr_responses r) (head mod AOS_FB_QUEUE_CAPACITY);
    Some (Some response,
          mk_fbregion (fr_req_head r) (fr_req_tail r) (u32 (head + 1)) (fr_resp_tail r) (fr_requests r)
            (fr_responses r) (fr_data r) (fr_detach_version r) (fr_detach_request r) (fr_detach_ack r)).

(** ** Clients *)

(** The client that [aos_fb_client_init] leaves; [None] is the result -1. *)
Definition aos_fb_client_init (r arena bytes : Z) : option fb_client :=
  if (r =? NULL) || (arena =? NULL) || (bytes <? AOS_FB_ARENA_BYTES) then None
  else
    Some (mk_fbclient r 1 0 0 0 0 0 0 0
      ((fun i => mk_surface 0 0 0 0 (arena, 2 * i * AOS_FB_SURFACE_BYTES)
                   (arena, (2 * i + 1) * AOS_FB_SURFACE_BYTES)) <$> seqZ 0 AOS_FB_MAX_SURFACES)).

(** [r] is dereferenced only after the null checks. *)
Definition aos_fb_client_rebind (c : fb_client) (r arena bytes generation : Z) (w : fb_world)
    : option (Z * fb_client) :=
  if negb (fc_region c =? NULL) || (fc_retired c =? 0) || (fc_generation c =? UINT32_MAX) ||
     (generation =? 0) || negb (generation =? u32 (fc_generation c + 1)) || (r =? NULL) || (arena =? NULL) ||
     (bytes <? AOS_FB_ARENA_BYTES) then Some (-1, c)
  else
    reg ← fw_regions w !! r;
    if negb (fr_req_head reg =? 0) || negb (fr_req_tail reg =? 0) || negb (fr_resp_head reg =? 0) ||
       negb (fr_resp_tail reg =? 0) || negb (fr_detach_version reg =? 0) ||
       negb (fr_detach_request reg =? 0) || negb (fr_detach_ack reg =? 0) then Some (-1, c)
    else
      match aos_fb_client_init r arena bytes with
      | None => Some (-1, c)
      | Some fresh => Some (0, set_generation generation (set_next_handle (fc_next_handle c) fresh))
      end.

(** ** Requests *)

(** The index of the first surface that satisfies [P]. *)
Definition find_surface (P : fb_surface -> bool) (l : list fb_surface) : option Z :=
  (fun p => Z.of_nat p.1) <$> list_find P l.

Definition lookup_surface (c : fb_client) (handle : Z) : option Z :=
  if handle =? 0 then None else find_surface (fun s => su_handle s =? handle) (fc_surfaces c).

Definition geometry_valid (s : fb_surface) (q : fb_request) : bool :=
  negb ((fq_width q =? 0) || (fq_height q =? 0) || (su_width s <? fq_x q) || (su_height s <? fq_y q) ||
        (u32 (su_width s - fq_x q) <? fq_width q) || (u32 (su_height s - fq_y q) <? fq_height q)).

Definition rectangle_valid (s : fb_surface) (q : fb_request) : bool :=
  if negb (geometry_valid s q) then false
  else
    let bytes := u32 (u32 (fq_width q * fq_height q) * AOS_FB_PIXEL_BYTES) in
    (fq_data_offset q <=? AOS_FB_DATA_BYTES) && (fq_data_length q =? bytes) &&
    (bytes <=? u32 (AOS_FB_DATA_BYTES - fq_data_offset q)).

(** The bytes of a frame, and of its pixel [x] in row [y + row]. *)
Definition frame_bytes (s : fb_surface) : Z := u64 (su_width s * su_height s * AOS_FB_PIXEL_BYTES).

Definition row_pixel (s : fb_surface) (x y row : Z) : Z :=
  u64 ((u32 (y + row) * su_width s + x) * AOS_FB_PIXEL_BYTES).

(** The row loop of WRITE and of READ. *)
Definition copy_rectangle (s : fb_surface) (q : fb_request) (arenas : gmap Z smem) (data : smem)
    : option (gmap Z smem * smem) :=
  let row_bytes := u64 (fq_width q * AOS_FB_PIXEL_BYTES) in
  let rows := Z.to_nat (fq_height q) in
  let data_at row := fq_data_offset q + u64 (row * row_bytes) in
  if fq_operation q =? AOS_FB_WRITE then
    m ← arenas !! (su_staging s).1;
    m' ← copy_rows rows 0 (fun row => (su_staging s).2 + row_pixel s (fq_x q) (fq_y q) row) data_at row_bytes m data;
    Some (<[(su_staging s).1 := m']> arenas, data)
  else
    m ← arenas !! (su_committed s).1;
    data' ← copy_rows rows 0 data_at (fun row => (su_committed s).2 + row_pixel s (fq_x q) (fq_y q) row) row_bytes data m;
    Some (arenas, data').

Definition refused (q : fb_request) (status : Z) : fb_response :=
  mk_fbresp AOS_FB_VERSION status (fq_id q) 0 (fq_handle q) 0 0 0.

Definition described (q : fb_request) (s : fb_surface) : fb_response :=
  mk_fbresp AOS_FB_VERSION AOS_FB_OK (fq_id q) 0 (su_handle s) (su_sequence s) (su_width s) (su_height s).

(** The branch of CREATE. *)
Definition fb_create (c : fb_client) (q : fb_request) (w : fb_world)
    : option (fb_response * fb_client * fb_world) :=
  if (fq_width q =? 0) || (fq_height q =? 0) || (AOS_FB_MAX_WIDTH <? fq_width q) ||
     (AOS_FB_MAX_HEIGHT <? fq_height q) then Some (refused q AOS_FB_BAD_BOUNDS, c, w)
  else
    match find_surface (fun s => su_handle s =? 0) (fc_surfaces c) with
    | None => Some (refused q AOS_FB_NO_SPACE, c, w)
    | Some i =>
        if fc_next_handle c =? 0 then Some (refused q AOS_FB_NO_SPACE, c, w)
        else
          s ← aget (fc_surfaces c) i;
          let s' := mk_surface (fc_next_handle c) 0 (fq_width q) (fq_height q) (su_staging s) (su_committed s) in
          l ← aset (fc_surfaces c) i s';
          a ← arena_zero (fw_arenas w) (su_staging s') (frame_bytes s');
          a ← arena_zero a (su_committed s') (frame_bytes s');
          Some (described q s', set_surfaces l (set_next_handle (u64 (fc_next_handle c + 1)) c), set_fw_arenas a w)
    end.

(** The branches of the operations on surface [i]. *)
Definition fb_operate (c : fb_client) (i : Z) (q : fb_request) (w : fb_world)
    : option (fb_response * fb_client * fb_world) :=
  s ← aget (fc_surfaces c) i;
  if fq_operation q =? AOS_FB_SELECT then
    if negb (geometry_valid s q) then Some (refused q AOS_FB_BAD_BOUNDS, c, w)
    else Some (described q s, set_selection (su_handle s) (fq_x q) (fq_y q) (fq_width q) (fq_height q) c, w)
  else if (fq_operation q =? AOS_FB_WRITE) || (fq_operation q =? AOS_FB_READ) then
    if negb (rectangle_valid s q) then Some (refused q AOS_FB_BAD_BOUNDS, c, w)
    else
      r ← fw_regions w !! fc_region c;
      '(a, d) ← copy_rectangle s q (fw_arenas w) (fr_data r);
      Some (described q s, c, set_fw_region (fc_region c) (set_fr_data d r) (set_fw_arenas a w))
  else if fq_operation q =? AOS_FB_FLIP then
    if su_sequence s =? UINT64_MAX then Some (refused q AOS_FB_NO_SPACE, c, w)
    else
      a ← arena_copy (fw_arenas w) (su_committed s) (su_staging s) (frame_bytes s);
      let s' := mk_surface (su_handle s) (u64 (su_sequence s + 1)) (su_width s) (su_height s)
                  (su_staging s) (su_committed s) in
      l ← aset (fc_surfaces c) i s';
      Some (described q s', set_surfaces l c, set_fw_arenas a w)
  else if fq_operation q =? AOS_FB_DESTROY then
    l ← aset (fc_surfaces c) i
          (mk_surface 0 (su_sequence s) (su_width s) (su_height s) (su_staging s) (su_committed s));
    let c' := if fc_selected_handle c =? su_handle s then set_selected_handle 0 c else c in
    Some (described q s, set_surfaces l c', w)
  else Some (described q s, c, w).

Definition fb_execute (c : fb_client) (q : fb_request) (w : fb_world)
    : option (fb_response * fb_client * fb_world) :=
  if negb (fq_version q =? AOS_FB_VERSION) then Some (refused q AOS_FB_BAD_VERSION, c, w)
  else if negb (fq_reserved q =? 0) then Some (refused q AOS_FB_BAD_OPERATION, c, w)
  else if (fq_operation q <? AOS_FB_CREATE) || (AOS_FB_SELECT <? fq_operation q) then
    Some (refused q AOS_FB_BAD_OPERATION, c, w)
  else if (fq_operation q =? AOS_FB_SELECT) && (fq_handle q =? 0) then
    Some (refused q AOS_FB_OK, set_selection 0 0 0 0 0 c, w)
  else if fq_operation q =? AOS_FB_CREATE then fb_create c q w
  else
    match lookup_surface c (fq_handle q) with
    | None => Some (refused q AOS_FB_BAD_HANDLE, c, w)
    | Some i => fb_operate c i q w
    end.

(** ** The pump *)

(** The request loop, [fuel] more times; it runs at most sixteen. *)
Fixpoint fb_pump_loop (fuel : nat) (completed : Z) (c : fb_client) (w : fb_world)
    : option (Z * fb_client * fb_world) :=
  match fuel with
  | O => Some (completed, c, w)
  | S fuel =>
      r ← fw_regions w !! fc_region c;
      let head := fr_req_head r in
      let tail := fr_req_tail r in
      let out := fr_resp_tail r in
      let consumed := fr_resp_head r in
      if (head =? tail) || (AOS_FB_QUEUE_CAPACITY <? u32 (tail - head)) ||
         (AOS_FB_QUEUE_CAPACITY <=? u32 (out - consumed)) then Some (completed, c, w)
      else
        request ← aget (fr_requests r) (head mod AOS_FB_QUEUE_CAPACITY);
        '(response, c', w') ← fb_execute c request w;
        r' ← fw_regions w' !! fc_region c;
        resps ← aset (fr_responses r') (out mod AOS_FB_QUEUE_CAPACITY) response;
        let r'' := mk_fbregion (u32 (head + 1)) (fr_req_tail r') (fr_resp_head r') (u32 (out + 1))
                     (fr_requests r') resps (fr_data r') (fr_detach_version r') (fr_detach_request r')
                     (fr_detach_ack r') in
        fb_pump_loop fuel (completed + 1) c' (set_fw_region (fc_region c) r'' w')
  end.

Definition aos_fb_pump (c : fb_client) (w : fb_world) : option (Z * fb_client * fb_world) :=
  if fc_region c =? NULL then Some (0, c, w)
  else
    r ← fw_regions w !! fc_region c;
    if (fr_detach_request r =? 1) && (fr_detach_version r =? AOS_FB_DETACH_VERSION) then
      let c' := mk_fbclient NULL (fc_next_handle c) (fc_generation c) 1 0 0 0 0 0
                  (replicate (Z.to_nat AOS_FB_MAX_SURFACES) null_surface) in
      let r' := mk_fbregion (fr_req_head r) (fr_req_tail r) (fr_resp_head r) (fr_resp_tail r) (fr_requests r)
                  (fr_responses r) (fr_data r) (fr_detach_version r) (fr_detach_request r) 1 in
      Some (1, c', set_fw_region (fc_region c) r' w)
    else fb_pump_loop (Z.to_nat AOS_FB_QUEUE_CAPACITY) 0 c w.

(** ** Rebinding a retired client *)

Definition FB_REBIND_VERSION : Z := 1.
Definition FB_REBIND_STAGE : Z := 1.
Definition FB_REBIND_COMMIT : Z := 2.
Definition FB_REBIND_ABORT : Z := 3.
Definition FB_REBIND_FRAMES : Z := 13.

(** enum fb_rebind_status *)
Definition FB_REBIND_OK : Z := 0.
Definition FB_REBIND_BAD_REQUEST : Z := 1.
Definition FB_REBIND_DENIED : Z := 2.
Definition FB_REBIND_BAD_STATE : Z := 3.
Definition FB_REBIND_RESOURCE : Z := 4.

Record fb_rebind := mk_fbrebind { rb_generation : Z; rb_next_frame : Z }.
Record fb_rebind_req := mk_rbreq { rq_version : Z; rq_client : Z; rq_generation : Z; rq_index : Z }.

(** [sizeof(fb_rebind_req_t)] *)
Definition FB_REBIND_REQ_BYTES : Z := 16.

Definition aos_fb_rebind_validate (c : fb_client) (s : fb_rebind) (badge op : Z) (q : fb_rebind_req) (length : Z) : Z :=
  if negb (length =? FB_REBIND_REQ_BYTES) || negb (rq_version q =? FB_REBIND_VERSION) ||
     (op <? FB_REBIND_STAGE) || (FB_REBIND_ABORT <? op) then FB_REBIND_BAD_REQUEST
  else if (AOS_FB_CLIENTS <=? rq_client q) || negb (virt_client_authorized badge (rq_client q) (rq_client q)) then
    FB_REBIND_DENIED
  else if (op =? FB_REBIND_ABORT) && (rq_index q =? 0) && negb (rq_generation q =? 0) &&
          negb (fc_retired c =? 0) && (fc_region c =? NULL) && (rb_next_frame s =? 0) &&
          (rb_generation s =? 0) && (rq_generation q =? fc_generation c) then FB_REBIND_OK
  else if negb (fc_region c =? NULL) || (fc_retired c =? 0) || (fc_generation c =? UINT32_MAX) ||
          (rq_generation q =? 0) || negb (rq_generation q =? u32 (fc_generation c + 1)) ||
          (negb (rb_next_frame s =? 0) && negb (rb_generation s =? rq_generation q)) ||
          ((rb_next_frame s =? 0) && negb (rb_generation s =? 0)) then FB_REBIND_BAD_STATE
  else if op =? FB_REBIND_STAGE then
    if (rq_index q <? FB_REBIND_FRAMES) && (rq_index q =? rb_next_frame s) then FB_REBIND_OK else FB_REBIND_BAD_STATE
  else if negb (rq_index q =? 0) then FB_REBIND_BAD_REQUEST
  else if op =? FB_REBIND_COMMIT then
    if rb_next_frame s =? FB_REBIND_FRAMES then FB_REBIND_OK else FB_REBIND_BAD_STATE
  else if rb_next_frame s <=? FB_REBIND_FRAMES then FB_REBIND_OK else FB_REBIND_BAD_STATE.

Definition aos_fb_rebind_staged (c : fb_client) (s : fb_rebind) (badge : Z) (q : fb_rebind_req) : Z * fb_rebind :=
  let status := aos_fb_rebind_validate c s badge FB_REBIND_STAGE q FB_REBIND_REQ_BYTES in
  if negb (status =? FB_REBIND_OK) then (status, s)
  else (FB_REBIND_OK, mk_fbrebind (rq_generation q) (u32 (rb_next_frame s + 1))).

Definition aos_fb_rebind_commit (c : fb_client) (s : fb_rebind) (badge : Z) (q : fb_rebind_req)
    (region arena : Z) (w : fb_world) : option (Z * fb_client * fb_rebind) :=
  let status := aos_fb_rebind_validate c s badge FB_REBIND_COMMIT q FB_REBIND_REQ_BYTES in
  if negb (status =? FB_REBIND_OK) then Some (status, c, s)
  else
    '(result, c') ← aos_fb_client_rebind c region arena AOS_FB_ARENA_BYTES (rq_generation q) w;
    if negb (result =? 0) then Some (FB_REBIND_RESOURCE, c', s)
    else Some (FB_REBIND_OK, c', mk_fbrebind 0 0).

Definition aos_fb_rebind_aborted (c : fb_client) (s : fb_rebind) (badge : Z) (q : fb_rebind_req)
    : Z * fb_client * fb_rebind :=
  let status := aos_fb_rebind_validate c s badge FB_REBIND_ABORT q FB_REBIND_REQ_BYTES in
  if negb (status =? FB_REBIND_OK) then (status, c, s)
  else (FB_REBIND_OK, set_generation (rq_generation q) c, mk_fbrebind 0 0).

(** ** Specification

    A frame gives the bytes of the pixel at [x], [y]; a screen is what a
    client can name. [sc_next] is the next handle, 2^64 when all have been
    given out. *)

Definition frame : Type := Z -> Z -> Z -> Z.

Record picture := mk_picture {
  pi_width : Z; pi_height : Z; pi_sequence : Z; pi_staging : frame; pi_committed : frame }.

Record screen := mk_screen {
  sc_next : Z; sc_pictures : gmap Z picture;
  sc_selected : Z; sc_rectangle : Z * Z * Z * Z }.

Definition blank : frame := fun _ _ _ => 0.

(** A rectangle of nonzero extent inside the picture. *)
Definition fits (x y w h : Z) (p : picture) : bool :=
  (0 <? w) && (0 <? h) && (x + w <=? pi_width p) && (y + h <=? pi_height p).

(** Its pixels, packed, fill the payload the request names. *)
Definition payload_fits (q : fb_request) : bool :=
  (fq_data_length q =? 4 * (fq_width q * fq_height q)) &&
  (fq_data_offset q + 4 * (fq_width q * fq_height q) <=? AOS_FB_DATA_BYTES).

Definition overlay (q : fb_request) (data : Z -> Z) (f : frame) : frame := fun x y b =>
  if decide (fq_x q <= x < fq_x q + fq_width q /\ fq_y q <= y < fq_y q + fq_height q)
  then data (fq_data_offset q + ((y - fq_y q) * fq_width q + (x - fq_x q)) * 4 + b)
  else f x y b.

Definition export (q : fb_request) (f : frame) (data : Z -> Z) : Z -> Z := fun k =>
  let j := k - fq_data_offset q in
  if decide (0 <= j < 4 * (fq_width q * fq_height q))
  then f (fq_x q + j / 4 mod fq_width q) (fq_y q + j / 4 / fq_width q) (j mod 4)
  else data k.

Definition set_picture (h : Z) (p : picture) (S : screen) : screen :=
  mk_screen (sc_next S) (<[h := p]> (sc_pictures S)) (sc_selected S) (sc_rectangle S).

Definition picture_info (q : fb_request) (h : Z) (p : picture) : fb_response :=
  mk_fbresp AOS_FB_VERSION AOS_FB_OK (fq_id q) 0 h (pi_sequence p) (pi_width p) (pi_height p).

Definition spec_create (S : screen) (q : fb_request) : fb_response * screen :=
  if (fq_width q =? 0) || (fq_height q =? 0) || (1024 <? fq_width q) || (768 <? fq_height q) then
    (refused q AOS_FB_BAD_BOUNDS, S)
  else if (4 <=? Z.of_nat (size (sc_pictures S))) || (sc_next S =? 2 ^ 64) then (refused q AOS_FB_NO_SPACE, S)
  else
    let p := mk_picture (fq_width q) (fq_height q) 0 blank blank in
    (picture_info q (sc_next S) p,
     mk_screen (sc_next S + 1) (<[sc_next S := p]> (sc_pictures S)) (sc_selected S) (sc_rectangle S)).

(** An operation on the picture [p] with handle [h]. *)
Definition spec_operate (S : screen) (h : Z) (p : picture) (q : fb_request) (data : Z -> Z)
    : fb_response * screen * (Z -> Z) :=
  if fq_operation q =? AOS_FB_SELECT then
    if fits (fq_x q) (fq_y q) (fq_width q) (fq_height q) p then
      (picture_info q h p,
       mk_screen (sc_next S) (sc_pictures S) h (fq_x q, fq_y q, fq_width q, fq_height q), data)
    else (refused q AOS_FB_BAD_BOUNDS, S, data)
  else if (fq_operation q =? AOS_FB_WRITE) || (fq_operation q =? AOS_FB_READ) then
    if fits (fq_x q) (fq_y q) (fq_width q) (fq_height q) p && payload_fits q then
      if fq_operation q =? AOS_FB_WRITE then
        let p' := mk_picture (pi_width p) (pi_height p) (pi_sequence p) (overlay q data (pi_staging p)) (pi_committed p) in
        (picture_info q h p', set_picture h p' S, data)
      else (picture_info q h p, S, export q (pi_committed p) data)
    else (refused q AOS_FB_BAD_BOUNDS, S, data)
  else if fq_operation q =? AOS_FB_FLIP then
    if pi_sequence p =? UINT64_MAX then (refused q AOS_FB_NO_SPACE, S, data)
    else
      let p' := mk_picture (pi_width p) (pi_height p) (pi_sequence p + 1) (pi_staging p) (pi_staging p) in
      (picture_info q h p', set_picture h p' S, data)
  else if fq_operation q =? AOS_FB_DESTROY then
    (picture_info q h p,
     mk_screen (sc_next S) (delete h (sc_pictures S)) (if sc_selected S =? h then 0 else sc_selected S) (sc_rectangle S),
     data)
  else (picture_info q h p, S, data).

Definition spec_execute (S : screen) (q : fb_request) (data : Z -> Z) : fb_response * screen * (Z -> Z) :=
  if negb (fq_version q =? AOS_FB_VERSION) then (refused q AOS_FB_BAD_VERSION, S, data)
  else if negb (fq_reserved q =? 0) then (refused q AOS_FB_BAD_OPERATION, S, data)
  else if (fq_operation q <? AOS_FB_CREATE) || (AOS_FB_SELECT <? fq_operation q) then
    (refused q AOS_FB_BAD_OPERATION, S, data)
  else if (fq_operation q =? AOS_FB_SELECT) && (fq_handle q =? 0) then
    (refused q AOS_FB_OK, mk_screen (sc_next S) (sc_pictures S) 0 (0, 0, 0, 0), data)
  else if fq_operation q =? AOS_FB_CREATE then (spec_create S q, data)
  else
    match sc_pictures S !! fq_handle q with
    | None => (refused q AOS_FB_BAD_HANDLE, S, data)
    | Some p => spec_operate S (fq_handle q) p q data
    end.

(** A sequence of requests. *)
Fixpoint spec_run (S : screen) (qs : list fb_request) (data : Z -> Z) : list fb_response * screen * (Z -> Z) :=
  match qs with
  | [] => ([], S, data)
  | q :: qs =>
      let '(p, S1, data1) := spec_execute S q data in
      let '(ps, S2, data2) := spec_run S1 qs data1 in
      (p :: ps, S2, data2)
  end.

(** ** Representation *)

(** The next handle, as the service counts: zero is exhaustion. *)
Definition handle_mark (next : Z) : Z := if next =? 0 then 2 ^ 64 else next.

Definition pixel_at (s : fb_surface) (x y b : Z) : Z := (y * su_width s + x) * 4 + b.

Definition in_frame (s : fb_surface) (x y b : Z) : Prop :=
  0 <= x < su_width s /\ 0 <= y < su_height s /\ 0 <= b < 4.

Record surface_ok (arena i : Z) (s : fb_surface) : Prop := {
  so_staging : su_staging s = (arena, 2 * i * AOS_FB_SURFACE_BYTES);
  so_committed : su_committed s = (arena, (2 * i + 1) * AOS_FB_SURFACE_BYTES);
  so_sequence : is_u64 (su_sequence s);
  so_handle : is_u64 (su_handle s);
  so_size : su_handle s <> 0 -> 1 <= su_width s <= 1024 /\ 1 <= su_height s <= 768 }.

(** The arena [m] holds the picture [p] for [s]. *)
Record shows (m : smem) (s : fb_surface) (p : picture) : Prop := {
  sh_width : pi_width p = su_width s;
  sh_height : pi_height p = su_height s;
  sh_sequence : pi_sequence p = su_sequence s;
  sh_staging : forall x y b, in_frame s x y b ->
    mbyte m ((su_staging s).2 + pixel_at s x y b) = pi_staging p x y b;
  sh_committed : forall x y b, in_frame s x y b ->
    mbyte m ((su_committed s).2 + pixel_at s x y b) = pi_committed p x y b }.

Record fb_repr (arena : Z) (c : fb_client) (m : smem) (S : screen) : Prop := {
  re_arena : AOS_FB_ARENA_BYTES <= sm_size m;
  re_next : is_u64 (fc_next_handle c) /\ sc_next S = handle_mark (fc_next_handle c);
  re_length : length (fc_surfaces c) = 4%nat;
  re_surfaces : forall i s, fc_surfaces c !! i = Some s -> surface_ok arena (Z.of_nat i) s;
  re_distinct : forall i j s t, fc_surfaces c !! i = Some s -> fc_surfaces c !! j = Some t ->
    su_handle s = su_handle t -> su_handle s <> 0 -> i = j;
  re_issued : forall i s, fc_surfaces c !! i = Some s -> su_handle s < sc_next S;
  re_shows : forall i s, fc_surfaces c !! i = Some s -> su_handle s <> 0 ->
    exists p, sc_pictures S !! su_handle s = Some p /\ shows m s p;
  re_only : forall h p, sc_pictures S !! h = Some p ->
    h <> 0 /\ exists i s, fc_surfaces c !! i = Some s /\ su_handle s = h;
  re_selected : sc_selected S = fc_selected_handle c;
  re_rectangle : sc_rectangle S =
    (fc_selected_x c, fc_selected_y c, fc_selected_width c, fc_selected_height c);
  re_selection : fc_selected_handle c <> 0 ->
    exists p, sc_pictures S !! fc_selected_handle c = Some p /\ 0 <= fc_selected_x c /\ 0 <= fc_selected_y c /\
      fits (fc_selected_x c) (fc_selected_y c) (fc_selected_width c) (fc_selected_height c) p = true }.

(** What the C types say of a request and of a region, whatever a client
    writes there. *)
Record fb_request_ok (q : fb_request) : Prop := {
  ro_handle : is_u64 (fq_handle q);
  ro_x : is_u32 (fq_x q); ro_y : is_u32 (fq_y q);
  ro_width : is_u32 (fq_width q); ro_height : is_u32 (fq_height q);
  ro_offset : is_u32 (fq_data_offset q); ro_dlength : is_u32 (fq_data_length q) }.

Record fb_region_ok (r : fb_region) : Prop := {
  rr_req_head : is_u32 (fr_req_head r); rr_req_tail : is_u32 (fr_req_tail r);
  rr_resp_head : is_u32 (fr_resp_head r); rr_resp_tail : is_u32 (fr_resp_tail r);
  rr_requests : length (fr_requests r) = 16%nat; rr_responses : length (fr_responses r) = 16%nat;
  rr_typed : Forall fb_request_ok (fr_requests r);
  rr_data : sm_size (fr_data r) = AOS_FB_DATA_BYTES }.

(** ** Validation agrees with the specification *)

Definition sized (s : fb_surface) : Prop := 1 <= su_width s <= 1024 /\ 1 <= su_height s <= 768.

Lemma geometry_valid_fits m s p q :
  sized s -> fb_request_ok q -> shows m s p ->
  geometry_valid s q = fits (fq_x q) (fq_y q) (fq_width q) (fq_height q) p.
Proof.
  intros [? ?] [] [Hw Hh _ _ _]. unfold geometry_valid, fits. rewrite Hw, Hh.
  apply Bool.eq_iff_eq_true.
  rewrite negb_true_iff, !orb_false_iff, !andb_true_iff, !Z.eqb_neq, !Z.ltb_ge, !Z.ltb_lt, !Z.leb_le.
  mod_lia.
Qed.

Lemma fits_extent s p m q :
  sized s -> fb_request_ok q -> shows m s p ->
  fits (fq_x q) (fq_y q) (fq_width q) (fq_height q) p = true ->
  1 <= fq_width q /\ fq_x q + fq_width q <= su_width s /\
  1 <= fq_height q /\ fq_y q + fq_height q <= su_height s /\
  1 <= fq_width q * fq_height q <= su_width s * su_height s /\ su_width s * su_height s <= 1024 * 768.
Proof.
  intros [? ?] [] [Hw Hh _ _ _]. unfold fits. rewrite Hw, Hh, !andb_true_iff, !Z.ltb_lt, !Z.leb_le.
  unfold is_u32 in *. intros. split_and!; try lia; nia.
Qed.

Lemma rectangle_valid_fits m s p q :
  sized s -> fb_request_ok q -> shows m s p ->
  rectangle_valid s q = fits (fq_x q) (fq_y q) (fq_width q) (fq_height q) p && payload_fits q.
Proof.
  intros Hs Hq Hp. unfold rectangle_valid. rewrite (geometry_valid_fits m s p q) by done.
  destruct (fits _ _ _ _ p) eqn:Hf; [|done]. cbn [negb andb].
  pose proof (fits_extent s p m q Hs Hq Hp Hf). destruct Hq as [_ _ _ _ _ Ho Hl].
  unfold payload_fits, AOS_FB_PIXEL_BYTES, AOS_FB_DATA_BYTES in *.
  rewrite (u32_small (fq_width q * fq_height q)) by (unfold is_u32; lia).
  rewrite (u32_small (fq_width q * fq_height q * 4)) by (unfold is_u32; lia).
  apply Bool.eq_iff_eq_true. rewrite !andb_true_iff, !Z.eqb_eq, !Z.leb_le. unfold is_u32 in *.
  destruct (Z.leb_spec (fq_data_offset q) 65536); [|lia].
  rewrite u32_small by (unfold is_u32; lia). lia.
Qed.

(** ** Addresses inside the arena *)

Ltac sb_lia := change AOS_FB_ARENA_BYTES with (8 * 3145728) in *; change AOS_FB_SURFACE_BYTES with 3145728 in *; lia.

Lemma pixel_bound s x y b :
  sized s -> in_frame s x y b ->
  0 <= pixel_at s x y b < su_width s * su_height s * 4 /\
  su_width s * su_height s * 4 <= AOS_FB_SURFACE_BYTES.
Proof.
  unfold sized, in_frame, pixel_at, AOS_FB_SURFACE_BYTES, AOS_FB_MAX_WIDTH, AOS_FB_MAX_HEIGHT, AOS_FB_PIXEL_BYTES.
  intros. nia.
Qed.

Lemma frame_bytes_ok s :
  sized s -> frame_bytes s = su_width s * su_height s * 4 /\ 4 <= frame_bytes s <= AOS_FB_SURFACE_BYTES.
Proof.
  intros [? ?]. unfold frame_bytes, AOS_FB_SURFACE_BYTES, AOS_FB_MAX_WIDTH, AOS_FB_MAX_HEIGHT, AOS_FB_PIXEL_BYTES.
  assert (1 <= su_width s * su_height s <= 1024 * 768) by nia.
  rewrite u64_small by (unfold is_u64; lia). lia.
Qed.

(** [m'] is [m] except in the storage of surface [i]. *)
Definition same_outside (i : Z) (m m' : smem) : Prop :=
  sm_size m' = sm_size m /\
  forall k, k < 2 * i * AOS_FB_SURFACE_BYTES \/ (2 * i + 2) * AOS_FB_SURFACE_BYTES <= k -> mbyte m' k = mbyte m k.

Lemma shows_frame arena i j m m' s p :
  surface_ok arena j s -> su_handle s <> 0 -> i <> j -> same_outside i m m' -> shows m s p -> shows m' s p.
Proof.
  intros [Hst Hco _ _ Hsz] Hh Hij [_ Hm] [H1 H2 H3 H4 H5]. specialize (Hsz Hh).
  split; try done; intros x y b Hin; pose proof (pixel_bound s x y b Hsz Hin) as [? ?].
  - rewrite <- H4 by done. apply Hm. rewrite Hst. cbn. sb_lia.
  - rewrite <- H5 by done. apply Hm. rewrite Hco. cbn. sb_lia.
Qed.

(** A surface that shows the same picture in the same arena bytes. *)
Lemma fb_repr_update arena c m S i s s' m' p p' :
  fb_repr arena c m S -> fc_surfaces c !! i = Some s -> su_handle s <> 0 ->
  su_handle s' = su_handle s -> surface_ok arena (Z.of_nat i) s' ->
  sc_pictures S !! su_handle s = Some p -> pi_width p' = pi_width p -> pi_height p' = pi_height p ->
  shows m' s' p' -> same_outside (Z.of_nat i) m m' ->
  fb_repr arena (set_surfaces (<[i := s']> (fc_surfaces c)) c) m' (set_picture (su_handle s) p' S).
Proof.
  intros [Ha Hn Hl Hso Hd Hi Hsh Ho Hse Hre Hsn] Hs Hh Hh' Hok Hp Hw Hht Hs' Hm.
  assert (i < length (fc_surfaces c))%nat as Hlt by by eapply lookup_lt_Some.
  split; cbn; try done.
  - destruct Hm as [-> _]. done.
  - by rewrite length_insert.
  - intros j t [(<- & <- & _)|[? Ht]]%list_lookup_insert_Some; auto.
  - intros j k t u [(<- & <- & _)|[? Ht]]%list_lookup_insert_Some [(<- & <- & _)|[? Hu]]%list_lookup_insert_Some; try done;
      rewrite ?Hh'; eauto. 
  - intros j t [(<- & <- & _)|[? Ht]]%list_lookup_insert_Some; [rewrite Hh'|]; eauto.
  - intros j t [(<- & <- & _)|[Hij Ht]]%list_lookup_insert_Some Hth.
    + exists p'. by rewrite Hh', lookup_insert_eq.
    + destruct (Hsh j t Ht Hth) as (pt & Hpt & Hst). exists pt.
      rewrite lookup_insert_ne by (intros He; apply Hij; eauto).
      split; [done|]. eapply (shows_frame arena (Z.of_nat i) (Z.of_nat j)); eauto. lia.
  - intros h pp [[<- _]|[Hne Hpp]]%lookup_insert_Some.
    + split; [done|]. exists i, s'. by rewrite list_lookup_insert_eq.
    + destruct (Ho h pp Hpp) as (? & j & t & Ht & <-). split; [done|]. exists j, t.
      split; [|done]. rewrite list_lookup_insert_ne; [done|]. intros ->. congruence.
  - intros Hs0. destruct (Hsn Hs0) as (pp & Hpp & ? & ? & Hf).
    destruct (decide (su_handle s = fc_selected_handle c)) as [He|].
    + exists p'. rewrite He, lookup_insert_eq. rewrite He in Hp. simplify_eq.
      unfold fits in *. rewrite Hw, Hht. done.
    + exists pp. by rewrite lookup_insert_ne.
Qed.

(** ** Rows of a rectangle *)

(** A pixel [x], [y] of a frame of width [W], counted in rows from the
    corner [qx], [qy] of a rectangle of width [qw]. *)
Lemma row_of_pixel W qx qy qw x y b :
  0 <= x < W -> 0 <= b < 4 -> 0 <= qx -> 0 < qw -> qx + qw <= W ->
  let j := ((y - qy) * W + (x - qx)) * 4 + b in
  if decide (qx <= x < qx + qw) then j / (W * 4) = y - qy /\ j mod (W * 4) = (x - qx) * 4 + b
  else qw * 4 <= j mod (W * 4).
Proof.
  intros Hx Hb Hqx Hqw HW j.
  destruct (decide (qx <= x)).
  - assert (j / (W * 4) = y - qy /\ j mod (W * 4) = (x - qx) * 4 + b) as [Hd Hm].
    { split; [symmetry; apply (Z.div_unique _ _ _ ((x - qx) * 4 + b))
             |symmetry; apply (Z.mod_unique _ _ (y - qy))]; subst j; lia. }
    case_decide; [done|]. rewrite Hm. lia.
  - rewrite decide_False by lia. 
    assert (j mod (W * 4) = (W + x - qx) * 4 + b) as ->; [|lia].
    symmetry; apply (Z.mod_unique _ _ (y - qy - 1)); subst j; lia.
Qed.

(** Byte [j] of packed rows of [w] pixels. *)
Lemma row_major w h j :
  0 < w -> 0 <= j < 4 * (w * h) ->
  0 <= j / 4 mod w < w /\ 0 <= j / 4 / w < h /\ 0 <= j mod 4 < 4 /\
  j / (w * 4) = j / 4 / w /\ j mod (w * 4) = j / 4 mod w * 4 + j mod 4.
Proof.
  intros. pose proof (Z.mod_pos_bound (j / 4) w ltac:(lia)). pose proof (Z.mod_pos_bound j 4 ltac:(lia)).
  split_and!; try lia.
  - apply Z.div_pos; [apply Z.div_pos|]; lia.
  - rewrite Z.div_div by lia. apply Z.div_lt_upper_bound; lia.
  - rewrite Z.div_div by lia. f_equal. lia.
  - rewrite (Z.mul_comm w 4), Z.rem_mul_r by lia. lia.
Qed.

(** The rectangle of a valid request, with its addresses free of wrap. *)
Record rect_in (s : fb_surface) (q : fb_request) : Prop := {
  ri_sized : sized s;
  ri_request : fb_request_ok q;
  ri_width : 1 <= fq_width q; ri_height : 1 <= fq_height q;
  ri_right : fq_x q + fq_width q <= su_width s;
  ri_bottom : fq_y q + fq_height q <= su_height s }.

Lemma fits_rect m s p q :
  sized s -> fb_request_ok q -> shows m s p ->
  fits (fq_x q) (fq_y q) (fq_width q) (fq_height q) p = true -> rect_in s q.
Proof. intros Hs Hq Hp Hf. pose proof (fits_extent s p m q Hs Hq Hp Hf). split; tauto. Qed.

Lemma rect_addresses s q row :
  rect_in s q -> 0 <= row < fq_height q ->
  row_pixel s (fq_x q) (fq_y q) row = (fq_y q * su_width s + fq_x q) * 4 + row * (su_width s * 4) /\
  0 <= row_pixel s (fq_x q) (fq_y q) row /\
  row_pixel s (fq_x q) (fq_y q) row + fq_width q * 4 <= su_width s * su_height s * 4 /\
  u64 (fq_width q * AOS_FB_PIXEL_BYTES) = fq_width q * 4 /\
  u64 (row * u64 (fq_width q * AOS_FB_PIXEL_BYTES)) = row * (fq_width q * 4) /\
  row * (fq_width q * 4) + fq_width q * 4 <= 4 * (fq_width q * fq_height q).
Proof.
  intros [[? ?] [_ Hx Hy Hw Hh _ _] ? ? ? ?] Hr. unfold row_pixel, AOS_FB_PIXEL_BYTES, is_u32 in *.
  rewrite (u32_small (fq_y q + row)) by (unfold is_u32; lia).
  assert (0 <= (fq_y q + row) * su_width s <= 768 * 1024) by nia.
  assert ((fq_y q + row) * su_width s + su_width s <= su_width s * su_height s) by nia.
  rewrite (u64_small (_ * 4)) by (unfold is_u64; lia).
  rewrite (u64_small (fq_width q * 4)) by (unfold is_u64; lia).
  assert (0 <= row * (fq_width q * 4) <= 768 * 4096) by nia.
  rewrite u64_small by (unfold is_u64; lia). split_and!; try lia; nia.
Qed.

(** Bytes of a frame at [base] that the rows of a rectangle cover. *)
Lemma rect_bytes s q j :
  rect_in s q ->
  0 <= (j - (fq_y q * su_width s + fq_x q) * 4) / (su_width s * 4) < 0 + fq_height q ->
  (j - (fq_y q * su_width s + fq_x q) * 4) mod (su_width s * 4) < fq_width q * 4 ->
  0 <= j < su_width s * su_height s * 4.
Proof.
  intros [[? ?] [_ Hx Hy Hw Hh _ _] ? ? ? ?] Hd Hm. unfold is_u32 in *.
  set (k := j - _) in *. pose proof (Z.div_mod k (su_width s * 4) ltac:(lia)) as Hk.
  pose proof (Z.mod_pos_bound k (su_width s * 4) ltac:(lia)).
  set (r := k / _) in *. set (i := k mod _) in *.
  assert (0 <= r * su_width s /\ r * su_width s + su_width s <= fq_height q * su_width s) by nia.
  assert (0 <= fq_y q * su_width s) by nia.
  assert ((fq_y q + fq_height q) * su_width s <= su_width s * su_height s) by nia.
  subst k. lia.
Qed.

(** Pixels of the frame, rectangle or not. *)
Lemma rect_pixel s q x y b :
  rect_in s q -> in_frame s x y b ->
  let j := pixel_at s x y b - (fq_y q * su_width s + fq_x q) * 4 in
  if decide (fq_x q <= x < fq_x q + fq_width q /\ fq_y q <= y < fq_y q + fq_height q)
  then j / (su_width s * 4) = y - fq_y q /\ j mod (su_width s * 4) = (x - fq_x q) * 4 + b
  else ~ (0 <= j / (su_width s * 4) < 0 + fq_height q /\ j mod (su_width s * 4) < fq_width q * 4).
Proof.
  intros [[? ?] [_ Hx Hy Hw Hh _ _] ? ? ? ?] (? & ? & ?) j. unfold is_u32 in *.
  pose proof (row_of_pixel (su_width s) (fq_x q) (fq_y q) (fq_width q) x y b) as Hr.
  cbv zeta in Hr. replace (_ * 4 + b) with j in Hr by (subst j; unfold pixel_at; lia).
  do 5 (specialize (Hr ltac:(lia))).
  destruct (decide (fq_x q <= x < fq_x q + fq_width q /\ fq_y q <= y < fq_y q + fq_height q)).
  - rewrite decide_True in Hr by lia. done.
  - intros [Hd Hm]. case_decide; lia.
Qed.

Lemma write_rectangle arena i s q m data p arenas :
  surface_ok arena i s -> 0 <= i < 4 -> AOS_FB_ARENA_BYTES <= sm_size m ->
  sm_size data = AOS_FB_DATA_BYTES -> rect_in s q -> payload_fits q = true -> shows m s p ->
  fq_operation q = AOS_FB_WRITE -> arenas !! arena = Some m ->
  exists m', copy_rectangle s q arenas data = Some (<[arena := m']> arenas, data) /\ same_outside i m m' /\
    forall f, (forall k, mbyte data k = f k) ->
    shows m' s (mk_picture (pi_width p) (pi_height p) (pi_sequence p) (overlay q f (pi_staging p)) (pi_committed p)).
Proof.
  intros Hs Hi Hm Hd Hr Hpf Hp Hop Ha. pose proof Hr as [Hsz Hq ? ? ? ?]. pose proof Hs as [Hst Hco _ _ _].
  apply andb_true_iff in Hpf as [_ Hpf%Z.leb_le]. pose proof Hq as [_ Hx Hy Hw Hh Ho _]. unfold is_u32 in *.
  unfold copy_rectangle. rewrite Hop, Z.eqb_refl, Hst. cbn [fst snd]. rewrite Ha. cbn [mbind option_bind].
  destruct (rect_addresses s q 0 Hr ltac:(lia)) as (_ & _ & _ & Hn & _). rewrite Hn.
  pose proof (frame_bytes_ok s Hsz) as [Hfb ?]. rewrite Hfb in *.
  edestruct (copy_rows_affine (Z.to_nat (fq_height q)) 0
     (fun row => 2 * i * AOS_FB_SURFACE_BYTES + row_pixel s (fq_x q) (fq_y q) row)
     (fun row => fq_data_offset q + u64 (row * (fq_width q * 4))) (fq_width q * 4)
     (2 * i * AOS_FB_SURFACE_BYTES + (fq_y q * su_width s + fq_x q) * 4) (su_width s * 4)
     (fq_data_offset q) (fq_width q * 4) m data) as (m' & -> & Hsize & Hb); [|lia|].
  { intros r ?. destruct (rect_addresses s q r Hr ltac:(lia)) as (Hrp & ? & ? & _ & Hu & ?). rewrite Hn in Hu.
    rewrite Hu, Hd. rewrite Hrp in *. split_and!; try lia; sb_lia. }
  rewrite Z2Nat.id in Hb by lia. cbn [mbind option_bind]. exists m'. split; [done|].
  assert (forall k, k < 2 * i * AOS_FB_SURFACE_BYTES \/
    2 * i * AOS_FB_SURFACE_BYTES + su_width s * su_height s * 4 <= k -> mbyte m' k = mbyte m k) as Hout.
  { intros k Hk. rewrite Hb. case_decide as Hc; [|done]. exfalso.
    pose proof (rect_bytes s q (k - 2 * i * AOS_FB_SURFACE_BYTES) Hr) as Hrb.
    replace (k - 2 * i * AOS_FB_SURFACE_BYTES - (fq_y q * su_width s + fq_x q) * 4)
      with (k - (2 * i * AOS_FB_SURFACE_BYTES + (fq_y q * su_width s + fq_x q) * 4)) in Hrb by lia.
    destruct Hc as [Hc1 Hc2]. specialize (Hrb Hc1 Hc2). lia. }
  split; [split; [done|intros; apply Hout; sb_lia]|].
  intros f Hf. destruct Hp as [? ? ? Hps Hpc]. split; cbn; try done; intros x y b Hin;
    pose proof (pixel_bound s x y b Hsz Hin) as [? ?].
  - unfold overlay. rewrite <- Hps by done. rewrite Hb, Hst. cbn [snd].
    pose proof (rect_pixel s q x y b Hr Hin) as Hrp. cbv zeta in Hrp.
    replace (2 * i * AOS_FB_SURFACE_BYTES + pixel_at s x y b - _)
      with (pixel_at s x y b - (fq_y q * su_width s + fq_x q) * 4) by lia.
    destruct (decide (fq_x q <= x < fq_x q + fq_width q /\ fq_y q <= y < fq_y q + fq_height q)).
    + destruct Hrp as [-> ->], Hin as (? & ? & ?). rewrite decide_True by lia. rewrite <- Hf. apply (f_equal (mbyte data)). lia.
    + rewrite decide_False by done. done.
  - rewrite <- Hpc by done. apply Hout. rewrite Hco. cbn. sb_lia.
Qed.

Lemma read_rectangle arena i s q m data p arenas f :
  surface_ok arena i s -> 0 <= i < 4 -> AOS_FB_ARENA_BYTES <= sm_size m ->
  sm_size data = AOS_FB_DATA_BYTES -> rect_in s q -> payload_fits q = true -> shows m s p ->
  fq_operation q = AOS_FB_READ -> arenas !! arena = Some m -> (forall k, mbyte data k = f k) ->
  exists data', copy_rectangle s q arenas data = Some (arenas, data') /\ sm_size data' = sm_size data /\
    forall k, mbyte data' k = export q (pi_committed p) f k.
Proof.
  intros Hs Hi Hm Hd Hr Hpf Hp Hop Ha Hf. pose proof Hr as [Hsz Hq ? ? ? ?]. pose proof Hs as [_ Hco _ _ _].
  apply andb_true_iff in Hpf as [_ Hpf%Z.leb_le]. pose proof Hq as [_ Hx Hy Hw Hh Ho _]. unfold is_u32 in *.
  unfold copy_rectangle. rewrite Hop, Hco. cbn [fst snd]. rewrite Ha. cbn [Z.eqb AOS_FB_READ AOS_FB_WRITE Pos.eqb mbind option_bind].
  destruct (rect_addresses s q 0 Hr ltac:(lia)) as (_ & _ & _ & Hn & _). rewrite Hn.
  pose proof (frame_bytes_ok s Hsz) as [Hfb ?]. rewrite Hfb in *.
  edestruct (copy_rows_affine (Z.to_nat (fq_height q)) 0
     (fun row => fq_data_offset q + u64 (row * (fq_width q * 4)))
     (fun row => (2 * i + 1) * AOS_FB_SURFACE_BYTES + row_pixel s (fq_x q) (fq_y q) row) (fq_width q * 4)
     (fq_data_offset q) (fq_width q * 4)
     ((2 * i + 1) * AOS_FB_SURFACE_BYTES + (fq_y q * su_width s + fq_x q) * 4) (su_width s * 4)
     data m) as (data' & -> & Hsize & Hb); [|lia|].
  { intros r ?. destruct (rect_addresses s q r Hr ltac:(lia)) as (Hrp & ? & ? & _ & Hu & ?). rewrite Hn in Hu.
    rewrite Hu, Hd. rewrite Hrp in *. split_and!; try lia; sb_lia. }
  rewrite Z2Nat.id in Hb by lia. cbn [mbind option_bind]. exists data'. split_and!; [done..|].
  intros k. rewrite Hb. unfold export. set (j := k - fq_data_offset q).
  destruct (decide (0 <= j < _)) as [Hj|Hj].
  - destruct (row_major (fq_width q) (fq_height q) j) as (? & ? & ? & -> & ->); [lia..|]. rewrite decide_True by lia.
    destruct Hp as [_ _ _ _ Hpc]. rewrite <- Hpc by (unfold in_frame; lia).
    rewrite Hco. cbn [snd]. apply (f_equal (mbyte m)). unfold pixel_at. lia.
  - rewrite decide_False; [apply Hf|]. intros [Hjd Hjm]. apply Hj.
    pose proof (Z.div_mod j (fq_width q * 4) ltac:(lia)). pose proof (Z.mod_pos_bound j (fq_width q * 4) ltac:(lia)).
    set (r := j / _) in *. nia.
Qed.

(** ** Operations on one surface *)

Lemma flip_frame arena i s m p arenas s' :
  surface_ok arena i s -> 0 <= i < 4 -> AOS_FB_ARENA_BYTES <= sm_size m -> sized s -> shows m s p ->
  arenas !! arena = Some m -> su_sequence s <> UINT64_MAX ->
  s' = mk_surface (su_handle s) (u64 (su_sequence s + 1)) (su_width s) (su_height s) (su_staging s) (su_committed s) ->
  exists m', arena_copy arenas (su_committed s) (su_staging s) (frame_bytes s) = Some (<[arena := m']> arenas) /\
    same_outside i m m' /\ surface_ok arena i s' /\
    shows m' s' (mk_picture (pi_width p) (pi_height p) (pi_sequence p + 1) (pi_staging p) (pi_staging p)).
Proof.
  intros Hs Hi Hm Hsz Hp Ha Hseq ->. pose proof Hs as [Hst Hco Hsq Hhd _].
  unfold arena_copy. rewrite Hst, Hco. cbn [fst snd]. rewrite Ha. cbn [mbind option_bind]. rewrite Z.eqb_refl.
  pose proof (frame_bytes_ok s Hsz) as [Hfb ?].
  destruct (smem_move_ok m ((2 * i + 1) * AOS_FB_SURFACE_BYTES) (2 * i * AOS_FB_SURFACE_BYTES) (frame_bytes s))
    as (m' & -> & Hsize & Hb); [sb_lia..|]. cbn [mbind option_bind].
  assert (u64 (su_sequence s + 1) = su_sequence s + 1) as Hu.
  { apply u64_small. unfold is_u64, UINT64_MAX in *. lia. }
  exists m'. split_and!; [done| |by split; cbn; eauto with cint|].
  { split; [done|]. intros k Hk. rewrite Hb, decide_False; [done|]. sb_lia. }
  destruct Hp as [? ? Hpsq Hps Hpc]. split; cbn [pi_width pi_height pi_sequence su_width su_height su_sequence
    su_staging su_committed pi_staging pi_committed]; [done..|by rewrite Hu, Hpsq| |]; intros x y b Hin;
    change (in_frame s x y b) in Hin; pose proof (pixel_bound s x y b Hsz Hin) as [? ?];
    match goal with |- context [pixel_at ?t x y b] => change (pixel_at t x y b) with (pixel_at s x y b) end.
  - rewrite <- Hps, Hb, Hst by done. cbn [snd]. rewrite decide_False; [done|]. sb_lia.
  - rewrite <- Hps, Hb, Hst by done. cbn [snd]. rewrite decide_True by lia.
    apply (f_equal (mbyte m)). lia.
Qed.

Lemma blank_frames arena i s m arenas s' :
  surface_ok arena i s -> 0 <= i < 4 -> AOS_FB_ARENA_BYTES <= sm_size m -> sized s' ->
  su_staging s' = su_staging s -> su_committed s' = su_committed s -> su_sequence s' = 0 ->
  arenas !! arena = Some m ->
  exists m', (a ← arena_zero arenas (su_staging s') (frame_bytes s'); arena_zero a (su_committed s') (frame_bytes s'))
             = Some (<[arena := m']> arenas) /\
    same_outside i m m' /\ shows m' s' (mk_picture (su_width s') (su_height s') 0 blank blank).
Proof.
  intros Hs Hi Hm Hsz Hss Hcc Hsq Ha. pose proof Hs as [Hst Hco _ _ _].
  pose proof (frame_bytes_ok s' Hsz) as [Hfb ?]. unfold arena_zero. rewrite Hss, Hcc, Hst, Hco. cbn [fst snd].
  rewrite Ha. cbn [mbind option_bind].
  destruct (smem_zero_ok m (2 * i * AOS_FB_SURFACE_BYTES) (frame_bytes s')) as (m1 & -> & Hz1 & Hb1); [sb_lia..|].
  cbn [mbind option_bind]. rewrite lookup_insert_eq. cbn [mbind option_bind].
  destruct (smem_zero_ok m1 ((2 * i + 1) * AOS_FB_SURFACE_BYTES) (frame_bytes s')) as (m2 & -> & Hz2 & Hb2); [sb_lia..|].
  cbn [mbind option_bind]. rewrite insert_insert_eq. exists m2. split_and!; [done| |].
  { split; [congruence|]. intros k Hk. rewrite Hb2, Hb1, !decide_False; [done|sb_lia..]. }
  split; cbn; [done..|by rewrite Hsq| |]; intros x y b Hin; pose proof (pixel_bound s' x y b Hsz Hin) as [? ?]; unfold blank.
  - rewrite Hss, Hst, Hb2, Hb1. cbn [snd]. repeat case_decide; try done. lia.
  - rewrite Hcc, Hco, Hb2. cbn [snd]. by rewrite decide_True by lia.
Qed.

(** ** Finding surfaces *)

Lemma find_surface_Some P l i :
  find_surface P l = Some i -> exists n s, i = Z.of_nat n /\ l !! n = Some s /\ P s = true.
Proof.
  unfold find_surface. intros Hf. apply fmap_Some in Hf as ([n s] & Hf & ->). apply list_find_Some in Hf as (Hn & Hp & _).
  exists n, s. split_and!; [done..|]. by apply Is_true_true.
Qed.

Lemma find_surface_None P l : find_surface P l = None -> forall i s, l !! i = Some s -> P s = false.
Proof.
  unfold find_surface. intros Hf i s Hs. apply fmap_None, list_find_None in Hf.
  rewrite Forall_lookup in Hf. specialize (Hf i s Hs). by destruct (P s).
Qed.

(** A handle names a surface exactly when it names a picture. *)
Lemma lookup_surface_repr arena c m S h :
  fb_repr arena c m S ->
  match lookup_surface c h with
  | Some i => exists n s p, i = Z.of_nat n /\ (n < 4)%nat /\ fc_surfaces c !! n = Some s /\ su_handle s = h /\ h <> 0 /\
      sc_pictures S !! h = Some p /\ shows m s p /\ sized s
  | None => sc_pictures S !! h = None
  end.
Proof.
  intros [_ _ Hl Hso _ _ Hsh Ho _ _ _]. unfold lookup_surface. destruct (Z.eqb_spec h 0) as [->|Hh].
  { destruct (sc_pictures S !! 0) eqn:He; [|done]. by destruct (Ho _ _ He). }
  destruct (find_surface _ _) as [i|] eqn:Hf.
  - apply find_surface_Some in Hf as (n & s & -> & Hs & <-%Z.eqb_eq).
    destruct (Hsh n s Hs Hh) as (p & Hp & Hsp). exists n, s, p. split_and!; try done.
    + apply lookup_lt_Some in Hs. lia.
    + by apply (Hso n s Hs).
  - destruct (sc_pictures S !! h) eqn:He; [|done]. destruct (Ho _ _ He) as (_ & n & s & Hs & Hsh').
    apply (find_surface_None _ _ Hf) in Hs. rewrite Hsh' in Hs. by rewrite Z.eqb_refl in Hs.
Qed.

(** There is a free surface exactly when fewer than four pictures exist. *)
Lemma free_surface_repr arena c m S :
  fb_repr arena c m S ->
  match find_surface (fun s => su_handle s =? 0) (fc_surfaces c) with
  | Some i => exists n s, i = Z.of_nat n /\ (n < 4)%nat /\ fc_surfaces c !! n = Some s /\ su_handle s = 0 /\
      (size (sc_pictures S) < 4)%nat
  | None => (4 <= size (sc_pictures S))%nat
  end.
Proof.
  intros [_ _ Hl _ Hd _ Hsh Ho _ _ _]. rewrite <- (size_dom (D := gset Z)).
  destruct (find_surface _ _) as [i|] eqn:Hf.
  - apply find_surface_Some in Hf as (n & s & -> & Hs & H0%Z.eqb_eq). exists n, s. pose proof (lookup_lt_Some _ _ _ Hs).
    split_and!; [done|lia|done|done|].
    assert (dom (sc_pictures S) ⊆ list_to_set (C := gset Z) (su_handle <$> delete n (fc_surfaces c))) as Hsub.
    { intros h [p Hp]%elem_of_dom. destruct (Ho h p Hp) as (Hh & j & t & Ht & <-).
      apply elem_of_list_to_set, list_elem_of_fmap. exists t. split; [done|].
      apply (elem_delete _ n j); [done|]. intros ->. congruence. }
    apply subseteq_size in Hsub. pose proof (size_list_to_set_le (su_handle <$> delete n (fc_surfaces c))) as Hle.
    rewrite length_fmap, length_delete in Hle by eauto. lia.
  - assert (NoDup (su_handle <$> fc_surfaces c)) as Hnd.
    { apply NoDup_alt. intros j k h Hj Hk. rewrite list_lookup_fmap in Hj, Hk.
      apply fmap_Some in Hj as (t & Ht & ->). apply fmap_Some in Hk as (u & Hu & Htu).
      eapply Hd; try done. by apply Z.eqb_neq, (find_surface_None _ _ Hf j). }
    rewrite <- Hl, <- (length_fmap su_handle), <- (size_list_to_set (C := gset Z) _ Hnd).
    apply subseteq_size. intros h. rewrite elem_of_list_to_set, list_elem_of_fmap.
    intros (t & -> & [j Ht]%list_elem_of_lookup). destruct (Hsh j t Ht) as (p & Hp & _).
    { by apply Z.eqb_neq, (find_surface_None _ _ Hf j). }
    by apply elem_of_dom_2 in Hp.
Qed.

(** ** The representation under each operation *)

Lemma fb_repr_create arena c m S i s s' m' p' :
  fb_repr arena c m S -> fc_surfaces c !! i = Some s -> su_handle s = 0 -> fc_next_handle c <> 0 ->
  su_handle s' = fc_next_handle c -> surface_ok arena (Z.of_nat i) s' -> shows m' s' p' ->
  same_outside (Z.of_nat i) m m' ->
  fb_repr arena (set_surfaces (<[i := s']> (fc_surfaces c)) (set_next_handle (u64 (fc_next_handle c + 1)) c)) m'
    (mk_screen (sc_next S + 1) (<[sc_next S := p']> (sc_pictures S)) (sc_selected S) (sc_rectangle S)).
Proof.
  intros [Ha [Hn Hnm] Hl Hso Hd Hi Hsh Ho Hse Hre Hsn] Hs H0 Hne Hh' Hok Hs' Hm.
  assert (sc_next S = fc_next_handle c) as Hnx by by rewrite Hnm; unfold handle_mark; case_cmp.
  assert (i < length (fc_surfaces c))%nat as Hlt by by eapply lookup_lt_Some.
  assert (forall j t, fc_surfaces c !! j = Some t -> su_handle t <> fc_next_handle c) as Hfr.
  { intros j t Ht He. specialize (Hi j t Ht). lia. }
  split; cbn; try done.
  - destruct Hm as [-> _]. done.
  - split; [apply u64_range|]. rewrite Hnx. unfold handle_mark, u64, is_u64 in *.
    destruct (decide (fc_next_handle c = 2 ^ 64 - 1)) as [->|]; [done|].
    rewrite Z.mod_small by lia. case_cmp; lia.
  - by rewrite length_insert.
  - intros j t [(<- & <- & _)|[? Ht]]%list_lookup_insert_Some; auto.
  - intros j k t u [(<- & <- & _)|[? Ht]]%list_lookup_insert_Some [(<- & <- & _)|[? Hu]]%list_lookup_insert_Some; try done;
      rewrite ?Hh'; eauto; intros He; exfalso; by eapply Hfr.
  - intros j t [(<- & <- & _)|[? Ht]]%list_lookup_insert_Some; [lia|]. specialize (Hi j t Ht). lia.
  - intros j t [(<- & <- & _)|[Hij Ht]]%list_lookup_insert_Some Hth.
    + exists p'. by rewrite Hh', Hnx, lookup_insert_eq.
    + destruct (Hsh j t Ht Hth) as (pt & Hpt & Hst). exists pt.
      rewrite lookup_insert_ne by (rewrite Hnx; intros He; by eapply Hfr).
      split; [done|]. eapply (shows_frame arena (Z.of_nat i) (Z.of_nat j)); eauto. lia.
  - intros h pp [[<- _]|[Hnh Hpp]]%lookup_insert_Some.
    + split; [lia|]. exists i, s'. rewrite list_lookup_insert_eq by done. split; [done|lia].
    + destruct (Ho h pp Hpp) as (Hh0 & j & t & Ht & <-). split; [done|]. exists j, t.
      split; [|done]. rewrite list_lookup_insert_ne; [done|]. intros ->. congruence.
  - intros Hs0. destruct (Hsn Hs0) as (pp & Hpp & Hrest). exists pp. rewrite lookup_insert_ne; [done|].
    intros He. rewrite <- He in Hpp. destruct (Ho _ _ Hpp) as (_ & j & t & Ht & Het). eapply Hfr; [done|congruence].
Qed.

Lemma fb_repr_destroy arena c m S i s :
  fb_repr arena c m S -> fc_surfaces c !! i = Some s -> su_handle s <> 0 ->
  fb_repr arena
    (set_surfaces (<[i := mk_surface 0 (su_sequence s) (su_width s) (su_height s) (su_staging s) (su_committed s)]> (fc_surfaces c))
       (if fc_selected_handle c =? su_handle s then set_selected_handle 0 c else c)) m
    (mk_screen (sc_next S) (delete (su_handle s) (sc_pictures S))
       (if sc_selected S =? su_handle s then 0 else sc_selected S) (sc_rectangle S)).
Proof.
  intros [Ha [Hn Hnm] Hl Hso Hd Hi Hsh Ho Hse Hre Hsn] Hs Hh0.
  assert (i < length (fc_surfaces c))%nat as Hlt by by eapply lookup_lt_Some.
  assert (0 < sc_next S) as Hpos.
  { rewrite Hnm. unfold handle_mark, is_u64 in *. case_cmp; lia. }
  split.
  - done.
  - split; [|cbn; rewrite Hnm]; by destruct (fc_selected_handle c =? su_handle s).
  - cbn. by rewrite length_insert.
  - cbn. intros j t [(<- & <- & _)|[? Ht]]%list_lookup_insert_Some; [|auto].
    destruct (Hso i s Hs). by split; cbn.
  - cbn. intros j k t u [(<- & <- & _)|[? Ht]]%list_lookup_insert_Some [(<- & <- & _)|[? Hu]]%list_lookup_insert_Some;
      cbn; try done; try lia; eauto. 
  - cbn. intros j t [(<- & <- & _)|[? Ht]]%list_lookup_insert_Some; cbn; eauto.
  - cbn. intros j t [(<- & <- & _)|[Hij Ht]]%list_lookup_insert_Some Hth; cbn in *; [done|].
    rewrite lookup_delete_ne by (intros He; apply Hij; eauto). eauto.
  - cbn. intros h pp [Hne Hpp]%lookup_delete_Some. destruct (Ho h pp Hpp) as (Hh & j & t & Ht & <-). split; [done|].
    exists j, t. split; [|done]. rewrite list_lookup_insert_ne; [done|]. intros ->. congruence.
  - cbn. rewrite Hse. by destruct (fc_selected_handle c =? su_handle s).
  - cbn. rewrite Hre. by destruct (fc_selected_handle c =? su_handle s).
  - cbn. destruct (Z.eqb_spec (fc_selected_handle c) (su_handle s)) as [|Hne]; cbn; [done|].
    intros H0. rewrite lookup_delete_ne by done. auto.
Qed.

Lemma fb_repr_select arena c m S h x y w hh :
  fb_repr arena c m S -> 
  (h <> 0 -> exists p, sc_pictures S !! h = Some p /\ 0 <= x /\ 0 <= y /\ fits x y w hh p = true) ->
  fb_repr arena (set_selection h x y w hh c) m (mk_screen (sc_next S) (sc_pictures S) h (x, y, w, hh)).
Proof. intros [] Hf. split; cbn; try done. Qed.

(** ** One request *)

(** The world with new payload bytes in the client's region [r] and a new
    arena. *)
Definition with_memory (region arena : Z) (r : fb_region) (d m : smem) (w : fb_world) : fb_world :=
  mk_fbworld (<[region := set_fr_data d r]> (fw_regions w)) (<[arena := m]> (fw_arenas w)).

Lemma with_memory_same region arena r m w :
  fw_regions w !! region = Some r -> fw_arenas w !! arena = Some m ->
  with_memory region arena r (fr_data r) m w = w.
Proof.
  intros Hr Hm. unfold with_memory. rewrite (insert_id (fw_arenas w)) by done.
  rewrite insert_id; [by destruct w|]. by destruct r.
Qed.

Definition same_identity (c c' : fb_client) : Prop :=
  fc_region c' = fc_region c /\ fc_generation c' = fc_generation c /\ fc_retired c' = fc_retired c.

(** The outcome of a request, against the specification's. *)
Definition outcome_repr (arena : Z) (c : fb_client) (r : fb_region) (w : fb_world)
    (o : option (fb_response * fb_client * fb_world)) (spec : fb_response * screen * (Z -> Z)) : Prop :=
  exists c' d m, o = Some (spec.1.1, c', with_memory (fc_region c) arena r d m w) /\
    fb_repr arena c' m spec.1.2 /\ same_identity c c' /\ sm_size d = AOS_FB_DATA_BYTES /\
    forall k, mbyte d k = spec.2 k.

Lemma set_surfaces_same c n s : fc_surfaces c !! n = Some s -> set_surfaces (<[n := s]> (fc_surfaces c)) c = c.
Proof. intros Hs. rewrite list_insert_id by done. by destruct c. Qed.

Lemma shows_described q m s p : shows m s p -> described q s = picture_info q (su_handle s) p.
Proof. intros [H1 H2 H3 _ _]. unfold described, picture_info. by rewrite H1, H2, H3. Qed.

Section request.
Context (arena : Z) (c : fb_client) (r : fb_region) (w : fb_world) (m : smem) (S : screen) (f : Z -> Z).
Context (Hrepr : fb_repr arena c m S).
Context (Hr : fw_regions w !! fc_region c = Some r).
Context (Hm : fw_arenas w !! arena = Some m).
Context (Hd : sm_size (fr_data r) = AOS_FB_DATA_BYTES).
Context (Hf : forall k, mbyte (fr_data r) k = f k).

(** A reply that changes nothing but the client. *)
Lemma outcome_reply p c' S' :
  fb_repr arena c' m S' -> same_identity c c' ->
  outcome_repr arena c r w (Some (p, c', w)) (p, S', f).
Proof using Hr Hm Hd Hf.
  intros Hc' Hs. exists c', (fr_data r), m. cbn. rewrite with_memory_same by done. done.
Qed.

Lemma outcome_unchanged p : outcome_repr arena c r w (Some (p, c, w)) (p, S, f).
Proof using Hrepr Hr Hm Hd Hf. apply outcome_reply; [done|by repeat split]. Qed.

Lemma outcome_arena p c' S' m' :
  fb_repr arena c' m' S' -> same_identity c c' ->
  outcome_repr arena c r w (Some (p, c', set_fw_arenas (<[arena := m']> (fw_arenas w)) w)) (p, S', f).
Proof using Hr Hd Hf.
  intros Hc' Hs. exists c', (fr_data r), m'. cbn. unfold with_memory, set_fw_arenas.
  rewrite (insert_id (fw_regions w)); [done|]. by destruct r.
Qed.

Lemma fb_create_refines q : fb_request_ok q -> outcome_repr arena c r w (fb_create c q w) (spec_create S q, f).
Proof using Hrepr Hr Hm Hd Hf.
  intros [_ _ _ Hw Hh _ _]. unfold fb_create, spec_create, AOS_FB_MAX_WIDTH, AOS_FB_MAX_HEIGHT, is_u32 in *.
  destruct (_ || (768 <? fq_height q)) eqn:Hb; [apply outcome_unchanged|].
  rewrite !orb_false_iff, !Z.eqb_neq, !Z.ltb_ge in Hb.
  pose proof (free_surface_repr arena c m S Hrepr) as Hfree.
  destruct (find_surface _ _) as [i|].
  2:{ destruct (Z.leb_spec 4 (Z.of_nat (size (sc_pictures S)))); [|lia]. apply outcome_unchanged. }
  destruct Hfree as (n & s & -> & Hn & Hs & H0 & Hsz).
  destruct (Z.leb_spec 4 (Z.of_nat (size (sc_pictures S)))); [lia|]. cbn [orb].
  pose proof (re_next _ _ _ _ Hrepr) as [Hnu Hnx]. unfold handle_mark, is_u64 in *.
  destruct (Z.eqb_spec (fc_next_handle c) 0) as [He|Hne].
  { rewrite Hnx. apply outcome_unchanged. }
  rewrite (proj2 (Z.eqb_neq (sc_next S) (2 ^ 64))) by lia. cbn [orb].
  assert (aget (fc_surfaces c) (Z.of_nat n) = Some s) as -> by (apply aget_Some; rewrite Nat2Z.id; split; [lia|done]).
  cbn [mbind option_bind]. set (s' := mk_surface _ _ _ _ _ _).
  rewrite aset_Some, Nat2Z.id by (apply lookup_lt_Some in Hs; lia). cbn [mbind option_bind].
  pose proof (re_surfaces _ _ _ _ Hrepr n s Hs) as Hso.
  destruct (blank_frames arena (Z.of_nat n) s m (fw_arenas w) s') as (m' & Hz & Hout & Hsh);
    [done|lia|by apply Hrepr|unfold sized; cbn; lia|done..|].
  destruct (arena_zero _ (su_staging s') _) as [a1|]; [|done]. cbn [mbind option_bind] in *. rewrite Hz. cbn [mbind option_bind].
  replace (described q s') with (picture_info q (sc_next S) (mk_picture (fq_width q) (fq_height q) 0 blank blank))
    by (unfold picture_info, described; cbn; by rewrite Hnx).
  apply outcome_arena; [|by repeat split].
  eapply fb_repr_create; try done. destruct Hso. split; cbn; try done; unfold is_u64; lia.
Qed.
Lemma fb_copy_refines q n s p :
  fb_request_ok q -> fq_operation q = AOS_FB_WRITE \/ fq_operation q = AOS_FB_READ ->
  (n < 4)%nat -> fc_surfaces c !! n = Some s -> su_handle s <> 0 -> sized s ->
  sc_pictures S !! su_handle s = Some p -> shows m s p -> rectangle_valid s q = true ->
  outcome_repr arena c r w
    ('(a, d) ← copy_rectangle s q (fw_arenas w) (fr_data r);
     Some (described q s, c, set_fw_region (fc_region c) (set_fr_data d r) (set_fw_arenas a w)))
    (if fq_operation q =? AOS_FB_WRITE then
       let p' := mk_picture (pi_width p) (pi_height p) (pi_sequence p) (overlay q f (pi_staging p)) (pi_committed p) in
       (picture_info q (su_handle s) p', set_picture (su_handle s) p' S, f)
     else (picture_info q (su_handle s) p, S, export q (pi_committed p) f)).
Proof using Hrepr Hr Hm Hd Hf.
  intros Hq Hop Hn Hs Hh Hsz Hp Hsh Hv. rewrite (rectangle_valid_fits m s p q) in Hv by done.
  apply andb_true_iff in Hv as [Hfit Hpay].
  pose proof (fits_rect m s p q Hsz Hq Hsh Hfit) as Hrect.
  pose proof (re_surfaces _ _ _ _ Hrepr n s Hs) as Hso. pose proof (re_arena _ _ _ _ Hrepr) as Har.
  assert (forall g g', described q s = picture_info q (su_handle s) (mk_picture (pi_width p) (pi_height p) (pi_sequence p) g g')) as Hinfo.
  { intros g g'. destruct Hsh as [H1 H2 H3 _ _]. unfold described, picture_info. cbn. by rewrite H1, H2, H3. }
  destruct Hop as [Hop|Hop].
  - destruct (write_rectangle arena (Z.of_nat n) s q m (fr_data r) p (fw_arenas w)) as (m' & -> & Hout & Hshow); try done; [lia|].
    rewrite Hop, Z.eqb_refl. cbn [mbind option_bind]. cbv zeta. rewrite <- Hinfo.
    exists c, (fr_data r), m'. cbn [fst snd]. split_and!; try done. rewrite <- (set_surfaces_same c n s Hs).
    eapply fb_repr_update; try done. by apply Hshow.
  - destruct (read_rectangle arena (Z.of_nat n) s q m (fr_data r) p (fw_arenas w) f) as (d' & -> & Hdz & Hd'); try done; [lia|].
    rewrite Hop. cbn [Z.eqb Pos.eqb AOS_FB_READ AOS_FB_WRITE mbind option_bind].
    exists c, d', m. cbn [fst snd]. split_and!; try done; [|congruence].
    unfold with_memory, set_fw_region, set_fw_arenas. rewrite (insert_id (fw_arenas w)) by done.
    rewrite (Hinfo (pi_staging p) (pi_committed p)). by destruct p.
Qed.

Lemma fb_operate_refines q n s p :
  fb_request_ok q -> (n < 4)%nat -> fc_surfaces c !! n = Some s -> su_handle s <> 0 -> sized s ->
  sc_pictures S !! su_handle s = Some p -> shows m s p ->
  outcome_repr arena c r w (fb_operate c (Z.of_nat n) q w) (spec_operate S (su_handle s) p q f).
Proof using Hrepr Hr Hm Hd Hf.
  intros Hq Hn Hs Hh Hsz Hp Hsh. unfold fb_operate, spec_operate.
  assert (aget (fc_surfaces c) (Z.of_nat n) = Some s) as -> by (apply aget_Some; rewrite Nat2Z.id; split; [lia|done]).
  cbn [mbind option_bind]. pose proof (re_surfaces _ _ _ _ Hrepr n s Hs) as Hso.
  pose proof (shows_described q m s p Hsh) as Hinfo.
  pose proof (lookup_lt_Some _ _ _ Hs) as Hlt.
  destruct (fq_operation q =? AOS_FB_SELECT).
  { rewrite (geometry_valid_fits m s p q) by done. destruct (fits _ _ _ _ p) eqn:Hfit; cbn [negb]; [|apply outcome_unchanged].
    rewrite Hinfo. apply outcome_reply; [|by repeat split]. apply fb_repr_select; [done|].
    intros _. exists p. destruct Hq as [_ Hx Hy _ _ _ _]. unfold is_u32 in *. split_and!; try done; lia. }
  destruct ((fq_operation q =? AOS_FB_WRITE) || (fq_operation q =? AOS_FB_READ)) eqn:Hop.
  { rewrite <- (rectangle_valid_fits m s p q) by done.
    destruct (rectangle_valid s q) eqn:Hv; cbn [negb]; [|apply outcome_unchanged].
    rewrite Hr. cbn [mbind option_bind]. rewrite orb_true_iff, !Z.eqb_eq in Hop. by apply (fb_copy_refines q n). }
  destruct (fq_operation q =? AOS_FB_FLIP).
  { rewrite (sh_sequence _ _ _ Hsh). destruct (Z.eqb_spec (su_sequence s) UINT64_MAX) as [|Hne]; [apply outcome_unchanged|].
    destruct (flip_frame arena (Z.of_nat n) s m p (fw_arenas w) _ Hso ltac:(lia) (re_arena _ _ _ _ Hrepr) Hsz Hsh Hm Hne eq_refl)
      as (m' & -> & Hout & Hok & Hshow).
    cbn [mbind option_bind]. rewrite aset_Some, Nat2Z.id by lia. cbn [mbind option_bind].
    rewrite (shows_described q _ _ _ Hshow). rewrite (sh_sequence _ _ _ Hsh) in *. cbv zeta.
    apply outcome_arena; [|by repeat split]. by eapply fb_repr_update. }
  destruct (fq_operation q =? AOS_FB_DESTROY).
  { rewrite aset_Some, Nat2Z.id by lia. cbn [mbind option_bind]. rewrite Hinfo. cbv zeta.
    apply outcome_reply; [by apply fb_repr_destroy|]. by destruct (_ =? su_handle s); repeat split. }
  rewrite Hinfo. apply outcome_unchanged.
Qed.

Lemma fb_execute_refines q :
  fb_request_ok q -> outcome_repr arena c r w (fb_execute c q w) (spec_execute S q f).
Proof using Hrepr Hr Hm Hd Hf.
  intros Hq. unfold fb_execute, spec_execute.
  destruct (negb (fq_version q =? _)); [apply outcome_unchanged|].
  destruct (negb (fq_reserved q =? 0)); [apply outcome_unchanged|].
  destruct (_ || _); [apply outcome_unchanged|].
  destruct (_ && _). { apply outcome_reply; [|by repeat split]. by apply fb_repr_select. }
  destruct (fq_operation q =? AOS_FB_CREATE); [by apply fb_create_refines|].
  pose proof (lookup_surface_repr arena c m S (fq_handle q) Hrepr) as Hl.
  destruct (lookup_surface c (fq_handle q)) as [i|].
  - destruct Hl as (n & s & p & -> & Hn & Hs & <- & Hh & Hp & Hsh & Hsz). rewrite Hp. by apply fb_operate_refines.
  - rewrite Hl. apply outcome_unchanged.
Qed.
End request.

(** ** The pump *)

Definition fb_pending (r : fb_region) : list fb_request :=
  ring_contents (2 ^ 32) 16 (fr_requests r) (fr_req_head r) (fr_req_tail r).
Definition fb_answers (r : fb_region) : list fb_response :=
  ring_contents (2 ^ 32) 16 (fr_responses r) (fr_resp_head r) (fr_resp_tail r).

(** The requests one pump serves: those that have room for an answer. An
    impossible number of requests is a malformed ring, and none is served. *)
Definition fb_served (limit : nat) (r : fb_region) : nat :=
  if (16 <? length (fb_pending r))%nat then 0%nat
  else Nat.min limit (Nat.min (length (fb_pending r)) (16 - length (fb_answers r))).

(** The fields of a region that belong to its client. *)
Definition client_side_kept (r r' : fb_region) : Prop :=
  fr_req_tail r' = fr_req_tail r /\ fr_resp_head r' = fr_resp_head r /\ fr_requests r' = fr_requests r /\
  fr_detach_version r' = fr_detach_version r /\ fr_detach_request r' = fr_detach_request r.

(** A run of the request loop, against the specification's. *)
Definition run_repr (arena : Z) (c : fb_client) (r : fb_region) (w : fb_world) (served completed : Z)
    (o : option (Z * fb_client * fb_world)) (spec : list fb_response * screen * (Z -> Z)) : Prop :=
  exists c' m r',
    o = Some (completed + served, c', mk_fbworld (<[fc_region c := r']> (fw_regions w)) (<[arena := m]> (fw_arenas w))) /\
    fb_repr arena c' m spec.1.2 /\ same_identity c c' /\ fb_region_ok r' /\ client_side_kept r r' /\
    fb_pending r' = drop (Z.to_nat served) (fb_pending r) /\ fb_answers r' = fb_answers r ++ spec.1.1 /\
    forall k, mbyte (fr_data r') k = spec.2 k.

Lemma fb_ring_cap : ring_cap_ok (2 ^ 32) 16.
Proof. split_and!; [lia..|]. by exists (2 ^ 28). Qed.

Lemma fb_ring_lengths r :
  length (fb_pending r) = Z.to_nat (u32 (fr_req_tail r - fr_req_head r)) /\
  length (fb_answers r) = Z.to_nat (u32 (fr_resp_tail r - fr_resp_head r)).
Proof. unfold fb_pending, fb_answers. by rewrite !length_ring_contents. Qed.

(** The loop stops exactly when no request can be served. *)
Lemma fb_served_guard r fuel :
  fb_region_ok r ->
  (fr_req_head r =? fr_req_tail r) || (AOS_FB_QUEUE_CAPACITY <? u32 (fr_req_tail r - fr_req_head r)) ||
    (AOS_FB_QUEUE_CAPACITY <=? u32 (fr_resp_tail r - fr_resp_head r)) = true <->
  fb_served (Datatypes.S fuel) r = 0%nat.
Proof.
  intros [H1 H2 H3 H4 _ _ _ _]. destruct (fb_ring_lengths r) as [Hp Ha]. unfold fb_served. rewrite Hp, Ha.
  pose proof (u32_range (fr_req_tail r - fr_req_head r)). pose proof (u32_range (fr_resp_tail r - fr_resp_head r)).
  assert (fr_req_head r = fr_req_tail r <-> u32 (fr_req_tail r - fr_req_head r) = 0) as Heq by mod_lia.
  rewrite !orb_true_iff, Z.eqb_eq, Z.ltb_lt, Z.leb_le. unfold AOS_FB_QUEUE_CAPACITY, is_u32 in *.
  destruct (Nat.ltb_spec 16 (Z.to_nat (u32 (fr_req_tail r - fr_req_head r)))); lia.
Qed.

(** One turn of the loop. *)
Lemma fb_turn_region r d p :
  fb_region_ok r -> (length (fb_pending r) <= 16)%nat -> (0 < length (fb_pending r))%nat ->
  (length (fb_answers r) < 16)%nat -> sm_size d = AOS_FB_DATA_BYTES ->
  let r' := mk_fbregion (u32 (fr_req_head r + 1)) (fr_req_tail r) (fr_resp_head r) (u32 (fr_resp_tail r + 1))
    (fr_requests r) (<[Z.to_nat (fr_resp_tail r mod 16) := p]> (fr_responses r)) d
    (fr_detach_version r) (fr_detach_request r) (fr_detach_ack r) in
  fb_region_ok r' /\ client_side_kept r r' /\
  fb_pending r = fr_requests r !!! Z.to_nat (fr_req_head r mod 16) :: fb_pending r' /\
  fb_answers r' = fb_answers r ++ [p].
Proof.
  intros [H1 H2 H3 H4 H5 H6 H7 H8] Hle Hlt Hroom Hd r'. destruct (fb_ring_lengths r) as [Hp Ha].
  pose proof (u32_range (fr_req_tail r - fr_req_head r)). pose proof (u32_range (fr_resp_tail r - fr_resp_head r)).
  unfold is_u32 in *.
  split_and!; [by split; cbn; eauto with cint; rewrite length_insert|by split_and!| |].
  - unfold fb_pending at 1. rewrite (ring_contents_cons _ _ fb_ring_cap) by (unfold ring_len; fold (u32 (fr_req_tail r - fr_req_head r)); lia).
    f_equal. unfold fb_pending. cbn. unfold u32. by rewrite ring_contents_mod_head by apply fb_ring_cap.
  - unfold fb_answers. cbn [r' fr_responses fr_resp_head fr_resp_tail]. unfold u32. rewrite ring_contents_mod_tail.
    apply (ring_contents_snoc _ _ fb_ring_cap); [lia|]. unfold ring_len. fold (u32 (fr_resp_tail r - fr_resp_head r)). lia.
Qed.

Lemma fb_pump_loop_refines arena fuel : forall c r w m S f completed,
  fb_repr arena c m S -> fw_regions w !! fc_region c = Some r -> fw_arenas w !! arena = Some m ->
  fb_region_ok r -> (forall k, mbyte (fr_data r) k = f k) ->
  run_repr arena c r w (Z.of_nat (fb_served fuel r)) completed (fb_pump_loop fuel completed c w)
    (spec_run S (take (fb_served fuel r) (fb_pending r)) f).
Proof.
  induction fuel as [|fuel IH]; intros c r w m S f completed Hrepr Hr Hm Hok Hf.
  all: assert (run_repr arena c r w 0 completed (Some (completed, c, w)) ([], S, f)) as Hstop by
    (exists c, m, r; rewrite !insert_id, Z.add_0_r, drop_0, app_nil_r by done; by destruct w).
  { by replace (fb_served 0 r) with 0%nat by (unfold fb_served; by case_match). }
  cbn [fb_pump_loop]. rewrite Hr. cbn [mbind option_bind].
  pose proof (fb_served_guard r fuel Hok) as Hg. destruct (_ || _).
  { by replace (fb_served (Datatypes.S fuel) r) with 0%nat by (symmetry; tauto). }
  assert (fb_served (Datatypes.S fuel) r <> 0%nat) as Hn by (intros H; by apply Hg in H). clear Hg.
  set (q := fr_requests r !!! Z.to_nat (fr_req_head r mod 16)).
  assert (aget (fr_requests r) (fr_req_head r mod AOS_FB_QUEUE_CAPACITY) = Some q) as ->.
  { apply aget_total. rewrite (rr_requests _ Hok). apply Z.mod_pos_bound. done. }
  cbn [mbind option_bind].
  assert (fb_request_ok q) as Hq.
  { eapply Forall_lookup_1; [apply (rr_typed _ Hok)|]. apply list_lookup_lookup_total_lt.
    rewrite (rr_requests _ Hok). pose proof (Z.mod_pos_bound (fr_req_head r) 16). lia. }
  destruct (fb_execute_refines arena c r w m S f Hrepr Hr Hm (rr_data _ Hok) Hf q Hq) as (c1 & d & m1 & -> & Hrepr1 & Hid & Hd & Hf1).
  cbn [mbind option_bind]. unfold with_memory. cbn [fw_regions]. rewrite lookup_insert_eq. cbn [mbind option_bind].
  rewrite aset_Some; [|cbn; rewrite (rr_responses _ Hok); apply Z.mod_pos_bound; done]. cbn [mbind option_bind].
  unfold fb_served in Hn. destruct (Nat.ltb_spec 16 (length (fb_pending r))) as [|Hle]; [done|].
  destruct (fb_turn_region r d (spec_execute S q f).1.1 Hok) as (Hok1 & Hk1 & Hp1 & Ha1); [lia..|done|].
  set (r1 := mk_fbregion _ _ _ _ _ _ _ _ _ _) in Hok1, Hk1, Hp1, Ha1.
  pose proof Hid as (Hid1 & Hid2 & Hid3).
  destruct (spec_execute S q f) as [[p S1] f1] eqn:He. cbn [fst snd] in *.
  assert (fb_served (Datatypes.S fuel) r = Datatypes.S (fb_served fuel r1)) as ->.
  { unfold fb_served. rewrite Ha1, Hp1, length_app in *. cbn [length] in *.
    destruct (Nat.ltb_spec 16 (Datatypes.S (length (fb_pending r1)))), (Nat.ltb_spec 16 (length (fb_pending r1))); lia. }
  rewrite Hp1. fold q. cbn [take spec_run]. rewrite He.
  specialize (IH c1 r1 (set_fw_region (fc_region c) r1 (mk_fbworld (<[fc_region c := set_fr_data d r]> (fw_regions w))
    (<[arena := m1]> (fw_arenas w)))) m1 S1 f1 (completed + 1) Hrepr1).
  rewrite Hid1 in IH. cbn [set_fw_region fw_regions fw_arenas] in IH. rewrite !lookup_insert_eq in IH.
  specialize (IH eq_refl eq_refl Hok1 Hf1). destruct (spec_run S1 _ f1) as [[ps S2] f2].
  destruct IH as (c2 & m2 & r2 & Hrun & ? & (? & ? & ?) & ? & (? & ? & ? & ? & ?) & Hp2 & Ha2 & ?).
  exists c2, m2, r2. cbn [fst snd] in *.
  split_and!; try done; unfold same_identity, client_side_kept; try (split_and!; etrans; done).
  - etrans; [exact Hrun|]. cbn [set_fw_region fw_regions fw_arenas]. rewrite ?Hid1, !insert_insert_eq.
    do 3 f_equal. lia.
  - by rewrite Hp2, !Nat2Z.id, Hp1.
  - by rewrite Ha2, Ha1, <- app_assoc.
Qed.

Definition detach_requested (r : fb_region) : bool :=
  (fr_detach_request r =? 1) && (fr_detach_version r =? AOS_FB_DETACH_VERSION).

(** The screen of a client that was just set up. *)
Definition empty_screen : screen := mk_screen 1 ∅ 0 (0, 0, 0, 0).

Lemma fb_repr_init r arena bytes c m :
  aos_fb_client_init r arena bytes = Some c -> AOS_FB_ARENA_BYTES <= sm_size m -> fb_repr arena c m empty_screen.
Proof.
  unfold aos_fb_client_init. case_match; [done|]. intros [= <-] Hm.
  assert (forall i s, ((fun i => mk_surface 0 0 0 0 (arena, 2 * i * AOS_FB_SURFACE_BYTES)
     (arena, (2 * i + 1) * AOS_FB_SURFACE_BYTES)) <$> seqZ 0 AOS_FB_MAX_SURFACES) !! i = Some s ->
     surface_ok arena (Z.of_nat i) s /\ su_handle s = 0) as Hs.
  { intros i s (k & -> & [-> _]%lookup_seqZ)%list_lookup_fmap_Some. split; [by split; cbn|done]. }
  split; cbn [fc_surfaces fc_next_handle]; try done.
  - intros i s ?. by apply Hs.
  - intros i j s t Hi _ _ []. by destruct (Hs i s Hi).
  - intros i s Hi. destruct (Hs i s Hi) as [_ ->]. done.
  - intros i s Hi []. by destruct (Hs i s Hi).
Qed.

(** ** Detach *)

Definition retired_client (c : fb_client) : Prop :=
  fc_region c = NULL /\ Forall (fun s => su_handle s = 0) (fc_surfaces c) /\ is_u64 (fc_next_handle c).

(** The region with the detach acknowledged, all else as the client left it. *)
Definition acknowledged (r : fb_region) : fb_region :=
  mk_fbregion (fr_req_head r) (fr_req_tail r) (fr_resp_head r) (fr_resp_tail r) (fr_requests r)
    (fr_responses r) (fr_data r) (fr_detach_version r) (fr_detach_request r) 1.

(** [c'] is [c] after it let go of its region, its surfaces and its
    selection; the handle counter and the generation survive. *)
Definition let_go (c c' : fb_client) : Prop :=
  fc_region c' = NULL /\ fc_retired c' = 1 /\ fc_selected_handle c' = 0 /\
  Forall (fun s => su_handle s = 0) (fc_surfaces c') /\
  fc_next_handle c' = fc_next_handle c /\ fc_generation c' = fc_generation c.

(** A detach takes priority over the rings, acknowledges and lets go of the
    region and of the arena; later pumps touch no memory at all. *)
Lemma fb_detach_final c w r :
  fc_region c <> NULL -> fw_regions w !! fc_region c = Some r -> detach_requested r = true ->
  exists c', aos_fb_pump c w = Some (1, c', set_fw_region (fc_region c) (acknowledged r) w) /\
    let_go c c' /\ forall w', aos_fb_pump c' w' = Some (0, c', w').
Proof.
  intros Hn Hr Hd. unfold aos_fb_pump at 1. rewrite (proj2 (Z.eqb_neq _ _) Hn), Hr. cbn [mbind option_bind].
  unfold detach_requested in Hd. rewrite Hd. eexists. split; [done|]. split; [|done].
  unfold let_go. cbn. split_and!; try done. by repeat constructor.
Qed.

(** C9. For every state of the shared region, one pump of an attached client
    does what the specification says. If the client asked to detach, the
    pump serves no request: it acknowledges, changes nothing else in memory,
    and lets go of the region, the surfaces and the selection, so that later
    pumps touch no memory. Otherwise it runs the specification over the
    requests that have room for an answer, in order: the responses are the
    specification's and follow the unconsumed ones, the surfaces in the
    arena show the specification's pictures pixel for pixel, the payload
    window holds the specification's bytes, the remaining requests stay
    pending, and no other region, no other arena and no field owned by the
    client changes. *)
Theorem fb_pump_refines arena c m w r S :
  fb_repr arena c m S -> fc_region c <> NULL ->
  fw_regions w !! fc_region c = Some r -> fw_arenas w !! arena = Some m ->
  fb_region_ok r ->
  if detach_requested r then
    exists c', aos_fb_pump c w = Some (1, c', set_fw_region (fc_region c) (acknowledged r) w) /\
      let_go c c' /\ forall w', aos_fb_pump c' w' = Some (0, c', w')
  else
    run_repr arena c r w (Z.of_nat (fb_served 16 r)) 0 (aos_fb_pump c w)
      (spec_run S (take (fb_served 16 r) (fb_pending r)) (mbyte (fr_data r))).
Proof.
  intros Hc Hn Hr Hm Hok. destruct (detach_requested r) eqn:Hdet; [by apply fb_detach_final|].
  unfold aos_fb_pump. rewrite (proj2 (Z.eqb_neq _ _) Hn), Hr. cbn [mbind option_bind].
  unfold detach_requested in Hdet. rewrite Hdet. by eapply fb_pump_loop_refines.
Qed.

(** ** Handles over the life of a client *)

Record fb_state := mk_fbstate { fs_client : fb_client; fs_rebind : fb_rebind; fs_world : fb_world }.

Definition typed_world (w : fb_world) : Prop := map_Forall (fun _ r => fb_region_ok r) (fw_regions w).

(** Everything that can happen between requests: other parties change the
    memory of the world, as long as it stays mapped where an attached client
    points and the client's arena, private to the service, is left alone;
    the service pumps; a rebind advances, with the pages of a commit
    mapped. *)
Inductive fb_step : fb_state -> fb_state -> Prop :=
  | fb_step_env c s w w' :
      typed_world w' ->
      (fc_region c <> NULL -> is_Some (fw_regions w' !! fc_region c) /\
         forall t, t ∈ fc_surfaces c -> fw_arenas w' !! (su_staging t).1 = fw_arenas w !! (su_staging t).1) ->
      fb_step (mk_fbstate c s w) (mk_fbstate c s w')
  | fb_step_pump c s w n c' w' :
      aos_fb_pump c w = Some (n, c', w') -> fb_step (mk_fbstate c s w) (mk_fbstate c' s w')
  | fb_step_stage c s w badge q :
      fb_step (mk_fbstate c s w) (mk_fbstate c (aos_fb_rebind_staged c s badge q).2 w)
  | fb_step_abort c s w badge q :
      fb_step (mk_fbstate c s w)
        (mk_fbstate (aos_fb_rebind_aborted c s badge q).1.2 (aos_fb_rebind_aborted c s badge q).2 w)
  | fb_step_commit c s w badge q region arena m status c' s' :
      fw_arenas w !! arena = Some m -> AOS_FB_ARENA_BYTES <= sm_size m ->
      aos_fb_rebind_commit c s badge q region arena w = Some (status, c', s') ->
      fb_step (mk_fbstate c s w) (mk_fbstate c' s' w).

Definition live (c : fb_client) (h : Z) : Prop := h <> 0 /\ exists s, s ∈ fc_surfaces c /\ su_handle s = h.

Definition fb_inv (st : fb_state) : Prop :=
  typed_world (fs_world st) /\
  (retired_client (fs_client st) \/
   exists arena m S r, fb_repr arena (fs_client st) m S /\ fc_region (fs_client st) <> NULL /\
     fw_regions (fs_world st) !! fc_region (fs_client st) = Some r /\ fw_arenas (fs_world st) !! arena = Some m).

(** [S'] names no picture that [S] did not, except under fresh handles. *)
Definition handles_grow (S S' : screen) : Prop :=
  sc_next S <= sc_next S' /\
  forall h, is_Some (sc_pictures S' !! h) -> is_Some (sc_pictures S !! h) \/ sc_next S <= h.

Lemma handles_grow_refl S : handles_grow S S.
Proof. split; [lia|auto]. Qed.

Lemma handles_grow_set S h p p' : sc_pictures S !! h = Some p -> handles_grow S (set_picture h p' S).
Proof.
  intros Hp. split; [cbn; lia|]. intros k. cbn. left. destruct (decide (h = k)) as [<-|]; [eauto|].
  by rewrite lookup_insert_ne in *.
Qed.

Lemma spec_execute_grows S q f : handles_grow S (spec_execute S q f).1.2.
Proof.
  pose proof (handles_grow_refl S) as Hrefl. unfold spec_execute, spec_create.
  do 3 (destruct (_ : bool); [exact Hrefl|]). destruct (_ && _); [exact Hrefl|].
  destruct (fq_operation q =? AOS_FB_CREATE).
  { do 2 (destruct (_ || _); [exact Hrefl|]). split; cbn; [lia|]. intros k Hk.
    destruct (decide (sc_next S = k)) as [->|]; [right; lia|]. rewrite lookup_insert_ne in Hk by done. auto. }
  destruct (sc_pictures S !! fq_handle q) as [p|] eqn:Hp; [|exact Hrefl]. unfold spec_operate.
  repeat case_cmp; try exact Hrefl; try (by eapply handles_grow_set); split; try (cbn; lia); auto;
    cbn; intros k [x [_ Hx]%lookup_delete_Some]; eauto.
Qed.

Lemma spec_run_grows qs : forall S f, handles_grow S (spec_run S qs f).1.2.
Proof.
  induction qs as [|q qs IH]; intros S f; cbn [spec_run]; [apply handles_grow_refl|].
  pose proof (spec_execute_grows S q f) as [Hn Hp]. destruct (spec_execute S q f) as [[p S1] f1]. cbn in *.
  pose proof (IH S1 f1) as [Hn1 Hp1]. destruct (spec_run S1 qs f1) as [[ps S2] f2]. cbn in *.
  split; [lia|]. intros h Hh. destruct (Hp1 h Hh) as [Hh1|]; [auto|right; lia].
Qed.

Lemma live_repr arena c m S h : fb_repr arena c m S -> live c h <-> is_Some (sc_pictures S !! h).
Proof.
  intros []. split.
  - intros (Hh & s & [i Hs]%list_elem_of_lookup & <-). destruct (re_shows0 i s Hs Hh) as (p & -> & _). eauto.
  - intros [p Hp]. destruct (re_only0 h p Hp) as (? & i & s & Hs & <-). split; [done|]. exists s.
    split; [|done]. by eapply list_elem_of_lookup_2.
Qed.

Lemma live_retired c h : retired_client c -> ~ live c h.
Proof. intros (_ & Hz & _) (Hh & s & Hs & <-). rewrite Forall_forall in Hz. by apply Hh, Hz. Qed.

(** What a step keeps. *)
Definition keeps_handles (c c' : fb_client) : Prop :=
  handle_mark (fc_next_handle c) <= handle_mark (fc_next_handle c') /\
  forall h, live c' h -> live c h \/ handle_mark (fc_next_handle c) <= h.

Lemma keeps_handles_refl c : keeps_handles c c.
Proof. split; [lia|auto]. Qed.

Lemma keeps_handles_gone c c' :
  fc_next_handle c' = fc_next_handle c -> (forall h, ~ live c' h) -> keeps_handles c c'.
Proof. intros He Hl. split; [rewrite He; lia|]. intros h []%Hl. Qed.

Lemma fb_pump_keeps c s w n c' w' :
  fb_inv (mk_fbstate c s w) -> aos_fb_pump c w = Some (n, c', w') ->
  fb_inv (mk_fbstate c' s w') /\ keeps_handles c c'.
Proof.
  intros [Ht Hc] Hp. cbn in *. destruct Hc as [Hret|(arena & m & S & r & Hc & Hn & Hr & Hm)].
  { unfold aos_fb_pump in Hp. rewrite (proj1 Hret) in Hp. cbn in Hp. simplify_eq.
    split; [by split; [|left]|apply keeps_handles_refl]. }
  pose proof (map_Forall_lookup_1 _ _ _ _ Ht Hr) as Hok. cbn in Hok.
  pose proof (re_next _ _ _ _ Hc) as [Hnu Hnm].
  destruct (detach_requested r) eqn:Hd.
  - destruct (fb_detach_final c w r Hn Hr Hd) as (c1 & Hp1 & (Hr1 & _ & _ & Hs1 & Hn1 & _) & _). rewrite Hp in Hp1. simplify_eq.
    assert (retired_client c1) by by split_and!; rewrite ?Hn1.
    split; [|by apply keeps_handles_gone; [|intros; by apply live_retired]].
    split; [|by left]. cbn. apply map_Forall_insert_2; [|done]. by destruct Hok.
  - pose proof (fb_pump_loop_refines arena 16 c r w m S (mbyte (fr_data r)) 0 Hc Hr Hm Hok (fun _ => eq_refl)) as Hrun.
    pose proof (spec_run_grows (take (fb_served 16 r) (fb_pending r)) S (mbyte (fr_data r))) as [Hg1 Hg2].
    destruct (spec_run S _ _) as [[ps S1] f1]. destruct Hrun as (c1 & m1 & r1 & Hp1 & Hc1 & (Hi1 & _) & Hok1 & _).
    unfold aos_fb_pump in Hp. rewrite (proj2 (Z.eqb_neq _ _) Hn), Hr in Hp. cbn [mbind option_bind] in Hp.
    unfold detach_requested in Hd. rewrite Hd in Hp. change (Z.to_nat AOS_FB_QUEUE_CAPACITY) with 16%nat in Hp.
    rewrite Hp1 in Hp. cbn [fst snd] in *. simplify_eq. pose proof (re_next _ _ _ _ Hc1) as [_ Hnm1].
    split; [split; cbn; [by apply map_Forall_insert_2|]|].
    + right. exists arena, m1, S1, r1. by rewrite Hi1, !lookup_insert_eq.
    + split; [lia|]. intros h Hh. rewrite (live_repr _ _ _ _ h Hc1) in Hh. rewrite (live_repr _ _ _ _ h Hc), <- Hnm. auto.
Qed.

(** The only statuses of a commit that change the client. *)
Lemma fb_commit_cases c s badge q region arena w status c' s' :
  aos_fb_rebind_commit c s badge q region arena w = Some (status, c', s') ->
  c' = c \/
  exists fresh, aos_fb_client_init region arena AOS_FB_ARENA_BYTES = Some fresh /\
    fc_region c = NULL /\ is_Some (fw_regions w !! region) /\
    c' = set_generation (rq_generation q) (set_next_handle (fc_next_handle c) fresh).
Proof.
  unfold aos_fb_rebind_commit, aos_fb_client_rebind. case_match; [intros; simplify_eq; auto|].
  destruct (_ || (AOS_FB_ARENA_BYTES <? _)) eqn:Hg; [cbn; intros; simplify_eq; auto|].
  destruct (fw_regions w !! region) as [r|] eqn:Hr; [|done]. cbn [mbind option_bind].
  destruct (_ || negb (fr_detach_ack r =? 0)); [cbn; intros; simplify_eq; auto|].
  destruct (aos_fb_client_init region arena AOS_FB_ARENA_BYTES) as [fresh|]; cbn [mbind option_bind Z.eqb negb]; intros; simplify_eq; [|auto].
  right. exists fresh. split_and!; [done| |eauto|done].
  rewrite !orb_false_iff, negb_false_iff, Z.eqb_eq in Hg. tauto.
Qed.

Lemma fb_init_region region arena bytes c : aos_fb_client_init region arena bytes = Some c -> fc_region c = region /\ region <> NULL.
Proof.
  unfold aos_fb_client_init. destruct (_ || _) eqn:Hg; [done|]. intros [= <-]. split; [done|].
  rewrite !orb_false_iff, Z.eqb_neq in Hg. tauto.
Qed.

(** The handle counter that a rebind carries over. *)
Lemma fb_repr_next arena c m n g :
  fb_repr arena c m empty_screen -> is_u64 n ->
  fb_repr arena (set_generation g (set_next_handle n c)) m (mk_screen (handle_mark n) ∅ 0 (0, 0, 0, 0)).
Proof.
  intros [Ha _ Hl Hso Hd Hi Hsh Ho Hse Hre Hsn] Hn. split; cbn in *; try done.
  intros i s Hs. assert (0 < handle_mark n) by (unfold handle_mark, is_u64 in *; case_cmp; lia).
  destruct (decide (su_handle s = 0)) as [->|H0]; [lia|].
  destruct (Hsh i s Hs H0) as (p & Hp & _). by rewrite lookup_empty in Hp.
Qed.

Lemma fb_step_keeps st st' :
  fb_inv st -> fb_step st st' -> fb_inv st' /\ keeps_handles (fs_client st) (fs_client st').
Proof.
  intros Hinv Hs. destruct Hs as [c s w w' Ht Hmem|c s w n c' w' Hp|c s w badge q|c s w badge q|c s w badge q region arena m status c' s' Ham Hsz Hco];
    cbn [fs_client].
  - split; [|apply keeps_handles_refl]. split; [done|]. destruct Hinv as [_ [Hr|(arena & m & S & r & Hc & Hn & Hr & Hm)]];
      cbn [fs_client fs_world] in *; [by left|right]. destruct (Hmem Hn) as [[r' Hr'] Ha].
    exists arena, m, S, r'. split_and!; try done. destruct (fc_surfaces c) as [|t l] eqn:Hl.
    { by pose proof (re_length _ _ _ _ Hc) as Hlen; rewrite Hl in Hlen. }
    destruct (re_surfaces _ _ _ _ Hc 0%nat t) as [Hst _ _ _ _]; [by rewrite Hl|].
    specialize (Ha t). rewrite Hst in Ha. cbn in Ha. rewrite Ha; [done|]. apply list_elem_of_here.
  - by eapply fb_pump_keeps.
  - split; [done|apply keeps_handles_refl].
  - unfold aos_fb_rebind_aborted. case_match; cbn; (split; [|apply keeps_handles_refl || by split; [cbn; lia|auto]]); [done|].
    destruct Hinv as [Ht [Hr|(arena & m & S & r & [] & Hn & Hr & Hm)]]; (split; [done|]); [by left; destruct Hr as (? & ? & ?)|right].
    exists arena, m, S, r. split_and!; [by split|done..].
  - destruct (fb_commit_cases _ _ _ _ _ _ _ _ _ _ Hco) as [->|(fresh & Hfr & Hn & [r Hr] & ->)].
    { split; [done|apply keeps_handles_refl]. }
    destruct Hinv as [Ht [Hret|(? & ? & ? & ? & _ & ? & _)]]; cbn [fs_client fs_world] in *; [|done].
    destruct (fb_init_region _ _ _ _ Hfr) as [Hreg Hreg0].
    pose proof (fb_repr_next arena fresh m (fc_next_handle c) (rq_generation q) (fb_repr_init _ _ _ _ _ Hfr Hsz) (proj2 (proj2 Hret))) as Hc'.
    split; [split; [done|right]|].
    + exists arena, m. eexists _, r. split_and!; [exact Hc'|by cbn; rewrite Hreg|by cbn; rewrite Hreg|done].
    + apply keeps_handles_gone; [done|]. intros h. rewrite (live_repr _ _ _ _ h Hc'). cbn. by intros [? ?].
Qed.

(** C28. A handle that was given out and is no longer valid never becomes
    valid again, over any sequence of pumps, detaches, rebinds and hostile
    writes to shared memory. *)
Theorem fb_handle_final st st' h :
  fb_inv st -> rtc fb_step st st' -> 0 < h < handle_mark (fc_next_handle (fs_client st)) ->
  ~ live (fs_client st) h -> ~ live (fs_client st') h.
Proof.
  intros Hinv Hsteps. revert Hinv. induction Hsteps as [st|st st1 st2 Hs _ IH]; [done|].
  intros Hinv Hh Hl. destruct (fb_step_keeps st st1 Hinv Hs) as [Hinv1 [Hm Hk]].
  apply IH; [done|lia|]. intros Hl1. destruct (Hk h Hl1); [done|lia].
Qed.

(** ** Examples *)

(** A client that has a surface made, writes and commits two pixels, selects
    them and reads them back. *)
Definition example_requests : list fb_request :=
  [mk_fbreq 1 AOS_FB_CREATE 10 0 0 0 0 2 1 0 0; mk_fbreq 1 AOS_FB_WRITE 11 0 1 0 0 2 1 0 8;
   mk_fbreq 1 AOS_FB_FLIP 12 0 1 0 0 0 0 0 0; mk_fbreq 1 AOS_FB_SELECT 13 0 1 1 0 1 1 0 0;
   mk_fbreq 1 AOS_FB_READ 14 0 1 1 0 1 1 100 4].

Definition example_region : fb_region :=
  mk_fbregion 0 5 0 0 (example_requests ++ replicate 11 inhabitant) (replicate 16 inhabitant)
    (mk_smem AOS_FB_DATA_BYTES (list_to_map [(0, 7); (4, 9)])) 0 0 0.

Definition example_client : fb_client := default zero_client (aos_fb_client_init 0x1000 0x2000 AOS_FB_ARENA_BYTES).

Definition example_world : fb_world :=
  mk_fbworld {[0x1000 := example_region]} {[0x2000 := smem_zeroed AOS_FB_ARENA_BYTES]}.

Lemma example_fb_region_ok : fb_region_ok example_region.
Proof.
  split; try by_compute; try done. apply Forall_app. split; [|apply Forall_replicate; by split].
  repeat (apply Forall_cons; split; [by split|]). constructor.
Qed.

Lemma example_repr : fb_repr 0x2000 example_client (smem_zeroed AOS_FB_ARENA_BYTES) empty_screen.
Proof. by apply (fb_repr_init 0x1000 0x2000 AOS_FB_ARENA_BYTES). Qed.

(** The same region with a detach request. *)
Definition detach_world : fb_world :=
  mk_fbworld {[0x1000 := mk_fbregion 0 5 0 0 (fr_requests example_region) (fr_responses example_region)
    (fr_data example_region) AOS_FB_DETACH_VERSION 1 0]} {[0x2000 := smem_zeroed AOS_FB_ARENA_BYTES]}.

Lemma detach_fb_region_ok r : fw_regions detach_world !! 0x1000 = Some r -> fb_region_ok r.
Proof. intros [= <-]. destruct example_fb_region_ok. by split. Qed.

Lemma fb_pump_refines_witness :
  (exists c' m r', aos_fb_pump example_client example_world =
      Some (5, c', mk_fbworld (<[0x1000 := r']> (fw_regions example_world)) (<[0x2000 := m]> (fw_arenas example_world))) /\
    fb_answers r' = [mk_fbresp 1 0 10 0 1 0 2 1; mk_fbresp 1 0 11 0 1 0 2 1; mk_fbresp 1 0 12 0 1 1 2 1;
                     mk_fbresp 1 0 13 0 1 1 2 1; mk_fbresp 1 0 14 0 1 1 2 1] /\
    mbyte (fr_data r') 100 = 9) /\
  (exists c' r', aos_fb_pump example_client detach_world = Some (1, c', set_fw_region 0x1000 r' detach_world) /\
    fr_detach_ack r' = 1 /\ let_go example_client c').
Proof.
  split.
  - destruct (fb_pump_refines 0x2000 example_client (smem_zeroed AOS_FB_ARENA_BYTES) example_world example_region
      empty_screen example_repr ltac:(done) eq_refl eq_refl example_fb_region_ok)
      as (c' & m & r' & Hp & _ & _ & _ & _ & _ & Ha & Hd).
    exists c', m, r'. split_and!; [exact Hp|rewrite Ha; vm_compute; reflexivity|rewrite Hd; vm_compute; reflexivity].
  - destruct (fb_pump_refines 0x2000 example_client (smem_zeroed AOS_FB_ARENA_BYTES) detach_world _
      empty_screen example_repr ltac:(done) eq_refl eq_refl (detach_fb_region_ok _ eq_refl)) as (c' & Hp & Hl & _).
    exists c'. eexists. split; [exact Hp|]. split; [done|exact Hl].
Defined.

(** The same client after a rebind that carries over four used handles. *)
Definition rebound_client : fb_client := set_generation 1 (set_next_handle 5 example_client).

Definition rebound_state : fb_state := mk_fbstate rebound_client (mk_fbrebind 0 0) example_world.

Definition pumped_state : fb_state :=
  match aos_fb_pump rebound_client example_world with
  | Some (_, c', w') => mk_fbstate c' (mk_fbrebind 0 0) w'
  | None => rebound_state
  end.

Lemma rebound_inv : fb_inv rebound_state.
Proof.
  split; [by apply map_Forall_singleton, example_fb_region_ok|right].
  exists 0x2000, (smem_zeroed AOS_FB_ARENA_BYTES). eexists _, example_region.
  split_and!; [by apply fb_repr_next; [apply example_repr|]|done..].
Qed.

Lemma fb_handle_final_witness : live (fs_client pumped_state) 5 /\ ~ live (fs_client pumped_state) 3.
Proof.
  split.
  - split; [done|]. exists (mk_surface 5 0 2 1 (0x2000, 0) (0x2000, AOS_FB_SURFACE_BYTES)).
    split; [|done]. vm_compute. apply list_elem_of_here.
  - apply (fb_handle_final rebound_state pumped_state 3).
    + apply rebound_inv.
    + apply rtc_once. assert (exists n, aos_fb_pump rebound_client example_world =
        Some (n, fs_client pumped_state, fs_world pumped_state)) as [n Hn].
      { exists 5. vm_compute. reflexivity. }
      exact (fb_step_pump _ _ _ _ _ _ Hn).
    + vm_compute. done.
    + intros [_ (s & Hs & H3)]. vm_compute in Hs, H3.
      repeat (apply elem_of_cons in Hs as [->|Hs]; [done|]). by apply not_elem_of_nil in Hs.
Defined.
