(* ===== verification/FbObserver.v ===== *)
(** * The framebuffer observer

    platform/framebuffer/observer.c and include/platform/framebuffer_observer.h:
    an observer that root grants a region of its own captures the selected
    rectangle of a client's committed frame into a private snapshot and reads
    it back, plainly or run-length packed.

    The theorems: a packed read decodes to a prefix of the range asked for,
    by the decoder that the contract describes; and every pump answers its
    request as the specification of a snapshot says, on the pictures that
    the framebuffer service's own specification gives the clients. *)

From S2P Require Import Prelude Ring BitSet Bytes PixelMem Framebuffer.

Definition AOS_FB_OBSERVER_VERSION : Z := 1.

(** enum aos_fb_observer_operation *)
Definition AOS_FB_CAPTURE : Z := 1.
Definition AOS_FB_CAPTURE_READ : Z := 2.
Definition AOS_FB_CAPTURE_RELEASE : Z := 3.
Definition AOS_FB_CAPTURE_READ_PACKED : Z := 4.

Definition AOS_FB_PACKED_SOURCE_MAX : Z := 65536.
Definition AOS_FB_PACKED_WIRE_MAX : Z := 4056.
Definition AOS_FB_PACKED_HEADER_BYTES : Z := 8.
Definition AOS_FB_PACKED_RAW : Z := 0.
Definition AOS_FB_PACKED_RUNS : Z := 1.

(** enum aos_fb_observer_status *)
Definition AOS_FB_OBSERVER_OK : Z := 0.
Definition AOS_FB_OBSERVER_BAD_REQUEST : Z := 1.
Definition AOS_FB_OBSERVER_DENIED : Z := 2.
Definition AOS_FB_OBSERVER_NO_FRAME : Z := 3.
Definition AOS_FB_OBSERVER_BAD_COOKIE : Z := 4.
Definition AOS_FB_OBSERVER_BAD_BOUNDS : Z := 5.
Definition AOS_FB_OBSERVER_EXHAUSTED : Z := 6.

Record obs_request := mk_obsreq {
  oq_version : Z; oq_operation : Z; oq_id : Z; oq_client : Z; oq_cookie : Z; oq_offset : Z; oq_length : Z }.

Record obs_response := mk_obsresp {
  op_version : Z; op_status : Z; op_id : Z; op_length : Z; op_cookie : Z; op_sequence : Z;
  op_width : Z; op_height : Z }.

#[global] Instance obs_request_inhabited : Inhabited obs_request := populate (mk_obsreq 0 0 0 0 0 0 0).
#[global] Instance obs_response_inhabited : Inhabited obs_response := populate (mk_obsresp 0 0 0 0 0 0 0 0).

Record obs_region := mk_obsregion {
  or_req_head : Z; or_req_tail : Z; or_resp_head : Z; or_resp_tail : Z;
  or_requests : list obs_request; or_responses : list obs_response; or_data : smem }.

(** The observer's private state; the snapshot storage is an object of its
    own, and the clients are the framebuffer service's. *)
Record observer := mk_observer {
  ob_client_count : Z; ob_allowed_mask : Z; ob_snapshot : smem;
  ob_next_cookie : Z; ob_cookie : Z; ob_sequence : Z; ob_width : Z; ob_height : Z; ob_bytes : Z }.

(** ** Packed reads *)

Definition le32 (value : Z) : list Z := (fun i => u8 (Z.shiftr value (8 * i))) <$> seqZ 0 4.

Definition put_le32 (out : smem) (p value : Z) : option smem := smem_write out p (le32 value).

(** The inner loop: how far the pixel at [consumed] repeats. *)
Fixpoint pixel_run (fuel : nat) (source : smem) (base consumed length run : Z) : option Z :=
  match fuel with
  | O => None
  | S fuel =>
      if run <? u32 (length - consumed) then
        a ← smem_read source (base + consumed) 4;
        b ← smem_read source (base + consumed + run) 4;
        if decide (a = b) then pixel_run fuel source base consumed length (u32 (run + 4)) else Some run
      else Some run
  end.

(** The outer loop. *)
Fixpoint pack_runs (fuel : nat) (out source : smem) (base length consumed written : Z) : option (smem * Z * Z) :=
  match fuel with
  | O => None
  | S fuel =>
      if (consumed <? length) && (u32 (written + 8) <=? AOS_FB_PACKED_WIRE_MAX) then
        run ← pixel_run (Z.to_nat (length / 4 + 1)) source base consumed length 4;
        out ← put_le32 out written (run / 4);
        out ← smem_copy out (written + 4) source (base + consumed) 4;
        pack_runs fuel out source base length (u32 (consumed + run)) (u32 (written + 8))
      else Some (out, consumed, written)
  end.

(** At most (4056 - 8) / 8 runs fit. *)
Definition packed_read (out source : smem) (base length : Z) : option (Z * smem) :=
  '(out, consumed, written) ← pack_runs 507 out source base length 0 AOS_FB_PACKED_HEADER_BYTES;
  let limit := AOS_FB_PACKED_WIRE_MAX - AOS_FB_PACKED_HEADER_BYTES in
  let raw := if limit <? length then limit else length in
  if (consumed <? raw) || ((consumed =? raw) && (u32 (raw + AOS_FB_PACKED_HEADER_BYTES) <=? written)) then
    out ← smem_copy out AOS_FB_PACKED_HEADER_BYTES source base raw;
    out ← put_le32 out 0 raw;
    out ← put_le32 out 4 AOS_FB_PACKED_RAW;
    Some (u32 (raw + AOS_FB_PACKED_HEADER_BYTES), out)
  else
    out ← put_le32 out 0 consumed;
    out ← put_le32 out 4 AOS_FB_PACKED_RUNS;
    Some (written, out).

(** ** Requests *)

(** [None] is the result -1. *)
Definition aos_fb_observer_init (r clients count mask : Z) (snapshot : smem) (bytes : Z) : option observer :=
  if (r =? NULL) || (clients =? NULL) || (count =? 0) || (AOS_FB_CLIENTS <? count) ||
     negb (Z.land mask (u32 (Z.lnot (u32 (u32 (Z.shiftl 1 count) - 1)))) =? 0) ||
     (bytes <? AOS_FB_SURFACE_BYTES) then None
  else Some (mk_observer count mask snapshot 1 0 0 0 0 0).

Definition aos_fb_observer_submit (r : obs_region) (q : obs_request) : option (Z * obs_region) :=
  let head := or_req_head r in
  let tail := or_req_tail r in
  if AOS_FB_QUEUE_CAPACITY <=? u32 (tail - head) then Some (-1, r)
  else
    reqs ← aset (or_requests r) (tail mod AOS_FB_QUEUE_CAPACITY) q;
    Some (0, mk_obsregion head (u32 (tail + 1)) (or_resp_head r) (or_resp_tail r) reqs (or_responses r) (or_data r)).

Definition aos_fb_observer_receive (r : obs_region) : option (option obs_response * obs_region) :=
  let head := or_resp_head r in
  let tail := or_resp_tail r in
  if (head =? tail) || (AOS_FB_QUEUE_CAPACITY <? u32 (tail - head)) then Some (None, r)
  else
    p ← aget (or_responses r) (head mod AOS_FB_QUEUE_CAPACITY);
    Some (Some p, mk_obsregion (or_req_head r) (or_req_tail r) (u32 (head + 1)) tail (or_requests r) (or_responses r) (or_data r)).

Definition obs_refused (q : obs_request) (status : Z) : obs_response :=
  mk_obsresp AOS_FB_OBSERVER_VERSION status (oq_id q) 0 0 0 0 0.

Definition obs_described (q : obs_request) (o : observer) (length : Z) : obs_response :=
  mk_obsresp AOS_FB_OBSERVER_VERSION AOS_FB_OBSERVER_OK (oq_id q) length (ob_cookie o) (ob_sequence o)
    (ob_width o) (ob_height o).

(** The surface a client has selected, if any. *)
Definition selected_surface (c : fb_client) : option Z :=
  if fc_selected_handle c =? 0 then None
  else find_surface (fun s => su_handle s =? fc_selected_handle c) (fc_surfaces c).

(** The branch of CAPTURE. *)
Definition obs_capture (o : observer) (q : obs_request) (clients : list fb_client) (arenas : gmap Z smem)
    : option (obs_response * observer) :=
  if negb (oq_cookie q =? 0) || negb (oq_offset q =? 0) || negb (oq_length q =? 0) then
    Some (obs_refused q AOS_FB_OBSERVER_BAD_REQUEST, o)
  else if (ob_client_count o <=? oq_client q) || negb (has_bit (ob_allowed_mask o) (oq_client q)) then
    Some (obs_refused q AOS_FB_OBSERVER_DENIED, o)
  else
    c ← aget clients (oq_client q);
    match selected_surface c with
    | None => Some (obs_refused q AOS_FB_OBSERVER_NO_FRAME, o)
    | Some i =>
        s ← aget (fc_surfaces c) i;
        if su_sequence s =? 0 then Some (obs_refused q AOS_FB_OBSERVER_NO_FRAME, o)
        else if ob_next_cookie o =? 0 then Some (obs_refused q AOS_FB_OBSERVER_EXHAUSTED, o)
        else
          let row_bytes := u32 (fc_selected_width c * AOS_FB_PIXEL_BYTES) in
          m ← arenas !! (su_committed s).1;
          snapshot ← copy_rows (Z.to_nat (fc_selected_height c)) 0
            (fun row => u32 (row * row_bytes))
            (fun row => (su_committed s).2 +
               u32 (u32 (u32 (u32 (fc_selected_y c + row) * su_width s) + fc_selected_x c) * AOS_FB_PIXEL_BYTES))
            row_bytes (ob_snapshot o) m;
          let w := fc_selected_width c in
          let h := fc_selected_height c in
          let o' := mk_observer (ob_client_count o) (ob_allowed_mask o) snapshot (u64 (ob_next_cookie o + 1))
                      (ob_next_cookie o) (su_sequence s) w h (u32 (u32 (w * h) * AOS_FB_PIXEL_BYTES)) in
          Some (obs_described q o' 0, o')
    end.

Definition obs_release (o : observer) : observer :=
  mk_observer (ob_client_count o) (ob_allowed_mask o) (ob_snapshot o) (ob_next_cookie o) 0 (ob_sequence o)
    (ob_width o) (ob_height o) (ob_bytes o).

(** The range of a read, against the snapshot's bytes. *)
Definition bad_range (o : observer) (q : obs_request) : bool :=
  (ob_bytes o <? oq_offset q) || (u32 (ob_bytes o - oq_offset q) <? oq_length q).

Definition obs_execute (o : observer) (q : obs_request) (data : smem) (clients : list fb_client) (arenas : gmap Z smem)
    : option (obs_response * observer * smem) :=
  if negb (oq_version q =? AOS_FB_OBSERVER_VERSION) || (oq_operation q <? AOS_FB_CAPTURE) ||
     (AOS_FB_CAPTURE_READ_PACKED <? oq_operation q) then Some (obs_refused q AOS_FB_OBSERVER_BAD_REQUEST, o, data)
  else if oq_operation q =? AOS_FB_CAPTURE then
    '(p, o') ← obs_capture o q clients arenas; Some (p, o', data)
  else if negb (oq_client q =? 0) then Some (obs_refused q AOS_FB_OBSERVER_BAD_REQUEST, o, data)
  else if (oq_cookie q =? 0) || negb (oq_cookie q =? ob_cookie o) then
    Some (obs_refused q AOS_FB_OBSERVER_BAD_COOKIE, o, data)
  else if oq_operation q =? AOS_FB_CAPTURE_READ then
    if (oq_length q =? 0) || (AOS_FB_DATA_BYTES <? oq_length q) || bad_range o q then
      Some (obs_refused q AOS_FB_OBSERVER_BAD_BOUNDS, o, data)
    else
      data' ← smem_copy data 0 (ob_snapshot o) (oq_offset q) (oq_length q);
      Some (obs_described q o (oq_length q), o, data')
  else if oq_operation q =? AOS_FB_CAPTURE_READ_PACKED then
    if (oq_length q =? 0) || (AOS_FB_PACKED_SOURCE_MAX <? oq_length q) ||
       negb (Z.land (Z.lor (oq_offset q) (oq_length q)) 3 =? 0) || bad_range o q then
      Some (obs_refused q AOS_FB_OBSERVER_BAD_BOUNDS, o, data)
    else
      '(n, data') ← packed_read data (ob_snapshot o) (oq_offset q) (oq_length q);
      Some (obs_described q o n, o, data')
  else if negb (oq_offset q =? 0) || negb (oq_length q =? 0) then
    Some (obs_refused q AOS_FB_OBSERVER_BAD_REQUEST, o, data)
  else Some (obs_described q (obs_release o) 0, obs_release o, data).

Definition aos_fb_observer_pump (o : observer) (r : obs_region) (clients : list fb_client) (arenas : gmap Z smem)
    : option (Z * observer * obs_region) :=
  let head := or_req_head r in
  let tail := or_req_tail r in
  let out := or_resp_tail r in
  let consumed := or_resp_head r in
  if (head =? tail) || (AOS_FB_QUEUE_CAPACITY <? u32 (tail - head)) || negb (out =? consumed) then Some (0, o, r)
  else
    q ← aget (or_requests r) (head mod AOS_FB_QUEUE_CAPACITY);
    '(p, o', data') ← obs_execute o q (or_data r) clients arenas;
    resps ← aset (or_responses r) (out mod AOS_FB_QUEUE_CAPACITY) p;
    Some (1, o', mk_obsregion (u32 (head + 1)) (or_req_tail r) (or_resp_head r) (u32 (out + 1)) (or_requests r) resps data').

(** ** The decoder of the contract *)

(** Runs: a nonzero little-endian pixel count and a pixel, to the end. *)
Fixpoint unpack_runs (l : list Z) : option (list Z) :=
  match l with
  | [] => Some []
  | c0 :: c1 :: c2 :: c3 :: p0 :: p1 :: p2 :: p3 :: l =>
      let n := le_val [c0; c1; c2; c3] in
      if n =? 0 then None
      else d ← unpack_runs l; Some (concat (replicate (Z.to_nat n) [p0; p1; p2; p3]) ++ d)
  | _ => None
  end.

(** A payload: decoded byte count, encoding, and a body without trailing
    bytes. *)
Definition unpack (l : list Z) : option (list Z) :=
  if (length l <? 8)%nat then None
  else
    let count := le_val (take 4 l) in
    let encoding := le_val (take 4 (drop 4 l)) in
    d ← (if encoding =? AOS_FB_PACKED_RAW then Some (drop 8 l)
         else if encoding =? AOS_FB_PACKED_RUNS then unpack_runs (drop 8 l) else None);
    if Z.of_nat (length d) =? count then Some d else None.

Lemma le32_bytes v : le32 v = le_bytes 4 v.
Proof.
  unfold le32, u8. change (seqZ 0 4) with [0; 1; 2; 3]. cbn [fmap list_fmap le_bytes].
  rewrite !Z.shiftr_div_pow2 by lia. rewrite !Z.div_div by lia. change (2 ^ 8) with 256. by rewrite Z.div_1_r.
Qed.

Lemma le_val_le32 v : is_u32 v -> le_val (le32 v) = v.
Proof. intros. rewrite le32_bytes, le_val_bytes. apply Z.mod_small. done. Qed.

Lemma length_le32 v : length (le32 v) = 4%nat.
Proof. by rewrite le32_bytes, length_le_bytes. Qed.

Lemma list_four {A} (l : list A) : length l = 4%nat -> exists a b c d, l = [a; b; c; d].
Proof. destruct l as [|a [|b [|c [|d [|]]]]]; try done. eauto. Qed.

(** One more run at the end. *)
Lemma unpack_runs_snoc l d n px :
  unpack_runs l = Some d -> 0 < n < 2 ^ 32 -> length px = 4%nat ->
  unpack_runs (l ++ le32 n ++ px) = Some (d ++ concat (replicate (Z.to_nat n) px)).
Proof.
  intros Hl Hn Hp. pose proof (le_val_le32 n ltac:(unfold is_u32; lia)) as Hv.
  destruct (list_four _ (length_le32 n)) as (c0 & c1 & c2 & c3 & Hc). destruct (list_four _ Hp) as (p0 & p1 & p2 & p3 & ->).
  rewrite Hc in Hv |- *. revert d Hl. remember (length l) as k eqn:Hk. revert l Hk.
  induction k as [k IH] using lt_wf_ind. intros l Hk d Hl.
  destruct l as [|a0 l]. { injection Hl as <-. cbn [app unpack_runs mbind option_bind]. rewrite Hv.
    destruct (Z.eqb_spec n 0); [lia|]. by rewrite app_nil_r. }
  do 7 (destruct l as [|? l]; [done|]). cbn [app unpack_runs] in *.
  destruct (le_val [a0; _; _; _] =? 0); [done|].
  destruct (unpack_runs l) as [dl|] eqn:Hul; [|done]. cbn [mbind option_bind] in Hl. injection Hl as <-.
  change (c0 :: c1 :: c2 :: c3 :: p0 :: p1 :: p2 :: [p3]) with ([c0; c1; c2; c3] ++ [p0; p1; p2; p3]).
  rewrite (IH (length l)) with (d := dl); [|rewrite Hk; cbn; lia|done|done]. cbn [mbind option_bind]. by rewrite app_assoc.
Qed.

Lemma unpack_payload count encoding body d :
  is_u32 count -> is_u32 encoding ->
  (encoding = AOS_FB_PACKED_RAW /\ d = body \/ encoding = AOS_FB_PACKED_RUNS /\ unpack_runs body = Some d) ->
  Z.of_nat (length d) = count -> unpack (le32 count ++ le32 encoding ++ body) = Some d.
Proof.
  intros Hc He Hb Hd. unfold unpack.
  pose proof (length_le32 count) as Hlc. pose proof (length_le32 encoding) as Hle.
  destruct (Nat.ltb_spec (length (le32 count ++ le32 encoding ++ body)) 8) as [Hlt|_].
  { rewrite !length_app in Hlt. lia. }
  rewrite (take_app_length' (le32 count)) by done.
  rewrite (drop_app_length' (le32 count)) by done. rewrite take_app_length' by done.
  rewrite app_assoc, drop_app_length' by (rewrite length_app; lia). rewrite !le_val_le32 by done.
  destruct Hb as [[-> ->]|[-> Hb]].
  - rewrite Z.eqb_refl. cbn [mbind option_bind]. by rewrite Hd, Z.eqb_refl.
  - change (AOS_FB_PACKED_RUNS =? AOS_FB_PACKED_RAW) with false. cbn [mbind option_bind].
    rewrite Z.eqb_refl, Hb. cbn [mbind option_bind]. by rewrite Hd, Z.eqb_refl.
Qed.

(** ** The loops of a packed read *)

Section packed.
Context (source : smem) (base length : Z).
Context (Hlen : 0 < length <= 65536) (Hmod : length mod 4 = 0).
Context (Hbase : 0 <= base) (Hsrc : base + length <= sm_size source).

(** The bytes of the range up to [n]. *)
Definition ahead (n : Z) : list Z := load_bytes source base n.
Definition pixel (n : Z) : list Z := load_bytes source (base + n) 4.

Lemma read_pixel n : 0 <= n -> n + 4 <= length -> smem_read source (base + n) 4 = Some (pixel n).
Proof using Hbase Hsrc. intros. unfold smem_read. by rewrite in_object_true by lia. Qed.

Lemma length_pixel n : List.length (pixel n) = 4%nat.
Proof using Type. pose proof (length_load_bytes source (base + n) 4). unfold pixel. lia. Qed.

(** A run is that many copies of the pixel it starts with. *)
Lemma pixel_run_ok fuel : forall consumed run,
  0 <= consumed -> consumed < length -> consumed mod 4 = 0 -> 4 <= run -> run mod 4 = 0 -> consumed + run <= length ->
  load_bytes source (base + consumed) run = concat (replicate (Z.to_nat (run / 4)) (pixel consumed)) ->
  (length - consumed - run) / 4 < Z.of_nat fuel ->
  exists run', pixel_run fuel source base consumed length run = Some run' /\ 4 <= run' /\ run' mod 4 = 0 /\
    consumed + run' <= length /\
    load_bytes source (base + consumed) run' = concat (replicate (Z.to_nat (run' / 4)) (pixel consumed)).
Proof using Hlen Hmod Hbase Hsrc.
  induction fuel as [|fuel IH]; intros consumed run Hc Hcl Hcm Hr Hrm Hle Heq Hf.
  { exfalso. pose proof (Z.div_pos (length - consumed - run) 4). lia. }
  cbn [pixel_run]. rewrite (u32_small (length - consumed)) by (unfold is_u32; lia).
  destruct (Z.ltb_spec run (length - consumed)); [|by exists run].
  assert (consumed + run + 4 <= length) by (Z.div_mod_to_equations; lia).
  rewrite read_pixel by lia. cbn [mbind option_bind].
  replace (base + consumed + run) with (base + (consumed + run)) by lia.
  rewrite read_pixel by lia. cbn [mbind option_bind]. case_decide as Hp; [|by exists run].
  rewrite u32_small by (unfold is_u32; lia). apply IH; try lia; [Z.div_mod_to_equations; lia| |Z.div_mod_to_equations; lia].
  replace (Z.to_nat ((run + 4) / 4)) with (Z.to_nat (run / 4) + 1)%nat by (Z.div_mod_to_equations; lia).
  rewrite load_bytes_app, replicate_add, concat_app, <- Heq by lia. f_equal. cbn. rewrite app_nil_r.
  replace (base + consumed + run) with (base + (consumed + run)) by lia. by rewrite Hp.
Qed.

(** What the runs written so far decode to. *)
Record packing (out0 out : smem) (consumed written : Z) : Prop := {
  pk_size : sm_size out = sm_size out0;
  pk_consumed : 0 <= consumed <= length;
  pk_aligned : consumed mod 4 = 0;
  pk_written : 8 <= written <= AOS_FB_PACKED_WIRE_MAX /\ written mod 8 = 0;
  pk_runs : unpack_runs (load_bytes out 8 (written - 8)) = Some (ahead consumed);
  pk_rest : forall k, AOS_FB_PACKED_WIRE_MAX <= k -> mbyte out k = mbyte out0 k }.

Lemma put_le32_ok out p v :
  0 <= p -> p + 4 <= sm_size out ->
  exists out', put_le32 out p v = Some out' /\ sm_size out' = sm_size out /\
    load_bytes out' p 4 = le32 v /\ forall k, k < p \/ p + 4 <= k -> mbyte out' k = mbyte out k.
Proof using Type.
  intros. unfold put_le32. pose proof (length_le32 v) as Hl.
  destruct (smem_write_ok out p (le32 v)) as (out' & -> & Hs & Hm); [lia..|].
  exists out'. split_and!; [done..| |].
  - eapply load_bytes_written; [done|lia].
  - intros k Hk. rewrite Hm, decide_False by lia. done.
Qed.

Lemma pack_runs_ok out0 fuel : forall out consumed written,
  AOS_FB_PACKED_WIRE_MAX <= sm_size out0 -> packing out0 out consumed written ->
  (4056 - written) / 8 < Z.of_nat fuel ->
  exists out' consumed' written', pack_runs fuel out source base length consumed written = Some (out', consumed', written') /\
    packing out0 out' consumed' written' /\ (consumed' = length \/ 4056 < written' + 8).
Proof using Hlen Hmod Hbase Hsrc.
  induction fuel as [|fuel IH]; intros out consumed written Hsz Hpk Hf; pose proof Hpk as [Hs [Hc1 Hc2] Ha [[Hw1 Hw2] Hwm] Hr Hrest];
    unfold AOS_FB_PACKED_WIRE_MAX in *.
  { exfalso. pose proof (Z.div_pos (4056 - written) 8). lia. }
  cbn [pack_runs]. unfold AOS_FB_PACKED_WIRE_MAX. rewrite (u32_small (written + 8)) by (unfold is_u32; lia).
  destruct (Z.ltb_spec consumed length) as [Hlt|]; cbn [andb].
  2:{ exists out, consumed, written. split_and!; [done..|lia]. }
  destruct (Z.leb_spec (written + 8) 4056); [|exists out, consumed, written; split_and!; [done..|lia]].
  destruct (pixel_run_ok (Z.to_nat (length / 4 + 1)) consumed 4) as (run & -> & Hr4 & Hrm & Hrl & Hrun);
    [lia..|done|lia|done|Z.div_mod_to_equations; lia| |Z.div_mod_to_equations; lia|].
  { change (Z.to_nat (4 / 4)) with 1%nat. cbn [replicate concat]. by rewrite app_nil_r. }
  cbn [mbind option_bind]. destruct (put_le32_ok out written (run / 4)) as (out1 & -> & Hs1 & Hl1 & Hm1); [lia..|].
  cbn [mbind option_bind].
  destruct (smem_copy_ok out1 (written + 4) source (base + consumed) 4) as (out2 & -> & Hs2 & Hm2);
    [lia..|Z.div_mod_to_equations; lia|].
  cbn [mbind option_bind]. rewrite u32_small by (unfold is_u32; lia).
  apply IH; [done| |Z.div_mod_to_equations; lia].
  split; unfold AOS_FB_PACKED_WIRE_MAX; [lia|lia|Z.div_mod_to_equations; lia|split; [lia|Z.div_mod_to_equations; lia]| |].
  2:{ intros k Hk. rewrite Hm2, decide_False, Hm1 by lia. auto. }
  replace (written + 8 - 8) with (written - 8 + (4 + 4)) by lia. rewrite !load_bytes_app by lia.
  replace (8 + (written - 8)) with written by lia.
  assert (load_bytes out2 8 (written - 8) = load_bytes out 8 (written - 8)) as ->.
  { apply load_bytes_ext. intros k Hk. rewrite Hm2, decide_False by lia. apply Hm1. lia. }
  assert (load_bytes out2 written 4 = le32 (run / 4)) as ->.
  { rewrite <- Hl1. apply load_bytes_ext. intros k Hk. by rewrite Hm2, decide_False by lia. }
  assert (load_bytes out2 (written + 4) 4 = pixel consumed) as ->.
  { apply load_bytes_ext. intros k Hk. rewrite Hm2, decide_True by lia. f_equal. lia. }
  unfold ahead. rewrite load_bytes_app, Hrun by lia.
  apply unpack_runs_snoc; [done|Z.div_mod_to_equations; lia|apply length_pixel].
Qed.

(** A packed read decodes, by the contract's decoder, to a prefix of the
    range: all of it, or at least what would fit uncompressed. *)
Lemma packed_read_ok out :
  AOS_FB_PACKED_WIRE_MAX <= sm_size out ->
  exists n out' k, packed_read out source base length = Some (n, out') /\ sm_size out' = sm_size out /\
    8 < n <= AOS_FB_PACKED_WIRE_MAX /\ Z.min length 4048 <= k <= length /\ k mod 4 = 0 /\
    unpack (load_bytes out' 0 n) = Some (ahead k) /\
    forall j, AOS_FB_PACKED_WIRE_MAX <= j -> mbyte out' j = mbyte out j.
Proof using Hlen Hmod Hbase Hsrc.
  intros Hsz. unfold packed_read, AOS_FB_PACKED_HEADER_BYTES.
  destruct (pack_runs_ok out 507 out 0 8 Hsz) as (out1 & consumed & written & -> & Hpk & Hend);
    [by split; unfold AOS_FB_PACKED_WIRE_MAX; try lia|done|].
  cbn [mbind option_bind]. unfold AOS_FB_PACKED_WIRE_MAX, AOS_FB_PACKED_HEADER_BYTES in *. cbn zeta.
  destruct Hpk as [Hs [Hc1 Hc2] Ha [[Hw1 Hw2] Hwm] Hr Hrest]. unfold AOS_FB_PACKED_WIRE_MAX in *.
  assert (exists raw, (if 4056 - 8 <? length then 4056 - 8 else length) = raw /\ raw = Z.min length 4048 /\ raw mod 4 = 0)
    as (raw & -> & Hraw & Hrm).
  { destruct (Z.ltb_spec (4056 - 8) length); eexists; (split; [done|]); split; try lia; done. }
  rewrite (u32_small (raw + 8)) by (unfold is_u32; lia).
  destruct (_ || _) eqn:Hb.
  - destruct (smem_copy_ok out1 8 source base raw) as (out2 & -> & Hs2 & Hm2); [lia..|]. cbn [mbind option_bind].
    destruct (put_le32_ok out2 0 raw) as (out3 & -> & Hs3 & Hl3 & Hm3); [lia..|]. cbn [mbind option_bind].
    destruct (put_le32_ok out3 4 AOS_FB_PACKED_RAW) as (out4 & -> & Hs4 & Hl4 & Hm4); [lia..|]. cbn [mbind option_bind].
    exists (raw + 8), out4, raw. split_and!; try done; try lia.
    + replace (raw + 8) with (4 + (4 + raw)) by lia. rewrite !load_bytes_app by lia.
      change (0 + 4) with 4. change (4 + 4) with 8.
      rewrite Hl4. rewrite (load_bytes_unwritten out3 out4 4 4 0 4), Hl3 by (done || lia).
      apply unpack_payload; [unfold is_u32; lia|done| |]. 2:{ unfold ahead. rewrite length_load_bytes; lia. }
      left. split; [done|]. apply load_bytes_ext. intros k Hk. rewrite Hm4, Hm3, Hm2, decide_True by lia. f_equal. lia.
    + intros j Hj. rewrite Hm4, Hm3, Hm2, decide_False by lia. auto.
  - assert (raw <= consumed) as Hrc.
    { rewrite orb_false_iff, Z.ltb_ge in Hb. tauto. }
    destruct (put_le32_ok out1 0 consumed) as (out3 & -> & Hs3 & Hl3 & Hm3); [lia..|]. cbn [mbind option_bind].
    destruct (put_le32_ok out3 4 AOS_FB_PACKED_RUNS) as (out4 & -> & Hs4 & Hl4 & Hm4); [lia..|]. cbn [mbind option_bind].
    assert (written <> 8) as Hw8.
    { intros ->. change (load_bytes out1 8 (8 - 8)) with (@nil Z) in Hr. cbn in Hr. injection Hr as Hr.
      pose proof (length_load_bytes source base consumed Hc1) as Hl. unfold ahead in Hr. rewrite <- Hr in Hl. cbn in Hl. lia. }
    exists written, out4, consumed. split_and!; try done; try lia.
    + replace written with (4 + (4 + (written - 8))) by lia. rewrite !load_bytes_app by lia.
      change (0 + 4) with 4. change (4 + 4) with 8.
      rewrite Hl4. rewrite (load_bytes_unwritten out3 out4 4 4 0 4), Hl3 by (done || lia).
      apply unpack_payload; [unfold is_u32; lia|done| |]. 2:{ unfold ahead. rewrite length_load_bytes; lia. }
      right. split; [done|]. rewrite <- Hr. f_equal. apply load_bytes_ext. intros k Hk. by rewrite Hm4, Hm3 by lia.
    + intros j Hj. rewrite Hm4, Hm3 by lia. auto.
Qed.
End packed.

(** ** Specification: a snapshot *)

(** The last capture; [vw_next] is the next cookie, 2^64 when all have been
    given out, and cookie zero means released. *)
Record view := mk_view {
  vw_next : Z; vw_cookie : Z; vw_sequence : Z; vw_width : Z; vw_height : Z; vw_image : list Z }.

(** The pixels of a rectangle, row by row. *)
Definition rectangle_bytes (f : frame) (x y w h : Z) : list Z :=
  (fun j => f (x + j / 4 mod w) (y + j / 4 / w) (j mod 4)) <$> seqZ 0 (w * h * 4).

Definition view_info (q : obs_request) (V : view) (n : Z) : obs_response :=
  mk_obsresp AOS_FB_OBSERVER_VERSION AOS_FB_OBSERVER_OK (oq_id q) n (vw_cookie V) (vw_sequence V) (vw_width V) (vw_height V).

(** CAPTURE, on the clients' screens. *)
Definition spec_capture (mask : Z) (screens : list screen) (V : view) (q : obs_request) : obs_response * view :=
  if negb (oq_cookie q =? 0) || negb (oq_offset q =? 0) || negb (oq_length q =? 0) then
    (obs_refused q AOS_FB_OBSERVER_BAD_REQUEST, V)
  else
    match screens !! Z.to_nat (oq_client q) with
    | Some scr =>
        if negb (Z.testbit mask (oq_client q)) then (obs_refused q AOS_FB_OBSERVER_DENIED, V)
        else
          match sc_pictures scr !! sc_selected scr with
          | Some p =>
              if pi_sequence p =? 0 then (obs_refused q AOS_FB_OBSERVER_NO_FRAME, V)
              else if vw_next V =? 2 ^ 64 then (obs_refused q AOS_FB_OBSERVER_EXHAUSTED, V)
              else
                let '(x, y, w, h) := sc_rectangle scr in
                let V' := mk_view (vw_next V + 1) (vw_next V) (pi_sequence p) w h
                            (rectangle_bytes (pi_committed p) x y w h) in
                (view_info q V' 0, V')
          | None => (obs_refused q AOS_FB_OBSERVER_NO_FRAME, V)
          end
    | None => (obs_refused q AOS_FB_OBSERVER_DENIED, V)
    end.

Definition in_image (V : view) (q : obs_request) : Prop :=
  oq_offset q + oq_length q <= Z.of_nat (length (vw_image V)).

#[global] Instance in_image_dec V q : Decision (in_image V q).
Proof. unfold in_image. apply _. Defined.

(** The reply [p], with the payload it leaves in the window, and the next
    view. *)
Definition spec_reply (mask : Z) (screens : list screen) (V : view) (q : obs_request)
    (p : obs_response) (V' : view) (payload : list Z) : Prop :=
  if negb (oq_version q =? 1) || (oq_operation q <? 1) || (4 <? oq_operation q) then
    p = obs_refused q AOS_FB_OBSERVER_BAD_REQUEST /\ V' = V
  else if oq_operation q =? AOS_FB_CAPTURE then (p, V') = spec_capture mask screens V q
  else if negb (oq_client q =? 0) then p = obs_refused q AOS_FB_OBSERVER_BAD_REQUEST /\ V' = V
  else if (oq_cookie q =? 0) || negb (oq_cookie q =? vw_cookie V) then
    p = obs_refused q AOS_FB_OBSERVER_BAD_COOKIE /\ V' = V
  else if oq_operation q =? AOS_FB_CAPTURE_READ then
    if decide (0 < oq_length q <= 65536 /\ in_image V q) then
      p = view_info q V (oq_length q) /\ V' = V /\ payload = aslice (vw_image V) (oq_offset q) (oq_length q)
    else p = obs_refused q AOS_FB_OBSERVER_BAD_BOUNDS /\ V' = V
  else if oq_operation q =? AOS_FB_CAPTURE_READ_PACKED then
    if decide (0 < oq_length q <= 65536 /\ in_image V q /\ oq_offset q mod 4 = 0 /\ oq_length q mod 4 = 0) then
      exists n k, p = view_info q V n /\ V' = V /\ 8 < n <= AOS_FB_PACKED_WIRE_MAX /\
        Z.min (oq_length q) 4048 <= k <= oq_length q /\ k mod 4 = 0 /\
        unpack payload = Some (aslice (vw_image V) (oq_offset q) k)
    else p = obs_refused q AOS_FB_OBSERVER_BAD_BOUNDS /\ V' = V
  else if negb (oq_offset q =? 0) || negb (oq_length q =? 0) then
    p = obs_refused q AOS_FB_OBSERVER_BAD_REQUEST /\ V' = V
  else
    V' = mk_view (vw_next V) 0 (vw_sequence V) (vw_width V) (vw_height V) (vw_image V) /\ p = view_info q V' 0.

(** ** Representation *)

Record obs_repr (o : observer) (V : view) : Prop := {
  ov_next : is_u64 (ob_next_cookie o) /\ vw_next V = handle_mark (ob_next_cookie o);
  ov_cookie : ob_cookie o = vw_cookie V;
  ov_sequence : ob_sequence o = vw_sequence V;
  ov_width : ob_width o = vw_width V;
  ov_height : ob_height o = vw_height V;
  ov_storage : AOS_FB_SURFACE_BYTES <= sm_size (ob_snapshot o);
  ov_bytes : 0 <= ob_bytes o <= AOS_FB_SURFACE_BYTES;
  ov_image : load_bytes (ob_snapshot o) 0 (ob_bytes o) = vw_image V }.

(** A client and its screen, in the service's memory. A detached client has
    nothing selected. *)
Definition observable (arenas : gmap Z smem) (c : fb_client) (S : screen) : Prop :=
  (fc_selected_handle c = 0 /\ sc_pictures S !! sc_selected S = None) \/
  exists arena m, fb_repr arena c m S /\ arenas !! arena = Some m.

Record obs_request_ok (q : obs_request) : Prop := {
  oo_client : is_u32 (oq_client q); oo_offset : is_u32 (oq_offset q); oo_length : is_u32 (oq_length q) }.

Record obs_region_ok (r : obs_region) : Prop := {
  orr_req_head : is_u32 (or_req_head r); orr_req_tail : is_u32 (or_req_tail r);
  orr_resp_head : is_u32 (or_resp_head r); orr_resp_tail : is_u32 (or_resp_tail r);
  orr_requests : length (or_requests r) = 16%nat; orr_responses : length (or_responses r) = 16%nat;
  orr_typed : Forall obs_request_ok (or_requests r);
  orr_data : sm_size (or_data r) = AOS_FB_DATA_BYTES }.

Lemma selected_surface_lookup c : selected_surface c = lookup_surface c (fc_selected_handle c).
Proof. done. Qed.

Lemma length_image o V : obs_repr o V -> Z.of_nat (length (vw_image V)) = ob_bytes o.
Proof. intros [_ _ _ _ _ _ Hb <-]. rewrite length_load_bytes; lia. Qed.

(** The rows of a selected rectangle, copied to the start of the snapshot. *)
Lemma capture_rows arena i s m p x y w h snapshot :
  surface_ok arena i s -> 0 <= i < 4 -> AOS_FB_ARENA_BYTES <= sm_size m -> sized s -> shows m s p ->
  0 <= x -> 0 <= y -> fits x y w h p = true -> AOS_FB_SURFACE_BYTES <= sm_size snapshot ->
  u32 (w * AOS_FB_PIXEL_BYTES) = w * 4 /\ u32 (u32 (w * h) * AOS_FB_PIXEL_BYTES) = w * h * 4 /\
  0 <= w * h * 4 <= AOS_FB_SURFACE_BYTES /\
  exists snapshot', copy_rows (Z.to_nat h) 0 (fun row => u32 (row * (w * 4)))
      (fun row => (su_committed s).2 + u32 (u32 (u32 (u32 (y + row) * su_width s) + x) * AOS_FB_PIXEL_BYTES))
      (w * 4) snapshot m = Some snapshot' /\ sm_size snapshot' = sm_size snapshot /\
    load_bytes snapshot' 0 (w * h * 4) = rectangle_bytes (pi_committed p) x y w h.
Proof.
  intros Hs Hi Hm Hsz Hp Hx Hy Hf Hsn. pose proof Hp as [Hw Hh _ _ Hpc]. pose proof Hs as [_ Hco _ _ _].
  unfold fits in Hf. rewrite Hw, Hh, !andb_true_iff, !Z.ltb_lt, !Z.leb_le in Hf. destruct Hf as [[[? ?] ?] ?].
  pose proof Hsz as [? ?]. pose proof (frame_bytes_ok s Hsz) as [Hfb ?]. rewrite Hfb in *.
  assert (1 <= w * h <= su_width s * su_height s) by nia. assert (su_width s * su_height s <= 1024 * 768) by nia.
  unfold AOS_FB_PIXEL_BYTES. rewrite !(u32_small (w * 4)), (u32_small (w * h)), (u32_small (w * h * 4)) by (unfold is_u32; lia).
  split_and!; [done..|lia|sb_lia|]. rewrite Hco. cbn [snd].
  edestruct (copy_rows_affine (Z.to_nat h) 0 (fun row => u32 (row * (w * 4)))
     (fun row => (2 * i + 1) * AOS_FB_SURFACE_BYTES + u32 (u32 (u32 (u32 (y + row) * su_width s) + x) * 4)) (w * 4)
     0 (w * 4) ((2 * i + 1) * AOS_FB_SURFACE_BYTES + (y * su_width s + x) * 4) (su_width s * 4) snapshot m)
    as (sn & -> & Hsize & Hb); [|lia|].
  { intros r ?. rewrite (u32_small (y + r)) by (unfold is_u32; lia).
    assert (0 <= (y + r) * su_width s) by nia.
    assert ((y + r) * su_width s + su_width s <= su_width s * su_height s) by nia.
    rewrite (u32_small (_ * su_width s)), (u32_small (_ + x)), (u32_small (_ * 4)) by (unfold is_u32; lia).
    assert (0 <= r * (w * 4) /\ r * (w * 4) + w * 4 <= w * h * 4) by nia.
    rewrite u32_small by (unfold is_u32; lia). split_and!; try lia; sb_lia. }
  exists sn. split_and!; [done..|]. rewrite Z2Nat.id in Hb by lia. unfold load_bytes, rectangle_bytes.
  apply list_fmap_ext. intros n j [-> Hj]%lookup_seqZ. rewrite Z.add_0_l in *. set (k := Z.of_nat n) in *.
  rewrite Hb, !Z.sub_0_r.
  destruct (row_major w h k) as (? & ? & ? & -> & ->); [lia..|]. rewrite decide_True by lia.
  rewrite <- Hpc by (unfold in_frame; lia). rewrite Hco. cbn [snd]. apply (f_equal (mbyte m)). unfold pixel_at. lia.
Qed.

(** ** One request *)

Section request.
Context (o : observer) (V : view) (clients : list fb_client) (screens : list screen) (arenas : gmap Z smem).
Context (Ho : obs_repr o V).
Context (Hcl : Forall2 (observable arenas) clients screens).
Context (Hcount : ob_client_count o = Z.of_nat (length clients) /\ (length clients <= 2)%nat).

Definition capture_outcome (out : option (obs_response * observer)) (spec : obs_response * view) : Prop :=
  exists o', out = Some (spec.1, o') /\ obs_repr o' spec.2 /\
    ob_client_count o' = ob_client_count o /\ ob_allowed_mask o' = ob_allowed_mask o.

Lemma capture_unchanged p : capture_outcome (Some (p, o)) (p, V).
Proof using Ho. by exists o. Qed.

Lemma obs_capture_refines q :
  obs_request_ok q -> capture_outcome (obs_capture o q clients arenas) (spec_capture (ob_allowed_mask o) screens V q).
Proof using Ho Hcl Hcount.
  intros [Hqc _ _]. unfold obs_capture, spec_capture. destruct (_ || _); [apply capture_unchanged|].
  destruct Hcount as [Hc Hc2]. pose proof (Forall2_length _ _ _ Hcl) as Hlen. unfold is_u32 in Hqc.
  destruct (Z.leb_spec (ob_client_count o) (oq_client q)); cbn [orb].
  { rewrite (lookup_ge_None_2 screens) by lia. apply capture_unchanged. }
  destruct (lookup_lt_is_Some_2 screens (Z.to_nat (oq_client q))) as [scr Hscr]; [lia|]. rewrite Hscr.
  destruct (Forall2_lookup_r _ _ _ _ _ Hcl Hscr) as (c & Hcc & Hobs).
  rewrite has_bit_testbit by lia. destruct (negb _); [apply capture_unchanged|].
  assert (aget clients (oq_client q) = Some c) as -> by (apply aget_Some; split; [lia|done]). cbn [mbind option_bind].
  destruct Hobs as [[H0 Hn]|(arena & m & Hrep & Hm)].
  { unfold selected_surface. rewrite H0, Hn. cbn. apply capture_unchanged. }
  rewrite selected_surface_lookup. pose proof (lookup_surface_repr arena c m scr (fc_selected_handle c) Hrep) as Hl.
  rewrite (re_selected _ _ _ _ Hrep), (re_rectangle _ _ _ _ Hrep).
  destruct (lookup_surface c (fc_selected_handle c)) as [i|]; [|rewrite Hl; apply capture_unchanged].
  destruct Hl as (n & s & p & -> & Hn4 & Hs & Hsh & Hh0 & Hp & Hshow & Hsz). rewrite Hp.
  assert (aget (fc_surfaces c) (Z.of_nat n) = Some s) as -> by (apply aget_Some; rewrite Nat2Z.id; split; [lia|done]).
  cbn [mbind option_bind]. rewrite (sh_sequence _ _ _ Hshow).
  destruct (Z.eqb_spec (su_sequence s) 0) as [|Hsq]; [apply capture_unchanged|].
  pose proof Ho as [[Hnu Hnx] _ _ _ _ Hst Hby _]. unfold handle_mark, is_u64 in Hnx, Hnu. rewrite Hnx.
  destruct (Z.eqb_spec (ob_next_cookie o) 0) as [|Hne]; [apply capture_unchanged|].
  destruct (Z.eqb_spec (ob_next_cookie o) (2 ^ 64)); [lia|].
  destruct (re_selection _ _ _ _ Hrep Hh0) as (p' & Hp' & Hx & Hy & Hfit). rewrite Hp in Hp'. injection Hp' as <-.
  pose proof (re_surfaces _ _ _ _ Hrep n s Hs) as Hso.
  destruct (capture_rows arena (Z.of_nat n) s m p _ _ _ _ (ob_snapshot o) Hso ltac:(lia) (re_arena _ _ _ _ Hrep) Hsz Hshow Hx Hy Hfit Hst)
    as (Hrb & Hbt & Hbb & sn & Hrows & Hsn & Himg).
  rewrite (so_committed _ _ _ Hso) in Hrows |- *. cbn [fst snd] in Hrows |- *. rewrite Hm. cbn [mbind option_bind].
  rewrite Hrb, Hbt, Hrows. cbn [mbind option_bind]. eexists. split_and!; [done| |done..].
  split; cbn; try done; [|by rewrite Hsn].
  split; [apply u64_range|]. unfold handle_mark, u64. destruct (decide (ob_next_cookie o = 2 ^ 64 - 1)) as [->|]; [done|].
  rewrite Z.mod_small by lia. destruct (Z.eqb_spec (ob_next_cookie o + 1) 0); lia.
Qed.

Definition reply_outcome (q : obs_request) (out : option (obs_response * observer * smem)) : Prop :=
  exists p o' d V', out = Some (p, o', d) /\ obs_repr o' V' /\
    ob_client_count o' = ob_client_count o /\ ob_allowed_mask o' = ob_allowed_mask o /\
    sm_size d = AOS_FB_DATA_BYTES /\
    spec_reply (ob_allowed_mask o) screens V q p V' (load_bytes d 0 (op_length p)).

Lemma bad_range_image q :
  obs_request_ok q -> bad_range o q = negb (bool_decide (in_image V q)).
Proof using Ho Hcount.
  intros [_ Hof Hl]. unfold bad_range. pose proof (ov_bytes _ _ Ho) as Hb.
  unfold is_u32 in *. change AOS_FB_SURFACE_BYTES with 3145728 in Hb.
  apply Bool.eq_iff_eq_true. rewrite orb_true_iff, negb_true_iff, bool_decide_eq_false, !Z.ltb_lt.
  unfold in_image. rewrite (length_image o V Ho). mod_lia.
Qed.

Lemma read_guard q :
  obs_request_ok q ->
  (oq_length q =? 0) || (AOS_FB_DATA_BYTES <? oq_length q) || bad_range o q =
  negb (bool_decide (0 < oq_length q <= 65536 /\ in_image V q)).
Proof using Ho Hcount.
  intros Hq. rewrite (bad_range_image q Hq). destruct Hq as [_ _ Hl]. unfold AOS_FB_DATA_BYTES, is_u32 in *.
  apply Bool.eq_iff_eq_true. rewrite !orb_true_iff, !negb_true_iff, !bool_decide_eq_false, Z.eqb_eq, Z.ltb_lt.
  unfold in_image. lia.
Qed.

Lemma packed_guard q :
  obs_request_ok q ->
  (oq_length q =? 0) || (AOS_FB_PACKED_SOURCE_MAX <? oq_length q) ||
    negb (Z.land (Z.lor (oq_offset q) (oq_length q)) 3 =? 0) || bad_range o q =
  negb (bool_decide (0 < oq_length q <= 65536 /\ in_image V q /\ oq_offset q mod 4 = 0 /\ oq_length q mod 4 = 0)).
Proof using Ho Hcount.
  intros Hq. rewrite (bad_range_image q Hq). destruct Hq as [_ _ Hl]. unfold AOS_FB_PACKED_SOURCE_MAX, is_u32 in *.
  assert (Z.land (Z.lor (oq_offset q) (oq_length q)) 3 = 0 <-> oq_offset q mod 4 = 0 /\ oq_length q mod 4 = 0) as Hal.
  { rewrite Z.land_lor_distr_l. change 3 with (Z.ones 2). rewrite !Z.land_ones by lia. apply Z.lor_eq_0_iff. }
  apply Bool.eq_iff_eq_true.
  rewrite !orb_true_iff, !negb_true_iff, !bool_decide_eq_false, Z.eqb_eq, Z.eqb_neq, Z.ltb_lt, Hal. unfold in_image. lia.
Qed.

Lemma obs_read_ok q data :
  obs_request_ok q -> sm_size data = AOS_FB_DATA_BYTES -> 0 < oq_length q <= 65536 -> in_image V q ->
  exists d, smem_copy data 0 (ob_snapshot o) (oq_offset q) (oq_length q) = Some d /\ sm_size d = sm_size data /\
    load_bytes d 0 (oq_length q) = aslice (vw_image V) (oq_offset q) (oq_length q).
Proof using Ho Hcount.
  intros [_ Hqo _] Hd Hr Hi. pose proof (length_image o V Ho) as Hli. pose proof Ho as [_ _ _ _ _ Hst Hby Him].
  unfold in_image, AOS_FB_DATA_BYTES, is_u32 in *. rewrite Hli in Hi.
  destruct (smem_copy_ok data 0 (ob_snapshot o) (oq_offset q) (oq_length q)) as (d & -> & Hds & Hdm); [lia..|].
  exists d. split_and!; [done..|]. rewrite <- Him, load_bytes_slice by lia. apply load_bytes_ext. intros k Hk.
  rewrite Hdm, decide_True by lia. f_equal. lia.
Qed.

Lemma obs_packed_ok q data :
  obs_request_ok q -> sm_size data = AOS_FB_DATA_BYTES -> 0 < oq_length q <= 65536 -> in_image V q ->
  oq_length q mod 4 = 0 ->
  exists n d k, packed_read data (ob_snapshot o) (oq_offset q) (oq_length q) = Some (n, d) /\ sm_size d = sm_size data /\
    8 < n <= AOS_FB_PACKED_WIRE_MAX /\ Z.min (oq_length q) 4048 <= k <= oq_length q /\ k mod 4 = 0 /\
    unpack (load_bytes d 0 n) = Some (aslice (vw_image V) (oq_offset q) k).
Proof using Ho Hcount.
  intros [_ Hqo _] Hd Hr Hi Hm. pose proof (length_image o V Ho) as Hli. pose proof Ho as [_ _ _ _ _ Hst Hby Him].
  unfold in_image, AOS_FB_DATA_BYTES, is_u32 in *. rewrite Hli in Hi.
  destruct (packed_read_ok (ob_snapshot o) (oq_offset q) (oq_length q) Hr Hm ltac:(lia) ltac:(lia) data)
    as (n & d & k & Hp & Hds & Hn & Hk & Hk4 & Hun & _). { unfold AOS_FB_PACKED_WIRE_MAX. lia. }
  exists n, d, k. split_and!; try done; try lia. rewrite Hun, <- Him, load_bytes_slice by lia. done.
Qed.

Lemma obs_execute_refines q data :
  obs_request_ok q -> sm_size data = AOS_FB_DATA_BYTES ->
  reply_outcome q (obs_execute o q data clients arenas).
Proof using Ho Hcl Hcount.
  intros Hq Hd. unfold obs_execute. rewrite read_guard, packed_guard, (ov_cookie _ _ Ho) by done.
  assert (forall p, spec_reply (ob_allowed_mask o) screens V q p V (load_bytes data 0 (op_length p)) ->
    reply_outcome q (Some (p, o, data))) as Hsame by (intros p Hp; by exists p, o, data, V).
  assert (forall n, obs_described q o n = view_info q V n) as Hinfo.
  { intros n. destruct Ho as [_ Hck Hsq Hw Hh _ _ _]. unfold obs_described, view_info. by rewrite Hck, Hsq, Hw, Hh. }
  unfold reply_outcome, spec_reply in *.
  change AOS_FB_OBSERVER_VERSION with 1. change (_ <? AOS_FB_CAPTURE) with (oq_operation q <? 1).
  change (AOS_FB_CAPTURE_READ_PACKED <? _) with (4 <? oq_operation q).
  destruct (_ || (4 <? oq_operation q)); [by apply Hsame|].
  destruct (oq_operation q =? AOS_FB_CAPTURE).
  { destruct (obs_capture_refines q Hq) as (o' & -> & Ho' & Hcc & Hmm). cbn [mbind option_bind].
    exists (spec_capture (ob_allowed_mask o) screens V q).1, o', data, (spec_capture (ob_allowed_mask o) screens V q).2.
    split_and!; [done..|]. by destruct (spec_capture _ _ _ _). }
  destruct (negb (oq_client q =? 0)); [by apply Hsame|].
  destruct (_ || negb (oq_cookie q =? vw_cookie V)); [by apply Hsame|].
  destruct (oq_operation q =? AOS_FB_CAPTURE_READ).
  { destruct (decide (0 < oq_length q <= 65536 /\ in_image V q)) as [[Hr Hi]|Hno].
    - rewrite bool_decide_eq_true_2 by done. destruct (obs_read_ok q data Hq Hd Hr Hi) as (d & -> & Hds & Hdl).
      cbn [mbind option_bind negb]. rewrite Hinfo. exists (view_info q V (oq_length q)), o, d, V.
      split_and!; try done. by rewrite Hds.
    - rewrite bool_decide_eq_false_2 by done. by apply Hsame. }
  destruct (oq_operation q =? AOS_FB_CAPTURE_READ_PACKED).
  { destruct (decide (_ /\ _)) as [(Hr & Hi & Hm1 & Hm2)|Hno].
    - rewrite bool_decide_eq_true_2 by done. destruct (obs_packed_ok q data Hq Hd Hr Hi Hm2) as (n & d & k & -> & Hds & Hrest).
      cbn [mbind option_bind negb]. rewrite Hinfo. exists (view_info q V n), o, d, V. split_and!; try done; [by rewrite Hds|].
      by exists n, k.
    - rewrite bool_decide_eq_false_2 by done. by apply Hsame. }
  destruct (_ || _); [by apply Hsame|].
  eexists _, (obs_release o), data, (mk_view (vw_next V) 0 (vw_sequence V) (vw_width V) (vw_height V) (vw_image V)).
  split_and!; try done; [by destruct Ho|]. destruct Ho as [_ _ Hsq Hw Hh _ _ _].
  unfold obs_described, view_info. cbn. by rewrite Hsq, Hw, Hh.
Qed.
End request.

(** ** The pump *)

Definition obs_pending (r : obs_region) : list obs_request :=
  ring_contents (2 ^ 32) 16 (or_requests r) (or_req_head r) (or_req_tail r).
Definition obs_answers (r : obs_region) : list obs_response :=
  ring_contents (2 ^ 32) 16 (or_responses r) (or_resp_head r) (or_resp_tail r).

(** A request can be served: the ring is well-formed and the last answer,
    whose payload is in the window, was consumed. *)
Definition obs_ready (r : obs_region) : bool :=
  (length (obs_pending r) <=? 16)%nat && (length (obs_answers r) =? 0)%nat.

Lemma obs_pump_guard r :
  obs_region_ok r ->
  (or_req_head r =? or_req_tail r) || (AOS_FB_QUEUE_CAPACITY <? u32 (or_req_tail r - or_req_head r)) ||
    negb (or_resp_tail r =? or_resp_head r) = (length (obs_pending r) =? 0)%nat || negb (obs_ready r).
Proof.
  intros [H1 H2 H3 H4 _ _ _ _]. unfold obs_ready, obs_pending, obs_answers. rewrite !length_ring_contents.
  unfold ring_len. fold (u32 (or_req_tail r - or_req_head r)) (u32 (or_resp_tail r - or_resp_head r)).
  pose proof (u32_range (or_req_tail r - or_req_head r)). pose proof (u32_range (or_resp_tail r - or_resp_head r)).
  assert (or_req_head r = or_req_tail r <-> u32 (or_req_tail r - or_req_head r) = 0) as Hq by mod_lia.
  assert (or_resp_tail r = or_resp_head r <-> u32 (or_resp_tail r - or_resp_head r) = 0) as Hp by mod_lia.
  apply Bool.eq_iff_eq_true. unfold AOS_FB_QUEUE_CAPACITY, is_u32 in *.
  rewrite !orb_true_iff, !negb_true_iff, andb_false_iff, Nat.leb_gt, !Z.eqb_eq, Z.eqb_neq, Nat.eqb_eq, Nat.eqb_neq, Z.ltb_lt. lia.
Qed.

(** C25. A pump of the observer serves the oldest request when it can, and
    nothing otherwise. The reply is the specification's: a capture copies
    the selected rectangle of the committed picture that the client's screen
    shows, with a cookie never given out before; a read returns that range
    of the snapshot; a packed read returns a payload that the contract's
    decoder accepts and decodes to a nonempty prefix of the range. The reply
    is the only outstanding one, so its payload stays in the window. *)
Theorem observer_pump_exact o V clients screens arenas r :
  obs_repr o V -> Forall2 (observable arenas) clients screens ->
  ob_client_count o = Z.of_nat (length clients) /\ (length clients <= 2)%nat -> obs_region_ok r ->
  match obs_pending r with
  | q :: rest =>
      if obs_ready r then
        exists p o' V' r', aos_fb_observer_pump o r clients arenas = Some (1, o', r') /\
          spec_reply (ob_allowed_mask o) screens V q p V' (load_bytes (or_data r') 0 (op_length p)) /\
          obs_repr o' V' /\ obs_region_ok r' /\ obs_pending r' = rest /\ obs_answers r' = [p]
      else aos_fb_observer_pump o r clients arenas = Some (0, o, r)
  | [] => aos_fb_observer_pump o r clients arenas = Some (0, o, r)
  end.
Proof.
  intros Ho Hcl Hcount Hok. unfold aos_fb_observer_pump. rewrite obs_pump_guard by done.
  destruct (obs_pending r) as [|q rest] eqn:Hpend; [done|]. cbn [length Nat.eqb orb].
  destruct (obs_ready r) eqn:Hready; [|done]. cbn [negb].
  unfold obs_ready in Hready. rewrite andb_true_iff, Nat.leb_le, Nat.eqb_eq in Hready. destruct Hready as [Hle Hans].
  apply length_zero_iff_nil in Hans. pose proof Hok as [H1 H2 H3 H4 H5 H6 H7 H8].
  assert (0 < ring_len (2 ^ 32) (or_req_head r) (or_req_tail r)) as Hpos.
  { pose proof (length_ring_contents (2 ^ 32) 16 (or_requests r) (or_req_head r) (or_req_tail r)) as Hl.
    fold (obs_pending r) in Hl. rewrite Hpend in Hl. cbn in Hl. lia. }
  pose proof (ring_contents_cons (2 ^ 32) 16 fb_ring_cap (or_requests r) _ _ Hpos) as Hcons.
  fold (obs_pending r) in Hcons. rewrite Hpend in Hcons. injection Hcons as Hq Hrest.
  pose proof (Z.mod_pos_bound (or_req_head r) 16 ltac:(lia)). pose proof (Z.mod_pos_bound (or_resp_tail r) 16 ltac:(lia)).
  unfold AOS_FB_QUEUE_CAPACITY. rewrite aget_total, <- Hq by lia. cbn [mbind option_bind].
  assert (obs_request_ok q) as Hqok.
  { rewrite Hq. eapply Forall_lookup_1; [exact H7|]. apply list_lookup_lookup_total_lt. lia. }
  destruct (obs_execute_refines o V clients screens arenas Ho Hcl Hcount q (or_data r) Hqok H8)
    as (p & o' & d & V' & -> & Ho' & _ & _ & Hd & Hspec).
  cbn [mbind option_bind]. rewrite aset_Some by lia. cbn [mbind option_bind].
  eexists p, o', V', _. split_and!; [done|done|done| | |].
  - by split; cbn; eauto with cint; rewrite length_insert.
  - unfold obs_pending. cbn. unfold u32. by rewrite ring_contents_mod_head by apply fb_ring_cap.
  - unfold obs_answers in *. cbn. unfold u32. rewrite ring_contents_mod_tail.
    rewrite (ring_contents_snoc _ _ fb_ring_cap); [by rewrite Hans|lia|].
    apply (f_equal length) in Hans. rewrite length_ring_contents in Hans. cbn in Hans.
    pose proof (ring_len_bound _ _ fb_ring_cap (or_resp_head r) (or_resp_tail r)). lia.
Qed.

(** ** Example: capturing what the example client selected *)

Definition captured : fb_client * fb_world :=
  match fb_pump_loop 16 0 example_client example_world with
  | Some (_, c, w) => (c, w)
  | None => (example_client, example_world)
  end.

Definition captured_screen : screen :=
  (spec_run empty_screen (take (fb_served 16 example_region) (fb_pending example_region)) (mbyte (fr_data example_region))).1.2.

Lemma captured_observable : observable (fw_arenas captured.2) captured.1 captured_screen.
Proof.
  destruct (fb_pump_loop_refines 0x2000 16 example_client example_region example_world (smem_zeroed AOS_FB_ARENA_BYTES)
    empty_screen (mbyte (fr_data example_region)) 0 example_repr eq_refl eq_refl example_fb_region_ok (fun _ => eq_refl))
    as (c & m & r & Hp & Hc & _).
  right. exists 0x2000, m. unfold captured. rewrite Hp. split; [exact Hc|]. apply lookup_insert_eq.
Qed.

Definition example_observer : observer := mk_observer 1 1 (smem_zeroed AOS_FB_SURFACE_BYTES) 1 0 0 0 0 0.

Definition example_obs_region : obs_region :=
  mk_obsregion 0 1 0 0 (mk_obsreq 1 AOS_FB_CAPTURE 7 0 0 0 0 :: replicate 15 inhabitant) (replicate 16 inhabitant)
    (smem_zeroed AOS_FB_DATA_BYTES).

Lemma observer_pump_exact_witness :
  exists o' V' r', aos_fb_observer_pump example_observer example_obs_region [captured.1] (fw_arenas captured.2) = Some (1, o', r') /\
    obs_repr o' V' /\ vw_image V' = [9; 0; 0; 0] /\ obs_answers r' = [mk_obsresp 1 0 7 0 1 1 1 1].
Proof.
  assert (obs_region_ok example_obs_region) as Hok.
  { split; try by_compute; try done. apply Forall_cons. split; [by split|]. apply Forall_replicate. by split. }
  destruct (observer_pump_exact example_observer (mk_view 1 0 0 0 0 []) [captured.1] [captured_screen] (fw_arenas captured.2)
    example_obs_region) as (p & o' & V' & r' & Hp & Hspec & Ho' & _ & _ & Ha).
  - by split.
  - constructor; [apply captured_observable|constructor].
  - split; [done|]. cbn. lia.
  - exact Hok.
  - exists o', V', r'. split_and!; [exact Hp|exact Ho'| |].
    + injection Hspec as _ ->. vm_compute. reflexivity.
    + rewrite Ha. injection Hspec as -> _. vm_compute. reflexivity.
Defined.
