(* ===== verification/Display.v ===== *)
(** * The display path

    platform/display/service.c (the driver: it assembles a frame in the bank
    that is not shown and presents it), platform/display/producer.c (the
    framebuffer service's side: it forwards a client's selected rectangle)
    and [display_exchange] of platform/framebuffer/framebuffer_pd.c (one
    request, and a bounded wait while the driver may run), with their
    contracts include/platform/display.h and display_producer.h.

    The driver's specification is a frame being assembled and a frame shown
    ([scanout]). The composition theorem says what a whole
    [aos_display_forward] leaves on the screen, for every schedule of the
    driver and every behaviour of the presenting device; the liveness theorem
    that a driver that gets to run shows the frame. *)

From S2P Require Import Prelude PixelMem Framebuffer FbObserver.

Definition AOS_DISPLAY_VERSION : Z := 1.
Definition AOS_DISPLAY_CHUNK : Z := 65536.
Definition AOS_DISPLAY_FRAME_BYTES : Z := 1024 * 768 * 4.

(** enum aos_display_op *)
Definition AOS_DISPLAY_BEGIN : Z := 1.
Definition AOS_DISPLAY_WRITE : Z := 2.
Definition AOS_DISPLAY_PRESENT : Z := 3.
Definition AOS_DISPLAY_ABORT : Z := 4.

(** enum aos_display_status *)
Definition AOS_DISPLAY_OK : Z := 0.
Definition AOS_DISPLAY_INVALID : Z := 1.
Definition AOS_DISPLAY_BUSY : Z := 2.
Definition AOS_DISPLAY_STALE : Z := 3.
Definition AOS_DISPLAY_INCOMPLETE : Z := 4.
Definition AOS_DISPLAY_FAILED : Z := 5.

Record display_request := mk_dreq {
  dq_version : Z; dq_operation : Z; dq_id : Z; dq_reserved : Z; dq_cookie : Z;
  dq_width : Z; dq_height : Z; dq_offset : Z; dq_length : Z }.

Record display_response := mk_dresp {
  dp_version : Z; dp_status : Z; dp_id : Z; dp_reserved : Z; dp_cookie : Z; dp_sequence : Z }.

Record display_region := mk_dregion {
  dg_req_head : Z; dg_req_tail : Z; dg_resp_head : Z; dg_resp_tail : Z;
  dg_request : display_request; dg_response : display_response; dg_data : smem }.

(** The driver's private state; the banks are addresses in its memory. *)
Record display_driver := mk_driver {
  dd_banks : Z * Z; dd_cookie : Z; dd_sequence : Z; dd_width : Z; dd_height : Z;
  dd_written : Z; dd_bytes : Z; dd_front : Z; dd_active : Z; dd_failed : Z }.

Definition bank (d : display_driver) (i : Z) : Z := if i =? 0 then (dd_banks d).1 else (dd_banks d).2.

(** ** The queue *)

Definition aos_display_submit (r : display_region) (q : display_request) : Z * display_region :=
  let tail := dg_req_tail r in
  if negb (tail =? dg_req_head r) || negb (tail =? dg_resp_head r) || negb (tail =? dg_resp_tail r) then (-1, r)
  else (0, mk_dregion (dg_req_head r) (u32 (tail + 1)) (dg_resp_head r) (dg_resp_tail r) q (dg_response r) (dg_data r)).

Definition aos_display_receive (r : display_region) : option display_response * display_region :=
  let head := dg_resp_head r in
  if negb (u32 (dg_resp_tail r - head) =? 1) then (None, r)
  else (Some (dg_response r),
        mk_dregion (dg_req_head r) (dg_req_tail r) (u32 (head + 1)) (dg_resp_tail r) (dg_request r) (dg_response r) (dg_data r)).

(** ** The driver *)

(** [present] configures the device to scan out a bank; [Dev] is the
    device. *)
Section driver.
Context {Dev : Type} (present : Dev -> Z -> Z -> Z -> Z * Dev).

(** [None] is the result -1. *)
Definition aos_display_init (r a b capacity : Z) : option display_driver :=
  if (r =? NULL) || (a =? NULL) || (b =? NULL) || (capacity <? AOS_DISPLAY_FRAME_BYTES) ||
     (u64 (UINT64_MAX - capacity) <? a) || (u64 (UINT64_MAX - capacity) <? b) ||
     ((a <? u64 (b + capacity)) && (b <? u64 (a + capacity))) then None
  else Some (mk_driver (a, b) 0 0 0 0 0 0 0 0 0).

Definition display_begin (d : display_driver) (q : display_request) : display_driver :=
  mk_driver (dd_banks d) (u64 (dd_cookie d + 1)) (dd_sequence d) (dq_width q) (dq_height q) 0
    (u32 (u32 (dq_width q * dq_height q) * 4)) (dd_front d) 1 (dd_failed d).

Definition display_execute (d : display_driver) (q : display_request) (data : smem) (mem : smem) (dev : Dev)
    : option (Z * display_driver * smem * Dev) :=
  if negb (dd_failed d =? 0) then Some (AOS_DISPLAY_FAILED, d, mem, dev)
  else if negb (dq_version q =? AOS_DISPLAY_VERSION) || negb (dq_reserved q =? 0) then
    Some (AOS_DISPLAY_INVALID, d, mem, dev)
  else if dq_operation q =? AOS_DISPLAY_BEGIN then
    if negb (dd_active d =? 0) then Some (AOS_DISPLAY_BUSY, d, mem, dev)
    else if negb (dq_cookie q =? 0) || negb (dq_offset q =? 0) || negb (dq_length q =? 0) ||
            (dq_width q <? 16) || (1024 <? dq_width q) || (dq_height q <? 16) || (768 <? dq_height q) ||
            (dd_cookie d =? UINT64_MAX) || (dd_sequence d =? UINT64_MAX) then Some (AOS_DISPLAY_INVALID, d, mem, dev)
    else Some (AOS_DISPLAY_OK, display_begin d q, mem, dev)
  else if (dd_active d =? 0) || negb (dq_cookie q =? dd_cookie d) then Some (AOS_DISPLAY_STALE, d, mem, dev)
  else if negb (dq_width q =? 0) || negb (dq_height q =? 0) then Some (AOS_DISPLAY_INVALID, d, mem, dev)
  else if dq_operation q =? AOS_DISPLAY_WRITE then
    if negb (dq_offset q =? dd_written d) || (dq_length q =? 0) || (AOS_DISPLAY_CHUNK <? dq_length q) ||
       (u32 (dd_bytes d - dd_written d) <? dq_length q) then Some (AOS_DISPLAY_INVALID, d, mem, dev)
    else
      mem' ← smem_copy mem (bank d (1 - dd_front d) + dd_written d) data 0 (dq_length q);
      Some (AOS_DISPLAY_OK,
            mk_driver (dd_banks d) (dd_cookie d) (dd_sequence d) (dd_width d) (dd_height d)
              (u32 (dd_written d + dq_length q)) (dd_bytes d) (dd_front d) (dd_active d) (dd_failed d), mem', dev)
  else if negb (dq_offset q =? 0) || negb (dq_length q =? 0) then Some (AOS_DISPLAY_INVALID, d, mem, dev)
  else if dq_operation q =? AOS_DISPLAY_ABORT then
    Some (AOS_DISPLAY_OK,
          mk_driver (dd_banks d) (dd_cookie d) (dd_sequence d) (dd_width d) (dd_height d) (dd_written d) (dd_bytes d)
            (dd_front d) 0 (dd_failed d), mem, dev)
  else if negb (dq_operation q =? AOS_DISPLAY_PRESENT) then Some (AOS_DISPLAY_INVALID, d, mem, dev)
  else if negb (dd_written d =? dd_bytes d) then Some (AOS_DISPLAY_INCOMPLETE, d, mem, dev)
  else
    let '(result, dev') := present dev (1 - dd_front d) (dd_width d) (dd_height d) in
    if negb (result =? 0) then
      Some (AOS_DISPLAY_FAILED,
            mk_driver (dd_banks d) (dd_cookie d) (dd_sequence d) (dd_width d) (dd_height d) (dd_written d) (dd_bytes d)
              (dd_front d) (dd_active d) 1, mem, dev')
    else
      Some (AOS_DISPLAY_OK,
            mk_driver (dd_banks d) (dd_cookie d) (u64 (dd_sequence d + 1)) (dd_width d) (dd_height d) (dd_written d)
              (dd_bytes d) (1 - dd_front d) 0 (dd_failed d), mem, dev').

Definition aos_display_pump (d : display_driver) (r : display_region) (mem : smem) (dev : Dev)
    : option (Z * display_driver * display_region * smem * Dev) :=
  let head := dg_req_head r in
  let tail := dg_req_tail r in
  if negb (u32 (tail - head) =? 1) || negb (dg_resp_tail r =? head) || negb (dg_resp_head r =? head) then
    Some (0, d, r, mem, dev)
  else
    let q := dg_request r in
    '(status, d', mem', dev') ← display_execute d q (dg_data r) mem dev;
    let response := mk_dresp AOS_DISPLAY_VERSION status (dq_id q) 0 (dd_cookie d') (dd_sequence d') in
    Some (1, d', mk_dregion (u32 (head + 1)) (dg_req_tail r) (dg_resp_head r) (u32 (head + 1)) (dg_request r) response (dg_data r),
          mem', dev').
End driver.

(** ** The producer *)

Record display_producer := mk_producer {
  pr_handle : Z; pr_sequence : Z; pr_driver_sequence : Z;
  pr_x : Z; pr_y : Z; pr_width : Z; pr_height : Z; pr_id : Z; pr_failed : Z }.

Definition set_pr_id (i : Z) (p : display_producer) : display_producer :=
  mk_producer (pr_handle p) (pr_sequence p) (pr_driver_sequence p) (pr_x p) (pr_y p) (pr_width p) (pr_height p) i (pr_failed p).
Definition set_pr_failed (p : display_producer) : display_producer :=
  mk_producer (pr_handle p) (pr_sequence p) (pr_driver_sequence p) (pr_x p) (pr_y p) (pr_width p) (pr_height p) (pr_id p) 1.

(** [W] is the rest of the world: it has the region's payload window, and
    the [exchange] callback acts on it. A null callback result is 0. *)
Section producer.
Context {W : Type} (window : W -> smem) (set_window : smem -> W -> W).
Context (exchange_cb : display_request -> W -> option (Z * display_response * W)).

(** The cookie of an accepted reply, or [None]. *)
Definition exchange (p : display_producer) (q : display_request) (w : W)
    : option (option Z * display_producer * W) :=
  if pr_id p =? UINT32_MAX then Some (None, p, w)
  else
    let p := set_pr_id (u32 (pr_id p + 1)) p in
    let q := mk_dreq AOS_DISPLAY_VERSION (dq_operation q) (pr_id p) (dq_reserved q) (dq_cookie q) (dq_width q) (dq_height q)
               (dq_offset q) (dq_length q) in
    '(result, response, w) ← exchange_cb q w;
    if negb (result =? 0) || negb (dp_version response =? AOS_DISPLAY_VERSION) || negb (dp_id response =? dq_id q) ||
       negb (dp_reserved response =? 0) || negb (dp_status response =? AOS_DISPLAY_OK) || (dp_cookie response =? 0) ||
       (negb (dq_cookie q =? 0) && negb (dp_cookie response =? dq_cookie q)) then Some (None, p, w)
    else
      let expected := u64 (pr_driver_sequence p + (if dq_operation q =? AOS_DISPLAY_PRESENT then 1 else 0)) in
      if negb (dp_sequence response =? expected) then Some (None, p, w)
      else Some (Some (dp_cookie response), p, w).

(** The inner loop: the rectangle's bytes [offset ..], part by part, into
    the window. *)
Fixpoint fill_window (fuel : nat) (s : fb_surface) (m : smem) (x y row_bytes offset count copied : Z) (data : smem)
    : option smem :=
  match fuel with
  | O => None
  | S fuel =>
      if copied <? count then
        let at' := u32 (offset + copied) in
        let row := at' / row_bytes in
        let column := at' mod row_bytes in
        let part := u32 (row_bytes - column) in
        let part := if u32 (count - copied) <? part then u32 (count - copied) else part in
        data' ← smem_copy data copied m
          ((su_committed s).2 + u64 ((u32 (y + row) * su_width s + x) * 4) + column) part;
        fill_window fuel s m x y row_bytes offset count (u32 (copied + part)) data'
      else Some data
  end.

(** The outer loop: chunk by chunk. The result is the last cookie. *)
Fixpoint send_chunks (fuel : nat) (s : fb_surface) (m : smem) (x y row_bytes bytes offset cookie : Z)
    (p : display_producer) (w : W) : option (option Z * display_producer * W) :=
  match fuel with
  | O => None
  | S fuel =>
      if offset <? bytes then
        let count := u32 (bytes - offset) in
        let count := if AOS_DISPLAY_CHUNK <? count then AOS_DISPLAY_CHUNK else count in
        data ← fill_window 1027 s m x y row_bytes offset count 0 (window w);
        '(reply, p, w) ← exchange p (mk_dreq 0 AOS_DISPLAY_WRITE 0 0 cookie 0 0 offset count) (set_window data w);
        match reply with
        | None => Some (None, p, w)
        | Some cookie => send_chunks fuel s m x y row_bytes bytes (u32 (offset + count)) cookie p w
        end
      else Some (Some cookie, p, w)
  end.

(** The exchanges of one frame. *)
Definition send_frame (s : fb_surface) (m : smem) (x y wd h : Z) (p : display_producer) (w : W)
    : option (option Z * display_producer * W) :=
  '(reply, p, w) ← exchange p (mk_dreq 0 AOS_DISPLAY_BEGIN 0 0 0 wd h 0 0) w;
  match reply with
  | None => Some (None, p, w)
  | Some cookie =>
      let row_bytes := u32 (wd * 4) in
      '(reply, p, w) ← send_chunks 49 s m x y row_bytes (u32 (row_bytes * h)) 0 cookie p w;
      match reply with
      | None => Some (None, p, w)
      | Some cookie => exchange p (mk_dreq 0 AOS_DISPLAY_PRESENT 0 0 cookie 0 0 0 0) w
      end
  end.

Definition aos_display_forward (p : display_producer) (c : fb_client) (arenas : gmap Z smem) (w : W)
    : option (Z * display_producer * W) :=
  if negb (pr_failed p =? 0) then Some (-1, p, w)
  else
    match selected_surface c with
    | None => Some (0, p, w)
    | Some i =>
        s ← aget (fc_surfaces c) i;
        if su_sequence s =? 0 then Some (0, p, w)
        else
          let wd := fc_selected_width c in
          let h := fc_selected_height c in
          let x := fc_selected_x c in
          let y := fc_selected_y c in
          if (pr_handle p =? su_handle s) && (pr_sequence p =? su_sequence s) && (pr_x p =? x) && (pr_y p =? y) &&
             (pr_width p =? wd) && (pr_height p =? h) then Some (0, p, w)
          else if ((su_committed s).1 =? NULL) || (AOS_FB_MAX_WIDTH <? su_width s) || (AOS_FB_MAX_HEIGHT <? su_height s) ||
                  (wd <? 16) || (h <? 16) || (su_width s <? x) || (u32 (su_width s - x) <? wd) ||
                  (su_height s <? y) || (u32 (su_height s - y) <? h) || (pr_driver_sequence p =? UINT64_MAX) then
            Some (-1, p, w)
          else
            m ← arenas !! (su_committed s).1;
            '(reply, p, w) ← send_frame s m x y wd h p w;
            match reply with
            | None => Some (-1, set_pr_failed p, w)
            | Some _ =>
                Some (1, mk_producer (su_handle s) (su_sequence s) (u64 (pr_driver_sequence p + 1)) x y wd h (pr_id p)
                           (pr_failed p), w)
            end
    end.
End producer.

(** ** The two sides together *)

(** The region, the driver with its memory and device, and how the driver
    is scheduled: whether it gets to run before each look at the answer. *)
Record display_world (Dev : Type) := mk_dworld {
  xw_region : display_region; xw_driver : display_driver; xw_mem : smem; xw_dev : Dev; xw_runs : list bool }.
Arguments mk_dworld {_} _ _ _ _ _.
Arguments xw_region {_} _.
Arguments xw_driver {_} _.
Arguments xw_mem {_} _.
Arguments xw_dev {_} _.
Arguments xw_runs {_} _.

Section world.
Context {Dev : Type} (present : Dev -> Z -> Z -> Z -> Z * Dev).

Definition xw_window (w : display_world Dev) : smem := dg_data (xw_region w).
Definition set_xw_region (r : display_region) (w : display_world Dev) : display_world Dev :=
  mk_dworld r (xw_driver w) (xw_mem w) (xw_dev w) (xw_runs w).
Definition set_xw_window (data : smem) (w : display_world Dev) : display_world Dev :=
  let r := xw_region w in
  set_xw_region (mk_dregion (dg_req_head r) (dg_req_tail r) (dg_resp_head r) (dg_resp_tail r) (dg_request r) (dg_response r) data) w.

(** The driver's turn, if it has one: an iteration of its main loop. *)
Definition driver_turn (w : display_world Dev) : option (display_world Dev) :=
  match xw_runs w with
  | true :: runs =>
      '(_, d, r, mem, dev) ← aos_display_pump present (xw_driver w) (xw_region w) (xw_mem w) (xw_dev w);
      Some (mk_dworld r d mem dev runs)
  | false :: runs => Some (mk_dworld (xw_region w) (xw_driver w) (xw_mem w) (xw_dev w) runs)
  | [] => Some w
  end.

Definition no_response : display_response := mk_dresp 0 0 0 0 0 0.

(** The wait for a reply. Between attempts the code also serves the observer
    queue, which works on snapshots of its own, and notifies and yields to
    the driver: the driver's turn is what [driver_turn] makes of that. *)
Fixpoint await_reply (attempts : nat) (w : display_world Dev) : option (Z * display_response * display_world Dev) :=
  match attempts with
  | O => Some (-1, no_response, w)
  | S attempts =>
      w ← driver_turn w;
      let '(reply, r) := aos_display_receive (xw_region w) in
      match reply with
      | Some response => Some (0, response, set_xw_region r w)
      | None => await_reply attempts w
      end
  end.

Definition display_exchange (q : display_request) (w : display_world Dev)
    : option (Z * display_response * display_world Dev) :=
  let '(result, r) := aos_display_submit (xw_region w) q in
  if negb (result =? 0) then Some (-1, no_response, w)
  else await_reply 100 (set_xw_region r w).

Definition forward_selected (p : display_producer) (c : fb_client) (arenas : gmap Z smem) (w : display_world Dev)
    : option (Z * display_producer * display_world Dev) :=
  aos_display_forward xw_window set_xw_window display_exchange p c arenas w.
End world.

(** ** Specification of the driver *)

(** A frame shown and a frame being assembled, each with its size; the
    front bank's number tells the device which of its two banks to scan. *)
Record scanout := mk_scanout {
  sn_cookie : Z; sn_sequence : Z; sn_front : Z; sn_failed : bool;
  sn_shown : option (Z * Z * list Z); sn_draft : option (Z * Z * list Z) }.

Section spec.
Context {Dev : Type} (present : Dev -> Z -> Z -> Z -> Z * Dev).

Definition set_draft (dr : option (Z * Z * list Z)) (A : scanout) : scanout :=
  mk_scanout (sn_cookie A) (sn_sequence A) (sn_front A) (sn_failed A) (sn_shown A) dr.

Definition spec_begin (A : scanout) (q : display_request) : Z * scanout :=
  if negb (dq_cookie q =? 0) || negb (dq_offset q =? 0) || negb (dq_length q =? 0) ||
     (dq_width q <? 16) || (1024 <? dq_width q) || (dq_height q <? 16) || (768 <? dq_height q) ||
     (sn_cookie A =? UINT64_MAX) || (sn_sequence A =? UINT64_MAX) then (AOS_DISPLAY_INVALID, A)
  else (AOS_DISPLAY_OK, mk_scanout (sn_cookie A + 1) (sn_sequence A) (sn_front A) (sn_failed A) (sn_shown A)
                          (Some (dq_width q, dq_height q, []))).

(** PRESENT: the assembled frame, when it is whole and the device takes
    it. *)
Definition spec_present (A : scanout) (w h : Z) (l : list Z) (dev : Dev) : Z * scanout * Dev :=
  if negb (Z.of_nat (length l) =? w * h * 4) then (AOS_DISPLAY_INCOMPLETE, A, dev)
  else
    let '(result, dev') := present dev (1 - sn_front A) w h in
    if negb (result =? 0) then
      (AOS_DISPLAY_FAILED,
       mk_scanout (sn_cookie A) (sn_sequence A) (sn_front A) true (sn_shown A) (sn_draft A), dev')
    else
      (AOS_DISPLAY_OK,
       mk_scanout (sn_cookie A) (sn_sequence A + 1) (1 - sn_front A) (sn_failed A) (Some (w, h, l)) None, dev').

Definition spec_display (A : scanout) (q : display_request) (payload : list Z) (dev : Dev) : Z * scanout * Dev :=
  if sn_failed A then (AOS_DISPLAY_FAILED, A, dev)
  else if negb (dq_version q =? AOS_DISPLAY_VERSION) || negb (dq_reserved q =? 0) then (AOS_DISPLAY_INVALID, A, dev)
  else
    match sn_draft A with
    | None =>
        if dq_operation q =? AOS_DISPLAY_BEGIN then (spec_begin A q, dev) else (AOS_DISPLAY_STALE, A, dev)
    | Some (w, h, l) =>
        if dq_operation q =? AOS_DISPLAY_BEGIN then (AOS_DISPLAY_BUSY, A, dev)
        else if negb (dq_cookie q =? sn_cookie A) then (AOS_DISPLAY_STALE, A, dev)
        else if negb (dq_width q =? 0) || negb (dq_height q =? 0) then (AOS_DISPLAY_INVALID, A, dev)
        else if dq_operation q =? AOS_DISPLAY_WRITE then
          if (dq_offset q =? Z.of_nat (length l)) && (0 <? dq_length q) && (dq_length q <=? AOS_DISPLAY_CHUNK) &&
             (Z.of_nat (length l) + dq_length q <=? w * h * 4) then
            (AOS_DISPLAY_OK, set_draft (Some (w, h, l ++ payload)) A, dev)
          else (AOS_DISPLAY_INVALID, A, dev)
        else if negb (dq_offset q =? 0) || negb (dq_length q =? 0) then (AOS_DISPLAY_INVALID, A, dev)
        else if dq_operation q =? AOS_DISPLAY_ABORT then (AOS_DISPLAY_OK, set_draft None A, dev)
        else if negb (dq_operation q =? AOS_DISPLAY_PRESENT) then (AOS_DISPLAY_INVALID, A, dev)
        else spec_present A w h l dev
    end.
End spec.

(** ** Representation *)

Definition frame_size (w h : Z) : Prop := 16 <= w <= 1024 /\ 16 <= h <= 768.

Record drv_repr (d : display_driver) (mem : smem) (A : scanout) : Prop := {
  dv_front : dd_front d = sn_front A /\ (sn_front A = 0 \/ sn_front A = 1);
  dv_mapped : forall i, 0 <= bank d i /\ bank d i + AOS_DISPLAY_FRAME_BYTES <= sm_size mem;
  dv_disjoint : bank d 0 + AOS_DISPLAY_FRAME_BYTES <= bank d 1 \/ bank d 1 + AOS_DISPLAY_FRAME_BYTES <= bank d 0;
  dv_cookie : dd_cookie d = sn_cookie A /\ is_u64 (sn_cookie A);
  dv_sequence : dd_sequence d = sn_sequence A /\ is_u64 (sn_sequence A);
  dv_failed : negb (dd_failed d =? 0) = sn_failed A;
  dv_shown : match sn_shown A with
    | Some (w, h, l) => frame_size w h /\ Z.of_nat (length l) = w * h * 4 /\
        load_bytes mem (bank d (sn_front A)) (w * h * 4) = l
    | None => True
    end;
  dv_draft : match sn_draft A with
    | Some (w, h, l) => dd_active d <> 0 /\ frame_size w h /\ dd_width d = w /\ dd_height d = h /\
        dd_bytes d = w * h * 4 /\ dd_written d = Z.of_nat (length l) /\ Z.of_nat (length l) <= w * h * 4 /\
        load_bytes mem (bank d (1 - sn_front A)) (Z.of_nat (length l)) = l /\
        sn_cookie A <> 0 /\ sn_sequence A <> UINT64_MAX
    | None => dd_active d = 0
    end }.

Record display_request_ok (q : display_request) : Prop := {
  do_cookie : is_u64 (dq_cookie q); do_width : is_u32 (dq_width q); do_height : is_u32 (dq_height q);
  do_offset : is_u32 (dq_offset q); do_length : is_u32 (dq_length q) }.

Definition empty_scanout : scanout := mk_scanout 0 0 0 false None None.

(** The checks at start-up give the driver two disjoint banks. *)
Lemma display_init_repr r a b capacity d mem :
  is_u64 a -> is_u64 b -> is_u64 capacity -> aos_display_init r a b capacity = Some d ->
  a + capacity <= sm_size mem -> b + capacity <= sm_size mem -> drv_repr d mem empty_scanout.
Proof.
  intros Ha Hb Hc. unfold aos_display_init. destruct (_ || _) eqn:Hg; [done|]. intros [= <-] Hma Hmb.
  rewrite !orb_false_iff, andb_false_iff, !Z.eqb_neq, !Z.ltb_ge in Hg. unfold NULL, UINT64_MAX, is_u64 in *.
  rewrite (u64_small (2 ^ 64 - 1 - capacity)) in Hg by (unfold is_u64; lia).
  destruct Hg as [[[[_ Hcap] Hga] Hgb] Hdis].
  rewrite (u64_small (b + capacity)), (u64_small (a + capacity)) in Hdis by (unfold is_u64; lia).
  split; cbn; auto; [|lia|unfold is_u64; lia..]. intros i. unfold bank. cbn. destruct (i =? 0); lia.
Qed.

(** Two banks: what is not in one is in the other. *)
Lemma bank_disjoint d mem A :
  drv_repr d mem A ->
  bank d (sn_front A) + AOS_DISPLAY_FRAME_BYTES <= bank d (1 - sn_front A) \/
  bank d (1 - sn_front A) + AOS_DISPLAY_FRAME_BYTES <= bank d (sn_front A).
Proof.
  intros [[_ Hf] _ Hd _ _ _ _ _]. destruct Hf as [-> | ->]; [exact Hd|]. change (1 - 1) with 0. tauto.
Qed.

Lemma frame_size_bytes w h : frame_size w h -> 1024 <= w * h * 4 <= AOS_DISPLAY_FRAME_BYTES /\ w * h <= 1024 * 768.
Proof. unfold frame_size, AOS_DISPLAY_FRAME_BYTES. intros. nia. Qed.

(** ** The driver implements the specification *)

Section refine.
Context {Dev : Type} (present : Dev -> Z -> Z -> Z -> Z * Dev).

Definition drv_outcome (out : option (Z * display_driver * smem * Dev)) (spec : Z * scanout * Dev) : Prop :=
  exists d' mem', out = Some (spec.1.1, d', mem', spec.2) /\ drv_repr d' mem' spec.1.2.

Lemma drv_begin d mem A q dev :
  drv_repr d mem A -> display_request_ok q -> sn_draft A = None ->
  drv_outcome
    (if negb (dq_cookie q =? 0) || negb (dq_offset q =? 0) || negb (dq_length q =? 0) ||
        (dq_width q <? 16) || (1024 <? dq_width q) || (dq_height q <? 16) || (768 <? dq_height q) ||
        (dd_cookie d =? UINT64_MAX) || (dd_sequence d =? UINT64_MAX) then Some (AOS_DISPLAY_INVALID, d, mem, dev)
     else Some (AOS_DISPLAY_OK, display_begin d q, mem, dev))
    (spec_begin A q, dev).
Proof using Type.
  intros Hr Hq Hdr. pose proof Hr as [Hf Hm Hdis [Hc Hcu] [Hs Hsu] Hfa Hsh _].
  unfold spec_begin. rewrite Hc, Hs. destruct (_ || _) eqn:Hg; [by exists d, mem|].
  rewrite !orb_false_iff, !negb_false_iff, !Z.eqb_neq, !Z.ltb_ge in Hg. unfold UINT64_MAX, is_u64 in *.
  exists (display_begin d q), mem. split; [done|].
  assert (0 <= dq_width q * dq_height q <= 1024 * 768) by nia.
  split; cbn; try done; rewrite ?Hc.
  - rewrite u64_small by (unfold is_u64; lia). unfold is_u64. lia.
  - unfold frame_size. rewrite !u32_small by (unfold is_u32; rewrite ?u32_small by (unfold is_u32; lia); lia).
    unfold UINT64_MAX. split_and!; try done; try lia.
Qed.

Lemma drv_write d mem A q data dev w h l :
  drv_repr d mem A -> display_request_ok q -> sm_size data = AOS_DISPLAY_CHUNK -> sn_draft A = Some (w, h, l) ->
  drv_outcome
    (if negb (dq_offset q =? dd_written d) || (dq_length q =? 0) || (AOS_DISPLAY_CHUNK <? dq_length q) ||
        (u32 (dd_bytes d - dd_written d) <? dq_length q) then Some (AOS_DISPLAY_INVALID, d, mem, dev)
     else
       mem' ← smem_copy mem (bank d (1 - dd_front d) + dd_written d) data 0 (dq_length q);
       Some (AOS_DISPLAY_OK,
             mk_driver (dd_banks d) (dd_cookie d) (dd_sequence d) (dd_width d) (dd_height d)
               (u32 (dd_written d + dq_length q)) (dd_bytes d) (dd_front d) (dd_active d) (dd_failed d), mem', dev))
    (if (dq_offset q =? Z.of_nat (length l)) && (0 <? dq_length q) && (dq_length q <=? AOS_DISPLAY_CHUNK) &&
        (Z.of_nat (length l) + dq_length q <=? w * h * 4) then
       (AOS_DISPLAY_OK, set_draft (Some (w, h, l ++ load_bytes data 0 (dq_length q))) A, dev)
     else (AOS_DISPLAY_INVALID, A, dev)).
Proof using Type.
  intros Hr [_ _ _ Ho Hl] Hd Hdr. pose proof Hr as [[Hf Hf01] Hm Hdis Hc Hs Hfa Hsh Hdraft]. rewrite Hdr in Hdraft.
  destruct Hdraft as (Hact & Hsz & Hw & Hh & Hby & Hwr & Hle & Hlo & Hck & Hsq).
  pose proof (frame_size_bytes w h Hsz) as [? ?]. unfold AOS_DISPLAY_CHUNK, AOS_DISPLAY_FRAME_BYTES, is_u32 in *.
  rewrite Hby, Hwr, Hf. rewrite (u32_small (w * h * 4 - _)) by (unfold is_u32; lia).
  destruct (_ && _) eqn:Hg.
  - rewrite !andb_true_iff, Z.eqb_eq, Z.ltb_lt, !Z.leb_le in Hg.
    replace (_ || _) with false by (symmetry; rewrite !orb_false_iff, negb_false_iff, Z.eqb_eq, Z.eqb_neq, !Z.ltb_ge; lia).
    pose proof (Hm (1 - sn_front A)) as [? ?].
    destruct (smem_copy_ok mem (bank d (1 - sn_front A) + Z.of_nat (length l)) data 0 (dq_length q))
      as (mem' & -> & Hms & Hmb); [lia..|]. cbn [mbind option_bind]. eexists _, mem'. split; [done|].
    pose proof (bank_disjoint d mem A Hr) as Hbd. unfold AOS_DISPLAY_FRAME_BYTES in Hbd.
    split; cbn [fst snd set_draft sn_front sn_cookie sn_sequence sn_failed sn_shown sn_draft dd_front dd_cookie dd_sequence dd_failed]; try done.
    + rewrite Hms. exact Hm.
    + destruct (sn_shown A) as [[[w' h'] l']|]; [|done]. destruct Hsh as (Hsz' & Hl' & Hlo'). split_and!; [done..|].
      etrans; [|exact Hlo']. pose proof (frame_size_bytes w' h' Hsz') as [? ?]. unfold AOS_DISPLAY_FRAME_BYTES in *.
      apply load_bytes_ext. intros k Hk. rewrite Hmb, decide_False; [done|]. unfold bank in *. cbn in *. lia.
    + cbn [dd_active dd_width dd_height dd_bytes dd_written]. rewrite length_app, Nat2Z.inj_add, length_load_bytes by lia.
      rewrite (u32_small (_ + dq_length q)) by (unfold is_u32; lia). split_and!; try done; try lia.
      rewrite load_bytes_app by lia. f_equal.
      * etrans; [|exact Hlo]. apply load_bytes_ext. intros k Hk. rewrite Hmb, decide_False; [done|]. unfold bank in *. cbn in *. lia.
      * apply load_bytes_ext. intros k Hk. rewrite Hmb, decide_True by (unfold bank in *; cbn in *; lia).
        apply (f_equal (mbyte data)). unfold bank. cbn. lia.
  - replace (_ || _) with true; [by exists d, mem|]. symmetry.
    rewrite !andb_false_iff, Z.eqb_neq, Z.ltb_ge, !Z.leb_gt in Hg.
    rewrite !orb_true_iff, negb_true_iff, Z.eqb_neq, Z.eqb_eq, !Z.ltb_lt. lia.
Qed.

Lemma drv_present d mem A w h l dev :
  drv_repr d mem A -> sn_draft A = Some (w, h, l) -> sn_failed A = false ->
  drv_outcome
    (if negb (dd_written d =? dd_bytes d) then Some (AOS_DISPLAY_INCOMPLETE, d, mem, dev)
     else
       let '(result, dev') := present dev (1 - dd_front d) (dd_width d) (dd_height d) in
       if negb (result =? 0) then
         Some (AOS_DISPLAY_FAILED,
               mk_driver (dd_banks d) (dd_cookie d) (dd_sequence d) (dd_width d) (dd_height d) (dd_written d) (dd_bytes d)
                 (dd_front d) (dd_active d) 1, mem, dev')
       else
         Some (AOS_DISPLAY_OK,
               mk_driver (dd_banks d) (dd_cookie d) (u64 (dd_sequence d + 1)) (dd_width d) (dd_height d) (dd_written d)
                 (dd_bytes d) (1 - dd_front d) 0 (dd_failed d), mem, dev'))
    (spec_present present A w h l dev).
Proof using Type.
  intros Hr Hdr Hnf. pose proof Hr as [[Hf Hf01] Hm Hdis Hc [Hs Hsu] Hfa Hsh Hdraft]. rewrite Hdr in Hdraft.
  destruct Hdraft as (Hact & Hsz & Hw & Hh & Hby & Hwr & Hle & Hlo & Hck & Hsq). unfold spec_present.
  rewrite Hby, Hwr, Hf, Hw, Hh. destruct (Z.eqb_spec (Z.of_nat (length l)) (w * h * 4)) as [Hl|]; [|by exists d, mem].
  cbn [negb]. destruct (present _ _ _ _) as [result dev']. destruct (result =? 0); cbn [negb].
  - eexists _, mem. split; [done|]. rewrite Hl in Hlo. unfold is_u64, UINT64_MAX in *.
    split; cbn [fst snd sn_front sn_cookie sn_sequence sn_failed sn_shown sn_draft dd_front dd_cookie dd_sequence dd_failed dd_active]; try done.
    + split; [done|]. lia.
    + rewrite Hs, u64_small by (unfold is_u64; lia). unfold is_u64. lia.
  - eexists _, mem. split; [done|].
    split; cbn [fst snd sn_front sn_cookie sn_sequence sn_failed sn_shown sn_draft dd_front dd_cookie dd_sequence dd_failed dd_active]; try done.
    rewrite Hdr. by split_and!.
Qed.

Lemma display_execute_refines d mem A q data dev :
  drv_repr d mem A -> display_request_ok q -> sm_size data = AOS_DISPLAY_CHUNK ->
  drv_outcome (display_execute present d q data mem dev) (spec_display present A q (load_bytes data 0 (dq_length q)) dev).
Proof using Type.
  intros Hr Hq Hd. unfold display_execute, spec_display. rewrite (dv_failed _ _ _ Hr).
  assert (forall status, drv_outcome (Some (status, d, mem, dev)) (status, A, dev)) as Hsame by (intros; by exists d, mem).
  destruct (sn_failed A) eqn:Hnf; [done|]. destruct (_ || _); [done|].
  pose proof Hr as [_ _ _ [Hc _] _ _ _ Hdraft]. destruct (sn_draft A) as [[[w h] l]|] eqn:Hdr.
  - destruct Hdraft as (Hact & _). rewrite (proj2 (Z.eqb_neq _ _) Hact). cbn [negb orb].
    destruct (dq_operation q =? AOS_DISPLAY_BEGIN); [done|].
    replace (dq_cookie q =? dd_cookie d) with (dq_cookie q =? sn_cookie A) by by rewrite Hc. destruct (negb _); [done|].
    destruct (_ || _); [done|]. destruct (dq_operation q =? AOS_DISPLAY_WRITE); [by apply drv_write|].
    destruct (_ || _); [done|]. destruct (dq_operation q =? AOS_DISPLAY_ABORT).
    { eexists _, mem. split; [done|]. by destruct Hr; split. }
    destruct (negb _); [done|]. by apply drv_present.
  - rewrite Hdraft. cbn [Z.eqb negb orb]. destruct (dq_operation q =? AOS_DISPLAY_BEGIN); [by apply drv_begin|done].
Qed.

Definition display_region_ok (r : display_region) : Prop :=
  is_u32 (dg_req_head r) /\ is_u32 (dg_req_tail r) /\ is_u32 (dg_resp_head r) /\ is_u32 (dg_resp_tail r) /\
  display_request_ok (dg_request r) /\ sm_size (dg_data r) = AOS_DISPLAY_CHUNK.

(** One request outstanding, and no answer. *)
Definition awaiting (r : display_region) : bool :=
  (u32 (dg_req_tail r - dg_req_head r) =? 1) && (dg_resp_tail r =? dg_req_head r) && (dg_resp_head r =? dg_req_head r).

(** The region after the answer. *)
Definition answered (r : display_region) (status : Z) (A : scanout) : display_region :=
  mk_dregion (u32 (dg_req_head r + 1)) (dg_req_tail r) (dg_resp_head r) (u32 (dg_req_head r + 1)) (dg_request r)
    (mk_dresp AOS_DISPLAY_VERSION status (dq_id (dg_request r)) 0 (sn_cookie A) (sn_sequence A)) (dg_data r).

Lemma display_pump_refines d r mem A dev :
  drv_repr d mem A -> display_region_ok r ->
  if awaiting r then
    let '(status, A', dev') := spec_display present A (dg_request r)
                                 (load_bytes (dg_data r) 0 (dq_length (dg_request r))) dev in
    exists d' mem', aos_display_pump present d r mem dev = Some (1, d', answered r status A', mem', dev') /\ drv_repr d' mem' A'
  else aos_display_pump present d r mem dev = Some (0, d, r, mem, dev).
Proof using Type.
  intros Hr (_ & _ & _ & _ & Hq & Hd). unfold aos_display_pump, awaiting.
  rewrite <- !negb_andb. destruct (_ && _); cbn [negb]; [|done].
  destruct (display_execute_refines d mem A (dg_request r) (dg_data r) dev Hr Hq Hd) as (d' & mem' & -> & Hr').
  destruct (spec_display _ _ _ _ _) as [[status A'] dev']. cbn [fst snd mbind option_bind] in *.
  exists d', mem'. split; [|done]. destruct Hr' as [_ _ _ [-> _] [-> _] _ _ _]. done.
Qed.
End refine.

(** C26. Whatever the producer leaves in the shared region, the driver
    answers at most one outstanding request, as the specification says: it
    assembles the frame in the bank that is not shown, and a PRESENT shows
    exactly the bytes written since BEGIN, all of them, or leaves what is
    shown as it was. *)
Theorem display_pump_exact {Dev} (present : Dev -> Z -> Z -> Z -> Z * Dev) d r mem A dev :
  drv_repr d mem A -> display_region_ok r ->
  if awaiting r then
    let '(status, A', dev') := spec_display present A (dg_request r)
                                 (load_bytes (dg_data r) 0 (dq_length (dg_request r))) dev in
    exists d' mem', aos_display_pump present d r mem dev = Some (1, d', answered r status A', mem', dev') /\ drv_repr d' mem' A'
  else aos_display_pump present d r mem dev = Some (0, d, r, mem, dev).
Proof. apply display_pump_refines. Qed.

(** ** One exchange *)

Section exchange.
Context {Dev : Type} (present : Dev -> Z -> Z -> Z -> Z * Dev).

(** Between exchanges: nothing outstanding in the region. *)
Record idle (w : display_world Dev) (A : scanout) : Prop := {
  id_region : display_region_ok (xw_region w);
  id_indices : dg_req_head (xw_region w) = dg_req_tail (xw_region w) /\
    dg_resp_head (xw_region w) = dg_req_tail (xw_region w) /\ dg_resp_tail (xw_region w) = dg_req_tail (xw_region w);
  id_driver : drv_repr (xw_driver w) (xw_mem w) A }.

Definition spec_of (w : display_world Dev) (A : scanout) (q : display_request) : Z * scanout * Dev :=
  spec_display present A q (load_bytes (xw_window w) 0 (dq_length q)) (xw_dev w).

(** The driver ran and answered, or never got to run. *)
Definition exchanged (q : display_request) (w : display_world Dev) (A : scanout) (attempts : nat)
    (out : option (Z * display_response * display_world Dev)) : Prop :=
  (exists n w', (n < attempts)%nat /\
     out = Some (0, mk_dresp AOS_DISPLAY_VERSION (spec_of w A q).1.1 (dq_id q) 0 (sn_cookie (spec_of w A q).1.2)
                      (sn_sequence (spec_of w A q).1.2), w') /\
     idle w' (spec_of w A q).1.2 /\ xw_dev w' = (spec_of w A q).2 /\ xw_window w' = xw_window w /\
     xw_runs w = replicate n false ++ true :: xw_runs w') \/
  (exists w', out = Some (-1, no_response, w') /\ drv_repr (xw_driver w') (xw_mem w') A /\ xw_dev w' = xw_dev w /\
     true ∉ take attempts (xw_runs w)).

Lemma await_reply_ok q A attempts : forall w,
  awaiting (xw_region w) = true -> display_region_ok (xw_region w) -> dg_request (xw_region w) = q ->
  drv_repr (xw_driver w) (xw_mem w) A ->
  exchanged q w A attempts (await_reply present attempts w).
Proof using Type.
  induction attempts as [|attempts IH]; intros w Haw Hok Hq Hr; cbn [await_reply].
  { right. exists w. split_and!; try done. set_solver. }
  assert (aos_display_receive (xw_region w) = (None, xw_region w)) as Hnone.
  { unfold aos_display_receive. unfold awaiting in Haw. rewrite !andb_true_iff, !Z.eqb_eq in Haw.
    destruct Haw as [[_ ->] ->]. by rewrite Z.sub_diag. }
  unfold driver_turn. destruct (xw_runs w) as [|[] runs] eqn:Hruns; cbn [mbind option_bind].
  - rewrite Hnone. destruct (IH w Haw Hok Hq Hr) as [(n & w' & _ & _ & _ & _ & _ & Hn)|(w' & -> & H1 & H2 & _)].
    { rewrite Hruns in Hn. by apply (f_equal List.length) in Hn; rewrite length_app in Hn; cbn in Hn; lia. }
    right. exists w'. rewrite Hruns, take_nil. split_and!; try done. set_solver.
  - pose proof (display_pump_refines present (xw_driver w) (xw_region w) (xw_mem w) A (xw_dev w) Hr Hok) as Hp.
    rewrite Haw, Hq in Hp. fold (xw_window w) in Hp. fold (spec_of w A q) in Hp.
    destruct (spec_of w A q) as [[status A'] dev'] eqn:Hspec. destruct Hp as (d' & mem' & -> & Hr').
    cbn [mbind option_bind xw_region]. unfold aos_display_receive. destruct Hok as (H1 & H2 & H3 & H4 & H5 & H6).
    unfold awaiting in Haw. rewrite !andb_true_iff, !Z.eqb_eq in Haw. destruct Haw as [[Hone Ht] Hh].
    cbn [answered dg_resp_tail dg_resp_head dg_response]. rewrite Hh.
    replace (u32 (u32 (dg_req_head (xw_region w) + 1) - dg_req_head (xw_region w)) =? 1) with true by (symmetry; rewrite Z.eqb_eq; mod_lia).
    cbn [negb]. left. eexists 0%nat, _. split; [lia|]. rewrite Hspec. cbn [fst snd]. split; [by rewrite Hq|].
    split_and!; try done. split; cbn; [|split_and!; mod_lia|done].
    unfold display_region_ok. cbn. split_and!; eauto with cint.
  - cbn [xw_region]. rewrite Hnone.
    set (w1 := mk_dworld _ _ _ _ _). destruct (IH w1 Haw Hok Hq Hr) as [(n & w' & Hn & -> & Hi & Hdv & Hwin & Hr1)|(w' & -> & Hd' & Hdv & Hno)].
    + left. exists (S n), w'. change (spec_of w1 A q) with (spec_of w A q) in *. split_and!; try done; [lia|].
      rewrite Hruns. cbn. f_equal. exact Hr1.
    + right. exists w'. rewrite Hruns. cbn. split_and!; try done. cbn in Hno. set_solver.
Qed.

Lemma display_exchange_ok q w A :
  idle w A -> display_request_ok q -> exchanged q w A 100 (display_exchange present q w).
Proof using Type.
  intros [Hok (Hi1 & Hi2 & Hi3) Hr] Hq. unfold display_exchange, aos_display_submit. rewrite Hi1, Hi2, Hi3, !Z.eqb_refl. cbn [negb orb].
  cbn [Z.eqb negb]. set (r := mk_dregion _ _ _ _ _ _ _).
  pose proof Hok as (H1 & H2 & H3 & H4 & H5 & H6).
  pose proof (await_reply_ok q A 100 (set_xw_region r w)) as Ha. apply Ha; [| |done|done].
  - cbn. unfold awaiting. cbn. rewrite !andb_true_iff, !Z.eqb_eq. split_and!; try done. mod_lia.
  - unfold display_region_ok. cbn. split_and!; try done; try apply u32_range; by rewrite ?Hi1, ?Hi2, ?Hi3.
Qed.
End exchange.

(** ** The producer's view of an exchange *)

Lemma spec_display_reply {Dev} (present : Dev -> Z -> Z -> Z -> Z * Dev) d mem A q payload dev :
  drv_repr d mem A -> dq_operation q <> AOS_DISPLAY_ABORT ->
  let '(status, A', _) := spec_display present A q payload dev in
  if status =? AOS_DISPLAY_OK then
    sn_cookie A' <> 0 /\ (dq_cookie q <> 0 -> sn_cookie A' = dq_cookie q) /\
    sn_sequence A' = u64 (sn_sequence A + (if dq_operation q =? AOS_DISPLAY_PRESENT then 1 else 0))
  else sn_shown A' = sn_shown A.
Proof.
  intros [_ _ _ [_ Hc] [_ Hs] _ _ Hd] Hab. unfold spec_display, spec_begin, spec_present.
  unfold UINT64_MAX, is_u64 in *.
  destruct (sn_failed A); [done|]. destruct (_ || _); [done|].
  destruct (sn_draft A) as [[[w h] l]|].
  - destruct Hd as (_ & _ & _ & _ & _ & _ & _ & _ & Hck & Hsq).
    destruct (Z.eqb_spec (dq_operation q) AOS_DISPLAY_BEGIN); [done|].
    destruct (Z.eqb_spec (dq_cookie q) (sn_cookie A)) as [Hcq|]; [|done]. cbn [negb].
    destruct (_ || _); [done|]. destruct (Z.eqb_spec (dq_operation q) AOS_DISPLAY_WRITE) as [->|].
    { destruct (_ && _); [|done]. cbn. rewrite Z.add_0_r, u64_small by (unfold is_u64; lia). done. }
    destruct (_ || _); [done|]. destruct (Z.eqb_spec (dq_operation q) AOS_DISPLAY_ABORT); [done|].
    destruct (Z.eqb_spec (dq_operation q) AOS_DISPLAY_PRESENT); [|done]. cbn [negb].
    destruct (_ =? w * h * 4); [|done]. cbn [negb]. destruct (present _ _ _ _) as [res dev']. destruct (res =? 0); [|done].
    cbn. rewrite u64_small by (unfold is_u64; lia). done.
  - destruct (Z.eqb_spec (dq_operation q) AOS_DISPLAY_BEGIN) as [->|]; [|done].
    destruct (_ || (sn_sequence A =? _)) eqn:Hg; [done|]. cbn. rewrite !orb_false_iff, negb_false_iff, !Z.eqb_neq, Z.eqb_eq in Hg.
    rewrite Z.add_0_r, u64_small by (unfold is_u64; lia). split_and!; [lia| |done]. destruct Hg as [[[[[[[[Hq0 _] _] _] _] _] _] _] _]. lia.
Qed.

(** ** Filling the window *)

Section window.
Context (arena i : Z) (s : fb_surface) (m : smem) (x y wd h : Z).
Context (Hs : surface_ok arena i s) (Hi : 0 <= i < 4) (Hm : AOS_FB_ARENA_BYTES <= sm_size m) (Hsz : sized s).
Context (Hx : 0 <= x) (Hy : 0 <= y) (Hwd : 16 <= wd) (Hh : 16 <= h).
Context (Hright : x + wd <= su_width s) (Hbottom : y + h <= su_height s).

(** Byte [j] of the rectangle, where the arena has it. *)
Definition rect_byte (j : Z) : Z :=
  mbyte m ((su_committed s).2 + ((y + j / (wd * 4)) * su_width s + x) * 4 + j mod (wd * 4)).

Lemma rect_size : frame_size wd h /\ wd * h * 4 <= AOS_FB_SURFACE_BYTES.
Proof using Hsz Hx Hy Hwd Hh Hright Hbottom.
  destruct Hsz. unfold frame_size, AOS_FB_SURFACE_BYTES, AOS_FB_MAX_WIDTH, AOS_FB_MAX_HEIGHT, AOS_FB_PIXEL_BYTES. nia.
Qed.

Lemma rectangle_bytes_mem p : shows m s p -> rectangle_bytes (pi_committed p) x y wd h = rect_byte <$> seqZ 0 (wd * h * 4).
Proof using Hwd Hh Hx Hy Hright Hbottom.
  intros [_ _ _ _ Hpc]. unfold rectangle_bytes. apply list_fmap_ext. intros n j [-> Hj]%lookup_seqZ.
  destruct (row_major wd h (0 + Z.of_nat n)) as (? & ? & ? & Hd & Hr); [lia..|].
  rewrite <- Hpc by (unfold in_frame; lia). unfold rect_byte. rewrite Hd, Hr. apply (f_equal (mbyte m)). unfold pixel_at. lia.
Qed.

(** One part of a row. *)
Lemma part_bytes at' part data copied :
  0 <= at' -> 0 < part <= wd * 4 - at' mod (wd * 4) -> at' + part <= wd * h * 4 ->
  0 <= copied -> copied + part <= sm_size data ->
  exists data', smem_copy data copied m
      ((su_committed s).2 + u64 ((u32 (y + at' / (wd * 4)) * su_width s + x) * 4) + at' mod (wd * 4)) part = Some data' /\
    sm_size data' = sm_size data /\ load_bytes data' 0 (copied + part) = load_bytes data 0 copied ++ (rect_byte <$> seqZ at' part).
Proof using Hs Hi Hm Hsz Hx Hy Hwd Hh Hright Hbottom.
  intros Hat Hpart Hend Hcp Hd. pose proof Hs as [_ Hco _ _ _]. pose proof (frame_bytes_ok s Hsz) as [Hfb ?]. rewrite Hfb in *.
  pose proof (Z.div_mod at' (wd * 4) ltac:(lia)) as Hdm. pose proof (Z.mod_pos_bound at' (wd * 4) ltac:(lia)) as Hmb.
  destruct Hsz as [? ?]. set (row := at' / (wd * 4)) in *. set (col := at' mod (wd * 4)) in *.
  assert (0 <= row < h) as Hrow by (split; [apply Z.div_pos; lia|nia]).
  assert (0 <= (y + row) * su_width s) by nia. assert ((y + row) * su_width s + su_width s <= su_width s * su_height s) by nia.
  assert (su_width s * su_height s <= 1024 * 768) by nia.
  rewrite (u32_small (y + row)) by (unfold is_u32; lia). rewrite u64_small by (unfold is_u64; lia).
  rewrite Hco. cbn [snd].
  destruct (smem_copy_ok data copied m ((2 * i + 1) * AOS_FB_SURFACE_BYTES + ((y + row) * su_width s + x) * 4 + col) part)
    as (data' & -> & Hds & Hdb); [sb_lia..|].
  exists data'. split_and!; [done..|]. rewrite load_bytes_app by lia. f_equal.
  - apply load_bytes_ext. intros k Hk. rewrite Hdb, decide_False by lia. done.
  - unfold load_bytes. replace at' with (at' + 0) by lia. replace (0 + copied) with (copied + 0) by lia.
    rewrite <- (fmap_add_seqZ copied), <- (fmap_add_seqZ at'), <- !list_fmap_compose. apply list_fmap_ext.
    intros n k [-> Hk]%lookup_seqZ. cbn -[mbyte]. rewrite Hdb, decide_True by lia. unfold rect_byte. rewrite Hco. cbn [snd].
    assert ((at' + (0 + Z.of_nat n)) / (wd * 4) = row) as -> by (symmetry; apply (Z.div_unique _ _ _ (col + Z.of_nat n)); lia).
    assert ((at' + (0 + Z.of_nat n)) mod (wd * 4) = col + Z.of_nat n) as -> by (symmetry; apply (Z.mod_unique _ _ row); lia).
    apply (f_equal (mbyte m)). lia.
Qed.

Lemma fill_window_ok offset count fuel : forall copied data,
  0 <= offset -> 0 <= count <= AOS_DISPLAY_CHUNK -> offset + count <= wd * h * 4 -> 0 <= copied <= count ->
  sm_size data = AOS_DISPLAY_CHUNK -> load_bytes data 0 copied = rect_byte <$> seqZ offset copied ->
  copied = count /\ 1 <= Z.of_nat fuel \/ (offset + count) / (wd * 4) - (offset + copied) / (wd * 4) + 2 <= Z.of_nat fuel ->
  exists data', fill_window fuel s m x y (wd * 4) offset count copied data = Some data' /\
    sm_size data' = AOS_DISPLAY_CHUNK /\ load_bytes data' 0 count = rect_byte <$> seqZ offset count.
Proof using Hs Hi Hm Hsz Hx Hy Hwd Hh Hright Hbottom.
  pose proof rect_size as [_ Hrb]. change AOS_FB_SURFACE_BYTES with 3145728 in Hrb.
  induction fuel as [|fuel IH]; intros copied data Ho Hc Hoc Hcp Hd Hl Hf.
  { exfalso. destruct Hf as [?|Hf]; [lia|].
    pose proof (Z.div_le_mono (offset + copied) (offset + count) (wd * 4) ltac:(lia) ltac:(lia)). lia. }
  cbn [fill_window]. unfold AOS_DISPLAY_CHUNK in *. destruct (Z.ltb_spec copied count) as [Hlt|].
  2:{ exists data. split_and!; [done..|]. by replace count with copied by lia. }
  rewrite (u32_small (offset + copied)), (u32_small (count - copied)) by (unfold is_u32; lia).
  set (at' := offset + copied) in *. pose proof (Z.mod_pos_bound at' (wd * 4) ltac:(lia)).
  rewrite (u32_small (wd * 4 - _)) by (unfold is_u32; destruct Hsz; lia). cbv zeta.
  set (part := if count - copied <? wd * 4 - at' mod (wd * 4) then count - copied else wd * 4 - at' mod (wd * 4)).
  assert (0 < part <= wd * 4 - at' mod (wd * 4) /\ copied + part <= count /\
    (copied + part = count \/ part = wd * 4 - at' mod (wd * 4))) as (Hp1 & Hp2 & Hp3).
  { subst part. destruct (Z.ltb_spec (count - copied) (wd * 4 - at' mod (wd * 4))); lia. }
  destruct (part_bytes at' part data copied) as (data' & -> & Hds & Hdl); [lia..|]. cbn [mbind option_bind].
  rewrite u32_small by (unfold is_u32; lia). apply IH; try lia.
  - rewrite Hdl, Hl. rewrite seqZ_app, fmap_app by lia. done.
  - destruct Hf as [?|Hf]; [lia|]. destruct Hp3 as [->|Hp3]; [left; split; [done|]|right].
    + pose proof (Z.div_le_mono at' (offset + count) (wd * 4) ltac:(lia) ltac:(lia)). lia.
    + replace (offset + (copied + part)) with (at' + part) by lia.
      assert ((at' + part) / (wd * 4) = at' / (wd * 4) + 1) as ->; [|lia].
      pose proof (Z.div_mod at' (wd * 4) ltac:(lia)). symmetry. apply (Z.div_unique _ _ _ 0); lia.
Qed.
End window.

(** A request as the producer sends it. *)
Definition stamped (q : display_request) (i : Z) : display_request :=
  mk_dreq AOS_DISPLAY_VERSION (dq_operation q) i (dq_reserved q) (dq_cookie q) (dq_width q) (dq_height q)
    (dq_offset q) (dq_length q).

Section forward.
Context {Dev : Type} (present : Dev -> Z -> Z -> Z -> Z * Dev).

(** The driver gets to run before the producer gives up. *)
Definition prompt (w : display_world Dev) : Prop := true ∈ take 100 (xw_runs w).

Record in_step (p : display_producer) (w : display_world Dev) (A : scanout) : Prop := {
  st_idle : idle w A;
  st_sequence : pr_driver_sequence p = sn_sequence A;
  st_id : is_u32 (pr_id p);
  st_failed : pr_failed p = 0 }.

(** What stays of the screen when the producer gives up. *)
Definition kept_shown (w : display_world Dev) (A : scanout) : Prop :=
  exists A', drv_repr (xw_driver w) (xw_mem w) A' /\ sn_shown A' = sn_shown A.

(** The driver has used its schedule up to here. *)
Definition later (w w' : display_world Dev) : Prop :=
  exists n, (n < 100)%nat /\ xw_runs w = replicate n false ++ true :: xw_runs w'.

Lemma exchange_step p q w A :
  in_step p w A -> display_request_ok q -> dq_operation q <> AOS_DISPLAY_ABORT ->
  exists reply i w', exchange (display_exchange present) p q w = Some (reply, set_pr_id i p, w') /\ is_u32 i /\
    let '(status, A', dev') := spec_of present w A (stamped q i) in
    match reply with
    | Some cookie => status = AOS_DISPLAY_OK /\ cookie = sn_cookie A' /\ idle w' A' /\ i = pr_id p + 1 /\
        sn_sequence A' = u64 (sn_sequence A + (if dq_operation q =? AOS_DISPLAY_PRESENT then 1 else 0)) /\
        xw_dev w' = dev' /\ xw_window w' = xw_window w /\ later w w'
    | None => kept_shown w' A /\ (pr_id p = UINT32_MAX \/ ~ prompt w \/ status <> AOS_DISPLAY_OK)
    end.
Proof using Type.
  intros [Hidle Hseq Hid Hf] Hq Hop. unfold exchange. destruct (Z.eqb_spec (pr_id p) UINT32_MAX) as [Hmax|Hmax].
  { exists None, (pr_id p), w. split; [by destruct p|]. split; [done|].
    destruct (spec_of _ _ _ _) as [[? ?] ?]. split; [|auto]. exists A. split; [apply Hidle|done]. }
  assert (u32 (pr_id p + 1) = pr_id p + 1) as Hi by (apply u32_small; unfold is_u32, UINT32_MAX in *; lia).
  cbn [set_pr_id pr_id]. rewrite Hi. change (mk_dreq _ _ _ _ _ _ _ _ _) with (stamped q (pr_id p + 1)).
  assert (is_u32 (pr_id p + 1)) by (rewrite <- Hi; apply u32_range).
  pose proof (spec_display_reply present (xw_driver w) (xw_mem w) A (stamped q (pr_id p + 1))
    (load_bytes (xw_window w) 0 (dq_length (stamped q (pr_id p + 1)))) (xw_dev w) (id_driver _ _ Hidle) Hop) as Hrep.
  change (spec_display present A (stamped q (pr_id p + 1)) _ _) with (spec_of present w A (stamped q (pr_id p + 1))) in Hrep.
  destruct (display_exchange_ok present (stamped q (pr_id p + 1)) w A Hidle) as [(n & w' & Hn & -> & Hi' & Hdv & Hwin & Hruns)|(w' & -> & Hd' & _ & Hno)];
    [by destruct Hq; split|..].
  2:{ exists None, (pr_id p + 1), w'. split; [done|]. split; [done|]. destruct (spec_of _ _ _ _) as [[? ?] ?].
      split; [by exists A|]. unfold prompt. auto. }
  destruct (spec_of present w A (stamped q (pr_id p + 1))) as [[status A'] dev'] eqn:Hspec.
  cbn [fst snd mbind option_bind dp_version dp_id dp_reserved dp_status dp_cookie dp_sequence stamped dq_id dq_cookie dq_operation] in *.
  rewrite !Z.eqb_refl. cbn [negb orb Z.eqb].
  destruct (Z.eqb_spec status AOS_DISPLAY_OK) as [->|Hst]; cbn [negb orb].
  - destruct Hrep as (Hc0 & Hcq & Hsq). rewrite (proj2 (Z.eqb_neq _ _) Hc0). cbn [orb].
    replace (negb (dq_cookie q =? 0) && negb (sn_cookie A' =? dq_cookie q)) with false.
    2:{ symmetry. destruct (Z.eqb_spec (dq_cookie q) 0); [done|]. cbn. rewrite Hcq, Z.eqb_refl by done. done. }
    cbn [set_pr_id pr_driver_sequence]. rewrite Hseq, <- Hsq, Z.eqb_refl. cbn [negb].
    exists (Some (sn_cookie A')), (pr_id p + 1), w'. split; [done|]. split; [done|]. rewrite Hspec.
    split_and!; try done. by exists n.
  - exists None, (pr_id p + 1), w'. split; [done|]. split; [done|]. rewrite Hspec. split; [|auto].
    exists A'. split; [apply Hi'|done].
Qed.

(** ** Schedules *)

(** The driver gets to run within every hundred looks, [k] times. *)
Fixpoint fair (k : nat) (runs : list bool) : Prop :=
  match k with
  | O => True
  | S k => exists n runs', (n < 100)%nat /\ runs = replicate n false ++ true :: runs' /\ fair k runs'
  end.

Lemma first_turn n n' (l l' : list bool) :
  replicate n false ++ true :: l = replicate n' false ++ true :: l' -> n = n' /\ l = l'.
Proof using Type.
  revert n'. induction n as [|n IH]; intros [|n'] Heq; cbn in *; try done.
  - by injection Heq.
  - injection Heq as Heq. by destruct (IH n' Heq) as [-> ->].
Qed.

Lemma fair_mono k j runs : (j <= k)%nat -> fair k runs -> fair j runs.
Proof using Type.
  revert j runs. induction k as [|k IH]; intros [|j] runs Hj; cbn; try done; [lia|].
  intros (n & r & Hn & -> & Hr). exists n, r. split_and!; [done..|]. apply IH; [lia|done].
Qed.

Lemma fair_later k w w' : later w w' -> fair (S k) (xw_runs w) -> fair k (xw_runs w').
Proof using Type. intros (n & Hn & He) (n' & r & _ & Hr & Hf). rewrite He in Hr. by apply first_turn in Hr as [_ ->]. Qed.

Lemma fair_prompt k w : fair (S k) (xw_runs w) -> prompt w.
Proof using Type.
  intros (n & r & Hn & He & _). unfold prompt. rewrite He, take_app. apply elem_of_app. right.
  rewrite length_replicate. destruct (100 - n)%nat eqn:Hk; [lia|]. cbn. apply list_elem_of_here.
Qed.

(** ** A whole frame *)

Section frame.
Context (arena i : Z) (s : fb_surface) (m : smem) (x y wd h : Z).
Context (Hs : surface_ok arena i s) (Hi : 0 <= i < 4) (Hm : AOS_FB_ARENA_BYTES <= sm_size m) (Hsz : sized s).
Context (Hx : 0 <= x) (Hy : 0 <= y) (Hwd : 16 <= wd) (Hh : 16 <= h).
Context (Hright : x + wd <= su_width s) (Hbottom : y + h <= su_height s).

Definition rect_bytes (n : Z) : list Z := rect_byte s m x y wd <$> seqZ 0 n.

Lemma rect_frame : frame_size wd h /\ wd * h * 4 <= AOS_FB_SURFACE_BYTES.
Proof using Hsz Hx Hy Hwd Hh Hright Hbottom. by apply (rect_size s x y). Qed.

Lemma length_rect_bytes n : 0 <= n -> Z.of_nat (length (rect_bytes n)) = n.
Proof using Type. intros. unfold rect_bytes. rewrite length_fmap, length_seqZ. lia. Qed.

(** Assembling: the first [offset] bytes are written. *)
Record assembling (p : display_producer) (w : display_world Dev) (A0 A : scanout) (offset : Z) : Prop := {
  as_step : in_step p w A;
  as_failed : sn_failed A = false;
  as_draft : sn_draft A = Some (wd, h, rect_bytes offset);
  as_kept : sn_shown A = sn_shown A0 /\ sn_front A = sn_front A0 /\ sn_sequence A = sn_sequence A0 }.

(** Giving up: what was shown stays, and there was a reason. *)
Definition gave_up (p : display_producer) (w w' : display_world Dev) (A : scanout) (k : nat) : Prop :=
  kept_shown w' A /\ (UINT32_MAX < pr_id p + Z.of_nat k \/ ~ fair k (xw_runs w)).

Lemma kept_shown_eq w A A' : sn_shown A = sn_shown A' -> kept_shown w A -> kept_shown w A'.
Proof using Type. intros He (B & HB & HBs). exists B. split; [done|congruence]. Qed.

Lemma set_id_id j k p : set_pr_id j (set_pr_id k p) = set_pr_id j p.
Proof using Type. done. Qed.

Lemma send_chunks_ok fuel : forall offset p w A0 A,
  assembling p w A0 A offset -> 0 <= offset <= wd * h * 4 -> wd * h * 4 - offset <= 65536 * (Z.of_nat fuel - 1) ->
  exists reply j w', send_chunks xw_window set_xw_window (display_exchange present) fuel s m x y (wd * 4) (wd * h * 4) offset
      (sn_cookie A) p w = Some (reply, set_pr_id j p, w') /\
    match reply with
    | Some cookie => exists A', assembling (set_pr_id j p) w' A0 A' (wd * h * 4) /\ cookie = sn_cookie A' /\
        xw_dev w' = xw_dev w /\ j <= pr_id p + Z.of_nat fuel /\ forall k, fair (fuel + k) (xw_runs w) -> fair k (xw_runs w')
    | None => gave_up p w w' A0 fuel
    end.
Proof using Hs Hi Hm Hsz Hx Hy Hwd Hh Hright Hbottom.
  pose proof rect_frame as [Hfs Hrb]. change AOS_FB_SURFACE_BYTES with 3145728 in Hrb.
  induction fuel as [|fuel IH]; intros offset p w A0 A Has Ho Hf; [lia|]. pose proof Has as [Hst Hnf Hdr (Hk1 & Hk2 & Hk3)].
  cbn [send_chunks]. destruct (Z.ltb_spec offset (wd * h * 4)) as [Hlt|].
  2:{ exists (Some (sn_cookie A)), (pr_id p), w. split; [by destruct p|]. exists A. replace (wd * h * 4) with offset by lia.
      split_and!; try done; [by destruct p|lia|]. intros k. apply fair_mono. lia. }
  unfold AOS_DISPLAY_CHUNK. rewrite (u32_small (wd * h * 4 - offset)) by (unfold is_u32; lia). cbv zeta.
  set (count := if 65536 <? wd * h * 4 - offset then 65536 else wd * h * 4 - offset).
  assert (0 < count <= 65536 /\ offset + count <= wd * h * 4 /\ (count = 65536 \/ offset + count = wd * h * 4)) as (Hc1 & Hc2 & Hc3)
    by (subst count; destruct (Z.ltb_spec 65536 (wd * h * 4 - offset)); lia).
  pose proof Hst as [[(HR1 & HR2 & HR3 & HR4 & HR5 & HR6) Hix Hdv] Hseq Hid Hpf].
  destruct (fill_window_ok arena i s m x y wd h Hs Hi Hm Hsz Hx Hy Hwd Hh Hright Hbottom offset count 1027 0 (xw_window w))
    as (data & -> & Hds & Hdl); unfold AOS_DISPLAY_CHUNK in *; [lia..|done|done| |].
  { right. pose proof (Z.div_mod offset (wd * 4) ltac:(lia)). pose proof (Z.mod_pos_bound offset (wd * 4) ltac:(lia)).
    pose proof (Z.div_mod (offset + count) (wd * 4) ltac:(lia)). pose proof (Z.mod_pos_bound (offset + count) (wd * 4) ltac:(lia)).
    rewrite Z.add_0_r. nia. }
  cbn [mbind option_bind].
  assert (in_step p (set_xw_window data w) A) as Hst' by (split; try done; split; try done; by split_and!).
  set (q := mk_dreq 0 AOS_DISPLAY_WRITE 0 0 (sn_cookie A) 0 0 offset count).
  destruct (exchange_step p q (set_xw_window data w) A Hst') as (reply & j & w' & -> & Hj & Hrep); [|done|].
  { pose proof (dv_cookie _ _ _ Hdv) as [_ ?]. split; cbn; try done; unfold is_u32; lia. }
  cbn [mbind option_bind].
  assert (spec_of present (set_xw_window data w) A (stamped q j) =
    (AOS_DISPLAY_OK, set_draft (Some (wd, h, rect_bytes (offset + count))) A, xw_dev w)) as Hspec.
  { unfold spec_of, spec_display. rewrite Hnf, Hdr. cbn [stamped q dq_version dq_reserved dq_operation dq_cookie dq_width dq_height dq_offset dq_length].
    rewrite Z.eqb_refl, length_rect_bytes by lia. change (load_bytes (xw_window (set_xw_window data w)) 0 count) with (load_bytes data 0 count).
    rewrite Hdl. replace (_ && _) with true.
    2:{ symmetry. unfold AOS_DISPLAY_CHUNK. rewrite !andb_true_iff, Z.eqb_eq, Z.ltb_lt, !Z.leb_le. lia. }
    cbn. unfold rect_bytes. rewrite seqZ_app, fmap_app by lia. by rewrite Z.add_0_l, Z.eqb_refl. }
  rewrite Hspec in Hrep. destruct reply as [cookie|].
  - destruct Hrep as (_ & -> & Hidle & -> & Hsq & Hdev & Hwin & Hlat). rewrite u32_small by (unfold is_u32; lia).
    destruct (IH (offset + count) (set_pr_id (pr_id p + 1) p) w' A0 (set_draft (Some (wd, h, rect_bytes (offset + count))) A))
      as (reply & j & w'' & -> & Hrest); [|lia|lia|].
    { by split. }
    exists reply, j, w''. split; [done|]. destruct reply as [cookie|].
    + destruct Hrest as (A' & HA' & -> & Hd2 & Hj2 & Hf2). exists A'. split_and!; try done; [congruence|cbn in Hj2; lia|].
      intros k Hk. apply Hf2. by apply (fair_later _ (set_xw_window data w)).
    + destruct Hrest as [Hks Hwhy]. split; [done|]. destruct Hwhy as [Hw|Hw]; [left; cbn in Hw; lia|right].
      intros Hfair. apply Hw. by apply (fair_later _ (set_xw_window data w)).
  - destruct Hrep as [Hks Hwhy]. exists None, j, w'. split; [done|]. split; [by apply (kept_shown_eq _ A)|].
    destruct Hwhy as [?|[Hw|?]]; [left; lia|right|done]. intros Hfair. apply Hw. by apply (fair_prompt fuel).
Qed.

(** The device takes the frame. *)
Definition accepts (w : display_world Dev) (A : scanout) : Prop := (present (xw_dev w) (1 - sn_front A) wd h).1 = 0.

(** Nothing stands in the way of a frame. *)
Record clear_way (p : display_producer) (w : display_world Dev) (A : scanout) : Prop := {
  cw_driver : sn_failed A = false;
  cw_cookie : sn_cookie A <> UINT64_MAX;
  cw_sequence : sn_sequence A <> UINT64_MAX;
  cw_ids : pr_id p + 51 <= UINT32_MAX;
  cw_fair : fair 51 (xw_runs w);
  cw_device : accepts w A }.

Lemma begin_spec w A j :
  sn_draft A = None -> sn_failed A = false -> sn_cookie A <> UINT64_MAX -> sn_sequence A <> UINT64_MAX ->
  spec_of present w A (stamped (mk_dreq 0 AOS_DISPLAY_BEGIN 0 0 0 wd h 0 0) j) =
  (AOS_DISPLAY_OK, mk_scanout (sn_cookie A + 1) (sn_sequence A) (sn_front A) false (sn_shown A) (Some (wd, h, [])), xw_dev w).
Proof using Hsz Hx Hy Hwd Hh Hright Hbottom.
  intros Hd Hf Hc Hq. pose proof rect_frame as [[? ?] _]. unfold spec_of, spec_display, spec_begin. rewrite Hd, Hf. cbn.
  replace (_ || _) with false; [done|]. symmetry. rewrite !orb_false_iff, !Z.ltb_ge, !Z.eqb_neq. split_and!; try done; lia.
Qed.

(** A refused BEGIN has one of the reasons the driver gives. *)
Lemma begin_refused w A j :
  (spec_of present w A (stamped (mk_dreq 0 AOS_DISPLAY_BEGIN 0 0 0 wd h 0 0) j)).1.1 <> AOS_DISPLAY_OK -> sn_draft A = None ->
  ~ (sn_failed A = false /\ sn_cookie A <> UINT64_MAX /\ sn_sequence A <> UINT64_MAX).
Proof using Hsz Hx Hy Hwd Hh Hright Hbottom. intros Hst Hd (Hf & Hc & Hq). apply Hst. by rewrite begin_spec. Qed.

Lemma begin_accepted w A j A' dev' :
  spec_of present w A (stamped (mk_dreq 0 AOS_DISPLAY_BEGIN 0 0 0 wd h 0 0) j) = (AOS_DISPLAY_OK, A', dev') -> sn_draft A = None ->
  sn_failed A = false /\ sn_cookie A <> UINT64_MAX /\ sn_sequence A <> UINT64_MAX.
Proof using Type.
  intros Hs' Hd. unfold spec_of, spec_display, spec_begin in Hs'. rewrite Hd in Hs'. destruct (sn_failed A); [done|].
  cbn in Hs'. destruct (_ || _) eqn:Hg; [done|]. rewrite !orb_false_iff, !Z.eqb_neq in Hg. by destruct Hg as [[_ ?] ?].
Qed.

Lemma present_spec w A j :
  sn_draft A = Some (wd, h, rect_bytes (wd * h * 4)) -> sn_failed A = false ->
  spec_of present w A (stamped (mk_dreq 0 AOS_DISPLAY_PRESENT 0 0 (sn_cookie A) 0 0 0 0) j) =
  spec_present present A wd h (rect_bytes (wd * h * 4)) (xw_dev w) /\
  spec_present present A wd h (rect_bytes (wd * h * 4)) (xw_dev w) =
  (let '(result, dev') := present (xw_dev w) (1 - sn_front A) wd h in
   if negb (result =? 0) then
     (AOS_DISPLAY_FAILED, mk_scanout (sn_cookie A) (sn_sequence A) (sn_front A) true (sn_shown A) (sn_draft A), dev')
   else
     (AOS_DISPLAY_OK, mk_scanout (sn_cookie A) (sn_sequence A + 1) (1 - sn_front A) (sn_failed A)
                        (Some (wd, h, rect_bytes (wd * h * 4))) None, dev')).
Proof using Hwd Hh.
  intros Hd Hf. unfold spec_of, spec_display, spec_present. rewrite Hd, Hf. cbn. rewrite Z.eqb_refl, length_rect_bytes; [by rewrite Z.eqb_refl|].
  clear -Hwd Hh. nia.
Qed.

Lemma send_frame_ok p w A :
  in_step p w A -> sn_draft A = None ->
  exists reply j w', send_frame xw_window set_xw_window (display_exchange present) s m x y wd h p w = Some (reply, set_pr_id j p, w') /\
    match reply with
    | Some _ => exists A', idle w' A' /\ sn_draft A' = None /\ sn_shown A' = Some (wd, h, rect_bytes (wd * h * 4)) /\
        sn_sequence A' = u64 (sn_sequence A + 1) /\ sn_front A' = 1 - sn_front A /\ is_u32 j /\
        accepts w A /\ xw_dev w' = (present (xw_dev w) (1 - sn_front A) wd h).2
    | None => kept_shown w' A /\ ~ clear_way p w A
    end.
Proof using Hs Hi Hm Hsz Hx Hy Hwd Hh Hright Hbottom.
  intros Hst Hdr. pose proof rect_frame as [[Hfw Hfh] Hrb]. change AOS_FB_SURFACE_BYTES with 3145728 in Hrb. pose proof Hst as [Hidle Hseq Hid Hpf].
  unfold send_frame. set (q := mk_dreq 0 AOS_DISPLAY_BEGIN 0 0 0 wd h 0 0).
  destruct (exchange_step p q w A Hst) as (reply & j & w1 & -> & Hj & Hrep); [by split; cbn; unfold is_u32, is_u64; lia|done|].
  cbn [mbind option_bind]. destruct (spec_of present w A (stamped q j)) as [[status A1] dev1] eqn:Hspec.
  destruct reply as [cookie|].
  2:{ exists None, j, w1. split; [done|]. destruct Hrep as [Hk Hwhy]. split; [done|]. intros [].
      destruct Hwhy as [?|[Hnp|Hso]]; [unfold UINT32_MAX in *; lia|by apply Hnp, (fair_prompt 50)|].
      apply (begin_refused w A j); [fold q; by rewrite Hspec|done|done]. }
  destruct Hrep as (-> & -> & Hidle1 & -> & Hsq1 & Hdev1 & Hwin1 & Hlat1).
  destruct (begin_accepted w A _ A1 dev1 Hspec Hdr) as (Hnf & Hck & Hsq). rewrite begin_spec in Hspec by done. injection Hspec as <- <-.
  rewrite (u32_small (wd * 4)), (u32_small (wd * 4 * h)) by (unfold is_u32; lia). replace (wd * 4 * h) with (wd * h * 4) by lia.
  set (A1 := mk_scanout _ _ _ _ _ _) in *.
  destruct (send_chunks_ok 49 0 (set_pr_id (pr_id p + 1) p) w1 A A1) as (reply & j & w2 & -> & Hrep2); [|lia|lia|].
  { split; try done. }
  cbn [mbind option_bind]. rewrite set_id_id in *. destruct reply as [cookie|].
  2:{ exists None, j, w2. split; [done|]. destruct Hrep2 as [Hk Hwhy]. split; [done|]. intros [].
      destruct Hwhy as [Hw|Hw]; [cbn in Hw; unfold UINT32_MAX in *; lia|]. apply Hw. apply (fair_mono 50); [lia|]. by apply (fair_later _ w). }
  destruct Hrep2 as (A2 & [Hst2 Hnf2 Hdr2 (Hsh2 & Hfr2 & Hsq2)] & -> & Hdev2 & Hj2 & Hfair2).
  set (q2 := mk_dreq 0 AOS_DISPLAY_PRESENT 0 0 (sn_cookie A2) 0 0 0 0).
  pose proof (dv_cookie _ _ _ (id_driver _ _ (st_idle _ _ _ Hst2))) as [_ Hcu].
  destruct (exchange_step (set_pr_id j p) q2 w2 A2 Hst2) as (reply & j3 & w3 & -> & Hj3 & Hrep3); [by split|done|].
  destruct (present_spec w2 A2 j3 Hdr2 Hnf2) as [Hps1 Hps2]. fold q2 in Hps1. rewrite Hps1, Hps2 in Hrep3. rewrite Hdev2, Hdev1, Hfr2 in Hrep3.
  exists reply, j3, w3. split; [done|]. unfold accepts.
  destruct (present (xw_dev w) (1 - sn_front A) wd h) as [result dev'] eqn:Hpr. destruct (Z.eqb_spec result 0) as [->|Hres]; cbn [negb] in Hrep3.
  - destruct reply as [cookie|].
    + destruct Hrep3 as (_ & _ & Hidle3 & _ & Hsq3 & Hdev3 & _). eexists. split; [exact Hidle3|]. cbn in Hsq3 |- *. split_and!; try done. by rewrite Hsq3, Hsq2.
    + destruct Hrep3 as [Hk Hwhy]. split; [by apply (kept_shown_eq _ A2)|]. intros [].
      destruct Hwhy as [Hw|[Hw|]]; [cbn in Hw, Hj2; unfold UINT32_MAX in *; lia| |done]. apply Hw, (fair_prompt 0), Hfair2. by apply (fair_later _ w).
  - destruct reply as [cookie|]; [by destruct Hrep3|]. destruct Hrep3 as [Hk _]. split; [by apply (kept_shown_eq _ A2)|].
    intros [_ _ _ _ _ Hacc]. unfold accepts in Hacc. by rewrite Hpr in Hacc.
Qed.
End frame.

(** ** Forwarding a client's selection *)

(** The producer's last frame is this one. *)
Definition forwarded (p : display_producer) (S : screen) (pic : picture) : bool :=
  let '(x, y, wd, h) := sc_rectangle S in
  (pr_handle p =? sc_selected S) && (pr_sequence p =? pi_sequence pic) && (pr_x p =? x) && (pr_y p =? y) &&
  (pr_width p =? wd) && (pr_height p =? h).

(** The new frame is shown: the producer and the driver agree on it, and the
    device was told to scan out the bank that holds it. *)
Definition now_shown (p p' : display_producer) (w w' : display_world Dev) (A : scanout) (S : screen) (pic : picture) : Prop :=
  let '(x, y, wd, h) := sc_rectangle S in
  exists A', in_step p' w' A' /\ sn_draft A' = None /\
    sn_shown A' = Some (wd, h, rectangle_bytes (pi_committed pic) x y wd h) /\
    sn_front A' = 1 - sn_front A /\ accepts wd h w A /\
    xw_dev w' = (present (xw_dev w) (1 - sn_front A) wd h).2 /\ forwarded p' S pic = true.

Definition forward_outcome (p : display_producer) (w : display_world Dev) (A : scanout) (S : screen)
    (out : option (Z * display_producer * display_world Dev)) : Prop :=
  match sc_pictures S !! sc_selected S with
  | Some pic =>
      let '(x, y, wd, h) := sc_rectangle S in
      if (pi_sequence pic =? 0) || forwarded p S pic then out = Some (0, p, w)
      else if (wd <? 16) || (h <? 16) || (pr_driver_sequence p =? UINT64_MAX) then out = Some (-1, p, w)
      else
        (exists p' w', out = Some (1, p', w') /\ now_shown p p' w w' A S pic) \/
        (exists p' w', out = Some (-1, p', w') /\ pr_failed p' = 1 /\ kept_shown w' A /\ ~ clear_way wd h p w A)
  | None => out = Some (0, p, w)
  end.

Lemma forward_refines arena c m S arenas p w A :
  fb_repr arena c m S -> arenas !! arena = Some m -> arena <> NULL -> in_step p w A -> sn_draft A = None ->
  forward_outcome p w A S (forward_selected present p c arenas w).
Proof using Type.
  intros Hrep Ham Har Hst Hdr. pose proof Hst as [_ Hseq Hid Hpf].
  unfold forward_outcome, forward_selected, aos_display_forward. rewrite Hpf. cbn [Z.eqb negb].
  rewrite selected_surface_lookup. pose proof (lookup_surface_repr arena c m S (fc_selected_handle c) Hrep) as Hl.
  unfold forwarded. rewrite (re_selected _ _ _ _ Hrep), (re_rectangle _ _ _ _ Hrep).
  destruct (lookup_surface c (fc_selected_handle c)) as [i|]; [|by rewrite Hl].
  destruct Hl as (n & s & pic & -> & Hn4 & Hs & Hsh & Hh0 & Hp & Hshow & Hsz). rewrite Hp.
  assert (aget (fc_surfaces c) (Z.of_nat n) = Some s) as -> by (apply aget_Some; rewrite Nat2Z.id; split; [lia|done]).
  cbn [mbind option_bind]. pose proof (sh_sequence _ _ _ Hshow) as Hsq. rewrite Hsh, <- Hsq.
  destruct (pi_sequence pic =? 0); [done|]. cbn [orb]. cbv zeta. destruct (_ && (pr_height p =? _)); [done|].
  pose proof (re_surfaces _ _ _ _ Hrep n s Hs) as Hso. rewrite (so_committed _ _ _ Hso). cbn [fst snd].
  destruct (re_selection _ _ _ _ Hrep Hh0) as (pic' & Hp' & Hx & Hy & Hfit). rewrite Hp in Hp'. injection Hp' as <-.
  unfold fits in Hfit. rewrite (sh_width _ _ _ Hshow), (sh_height _ _ _ Hshow), !andb_true_iff, !Z.ltb_lt, !Z.leb_le in Hfit.
  destruct Hfit as [[[? ?] Hright] Hbottom]. pose proof Hsz as [? ?]. unfold AOS_FB_MAX_WIDTH, AOS_FB_MAX_HEIGHT.
  rewrite (u32_small (su_width s - _)), (u32_small (su_height s - _)) by (unfold is_u32; lia).
  destruct ((_ <? 16) || (_ <? 16) || (pr_driver_sequence p =? UINT64_MAX)) eqn:Hg.
  - replace (_ || (pr_driver_sequence p =? UINT64_MAX)) with true; [done|]. symmetry.
    rewrite !orb_true_iff in Hg. rewrite !orb_true_iff. tauto.
  - rewrite !orb_false_iff, !Z.ltb_ge, Z.eqb_neq in Hg. destruct Hg as [[Hw16 Hh16] Hdm].
    replace (_ || (pr_driver_sequence p =? UINT64_MAX)) with false.
    2:{ symmetry. rewrite !orb_false_iff, !Z.ltb_ge, !Z.eqb_neq. split_and!; try done; lia. }
    rewrite Ham. cbn [mbind option_bind].
    destruct (send_frame_ok arena (Z.of_nat n) s m _ _ _ _ Hso ltac:(lia) (re_arena _ _ _ _ Hrep) Hsz Hx Hy Hw16 Hh16 Hright Hbottom p w A Hst Hdr)
      as (reply & j & w' & -> & Hout). cbn [mbind option_bind]. destruct reply as [cookie|].
    + left. eexists _, w'. split; [done|]. unfold now_shown. rewrite (re_rectangle _ _ _ _ Hrep).
      destruct Hout as (A' & Hidle & Hd' & Hsn & Hq' & Hf' & Hj & Hacc & Hdev). exists A'.
      rewrite (rectangle_bytes_mem s m _ _ _ _ Hx Hy Hw16 Hh16 Hright Hbottom pic Hshow). split_and!; try done.
      * split; try done. cbn. by rewrite Hseq, Hq'.
      * unfold forwarded. rewrite (re_rectangle _ _ _ _ Hrep), (re_selected _ _ _ _ Hrep). cbn. by rewrite !Z.eqb_refl.
    + right. eexists _, w'. split; [done|]. done.
Qed.
End forward.

(** C8. A forward never faults, for every schedule of the driver and every
    device. It does nothing when the client has selected no committed frame
    or the producer has sent it already; otherwise it either returns 1 and
    the driver shows exactly the selected rectangle of the committed
    picture, or returns -1, gives up for good, and leaves what was shown
    whole. *)
Theorem display_forward_exact {Dev} (present : Dev -> Z -> Z -> Z -> Z * Dev) arena c m S arenas p w A :
  fb_repr arena c m S -> arenas !! arena = Some m -> arena <> NULL -> in_step p w A -> sn_draft A = None ->
  forward_outcome present p w A S (forward_selected present p c arenas w).
Proof. apply forward_refines. Qed.

(** C27. A frame gets through: when the driver is given a turn within every
    hundred looks, the device takes the frame and no counter is exhausted,
    forwarding a new selection of at least sixteen by sixteen pixels shows
    it. *)
Theorem display_forward_live {Dev} (present : Dev -> Z -> Z -> Z -> Z * Dev) arena c m S arenas p w A pic x y wd h :
  fb_repr arena c m S -> arenas !! arena = Some m -> arena <> NULL -> in_step p w A -> sn_draft A = None ->
  sc_pictures S !! sc_selected S = Some pic -> pi_sequence pic <> 0 -> sc_rectangle S = (x, y, wd, h) ->
  forwarded p S pic = false -> 16 <= wd -> 16 <= h -> clear_way present wd h p w A ->
  exists p' w' A', forward_selected present p c arenas w = Some (1, p', w') /\ in_step p' w' A' /\
    sn_shown A' = Some (wd, h, rectangle_bytes (pi_committed pic) x y wd h).
Proof.
  intros Hrep Ham Har Hst Hdr Hp Hq Hr Hfw Hw Hh Hclear.
  pose proof (forward_refines present arena c m S arenas p w A Hrep Ham Har Hst Hdr) as Hout.
  unfold forward_outcome in Hout. rewrite Hp, Hr, Hfw, (proj2 (Z.eqb_neq _ _) Hq) in Hout. cbn [orb] in Hout.
  replace (_ || _ || _) with false in Hout.
  2:{ symmetry. rewrite !orb_false_iff, !Z.ltb_ge, Z.eqb_neq. rewrite (st_sequence _ _ _ Hst). by destruct Hclear. }
  destruct Hout as [(p' & w' & -> & Hnow)|(p' & w' & _ & _ & _ & [])]; [|done].
  unfold now_shown in Hnow. rewrite Hr in Hnow. destruct Hnow as (A' & HA & _ & Hs & _). by exists p', w', A'.
Qed.

(** ** Examples *)

(** A client's sixteen by sixteen frame, committed and selected. *)
Definition shot_region : fb_region :=
  mk_fbregion 0 4 0 0
    ([mk_fbreq 1 AOS_FB_CREATE 10 0 0 0 0 16 16 0 0; mk_fbreq 1 AOS_FB_WRITE 11 0 1 0 0 16 16 0 1024;
      mk_fbreq 1 AOS_FB_FLIP 12 0 1 0 0 0 0 0 0; mk_fbreq 1 AOS_FB_SELECT 13 0 1 0 0 16 16 0 0] ++ replicate 12 inhabitant)
    (replicate 16 inhabitant) (mk_smem AOS_FB_DATA_BYTES (list_to_map [(0, 7); (4, 9); (1023, 5)])) 0 0 0.

Definition shot_world : fb_world :=
  mk_fbworld {[0x1000 := shot_region]} {[0x2000 := smem_zeroed AOS_FB_ARENA_BYTES]}.

Definition shot : fb_client * fb_world :=
  match fb_pump_loop 16 0 example_client shot_world with
  | Some (_, c, w) => (c, w)
  | None => (example_client, shot_world)
  end.

Definition shot_screen : screen :=
  (spec_run empty_screen (take (fb_served 16 shot_region) (fb_pending shot_region)) (mbyte (fr_data shot_region))).1.2.

Lemma shot_repr : exists m, fb_repr 0x2000 shot.1 m shot_screen /\ fw_arenas shot.2 !! 0x2000 = Some m.
Proof.
  assert (fb_region_ok shot_region) as Hok.
  { split; try by_compute; try done. apply Forall_app. split; [|apply Forall_replicate; by split].
    repeat (apply Forall_cons; split; [by split|]). constructor. }
  destruct (fb_pump_loop_refines 0x2000 16 example_client shot_region shot_world (smem_zeroed AOS_FB_ARENA_BYTES)
    empty_screen (mbyte (fr_data shot_region)) 0 example_repr eq_refl eq_refl Hok (fun _ => eq_refl)) as (c & m & r & Hp & Hc & _).
  exists m. unfold shot. rewrite Hp. split; [exact Hc|]. apply lookup_insert_eq.
Qed.

(** A device that takes every frame and remembers what it was told. *)
Definition example_present (dev : list (Z * Z * Z)) (b w h : Z) : Z * list (Z * Z * Z) := (0, (b, w, h) :: dev).

Definition example_driver : display_driver :=
  default (mk_driver (0, 0) 0 0 0 0 0 0 0 0 0) (aos_display_init 0x2e000000 0x38000000 0x38400000 0x400000).

Definition example_dregion (request : display_request) (tail : Z) : display_region :=
  mk_dregion 0 tail 0 0 request no_response (smem_zeroed AOS_DISPLAY_CHUNK).

Definition example_dworld : display_world (list (Z * Z * Z)) :=
  mk_dworld (example_dregion (mk_dreq 0 0 0 0 0 0 0 0 0) 0) example_driver (smem_zeroed (2 ^ 32)) [] (replicate 51 true).

Definition example_producer : display_producer := mk_producer 0 0 0 0 0 0 0 0 0.

Lemma example_drv_repr : drv_repr example_driver (smem_zeroed (2 ^ 32)) empty_scanout.
Proof. by apply (display_init_repr 0x2e000000 0x38000000 0x38400000 0x400000). Qed.

Lemma example_in_step : in_step example_producer example_dworld empty_scanout.
Proof. split; [|done..]. split; [by repeat split|done|apply example_drv_repr]. Qed.

Lemma fair_replicate k : fair k (replicate k true).
Proof. induction k as [|k IH]; cbn; [done|]. exists 0%nat, (replicate k true). split_and!; [lia|done|done]. Qed.

Lemma display_pump_exact_witness :
  exists d' mem', aos_display_pump example_present example_driver
      (example_dregion (mk_dreq 1 AOS_DISPLAY_BEGIN 3 0 0 640 480 0 0) 1) (smem_zeroed (2 ^ 32)) [] =
    Some (1, d', answered (example_dregion (mk_dreq 1 AOS_DISPLAY_BEGIN 3 0 0 640 480 0 0) 1) AOS_DISPLAY_OK
                   (mk_scanout 1 0 0 false None (Some (640, 480, []))), mem', []) /\
    drv_repr d' mem' (mk_scanout 1 0 0 false None (Some (640, 480, []))).
Proof.
  apply (display_pump_exact example_present example_driver
    (example_dregion (mk_dreq 1 AOS_DISPLAY_BEGIN 3 0 0 640 480 0 0) 1) (smem_zeroed (2 ^ 32)) empty_scanout []).
  - apply example_drv_repr.
  - by repeat split.
Defined.

Lemma display_forward_exact_witness :
  forward_outcome example_present example_producer example_dworld empty_scanout shot_screen
    (forward_selected example_present example_producer shot.1 (fw_arenas shot.2) example_dworld).
Proof.
  destruct shot_repr as (m & Hc & Hm).
  apply (display_forward_exact example_present 0x2000 shot.1 m shot_screen (fw_arenas shot.2) example_producer example_dworld empty_scanout);
    [exact Hc|exact Hm|done|apply example_in_step|done].
Defined.

Definition shot_pixels (pic : picture) : list Z := rectangle_bytes (pi_committed pic) 0 0 16 16.

Lemma shot_selected :
  sc_selected shot_screen = 1 /\ sc_rectangle shot_screen = (0, 0, 16, 16) /\
  pi_sequence <$> sc_pictures shot_screen !! 1 = Some 1 /\
  (fun pic => take 5 (shot_pixels pic)) <$> sc_pictures shot_screen !! 1 = Some [7; 0; 0; 0; 9] /\
  (fun pic => last (shot_pixels pic)) <$> sc_pictures shot_screen !! 1 = Some (Some 5).
Proof. split_and!; vm_compute; reflexivity. Qed.

Lemma display_forward_live_witness :
  exists p' w' A', forward_selected example_present example_producer shot.1 (fw_arenas shot.2) example_dworld = Some (1, p', w') /\
    in_step p' w' A' /\ (exists l, sn_shown A' = Some (16, 16, l) /\ take 5 l = [7; 0; 0; 0; 9] /\ last l = Some 5).
Proof.
  destruct shot_repr as (m & Hc & Hm). destruct shot_selected as (Hsel & Hrect & Hseq & Hp1 & Hp2).
  destruct (sc_pictures shot_screen !! 1) as [pic|] eqn:Hpic; [|discriminate]. cbn [fmap option_fmap option_map] in Hseq, Hp1, Hp2.
  apply (inj Some) in Hseq, Hp1, Hp2.
  destruct (display_forward_live example_present 0x2000 shot.1 m shot_screen (fw_arenas shot.2) example_producer example_dworld
    empty_scanout pic 0 0 16 16 Hc Hm) as (p' & w' & A' & Hf & HA & Hs).
  - discriminate.
  - exact example_in_step.
  - reflexivity.
  - rewrite Hsel. exact Hpic.
  - rewrite Hseq. discriminate.
  - exact Hrect.
  - unfold forwarded. rewrite Hrect, Hsel. reflexivity.
  - lia.
  - lia.
  - split; [reflexivity|discriminate|discriminate|cbn; unfold UINT32_MAX; lia|apply fair_replicate|reflexivity].
  - exists p', w', A'. split; [exact Hf|]. split; [exact HA|]. exists (shot_pixels pic). split; [exact Hs|]. split; [exact Hp1|exact Hp2].
Defined.
