(* ===== verification/Fdt.v ===== *)
(** * Flattened device trees

    platform/guest-vmm/fdt_builder.c and fdt_builder.h, and the tree that
    [build_guest_fdt] of platform/guest-vmm/guest_vmm.c builds with them: a
    serializer that writes tokens into the first half of a buffer and
    interned property names into the second half, and closes the gap at the
    end.

    The specification is a parser of the format. A build succeeds exactly
    when both halves are large enough, and what it leaves parses to the
    calls that were made. *)

From Stdlib Require Import String Ascii.
From S2P Require Import Prelude Text PixelMem.

Definition FDT_MAGIC : Z := 0xD00DFEED.
Definition FDT_TOKEN_BEGIN_NODE : Z := 1.
Definition FDT_TOKEN_END_NODE : Z := 2.
Definition FDT_TOKEN_PROP : Z := 3.
Definition FDT_TOKEN_NOP : Z := 4.
Definition FDT_TOKEN_END : Z := 9.

(** [sizeof(fdt_header_t)] *)
Definition FDT_HEADER_BYTES : Z := 40.

Record fdt_ctx := mk_fdt {
  fx_buf : smem; fx_cap : Z; fx_struct_off : Z; fx_str_off : Z; fx_error : Z;
  fx_hdr_size : Z; fx_str_start : Z; fx_struct_start : Z }.

Definition set_fx_error (e : Z) (c : fdt_ctx) : fdt_ctx :=
  mk_fdt (fx_buf c) (fx_cap c) (fx_struct_off c) (fx_str_off c) e (fx_hdr_size c) (fx_str_start c) (fx_struct_start c).
Definition set_fx_struct (b : smem) (off : Z) (c : fdt_ctx) : fdt_ctx :=
  mk_fdt b (fx_cap c) off (fx_str_off c) (fx_error c) (fx_hdr_size c) (fx_str_start c) (fx_struct_start c).
Definition set_fx_strings (b : smem) (off : Z) (c : fdt_ctx) : fdt_ctx :=
  mk_fdt b (fx_cap c) (fx_struct_off c) off (fx_error c) (fx_hdr_size c) (fx_str_start c) (fx_struct_start c).

(** ** Emitting *)

Definition wr_be32 (m : smem) (p v : Z) : option smem :=
  smem_write m p [u8 (Z.shiftr v 24); u8 (Z.shiftr v 16); u8 (Z.shiftr v 8); u8 v].

Definition emit_u32 (c : fdt_ctx) (v : Z) : option fdt_ctx :=
  if negb (fx_error c =? 0) then Some c
  else
    let pos := fx_struct_start c + fx_struct_off c in
    if fx_str_start c <? pos + 4 then Some (set_fx_error (-1) c)
    else b ← wr_be32 (fx_buf c) pos v; Some (set_fx_struct b (fx_struct_off c + 4) c).

Definition emit_bytes (c : fdt_ctx) (data : list Z) : option fdt_ctx :=
  let len := Z.of_nat (length data) in
  if negb (fx_error c =? 0) || (len =? 0) then Some c
  else
    let pos := fx_struct_start c + fx_struct_off c in
    if fx_str_start c <? pos + len then Some (set_fx_error (-1) c)
    else b ← smem_write (fx_buf c) pos data; Some (set_fx_struct b (fx_struct_off c + len) c).

(** The loop of [emit_str] over the bytes of the string, then the NUL. *)
Fixpoint emit_chars (c : fdt_ctx) (s : list Z) : option fdt_ctx :=
  match s with
  | [] => emit_bytes c [0]
  | x :: s => c ← emit_bytes c [x]; emit_chars c s
  end.

Definition emit_str (c : fdt_ctx) (s : list Z) : option fdt_ctx :=
  if negb (fx_error c =? 0) then Some c else emit_chars c s.

(** At most three zeros, and the test that ends the loop. *)
Fixpoint align_loop (fuel : nat) (c : fdt_ctx) : option fdt_ctx :=
  match fuel with
  | O => None
  | S fuel =>
      if (fx_error c =? 0) && negb (Z.land (fx_struct_off c) 3 =? 0) then c ← emit_bytes c [0]; align_loop fuel c
      else Some c
  end.

Definition emit_align4 (c : fdt_ctx) : option fdt_ctx := align_loop 4 c.

(** ** The string table *)

(** Does the entry at [k] equal [s]? *)
Fixpoint entry_equals (m : smem) (k : Z) (s : list Z) : option bool :=
  match s with
  | [] => b ← sbyte m k; Some (b =? 0)
  | x :: s => b ← sbyte m k; if negb (b =? 0) && (b =? x) then entry_equals m (k + 1) s else Some false
  end.

(** The index of the entry's terminator. *)
Fixpoint entry_end (fuel : nat) (m : smem) (base used i : Z) : option Z :=
  match fuel with
  | O => None
  | S fuel =>
      if i <? used then b ← sbyte m (base + i); if negb (b =? 0) then entry_end fuel m base used (i + 1) else Some i
      else Some i
  end.

Fixpoint str_search (fuel : nat) (m : smem) (base used i : Z) (s : list Z) : option (option Z) :=
  match fuel with
  | O => None
  | S fuel =>
      if i <? used then
        e ← entry_equals m (base + i) s;
        if (e : bool) then Some (Some i)
        else j ← entry_end (Z.to_nat (used + 1)) m base used i; str_search fuel m base used (j + 1) s
      else Some None
  end.

(** The loop that appends a string, then its NUL. *)
Fixpoint str_append (c : fdt_ctx) (pos : Z) (s : list Z) : option fdt_ctx :=
  if fx_cap c <=? pos then Some (set_fx_error (-2) c)
  else
    match s with
    | [] => b ← smem_write (fx_buf c) pos [0]; Some (set_fx_strings b (fx_str_off c + 1) c)
    | x :: s => b ← smem_write (fx_buf c) pos [x]; str_append (set_fx_strings b (fx_str_off c + 1) c) (pos + 1) s
    end.

Definition str_intern (c : fdt_ctx) (s : list Z) : option (Z * fdt_ctx) :=
  if negb (fx_error c =? 0) then Some (0, c)
  else
    found ← str_search (Z.to_nat (fx_str_off c + 1)) (fx_buf c) (fx_str_start c) (fx_str_off c) 0 s;
    match found with
    | Some i => Some (u32 i, c)
    | None =>
        let off := u32 (fx_str_off c) in
        c ← str_append c (fx_str_start c + fx_str_off c) s;
        Some (if negb (fx_error c =? 0) then 0 else off, c)
    end.

(** ** The interface *)

Definition fdt_init (buf : smem) (cap : Z) : option fdt_ctx :=
  let c := mk_fdt buf cap 0 0 0 (FDT_HEADER_BYTES + 16) (cap / 2) (FDT_HEADER_BYTES + 16) in
  if cap <? fx_hdr_size c + 64 then Some (set_fx_error (-3) c)
  else b ← smem_zero buf 0 (fx_hdr_size c); Some (set_fx_struct b 0 c).

Definition fdt_begin_node (c : fdt_ctx) (name : list Z) : option fdt_ctx :=
  c ← emit_u32 c FDT_TOKEN_BEGIN_NODE; c ← emit_str c name; emit_align4 c.

Definition fdt_end_node (c : fdt_ctx) : option fdt_ctx := emit_u32 c FDT_TOKEN_END_NODE.

Definition emit_prop_header (c : fdt_ctx) (name : list Z) (len : Z) : option fdt_ctx :=
  '(nameoff, c) ← str_intern c name;
  c ← emit_u32 c FDT_TOKEN_PROP; c ← emit_u32 c len; emit_u32 c nameoff.

Definition fdt_prop_u32 (c : fdt_ctx) (name : list Z) (val : Z) : option fdt_ctx :=
  c ← emit_prop_header c name 4; emit_u32 c val.

Definition emit_u64 (c : fdt_ctx) (val : Z) : option fdt_ctx :=
  c ← emit_u32 c (u32 (Z.shiftr val 32)); emit_u32 c (u32 (Z.land val 0xFFFFFFFF)).

Definition fdt_prop_u64 (c : fdt_ctx) (name : list Z) (val : Z) : option fdt_ctx :=
  c ← emit_prop_header c name 8; emit_u64 c val.

Definition fdt_prop_string (c : fdt_ctx) (name val : list Z) : option fdt_ctx :=
  c ← emit_prop_header c name (u32 (Z.of_nat (length val) + 1)); c ← emit_str c val; emit_align4 c.

Definition reg_name : list Z := chars "reg".

Definition fdt_prop_reg64 (c : fdt_ctx) (base size : Z) : option fdt_ctx :=
  c ← emit_prop_header c reg_name 16; c ← emit_u64 c base; emit_u64 c size.

Fixpoint emit_pairs (c : fdt_ctx) (regs : list (Z * Z)) : option fdt_ctx :=
  match regs with
  | [] => Some c
  | (base, size) :: regs => c ← emit_u64 c base; c ← emit_u64 c size; emit_pairs c regs
  end.

(** The parallel arrays of bases and sizes, as pairs. *)
Definition fdt_prop_reg64_n (c : fdt_ctx) (regs : list (Z * Z)) : option fdt_ctx :=
  c ← emit_prop_header c reg_name (u32 (Z.of_nat (length regs) * 16)); emit_pairs c regs.

Fixpoint emit_cells (c : fdt_ctx) (vals : list Z) : option fdt_ctx :=
  match vals with
  | [] => Some c
  | v :: vals => c ← emit_u32 c v; emit_cells c vals
  end.

Definition fdt_prop_u32_array (c : fdt_ctx) (name : list Z) (vals : list Z) : option fdt_ctx :=
  c ← emit_prop_header c name (u32 (Z.of_nat (length vals) * 4)); emit_cells c vals.

(** [while (n & 3) n++] *)
Fixpoint round_up (fuel : nat) (n : Z) : option Z :=
  match fuel with
  | O => None
  | S fuel => if negb (Z.land n 3 =? 0) then round_up fuel (n + 1) else Some n
  end.

(** The padding bytes that lie inside the buffer. *)
Fixpoint pad_total (fuel : nat) (m : smem) (cap total : Z) : option (smem * Z) :=
  match fuel with
  | O => None
  | S fuel =>
      if negb (Z.land total 3 =? 0) then
        m ← (if total <? cap then smem_write m total [0] else Some m); pad_total fuel m cap (total + 1)
      else Some (m, total)
  end.

Definition write_header (m : smem) (total struct_start str_start str_size struct_size : Z) : option smem :=
  m ← wr_be32 m 0 FDT_MAGIC;
  m ← wr_be32 m 4 (u32 total);
  m ← wr_be32 m 8 (u32 struct_start);
  m ← wr_be32 m 12 (u32 str_start);
  m ← wr_be32 m 16 FDT_HEADER_BYTES;
  m ← wr_be32 m 20 17;
  m ← wr_be32 m 24 16;
  m ← wr_be32 m 28 0;
  m ← wr_be32 m 32 (u32 str_size);
  wr_be32 m 36 (u32 struct_size).

(** [for (i = i; n more; i++) dst[i] = src[i]], in place. *)
Fixpoint copy_down (n : nat) (m : smem) (dst src i : Z) : option smem :=
  match n with
  | O => Some m
  | S n => b ← sbyte m (src + i); m ← smem_write m (dst + i) [b]; copy_down n m dst src (i + 1)
  end.

Definition fdt_finish (c : fdt_ctx) : option (Z * fdt_ctx) :=
  if negb (fx_error c =? 0) then Some (0, c)
  else
    c ← emit_u32 c FDT_TOKEN_END;
    if negb (fx_error c =? 0) then Some (0, c)
    else
      let struct_size := fx_struct_off c in
      let str_size := fx_str_off c in
      str_new_start ← round_up 4 (fx_struct_start c + struct_size);
      if fx_cap c <? str_new_start + str_size then Some (0, set_fx_error (-4) c)
      else
        m ← copy_down (Z.to_nat str_size) (fx_buf c) str_new_start (fx_str_start c) 0;
        '(m, total) ← pad_total 4 m (fx_cap c) (str_new_start + str_size);
        m ← write_header m total (fx_struct_start c) str_new_start str_size struct_size;
        Some (total, set_fx_struct m (fx_struct_off c) c).

(** ** A sequence of calls *)

Inductive fdt_call :=
  | Begin (name : list Z)
  | End_
  | PropU32 (name : list Z) (val : Z)
  | PropU64 (name : list Z) (val : Z)
  | PropString (name val : list Z)
  | PropReg64 (base size : Z)
  | PropReg64N (regs : list (Z * Z))
  | PropU32Array (name : list Z) (vals : list Z).

Definition fdt_do (c : fdt_ctx) (k : fdt_call) : option fdt_ctx :=
  match k with
  | Begin name => fdt_begin_node c name
  | End_ => fdt_end_node c
  | PropU32 name val => fdt_prop_u32 c name val
  | PropU64 name val => fdt_prop_u64 c name val
  | PropString name val => fdt_prop_string c name val
  | PropReg64 base size => fdt_prop_reg64 c base size
  | PropReg64N regs => fdt_prop_reg64_n c regs
  | PropU32Array name vals => fdt_prop_u32_array c name vals
  end.

Fixpoint fdt_calls (c : fdt_ctx) (ks : list fdt_call) : option fdt_ctx :=
  match ks with
  | [] => Some c
  | k :: ks => c ← fdt_do c k; fdt_calls c ks
  end.

Definition fdt_build (buf : smem) (cap : Z) (ks : list fdt_call) : option (Z * fdt_ctx) :=
  c ← fdt_init buf cap; c ← fdt_calls c ks; fdt_finish c.

(** ** The guest's tree *)

Definition GUEST_RAM_BASE : Z := 0x80000000.
Definition GUEST_RAM_SIZE : Z := 0x10000000.
Definition PLIC_BASE : Z := 0x0c000000.
Definition PLIC_SIZE : Z := 0x00600000.
Definition VIRTIO_NET_BASE : Z := 0x10001000.
Definition VIRTIO_BLK_BASE : Z := 0x10002000.
Definition VIRTIO_MMIO_SIZE : Z := 0x00001000.
Definition VIRTIO_NET_IRQ : Z := 1.
Definition VIRTIO_BLK_IRQ : Z := 2.

Definition u32_ (name : string) (v : Z) : fdt_call := PropU32 (chars name) v.
Definition string_ (name v : string) : fdt_call := PropString (chars name) (chars v).
Definition cells_ (name : string) (vals : list Z) : fdt_call := PropU32Array (chars name) vals.
Definition node_ (name : string) (body : list fdt_call) : list fdt_call := Begin (chars name) :: body ++ [End_].

Definition guest_cpus : list fdt_call :=
  node_ "cpus" (
    [u32_ "#address-cells" 1; u32_ "#size-cells" 0; u32_ "timebase-frequency" 10000000] ++
    node_ "cpu@0" (
      [string_ "device_type" "cpu"; string_ "compatible" "riscv"; string_ "riscv,isa" "rv64imafdc";
       string_ "mmu-type" "riscv,sv48"; u32_ "reg" 0; string_ "status" "okay"] ++
      node_ "interrupt-controller"
        [u32_ "#interrupt-cells" 1; string_ "compatible" "riscv,cpu-intc"; cells_ "interrupt-controller" [];
         u32_ "phandle" 1])).

Definition guest_plic : list fdt_call :=
  node_ "plic@c000000"
    [string_ "compatible" "sifive,plic-1.0.0"; u32_ "#interrupt-cells" 1; u32_ "#address-cells" 0;
     cells_ "interrupt-controller" []; PropReg64 PLIC_BASE PLIC_SIZE; u32_ "riscv,ndev" 31;
     cells_ "interrupts-extended" [1; 11; 1; 9]; u32_ "phandle" 2].

Definition guest_virtio (name : string) (base irq : Z) : list fdt_call :=
  node_ name
    [string_ "compatible" "virtio,mmio"; PropReg64 base VIRTIO_MMIO_SIZE; cells_ "interrupts" [irq];
     u32_ "interrupt-parent" 2].

Definition guest_tree : list fdt_call :=
  node_ EmptyString (
    [u32_ "#address-cells" 2; u32_ "#size-cells" 2; string_ "compatible" "riscv-virtio";
     string_ "model" "riscv-virtio,qemu"] ++
    guest_cpus ++
    node_ "memory@80000000" [string_ "device_type" "memory"; PropReg64 GUEST_RAM_BASE GUEST_RAM_SIZE] ++
    node_ "soc" (
      [u32_ "#address-cells" 2; u32_ "#size-cells" 2; u32_ "#interrupt-cells" 1; string_ "compatible" "simple-bus";
       cells_ "ranges" []] ++
      guest_plic ++
      guest_virtio "virtio_mmio@10001000" VIRTIO_NET_BASE VIRTIO_NET_IRQ ++
      guest_virtio "virtio_mmio@10002000" VIRTIO_BLK_BASE VIRTIO_BLK_IRQ) ++
    node_ "chosen" [string_ "bootargs" "console=hvc0 root=/dev/vda rw earlycon=sbi loglevel=8"]).

Definition build_guest_fdt (s_fdt_buf : smem) : option (Z * fdt_ctx) := fdt_build s_fdt_buf 4096 guest_tree.

(** ** The format, as a parser *)

Definition be32 (v : Z) : list Z := [u8 (Z.shiftr v 24); u8 (Z.shiftr v 16); u8 (Z.shiftr v 8); u8 v].

Definition be_val (l : list Z) : Z := foldl (fun acc b => acc * 256 + b) 0 l.

Definition word_at (l : list Z) (k : nat) : option Z :=
  if (k + 4 <=? length l)%nat then Some (be_val (take 4 (drop k l))) else None.

(** Zeros up to a multiple of four. *)
Definition pad4 (n : nat) : nat := Z.to_nat ((- Z.of_nat n) mod 4).

Inductive fdt_event :=
  | EvBegin (name : list Z)
  | EvEnd
  | EvProp (name bytes : list Z).

(** The tokens of the structure block; [strings] is the string block. *)
Fixpoint parse_struct (fuel : nat) (strings l : list Z) : option (list fdt_event) :=
  match fuel with
  | O => None
  | S fuel =>
      t ← word_at l 0;
      if t =? FDT_TOKEN_BEGIN_NODE then
        let name := c_string (drop 4 l) in
        let used := (4 + (length name + 1) + pad4 (length name + 1))%nat in
        if (used <=? length l)%nat then evs ← parse_struct fuel strings (drop used l); Some (EvBegin name :: evs) else None
      else if t =? FDT_TOKEN_END_NODE then evs ← parse_struct fuel strings (drop 4 l); Some (EvEnd :: evs)
      else if t =? FDT_TOKEN_PROP then
        len ← word_at l 4;
        nameoff ← word_at l 8;
        let used := (12 + Z.to_nat len + pad4 (Z.to_nat len))%nat in
        if (used <=? length l)%nat && (nameoff <? Z.of_nat (length strings)) then
          evs ← parse_struct fuel strings (drop used l);
          Some (EvProp (c_string (drop (Z.to_nat nameoff) strings)) (take (Z.to_nat len) (drop 12 l)) :: evs)
        else None
      else if t =? FDT_TOKEN_NOP then parse_struct fuel strings (drop 4 l)
      else if (t =? FDT_TOKEN_END) && (length l =? 4)%nat then Some []
      else None
  end.

(** A whole blob: the header, the blocks inside it, and an empty memory
    reservation map. *)
Definition parse_fdt (l : list Z) : option (list fdt_event) :=
  magic ← word_at l 0;
  total ← word_at l 4;
  so ← word_at l 8;
  st ← word_at l 12;
  rsv ← word_at l 16;
  version ← word_at l 20;
  compatible ← word_at l 24;
  st_size ← word_at l 32;
  so_size ← word_at l 36;
  if (magic =? FDT_MAGIC) && (total =? Z.of_nat (length l)) && (version =? 17) && (compatible =? 16) &&
     (so mod 4 =? 0) && (so + so_size <=? total) && (st + st_size <=? total) &&
     bool_decide (aslice l rsv 16 = replicate 16 0)
  then parse_struct (length l) (aslice l st st_size) (aslice l so so_size) else None.

(** ** What a sequence of calls means *)

Definition be64 (v : Z) : list Z := be32 (u32 (Z.shiftr v 32)) ++ be32 (u32 (Z.land v 0xFFFFFFFF)).

Definition call_event (k : fdt_call) : fdt_event :=
  match k with
  | Begin name => EvBegin name
  | End_ => EvEnd
  | PropU32 name v => EvProp name (be32 v)
  | PropU64 name v => EvProp name (be64 v)
  | PropString name v => EvProp name (v ++ [0])
  | PropReg64 base size => EvProp reg_name (be64 base ++ be64 size)
  | PropReg64N regs => EvProp reg_name (mjoin ((fun r => be64 r.1 ++ be64 r.2) <$> regs))
  | PropU32Array name vals => EvProp name (mjoin (be32 <$> vals))
  end.

(** ** The bytes a sequence of calls needs *)

(** Names, each with its terminator. *)
Definition table (strs : list (list Z)) : list Z := mjoin ((fun s => s ++ [0]) <$> strs).

Definition intern (strs : list (list Z)) (name : list Z) : list (list Z) :=
  if decide (name ∈ strs) then strs else strs ++ [name].

Fixpoint name_off (strs : list (list Z)) (name : list Z) : nat :=
  match strs with
  | [] => 0
  | s :: strs => if decide (s = name) then 0 else length s + 1 + name_off strs name
  end%nat.

(** The bytes of an event, given the offset of its name. *)
Definition event_bytes (off : nat) (e : fdt_event) : list Z :=
  match e with
  | EvBegin name => be32 FDT_TOKEN_BEGIN_NODE ++ name ++ [0] ++ replicate (pad4 (length name + 1)) 0
  | EvEnd => be32 FDT_TOKEN_END_NODE
  | EvProp _ bytes =>
      be32 FDT_TOKEN_PROP ++ be32 (u32 (Z.of_nat (length bytes))) ++ be32 (Z.of_nat off) ++ bytes ++
      replicate (pad4 (length bytes)) 0
  end.

Definition event_strs (strs : list (list Z)) (e : fdt_event) : list (list Z) :=
  match e with EvProp name _ => intern strs name | _ => strs end.

Definition event_off (strs : list (list Z)) (e : fdt_event) : nat :=
  match e with EvProp name _ => name_off (intern strs name) name | _ => 0%nat end.

(** The names and the structure bytes of a sequence of events, when [strs]
    is interned already. *)
Fixpoint names (strs : list (list Z)) (es : list fdt_event) : list (list Z) :=
  match es with
  | [] => strs
  | e :: es => names (event_strs strs e) es
  end.

Fixpoint tokens (strs : list (list Z)) (es : list fdt_event) : list Z :=
  match es with
  | [] => []
  | e :: es => event_bytes (event_off strs e) e ++ tokens (event_strs strs e) es
  end.

(** Structure bytes and names fit their half of the buffer. *)
Definition room (cap : Z) (b : list Z) (strs : list (list Z)) : bool :=
  (56 + Z.of_nat (length b) <=? cap / 2) && (cap / 2 + Z.of_nat (length (table strs)) <=? cap).

(** Arguments that are C strings and machine words. *)
Definition call_ok (k : fdt_call) : Prop :=
  match k with
  | Begin name => text_ok name
  | End_ => True
  | PropU32 name v => text_ok name /\ is_u32 v
  | PropU64 name v => text_ok name /\ is_u64 v
  | PropString name v => text_ok name /\ text_ok v
  | PropReg64 base size => is_u64 base /\ is_u64 size
  | PropReg64N regs => Forall (fun r => is_u64 r.1 /\ is_u64 r.2) regs
  | PropU32Array name vals => text_ok name /\ Forall is_u32 vals
  end.

#[export] Instance call_ok_dec k : Decision (call_ok k).
Proof. destruct k; cbn [call_ok]; unfold text_ok, is_u32, is_u64; apply _. Defined.

(** ** The context follows the layout *)

Record fdt_ok (cap : Z) (c : fdt_ctx) (b : list Z) (strs : list (list Z)) : Prop := {
  fo_error : fx_error c = 0;
  fo_cap : fx_cap c = cap /\ sm_size (fx_buf c) = cap;
  fo_starts : fx_struct_start c = 56 /\ fx_str_start c = cap / 2;
  fo_offs : fx_struct_off c = Z.of_nat (length b) /\ fx_str_off c = Z.of_nat (length (table strs));
  fo_struct : holds (fx_buf c) 0 (replicate 56 0 ++ b);
  fo_strings : holds (fx_buf c) (cap / 2) (table strs);
  fo_names : Forall text_ok strs /\ NoDup strs }.

(** While there is room the context holds the layout; after that it is in
    error. *)
Definition follows (cap : Z) (c : fdt_ctx) (b : list Z) (strs : list (list Z)) : Prop :=
  if room cap b strs then fdt_ok cap c b strs else fx_error c <> 0.

Lemma room_iff cap b strs :
  room cap b strs = true <->
  56 + Z.of_nat (length b) <= cap / 2 /\ cap / 2 + Z.of_nat (length (table strs)) <= cap.
Proof. unfold room. by rewrite andb_true_iff, !Z.leb_le. Qed.

Lemma room_app cap b l strs : room cap b strs = false -> room cap (b ++ l) strs = false.
Proof.
  rewrite <- !not_true_iff_false, !room_iff, length_app. lia.
Qed.

Lemma follows_dead cap c b b' strs strs' :
  fx_error c <> 0 -> (room cap b strs = false -> room cap b' strs' = false) ->
  follows cap c b strs -> follows cap c b' strs'.
Proof.
  intros He Hr. unfold follows. destruct (room cap b strs); [by intros []|]. intros _. by rewrite Hr.
Qed.

(** An error makes every emission a no-op. *)
Lemma emit_bytes_dead c l : fx_error c <> 0 -> emit_bytes c l = Some c.
Proof. intros He. unfold emit_bytes. by rewrite (proj2 (Z.eqb_neq _ _) He). Qed.

Lemma emit_bytes_follows cap c b strs l :
  follows cap c b strs -> exists c', emit_bytes c l = Some c' /\ follows cap c' (b ++ l) strs.
Proof.
  intros Hf. destruct (Z.eq_dec (fx_error c) 0) as [He|He]; cycle 1.
  { exists c. rewrite emit_bytes_dead by done. split; [done|]. revert Hf. apply follows_dead; [done|]. apply room_app. }
  unfold follows in Hf. destruct (room cap b strs) eqn:Hr; [|done].
  apply room_iff in Hr. destruct Hf as [_ [Hc Hs] [H1 H2] [H3 H4] Hb Ht Hn].
  unfold emit_bytes. rewrite He. cbn [Z.eqb negb orb].
  destruct (Z.eqb_spec (Z.of_nat (length l)) 0) as [Hl|Hl].
  { exists c. split; [done|]. assert (l = []) as -> by (destruct l; [done|cbn in Hl; lia]).
    unfold follows. rewrite app_nil_r, (proj2 (room_iff _ _ _)) by done. done. }
  rewrite H1, H2, H3. destruct (Z.ltb_spec (cap / 2) (56 + Z.of_nat (length b) + Z.of_nat (length l))).
  - eexists. split; [done|]. unfold follows.
    destruct (room cap (b ++ l) strs) eqn:Hr2; [|done]. apply room_iff in Hr2. rewrite length_app in Hr2. lia.
  - destruct (holds_write (fx_buf c) (56 + Z.of_nat (length b)) l) as (m & -> & Hm & Hz & Hk); [lia..|].
    cbn [mbind option_bind]. eexists. split; [done|]. unfold follows.
    rewrite (proj2 (room_iff _ _ _)) by (rewrite length_app; lia).
    split; cbn [set_fx_struct fx_error fx_cap fx_buf fx_struct_start fx_str_start fx_struct_off fx_str_off];
      rewrite ?length_app; [done|lia|done|lia|..|done].
    + rewrite app_assoc, holds_app. split.
      * apply Hk; [done|]. rewrite length_app, length_replicate. lia.
      * rewrite length_app, length_replicate. replace (0 + _) with (56 + Z.of_nat (length b)) by lia. done.
    + apply Hk; [done|lia].
Qed.

Lemma emit_u32_bytes c v : emit_u32 c v = emit_bytes c (be32 v).
Proof. unfold emit_u32, emit_bytes. cbn [length be32]. by rewrite orb_false_r. Qed.

Lemma emit_u32_follows cap c b strs v :
  follows cap c b strs -> exists c', emit_u32 c v = Some c' /\ follows cap c' (b ++ be32 v) strs.
Proof. rewrite emit_u32_bytes. apply emit_bytes_follows. Qed.

(** Chains of emissions: each step appends its bytes. *)
Ltac emit_step H c' :=
  let Hf := fresh "Hf" in
  let Hs := fresh "Hs" in
  edestruct H as (c' & Hs & Hf); [eassumption|]; rewrite Hs; cbn [mbind option_bind]; clear Hs.

Lemma emit_chars_follows cap strs s : forall c b,
  follows cap c b strs -> exists c', emit_chars c s = Some c' /\ follows cap c' (b ++ s ++ [0]) strs.
Proof.
  induction s as [|x s IH]; intros c b Hf; cbn [emit_chars]; [by apply emit_bytes_follows|].
  emit_step emit_bytes_follows c1. destruct (IH c1 _ Hf0) as (c2 & -> & Hf2). exists c2. split; [done|].
  by rewrite <- app_assoc in Hf2.
Qed.

Lemma emit_str_follows cap c b strs s :
  follows cap c b strs -> exists c', emit_str c s = Some c' /\ follows cap c' (b ++ s ++ [0]) strs.
Proof.
  intros Hf. unfold emit_str. destruct (Z.eqb_spec (fx_error c) 0); cbn [negb]; [by apply emit_chars_follows|].
  exists c. split; [done|]. revert Hf. apply follows_dead; [done|]. apply room_app.
Qed.

Lemma pad4_bound n : (pad4 n < 4)%nat.
Proof. unfold pad4. Z.to_euclidean_division_equations. lia. Qed.

Lemma pad4_zero n : Z.of_nat n mod 4 = 0 <-> pad4 n = 0%nat.
Proof. unfold pad4. Z.to_euclidean_division_equations. lia. Qed.

Lemma pad4_spec n : (Z.of_nat n + Z.of_nat (pad4 n)) mod 4 = 0.
Proof. unfold pad4. Z.to_euclidean_division_equations. lia. Qed.

Lemma pad4_succ n : pad4 n <> 0%nat -> pad4 n = S (pad4 (n + 1)).
Proof. unfold pad4. Z.to_euclidean_division_equations. lia. Qed.

Lemma pad4_shift n k : Z.of_nat n mod 4 = 0 -> pad4 (n + k) = pad4 k.
Proof. unfold pad4. intros. f_equal. Z.to_euclidean_division_equations. lia. Qed.

Lemma land3 n : 0 <= n -> Z.land n 3 = n mod 4.
Proof. intros. change 3 with (Z.ones 2). by rewrite Z.land_ones. Qed.

Lemma align_loop_follows cap strs fuel : forall c b,
  follows cap c b strs -> (pad4 (length b) < fuel)%nat ->
  exists c', align_loop fuel c = Some c' /\ follows cap c' (b ++ replicate (pad4 (length b)) 0) strs.
Proof.
  induction fuel as [|fuel IH]; intros c b Hf Hp; [lia|]. cbn [align_loop].
  destruct (Z.eqb_spec (fx_error c) 0) as [He|He]; cbn [andb]; cycle 1.
  { exists c. split; [done|]. revert Hf. apply follows_dead; [done|]. apply room_app. }
  assert (fx_struct_off c = Z.of_nat (length b)) as ->.
  { unfold follows in Hf. destruct (room cap b strs); [apply Hf|done]. }
  rewrite land3 by lia. destruct (Z.eqb_spec (Z.of_nat (length b) mod 4) 0) as [Hz|Hz]; cbn [negb].
  - exists c. split; [done|]. apply pad4_zero in Hz. rewrite Hz. by rewrite app_nil_r.
  - emit_step emit_bytes_follows c1. rewrite pad4_zero in Hz. apply pad4_succ in Hz.
    destruct (IH c1 _ Hf0) as (c2 & -> & Hf2); rewrite length_app in *; cbn [length] in *; [lia|].
    exists c2. split; [done|]. rewrite Hz. by rewrite <- app_assoc in Hf2.
Qed.

Lemma emit_align4_follows cap c b strs :
  follows cap c b strs ->
  exists c', emit_align4 c = Some c' /\ follows cap c' (b ++ replicate (pad4 (length b)) 0) strs.
Proof. intros. apply align_loop_follows; [done|]. pose proof (pad4_bound (length b)). lia. Qed.

(** ** The string table *)

Lemma entry_equals_spec m s : forall k e,
  holds m k (e ++ [0]) -> text_ok e -> text_ok s -> entry_equals m k s = Some (bool_decide (e = s)).
Proof.
  unfold text_ok. induction s as [|x s IH]; intros k [|y e] Hh He Hs; cbn [entry_equals];
    apply holds_cons in Hh as [-> Hh]; cbn [mbind option_bind]; try done.
  - apply Forall_cons in He as [? _]. rewrite (proj2 (Z.eqb_neq _ _)) by lia. by rewrite bool_decide_eq_false_2.
  - apply Forall_cons in He as [? He]. apply Forall_cons in Hs as [? Hs].
    rewrite (proj2 (Z.eqb_neq y 0)) by lia. cbn [negb andb]. destruct (Z.eqb_spec y x) as [->|Hne].
    + rewrite (IH _ e) by done. f_equal. apply bool_decide_ext. naive_solver.
    + by rewrite bool_decide_eq_false_2 by naive_solver.
Qed.

Lemma entry_end_spec m base used e : forall fuel i,
  holds m (base + i) (e ++ [0]) -> text_ok e -> i + Z.of_nat (length e) < used -> (length e < fuel)%nat ->
  entry_end fuel m base used i = Some (i + Z.of_nat (length e)).
Proof.
  induction e as [|x e IH]; intros [|fuel] i Hh He Hu Hf; cbn [length] in *; try lia; cbn [entry_end];
    rewrite (proj2 (Z.ltb_lt _ _)) by lia; apply holds_cons in Hh as [-> Hh]; cbn [mbind option_bind].
  - cbn [Z.eqb negb]. f_equal. lia.
  - apply Forall_cons in He as [? He]. rewrite (proj2 (Z.eqb_neq x 0)) by lia. cbn [negb].
    rewrite IH; [f_equal; lia| |done|lia|lia]. by rewrite Z.add_assoc.
Qed.

Lemma table_app a b : table (a ++ b) = table a ++ table b.
Proof. unfold table. by rewrite fmap_app, join_app. Qed.

Lemma table_cons s strs : table (s :: strs) = (s ++ [0]) ++ table strs.
Proof. done. Qed.

Lemma length_le_table strs : (length strs <= length (table strs))%nat.
Proof.
  induction strs as [|s strs IH]; [done|]. rewrite table_cons, !length_app. cbn [length]. lia.
Qed.

Lemma name_off_spec strs s :
  s ∈ strs -> exists post, drop (name_off strs s) (table strs) = s ++ 0 :: post.
Proof.
  induction strs as [|e strs IH]; [by intros ?%elem_of_nil|]. rewrite table_cons. cbn [name_off]. intros Hs.
  case_decide as He.
  - subst e. exists (table strs). by rewrite <- app_assoc.
  - destruct IH as [post Hp]; [set_solver|]. exists post. rewrite <- Hp.
    rewrite drop_app_ge by (rewrite length_app; cbn; lia). f_equal. rewrite length_app. cbn. lia.
Qed.

Lemma name_off_lt strs s : s ∈ strs -> (name_off strs s < length (table strs))%nat.
Proof.
  intros [post Hp]%name_off_spec. apply (f_equal length) in Hp. rewrite length_drop, length_app in Hp. cbn in Hp. lia.
Qed.

Lemma name_off_app strs strs' s : s ∈ strs -> name_off (strs ++ strs') s = name_off strs s.
Proof.
  induction strs as [|e strs IH]; [by intros ?%elem_of_nil|]. cbn. intros. case_decide; [done|].
  rewrite IH; [done|set_solver].
Qed.

Lemma name_off_fresh strs s : s ∉ strs -> name_off (strs ++ [s]) s = length (table strs).
Proof.
  induction strs as [|e strs IH]; intros Hs; cbn [app name_off]; [by rewrite decide_True|].
  rewrite decide_False by set_solver. rewrite IH by set_solver. rewrite table_cons, !length_app. cbn. lia.
Qed.

Lemma str_search_spec m base s rest : forall fuel i,
  holds m (base + i) (table rest) -> Forall text_ok rest -> text_ok s -> 0 <= i -> (length rest < fuel)%nat ->
  str_search fuel m base (i + Z.of_nat (length (table rest))) i s =
  Some (if decide (s ∈ rest) then Some (i + Z.of_nat (name_off rest s)) else None).
Proof.
  induction rest as [|e rest IH]; intros [|fuel] i Hh Hr Hs Hi Hf; cbn [length] in Hf; try lia; cbn [str_search].
  { rewrite (proj2 (Z.ltb_ge _ _)) by (cbn; lia). rewrite decide_False by set_solver. done. }
  apply Forall_cons in Hr as [He Hr]. rewrite table_cons in *. apply holds_app in Hh as [Hh Ht].
  rewrite length_app. set (n := length (e ++ [0])) in *. assert (n = length e + 1)%nat by (subst n; by rewrite length_app).
  rewrite (proj2 (Z.ltb_lt _ _)) by lia. rewrite (entry_equals_spec _ _ _ e) by done. cbn [mbind option_bind name_off].
  destruct (decide (e = s)) as [->|Hne].
  { rewrite bool_decide_eq_true_2, decide_True by set_solver. do 2 f_equal. lia. }
  rewrite bool_decide_eq_false_2 by done. rewrite (entry_end_spec _ _ _ e) by (done || lia). cbn [mbind option_bind].
  replace (i + Z.of_nat (n + length (table rest))) with (i + Z.of_nat (length e) + 1 + Z.of_nat (length (table rest))) by lia.
  replace (base + i + Z.of_nat n) with (base + (i + Z.of_nat (length e) + 1)) in Ht by lia.
  rewrite IH by (done || lia).
  destruct (decide (s ∈ rest)).
  - rewrite decide_True by set_solver. do 2 f_equal. lia.
  - by rewrite decide_False by set_solver.
Qed.

(** Appending either stores the string and its terminator or ends in error. *)
Lemma str_append_spec s : forall c pos,
  0 <= pos -> sm_size (fx_buf c) = fx_cap c ->
  if decide (pos + Z.of_nat (length s) + 1 <= fx_cap c) then
    exists m, str_append c pos s = Some (set_fx_strings m (fx_str_off c + Z.of_nat (length s) + 1) c) /\
      holds m pos (s ++ [0]) /\ keeps (fx_buf c) m pos (Z.of_nat (length s) + 1)
  else exists c', str_append c pos s = Some c' /\ fx_error c' <> 0.
Proof.
  induction s as [|x s IH]; intros c pos Hp Hc; cbn [length str_append];
    (destruct (Z.leb_spec (fx_cap c) pos); [rewrite decide_False by lia; by eexists|]).
  - rewrite decide_True by lia. destruct (holds_write (fx_buf c) pos [0]) as (m & -> & ? & ?); [lia|cbn; lia|].
    exists m. split; [cbn; do 2 f_equal; lia|done].
  - destruct (holds_write (fx_buf c) pos [x]) as (m & -> & Hm & Hk); [lia|cbn; lia|]. cbn [mbind option_bind].
    specialize (IH (set_fx_strings m (fx_str_off c + 1) c) (pos + 1)). cbn [set_fx_strings fx_cap fx_buf fx_str_off] in IH.
    specialize (IH ltac:(lia) ltac:(rewrite (proj1 Hk); lia)).
    destruct (decide (pos + Z.of_nat (S (length s)) + 1 <= fx_cap c)).
    + rewrite decide_True in IH by lia. destruct IH as (m' & -> & Hm' & Hk'). exists m'.
      split_and!; [unfold set_fx_strings; cbn [fx_buf fx_cap fx_struct_off fx_str_off fx_error fx_hdr_size fx_str_start fx_struct_start]; do 2 f_equal; lia|..].
      * apply (holds_app m' pos [x]). split; [|done]. apply Hk'; [done|cbn; lia].
      * replace (Z.of_nat (S _) + 1) with (Z.of_nat 1 + (Z.of_nat (length s) + 1)) by lia.
        eapply keeps_trans; [lia|lia|done|done].
    + rewrite decide_False in IH by lia. done.
Qed.

Lemma intern_elem strs s : s ∈ intern strs s.
Proof. unfold intern. case_decide; set_solver. Qed.

Lemma intern_prefix strs s : exists post, intern strs s = strs ++ post.
Proof. unfold intern. case_decide; [exists []; by rewrite app_nil_r|by eexists]. Qed.

Lemma room_intern cap b strs s : room cap b strs = false -> room cap b (intern strs s) = false.
Proof.
  destruct (intern_prefix strs s) as [post ->]. rewrite <- !not_true_iff_false, !room_iff, table_app, length_app. lia.
Qed.

Lemma str_intern_follows cap c b strs s :
  0 <= cap < 2 ^ 32 -> text_ok s -> follows cap c b strs ->
  exists off c', str_intern c s = Some (off, c') /\ follows cap c' b (intern strs s) /\
    (room cap b (intern strs s) = true -> off = Z.of_nat (name_off (intern strs s) s)).
Proof.
  intros Hcap Hs Hf. unfold str_intern. destruct (Z.eqb_spec (fx_error c) 0) as [He|He]; cbn [negb]; cycle 1.
  { exists 0, c. split_and!; [done|by eapply follows_dead; [|apply room_intern|]|].
    unfold follows in Hf. destruct (room cap b strs) eqn:Hr; [by destruct Hf|]. by rewrite room_intern. }
  unfold follows in Hf. destruct (room cap b strs) eqn:Hr; [|done]. apply room_iff in Hr.
  destruct Hf as [_ [Hc Hsz] [H1 H2] [H3 H4] Hb Ht [Hn Hd]]. rewrite H2, H4.
  pose proof (str_search_spec (fx_buf c) (cap / 2) s strs (Z.to_nat (Z.of_nat (length (table strs)) + 1)) 0) as Hq.
  rewrite Z.add_0_r in Hq. rewrite Z.add_0_l in Hq.
  rewrite Hq by (done || (pose proof (length_le_table strs); lia)). cbn [mbind option_bind].
  unfold intern. destruct (decide (s ∈ strs)) as [Hin|Hin].
  { rewrite Z.add_0_l. exists (u32 (Z.of_nat (name_off strs s))), c. split_and!; [done|..].
    - unfold follows. by rewrite (proj2 (room_iff _ _ _)).
    - intros _. apply u32_small. pose proof (name_off_lt _ _ Hin). unfold is_u32. lia. }
  pose proof (str_append_spec s c (cap / 2 + Z.of_nat (length (table strs))) ltac:(lia) ltac:(lia)) as Ha.
  assert (length (table (strs ++ [s])) = length (table strs) + length s + 1)%nat as Hl.
  { rewrite table_app, length_app. unfold table at 2. cbn. rewrite app_nil_r, length_app. cbn. lia. }
  destruct (decide _) as [Hfit|Hfit].
  - destruct Ha as (m & -> & Hm & Hz & Hk). cbn [mbind option_bind set_fx_strings fx_error]. rewrite He.
    eexists _, _. split_and!; [done|..].
    + unfold follows. rewrite (proj2 (room_iff _ _ _)) by lia.
      split; cbn [set_fx_strings fx_error fx_cap fx_buf fx_struct_start fx_str_start fx_struct_off fx_str_off];
        [done|lia|done|lia|..].
      * apply Hk; [done|]. rewrite length_app, length_replicate. lia.
      * rewrite table_app, holds_app. split; [apply Hk; [done|lia]|]. unfold table at 2. cbn. by rewrite app_nil_r.
      * split; [apply Forall_app; by repeat constructor|]. apply NoDup_app. split_and!; [done|set_solver|by apply NoDup_singleton].
    + intros _. cbn [Z.eqb negb]. rewrite name_off_fresh by done. apply u32_small. unfold is_u32. lia.
  - destruct Ha as (c' & -> & He'). cbn [mbind option_bind]. eexists _, _.
    assert (room cap b (strs ++ [s]) = false) as Hno by (rewrite <- not_true_iff_false, room_iff; lia).
    split_and!; [done|by unfold follows; rewrite Hno|by rewrite Hno].
Qed.

Lemma emit_prop_header_follows cap c b strs name len :
  0 <= cap < 2 ^ 32 -> text_ok name -> follows cap c b strs ->
  exists c', emit_prop_header c name len = Some c' /\
    follows cap c' (b ++ be32 FDT_TOKEN_PROP ++ be32 len ++ be32 (Z.of_nat (name_off (intern strs name) name)))
      (intern strs name).
Proof.
  intros Hcap Hn Hf. unfold emit_prop_header.
  destruct (str_intern_follows cap c b strs name) as (off & c0 & -> & Hf0 & Hoff); [done..|]. cbn [mbind option_bind].
  emit_step emit_u32_follows c1. emit_step emit_u32_follows c2.
  destruct (emit_u32_follows cap c2 _ _ off Hf2) as (c3 & -> & Hf3). exists c3. split; [done|].
  rewrite <- !app_assoc in Hf3. destruct (room cap b (intern strs name)) eqn:Hr; [by rewrite <- Hoff|].
  unfold follows in Hf3 |- *. rewrite !room_app in * by done. done.
Qed.

(** The cells of an array property. *)
Lemma emit_u64_follows cap c b strs v :
  follows cap c b strs -> exists c', emit_u64 c v = Some c' /\ follows cap c' (b ++ be64 v) strs.
Proof.
  intros Hf. unfold emit_u64, be64. emit_step emit_u32_follows c1. rewrite app_assoc. by apply emit_u32_follows.
Qed.

Lemma emit_cells_follows cap strs vals : forall c b,
  follows cap c b strs -> exists c', emit_cells c vals = Some c' /\ follows cap c' (b ++ mjoin (be32 <$> vals)) strs.
Proof.
  induction vals as [|v vals IH]; intros c b Hf; cbn [emit_cells].
  { exists c. cbn. by rewrite app_nil_r. }
  emit_step emit_u32_follows c1. cbn [fmap list_fmap mjoin list_join].
  rewrite app_assoc. by apply IH.
Qed.

Lemma emit_pairs_follows cap strs regs : forall c b,
  follows cap c b strs ->
  exists c', emit_pairs c regs = Some c' /\
    follows cap c' (b ++ mjoin ((fun r => be64 r.1 ++ be64 r.2) <$> regs)) strs.
Proof.
  induction regs as [|[base size] regs IH]; intros c b Hf; cbn [emit_pairs].
  { exists c. cbn. by rewrite app_nil_r. }
  emit_step emit_u64_follows c1. emit_step emit_u64_follows c2. cbn [fmap list_fmap mjoin list_join fst snd].
  rewrite !app_assoc. by apply IH.
Qed.

(** ** Whole calls *)

Lemma mjoin_cons (x : list Z) l : mjoin (x :: l) = x ++ mjoin l.
Proof. done. Qed.

Lemma length_be64 v : length (be64 v) = 8%nat.
Proof. done. Qed.

Lemma length_cells vals : length (mjoin (be32 <$> vals)) = (4 * length vals)%nat.
Proof. induction vals; [done|]. rewrite fmap_cons, mjoin_cons. cbn [length]. rewrite length_app, IHvals. cbn [be32 length]. lia. Qed.

Lemma length_pairs (regs : list (Z * Z)) :
  length (mjoin ((fun r => be64 r.1 ++ be64 r.2) <$> regs)) = (16 * length regs)%nat.
Proof.
  induction regs as [|[] regs IH]; [done|]. rewrite fmap_cons, mjoin_cons. cbn [length].
  rewrite !length_app, IH, !length_be64. lia.
Qed.

(** A property is a header, its bytes and the padding that aligns them. *)
Lemma prop_follows cap c b strs name len bytes body :
  0 <= cap < 2 ^ 32 -> text_ok name -> len = u32 (Z.of_nat (length bytes)) ->
  (forall c b, Z.of_nat (length b) mod 4 = 0 -> follows cap c b (intern strs name) ->
     exists c', body c = Some c' /\
       follows cap c' (b ++ bytes ++ replicate (pad4 (length bytes)) 0) (intern strs name)) ->
  Z.of_nat (length b) mod 4 = 0 -> follows cap c b strs ->
  exists c', (c ← emit_prop_header c name len; body c) = Some c' /\
    follows cap c' (b ++ event_bytes (event_off strs (EvProp name bytes)) (EvProp name bytes)) (intern strs name).
Proof.
  intros Hcap Hn -> Hbody Hb Hf.
  destruct (emit_prop_header_follows cap c b strs name (u32 (Z.of_nat (length bytes)))) as (c1 & -> & Hf1); [done..|].
  cbn [mbind option_bind]. eapply Hbody in Hf1 as (c2 & -> & Hf2);
    [|rewrite !length_app; cbn [be32 length]; Z.to_euclidean_division_equations; lia].
  exists c2. split; [done|]. cbn [event_bytes event_off]. by rewrite <- !app_assoc in Hf2.
Qed.

(** Cells need no padding. *)
Lemma unpadded cap c bytes n b strs :
  length bytes = (4 * n)%nat -> follows cap c (b ++ bytes) strs ->
  follows cap c (b ++ bytes ++ replicate (pad4 (length bytes)) 0) strs.
Proof.
  intros -> Hf. rewrite (proj1 (pad4_zero _)) by (Z.to_euclidean_division_equations; lia). cbn [replicate].
  by rewrite app_nil_r.
Qed.

Lemma reg_name_ok : text_ok reg_name.
Proof. apply (bool_decide_unpack _). by vm_compute. Qed.

Lemma call_follows cap c b strs k :
  0 <= cap < 2 ^ 32 -> call_ok k -> Z.of_nat (length b) mod 4 = 0 -> follows cap c b strs ->
  exists c', fdt_do c k = Some c' /\
    follows cap c' (b ++ event_bytes (event_off strs (call_event k)) (call_event k)) (event_strs strs (call_event k)).
Proof.
  intros Hcap Hk Hb Hf. destruct k as [name| |name v|name v|name v|base size|regs|name vals];
    cbn [fdt_do call_event call_ok event_strs] in *.
  - unfold fdt_begin_node. emit_step emit_u32_follows c1. emit_step emit_str_follows c2.
    destruct (emit_align4_follows _ _ _ _ Hf1) as (c3 & -> & Hf3). exists c3. split; [done|].
    cbn [event_bytes]. revert Hf3. rewrite <- !app_assoc, !length_app, Nat.add_assoc.
    rewrite (pad4_shift (length b + _)); [done|]. cbn [be32 length]. Z.to_euclidean_division_equations. lia.
  - by apply emit_u32_follows.
  - apply prop_follows; [done|apply Hk|done| |done..]. intros c1 b1 _ Hf1.
    destruct (emit_u32_follows _ _ _ _ v Hf1) as (c2 & -> & Hf2). exists c2. split; [done|]. by apply (unpadded _ _ _ 1).
  - apply prop_follows; [done|apply Hk|done| |done..]. intros c1 b1 _ Hf1.
    destruct (emit_u64_follows _ _ _ _ v Hf1) as (c2 & -> & Hf2). exists c2. split; [done|]. by apply (unpadded _ _ _ 2).
  - apply prop_follows; [done|apply Hk|rewrite length_app; cbn [length]; f_equal; lia| |done..]. intros c1 b1 Hb1 Hf1.
    emit_step emit_str_follows c2. destruct (emit_align4_follows _ _ _ _ Hf0) as (c3 & -> & Hf3). exists c3. split; [done|].
    revert Hf3. rewrite <- !app_assoc, length_app. by rewrite pad4_shift.
  - apply prop_follows; [done|apply reg_name_ok|done| |done..]. intros c1 b1 _ Hf1.
    emit_step emit_u64_follows c2. destruct (emit_u64_follows _ _ _ _ size Hf0) as (c3 & -> & Hf3).
    exists c3. split; [done|]. apply (unpadded _ _ _ 4); [done|]. by rewrite <- app_assoc in Hf3.
  - apply prop_follows; [done|apply reg_name_ok|rewrite length_pairs; f_equal; lia| |done..]. intros c1 b1 _ Hf1.
    destruct (emit_pairs_follows _ _ regs _ _ Hf1) as (c2 & -> & Hf2). exists c2. split; [done|].
    apply (unpadded _ _ _ (4 * length regs)); [rewrite length_pairs; lia|done].
  - apply prop_follows; [done|apply Hk|rewrite length_cells; f_equal; lia| |done..]. intros c1 b1 _ Hf1.
    destruct (emit_cells_follows _ _ vals _ _ Hf1) as (c2 & -> & Hf2). exists c2. split; [done|].
    by apply (unpadded _ _ _ (length vals)); [rewrite length_cells|].
Qed.

Lemma event_bytes_aligned off e : Z.of_nat (length (event_bytes off e)) mod 4 = 0.
Proof.
  destruct e as [name| |name bytes]; cbn [event_bytes]; [|done|];
    rewrite !length_app, length_replicate; cbn [be32 length];
    [pose proof (pad4_spec (length name + 1))|pose proof (pad4_spec (length bytes))];
    Z.to_euclidean_division_equations; lia.
Qed.

Lemma tokens_aligned es : forall strs, Z.of_nat (length (tokens strs es)) mod 4 = 0.
Proof.
  induction es as [|e es IH]; intros strs; [done|]. cbn [tokens]. rewrite length_app.
  pose proof (event_bytes_aligned (event_off strs e) e). pose proof (IH (event_strs strs e)).
  Z.to_euclidean_division_equations. lia.
Qed.

Lemma calls_follow cap ks : forall c b strs,
  0 <= cap < 2 ^ 32 -> Forall call_ok ks -> Z.of_nat (length b) mod 4 = 0 -> follows cap c b strs ->
  exists c', fdt_calls c ks = Some c' /\
    follows cap c' (b ++ tokens strs (call_event <$> ks)) (names strs (call_event <$> ks)).
Proof.
  induction ks as [|k ks IH]; intros c b strs Hcap Hk Hb Hf; cbn [fdt_calls].
  { exists c. cbn. by rewrite app_nil_r. }
  apply Forall_cons in Hk as [Hk Hks].
  destruct (call_follows cap c b strs k) as (c1 & -> & Hf1); [done..|]. cbn [mbind option_bind fmap list_fmap tokens names].
  rewrite app_assoc. apply IH; [done..| |done]. rewrite length_app.
  pose proof (event_bytes_aligned (event_off strs (call_event k)) (call_event k)).
  Z.to_euclidean_division_equations. lia.
Qed.

(** ** Closing the blob *)

(** The string table moves down in place, one byte at a time. *)
Lemma copy_down_ok dst src l : forall m i,
  0 <= i -> 0 <= dst <= src -> holds m (src + i) l ->
  exists m', copy_down (length l) m dst src i = Some m' /\ holds m' (dst + i) l /\ sm_size m' = sm_size m /\
    forall k p, holds m k p -> k + Z.of_nat (length p) <= dst + i -> holds m' k p.
Proof.
  induction l as [|x l IH]; intros m i Hi Hd Hh; cbn [length copy_down].
  { exists m. split_and!; [done| |done|done]. destruct Hh as (? & ? & ?). split_and!; [lia|cbn in *; lia|by intros []]. }
  pose proof Hh as (_ & Hsz & _). cbn [length] in Hsz. apply holds_cons in Hh as [-> Hh]. cbn [mbind option_bind].
  destruct (holds_write m (dst + i) [x]) as (m1 & -> & Hx & Hs1 & Hk1); [lia|cbn; lia|]. cbn [mbind option_bind].
  destruct (IH m1 (i + 1)) as (m2 & -> & Hl & Hs2 & Hk2); [lia|lia| |].
  { rewrite Z.add_assoc. apply Hk1; [done|cbn; lia]. }
  exists m2. split_and!; [done| |lia|].
  - apply (holds_app m2 (dst + i) [x]). split; [apply Hk2; [done|cbn; lia]|by rewrite Z.add_assoc in Hl].
  - intros k p Hp ?. apply Hk2; [apply Hk1; [done|lia]|lia].
Qed.

Lemma round_up_aligned n : 0 <= n -> n mod 4 = 0 -> round_up 4 n = Some n.
Proof. intros ? Hn. cbn [round_up]. by rewrite land3, Hn. Qed.

(** Past the end of the buffer only the total grows. *)
Lemma pad_total_past cap fuel m : forall n,
  (pad4 n < fuel)%nat -> cap <= Z.of_nat n -> pad_total fuel m cap (Z.of_nat n) = Some (m, Z.of_nat (n + pad4 n)).
Proof.
  induction fuel as [|fuel IH]; intros n Hf Hn; [lia|]. cbn [pad_total]. rewrite land3 by lia.
  destruct (Z.eqb_spec (Z.of_nat n mod 4) 0) as [Hz|Hz]; rewrite pad4_zero in Hz; cbn [negb]; [do 2 f_equal; lia|].
  apply pad4_succ in Hz. rewrite (proj2 (Z.ltb_ge _ _)) by lia. cbn [mbind option_bind].
  replace (Z.of_nat n + 1) with (Z.of_nat (n + 1)) by lia. rewrite IH by lia. do 2 f_equal. lia.
Qed.

(** Padding, of which the part inside the buffer is written. *)
Lemma pad_total_ok cap fuel : forall m n,
  (pad4 n < fuel)%nat -> sm_size m = cap -> Z.of_nat n <= cap ->
  exists m', pad_total fuel m cap (Z.of_nat n) = Some (m', Z.of_nat (n + pad4 n)) /\
    holds m' (Z.of_nat n) (replicate (Nat.min (pad4 n) (Z.to_nat cap - n)) 0) /\ sm_size m' = cap /\
    forall k p, holds m k p -> k + Z.of_nat (length p) <= Z.of_nat n -> holds m' k p.
Proof.
  intros m n. destruct (decide (Z.of_nat n = cap)) as [Hcap|Hcap]; [intros Hf Hs _|revert m n Hcap].
  { rewrite pad_total_past by lia. exists m. split_and!; [done| |done|done].
    replace (Nat.min _ _) with 0%nat by lia. split_and!; [lia|cbn; lia|by intros []]. }
  induction fuel as [|fuel IH]; intros m n Hcap Hf Hs Hc; [lia|]. cbn [pad_total]. rewrite land3 by lia.
  destruct (Z.eqb_spec (Z.of_nat n mod 4) 0) as [Hz|Hz]; rewrite pad4_zero in Hz; cbn [negb].
  - rewrite Hz in *. exists m. split_and!; [do 2 f_equal; lia| |done|done].
    split_and!; [lia|cbn; lia|by intros []].
  - apply pad4_succ in Hz. rewrite (proj2 (Z.ltb_lt _ _)) by lia.
    destruct (holds_write m (Z.of_nat n) [0]) as (m1 & -> & Hx & Hs1 & Hk1); [lia|cbn; lia|]. cbn [mbind option_bind].
    replace (Z.of_nat n + 1) with (Z.of_nat (n + 1)) by lia.
    assert (exists m2, pad_total fuel m1 cap (Z.of_nat (n + 1)) = Some (m2, Z.of_nat (n + 1 + pad4 (n + 1))) /\
      holds m2 (Z.of_nat (n + 1)) (replicate (Nat.min (pad4 (n + 1)) (Z.to_nat cap - (n + 1))) 0) /\ sm_size m2 = cap /\
      forall k p, holds m1 k p -> k + Z.of_nat (length p) <= Z.of_nat (n + 1) -> holds m2 k p) as (m2 & -> & Hl & Hs2 & Hk2).
    { destruct (decide (Z.of_nat (n + 1) = cap)) as [Hend|Hend]; [|by apply IH; lia]. rewrite pad_total_past by lia.
      exists m1. split_and!; [done| |lia|done]. replace (Nat.min _ _) with 0%nat by lia.
      split_and!; [lia|cbn; lia|by intros []]. }
    exists m2. split_and!; [do 2 f_equal; lia| |lia|].
    + replace (Nat.min _ _) with (S (Nat.min (pad4 (n + 1)) (Z.to_nat cap - (n + 1)))) by lia.
      apply (holds_app m2 _ [0]). split; [apply Hk2; [done|cbn; lia]|].
      by replace (Z.of_nat n + _) with (Z.of_nat (n + 1)) by (cbn; lia).
    + intros k p Hp ?. apply Hk2; [apply Hk1; [done|lia]|lia].
Qed.

(** The header as a run of words. *)
Fixpoint write_words (m : smem) (k : Z) (ws : list Z) : option smem :=
  match ws with
  | [] => Some m
  | w :: ws => m ← wr_be32 m k w; write_words m (k + 4) ws
  end.

Definition header_words (total struct_start str_start str_size struct_size : Z) : list Z :=
  [FDT_MAGIC; u32 total; u32 struct_start; u32 str_start; FDT_HEADER_BYTES; 17; 16; 0; u32 str_size; u32 struct_size].

Lemma write_header_words m total a b c d :
  write_header m total a b c d = write_words m 0 (header_words total a b c d).
Proof.
  unfold write_header, header_words. cbn [write_words]. repeat (apply option_bind_ext_fun; intros ?).
  by destruct (wr_be32 _ _ _).
Qed.

Lemma write_words_ok ws : forall m pre old post k,
  holds m 0 (pre ++ old ++ post) -> length old = (4 * length ws)%nat -> k = Z.of_nat (length pre) ->
  exists m', write_words m k ws = Some m' /\ holds m' 0 (pre ++ mjoin (be32 <$> ws) ++ post).
Proof.
  induction ws as [|w ws IH]; intros m pre old post k Hh Hl ->; cbn [write_words].
  { exists m. destruct old; [done|cbn in Hl; lia]. }
  rewrite <- (take_drop 4 old), <- app_assoc in Hh. unfold wr_be32.
  destruct (holds_overwrite m pre (take 4 old) (be32 w) (drop 4 old ++ post) (Z.of_nat (length pre)))
    as (m1 & Hw & Hh1 & _); [done|rewrite length_take; cbn [be32 length] in *; lia|done|].
  fold (be32 w). rewrite Hw. cbn [mbind option_bind]. rewrite app_assoc in Hh1.
  destruct (IH m1 _ _ _ (Z.of_nat (length pre) + 4) Hh1) as (m2 & -> & Hh2).
  - rewrite length_drop. cbn [length] in Hl. lia.
  - rewrite length_app. cbn [be32 length]. lia.
  - exists m2. split; [done|]. rewrite fmap_cons, mjoin_cons. by rewrite <- !app_assoc in *.
Qed.

(** The finished blob: header, reservation map, structure block, string
    block, padding. [blob_with] has [q] bytes of the padding. *)
Definition used_bytes (b : list Z) (strs : list (list Z)) : nat := (56 + length b + length (table strs))%nat.

Definition blob_with (b : list Z) (strs : list (list Z)) (q : nat) : list Z :=
  let used := used_bytes b strs in
  mjoin (be32 <$> header_words (Z.of_nat (used + pad4 used)) 56 (56 + Z.of_nat (length b))
                    (Z.of_nat (length (table strs))) (Z.of_nat (length b))) ++
  replicate 16 0 ++ b ++ table strs ++ replicate q 0.

Definition blob (b : list Z) (strs : list (list Z)) : list Z := blob_with b strs (pad4 (used_bytes b strs)).

Lemma length_blob_with b strs q : length (blob_with b strs q) = (used_bytes b strs + q)%nat.
Proof. unfold blob_with, used_bytes. rewrite !length_app, length_cells, !length_replicate. cbn [length header_words]. lia. Qed.

Lemma blob_pad b strs q r :
  pad4 (used_bytes b strs) = (q + r)%nat -> blob_with b strs q ++ replicate r 0 = blob b strs.
Proof. unfold blob. intros ->. unfold blob_with. by rewrite replicate_add, <- !app_assoc. Qed.

Lemma finish_ok cap c b strs :
  0 <= cap < 2 ^ 32 -> Z.of_nat (length b) mod 4 = 0 -> follows cap c b strs ->
  let b' := b ++ be32 FDT_TOKEN_END in
  exists n c', fdt_finish c = Some (n, c') /\
    let used := used_bytes b' strs in
    if room cap b' strs then n = Z.of_nat (used + pad4 used) /\ Z.of_nat used <= cap /\
      holds (fx_buf c') 0 (blob_with b' strs (Nat.min (pad4 used) (Z.to_nat cap - used)))
    else n = 0 /\ fx_error c' <> 0.
Proof.
  intros Hcap Hb Hf b'. unfold fdt_finish. destruct (Z.eqb_spec (fx_error c) 0) as [He|He]; cbn [negb]; cycle 1.
  { exists 0, c. split; [done|]. unfold follows in Hf. destruct (room cap b strs) eqn:Hr; [by destruct Hf|].
    unfold b'. by rewrite room_app. }
  emit_step emit_u32_follows c1. fold b' in Hf0. unfold follows in Hf0. destruct (room cap b' strs) eqn:Hr; cycle 1.
  { rewrite (proj2 (Z.eqb_neq _ _)) by done. by exists 0, c1. }
  apply room_iff in Hr. destruct Hf0 as [He1 [Hc Hsz] [H1 H2] [H3 H4] Hs Ht _]. rewrite He1, H1, H2, H3, H4, Hc. cbn [Z.eqb negb].
  assert (Z.of_nat (length b') mod 4 = 0) as Hb'.
  { unfold b'. rewrite length_app. cbn [be32 length]. Z.to_euclidean_division_equations. lia. }
  rewrite round_up_aligned by (Z.to_euclidean_division_equations; lia). cbn [mbind option_bind].
  rewrite (proj2 (Z.ltb_ge _ _)) by lia. rewrite Nat2Z.id.
  destruct (copy_down_ok (56 + Z.of_nat (length b')) (cap / 2) (table strs) (fx_buf c1) 0) as (m1 & -> & Hm1 & Hz1 & Hk1);
    [lia|lia|by rewrite Z.add_0_r|]. cbn [mbind option_bind]. rewrite Z.add_0_r in Hm1, Hk1.
  set (used := used_bytes b' strs). assert (used = (56 + length b' + length (table strs))%nat) as Hu by done.
  replace (56 + Z.of_nat (length b') + Z.of_nat (length (table strs))) with (Z.of_nat used) by lia.
  pose proof (pad4_spec used). pose proof (pad4_bound used).
  set (q := Nat.min (pad4 used) (Z.to_nat cap - used)).
  destruct (pad_total_ok cap 4 m1 used) as (m2 & -> & Hm2 & Hz2 & Hk2); [lia..|]. cbn [mbind option_bind]. fold q in Hm2.
  rewrite write_header_words.
  assert (holds m2 0 ([] ++ replicate 40 0 ++ replicate 16 0 ++ b' ++ table strs ++ replicate q 0)) as Hall.
  { rewrite app_nil_l, app_assoc. change (replicate 40 0 ++ replicate 16 0) with (replicate 56 0).
    rewrite app_assoc, !holds_app, <- holds_app, !length_app, length_replicate. split_and!.
    - apply Hk2; [apply Hk1; [done|]|]; rewrite length_app, length_replicate; lia.
    - replace (0 + _) with (56 + Z.of_nat (length b')) by lia. apply Hk2; [done|lia].
    - by replace (0 + _ + _) with (Z.of_nat used) by lia. }
  destruct (write_words_ok (header_words (Z.of_nat (used + pad4 used)) 56 (56 + Z.of_nat (length b'))
    (Z.of_nat (length (table strs))) (Z.of_nat (length b'))) m2 [] _ _ 0 Hall eq_refl eq_refl) as (m3 & -> & Hm3).
  cbn [mbind option_bind]. eexists _, _. split; [done|]. cbn [set_fx_struct fx_buf].
  split_and!; [done|lia|done].
Qed.

(** ** Parsing it back *)

Lemma be_val_be32 v : is_u32 v -> be_val (be32 v) = v.
Proof.
  intros Hv. unfold is_u32 in Hv. unfold be_val, be32, u8. cbn [foldl]. rewrite !Z.shiftr_div_pow2 by lia.
  change (2 ^ 8) with 256. Z.to_euclidean_division_equations. lia.
Qed.

Lemma word_at_cells ws l i w :
  ws !! i = Some w -> is_u32 w -> word_at (mjoin (be32 <$> ws) ++ l) (4 * i) = Some w.
Proof.
  intros Hi Hw. unfold word_at. pose proof (lookup_lt_Some _ _ _ Hi).
  rewrite length_app, length_cells, (proj2 (Nat.leb_le _ _)) by lia.
  rewrite <- (take_drop_middle ws i w Hi), fmap_app, join_app, fmap_cons, mjoin_cons, <- !app_assoc.
  rewrite drop_app_length' by (rewrite length_cells, length_take; lia).
  rewrite take_app_length' by done. by rewrite be_val_be32.
Qed.

Lemma names_prefix es : forall strs, exists post, names strs es = strs ++ post.
Proof.
  induction es as [|e es IH]; intros strs; cbn [names]; [exists []; by rewrite app_nil_r|].
  destruct (IH (event_strs strs e)) as [post ->]. destruct e as [| |name ?]; cbn [event_strs]; [by eexists..|].
  destruct (intern_prefix strs name) as [post' ->]. rewrite <- app_assoc. by eexists.
Qed.

(** A name is found at its offset in the final table. *)
Lemma name_in_table strs name es :
  text_ok name ->
  let all := names (intern strs name) es in
  let off := name_off (intern strs name) name in
  (off < length (table all))%nat /\ c_string (drop off (table all)) = name.
Proof.
  intros Hn all off. destruct (names_prefix es (intern strs name)) as [post Hp]. subst all off. rewrite Hp.
  pose proof (intern_elem strs name) as Hi. rewrite <- (name_off_app _ post) by done.
  assert (name ∈ intern strs name ++ post) as Hin by set_solver.
  split; [by apply name_off_lt|]. destruct (name_off_spec _ _ Hin) as [rest ->]. by apply c_string_text.
Qed.

Definition event_ok (e : fdt_event) : Prop :=
  match e with EvBegin name | EvProp name _ => text_ok name | EvEnd => True end.

Lemma word_at_0 v l : is_u32 v -> word_at (be32 v ++ l) 0 = Some v.
Proof. exact (word_at_cells [v] l 0 v eq_refl). Qed.

Lemma word_at_4 a v l : is_u32 v -> word_at (be32 a ++ be32 v ++ l) 4 = Some v.
Proof. exact (word_at_cells [a; v] l 1 v eq_refl). Qed.

Lemma word_at_8 a b v l : is_u32 v -> word_at (be32 a ++ be32 b ++ be32 v ++ l) 8 = Some v.
Proof. exact (word_at_cells [a; b; v] l 2 v eq_refl). Qed.

Lemma parse_begin fuel strings name rest :
  text_ok name ->
  parse_struct (S fuel) strings (event_bytes 0 (EvBegin name) ++ rest) =
  (evs ← parse_struct fuel strings rest; Some (EvBegin name :: evs)).
Proof.
  intros Hn. cbn [event_bytes]. rewrite <- !app_assoc. set (pad := replicate _ 0). cbn [parse_struct].
  rewrite word_at_0 by done. cbn [mbind option_bind]. rewrite Z.eqb_refl.
  rewrite (drop_app_length' (be32 _)) by done. rewrite c_string_text by done.
  assert (length pad = pad4 (length name + 1)) as Hp by apply length_replicate.
  rewrite (proj2 (Nat.leb_le _ _)) by (rewrite !length_app; cbn [be32 length]; lia).
  rewrite !app_assoc, drop_app_length'; [done|]. rewrite !length_app. cbn [be32 length]. lia.
Qed.

Lemma parse_end fuel strings rest :
  parse_struct (S fuel) strings (event_bytes 0 EvEnd ++ rest) =
  (evs ← parse_struct fuel strings rest; Some (EvEnd :: evs)).
Proof. done. Qed.

Lemma parse_prop fuel strings off name bytes rest :
  Z.of_nat (length bytes) < 2 ^ 32 -> Z.of_nat (length strings) < 2 ^ 32 ->
  (off < length strings)%nat -> c_string (drop off strings) = name ->
  parse_struct (S fuel) strings (event_bytes off (EvProp name bytes) ++ rest) =
  (evs ← parse_struct fuel strings rest; Some (EvProp name bytes :: evs)).
Proof.
  intros Hb Hs Ho Hn. cbn [event_bytes]. rewrite <- !app_assoc. set (pad := replicate _ 0). cbn [parse_struct].
  assert (length pad = pad4 (length bytes)) as Hp by apply length_replicate.
  rewrite u32_small by (unfold is_u32; lia). rewrite word_at_0 by done. cbn [mbind option_bind].
  change (FDT_TOKEN_PROP =? FDT_TOKEN_BEGIN_NODE) with false. change (FDT_TOKEN_PROP =? FDT_TOKEN_END_NODE) with false.
  rewrite Z.eqb_refl, word_at_4, word_at_8 by (unfold is_u32; lia). cbn [mbind option_bind]. rewrite !Nat2Z.id, Hn.
  rewrite (proj2 (Nat.leb_le _ _)), (proj2 (Z.ltb_lt _ _)) by (rewrite ?length_app; cbn [be32 length]; lia). cbn [andb].
  set (words := be32 FDT_TOKEN_PROP ++ be32 (Z.of_nat (length bytes)) ++ be32 (Z.of_nat off)).
  change (be32 FDT_TOKEN_PROP ++ _ ++ _ ++ ?l) with (words ++ l).
  rewrite (drop_app_length' words), take_app_length' by done.
  rewrite !app_assoc, drop_app_length'; [done|]. rewrite !length_app. change (length words) with 12%nat. lia.
Qed.

Lemma parse_tokens es : forall strs fuel,
  Forall event_ok es -> Z.of_nat (length (tokens strs es)) < 2 ^ 32 ->
  Z.of_nat (length (table (names strs es))) < 2 ^ 32 -> (length es < fuel)%nat ->
  parse_struct fuel (table (names strs es)) (tokens strs es ++ be32 FDT_TOKEN_END) = Some es.
Proof.
  induction es as [|e es IH]; intros strs [|fuel] He Hl Ht Hf; cbn [length] in Hf; try lia; [done|].
  apply Forall_cons in He as [He Hes]. cbn [tokens names] in *. rewrite length_app in Hl.
  specialize (IH (event_strs strs e) fuel Hes ltac:(lia) Ht ltac:(lia)). rewrite <- app_assoc.
  destruct e as [name| |name bytes].
  - etrans; [by apply parse_begin|]. cbn [event_strs] in *. by rewrite IH.
  - etrans; [by apply parse_end|]. cbn [event_strs] in *. by rewrite IH.
  - destruct (name_in_table strs name es He) as [Ho Hn].
    rewrite parse_prop; [by rewrite IH| |done..]. cbn [event_bytes] in Hl. rewrite !length_app in Hl. lia.
Qed.

Lemma aslice_at {A} (pre mid post : list A) i n :
  i = Z.of_nat (length pre) -> n = Z.of_nat (length mid) -> aslice (pre ++ mid ++ post) i n = mid.
Proof.
  intros -> ->. unfold aslice. rewrite !Nat2Z.id, drop_app_length. apply take_app_length.
Qed.

Lemma length_le_tokens es : forall strs, (length es <= length (tokens strs es))%nat.
Proof.
  induction es as [|e es IH]; intros strs; [done|]. cbn [tokens length]. rewrite length_app.
  specialize (IH (event_strs strs e)).
  assert (1 <= length (event_bytes (event_off strs e) e))%nat by (destruct e; cbn; lia). lia.
Qed.

Lemma parse_blob es :
  let b := tokens [] es ++ be32 FDT_TOKEN_END in
  let strs := names [] es in
  Forall event_ok es -> Z.of_nat (length (blob b strs)) < 2 ^ 32 ->
  parse_fdt (blob b strs) = Some es.
Proof.
  intros b strs He Hlen. pose proof (length_blob_with b strs (pad4 (used_bytes b strs))) as Hbl. fold (blob b strs) in Hbl.
  unfold parse_fdt. set (l := blob b strs) in *. unfold blob, blob_with in l.
  set (used := used_bytes b strs) in *. assert (used = (56 + length b + length (table strs))%nat) as Hu by done.
  set (ws := header_words (Z.of_nat (used + pad4 used)) 56 (56 + Z.of_nat (length b)) (Z.of_nat (length (table strs)))
    (Z.of_nat (length b))) in l.
  assert (Hw : forall i w, ws !! i = Some w -> is_u32 w -> word_at l (4 * i) = Some w) by (intros; by apply word_at_cells).
  rewrite (Hw 0%nat FDT_MAGIC eq_refl ltac:(done) : word_at l 0 = _).
  rewrite (Hw 1%nat _ eq_refl (u32_range _) : word_at l 4 = _).
  rewrite (Hw 2%nat _ eq_refl (u32_range _) : word_at l 8 = _).
  rewrite (Hw 3%nat _ eq_refl (u32_range _) : word_at l 12 = _).
  rewrite (Hw 4%nat FDT_HEADER_BYTES eq_refl ltac:(done) : word_at l 16 = _).
  rewrite (Hw 5%nat 17 eq_refl ltac:(done) : word_at l 20 = _).
  rewrite (Hw 6%nat 16 eq_refl ltac:(done) : word_at l 24 = _).
  rewrite (Hw 8%nat _ eq_refl (u32_range _) : word_at l 32 = _).
  rewrite (Hw 9%nat _ eq_refl (u32_range _) : word_at l 36 = _).
  cbn [mbind option_bind]. rewrite !u32_small by (unfold is_u32; lia). rewrite Hbl, !Z.eqb_refl.
  rewrite !(proj2 (Z.leb_le _ _)) by lia.
  assert (Hh : length (mjoin (be32 <$> ws)) = 40%nat) by by rewrite length_cells.
  assert (Hr : aslice l FDT_HEADER_BYTES 16 = replicate 16 0) by by apply aslice_at; [rewrite Hh|].
  rewrite (bool_decide_eq_true_2 _ Hr). change (56 mod 4 =? 0) with true. cbn [andb].
  assert (aslice l (56 + Z.of_nat (length b)) (Z.of_nat (length (table strs))) = table strs) as ->.
  { unfold l. rewrite (app_assoc (replicate _ _)), app_assoc. apply aslice_at; [|done].
    rewrite !length_app, Hh, length_replicate. lia. }
  assert (aslice l 56 (Z.of_nat (length b)) = b) as ->.
  { unfold l. rewrite app_assoc. apply aslice_at; [|done]. rewrite length_app, Hh, length_replicate. done. }
  pose proof (length_le_tokens es []). assert (length b = length (tokens [] es) + 4)%nat by (unfold b; by rewrite length_app).
  apply parse_tokens; [done|lia|fold strs; lia|lia].
Qed.

Lemma room_zero b strs : room 0 b strs = false.
Proof. rewrite <- not_true_iff_false, room_iff. change (0 / 2) with 0. lia. Qed.

Lemma init_follows buf cap :
  sm_size buf = cap -> 0 <= cap ->
  exists c, fdt_init buf cap = Some c /\
    if 120 <=? cap then follows cap c [] [] else fx_error c <> 0.
Proof.
  intros Hs Hc. unfold fdt_init. cbn [fx_hdr_size]. change (FDT_HEADER_BYTES + 16) with 56.
  destruct (Z.ltb_spec cap (56 + 64)).
  { eexists. split; [done|]. by rewrite (proj2 (Z.leb_gt _ _)) by lia. }
  destruct (holds_write buf 0 (replicate 56 0)) as (m & Hw & Hm & Hz & _); [done|cbn; lia|].
  change (smem_zero buf 0 56) with (smem_write buf 0 (replicate 56 0)). rewrite Hw. cbn [mbind option_bind].
  eexists. split; [done|]. rewrite (proj2 (Z.leb_le _ _)) by lia. unfold follows.
  rewrite (proj2 (room_iff _ _ _)) by (cbn; Z.to_euclidean_division_equations; lia).
  split; cbn [set_fx_struct fx_error fx_cap fx_buf fx_struct_start fx_str_start fx_struct_off fx_str_off];
    [done|lia|done|done|by rewrite app_nil_r| |split; constructor].
  split_and!; [|cbn|by intros []]; Z.to_euclidean_division_equations; lia.
Qed.

(** ** The round trip *)

Lemma call_event_ok k : call_ok k -> event_ok (call_event k).
Proof. destruct k; cbn; try tauto; intros _; apply reg_name_ok. Qed.

(** Room for the whole tree, in the two halves of the buffer. *)
Definition tree_fits (cap : Z) (es : list fdt_event) : bool :=
  (120 <=? cap) && room cap (tokens [] es ++ be32 FDT_TOKEN_END) (names [] es).

(** The bytes of a tree, before they are padded to a multiple of four. *)
Definition tree_size (es : list fdt_event) : nat := used_bytes (tokens [] es ++ be32 FDT_TOKEN_END) (names [] es).

(** C23. The round trip of the device-tree serializer. For every sequence
    of calls and every buffer up to four bytes below 4 GiB a build returns,
    never faults and never leaves its buffer. If the tokens fit between the
    header and the middle of the buffer and the distinct property names fit
    behind it, then the tree fits the buffer, the result is its size rounded
    up to a multiple of four, and that many bytes, those of the buffer with
    zeros for padding past its end, parse as a version 17 blob with an empty
    reservation map to exactly the calls that were made. The result lies in
    the buffer when the capacity is a multiple of four; otherwise it may pass
    the capacity by up to three bytes. If the tree does not fit, the size is
    0 and the context is in error. *)
Theorem fdt_roundtrip buf cap ks :
  sm_size buf = cap -> 0 <= cap <= 2 ^ 32 - 4 -> Forall call_ok ks ->
  let es := call_event <$> ks in
  exists n c, fdt_build buf cap ks = Some (n, c) /\
    if tree_fits cap es then
      Z.of_nat (tree_size es) <= cap /\ n = Z.of_nat (tree_size es + pad4 (tree_size es)) /\
      0 < n < cap + 4 /\ (cap mod 4 = 0 -> n <= cap) /\
      parse_fdt (load_bytes (fx_buf c) 0 (Z.min n cap) ++ replicate (Z.to_nat (n - cap)) 0) = Some es
    else n = 0 /\ fx_error c <> 0.
Proof.
  intros Hs Hcap Hk es. unfold fdt_build, tree_fits.
  destruct (init_follows buf cap) as (c0 & -> & Hi); [done|lia|]. cbn [mbind option_bind].
  destruct (120 <=? cap) eqn:H120; cbn [andb].
  - destruct (calls_follow cap ks c0 [] []) as (c1 & -> & Hf); [done || lia..|]. cbn [mbind option_bind app] in *.
    destruct (finish_ok cap c1 _ _ ltac:(lia) (tokens_aligned _ _) Hf) as (n & c2 & -> & Hn).
    exists n, c2. split; [done|]. fold es in Hn. destruct (room _ _ _); [|done]. fold (tree_size es) in Hn.
    set (size := tree_size es) in *. destruct Hn as (-> & Hle & Hh). pose proof (pad4_bound size) as Hp. pose proof (pad4_spec size).
    assert (0 < Z.of_nat size) by (unfold size, tree_size, used_bytes; lia).
    split_and!; [done|done|lia|lia|Z.to_euclidean_division_equations; lia|].
    apply holds_load in Hh. rewrite length_blob_with in Hh. fold (tree_size es) size in Hh.
    replace (Z.min _ cap) with (Z.of_nat (size + Nat.min (pad4 size) (Z.to_nat cap - size))) by lia.
    rewrite Hh, blob_pad by (fold (tree_size es) size; lia). apply parse_blob.
    + unfold es. apply Forall_fmap. eapply Forall_impl; [done|]. apply call_event_ok.
    + unfold blob. rewrite length_blob_with. fold (tree_size es) size. Z.to_euclidean_division_equations. lia.
  - destruct (calls_follow 0 ks c0 [] []) as (c1 & -> & Hf); [done..|by unfold follows; rewrite room_zero|]. cbn [mbind option_bind app] in *.
    destruct (finish_ok 0 c1 _ _ ltac:(done) (tokens_aligned _ _) Hf) as (n & c2 & -> & Hn).
    exists n, c2. split; [done|]. by rewrite room_zero in Hn.
Qed.

(** The guest's tree fits its page. *)
Lemma guest_tree_ok : Forall call_ok guest_tree /\ tree_fits 4096 (call_event <$> guest_tree) = true.
Proof. split; [apply (bool_decide_unpack _)|]; by vm_compute. Qed.

(** A tree that fills both halves of a buffer of 169 bytes. *)
Definition past_tree : list fdt_call := [Begin []; PropU32Array (replicate 84 97) []; End_].

Lemma past_tree_ok : Forall call_ok past_tree /\ tree_fits 169 (call_event <$> past_tree) = true.
Proof. split; [apply (bool_decide_unpack _)|]; by vm_compute. Qed.

(** The guest's tree in its page; and the size is rounded up after it was
    compared with the capacity: the other tree is reported as 172 bytes
    long. *)
Lemma fdt_roundtrip_witness :
  (exists n c, build_guest_fdt (smem_zeroed 4096) = Some (n, c) /\
    0 < n <= 4096 /\ parse_fdt (load_bytes (fx_buf c) 0 (Z.min n 4096) ++ replicate (Z.to_nat (n - 4096)) 0)
      = Some (call_event <$> guest_tree)) /\
  (exists c, fdt_build (smem_zeroed 169) 169 past_tree = Some (172, c) /\
    parse_fdt (load_bytes (fx_buf c) 0 169 ++ replicate 3 0) = Some (call_event <$> past_tree)).
Proof.
  split.
  - destruct guest_tree_ok as [Hk Hf].
    pose proof (fdt_roundtrip (smem_zeroed 4096) 4096 guest_tree eq_refl ltac:(lia) Hk) as Hr. cbv zeta in Hr.
    rewrite Hf in Hr. destruct Hr as (n & c & Hb & _ & _ & Hn & Hle & Hp). exists n, c. split; [exact Hb|].
    split; [|exact Hp]. split; [apply Hn|by apply Hle].
  - destruct past_tree_ok as [Hk Hf].
    pose proof (fdt_roundtrip (smem_zeroed 169) 169 past_tree eq_refl ltac:(lia) Hk) as Hr. cbv zeta in Hr.
    rewrite Hf in Hr. destruct Hr as (n & c & Hb & _ & Hn & _ & _ & Hp). vm_compute in Hn. subst n. exists c. split; [exact Hb|exact Hp].
Defined.
