(* ===== verification/EventBus.v ===== *)
(** * The event bus

    services/event-bus/event_bus.c: the publish and subscribe service. Events
    go into a ring in a memory region, subscribers are signalled, and all
    requests are messages of the server loop (Ipc.v). At boot the bus
    registers with the name server (Nameserver.v).

    The root task maps the region of 2 MB into the bus alone, so nothing but
    the bus writes it. The region is bytes here, because a batch request
    reads them at an offset that the caller chooses. Signals and the
    registration message are recorded in the order in which they are sent.
    Debug output is left out. *)

From Stdlib Require Import String.
From S2P Require Import Prelude BitSet Bytes Text PixelMem Ipc Nameserver.
From stdpp Require Import options.

#[local] Open Scope Z_scope.

Definition MSG_EVENTBUS_INIT : Z := 0x0001.
Definition MSG_EVENTBUS_SUBSCRIBE : Z := 0x0002.
Definition MSG_EVENTBUS_UNSUBSCRIBE : Z := 0x0003.
Definition MSG_EVENTBUS_STATUS : Z := 0x0004.
Definition MSG_EVENTBUS_READY : Z := 0x0101.
Definition MSG_EVENTBUS_PUBLISH : Z := 0x0006.
Definition OP_PUBLISH_BATCH : Z := 0x0025.
Definition PUBLISH_BATCH_MAX : Z := 16.

Definition AGENTOS_RING_MAGIC : Z := 0xA6E70B05.
Definition EVENTBUS_RING_SIZE : Z := 0x40000.
Definition EVENTBUS_RING_VA : Z := 0x30000000.
Definition EVENTBUS_BATCH_STAGING_SIZE : Z := 768.
Definition EVENTBUS_BATCH_STAGING_OFFSET : Z := EVENTBUS_RING_SIZE - EVENTBUS_BATCH_STAGING_SIZE.

(** [sizeof(eb_ring_header_t)] and [sizeof(eb_event_t)]: [magic] is at 0,
    [version] at 4, [capacity] at 8, [head] at 16, [tail] at 24 and
    [overflow_count] at 32; in an event [seq] is at 0, [timestamp_ns] at 8,
    [kind] at 16, [source_pd] at 20, [payload_len] at 24 and [payload] at 28. *)
Definition EB_HEADER_BYTES : Z := 72.
Definition EB_EVENT_BYTES : Z := 96.

Definition MAX_SUBSCRIBERS : nat := 64.

Record subscriber := mk_sub {
  sb_active : bool; sb_ntfn_cap : Z; sb_topic_mask : Z; sb_last_seq : Z }.

(** The globals, the region, the signals sent and the calls made. *)
Record eb_state := mk_eb {
  eb_vaddr : Z; eb_region : smem; eb_subs : list subscriber; eb_sub_count : Z; eb_seq : Z; eb_ready : bool;
  eb_signals : list Z; eb_calls : list sel4_msg }.

Definition set_eb_region (m : smem) (st : eb_state) : eb_state :=
  mk_eb (eb_vaddr st) m (eb_subs st) (eb_sub_count st) (eb_seq st) (eb_ready st) (eb_signals st) (eb_calls st).
Definition set_eb_subs (l : list subscriber) (n : Z) (st : eb_state) : eb_state :=
  mk_eb (eb_vaddr st) (eb_region st) l n (eb_seq st) (eb_ready st) (eb_signals st) (eb_calls st).
Definition set_eb_seq (n : Z) (st : eb_state) : eb_state :=
  mk_eb (eb_vaddr st) (eb_region st) (eb_subs st) (eb_sub_count st) n (eb_ready st) (eb_signals st) (eb_calls st).
Definition set_eb_ready (st : eb_state) : eb_state :=
  mk_eb (eb_vaddr st) (eb_region st) (eb_subs st) (eb_sub_count st) (eb_seq st) true (eb_signals st) (eb_calls st).
Definition add_signal (cap : Z) (st : eb_state) : eb_state :=
  mk_eb (eb_vaddr st) (eb_region st) (eb_subs st) (eb_sub_count st) (eb_seq st) (eb_ready st)
    (eb_signals st ++ [cap]) (eb_calls st).
Definition add_call (m : sel4_msg) (st : eb_state) : eb_state :=
  mk_eb (eb_vaddr st) (eb_region st) (eb_subs st) (eb_sub_count st) (eb_seq st) (eb_ready st)
    (eb_signals st) (eb_calls st ++ [m]).

(** Little-endian fields of the region. *)
Definition rd (n : nat) (off : Z) : prog eb_state Z :=
  st ← get_state; l ← lift (smem_read (eb_region st) off (Z.of_nat n)); mret (le_val l).
Definition wr (n : nat) (off v : Z) : prog eb_state unit :=
  st ← get_state; m ← lift (smem_write (eb_region st) off (le_bytes n v)); put_state (set_eb_region m st).

(** ** Message data *)

Definition data_rd32 (d : list Z) (off : Z) : Z := le_val (aslice d off 4).
Definition data_rd64 (d : list Z) (off : Z) : Z :=
  Z.lor (data_rd32 d off) (Z.shiftl (data_rd32 d (off + 4)) 32).
Definition data_wr32 (m : sel4_msg) (off v : Z) : sel4_msg :=
  mk_msg (m_opcode m) (m_length m) (list_inserts (Z.to_nat off) (le_bytes 4 v) (m_data m)).
Definition data_wr64 (m : sel4_msg) (off v : Z) : sel4_msg :=
  data_wr32 (data_wr32 m off (Z.land v 0xFFFFFFFF)) (off + 4) (Z.shiftr v 32).

(** ** The ring *)

Definition eventbus_init_ring : prog eb_state unit :=
  wr 4 0 AGENTOS_RING_MAGIC;;
  wr 4 4 1;;
  wr 8 8 ((EVENTBUS_BATCH_STAGING_OFFSET - EB_HEADER_BYTES) / EB_EVENT_BYTES);;
  wr 8 16 0;;
  wr 8 24 0;;
  wr 4 32 0;;
  modify set_eb_ready.

(** [payload] is an offset in the region, or NULL. *)
Fixpoint copy_payload (n : nat) (dst i : Z) (payload : option Z) : prog eb_state unit :=
  match n with
  | O => mret tt
  | S n =>
      v ← (match payload with Some p => rd 1 (p + i) | None => mret 0 end);
      wr 1 (dst + i) v;;
      copy_payload n dst (i + 1) payload
  end.

Definition eventbus_write (kind source_pd : Z) (payload : option Z) (payload_len : Z) : prog eb_state Z :=
  st ← get_state;
  if (eb_vaddr st =? 0) || negb (eb_ready st) then mret SEL4_ERR_BAD_ARG else
  head ← rd 8 16;
  capacity ← rd 8 8;
  next_head ← lift (if capacity =? 0 then None else Some (u64 (head + 1) mod capacity));
  tail ← rd 8 24;
  if next_head =? tail then
    n ← rd 4 32;
    wr 4 32 (u32 (n + 1));;
    mret SEL4_ERR_NO_MEM
  else
  head ← rd 8 16;
  let slot := u64 (EB_HEADER_BYTES + head * EB_EVENT_BYTES) in
  wr 8 slot (eb_seq st);;
  modify (set_eb_seq (u64 (eb_seq st + 1)));;
  wr 4 (slot + 16) kind;;
  wr 4 (slot + 20) source_pd;;
  wr 4 (slot + 24) (if payload_len <? 64 then payload_len else 64);;
  wr 8 (slot + 8) 0;;
  n ← rd 4 (slot + 24);
  copy_payload (Z.to_nat n) (slot + 28) 0 payload;;
  wr 8 16 next_head;;
  mret SEL4_ERR_OK.

(** ** Subscribers *)

Fixpoint notify (l : list subscriber) : prog eb_state unit :=
  match l with
  | [] => mret tt
  | s :: l =>
      (if sb_active s && negb (sb_ntfn_cap s =? 0) then modify (add_signal (sb_ntfn_cap s)) else mret tt);;
      notify l
  end.

Definition eventbus_notify_all : prog eb_state unit := st ← get_state; notify (eb_subs st).

(** The first entry that is not in use. *)
Fixpoint free_entry (i : Z) (l : list subscriber) : option Z :=
  match l with
  | [] => None
  | s :: l => if negb (sb_active s) then Some i else free_entry (i + 1) l
  end.

(** ** Handlers *)

Definition handle_init : sel4_handler_fn eb_state := fun _ _ _ rep =>
  st ← get_state;
  if eb_vaddr st =? 0 then mret (SEL4_ERR_BAD_ARG, set_length 0 rep) else
  eventbus_init_ring;;
  eventbus_write 0x0403 0 None 0;;
  capacity ← rd 8 8;
  mret (SEL4_ERR_OK, set_length 12 (data_wr64 (data_wr32 rep 0 MSG_EVENTBUS_READY) 4 capacity)).

Definition handle_subscribe : sel4_handler_fn eb_state := fun _ _ req rep =>
  let ntfn_cap := data_rd64 (m_data req) 0 in
  let topic_mask := data_rd32 (m_data req) 8 in
  let rep := set_length 4 rep in
  st ← get_state;
  match free_entry 0 (eb_subs st) with
  | Some i =>
      l ← lift (aset (eb_subs st) i (mk_sub true ntfn_cap topic_mask (eb_seq st)));
      put_state (set_eb_subs l (u32 (eb_sub_count st + 1)) st);;
      mret (SEL4_ERR_OK, data_wr32 rep 0 i)
  | None => mret (SEL4_ERR_NO_MEM, data_wr32 rep 0 UINT32_MAX)
  end.

Definition handle_unsubscribe : sel4_handler_fn eb_state := fun _ _ req rep =>
  let handle := data_rd32 (m_data req) 0 in
  let rep := set_length 0 rep in
  st ← get_state;
  if handle <? Z.of_nat MAX_SUBSCRIBERS then
    s ← lift (aget (eb_subs st) handle);
    if sb_active s then
      l ← lift (aset (eb_subs st) handle (mk_sub false 0 (sb_topic_mask s) (sb_last_seq s)));
      put_state (set_eb_subs l (u32 (eb_sub_count st - 1)) st);;
      mret (SEL4_ERR_OK, rep)
    else mret (SEL4_ERR_BAD_ARG, rep)
  else mret (SEL4_ERR_BAD_ARG, rep).

Definition handle_status : sel4_handler_fn eb_state := fun _ _ _ rep =>
  st ← get_state;
  if (eb_vaddr st =? 0) || negb (eb_ready st) then mret (SEL4_ERR_BAD_ARG, set_length 0 rep) else
  head ← rd 8 16;
  tail ← rd 8 24;
  capacity ← rd 8 8;
  overflow_count ← rd 4 32;
  let rep := data_wr64 (data_wr64 (data_wr64 rep 0 head) 8 tail) 16 capacity in
  mret (SEL4_ERR_OK, set_length 32 (data_wr32 (data_wr32 rep 24 overflow_count) 28 (eb_sub_count st))).

(** The first bytes of the topic, as a little-endian number. *)
Fixpoint topic_kind (n : nat) (data b kind : Z) : prog eb_state Z :=
  match n with
  | O => mret kind
  | S n => v ← rd 1 (data + b); topic_kind n data (b + 1) (Z.lor kind (Z.shiftl v (b * 8)))
  end.

Definition EB_BATCH_STRIDE (topic_len payload_len : Z) : Z :=
  Z.land (u32 (4 + topic_len + payload_len + 3)) 0xFFFFFFFC.

(** The loop over the entries: how many went into the ring and how many did
    not. The stride is read after the event was written. *)
Fixpoint batch_loop (n : nat) (badge ptr dispatched dropped : Z) : prog eb_state (Z * Z) :=
  match n with
  | O => mret (dispatched, dropped)
  | S n =>
      topic_len ← rd 2 ptr;
      kind ← topic_kind (Z.to_nat (if topic_len <? 4 then topic_len else 4)) (ptr + 4) 0 0;
      payload_len ← rd 2 (ptr + 2);
      rc ← eventbus_write kind (u32 badge) (Some (ptr + 4 + topic_len)) payload_len;
      topic_len' ← rd 2 ptr;
      payload_len' ← rd 2 (ptr + 2);
      let ptr' := ptr + EB_BATCH_STRIDE topic_len' payload_len' in
      if rc =? SEL4_ERR_OK then batch_loop n badge ptr' (u32 (dispatched + 1)) dropped
      else batch_loop n badge ptr' dispatched (u32 (dropped + 1))
  end.

Definition handle_publish_batch : sel4_handler_fn eb_state := fun _ badge req rep =>
  let count := data_rd32 (m_data req) 0 in
  let offset := data_rd32 (m_data req) 4 in
  let rep := set_length 8 rep in
  if (count =? 0) || (PUBLISH_BATCH_MAX <? count) then
    mret (SEL4_ERR_BAD_ARG, data_wr32 (data_wr32 rep 0 0) 4 0)
  else if EVENTBUS_RING_SIZE <=? offset then
    mret (SEL4_ERR_BAD_ARG, data_wr32 (data_wr32 rep 0 0) 4 0)
  else
  '(dispatched, dropped) ← batch_loop (Z.to_nat count) badge offset 0 0;
  (if 0 <? dispatched then eventbus_notify_all else mret tt);;
  mret (SEL4_ERR_OK, data_wr32 (data_wr32 rep 0 dispatched) 4 dropped).

Definition handle_publish : sel4_handler_fn eb_state := fun _ badge req rep =>
  let kind := m_opcode req in
  let source_pd := data_rd32 (m_data req) 0 in
  let source_pd := if source_pd =? 0 then u32 badge else source_pd in
  rc ← eventbus_write kind source_pd None 0;
  let rep := set_length 0 rep in
  if rc =? SEL4_ERR_OK then eventbus_notify_all;; mret (SEL4_ERR_OK, rep)
  else mret (SEL4_ERR_NO_MEM, rep).

(** ** Boot *)

Definition register_message : sel4_msg :=
  let m := mk_msg OP_NS_REGISTER 48 (replicate 48 0) in
  let m := data_wr32 (data_wr32 (data_wr32 (data_wr32 m 0 0) 4 1) 8 0) 12 1 in
  let name := chars "event_bus" in
  mk_msg (m_opcode m) (m_length m) (take 16 (m_data m) ++ name ++ replicate (32 - length name) 0).

Definition register_with_nameserver (ns_ep : Z) : prog eb_state unit :=
  if ns_ep =? 0 then mret tt else modify (add_call register_message).

Definition eb_server : sel4_server eb_state :=
  let reg srv op fn := (sel4_server_register srv op fn).2 in
  let srv := reg sel4_server_init MSG_EVENTBUS_INIT handle_init in
  let srv := reg srv MSG_EVENTBUS_SUBSCRIBE handle_subscribe in
  let srv := reg srv MSG_EVENTBUS_UNSUBSCRIBE handle_unsubscribe in
  let srv := reg srv MSG_EVENTBUS_STATUS handle_status in
  let srv := reg srv OP_PUBLISH_BATCH handle_publish_batch in
  reg srv MSG_EVENTBUS_PUBLISH handle_publish.

Definition clear_sub (s : subscriber) : subscriber := mk_sub false 0 (sb_topic_mask s) (sb_last_seq s).

(** The messages that arrive, and the replies. *)
Definition event_bus_main (ns_ep : Z) (arrivals : list ((Z -> Z) * Z)) : prog eb_state (list sel4_msg) :=
  modify (fun st =>
    mk_eb (if eb_vaddr st =? 0 then EVENTBUS_RING_VA else eb_vaddr st) (eb_region st) (clear_sub <$> eb_subs st) 0 0
      false (eb_signals st) (eb_calls st));;
  eventbus_init_ring;;
  register_with_nameserver ns_ep;;
  sel4_server_run eb_server arrivals (mk_msg 0 0 (replicate 48 0)).

(** ** What it promises

    The events since the last initialisation, the next sequence number, how
    many events were dropped, and the subscribers by number with their
    notification, mask and first sequence number. *)

Record event := mk_event { ev_seq : Z; ev_kind : Z; ev_source : Z; ev_payload : list Z }.

Record bus := mk_bus {
  b_events : list event; b_seq : Z; b_dropped : Z; b_subs : gmap nat (Z * Z * Z) }.

Definition RING_SLOTS : Z := 2721.

(** The end of the last slot. *)
Definition RING_END : Z := 261288.

Definition set_b_subs (m : gmap nat (Z * Z * Z)) (b : bus) : bus :=
  mk_bus (b_events b) (b_seq b) (b_dropped b) m.

(** One event: accepted while one slot would stay free, or dropped. *)
Definition post (b : bus) (kind source : Z) (payload : list Z) : bool * bus :=
  if Z.of_nat (length (b_events b)) + 1 <? RING_SLOTS
  then (true, mk_bus (b_events b ++ [mk_event (b_seq b) kind source payload]) (u64 (b_seq b + 1)) (b_dropped b) (b_subs b))
  else (false, mk_bus (b_events b) (b_seq b) (u32 (b_dropped b + 1)) (b_subs b)).

Fixpoint post_all (b : bus) (source : Z) (es : list (Z * list Z)) : nat * bus :=
  match es with
  | [] => (0%nat, b)
  | (kind, payload) :: es =>
      let '(ok, b') := post b kind source payload in
      let '(n, b'') := post_all b' source es in
      ((if ok then S n else n), b'')
  end.

(** The notifications of the subscribers, in the order of their numbers. *)
Definition wakeups (m : gmap nat (Z * Z * Z)) : list Z :=
  omap (fun i => '(cap, _, _) ← m !! i; if cap =? 0 then None else Some cap) (seq 0 MAX_SUBSCRIBERS).

Inductive bus_request :=
  | Init
  | Subscribe (cap mask : Z)
  | Unsubscribe (id : Z)
  | Status
  | Batch (count offset source : Z)
  | Publish (kind source : Z)
  | Other.

(** The request that a message makes. *)
Definition bus_decode (mr : Z -> Z) (badge : Z) : bus_request :=
  let req := sel4_mrs_to_msg mr in
  let d := m_data req in
  let op := m_opcode req in
  if op =? MSG_EVENTBUS_INIT then Init
  else if op =? MSG_EVENTBUS_SUBSCRIBE then Subscribe (data_rd64 d 0) (data_rd32 d 8)
  else if op =? MSG_EVENTBUS_UNSUBSCRIBE then Unsubscribe (data_rd32 d 0)
  else if op =? MSG_EVENTBUS_STATUS then Status
  else if op =? OP_PUBLISH_BATCH then Batch (data_rd32 d 0) (data_rd32 d 4) (u32 badge)
  else if op =? MSG_EVENTBUS_PUBLISH then
    Publish op (if data_rd32 d 0 =? 0 then u32 badge else data_rd32 d 0)
  else Other.

(** One request: the status and words of the answer, the notifications
    signalled, and the bus after it. A batch takes its kinds and payloads from
    the region at its offset. Inside the ring those are bytes of earlier
    events or bytes that were there before the service started, which the bus
    does not keep: there the step leaves the kinds and payloads open, and fixes
    how many events there are, how long they can be, and which are accepted.
    Behind the ring the bytes are zero, and so are the events. *)
Inductive bus_step (b : bus) : bus_request -> Z * list Z -> list Z -> bus -> Prop :=
  | bus_init :
      bus_step b Init (SEL4_ERR_OK, [MSG_EVENTBUS_READY; RING_SLOTS; 0]) []
        (mk_bus [mk_event (b_seq b) 0x0403 0 []] (u64 (b_seq b + 1)) 0 (b_subs b))
  | bus_subscribe cap mask id :
      (id < MAX_SUBSCRIBERS)%nat -> b_subs b !! id = None -> (forall j, (j < id)%nat -> is_Some (b_subs b !! j)) ->
      bus_step b (Subscribe cap mask) (SEL4_ERR_OK, [Z.of_nat id]) []
        (set_b_subs (<[id := (cap, mask, b_seq b)]> (b_subs b)) b)
  | bus_subscribe_full cap mask :
      (forall j, (j < MAX_SUBSCRIBERS)%nat -> is_Some (b_subs b !! j)) ->
      bus_step b (Subscribe cap mask) (SEL4_ERR_NO_MEM, [UINT32_MAX]) [] b
  | bus_unsubscribe id x :
      b_subs b !! id = Some x ->
      bus_step b (Unsubscribe (Z.of_nat id)) (SEL4_ERR_OK, []) [] (set_b_subs (delete id (b_subs b)) b)
  | bus_unsubscribe_none id :
      b_subs b !! Z.to_nat id = None -> bus_step b (Unsubscribe id) (SEL4_ERR_BAD_ARG, []) [] b
  | bus_status :
      bus_step b Status
        (SEL4_ERR_OK, [Z.of_nat (length (b_events b)); 0; 0; 0; RING_SLOTS; 0; b_dropped b; Z.of_nat (size (b_subs b))])
        [] b
  | bus_batch_bad count offset source :
      ~ (0 < count <= PUBLISH_BATCH_MAX /\ offset < EVENTBUS_RING_SIZE) ->
      bus_step b (Batch count offset source) (SEL4_ERR_BAD_ARG, [0; 0]) [] b
  | bus_batch count offset source es n b' :
      0 < count <= PUBLISH_BATCH_MAX -> offset < EVENTBUS_RING_SIZE ->
      Z.of_nat (length es) = count -> Forall (fun e => (length e.2 <= 64)%nat) es ->
      (RING_END <= offset -> Forall (fun e => e = (0, [])) es) ->
      post_all b source es = (n, b') ->
      bus_step b (Batch count offset source) (SEL4_ERR_OK, [Z.of_nat n; count - Z.of_nat n])
        (if (0 <? n)%nat then wakeups (b_subs b) else []) b'
  | bus_publish kind source b' :
      post b kind source [] = (true, b') ->
      bus_step b (Publish kind source) (SEL4_ERR_OK, []) (wakeups (b_subs b)) b'
  | bus_publish_full kind source b' :
      post b kind source [] = (false, b') ->
      bus_step b (Publish kind source) (SEL4_ERR_NO_MEM, []) [] b'
  | bus_other : bus_step b Other (SEL4_ERR_INVALID_OP, []) [] b.

Inductive bus_steps : bus -> list bus_request -> list (Z * list Z) -> list Z -> bus -> Prop :=
  | bus_steps_nil b : bus_steps b [] [] [] b
  | bus_steps_cons b r a sigs b' rs as_ sigs' b'' :
      bus_step b r a sigs b' -> bus_steps b' rs as_ sigs' b'' ->
      bus_steps b (r :: rs) (a :: as_) (sigs ++ sigs') b''.

(** The messages that carry the answers; bytes beyond the words are those of
    the message before. *)
Fixpoint bus_framed (data : list Z) (answers : list (Z * list Z)) : list sel4_msg :=
  match answers with
  | [] => []
  | (status, ws) :: answers =>
      let data' := word_bytes ws ++ drop (4 * length ws) data in
      mk_msg status (4 * Z.of_nat (length ws)) data' :: bus_framed data' answers
  end.

(** ** The region as a bus *)

Definition header_bytes (head dropped : Z) : list Z :=
  le_bytes 4 AGENTOS_RING_MAGIC ++ le_bytes 4 1 ++ le_bytes 8 RING_SLOTS ++ le_bytes 8 head ++ le_bytes 8 0 ++
  le_bytes 4 dropped.

Definition slot_bytes (e : event) : list Z :=
  le_bytes 8 (ev_seq e) ++ le_bytes 8 0 ++ le_bytes 4 (ev_kind e) ++ le_bytes 4 (ev_source e) ++
  le_bytes 4 (Z.of_nat (length (ev_payload e))) ++ ev_payload e.

Definition entry_of (s : subscriber) : option (Z * Z * Z) :=
  if sb_active s then Some (sb_ntfn_cap s, sb_topic_mask s, sb_last_seq s) else None.

(** The bytes of the region: all are bytes, and those behind the ring are
    zero. *)
Record region_ok (m : smem) : Prop := {
  ro_size : sm_size m = 0x200000;
  ro_bytes : forall k, is_u8 (mbyte m k);
  ro_zero : forall k, RING_END <= k -> mbyte m k = 0 }.

Record represents (st : eb_state) (b : bus) : Prop := {
  rp_ready : eb_vaddr st <> 0 /\ eb_ready st = true;
  rp_region : region_ok (eb_region st);
  rp_header : holds (eb_region st) 0 (header_bytes (Z.of_nat (length (b_events b))) (b_dropped b));
  rp_events : forall i e, b_events b !! i = Some e ->
    holds (eb_region st) (EB_HEADER_BYTES + Z.of_nat i * EB_EVENT_BYTES) (slot_bytes e);
  rp_room : Z.of_nat (length (b_events b)) < RING_SLOTS /\ Forall (fun e => (length (ev_payload e) <= 64)%nat) (b_events b);
  rp_seq : eb_seq st = b_seq b;
  rp_dropped : is_u32 (b_dropped b);
  rp_subs : length (eb_subs st) = MAX_SUBSCRIBERS /\ forall i, b_subs b !! i = eb_subs st !! i ≫= entry_of;
  rp_count : eb_sub_count st = Z.of_nat (size (b_subs b)) }.

(** ** Reading and writing the region *)

Lemma wp_rd n off v Q st :
  holds (eb_region st) off (le_bytes n v) -> Q (v mod 256 ^ Z.of_nat n) st -> wp (rd n off) Q st.
Proof.
  intros Hh HQ. unfold rd. do 3 wp_step. eapply wp_lift; [|wp_step; rewrite le_val_bytes; exact HQ].
  pose proof (holds_load _ _ _ Hh) as Hl. rewrite length_le_bytes in Hl. unfold smem_read.
  destruct Hh as (? & Hs & _). rewrite length_le_bytes in Hs. rewrite in_object_true by lia. by rewrite Hl.
Qed.

Lemma le_val_zero l : Forall (fun x => x = 0) l -> le_val l = 0.
Proof. induction 1 as [|x l -> _ IH]; [done|]. cbn [le_val]. lia. Qed.

Lemma wp_rd_any n off Q st :
  region_ok (eb_region st) -> 0 <= off -> off + Z.of_nat n <= 0x200000 ->
  (forall v, 0 <= v < 256 ^ Z.of_nat n -> (RING_END <= off -> v = 0) -> Q v st) -> wp (rd n off) Q st.
Proof.
  intros [Hs Hb Hz] Ho Hn HQ. unfold rd. do 3 wp_step. eapply wp_lift.
  { unfold smem_read. rewrite in_object_true by lia. done. }
  wp_step. apply HQ.
  - pose proof (le_val_bound (load_bytes (eb_region st) off (Z.of_nat n))) as Hv.
    replace (length (load_bytes _ _ _)) with n in Hv by (pose proof (length_load_bytes (eb_region st) off (Z.of_nat n)); lia).
    apply Hv. apply Forall_fmap, Forall_true. intros k. apply Hb.
  - intros Hr. apply le_val_zero, Forall_fmap, Forall_forall. intros k Hk%elem_of_seqZ. apply Hz. lia.
Qed.

Lemma wp_wr n off v Q st :
  region_ok (eb_region st) -> 0 <= off -> off + Z.of_nat n <= RING_END ->
  (forall m, holds m off (le_bytes n v) -> keeps (eb_region st) m off (Z.of_nat n) -> region_ok m ->
     Q tt (set_eb_region m st)) ->
  wp (wr n off v) Q st.
Proof.
  intros [Hs Hb Hz] Ho Hn HQ. unfold wr. do 3 wp_step. unfold RING_END in *.
  destruct (smem_write_ok (eb_region st) off (le_bytes n v)) as (m & Hw & Hsz & Hm); [lia|rewrite length_le_bytes; lia|].
  destruct (holds_write (eb_region st) off (le_bytes n v)) as (m' & Hw' & Hh & Hk); [lia|rewrite length_le_bytes; lia|].
  rewrite Hw in Hw'. injection Hw' as <-. rewrite length_le_bytes in Hk, Hm.
  eapply wp_lift; [exact Hw|]. wp_step. apply HQ; [done..|]. split; [lia|..].
  - intros k. rewrite Hm. destruct (decide _) as [Hi|]; [|apply Hb].
    destruct (lookup_lt_is_Some_2 (le_bytes n v) (Z.to_nat (k - off))) as [x Hx]; [rewrite length_le_bytes; lia|].
    rewrite Hx. cbn. eapply Forall_lookup_1; [apply le_bytes_u8|done].
  - unfold RING_END. intros k Hk'. rewrite Hm, decide_False by lia. by apply Hz.
Qed.

(** Facts that hold of a region hold after writes elsewhere. *)
Ltac kept :=
  repeat match goal with
  | H : keeps ?m ?m' _ _ |- holds ?m' _ _ =>
      lazymatch goal with
      | Hh : holds m' ?k ?l |- holds m' ?k ?l => exact Hh
      | _ => apply (proj2 H)
      end
  end; try done.

Lemma set_eb_region_id st : set_eb_region (eb_region st) st = st.
Proof. by destruct st. Qed.

Lemma wp_copy_payload n : forall dst i payload Q st,
  region_ok (eb_region st) -> 0 <= dst + i -> dst + i + Z.of_nat n <= RING_END ->
  (forall p, payload = Some p -> 0 <= p + i /\ p + i + Z.of_nat n <= 0x200000) ->
  (forall m bs, length bs = n -> holds m (dst + i) bs -> keeps (eb_region st) m (dst + i) (Z.of_nat n) ->
     region_ok m -> Q tt (set_eb_region m st)) ->
  wp (copy_payload n dst i payload) Q st.
Proof.
  induction n as [|n IH]; intros dst i payload Q st Hr Hd Hn Hp HQ; cbn [copy_payload].
  { wp_step. rewrite <- (set_eb_region_id st). apply (HQ _ []); [done| | |done].
    - split_and!; [done|cbn; rewrite (ro_size _ Hr); unfold RING_END in *; lia|by intros []].
    - by split. }
  wp_step. match goal with |- wp ?m _ _ => assert (Hv : wp m (fun v st' => st' = st) st) end.
  { destruct payload as [p|]; [|by wp_step]. destruct (Hp p eq_refl). by apply wp_rd_any; [done|lia|lia|]. }
  eapply wp_mono; [exact Hv|]. intros v st' ->. wp_step. apply wp_wr; [done|lia|lia|]. intros m Hh Hk Hrm.
  apply IH; [done|lia|lia|..]; cbn [eb_region set_eb_region].
  { intros p ->. destruct (Hp p eq_refl). lia. }
  intros m' bs Hl Hb Hk' Hr'. apply (HQ m' (le_bytes 1 v ++ bs)); [by rewrite length_app, Hl| | |done].
  - rewrite holds_app, length_le_bytes. split; [kept; rewrite length_le_bytes; lia|by rewrite <- Z.add_assoc].
  - replace (Z.of_nat (S n)) with (Z.of_nat 1 + Z.of_nat n) by lia. rewrite Z.add_assoc in Hk'.
    eapply keeps_trans; [lia|lia|done|done].
Qed.

(** ** The header and the slots *)

Lemma header_fields m h d :
  holds m 0 (header_bytes h d) <->
  holds m 0 (le_bytes 4 AGENTOS_RING_MAGIC) /\ holds m 4 (le_bytes 4 1) /\ holds m 8 (le_bytes 8 RING_SLOTS) /\
  holds m 16 (le_bytes 8 h) /\ holds m 24 (le_bytes 8 0) /\ holds m 32 (le_bytes 4 d).
Proof. unfold header_bytes. rewrite !holds_app, !length_le_bytes. done. Qed.

Lemma slot_fields m k e :
  holds m k (slot_bytes e) <->
  holds m k (le_bytes 8 (ev_seq e)) /\ holds m (k + 8) (le_bytes 8 0) /\ holds m (k + 16) (le_bytes 4 (ev_kind e)) /\
  holds m (k + 20) (le_bytes 4 (ev_source e)) /\
  holds m (k + 24) (le_bytes 4 (Z.of_nat (length (ev_payload e)))) /\ holds m (k + 28) (ev_payload e).
Proof. unfold slot_bytes. rewrite !holds_app, !length_le_bytes, <- !Z.add_assoc. done. Qed.

Lemma length_slot_bytes e : length (slot_bytes e) = (28 + length (ev_payload e))%nat.
Proof. unfold slot_bytes. rewrite !length_app, !length_le_bytes. lia. Qed.

(** A write outside the header and the used slots. *)
Lemma slots_kept b m m' off n :
  (forall i e, b_events b !! i = Some e -> holds m (EB_HEADER_BYTES + Z.of_nat i * EB_EVENT_BYTES) (slot_bytes e)) ->
  Forall (fun e => (length (ev_payload e) <= 64)%nat) (b_events b) ->
  keeps m m' off n ->
  EB_HEADER_BYTES + Z.of_nat (length (b_events b)) * EB_EVENT_BYTES <= off \/ off + n <= EB_HEADER_BYTES ->
  forall i e, b_events b !! i = Some e -> holds m' (EB_HEADER_BYTES + Z.of_nat i * EB_EVENT_BYTES) (slot_bytes e).
Proof.
  intros Hh Hf [_ Hk] Hd i e Hi. apply Hk; [by apply Hh|]. rewrite length_slot_bytes.
  pose proof (lookup_lt_Some _ _ _ Hi). pose proof (Forall_lookup_1 _ _ _ _ Hf Hi) as Hl. cbn beta in Hl.
  unfold EB_HEADER_BYTES, EB_EVENT_BYTES in *. lia.
Qed.

Lemma header_kept m m' h d off n :
  holds m 0 (header_bytes h d) -> keeps m m' off n -> 36 <= off -> holds m' 0 (header_bytes h d).
Proof. intros Hh [_ Hk] Ho. apply Hk; [done|]. unfold header_bytes. rewrite !length_app, !length_le_bytes. lia. Qed.

Lemma header_head m m' h h' d :
  holds m 0 (header_bytes h d) -> keeps m m' 16 8 -> holds m' 16 (le_bytes 8 h') -> holds m' 0 (header_bytes h' d).
Proof.
  rewrite !header_fields. intros (? & ? & ? & ? & ? & ?) [_ Hk] ?.
  split_and!; try done; apply Hk; rewrite ?length_le_bytes; (done || lia).
Qed.

Lemma header_dropped m m' h d d' :
  holds m 0 (header_bytes h d) -> keeps m m' 32 4 -> holds m' 32 (le_bytes 4 d') -> holds m' 0 (header_bytes h d').
Proof.
  rewrite !header_fields. intros (? & ? & ? & ? & ? & ?) [_ Hk] ?.
  split_and!; try done; apply Hk; rewrite ?length_le_bytes; (done || lia).
Qed.

Lemma represents_dropped st b m :
  represents st b -> region_ok m -> keeps (eb_region st) m 32 4 ->
  holds m 32 (le_bytes 4 (u32 (b_dropped b + 1))) ->
  represents (set_eb_region m st) (mk_bus (b_events b) (b_seq b) (u32 (b_dropped b + 1)) (b_subs b)).
Proof.
  intros R Hm Hk Hh. destruct R as [? ? Hhd He [? ?] ? ? ? ?].
  split; cbn [set_eb_region eb_vaddr eb_region eb_subs eb_sub_count eb_seq eb_ready b_events b_seq b_dropped b_subs];
    try done.
  - by eapply header_dropped.
  - by apply (slots_kept b (eb_region st) m 32 4); [..|right].
  - apply u32_range.
Qed.

Lemma represents_posted st b m kind source bs :
  represents st b -> region_ok m -> Z.of_nat (length (b_events b)) + 1 < RING_SLOTS -> (length bs <= 64)%nat ->
  let e := mk_event (b_seq b) kind source bs in
  holds m 0 (header_bytes (Z.of_nat (length (b_events b)) + 1) (b_dropped b)) ->
  (forall i e, b_events b !! i = Some e -> holds m (EB_HEADER_BYTES + Z.of_nat i * EB_EVENT_BYTES) (slot_bytes e)) ->
  holds m (EB_HEADER_BYTES + Z.of_nat (length (b_events b)) * EB_EVENT_BYTES) (slot_bytes e) ->
  represents (set_eb_seq (u64 (eb_seq st + 1)) (set_eb_region m st))
    (mk_bus (b_events b ++ [e]) (u64 (b_seq b + 1)) (b_dropped b) (b_subs b)).
Proof.
  intros R Hm Hn Hbs e Hh He Hnew. destruct R as [? ? ? ? [? Hpl] Hseq ? ? ?].
  split; cbn [set_eb_seq set_eb_region eb_vaddr eb_region eb_subs eb_sub_count eb_seq eb_ready
              b_events b_seq b_dropped b_subs]; try done.
  - rewrite length_app. cbn [length]. by replace (Z.of_nat (_ + 1)) with (Z.of_nat (length (b_events b)) + 1) by lia.
  - intros i x [Hx|[Hi Hx]]%lookup_app_Some; [by apply He|]. apply list_lookup_singleton_Some in Hx as [Hx <-].
    by replace i with (length (b_events b)) by lia.
  - rewrite length_app. cbn [length]. split; [lia|]. apply Forall_app. split; [done|by apply Forall_singleton].
  - by rewrite Hseq.
Qed.

(** The branch for a full ring. *)
Lemma wp_full Q st b :
  represents st b ->
  (forall st', represents st' (mk_bus (b_events b) (b_seq b) (u32 (b_dropped b + 1)) (b_subs b)) ->
     eb_signals st' = eb_signals st -> eb_calls st' = eb_calls st -> Q SEL4_ERR_NO_MEM st') ->
  wp (n ← rd 4 32; wr 4 32 (u32 (n + 1));; mret SEL4_ERR_NO_MEM) Q st.
Proof.
  intros R HQ. pose proof (proj1 (header_fields _ _ _) (rp_header _ _ R)) as (_ & _ & _ & _ & _ & Hdrop).
  wp_step. eapply wp_rd; [exact Hdrop|]. change (256 ^ Z.of_nat 4) with (2 ^ 32).
  rewrite (Z.mod_small (b_dropped b)) by apply (rp_dropped _ _ R).
  wp_step. apply wp_wr; [apply (rp_region _ _ R)|lia|unfold RING_END; lia|]. intros m Hm Hk Hr. wp_step.
  apply HQ; [by apply represents_dropped|done|done].
Qed.

(** The whole write, with what it leaves. *)
Lemma wp_eventbus_write kind source payload len Q st b :
  represents st b -> 0 <= len < 65536 ->
  (forall p, payload = Some p -> 0 <= p /\ p + 64 <= 0x200000) ->
  (forall bs st' ok b', Z.of_nat (length bs) = Z.min len 64 -> post b kind source bs = (ok, b') ->
     represents st' b' -> eb_signals st' = eb_signals st -> eb_calls st' = eb_calls st ->
     Q (if ok then SEL4_ERR_OK else SEL4_ERR_NO_MEM) st') ->
  wp (eventbus_write kind source payload len) Q st.
Proof.
  intros R Hlen Hp HQ. pose proof R as [[Hv Hrd] Hreg Hh He [Hroom Hpl] Hseq Hd Hsub Hcnt].
  pose proof (proj1 (header_fields _ _ _) Hh) as (_ & _ & Hcap & Hhead & Htail & Hdrop).
  unfold eventbus_write. do 2 wp_step. rewrite (proj2 (Z.eqb_neq _ _) Hv), Hrd. cbn [orb negb].
  set (n := Z.of_nat (length (b_events b))) in *. unfold RING_SLOTS in Hroom, Hcap.
  wp_step. eapply wp_rd; [exact Hhead|]. rewrite Z.mod_small by (cbn; lia).
  wp_step. eapply wp_rd; [exact Hcap|]. change (2721 mod _) with 2721. cbn [Z.eqb]. wp_step. eapply wp_lift; [done|].
  wp_step. eapply wp_rd; [exact Htail|]. change (0 mod _) with 0. rewrite u64_small by (unfold is_u64; lia).
  destruct (Z.eqb_spec ((n + 1) mod 2721) 0) as [Hfull|Hfree].
  { apply (wp_full _ _ b R). intros st' R' Hsig Hcall.
    eapply (HQ (replicate (Z.to_nat (Z.min len 64)) 0) _ false); [rewrite length_replicate; lia| |exact R'|done|done].
    unfold post. fold n. rewrite (proj2 (Z.ltb_ge _ _)); [done|]. unfold RING_SLOTS. Z.to_euclidean_division_equations; lia. }
  assert (Hfit : n + 1 < 2721) by (Z.to_euclidean_division_equations; lia). rewrite Z.mod_small by lia.
  wp_step. eapply wp_rd; [exact Hhead|]. rewrite Z.mod_small by (cbn; lia).
  unfold EB_HEADER_BYTES, EB_EVENT_BYTES in *. rewrite u64_small by (unfold is_u64; lia). set (slot := 72 + n * 96) in *.
  assert (Hslot : 72 <= slot /\ slot + 96 <= RING_END) by (unfold slot, RING_END; lia).
  wp_step. apply wp_wr; [done|lia|lia|]. intros m1 Hm1 Hk1 Hr1. do 2 wp_step.
  wp_step. apply wp_wr; [done|lia|lia|]. intros m2 Hm2 Hk2 Hr2.
  wp_step. apply wp_wr; [done|lia|lia|]. intros m3 Hm3 Hk3 Hr3.
  wp_step. apply wp_wr; [done|lia|lia|]. intros m4 Hm4 Hk4 Hr4.
  wp_step. apply wp_wr; [done|lia|lia|]. intros m5 Hm5 Hk5 Hr5.
  cbn [eb_region set_eb_region set_eb_seq] in *.
  replace (if len <? 64 then len else 64) with (Z.min len 64) in * by (destruct (Z.ltb_spec len 64); lia).
  wp_step. eapply (wp_rd 4 _ (Z.min len 64)); [kept; rewrite length_le_bytes; lia|]. rewrite Z.mod_small by (cbn; lia).
  wp_step. apply wp_copy_payload; [done|lia|lia|intros p ->; destruct (Hp p eq_refl); lia|].
  cbn [eb_region set_eb_region set_eb_seq]. rewrite Z.add_0_r. intros m6 bs Hl Hm6 Hk6 Hr6.
  wp_step. apply wp_wr; [done|lia|unfold RING_END; lia|]. cbn [eb_region set_eb_region set_eb_seq].
  intros m7 Hm7 Hk7 Hr7. wp_step.
  assert (Hall : forall k l, holds (eb_region st) k l -> k + Z.of_nat (length l) <= slot ->
    holds m6 k l) by (intros k l ? ?; kept; lia).
  eapply (HQ bs _ true); [lia| |apply (represents_posted st b m7 kind source bs R Hr7 Hfit)|done|done]; [|lia|..].
  - unfold post. fold n. by rewrite (proj2 (Z.ltb_lt _ _)).
  - fold n. eapply header_head; [apply Hall; [exact Hh|]|done|done]. unfold header_bytes. rewrite !length_app, !length_le_bytes. lia.
  - apply (slots_kept b m6 m7 16 8); [|done|done|right; unfold EB_HEADER_BYTES; lia].
    intros i e Hi. apply Hall; [by apply He|]. rewrite length_slot_bytes. pose proof (lookup_lt_Some _ _ _ Hi).
    pose proof (Forall_lookup_1 _ _ _ _ Hpl Hi). cbn beta in *. unfold slot, n, EB_HEADER_BYTES, EB_EVENT_BYTES. lia.
  - apply slot_fields. cbn [ev_seq ev_kind ev_source ev_payload]. rewrite <- Hseq.
    replace (Z.of_nat (length bs)) with (Z.min len 64) by lia.
    split_and!; kept; rewrite ?length_le_bytes; unfold EB_HEADER_BYTES, EB_EVENT_BYTES; lia.
Qed.

(** ** Batches *)

Lemma wp_topic_kind n : forall data k kind Q st,
  region_ok (eb_region st) -> 0 <= data + k -> data + k + Z.of_nat n <= 0x200000 ->
  (forall v, (n = 0%nat -> v = kind) -> Q v st) -> wp (topic_kind n data k kind) Q st.
Proof.
  induction n as [|n IH]; intros data k kind Q st Hr Hd Hn HQ; cbn [topic_kind]; [wp_step; by apply HQ|].
  wp_step. apply wp_rd_any; [done|lia|lia|]. intros v _ _. apply IH; [done|lia|lia|]. intros w _. by apply HQ.
Qed.

Lemma stride_bound t p : 0 <= t < 65536 -> 0 <= p < 65536 -> 0 <= EB_BATCH_STRIDE t p <= 131077.
Proof.
  intros. unfold EB_BATCH_STRIDE. rewrite u32_small by (unfold is_u32; lia). rewrite Z.land_comm.
  pose proof (land_le_r 0xFFFFFFFC (4 + t + p + 3)). lia.
Qed.

(** Where the entry after the next ones may be: inside the ring two long
    entries reach furthest, and behind it entries are four bytes. *)
Definition entry_room (n : nat) (ptr : Z) : Prop := 0 <= ptr /\ ptr + 4 * Z.of_nat n <= RING_END + 131080 + 64.

Lemma wp_batch_loop n : forall badge ptr dispatched dropped Q st b,
  represents st b -> (n <= 16)%nat -> entry_room n ptr ->
  0 <= dispatched <= 16 - Z.of_nat n -> 0 <= dropped <= 16 - Z.of_nat n ->
  (forall es k b' st', length es = n -> Forall (fun e => (length e.2 <= 64)%nat) es ->
     (RING_END <= ptr -> Forall (fun e => e = (0, [])) es) -> post_all b (u32 badge) es = (k, b') ->
     represents st' b' -> eb_signals st' = eb_signals st -> eb_calls st' = eb_calls st ->
     Q (dispatched + Z.of_nat k, dropped + Z.of_nat n - Z.of_nat k) st') ->
  wp (batch_loop n badge ptr dispatched dropped) Q st.
Proof.
  induction n as [|n IH]; intros badge ptr di dr Q st b R Hn [Hp0 Hp] Hdi Hdr HQ; cbn [batch_loop].
  { wp_step. specialize (HQ [] 0%nat b st). rewrite !Z.add_0_r, Z.sub_0_r in HQ. by apply HQ. }
  pose proof (rp_region _ _ R) as Hreg. unfold RING_END in *.
  wp_step. apply wp_rd_any; [done|lia|lia|]. change (256 ^ Z.of_nat 2) with 65536. intros tl Htl Htz.
  wp_step. apply wp_topic_kind; [done|lia|destruct (Z.ltb_spec tl 4); lia|]. intros kind Hkz.
  wp_step. apply wp_rd_any; [done|lia|lia|]. change (256 ^ Z.of_nat 2) with 65536. intros pl Hpl Hpz.
  wp_step. apply (wp_eventbus_write _ _ _ _ _ _ b); [done|lia|intros p [= <-]; lia|].
  intros bs st1 ok b1 Hbs Hpost R1 Hsig1 Hcall1. pose proof (rp_region _ _ R1) as Hreg1.
  wp_step. apply wp_rd_any; [done|lia|lia|]. change (256 ^ Z.of_nat 2) with 65536. intros tl' Htl' Htz'.
  wp_step. apply wp_rd_any; [done|lia|lia|]. change (256 ^ Z.of_nat 2) with 65536. intros pl' Hpl' Hpz'.
  pose proof (stride_bound tl' pl' Htl' Hpl') as Hst.
  assert (Hzero : RING_END <= ptr -> EB_BATCH_STRIDE tl' pl' = 4).
  { unfold RING_END. intros ?. by rewrite Htz', Hpz' by (unfold RING_END; lia). }
  assert (Hroom : entry_room n (ptr + EB_BATCH_STRIDE tl' pl')).
  { unfold entry_room, RING_END in *. destruct (Z.le_gt_cases 261288 ptr); [rewrite Hzero by done|]; lia. }
  assert (Hcase : forall di' dr', 0 <= di' <= 16 - Z.of_nat n -> 0 <= dr' <= 16 - Z.of_nat n ->
    di' = di + Z.b2z ok -> dr' = dr + 1 - Z.b2z ok ->
    wp (batch_loop n badge (ptr + EB_BATCH_STRIDE tl' pl') di' dr') Q st1).
  { intros di' dr' Hdi' Hdr' -> ->. apply (IH _ _ _ _ _ _ b1); [done|lia|done..|].
    intros es k b2 st2 Hes Hpay Hall Hposts R2 Hsig2 Hcall2.
    replace (di + Z.b2z ok + Z.of_nat k, _)
      with (di + Z.of_nat (if ok then S k else k), dr + Z.of_nat (S n) - Z.of_nat (if ok then S k else k))
      by (destruct ok; cbn [Z.b2z]; f_equal; lia).
    apply (HQ ((kind, bs) :: es) _ b2); [by cbn; rewrite Hes|constructor; [cbn; lia|done]| | |done|congruence..].
    - intros Hz. pose proof (Hzero Hz). constructor; [|apply Hall; lia].
      rewrite Hkz by (rewrite Htz by done; done). destruct bs; [done|]. rewrite Hpz in Hbs by (unfold RING_END; lia). cbn [length] in Hbs. lia.
    - cbn [post_all]. rewrite Hpost, Hposts. done. }
  destruct ok; cbn [Z.eqb SEL4_ERR_OK SEL4_ERR_NO_MEM]; apply Hcase;
    rewrite ?u32_small by (unfold is_u32; lia); cbn [Z.b2z]; lia.
Qed.

(** ** Subscribers *)

Definition caps_of (l : list subscriber) : list Z :=
  omap (fun s => if sb_active s && negb (sb_ntfn_cap s =? 0) then Some (sb_ntfn_cap s) else None) l.

Definition add_signals (l : list Z) (st : eb_state) : eb_state :=
  mk_eb (eb_vaddr st) (eb_region st) (eb_subs st) (eb_sub_count st) (eb_seq st) (eb_ready st)
    (eb_signals st ++ l) (eb_calls st).

Lemma wp_notify l : forall Q st, Q tt (add_signals (caps_of l) st) -> wp (notify l) Q st.
Proof.
  induction l as [|s l IH]; intros Q st HQ; cbn [notify].
  { wp_step. unfold add_signals in HQ. cbn in HQ. rewrite app_nil_r in HQ. by destruct st. }
  wp_step. unfold caps_of in HQ. cbn [omap list_omap] in HQ. destruct (sb_active s && negb (sb_ntfn_cap s =? 0)); wp_step; apply IH.
  - unfold add_signals, add_signal in *. cbn in *. by rewrite <- app_assoc.
  - done.
Qed.

Lemma omap_lookup {A B} (g : A -> option B) (f : nat -> option B) l : forall k,
  (forall i, f (k + i)%nat = l !! i ≫= g) -> omap f (seq k (length l)) = omap g l.
Proof.
  induction l as [|x l IH]; intros k Hf; [done|]. cbn [length seq omap list_omap].
  pose proof (Hf 0%nat) as H0. rewrite Nat.add_0_r in H0. rewrite H0. cbn [lookup list_lookup mbind option_bind].
  assert (omap f (seq (S k) (length l)) = omap g l) as Hl.
  { apply IH. intros i. rewrite Nat.add_succ_comm. apply (Hf (S i)). }
  cbn [omap] in Hl. rewrite Hl. done.
Qed.

Lemma wakeups_caps st b : represents st b -> wakeups (b_subs b) = caps_of (eb_subs st).
Proof.
  intros R. destruct (rp_subs _ _ R) as [Hl Hs]. unfold wakeups, caps_of. rewrite <- Hl. apply omap_lookup.
  intros i. rewrite Hs. cbn [Nat.add]. destruct (eb_subs st !! i) as [s|]; [|done]. cbn. unfold entry_of.
  destruct (sb_active s); [|done]. cbn. by destruct (sb_ntfn_cap s =? 0).
Qed.

Lemma represents_signals st b l : represents st b -> represents (add_signals l st) b.
Proof. by intros []. Qed.

Lemma wp_notify_all Q st b :
  represents st b -> Q tt (add_signals (wakeups (b_subs b)) st) -> wp eventbus_notify_all Q st.
Proof. intros R HQ. unfold eventbus_notify_all. do 2 wp_step. apply wp_notify. by rewrite <- (wakeups_caps st b). Qed.

Lemma free_entry_spec l : forall k,
  match free_entry k l with
  | Some i => exists j s, i = k + Z.of_nat j /\ l !! j = Some s /\ sb_active s = false /\
      forall j', (j' < j)%nat -> exists s', l !! j' = Some s' /\ sb_active s' = true
  | None => forall j' s', l !! j' = Some s' -> sb_active s' = true
  end.
Proof.
  induction l as [|s l IH]; intros k; cbn [free_entry]; [by intros [] ?|].
  destruct (sb_active s) eqn:Hs; cbn [negb].
  - specialize (IH (k + 1)). destruct (free_entry (k + 1) l) as [i|].
    + destruct IH as (j & s' & -> & Hj & Hs' & Hall). exists (S j), s'. split_and!; [lia|done|done|].
      intros [|j'] ?; [by exists s|]. apply Hall. lia.
    + intros [|j'] s'; [by intros [= <-]|]. apply IH.
  - exists 0%nat, s. split_and!; [lia|done|done|lia].
Qed.

Lemma size_subs st b : represents st b -> (size (b_subs b) <= MAX_SUBSCRIBERS)%nat.
Proof.
  intros R. destruct (rp_subs _ _ R) as [Hl Hs].
  assert (dom (b_subs b) ⊆ list_to_set (seq 0 MAX_SUBSCRIBERS)) as Hd.
  { intros i [x Hi]%elem_of_dom. rewrite Hs in Hi. apply bind_Some in Hi as (s & Hi & _).
    apply lookup_lt_Some in Hi. apply elem_of_list_to_set, elem_of_seq. lia. }
  apply subseteq_size in Hd. rewrite size_dom in Hd. etrans; [exact Hd|].
  rewrite size_list_to_set by apply NoDup_seq. by rewrite length_seq.
Qed.

(** Changing one entry of the table. *)
Lemma represents_sub st b i s :
  represents st b -> (i < MAX_SUBSCRIBERS)%nat ->
  let m := match entry_of s with Some x => <[i := x]> (b_subs b) | None => delete i (b_subs b) end in
  represents (set_eb_subs (<[i := s]> (eb_subs st)) (Z.of_nat (size m)) st) (set_b_subs m b).
Proof.
  intros R Hi m. destruct R as [? ? ? ? ? ? ? [Hl Hs] ?]. split; try done.
  cbn [set_eb_subs eb_subs set_b_subs b_subs]. split; [by rewrite length_insert|]. intros j.
  destruct (decide (j = i)) as [->|Hne].
  - rewrite list_lookup_insert_eq by lia. cbn. subst m. destruct (entry_of s); [apply lookup_insert_eq|apply lookup_delete_eq].
  - rewrite list_lookup_insert_ne by done. rewrite <- Hs. subst m.
    destruct (entry_of s); [by apply lookup_insert_ne|by apply lookup_delete_ne].
Qed.

(** ** Message words *)

Lemma data_wr32_rep m off v : 0 <= off <= 44 -> data_wr32 m off v = rep_u32 m off v.
Proof.
  intros. unfold data_wr32, rep_u32, SEL4_MSG_DATA_BYTES. rewrite u32_small by (unfold is_u32; lia).
  by rewrite (proj2 (Z.ltb_ge _ _)) by lia.
Qed.

Lemma data_wr64_rep m off v :
  0 <= off <= 40 -> is_u32 v -> data_wr64 m off v = rep_u32 (rep_u32 m off v) (off + 4) 0.
Proof.
  intros ? Hv. unfold data_wr64. rewrite !data_wr32_rep by lia. change 0xFFFFFFFF with (Z.ones 32).
  rewrite Z.land_ones, Z.shiftr_div_pow2, Z.mod_small, Z.div_small by (unfold is_u32 in Hv; lia). done.
Qed.

Lemma data_u8 mr : Forall is_u8 (m_data (sel4_mrs_to_msg mr)).
Proof.
  cbn [sel4_mrs_to_msg m_data]. cbn [fmap list_fmap concat].
  rewrite !Forall_app, !unpack_word_bytes. by repeat split; try apply le_bytes_u8.
Qed.

Lemma data_rd32_range d off : Forall is_u8 d -> is_u32 (data_rd32 d off).
Proof.
  intros Hd. unfold data_rd32. pose proof (le_val_bound (aslice d off 4) (aslice_u8 _ _ _ Hd)) as Hv.
  assert (length (aslice d off 4) <= 4)%nat as Hl by (unfold aslice; rewrite length_take; lia).
  pose proof (Z.pow_le_mono_r 256 (Z.of_nat (length (aslice d off 4))) 4 ltac:(lia) ltac:(lia)).
  unfold is_u32. change (2 ^ 32) with (256 ^ 4). lia.
Qed.

(** ** Each handler takes its step *)

Definition bus_answered (st : eb_state) (b : bus) (r : bus_request) (rep : sel4_msg) (a : Z * sel4_msg) (st' : eb_state) : Prop :=
  exists status ws sigs b', bus_step b r (status, ws) sigs b' /\ (length ws <= 12)%nat /\ a = (status, reply ws rep) /\
    represents st' b' /\ eb_signals st' = eb_signals st ++ sigs /\ eb_calls st' = eb_calls st.

Lemma answered_quiet st b r rep status ws b' st' :
  bus_step b r (status, ws) [] b' -> (length ws <= 12)%nat -> represents st' b' ->
  eb_signals st' = eb_signals st -> eb_calls st' = eb_calls st ->
  bus_answered st b r rep (status, reply ws rep) st'.
Proof. intros. exists status, ws, [], b'. rewrite app_nil_r. done. Qed.

Section bus_handlers.
Context (st : eb_state) (b : bus) (R : represents st b) (mr : Z -> Z) (badge : Z) (req rep : sel4_msg).

Lemma wp_handle_subscribe :
  wp (handle_subscribe mr badge req rep)
    (bus_answered st b (Subscribe (data_rd64 (m_data req) 0) (data_rd32 (m_data req) 8)) rep) st.
Proof using R.
  destruct (rp_subs _ _ R) as [Hl Hs]. unfold handle_subscribe. do 2 wp_step.
  pose proof (free_entry_spec (eb_subs st) 0) as Hf. destruct (free_entry 0 (eb_subs st)) as [i|].
  - destruct Hf as (j & s & -> & Hj & Hin & Hall). rewrite Z.add_0_l. pose proof (lookup_lt_Some _ _ _ Hj) as Hlt.
    assert (b_subs b !! j = None) as Hnone by (rewrite Hs, Hj; cbn; unfold entry_of; by rewrite Hin).
    pose proof (size_subs _ _ R) as Hsz. unfold MAX_SUBSCRIBERS in *.
    wp_step. eapply wp_lift; [apply aset_Some; lia|]. do 3 wp_step. rewrite data_wr32_rep by lia. rewrite Nat2Z.id.
    eapply (answered_quiet st b _ rep SEL4_ERR_OK [Z.of_nat j]);
      [apply bus_subscribe; [unfold MAX_SUBSCRIBERS; lia|done|]|cbn; lia| |done|done].
    + intros k Hk. destruct (Hall k Hk) as (s' & Hk' & Ha). rewrite Hs, Hk'. cbn. unfold entry_of. by rewrite Ha.
    + pose proof (represents_sub st b j (mk_sub true (data_rd64 (m_data req) 0) (data_rd32 (m_data req) 8) (eb_seq st)) R
        ltac:(unfold MAX_SUBSCRIBERS; lia)) as Hr.
      cbn [entry_of sb_active sb_ntfn_cap sb_topic_mask sb_last_seq] in Hr. rewrite map_size_insert_None in Hr by done.
      rewrite (rp_count _ _ R), u32_small by (unfold is_u32; lia). rewrite (rp_seq _ _ R) in Hr |- *.
      by replace (Z.of_nat (size (b_subs b)) + 1) with (Z.of_nat (S (size (b_subs b)))) by lia.
  - wp_step. rewrite data_wr32_rep by lia.
    apply (answered_quiet st b _ rep SEL4_ERR_NO_MEM [UINT32_MAX] b); [apply bus_subscribe_full|cbn; lia|done..].
    intros j Hj. destruct (lookup_lt_is_Some_2 (eb_subs st) j) as [s Hj']; [lia|].
    rewrite Hs, Hj'. cbn. unfold entry_of. by rewrite (Hf j s Hj').
Qed.

Lemma wp_handle_unsubscribe :
  Forall is_u8 (m_data req) ->
  wp (handle_unsubscribe mr badge req rep) (bus_answered st b (Unsubscribe (data_rd32 (m_data req) 0)) rep) st.
Proof using R.
  intros Hd. destruct (rp_subs _ _ R) as [Hl Hs]. unfold handle_unsubscribe. do 2 wp_step.
  pose proof (data_rd32_range _ 0 Hd) as Hid. set (id := data_rd32 (m_data req) 0) in *. unfold is_u32 in Hid.
  assert (Hbad : b_subs b !! Z.to_nat id = None ->
    bus_answered st b (Unsubscribe id) rep (SEL4_ERR_BAD_ARG, set_length 0 rep) st).
  { intros Hn. apply (answered_quiet st b _ rep SEL4_ERR_BAD_ARG [] b); [by apply bus_unsubscribe_none|cbn; lia|done..]. }
  wp_step; [|wp_step; apply Hbad; rewrite Hs, lookup_ge_None_2; [done|apply Z.ltb_ge in H; unfold MAX_SUBSCRIBERS in *; lia]].
  apply Z.ltb_lt in H. unfold MAX_SUBSCRIBERS in H, Hl. destruct (lookup_lt_is_Some_2 (eb_subs st) (Z.to_nat id)) as [s Hj]; [lia|].
  wp_step. eapply wp_lift; [apply aget_Some; split; [lia|exact Hj]|]. wp_step.
  2:{ wp_step. apply Hbad. rewrite Hs, Hj. cbn. unfold entry_of. by rewrite H0. }
  assert (b_subs b !! Z.to_nat id = Some (sb_ntfn_cap s, sb_topic_mask s, sb_last_seq s)) as Hsome
    by (rewrite Hs, Hj; cbn; unfold entry_of; by rewrite H0).
  wp_step. eapply wp_lift; [apply aset_Some; lia|]. do 3 wp_step.
  apply (answered_quiet st b _ rep SEL4_ERR_OK [] (set_b_subs (delete (Z.to_nat id) (b_subs b)) b)); [|cbn; lia| |done|done].
  { rewrite <- (Z2Nat.id id) at 1 by lia. by eapply bus_unsubscribe. }
  pose proof (represents_sub st b (Z.to_nat id) (mk_sub false 0 (sb_topic_mask s) (sb_last_seq s)) R
    ltac:(unfold MAX_SUBSCRIBERS; lia)) as Hr.
  cbn [entry_of sb_active] in Hr. rewrite map_size_delete_Some in Hr by (by eexists).
  pose proof (size_subs _ _ R). assert (size (b_subs b) <> 0%nat) by (intros He%map_size_empty_inv; by rewrite He in Hsome).
  rewrite (rp_count _ _ R), u32_small by (unfold is_u32, MAX_SUBSCRIBERS in *; lia).
  by replace (Z.of_nat (size (b_subs b)) - 1) with (Z.of_nat (pred (size (b_subs b)))) by lia.
Qed.
Lemma wp_handle_status : wp (handle_status mr badge req rep) (bus_answered st b Status rep) st.
Proof using R.
  destruct (rp_ready _ _ R) as [Hv Hrd]. pose proof (proj1 (header_fields _ _ _) (rp_header _ _ R)) as (_ & _ & Hcap & Hhead & Htail & Hdrop).
  destruct (rp_room _ _ R) as [Hroom _]. unfold RING_SLOTS in Hroom, Hcap. pose proof (rp_dropped _ _ R) as Hdr.
  unfold handle_status. do 2 wp_step. rewrite (proj2 (Z.eqb_neq _ _) Hv), Hrd. cbn [orb negb].
  wp_step. eapply wp_rd; [exact Hhead|]. rewrite Z.mod_small by (cbn; lia).
  wp_step. eapply wp_rd; [exact Htail|]. change (0 mod _) with 0.
  wp_step. eapply wp_rd; [exact Hcap|]. change (2721 mod _) with 2721.
  wp_step. eapply wp_rd; [exact Hdrop|]. rewrite Z.mod_small by done. wp_step.
  rewrite !data_wr64_rep by (unfold is_u32; lia). rewrite !data_wr32_rep by lia. rewrite (rp_count _ _ R).
  by apply (answered_quiet st b _ rep SEL4_ERR_OK _ b st (bus_status b)); [cbn; lia|..].
Qed.

Lemma wp_handle_publish :
  wp (handle_publish mr badge req rep)
    (bus_answered st b (Publish (m_opcode req)
       (if data_rd32 (m_data req) 0 =? 0 then u32 badge else data_rd32 (m_data req) 0)) rep) st.
Proof using R.
  unfold handle_publish. wp_step. eapply wp_eventbus_write; [exact R|lia|done|].
  intros bs st' ok b' Hbs Hpost R' Hsig Hcall. assert (bs = []) as -> by (destruct bs; [done|cbn in Hbs; lia]).
  assert (Hsubs : b_subs b' = b_subs b) by (unfold post in Hpost; destruct (_ <? _); by injection Hpost as <- <-).
  destruct ok; cbn [Z.eqb SEL4_ERR_OK SEL4_ERR_NO_MEM].
  - wp_step. eapply wp_notify_all; [exact R'|]. wp_step. exists SEL4_ERR_OK, [], (wakeups (b_subs b)), b'.
    split_and!; [by apply bus_publish|cbn; lia|done|by apply represents_signals| |done].
    cbn [add_signals eb_signals]. by rewrite Hsig, Hsubs.
  - wp_step. by eapply (answered_quiet st b _ rep SEL4_ERR_NO_MEM []); [apply bus_publish_full|cbn; lia|..].
Qed.

Lemma post_all_subs es : forall b0 source n b', post_all b0 source es = (n, b') -> b_subs b' = b_subs b0 /\ (n <= length es)%nat.
Proof.
  induction es as [|[kind bs] es IH]; intros b0 source n b' Hp; cbn [post_all] in Hp; [by injection Hp as <- <-|].
  destruct (post b0 kind source bs) as [ok b1] eqn:H1. destruct (post_all b1 source es) as [k b2] eqn:H2.
  injection Hp as <- <-. destruct (IH _ _ _ _ H2) as [-> Hk].
  unfold post in H1. destruct (_ <? _); injection H1 as <- <-; cbn [b_subs length]; split; (done || lia).
Qed.

Lemma wp_handle_publish_batch :
  Forall is_u8 (m_data req) ->
  wp (handle_publish_batch mr badge req rep)
    (bus_answered st b (Batch (data_rd32 (m_data req) 0) (data_rd32 (m_data req) 4) (u32 badge)) rep) st.
Proof using R.
  intros Hd. unfold handle_publish_batch. pose proof (data_rd32_range _ 0 Hd) as Hc. pose proof (data_rd32_range _ 4 Hd) as Ho.
  set (count := data_rd32 (m_data req) 0) in *. set (offset := data_rd32 (m_data req) 4) in *. unfold is_u32 in Hc, Ho.
  rewrite !data_wr32_rep by lia.
  assert (Hbad : ~ (0 < count <= PUBLISH_BATCH_MAX /\ offset < EVENTBUS_RING_SIZE) ->
    bus_answered st b (Batch count offset (u32 badge)) rep (SEL4_ERR_BAD_ARG, reply [0; 0] rep) st).
  { intros Hn. by eapply answered_quiet; [apply bus_batch_bad|cbn; lia|..]. }
  unfold PUBLISH_BATCH_MAX, EVENTBUS_RING_SIZE in *.
  wp_step; [wp_step; apply Hbad; rewrite orb_true_iff, Z.eqb_eq, Z.ltb_lt in H; lia|].
  rewrite orb_false_iff, Z.eqb_neq, Z.ltb_ge in H. wp_step; [wp_step; apply Hbad; apply Z.leb_le in H0; lia|].
  apply Z.leb_gt in H0. wp_step.
  apply (wp_batch_loop (Z.to_nat count) badge offset 0 0 _ st b R); [lia|unfold entry_room, RING_END; lia|lia|lia|].
  intros es k b' st' Hes Hpay Hzero Hposts R' Hsig Hcall. destruct (post_all_subs _ _ _ _ _ Hposts) as [Hsubs Hk].
  replace (0 + Z.of_nat (Z.to_nat count) - Z.of_nat k) with (count - Z.of_nat k) by lia. rewrite Z.add_0_l.
  cbn beta iota. rewrite !data_wr32_rep by lia.
  assert (Hstep : bus_step b (Batch count offset (u32 badge)) (SEL4_ERR_OK, [Z.of_nat k; count - Z.of_nat k])
    (if (0 <? k)%nat then wakeups (b_subs b) else []) b').
  { apply (bus_batch b count offset (u32 badge) es); (done || unfold PUBLISH_BATCH_MAX, EVENTBUS_RING_SIZE; lia). }
  destruct (Z.ltb_spec 0 (Z.of_nat k)) as [Hp|Hp].
  - wp_step. eapply wp_notify_all; [exact R'|]. wp_step. rewrite (proj2 (Nat.ltb_lt 0 k)) in Hstep by lia.
    eexists _, _, _, b'. split_and!; [exact Hstep|cbn; lia|done|by apply represents_signals| |done].
    cbn [add_signals eb_signals]. by rewrite Hsig, Hsubs.
  - do 2 wp_step. rewrite (proj2 (Nat.ltb_ge 0 k)) in Hstep by lia. wp_step.
    exact (answered_quiet st b _ rep _ _ b' st' Hstep ltac:(cbn; lia) R' Hsig Hcall).
Qed.
End bus_handlers.

(** Initialising the ring, whatever the region held. *)
Lemma wp_init_ring Q st :
  region_ok (eb_region st) ->
  (forall m, region_ok m -> holds m 0 (header_bytes 0 0) -> Q tt (set_eb_ready (set_eb_region m st))) ->
  wp eventbus_init_ring Q st.
Proof.
  intros Hr HQ. unfold eventbus_init_ring. change ((_ - _) / _) with RING_SLOTS. unfold RING_END in *.
  wp_step. apply wp_wr; [done|lia|done|]. intros m1 Hm1 Hk1 Hr1.
  wp_step. apply wp_wr; [done|lia|done|]. intros m2 Hm2 Hk2 Hr2.
  wp_step. apply wp_wr; [done|lia|done|]. intros m3 Hm3 Hk3 Hr3.
  wp_step. apply wp_wr; [done|lia|done|]. intros m4 Hm4 Hk4 Hr4.
  wp_step. apply wp_wr; [done|lia|done|]. intros m5 Hm5 Hk5 Hr5.
  wp_step. apply wp_wr; [done|lia|done|]. intros m6 Hm6 Hk6 Hr6.
  cbn [eb_region set_eb_region] in *. wp_step. apply (HQ m6); [done|]. apply header_fields.
  split_and!; kept; rewrite ?length_le_bytes; lia.
Qed.

Lemma represents_fresh st b m :
  eb_vaddr st <> 0 -> region_ok m -> holds m 0 (header_bytes 0 0) -> eb_seq st = b_seq b ->
  length (eb_subs st) = MAX_SUBSCRIBERS -> (forall i, b_subs b !! i = eb_subs st !! i ≫= entry_of) ->
  eb_sub_count st = Z.of_nat (size (b_subs b)) ->
  represents (set_eb_ready (set_eb_region m st)) (mk_bus [] (b_seq b) 0 (b_subs b)).
Proof. intros. by split. Qed.

Lemma wp_handle_init st b mr badge req rep :
  represents st b -> wp (handle_init mr badge req rep) (bus_answered st b Init rep) st.
Proof.
  intros R. destruct R as [[Hv Hrd] Hreg _ _ _ Hseq _ [Hl Hs] Hc]. unfold handle_init. do 2 wp_step.
  rewrite (proj2 (Z.eqb_neq _ _) Hv). wp_step. apply wp_init_ring; [done|]. intros m Hm Hh.
  pose proof (represents_fresh st b m Hv Hm Hh Hseq Hl Hs Hc) as R0.
  wp_step. eapply wp_eventbus_write; [exact R0|lia|done|]. intros bs st' ok b' Hbs Hpost R' Hsig Hcall.
  assert (bs = []) as -> by (destruct bs; [done|cbn in Hbs; lia]). injection Hpost as <- <-.
  pose proof (proj1 (header_fields _ _ _) (rp_header _ _ R')) as (_ & _ & Hcap & _).
  wp_step. eapply wp_rd; [exact Hcap|]. change (RING_SLOTS mod _) with RING_SLOTS. wp_step.
  rewrite data_wr64_rep, data_wr32_rep by (unfold is_u32, RING_SLOTS; lia).
  exact (answered_quiet st b _ rep _ _ _ st' (bus_init b) ltac:(cbn; lia) R' Hsig Hcall).
Qed.

Lemma eb_server_handler op :
  find_handler eb_server op None =
  if op =? MSG_EVENTBUS_INIT then Some handle_init
  else if op =? MSG_EVENTBUS_SUBSCRIBE then Some handle_subscribe
  else if op =? MSG_EVENTBUS_UNSUBSCRIBE then Some handle_unsubscribe
  else if op =? MSG_EVENTBUS_STATUS then Some handle_status
  else if op =? OP_PUBLISH_BATCH then Some handle_publish_batch
  else if op =? MSG_EVENTBUS_PUBLISH then Some handle_publish
  else None.
Proof.
  change eb_server with [(MSG_EVENTBUS_INIT, handle_init); (MSG_EVENTBUS_SUBSCRIBE, handle_subscribe);
    (MSG_EVENTBUS_UNSUBSCRIBE, handle_unsubscribe); (MSG_EVENTBUS_STATUS, handle_status);
    (OP_PUBLISH_BATCH, handle_publish_batch); (MSG_EVENTBUS_PUBLISH, handle_publish)].
  cbn [find_handler]. rewrite !(Z.eqb_sym op). done.
Qed.

Lemma wp_bus_round mr badge rep st b :
  represents st b -> length (m_data rep) = 48%nat ->
  wp (sel4_server_round eb_server mr badge rep)
    (fun rep' st' => exists status ws sigs b', bus_step b (bus_decode mr badge) (status, ws) sigs b' /\
       (length ws <= 12)%nat /\
       rep' = mk_msg status (4 * Z.of_nat (length ws)) (word_bytes ws ++ drop (4 * length ws) (m_data rep)) /\
       represents st' b' /\ eb_signals st' = eb_signals st ++ sigs /\ eb_calls st' = eb_calls st) st.
Proof.
  intros R Hl. unfold sel4_server_round, sel4_server_dispatch, bus_decode.
  pose proof (data_u8 mr) as Hd. set (req := sel4_mrs_to_msg mr) in *. set (rep0 := mk_msg 0 0 (m_data rep)).
  assert (Hone : forall fn r, wp (fn mr badge req rep0) (bus_answered st b r rep0) st ->
    wp ('(_, rep') ← ('(rc, rep') ← fn mr badge req rep0; mret (rc, set_opcode rc rep')); mret rep')
      (fun rep' st' => exists status ws sigs b', bus_step b r (status, ws) sigs b' /\ (length ws <= 12)%nat /\
         rep' = mk_msg status (4 * Z.of_nat (length ws)) (word_bytes ws ++ drop (4 * length ws) (m_data rep)) /\
         represents st' b' /\ eb_signals st' = eb_signals st ++ sigs /\ eb_calls st' = eb_calls st) st).
  { intros fn r Hw. do 2 wp_step. eapply wp_mono; [exact Hw|].
    intros [rc rep'] st' (status & ws & sigs & b' & Hs & Hws & [= -> ->] & R' & Hsig & Hcall). do 2 wp_step.
    exists status, ws, sigs, b'. split_and!; [done|done| |done..]. by rewrite reply_spec. }
  rewrite eb_server_handler. fold req.
  case_cmp; [by apply Hone, wp_handle_init|]. case_cmp; [by apply Hone, wp_handle_subscribe|].
  case_cmp; [by apply Hone, wp_handle_unsubscribe|]. case_cmp; [by apply Hone, wp_handle_status|].
  case_cmp; [by apply Hone, wp_handle_publish_batch|]. case_cmp; [by apply Hone, wp_handle_publish|].
  do 2 wp_step. wp_step. exists SEL4_ERR_INVALID_OP, [], [], b. rewrite app_nil_r.
  split_and!; [apply bus_other|cbn; lia|done..].
Qed.

Definition bus_decode_all (arrivals : list ((Z -> Z) * Z)) : list bus_request :=
  (fun a => bus_decode a.1 a.2) <$> arrivals.

Lemma wp_bus_run arrivals : forall rep st b,
  represents st b -> length (m_data rep) = 48%nat ->
  wp (sel4_server_run eb_server arrivals rep)
    (fun reps st' => exists answers sigs b', bus_steps b (bus_decode_all arrivals) answers sigs b' /\
       reps = bus_framed (m_data rep) answers /\ represents st' b' /\
       eb_signals st' = eb_signals st ++ sigs /\ eb_calls st' = eb_calls st) st.
Proof.
  induction arrivals as [|[mr badge] arrivals IH]; intros rep st b R Hl; cbn [sel4_server_run].
  { wp_step. exists [], [], b. rewrite app_nil_r. split_and!; [constructor|done..]. }
  wp_step. eapply wp_mono; [by apply wp_bus_round|].
  intros rep' st' (status & ws & sigs & b' & Hs & Hws & -> & R' & Hsig & Hcall). wp_step.
  eapply wp_mono; [apply (IH _ st' b'); [done|]|].
  { cbn [m_data]. rewrite length_app, length_drop, length_word_bytes, Hl. lia. }
  intros reps st'' (answers & sigs' & b'' & Hss & -> & R'' & Hsig' & Hcall'). wp_step.
  exists ((status, ws) :: answers), (sigs ++ sigs'), b''.
  split_and!; [by econstructor|done|done|by rewrite Hsig', Hsig, app_assoc|congruence].
Qed.

(** C21. The event bus is a bounded log with subscribers. From boot on a region
    that is zero behind the ring, as fresh frames are, and whatever messages
    arrive with whatever registers and badges, it never faults or leaves its
    region, and answers every message as the specification says:
    each accepted event gets the next sequence number and keeps its slot, an
    event is accepted exactly while fewer than 2720 are held and counted as
    dropped otherwise, a subscriber gets the lowest free number, all
    subscribers are signalled once per accepted event or batch, in order, and
    the counts of a status are exact. At the end the region holds the log byte
    for byte, and one message was sent to the name server. *)
Theorem eventbus_refines ns_ep arrivals st :
  region_ok (eb_region st) -> length (eb_subs st) = MAX_SUBSCRIBERS -> eb_signals st = [] -> eb_calls st = [] ->
  wp (event_bus_main ns_ep arrivals)
    (fun reps st' => exists answers b,
       bus_steps (mk_bus [] 0 0 ∅) (bus_decode_all arrivals) answers (eb_signals st') b /\
       reps = bus_framed (replicate 48 0) answers /\ represents st' b /\
       eb_calls st' = if ns_ep =? 0 then [] else [register_message]) st.
Proof.
  intros Hr Hl Hs0 Hc0. unfold event_bus_main. do 2 wp_step. wp_step. apply wp_init_ring; [done|]. intros m Hm Hh.
  wp_step. set (st0 := mk_eb _ _ _ _ _ _ _ _).
  assert (R : represents (set_eb_ready (set_eb_region m st0)) (mk_bus [] 0 0 ∅)).
  { apply (represents_fresh st0 (mk_bus [] 0 0 ∅) m); try done; cbn [st0 eb_vaddr eb_subs b_subs].
    - destruct (Z.eqb_spec (eb_vaddr st) 0); [done|done].
    - by rewrite length_fmap.
    - intros i. rewrite lookup_empty, list_lookup_fmap. by destruct (eb_subs st !! i). }
  unfold register_with_nameserver. destruct (ns_ep =? 0); wp_step;
    (eapply wp_mono; [apply (wp_bus_run _ _ _ (mk_bus [] 0 0 ∅)); [|done]|]).
  - exact R.
  - intros reps st' (answers & sigs & b & Hss & -> & R' & Hsig & Hcall). cbn in Hsig, Hcall.
    rewrite Hs0 in Hsig. cbn in Hsig. rewrite Hc0 in Hcall. exists answers, b. by rewrite Hsig.
  - destruct R. by split.
  - intros reps st' (answers & sigs & b & Hss & -> & R' & Hsig & Hcall). cbn in Hsig, Hcall.
    rewrite Hs0 in Hsig. cbn in Hsig. rewrite Hc0 in Hcall. exists answers, b. by rewrite Hsig.
Qed.

(** One subscriber, signalled for one event. *)
Definition message (op : Z) (data : list Z) : (Z -> Z) * Z :=
  (fun i => sel4_msg_to_mrs (mk_msg op (Z.of_nat (length data)) (data ++ replicate (48 - length data) 0)) !!! Z.to_nat i, 3).

Definition demo_bus : eb_state :=
  mk_eb 0 (smem_zeroed 0x200000) (replicate MAX_SUBSCRIBERS (mk_sub false 0 0 0)) 0 0 false [] [].

Definition demo_messages : list ((Z -> Z) * Z) :=
  [message MSG_EVENTBUS_SUBSCRIBE [7]; message MSG_EVENTBUS_PUBLISH []; message OP_PUBLISH_BATCH [16; 0; 0; 0; 16; 0; 0; 0];
   message 0x0410 []].

Lemma eventbus_refines_witness :
  exists reps st' b, event_bus_main 5 demo_messages demo_bus = Some (reps, st') /\ represents st' b /\
    eb_signals st' = [7; 7] /\ m_opcode <$> reps = [0; 0; 0; 1] /\ eb_calls st' = [register_message].
Proof.
  destruct (wp_run _ _ _ (eventbus_refines 5 demo_messages demo_bus ltac:(by split) eq_refl eq_refl eq_refl))
    as (reps & st' & Hrun & answers & b & _ & _ & R & Hcalls).
  assert (Hout : match event_bus_main 5 demo_messages demo_bus with
                 | Some (reps, st') => Some (eb_signals st', m_opcode <$> reps) | None => None
                 end = Some ([7; 7], [0; 0; 0; 1])) by (vm_compute; reflexivity).
  rewrite Hrun in Hout. injection Hout as Hsig Hops. exists reps, st', b. split_and!; [exact Hrun|exact R|exact Hsig|exact Hops|exact Hcalls].
Defined.

(** ** With the name server *)

(** What the bus sends at boot is, to the name server, the registration of
    its name; when the name is free and the table has room the directory has
    it afterwards. *)
Theorem eventbus_registers badge rep ns d :
  let mr := fun i => sel4_msg_to_mrs register_message !!! Z.to_nat i in
  let name := chars "event_bus" in
  refines ns d -> d_services d !! name = None -> (size (d_services d) < NS_MAX_ENTRIES)%nat ->
  wp (nameserver_h_dispatch mr badge (sel4_mrs_to_msg mr) rep)
    (fun a ns' => a = (SEL4_ERR_OK, reply [NS_OK] rep) /\ exists d', refines ns' d' /\
       d_services d' = <[name := mk_svc 0 1 0 1 NS_STATUS_UNKNOWN (u64 (d_ticks d + 1))]> (d_services d)) ns.
Proof.
  intros mr name R Hfree Hroom. eapply wp_mono; [by apply wp_dispatch|].
  assert (decode mr badge = Register name 0 1 0 1) as -> by reflexivity.
  intros a ns' (ws & d' & Hs & _ & -> & R'). remember (Register name 0 1 0 1) as r eqn:Hr.
  destruct Hs; try discriminate Hr; injection Hr as ? ? ? ? ?; subst; try congruence; [lia|].
  split; [done|]. by eexists.
Qed.
