(* ===== verification/AgentFs.v ===== *)
(** * AgentFS

    services/agentfs/agentfs.c: the object store, with every handler of its
    table and the fingerprint that names objects. Comparing embeddings is
    floating-point arithmetic and a parameter; no operation ever stores an
    embedding, so it is never reached. Messages to the event bus are recorded
    as calls. Log output is left out. *)

From S2P Require Import Prelude Bytes Ipc.
From stdpp Require Import options.

#[local] Open Scope Z_scope.

Definition OP_AGENTFS_PUT : Z := 0x30.
Definition OP_AGENTFS_GET : Z := 0x31.
Definition OP_AGENTFS_QUERY : Z := 0x32.
Definition OP_AGENTFS_DELETE : Z := 0x33.
Definition OP_AGENTFS_VECTOR : Z := 0x34.
Definition OP_AGENTFS_STAT : Z := 0x35.
Definition OP_AGENTFS_HEALTH : Z := 0x36.
Definition AFS_OK : Z := 0.
Definition AFS_ERR_NOENT : Z := 2.
Definition AFS_ERR_NOSPACE : Z := 3.
Definition MAX_HOT_OBJECTS : Z := 256.
Definition BLOB_STORE_SIZE : Z := 256 * 1024.
Definition MSG_EVENT_PUBLISH : Z := 0x0410.
Definition EVT_OBJECT_CREATED : Z := 0x0411.
Definition EVT_OBJECT_DELETED : Z := 0x0412.

Inductive obj_state := OBJ_STATE_LIVE | OBJ_STATE_TOMBSTONE | OBJ_STATE_EVICTED.

#[export] Instance obj_state_dec : EqDecision obj_state.
Proof. solve_decision. Defined.

(** The fields that the code reads or writes; [o_vec] are the bits of the
    embedding. *)
Record agentfs_obj := mk_obj {
  o_id : list Z; o_scheme : Z; o_version : Z; o_size : Z; o_cap_tag : Z; o_state : obj_state; o_blob_offset : Z;
  o_vec_dim : Z; o_vec : list Z }.

Record afs_state := mk_afs {
  hot_index : list agentfs_obj; blob_watermark : Z; hot_count : Z; total_puts : Z; total_gets : Z; total_vectors : Z;
  g_eventbus_ep : Z; afs_calls : list sel4_msg }.

(** ** The fingerprint *)

Definition rotl64 (h k : Z) : Z := Z.lor (u64 (Z.shiftl h k)) (Z.shiftr h (64 - k)).

Fixpoint hash_loop (data : list Z) (i h0 h1 : Z) : Z * Z :=
  match data with
  | [] => (h0, h1)
  | d :: data =>
      let h0 := Z.lxor h0 (u64 (Z.shiftl d (i mod 8 * 8))) in
      let h0 := rotl64 h0 13 in
      let h0 := u64 (h0 + h1) in
      let h1 := Z.lxor h1 h0 in
      hash_loop data (i + 1) h0 (rotl64 h1 17)
  end.

(** The bytes of a word from the highest to the lowest. *)
Definition be_bytes8 (x : Z) : list Z := (fun k => Z.land (Z.shiftr x k) 0xff) <$> [56; 48; 40; 32; 24; 16; 8; 0].

Fixpoint hash_fill (n : nat) (i h0 h1 : Z) : list Z :=
  match n with
  | O => []
  | S n =>
      let x := Z.lxor (if i mod 2 =? 0 then h0 else h1) (u64 (i * 0xdeadbeefcafe)) in
      let h0' := Z.lxor h0 (u64 (h1 + x)) in
      be_bytes8 x ++ hash_fill n (i + 1) h0' (Z.lxor h1 h0')
  end.

Definition simple_hash (data : list Z) : list Z :=
  let '(h0, h1) := hash_loop data 0 0x6c62272e07bb0142 0x62b821756295c58d in hash_fill 4 0 h0 h1.

(** [h_put]'s seed: nibbles of the size and of the counter. *)
Definition put_seed (size puts : Z) : list Z :=
  ((fun i => Z.land (Z.shiftr size (i * 4)) 0xff) <$> [0; 1; 2; 3; 4; 5; 6; 7]) ++
  ((fun i => Z.land (Z.shiftr puts (i * 4)) 0xff) <$> [0; 1; 2; 3; 4; 5; 6; 7]).

(** ** Objects *)

Definition is_live (o : agentfs_obj) : bool := bool_decide (o_state o = OBJ_STATE_LIVE).

(** The index of the first live object with this name. *)
Fixpoint find_from (i : Z) (l : list agentfs_obj) (id : list Z) : option Z :=
  match l with
  | [] => None
  | o :: l => if is_live o && bool_decide (o_id o = id) then Some i else find_from (i + 1) l id
  end.

Definition find_object (st : afs_state) (id : list Z) : option Z :=
  find_from 0 (take (Z.to_nat (hot_count st)) (hot_index st)) id.

(** [w = (w << 8) | b] over four bytes. *)
Definition be_word (l : list Z) : Z := foldl (fun w b => Z.lor (u32 (Z.shiftl w 8)) b) 0 l.

Definition id_words (id : list Z) : list Z :=
  [be_word (aslice id 0 4); be_word (aslice id 4 4); be_word (aslice id 8 4); be_word (aslice id 12 4)].

(** The name that a request carries: sixteen bytes, and zeros. *)
Definition request_id (req : sel4_msg) : list Z :=
  mjoin ((fun off => (fun k => Z.land (Z.shiftr (msg_u32 req off) k) 0xff) <$> [24; 16; 8; 0]) <$> [4; 8; 12; 16]) ++
  replicate 16 0.

Definition emit_event (event_type : Z) (id : list Z) : prog afs_state unit :=
  st ← get_state;
  if g_eventbus_ep st =? 0 then mret tt
  else
    let m := rep_words 0 (MSG_EVENT_PUBLISH :: event_type :: id_words id) (mk_msg MSG_EVENT_PUBLISH 24 (replicate 48 0)) in
    put_state (mk_afs (hot_index st) (blob_watermark st) (hot_count st) (total_puts st) (total_gets st) (total_vectors st)
                 (g_eventbus_ep st) (afs_calls st ++ [m])).

(** ** Handlers *)

Definition h_put : sel4_handler_fn afs_state := fun _ _ req rep =>
  let size := msg_u32 req 4 in
  let cap_tag := msg_u32 req 8 in
  st ← get_state;
  if MAX_HOT_OBJECTS <=? hot_count st then mret (SEL4_ERR_NO_MEM, reply [AFS_ERR_NOSPACE] rep)
  else if BLOB_STORE_SIZE <? u32 (blob_watermark st + size) then mret (SEL4_ERR_NO_MEM, reply [AFS_ERR_NOSPACE] rep)
  else
  o ← lift (aget (hot_index st) (hot_count st));
  let puts := u64 (total_puts st + 1) in
  let id := simple_hash (put_seed size puts) in
  let o' := mk_obj id 1 1 size cap_tag OBJ_STATE_LIVE (blob_watermark st) 0 (o_vec o) in
  l ← lift (aset (hot_index st) (hot_count st) o');
  put_state (mk_afs l (u32 (blob_watermark st + size)) (u32 (hot_count st + 1)) puts (total_gets st) (total_vectors st)
               (g_eventbus_ep st) (afs_calls st));;
  emit_event EVT_OBJECT_CREATED id;;
  mret (SEL4_ERR_OK, reply (AFS_OK :: id_words id) rep).

Definition set_gets (n : Z) (st : afs_state) : afs_state :=
  mk_afs (hot_index st) (blob_watermark st) (hot_count st) (total_puts st) n (total_vectors st) (g_eventbus_ep st) (afs_calls st).
Definition set_vectors (n : Z) (st : afs_state) : afs_state :=
  mk_afs (hot_index st) (blob_watermark st) (hot_count st) (total_puts st) (total_gets st) n (g_eventbus_ep st) (afs_calls st).
Definition set_index (l : list agentfs_obj) (st : afs_state) : afs_state :=
  mk_afs l (blob_watermark st) (hot_count st) (total_puts st) (total_gets st) (total_vectors st) (g_eventbus_ep st) (afs_calls st).

Definition h_get : sel4_handler_fn afs_state := fun _ _ req rep =>
  st ← get_state;
  put_state (set_gets (u64 (total_gets st + 1)) st);;
  match find_object st (request_id req) with
  | None => mret (SEL4_ERR_NOT_FOUND, reply [AFS_ERR_NOENT] rep)
  | Some i =>
      o ← lift (aget (hot_index st) i);
      mret (SEL4_ERR_OK, reply [AFS_OK; o_version o; o_size o; o_cap_tag o; o_blob_offset o] rep)
  end.

Definition h_delete : sel4_handler_fn afs_state := fun _ _ req rep =>
  st ← get_state;
  match find_object st (request_id req) with
  | None => mret (SEL4_ERR_NOT_FOUND, reply [AFS_ERR_NOENT] rep)
  | Some i =>
      o ← lift (aget (hot_index st) i);
      l ← lift (aset (hot_index st) i
                  (mk_obj (o_id o) (o_scheme o) (o_version o) (o_size o) (o_cap_tag o) OBJ_STATE_TOMBSTONE
                     (o_blob_offset o) (o_vec_dim o) (o_vec o)));
      put_state (set_index l st);;
      emit_event EVT_OBJECT_DELETED (o_id o);;
      mret (SEL4_ERR_OK, reply [AFS_OK] rep)
  end.

Definition h_stat : sel4_handler_fn afs_state := fun _ _ _ rep =>
  st ← get_state;
  mret (SEL4_ERR_OK,
        reply [AFS_OK; hot_count st; blob_watermark st; u32 (total_puts st); u32 (total_gets st); u32 (total_vectors st)] rep).

Definition h_health : sel4_handler_fn afs_state := fun _ _ _ rep =>
  st ← get_state; mret (SEL4_ERR_OK, reply [AFS_OK; hot_count st; blob_watermark st] rep).

Section vectors.
(** Floating-point numbers, as their bits: [-1.0f], the similarity of two
    vectors in a number of dimensions, [>] and [< 0.01f]. *)
Context (minus_one : Z) (cosine_sim : list Z -> list Z -> Z -> Z) (above : Z -> Z -> bool) (small : Z -> bool).

(** The scan: the best score so far and its object. *)
Fixpoint best_match (l : list agentfs_obj) (query : list Z) (dim best_score : Z) (best : option agentfs_obj)
    : Z * option agentfs_obj :=
  match l with
  | [] => (best_score, best)
  | o :: l =>
      if negb (is_live o) || (o_vec_dim o =? 0) then best_match l query dim best_score best
      else
        let s := cosine_sim query (o_vec o) (if o_vec_dim o <? dim then o_vec_dim o else dim) in
        if above s best_score then best_match l query dim s (Some o) else best_match l query dim best_score best
  end.

Definition h_vector : sel4_handler_fn afs_state := fun _ _ req rep =>
  let query_dim := if 8 <? msg_u32 req 4 then 8 else msg_u32 req 4 in
  let query := ((fun i => msg_u32 req (8 + i * 4)) <$> seqZ 0 query_dim) ++ replicate (Z.to_nat (8 - query_dim)) 0 in
  st ← get_state;
  put_state (set_vectors (u64 (total_vectors st + 1)) st);;
  let '(score, best) := best_match (take (Z.to_nat (hot_count st)) (hot_index st)) query query_dim minus_one None in
  match best with
  | Some o =>
      if small score then mret (SEL4_ERR_OK, reply [AFS_OK; 0] rep)
      else mret (SEL4_ERR_OK, reply [AFS_OK; 1; be_word (aslice (o_id o) 0 4); score] rep)
  | None => mret (SEL4_ERR_OK, reply [AFS_OK; 0] rep)
  end.

Definition afs_server : sel4_server afs_state :=
  let reg srv op fn := (sel4_server_register srv op fn).2 in
  let srv := reg sel4_server_init OP_AGENTFS_PUT h_put in
  let srv := reg srv OP_AGENTFS_GET h_get in
  let srv := reg srv OP_AGENTFS_QUERY h_stat in
  let srv := reg srv OP_AGENTFS_DELETE h_delete in
  let srv := reg srv OP_AGENTFS_VECTOR h_vector in
  let srv := reg srv OP_AGENTFS_STAT h_stat in
  reg srv OP_AGENTFS_HEALTH h_health.

Definition bury (o : agentfs_obj) : agentfs_obj :=
  mk_obj (o_id o) (o_scheme o) (o_version o) (o_size o) (o_cap_tag o) OBJ_STATE_TOMBSTONE (o_blob_offset o)
    (o_vec_dim o) (o_vec o).

Definition agentfs_main (arrivals : list ((Z -> Z) * Z)) : prog afs_state (list sel4_msg) :=
  modify (fun st => mk_afs (bury <$> hot_index st) 0 0 0 0 0 (g_eventbus_ep st) (afs_calls st));;
  sel4_server_run afs_server arrivals (mk_msg 0 0 (replicate 48 0)).
End vectors.

(** ** The store *)

Definition stored (st : afs_state) : list agentfs_obj := take (Z.to_nat (hot_count st)) (hot_index st).

(** Blobs one behind the other, from [off] to [stop]. *)
Fixpoint packed (off : Z) (l : list agentfs_obj) (stop : Z) : Prop :=
  match l with
  | [] => off = stop
  | o :: l => o_blob_offset o = off /\ 0 <= o_size o /\ packed (off + o_size o) l stop
  end.

Record afs_inv (st : afs_state) : Prop := {
  ai_len : length (hot_index st) = 256%nat;
  ai_count : 0 <= hot_count st <= 256;
  ai_space : 0 <= blob_watermark st <= BLOB_STORE_SIZE;
  ai_packed : packed 0 (stored st) (blob_watermark st);
  ai_vectors : Forall (fun o => o_vec_dim o = 0) (stored st);
  ai_quiet : g_eventbus_ep st = 0 /\ afs_calls st = [] }.

Lemma packed_app l l' : forall off mid stop, packed off l mid -> packed mid l' stop -> packed off (l ++ l') stop.
Proof.
  induction l as [|o l IH]; intros off mid stop; cbn [packed app]; [by intros ->|].
  intros (? & ? & ?) ?. split_and!; [done..|]. by eapply IH.
Qed.

(** Packed blobs do not overlap. *)
Lemma packed_disjoint l : forall off stop i j a b,
  packed off l stop -> l !! i = Some a -> l !! j = Some b -> (i < j)%nat ->
  off <= o_blob_offset a /\ o_blob_offset a + o_size a <= o_blob_offset b /\ o_blob_offset b + o_size b <= stop.
Proof.
  assert (Hin : forall l off stop k o, packed off l stop -> l !! k = Some o ->
    off <= o_blob_offset o /\ o_blob_offset o + o_size o <= stop).
  { clear. induction l as [|x l IH]; intros off stop k o; [done|]. cbn [packed]. intros (Hx & Hs & Hp) Hk.
    assert (Hle : off + o_size x <= stop).
    { clear -Hp. revert Hp. generalize (off + o_size x). induction l as [|y l IH]; cbn [packed]; [lia|].
      intros z (? & ? & Hz%IH). lia. }
    destruct k as [|k]; [injection Hk as <-; lia|]. destruct (IH _ _ k o Hp Hk). lia. }
  induction l as [|x l IH]; intros off stop i j a b; [done|]. cbn [packed]. intros (Hx & Hs & Hp) Hi Hj Hlt.
  destruct j as [|j]; [lia|]. destruct i as [|i].
  - injection Hi as <-. destruct (Hin _ _ _ _ _ Hp Hj). lia.
  - destruct (IH _ _ i j a b Hp Hi Hj ltac:(lia)). lia.
Qed.

Lemma find_from_spec l id : forall k,
  match find_from k l id with
  | Some i => exists j o, i = k + Z.of_nat j /\ l !! j = Some o /\ o_state o = OBJ_STATE_LIVE /\ o_id o = id
  | None => Forall (fun o => o_state o = OBJ_STATE_LIVE -> o_id o <> id) l
  end.
Proof.
  induction l as [|o l IH]; intros k; cbn [find_from]; [constructor|]. unfold is_live.
  destruct (bool_decide_reflect (o_state o = OBJ_STATE_LIVE)) as [Hl|Hl]; cbn [andb].
  - destruct (bool_decide_reflect (o_id o = id)) as [Hi|Hi].
    + exists 0%nat, o. split_and!; [lia|done..].
    + specialize (IH (k + 1)). destruct (find_from (k + 1) l id) as [i|]; [|by constructor].
      destruct IH as (j & o' & -> & ? & ? & ?). exists (S j), o'. split_and!; [lia|done..].
  - specialize (IH (k + 1)). destruct (find_from (k + 1) l id) as [i|]; [|by constructor].
    destruct IH as (j & o' & -> & ? & ? & ?). exists (S j), o'. split_and!; [lia|done..].
Qed.

Lemma find_object_some st id i :
  afs_inv st -> find_object st id = Some i ->
  exists j o, i = Z.of_nat j /\ hot_index st !! j = Some o /\ stored st !! j = Some o /\ o_id o = id.
Proof.
  intros _ Hf. unfold find_object in Hf. fold (stored st) in Hf. pose proof (find_from_spec (stored st) id 0) as Hs.
  rewrite Hf in Hs. destruct Hs as (j & o & -> & Hj & _ & Hid). exists j, o. split_and!; [lia| |done|done].
  unfold stored in Hj. by apply lookup_take_Some in Hj as [? _].
Qed.

Lemma wp_emit_event t id Q st : g_eventbus_ep st = 0 -> Q tt st -> wp (emit_event t id) Q st.
Proof. intros He HQ. unfold emit_event. do 2 wp_step. rewrite He. by wp_step. Qed.

(** ** Each handler keeps the invariant *)

Definition answers (rep : sel4_msg) (a : Z * sel4_msg) (st' : afs_state) : Prop :=
  afs_inv st' /\ exists ws, (length ws <= 12)%nat /\ a.2 = reply ws rep.

Lemma answers_with st rep rc ws : afs_inv st -> (length ws <= 12)%nat -> answers rep (rc, reply ws rep) st.
Proof. intros. split; [done|]. by exists ws. Qed.

Section afs_handlers.
Context (st : afs_state) (I : afs_inv st) (mr : Z -> Z) (badge : Z) (req rep : sel4_msg).

Lemma wp_h_put :
  0 <= msg_u32 req 4 -> msg_u32 req 4 + BLOB_STORE_SIZE < 2 ^ 32 -> wp (h_put mr badge req rep) (answers rep) st.
Proof using I.
  intros H0 Hsz. destruct I as [Hl Hc Hw Hp Hv [He Hcalls]]. unfold h_put. set (size := msg_u32 req 4) in *. do 2 wp_step.
  unfold MAX_HOT_OBJECTS. wp_step; [wp_step; apply answers_with; [by split|cbn; lia]|]. apply Z.leb_gt in H.
  rewrite u32_small by (unfold is_u32; lia).
  wp_step; [wp_step; apply answers_with; [by split|cbn; lia]|]. apply Z.ltb_ge in H1.
  destruct (lookup_lt_is_Some_2 (hot_index st) (Z.to_nat (hot_count st))) as [o Ho]; [lia|].
  wp_step. eapply wp_lift; [apply aget_Some; split; [lia|exact Ho]|].
  wp_step. eapply wp_lift; [apply aset_Some; lia|]. do 2 wp_step. wp_step. apply wp_emit_event; [done|]. wp_step.
  apply answers_with; [|cbn; lia]. set (o' := mk_obj _ _ _ _ _ _ _ _ _).
  assert (Hst : take (Z.to_nat (u32 (hot_count st + 1))) (<[Z.to_nat (hot_count st) := o']> (hot_index st)) = stored st ++ [o']).
  { rewrite u32_small by (unfold is_u32; lia). replace (Z.to_nat (hot_count st + 1)) with (S (Z.to_nat (hot_count st))) by lia.
    rewrite (take_S_r _ _ o') by (apply list_lookup_insert_eq; lia). by rewrite take_insert_ge. }
  split; unfold stored; cbn [hot_index hot_count blob_watermark g_eventbus_ep afs_calls]; rewrite ?Hst.
  - by rewrite length_insert.
  - rewrite u32_small by (unfold is_u32; lia). lia.
  - lia.
  - eapply packed_app; [exact Hp|]. cbn. split_and!; [done|done|lia].
  - apply Forall_app. split; [done|]. by apply Forall_singleton.
  - done.
Qed.

Lemma wp_h_get : wp (h_get mr badge req rep) (answers rep) st.
Proof using I.
  unfold h_get. do 2 wp_step. wp_step. wp_step.
  assert (I' : afs_inv (set_gets (u64 (total_gets st + 1)) st)) by (by destruct I; split).
  destruct (find_object st (request_id req)) as [i|] eqn:Hf; [|wp_step; apply answers_with; [done|cbn; lia]].
  destruct (find_object_some st _ i I Hf) as (j & o & -> & Hj & _).
  wp_step. eapply wp_lift; [apply aget_Some; split; [lia|rewrite Nat2Z.id; exact Hj]|]. wp_step.
  apply answers_with; [done|cbn; lia].
Qed.

Lemma stored_insert j o o' :
  stored st !! j = Some o -> take (Z.to_nat (hot_count st)) (<[j := o']> (hot_index st)) = <[j := o']> (stored st).
Proof using I.
  intros Hj. unfold stored in *. apply lookup_take_Some in Hj as [_ Hj]. by rewrite take_insert_lt.
Qed.

Lemma packed_insert l : forall off stop j o o',
  packed off l stop -> l !! j = Some o -> o_blob_offset o' = o_blob_offset o -> o_size o' = o_size o ->
  packed off (<[j := o']> l) stop.
Proof using.
  induction l as [|x l IH]; intros off stop j o o'; [done|]. cbn [packed]. intros (? & ? & Hp) Hj Ho Hs.
  destruct j as [|j]; cbn [packed].
  - injection Hj as ->. change (<[0%nat := o']> (o :: l)) with (o' :: l). cbn [packed]. rewrite Ho, Hs. done.
  - change (<[S j := o']> (x :: l)) with (x :: <[j := o']> l). cbn [packed]. split_and!; [done..|]. by eapply IH.
Qed.

Lemma wp_h_delete : wp (h_delete mr badge req rep) (answers rep) st.
Proof using I.
  unfold h_delete. do 2 wp_step.
  destruct (find_object st (request_id req)) as [i|] eqn:Hf; [|wp_step; apply answers_with; [done|cbn; lia]].
  destruct (find_object_some st _ i I Hf) as (j & o & -> & Hj & Hs & _). pose proof (lookup_lt_Some _ _ _ Hj).
  wp_step. eapply wp_lift; [apply aget_Some; split; [lia|rewrite Nat2Z.id; exact Hj]|].
  wp_step. eapply wp_lift; [apply aset_Some; lia|]. rewrite Nat2Z.id. do 3 wp_step.
  apply wp_emit_event; [apply I|]. wp_step. apply answers_with; [|cbn; lia].
  destruct I as [Hl Hc Hw Hp Hv [He Hcalls]].
  split; unfold stored; cbn [set_index hot_index hot_count blob_watermark g_eventbus_ep afs_calls];
    rewrite ?(stored_insert j o) by done; [by rewrite length_insert|done|done| | |done].
  - by eapply packed_insert.
  - apply Forall_insert; [done|]. cbn. exact (Forall_lookup_1 _ _ _ _ Hv Hs).
Qed.

Lemma best_match_none cos above l q dim score :
  Forall (fun o => o_vec_dim o = 0) l -> best_match cos above l q dim score None = (score, None).
Proof using.
  induction 1 as [|o l Ho _ IH]; [done|]. cbn [best_match]. rewrite Ho. by rewrite orb_true_r.
Qed.

(** No object has an embedding, so a query never has a result. *)
Lemma wp_h_vector minus_one cos above small :
  wp (h_vector minus_one cos above small mr badge req rep)
    (fun a st' => a = (SEL4_ERR_OK, reply [AFS_OK; 0] rep) /\ afs_inv st') st.
Proof using I.
  unfold h_vector. do 4 wp_step. fold (stored st). rewrite best_match_none by apply I. wp_step.
  split; [done|]. by destruct I; split.
Qed.
End afs_handlers.

(** ** The service *)

Section afs_service.
Context (minus_one : Z) (cosine_sim : list Z -> list Z -> Z -> Z) (above : Z -> Z -> bool) (small : Z -> bool).

(** A PUT that asks for less than 2^32 bytes minus the store. *)
Definition put_bounded (a : (Z -> Z) * Z) : Prop :=
  let req := sel4_mrs_to_msg a.1 in
  m_opcode req = OP_AGENTFS_PUT -> msg_u32 req 4 + BLOB_STORE_SIZE < 2 ^ 32.

Lemma msg_u32_nonneg mr off : 0 <= msg_u32 (sel4_mrs_to_msg mr) off.
Proof using.
  unfold msg_u32. case_cmp; [lia|]. apply le_val_bound, aslice_u8. cbn [sel4_mrs_to_msg m_data fmap list_fmap concat].
  rewrite !Forall_app, !unpack_word_bytes. by repeat split; try apply le_bytes_u8.
Qed.

Lemma afs_server_handler op :
  find_handler (afs_server minus_one cosine_sim above small) op None =
  if op =? OP_AGENTFS_PUT then Some h_put
  else if op =? OP_AGENTFS_GET then Some h_get
  else if op =? OP_AGENTFS_QUERY then Some h_stat
  else if op =? OP_AGENTFS_DELETE then Some h_delete
  else if op =? OP_AGENTFS_VECTOR then Some (h_vector minus_one cosine_sim above small)
  else if op =? OP_AGENTFS_STAT then Some h_stat
  else if op =? OP_AGENTFS_HEALTH then Some h_health
  else None.
Proof using.
  change (afs_server minus_one cosine_sim above small) with
    [(OP_AGENTFS_PUT, h_put); (OP_AGENTFS_GET, h_get); (OP_AGENTFS_QUERY, h_stat); (OP_AGENTFS_DELETE, h_delete);
     (OP_AGENTFS_VECTOR, h_vector minus_one cosine_sim above small); (OP_AGENTFS_STAT, h_stat); (OP_AGENTFS_HEALTH, h_health)].
  cbn [find_handler]. rewrite !(Z.eqb_sym op). done.
Qed.

Lemma wp_afs_round mr badge rep st :
  afs_inv st -> put_bounded (mr, badge) -> length (m_data rep) = 48%nat ->
  wp (sel4_server_round (afs_server minus_one cosine_sim above small) mr badge rep)
    (fun rep' st' => afs_inv st' /\ length (m_data rep') = 48%nat) st.
Proof using.
  intros I Hput Hl. unfold sel4_server_round, sel4_server_dispatch. set (req := sel4_mrs_to_msg mr) in *.
  set (rep0 := mk_msg 0 0 (m_data rep)). unfold put_bounded in Hput. cbn [fst] in Hput. fold req in Hput.
  assert (Hone : forall fn, wp (fn mr badge req rep0) (answers rep0) st ->
    wp ('(_, rep') ← ('(rc, rep') ← fn mr badge req rep0; mret (rc, set_opcode rc rep')); mret rep')
      (fun rep' st' => afs_inv st' /\ length (m_data rep') = 48%nat) st).
  { intros fn Hw. do 2 wp_step. eapply wp_mono; [exact Hw|].
    intros [rc rep'] st' [I' (ws & Hws & Hrep)]. cbn [snd] in Hrep. subst rep'. do 2 wp_step. split; [done|].
    rewrite reply_spec by done. cbn [set_opcode m_data]. change (m_data rep0) with (m_data rep).
    rewrite length_app, length_drop, length_word_bytes, Hl. lia. }
  assert (Hstat : wp (h_stat mr badge req rep0) (answers rep0) st)
    by (unfold h_stat; do 3 wp_step; apply answers_with; [done|cbn; lia]).
  assert (Hhealth : wp (h_health mr badge req rep0) (answers rep0) st)
    by (unfold h_health; do 3 wp_step; apply answers_with; [done|cbn; lia]).
  rewrite afs_server_handler. fold req.
  case_cmp; [apply Hone, wp_h_put; [done|apply msg_u32_nonneg|by apply Hput]|].
  case_cmp; [by apply Hone, wp_h_get|]. case_cmp; [by apply Hone|]. case_cmp; [by apply Hone, wp_h_delete|].
  case_cmp.
  { apply Hone. eapply wp_mono; [by apply wp_h_vector|]. intros a st' [-> I']. apply answers_with; [done|cbn; lia]. }
  case_cmp; [by apply Hone|]. case_cmp; [by apply Hone|]. by do 3 wp_step.
Qed.

Lemma wp_afs_run arrivals : forall rep st,
  afs_inv st -> Forall put_bounded arrivals -> length (m_data rep) = 48%nat ->
  wp (sel4_server_run (afs_server minus_one cosine_sim above small) arrivals rep)
    (fun reps st' => afs_inv st' /\ length reps = length arrivals) st.
Proof using.
  induction arrivals as [|[mr badge] arrivals IH]; intros rep st I Hb Hl; cbn [sel4_server_run]; [by wp_step|].
  apply Forall_cons in Hb as [Hb Hbs]. wp_step. eapply wp_mono; [by apply wp_afs_round|]. intros rep' st' [I' Hl'].
  wp_step. eapply wp_mono; [by apply IH|]. intros reps st'' [I'' Hr]. wp_step. cbn [length]. by rewrite Hr.
Qed.

(** The store stays consistent. From boot, for every sequence of messages
    whose sizes are below 2^32 minus the size of the store, the service
    answers each of them, never leaves its tables, keeps the blobs of the
    objects inside the store and disjoint, finds no embedding to compare, and
    never sends a message to the event bus, whose endpoint is never set. *)
Theorem agentfs_packed arrivals st :
  length (hot_index st) = 256%nat -> g_eventbus_ep st = 0 -> afs_calls st = [] -> Forall put_bounded arrivals ->
  wp (agentfs_main minus_one cosine_sim above small arrivals)
    (fun reps st' => length reps = length arrivals /\ afs_calls st' = [] /\
       forall i j a b, stored st' !! i = Some a -> stored st' !! j = Some b -> (i < j)%nat ->
         0 <= o_blob_offset a /\ o_blob_offset a + o_size a <= o_blob_offset b /\
         o_blob_offset b + o_size b <= BLOB_STORE_SIZE) st.
Proof using.
  intros Hl He Hc Hb. unfold agentfs_main. do 2 wp_step. eapply wp_mono; [apply wp_afs_run; [|done|done]|].
  { split; unfold stored; cbn; [by rewrite length_fmap|lia|unfold BLOB_STORE_SIZE; lia|done|constructor|done]. }
  intros reps st' [I Hr]. split_and!; [done|apply I|]. intros i j a b Hi Hj Hlt.
  destruct (packed_disjoint _ _ _ i j a b (ai_packed _ I) Hi Hj Hlt) as (? & ? & ?). pose proof (ai_space _ I). lia.
Qed.
End afs_service.

(** ** What the code does not do *)

(** A name has 32 bytes and a request carries 16: what does not end in
    sixteen zeros is not found. *)
Theorem agentfs_get_misses st mr badge req rep :
  Forall (fun o => drop 16 (o_id o) <> replicate 16 0) (stored st) ->
  wp (h_get mr badge req rep) (fun a _ => a = (SEL4_ERR_NOT_FOUND, reply [AFS_ERR_NOENT] rep)) st.
Proof.
  intros Hs. unfold h_get. do 4 wp_step. unfold find_object. fold (stored st).
  pose proof (find_from_spec (stored st) (request_id req) 0) as Hf.
  destruct (find_from 0 (stored st) (request_id req)) as [i|]; [|by wp_step].
  destruct Hf as (j & o & _ & Hj & _ & Hid). exfalso. apply (Forall_lookup_1 _ _ _ _ Hs Hj). by rewrite Hid.
Qed.

Definition afs_message (op : Z) (words : list Z) : (Z -> Z) * Z :=
  (fun i => sel4_msg_to_mrs (rep_words 0 words (mk_msg op (4 * Z.of_nat (length words)) (replicate 48 0))) !!! Z.to_nat i, 0).

Definition empty_store : afs_state :=
  mk_afs (replicate 256 (mk_obj [] 0 0 0 0 OBJ_STATE_TOMBSTONE 0 0 [])) 0 0 0 0 0 0 [].

Definition no_cosine (a b : list Z) (d : Z) : Z := 0.

Definition run_store (arrivals : list ((Z -> Z) * Z)) : option (list Z * list (Z * Z)) :=
  match agentfs_main 0 no_cosine (fun _ _ => false) (fun _ => true) arrivals empty_store with
  | Some (reps, st) => Some (m_opcode <$> reps, (fun o => (o_blob_offset o, o_size o)) <$> stored st)
  | None => None
  end.

(** An object of 64 bytes is stored, and asking for the name that the reply
    gave does not find it. *)
Lemma agentfs_put_get :
  let id := id_words (simple_hash (put_seed 64 1)) in
  run_store [afs_message OP_AGENTFS_PUT [0; 64; 0]; afs_message OP_AGENTFS_GET (0 :: id)]
  = Some ([SEL4_ERR_OK; SEL4_ERR_NOT_FOUND], [(0, 64)]).
Proof. vm_compute. reflexivity. Qed.

(** The sum of watermark and size wraps: an object of nearly 4 GB is
    accepted, and the one after it lies on the first. *)
Lemma agentfs_put_wraps :
  run_store [afs_message OP_AGENTFS_PUT [0; 4096; 0]; afs_message OP_AGENTFS_PUT [0; 2 ^ 32 - 4096; 0];
             afs_message OP_AGENTFS_PUT [0; 4096; 0]]
  = Some ([SEL4_ERR_OK; SEL4_ERR_OK; SEL4_ERR_OK], [(0, 4096); (4096, 2 ^ 32 - 4096); (0, 4096)]).
Proof. vm_compute. reflexivity. Qed.
